(* ===== verification/_CoqProject ===== *)
-Q . S2P
Prelude.v
Utf8.v
RuleLexer.v
RuleParser.v
RuleSyntax.v
RuleEval.v
Brn.v
Sandbox.v
Command.v
SandboxFsm.v
SandboxRepo.v
Pool.v
Sanitizer.v
WorkerAuth.v
WorkerLink.v
Registry.v
CommandExtractor.v
Normalizer.v
Extractors.v
Pipeline.v
Render.v
Metrics.v
RunStore.v
Adapter.v
SandboxFs.v
Fmt.v
Optimizer.v
Experience.v
Catalog.v
Advice.v
Shim.v
Hub.v
Orientation.v
ProviderTypes.v
ProviderInstances.v
SandboxDb.v
CatalogStore.v
Schema.v
UseCases.v
Readiness.v
Toolchain.v
Materialize.v
Container.v
Worker.v
WorkerProc.v
Session.v
Gateway.v
Tools.v
Prepare.v
Sync.v
DoctorChecks.v
HostProviders.v
Images.v
Gvisor.v
Firecracker.v
Drivers.v
Projects.v
Events.v
Dashboard.v
Credentials.v
Backends.v
ExperienceDb.v
MetricsHistory.v
QueryTools.v
PipelineEvents.v
Expiry.v
Startup.v
WorkerCerts.v
Toolbox.v
Bootstrap.v
TestHarness.v
