(* ===== verification/Prelude.v ===== *)
(** * Bastion: a verification library

    Bastion is a gateway that gives agents disposable sandboxes: it keeps pools
    of sandboxes warm, routes commands to the worker process inside each one,
    guards its resources with capability tokens, and turns the output of a
    command into facts for the agent.  This library models the repository's Rust
    code, from the rule language to the providers of machines, and proves what
    its parts promise.  Paths below are under [src/crates].

    ** Parts and files

    The enrichment engine ([enrichment-engine/src]): a command and its output go
    in, an [AgentContext] comes out.
    - [RuleLexer] ([rules/lexer.rs]), [RuleParser] ([rules/ast.rs]): the rule
      language; [RuleSyntax] prints expressions and shows that parsing inverts
      printing.
    - [RuleEval] ([models/mod.rs], [models/rule.rs], [rules/ast.rs],
      [rules/evaluator.rs]): facts, evaluation of a condition, the evaluator.
    - [CommandExtractor] ([extractors/command_extractor.rs]): the tokenizer and
      classifier of command lines.
    - [Extractors] ([traits/mod.rs], the other [extractors/*.rs]): the
      [Extractor] trait as a class with its law, and its implementations.
    - [Normalizer] ([normalizer.rs]): deduplication of facts and threshold.
    - [Pipeline] ([intent.rs], [pipeline.rs]): selection of an enricher, caches,
      extraction, rules, normalization, context; it composes the files above.
    - [Render] ([composer.rs], [truncate.rs]): templates and truncation.
    - [Sanitizer] ([sanitizer.rs]): redaction of secrets in stored commands.
    - [Metrics] ([metrics.rs]): counters, ring of completion times, percentiles.
    - [Optimizer] ([optimizer.rs]): scores of the enrichers on IEEE doubles.

    The domain ([bastion-domain/src]):
    - [Brn] ([shared/brn.rs]): resource names and the capability policy.
    - [Sandbox] ([shared/error.rs], [sandbox/value_objects.rs],
      [sandbox/entity.rs]): the sandbox aggregate; [SandboxFsm]
      ([provider/state_machine.rs], twice): the shared table of states, and its
      agreement with the aggregate.
    - [Command] ([execution], [file_ops], [secret.rs]): commands, streamed
      output, secrets, with the resolvers of the infrastructure.
    - [Projects] ([project], and the manager of projects of
      [bastion-dashboard/src/project]).
    - [ProviderTypes] ([provider/*.rs]): capabilities, types, constraints,
      configurations, locations and references of providers.
    - [Experience], [Catalog], [Advice] ([catalog/*.rs], their TOML descriptors
      in the infrastructure, their use cases in the application): evidence of
      executions, assertions, suggestions, and the doctors of templates, that of
      the use cases and its copy in the gateway ([doctor_tools.rs]).
    - [Orientation] ([orientation], with the gateway's tools): the template
      recommender.
    - [Toolchain] ([template], with the infrastructure's adapters): how a
      capability becomes a plan.

    The application ([bastion-application/src]): [UseCases] creates, lists,
    uses and ends sandboxes over a repository and a provider.

    The infrastructure ([bastion-infrastructure/src]):
    - [SandboxRepo] (the ports of the pool and [persistence/in_memory.rs]),
      [SandboxDb] ([persistence/sqlite_repository.rs]): the two repositories;
      [Pool] ([pool/manager.rs]): the pool manager, proved against the ports.
    - [RunStore] ([enrichment/sqlite_worker.rs]), [CatalogStore]
      ([enrichment/sqlite_repo.rs]), [Schema] (both migrations): the enrichment
      databases; [Adapter] ([adapter.rs], [config.rs]): the entry points around
      [Pipeline]; [SandboxFs] ([fs.rs]): the extractors' file system over shell
      commands; [Shim] ([evaluation/legacy_cel_shim.rs]).
    - [ExperienceDb] ([catalog/sqlite_experience_store.rs]): the store of
      experiences.
    - [Hub] ([metrics]): counters, gauges and the history of configurations;
      [MetricsHistory] ([metrics/hub.rs]): its table of metrics.
    - [ProviderInstances] ([provider/toml_repository.rs], [factory.rs],
      [registry.rs]): configured providers.
    - The providers ([provider/*.rs]): [Container] (Podman, and with [Drivers]
      Docker; snapshots), [HostProviders] (local and Wasm), [Images] (images,
      bundles, network devices), [Gvisor], [Firecracker].
    - [Materialize] ([template]): stores, layers and materializers; [Backends]
      ([template/sync]): the two ways to copy a directory.
    - [DoctorChecks] ([doctor]): the checks of the machine.

    The gateway ([bastion-gateway/src]):
    - [WorkerAuth], [WorkerLink], [Registry] ([registry.rs]): the registration
      handshake; rate limiter and circuit breaker of a connection; the table of
      workers, routing, streaming, pipelines and the watchdog.
    - [Gateway] ([server.rs], [sandbox_tools_helpers.rs]): the state of the
      gateway and its limits; [Readiness], [Tools], [Prepare], [Sync]
      ([sandbox_tools.rs]): its tools over sandboxes; [QueryTools]
      ([catalog_tools.rs], [enrichment_tools.rs], [metrics_tools.rs]): its tools
      over what was recorded; [Toolbox] ([orientation_tools.rs],
      [doctor_tools.rs], the routers): what it says of itself.
    - [Credentials] ([auth.rs], [auto_tls.rs]): keys, tokens and certificates;
      [WorkerCerts] ([server.rs], [main.rs], the worker's [main.rs]): which
      connections between worker and gateway come about.
    - [PipelineEvents] ([pipeline_events.rs], [main.rs]): the stream of events;
      [Expiry] ([main.rs]): the enforcer of expirations; [Startup] ([main.rs],
      [pool/manager.rs]): how all of this is put together.

    The worker ([bastion-worker/src/main.rs]): [Worker] has the handlers,
    [WorkerProc] the table of running processes under interleaving; [Session]
    puts gateway and worker together, message by message.  [Bootstrap]
    ([bastion-bootstrap/src/main.rs]) fetches and runs it.

    The dashboard ([bastion-dashboard/src]): [Events] ([api/events.rs],
    [server/handlers/events.rs]), [Dashboard] (the client, the handlers).

    [TestHarness] ([bastion-test-harness/src]): the durations of tests, and how the
    programs are started for a test.

    [Prelude], [Utf8] and [Fmt] are what all of these share: results, strings,
    encodings and what [std::fmt] prints.

    ** Interfaces

    [ProviderPort] and [Repository] (with [RepositoryLaws]) of [SandboxRepo] are
    what [Pool] and [UseCases] are proved against; the in-memory repository
    discharges the laws.  [UseCases.Provider] is the record of operations of a
    provider, over which [Materialize], [Gateway] and the tools run.  [Extractor]
    with [ExtractorLaws] is what [Pipeline] relies on.  [Dashboard.DashboardApi] is
    what the handlers of the dashboard call, and its client implements.

    ** Conventions

    Definitions carry the source's names; a method of [&mut self] takes the
    state and returns it.  A string is the list of its code points ([str]), a
    character an [N], a byte offset the sum of UTF-8 lengths; the sanitizer,
    which works on bytes, has its own [bytes]; [Utf8] translates between the two
    the way the standard library does.  Machine integers are [Z] with
    the wrap-around or the range check written out ([as_i32], [parse_u32]);
    floats are the [spec_float]s of IEEE 754.  [Result] is [result], a panic is
    [None] where the file says so, and a recursion that is not structural runs
    on fuel with [None] for having run out.  A [HashMap] or [DashMap] is a
    [gmap]; where the iteration order of a [HashMap] can be observed it is the
    parameter [HashOrder].  Every method of the concurrent tables is an atomic
    step; interleavings are lists of steps ([fsm_run], [auth_run], the tasks of
    [WorkerProc], [Tools.Streams]).  The pool's operations suspend while they
    create a sandbox: they are sequences of the actions of [Pool.acts], and
    [pool_invariant] is over every interleaving of these; elsewhere an operation of
    the pool, like every other one, is one run without interleaving.  Asynchronous calls return their result; a channel is what it
    delivers.  What changes the world outside takes it and returns it.

    Code that is not in the repository is a class parameter with its documented
    behaviour as fields or as a class of laws, and a concrete instance on which
    the witnesses run:
    - texts and tables: [UnicodeTables], [WordTable], [DebugTables],
      [Lowercase], [RegexEngine], [RegexCaptures], [Chrono], [JsonValue],
      [JsonText], [AnswerTexts], [SandboxText], [CatalogText], [InstanceToml],
      [ProjectToml], [StateJson], [EventJson], [PipelineJson], [ApiJson],
      [InstantText], [ExperienceText];
    - algorithms: [BitFlags] (the bitflags macro), [HmacSha256], [Jwt], [Rcgen],
      SHA-256 and the repackaging of archives (arguments of [Materialize]),
      [HashOrder];
    - databases: the tables are [gmap]s whose statements may each fail ([Db],
      [SandboxSql], [CatalogSql], [SchemaSql], [ExperienceSql], [MetricsSql]) and
      whose order of rows is a parameter ([SqlOrder], [SqlRows],
      [ExperienceOrder], [MetricOrder]);
    - the machine: [Host], [HostFs], [ProjectFs], [ImageFs], [Os], [LocalHost],
      [Probe], [HostProbe], [DoctorPorts], [Processes], [Machines], [Socket],
      [Console], [IpTool], [SyncHost], [BootHost], [Entropy], the clock and
      generator of ids of [Environment];
    - services: [Docker], [Router], [SecretResolver], [ToolPorts], [Http],
      [Handshake], the message channels of [Registry.WorkerLink].

    Logging is left out.

    ** What is proved

    - Languages: the lexer ends and its tokens cover the text; the parser ends
      on every input, returns well-formed expressions and inverts the printer,
      which fixes precedence and associativity; resource names parse exactly the
      printed forms; the command tokenizer inverts quoting and is word splitting
      on plain commands; templates render segment by segment; both evaluations
      of a check agree where the shim says so.
    - Evaluation: the output of the rules is that of the fired rules in order of
      priority; the quantified conditions mean what they say.
    - Enrichment: the normalizer is a function of each key's facts, independent
      of the hash order and idempotent; the pattern cache is transparent up to
      order; every fact of a context is above the threshold and is accounted for.
    - Telemetry: recording never changes the answer of a call; however calls
      interleave the records being written stay within the limit and the counter
      is exact; a record is bounded, and read back from the table as it was
      written, with its text sanitized where the configuration says so; a cleanup deletes exactly what the policy says; and what goes
      wrong: diagnostics are never counted, and a row limit above the signed
      range empties the table.
    - Databases: an enricher and a rule are read back as they were saved, the
      others untouched; so is a sandbox whose times have years of four digits, and
      what a time without does to the queries and to the enforcer; the
      reconciliation with a provider ends with the provider's view;
      a migration reaches the current schema from every earlier one.
    - Security: which requests the capability policy grants; over any history of
      calls a proof of registration is accepted exactly when it answers the open
      challenge, once; the sanitizer never panics and redacts assignments; the
      paths of the local provider stay inside its directory as far as the code
      sees to it; an artifact is unpacked only after its digest was checked; and
      the holes: unauthenticated registration, takeover through the stream,
      secrets in quotes.
    - State machines: every call on the table of sandboxes meets the contract of that
      very call, over the moves that are documented; terminal states are final, aggregate and table agree; the
      circuit breaker refines a counter that trips for thirty seconds; the
      bucket grants exactly its burst.
    - The pool: its invariant over every interleaving of its operations, the accounting
      of idle sandboxes, refill that leaves at least the minimum of idle ones, first-in first-out checkout, recovery
      that loses no sandbox, and the absence of a bound on the total.
    - Routing: a command reports the worker's output and exit, records one
      outcome on the breaker and leaves nothing pending; through gateway and
      worker together a command's answer is what the process did.
    - Tools and use cases: commands only reach active sandboxes; a capability
      that was prepared can be run; creation stays within its limits; a stream
      that is cancelled stops, and only that one; the tools over stores answer
      what the use cases compute; the briefing promises no more than is served.
    - Providers: what each operation leaves in the world on every branch; the
      waits end; what a failed creation leaves behind.
    - Start and transport: what the gateway makes of its command line and its disk,
      with and without a container runtime; the enforcer ends exactly the expired
      sandboxes; which workers can connect at all; the certificates and tokens it
      issues survive a restart; the bootstrap runs only what it verified.
    - Projects and dashboard: a project is loaded as it was saved; a stream of
      events is read event by event; what each handler answers; a client of the
      stream of pipeline events misses nothing unless it falls behind, and the
      dashboard's reader drops all of it.

    ** Fuel

    The lexer gets one more than the number of characters, the parser one more
    than that again (each level of the grammar either consumes a token or goes
    down a level, see [parse_total]); the sanitizer the number of bytes, the
    command tokenizer, the template renderer and the trimming of patterns the
    number of characters (every step consumes one); the refill of a queue the
    number of entries it lacks (every turn that goes on adds one); the UTF-8
    decoder the number of bytes; the consumption of a stream the number of its
    chunks; rounding up and the printing of a double the number of their digits;
    the copy of a directory and the walk over it the depth of the tree
    ([copy_dir_ends], [walkdir_spec]); the polling
    of gVisor and Firecracker one more turn than their deadline has intervals
    ([poll_ends], [fc_waits_end]).  The theorems named [_total] or [_ends], and
    those that state a result outright, show that the fuel is never exhausted.

    ** What is not modelled

    - The forwarding of the unified provider to its two halves
      ([provider/compat.rs]), accessors and builders of the value types, and the
      references to volumes and secrets beyond [ProviderTypes]: no code of the
      system computes with them.
    - The structs of [config/loader.rs], which nothing reads; the optional watchers
      of files; the stub that stands for the Wasm provider when it is not built.
    - Binding ports, serving HTTP and gRPC, spawning tasks, the timers of the ping,
      the watchdog and the pruning; what a tick of theirs does is modelled.
    - Decoding the calls of tools and writing their answers as JSON; logging.
    - The creation of the tables of experiences and metrics; the schemas with
      migrations are in [Schema].
    - Interleavings of the tools, and of the pool beyond its queues and permits:
      there each operation is one run.
    - The pages and the table of routes of the dashboard; the dialogue of the test
      harness with the processes it starts. *)

From stdpp Require Export base list strings gmap.
From Stdlib Require Export ZArith NArith Lia Ascii ZifyN ZifyNat Sorted.
From Stdlib Require Import SpecFloat.

(** ** Results *)

(** Rust's [Result<A, E>]. *)
Inductive result (E A : Type) : Type :=
| Ok (a : A)
| Err (e : E).
Arguments Ok {E A} _.
Arguments Err {E A} _.

#[export] Instance result_ret E : MRet (result E) := fun A a => Ok a.
#[export] Instance result_bind E : MBind (result E) :=
  fun A B k m => match m with Ok a => k a | Err e => Err e end.
#[export] Instance result_fmap E : FMap (result E) :=
  fun A B f m => match m with Ok a => Ok (f a) | Err e => Err e end.
#[export] Instance result_eq_dec E A `{EqDecision E, EqDecision A} :
  EqDecision (result E A).
Proof. solve_decision. Defined.

Definition is_ok {E A} (r : result E A) : bool :=
  match r with Ok _ => true | Err _ => false end.

(** [Result::map_err]. *)
Definition map_err {E E' A} (f : E -> E') (r : result E A) : result E' A :=
  match r with Ok a => Ok a | Err e => Err (f e) end.

(** [Option::ok_or]. *)
Definition ok_or {E A} (o : option A) (e : E) : result E A :=
  match o with Some a => Ok a | None => Err e end.

(** [?] on an operation that takes the world and returns it. *)
Definition and_then {E A B W} (r : result E A * W) (k : A -> W -> result E B * W) : result E B * W :=
  match r with
  | (Ok a, w) => k a w
  | (Err e, w) => (Err e, w)
  end.
Declare Scope bastion_scope.
Delimit Scope bastion_scope with bastion.
Notation "'let?' ( x , w ) := r 'in' k" := (and_then r (fun x w => k))
  (at level 10, x name, w name, r at level 200, k at level 200, only parsing) : bastion_scope.
#[global] Open Scope bastion_scope.

(** ** Characters and strings

    A Rust [str] is a sequence of Unicode scalar values: [char] is the code
    point and [str] the list of them.  A byte offset into the [str] is the sum
    of the UTF-8 lengths of the characters before it ([str_len]). *)

Abbreviation char := N (only parsing).
Abbreviation str := (list N) (only parsing).

(** A string literal of the source (all of them are ASCII). *)
Definition lit (s : string) : str := map N_of_ascii (String.list_ascii_of_string s).
Definition chr (a : ascii) : char := N_of_ascii a.
Arguments chr a%_char_scope : simpl never.
Arguments lit s%_string_scope : simpl never.

(** [char::len_utf8]. *)
Definition len_utf8 (c : char) : N :=
  if (c <? 0x80)%N then 1%N
  else if (c <? 0x800)%N then 2%N
  else if (c <? 0x10000)%N then 3%N else 4%N.

(** [str::len]: the length in bytes. *)
Fixpoint str_len (s : str) : N :=
  match s with [] => 0%N | c :: s' => (len_utf8 c + str_len s')%N end.

(** Bytes, and the UTF-8 encoding of a character and of a string. *)
Abbreviation byte := N (only parsing).
Abbreviation bytes := (list N) (only parsing).

Definition utf8_char (c : char) : bytes :=
  (if c <? 0x80 then [c]
   else if c <? 0x800 then [0xC0 + c / 64; 0x80 + c mod 64]
   else if c <? 0x10000 then [0xE0 + c / 4096; 0x80 + c / 64 mod 64; 0x80 + c mod 64]
   else [0xF0 + c / 262144; 0x80 + c / 4096 mod 64; 0x80 + c / 64 mod 64; 0x80 + c mod 64])%N.

Definition utf8 (s : str) : bytes := flat_map utf8_char s.

Definition in_range (lo hi c : N) : bool := (lo <=? c)%N && (c <=? hi)%N.

Definition is_ascii_digit (c : char) : bool := in_range 48 57 c.
Definition is_ascii_lowercase (c : char) : bool := in_range 97 122 c.
Definition is_ascii_uppercase (c : char) : bool := in_range 65 90 c.
Definition is_ascii_alphabetic (c : char) : bool :=
  is_ascii_lowercase c || is_ascii_uppercase c.
Definition is_ascii_alphanumeric (c : char) : bool :=
  is_ascii_alphabetic c || is_ascii_digit c.

(** [char::is_whitespace]: the Unicode [White_Space] property. *)
Definition is_whitespace (c : char) : bool :=
  in_range 9 13 c || (c =? 0x20)%N || (c =? 0x85)%N || (c =? 0xA0)%N
  || (c =? 0x1680)%N || in_range 0x2000 0x200A c || (c =? 0x2028)%N
  || (c =? 0x2029)%N || (c =? 0x202F)%N || (c =? 0x205F)%N || (c =? 0x3000)%N.

(** [char::is_alphanumeric] consults the Unicode tables outside ASCII: those
    tables are an argument of the model. *)
Class UnicodeTables := uni_alphanumeric : N -> bool.

Definition is_alphanumeric `{UnicodeTables} (c : char) : bool :=
  if (c <? 0x80)%N then is_ascii_alphanumeric c else uni_alphanumeric c.

(** The tables restricted to ASCII, for evaluation on concrete inputs. *)
Definition ascii_tables : UnicodeTables := fun _ => false.

Definition str_eqb (a b : str) : bool := bool_decide (a = b).

Fixpoint starts_with (pre s : str) : bool :=
  match pre, s with
  | [], _ => true
  | p :: pre', c :: s' => (p =? c)%N && starts_with pre' s'
  | _ :: _, [] => false
  end.

(** [str::contains(&str)]. *)
Fixpoint str_contains (s pat : str) : bool :=
  starts_with pat s || match s with [] => false | _ :: s' => str_contains s' pat end.

(** [str::strip_prefix]. *)
Definition strip_prefix (pre s : str) : option str :=
  if starts_with pre s then Some (drop (length pre) s) else None.

(** [str::replace] of a character. *)
Definition replace_char (c : char) (rep s : str) : str :=
  flat_map (fun d => if (d =? c)%N then rep else [d]) s.

(** The longest prefix whose characters satisfy [f], and what follows it. *)
Fixpoint span (f : N -> bool) (s : str) : str * str :=
  match s with
  | [] => ([], [])
  | c :: s' => if f c then let '(a, b) := span f s' in (c :: a, b) else ([], s)
  end.

Definition trim_start (s : str) : str := snd (span is_whitespace s).
Definition trim_end (s : str) : str := rev (trim_start (rev s)).
(** [str::trim]. *)
Definition trim (s : str) : str := trim_end (trim_start s).

(** [str::split(c)]: the pieces between the separators (at least one). *)
Fixpoint split_on (sep : char) (s : str) : list str :=
  match s with
  | [] => [[]]
  | c :: s' =>
      if (c =? sep)%N then [] :: split_on sep s'
      else match split_on sep s' with
           | p :: ps => (c :: p) :: ps
           | [] => [[c]]
           end
  end.

(** [str::split_once(c)]. *)
Fixpoint split_once (sep : char) (s : str) : option (str * str) :=
  match s with
  | [] => None
  | c :: s' =>
      if (c =? sep)%N then Some ([], s')
      else match split_once sep s' with
           | Some (a, b) => Some (c :: a, b)
           | None => None
           end
  end.

(** ** Machine integers *)

Definition i32_min : Z := (-2147483648)%Z.
Definition i32_max : Z := 2147483647%Z.
Definition i64_min : Z := (-9223372036854775808)%Z.
Definition i64_max : Z := 9223372036854775807%Z.
Definition u32_max : Z := 4294967295%Z.
Definition u64_max : Z := 18446744073709551615%Z.

(** [x as i32], [x as i64], [x as u32], [x as u64]: truncation to the low bits. *)
Definition as_i32 (z : Z) : Z := ((z + 2147483648) mod 4294967296 - 2147483648)%Z.
Definition as_i64 (z : Z) : Z :=
  ((z + 9223372036854775808) mod 18446744073709551616 - 9223372036854775808)%Z.
Definition as_u32 (z : Z) : Z := (z mod 4294967296)%Z.
Definition as_u64 (z : Z) : Z := (z mod 18446744073709551616)%Z.

(** Decimal digits of a natural number, most significant first. *)
Fixpoint digits_aux (fuel : nat) (n : N) (acc : str) : str :=
  match fuel with
  | O => acc
  | S f =>
      let acc' := ((48 + n mod 10)%N :: acc) in
      if (n <? 10)%N then acc' else digits_aux f (n / 10)%N acc'
  end.
Definition show_N (n : N) : str := digits_aux (S (N.to_nat (N.size n))) n [].

(** [to_string] of a signed integer. *)
Definition show_Z (z : Z) : str :=
  match z with
  | Z0 => lit "0"
  | Zpos p => show_N (Npos p)
  | Zneg p => chr "-" :: show_N (Npos p)
  end.
Definition show_nat (n : nat) : str := show_N (N.of_nat n).
Definition show_bool (b : bool) : str := if b then lit "true" else lit "false".

(** The value of a digit string read after the digits worth [acc]. *)
Fixpoint read_digits (acc : Z) (s : str) : option Z :=
  match s with
  | [] => Some acc
  | c :: s' =>
      if is_ascii_digit c then read_digits (acc * 10 + Z.of_N (c - 48)) s' else None
  end.

(** [str::parse] at a signed type of range [lo..hi]: an optional sign, at
    least one digit, nothing else, and the value in range. *)
Definition parse_int (lo hi : Z) (s : str) : option Z :=
  let check (o : option Z) :=
    match o with
    | Some v => if ((lo <=? v) && (v <=? hi))%Z then Some v else None
    | None => None
    end in
  match s with
  | [] => None
  | c :: s' =>
      if (c =? chr "-")%N then
        if (lo <? 0)%Z then
          match s' with [] => None | _ => check (option_map Z.opp (read_digits 0 s')) end
        else None
      else if (c =? chr "+")%N then
        match s' with [] => None | _ => check (read_digits 0 s') end
      else check (read_digits 0 s)
  end.

Definition parse_i32 : str -> option Z := parse_int i32_min i32_max.
Definition parse_i64 : str -> option Z := parse_int i64_min i64_max.
Definition parse_u32 : str -> option Z := parse_int 0 u32_max.

(** ** Floating point

    [f32] and [f64] values are [spec_float]s, the IEEE 754 data of the
    Standard Library; their order is [SFcompare], which has no answer on NaN. *)
Abbreviation float := spec_float (only parsing).
Definition f32_one : float := S754_finite false 8388608 (-23).
Definition f32_half : float := S754_finite false 8388608 (-24).
Definition f_zero : float := S754_zero false.

(** [partial_cmp] and [>=]. *)
Definition partial_cmp (a b : float) : option comparison := SFcompare a b.
Definition f_ge (a b : float) : bool :=
  match SFcompare a b with Some Gt | Some Eq => true | _ => false end.

(** [f64] arithmetic, rounded to nearest. *)
Definition f64_add : float -> float -> float := SFadd 53 1024.
Definition f64_sub : float -> float -> float := SFsub 53 1024.
Definition f64_mul : float -> float -> float := SFmul 53 1024.
Definition f64_div : float -> float -> float := SFdiv 53 1024.

(** [n as f64]. *)
Definition f64_of_Z (n : Z) : float := binary_normalize 53 1024 n 0 false.

(** [f64::min]: a NaN gives way to the other argument. *)
Definition f64_min (a b : float) : float :=
  match SFcompare a b with
  | Some Lt => a
  | Some _ => b
  | None => match a with S754_nan => b | _ => a end
  end.

(** [floor] and [ceil] of a finite value, as integers. *)
Definition f64_floor (x : float) : Z :=
  match x with
  | S754_finite s m e =>
      let v := if s then Zneg m else Zpos m in
      if (0 <=? e)%Z then (v * 2 ^ e)%Z else (v / 2 ^ (- e))%Z
  | _ => 0%Z
  end.
Definition f64_ceil (x : float) : Z := (- f64_floor (SFopp x))%Z.

(** [x as u64]: toward zero, saturating, and zero for NaN. *)
Definition f64_as_u64 (x : float) : Z :=
  match x with
  | S754_infinity false => u64_max
  | S754_finite false _ _ => Z.min u64_max (f64_floor x)
  | _ => 0%Z
  end.

(** ** Automation *)

Create HintDb bastion.

(** Case analysis on the scrutinee of a [match] or [if] of the goal. *)
Ltac dmatch :=
  match goal with
  | |- context [match ?x with _ => _ end] => destruct x eqn:?
  end.

(** The same in a hypothesis. *)
Ltac dmatch_in H :=
  match type of H with
  | context [match ?x with _ => _ end] => destruct x eqn:?
  end.

(** Turn the boolean tests of the context into propositions. *)
Ltac bools :=
  repeat match goal with
  | H : (_ && _)%bool = true |- _ => apply andb_true_iff in H as [? ?]
  | H : (_ || _)%bool = false |- _ => apply orb_false_iff in H as [? ?]
  | H : negb _ = true |- _ => apply negb_true_iff in H
  | H : negb _ = false |- _ => apply negb_false_iff in H
  | H : (_ =? _)%N = true |- _ => apply N.eqb_eq in H
  | H : (_ =? _)%N = false |- _ => apply N.eqb_neq in H
  | H : (_ =? _)%Z = true |- _ => apply Z.eqb_eq in H
  | H : (_ =? _)%Z = false |- _ => apply Z.eqb_neq in H
  | H : (_ <=? _)%N = true |- _ => apply N.leb_le in H
  | H : (_ <=? _)%N = false |- _ => apply N.leb_gt in H
  | H : (_ <? _)%N = true |- _ => apply N.ltb_lt in H
  | H : (_ <? _)%N = false |- _ => apply N.ltb_ge in H
  | H : (_ <=? _)%Z = true |- _ => apply Z.leb_le in H
  | H : (_ <=? _)%Z = false |- _ => apply Z.leb_gt in H
  | H : (_ <? _)%Z = true |- _ => apply Z.ltb_lt in H
  | H : (_ <? _)%Z = false |- _ => apply Z.ltb_ge in H
  | H : str_eqb _ _ = true |- _ => apply bool_decide_eq_true in H
  | H : str_eqb _ _ = false |- _ => apply bool_decide_eq_false in H
  end.

(** ** Lemmas on strings *)

Lemma str_eqb_refl s : str_eqb s s = true.
Proof. by apply bool_decide_eq_true. Qed.

Lemma str_eqb_eq a b : str_eqb a b = true <-> a = b.
Proof. apply bool_decide_eq_true. Qed.

Lemma str_eqb_neq a b : a ≠ b -> str_eqb a b = false.
Proof. intros. by apply bool_decide_eq_false. Qed.

Lemma str_len_app a b : str_len (a ++ b) = (str_len a + str_len b)%N.
Proof. induction a; simpl; lia. Qed.

(** Absence of a character, by evaluation. *)
Lemma existsb_not_elem c s : existsb (N.eqb c) s = false -> c ∉ s.
Proof.
  induction s as [|d s IH]; simpl; [intros _; apply not_elem_of_nil|].
  intros H. bools. apply not_elem_of_cons. auto.
Qed.

Lemma len_utf8_pos c : (0 < len_utf8 c)%N.
Proof. unfold len_utf8. repeat case_match; lia. Qed.

Lemma span_app f s : fst (span f s) ++ snd (span f s) = s.
Proof.
  induction s as [|c s IH]; [done|]. simpl. destruct (f c); [|done].
  destruct (span f s) as [a b]. simpl in *. by rewrite IH.
Qed.

Lemma span_all f s : Forall (fun c => f c = true) (fst (span f s)).
Proof.
  induction s as [|c s IH]; [constructor|]. simpl. destruct (f c) eqn:E; [|constructor].
  destruct (span f s). by constructor.
Qed.

Lemma span_stop f s c r : snd (span f s) = c :: r -> f c = false.
Proof.
  induction s as [|d s IH]; [done|]. simpl. destruct (f d) eqn:E.
  - destruct (span f s). apply IH.
  - simpl. by intros [= <- <-].
Qed.

Lemma span_le f s : length (snd (span f s)) <= length s.
Proof. rewrite <- (span_app f s) at 2. rewrite length_app. lia. Qed.

(** Reading a block of accepted characters followed by a rejected one. *)
Lemma span_block f a b :
  Forall (fun c => f c = true) a ->
  match b with [] => True | c :: _ => f c = false end ->
  span f (a ++ b) = (a, b).
Proof.
  induction 1 as [|c a Hc Ha IH]; intros Hb; simpl.
  - destruct b as [|c b]; [done|]. simpl. by rewrite Hb.
  - rewrite Hc, IH; done.
Qed.

Lemma starts_with_app pre s : starts_with pre (pre ++ s) = true.
Proof. induction pre; simpl; [done|]. by rewrite N.eqb_refl. Qed.

Lemma starts_with_spec pre s :
  starts_with pre s = true <-> exists t, s = pre ++ t.
Proof.
  split; [|by intros [t ->]; apply starts_with_app].
  revert s. induction pre as [|p pre IH]; intros s; simpl; [by exists s|].
  destruct s as [|c s]; [done|]. intros H. bools. destruct (IH s) as [t ->]; [done|].
  subst. by exists t.
Qed.

Lemma str_contains_spec s pat :
  str_contains s pat = true <-> exists a b, s = a ++ pat ++ b.
Proof.
  split.
  - induction s as [|c s IH]; simpl.
    + rewrite orb_false_r, starts_with_spec. intros [t Ht]. exists [], t. done.
    + rewrite orb_true_iff, starts_with_spec. intros [[t Ht]|H].
      * by exists [], t.
      * destruct (IH H) as (a & b & ->). by exists (c :: a), b.
  - intros (a & b & ->). induction a as [|c a IH].
    + simpl. destruct (pat ++ b) eqn:E; simpl;
        rewrite <- E, starts_with_app; done.
    + simpl. rewrite IH. apply orb_true_r.
Qed.

Lemma trim_start_id s :
  match s with [] => True | c :: _ => is_whitespace c = false end -> trim_start s = s.
Proof. destruct s as [|c s]; [done|]. unfold trim_start. simpl. by intros ->. Qed.

(** A string that neither starts nor ends with white space is its own trim. *)
Lemma trim_id s :
  match s with [] => True | c :: _ => is_whitespace c = false end ->
  match rev s with [] => True | c :: _ => is_whitespace c = false end ->
  trim s = s.
Proof.
  intros H1 H2. unfold trim, trim_end. rewrite (trim_start_id s H1), trim_start_id; [|done].
  apply rev_involutive.
Qed.

Lemma trim_start_idem s : trim_start (trim_start s) = trim_start s.
Proof.
  apply trim_start_id. unfold trim_start. destruct (snd _) eqn:E; [done|]. by eapply span_stop.
Qed.

Lemma split_on_nonempty sep s : split_on sep s ≠ [].
Proof. destruct s; simpl; [done|]. case_match; [done|]. by case_match. Qed.

Lemma split_on_none sep s : sep ∉ s -> split_on sep s = [s].
Proof.
  induction s as [|c s IH]; [done|]. intros H%not_elem_of_cons. simpl.
  destruct H as [Hne H]. rewrite (proj2 (N.eqb_neq c sep)) by congruence. by rewrite IH.
Qed.

Lemma split_on_app sep a s : sep ∉ a -> split_on sep (a ++ sep :: s) = a :: split_on sep s.
Proof.
  induction a as [|c a IH]; intros H; simpl; [by rewrite N.eqb_refl|].
  apply not_elem_of_cons in H as [Hne H].
  rewrite (proj2 (N.eqb_neq c sep)) by congruence. by rewrite IH.
Qed.

(** Joining the pieces with the separator gives the string back. *)
Fixpoint join (sep : str) (ps : list str) : str :=
  match ps with
  | [] => []
  | [p] => p
  | p :: ps' => p ++ sep ++ join sep ps'
  end.

Lemma join_split sep s : join [sep] (split_on sep s) = s.
Proof.
  induction s as [|c s IH]; [done|]. simpl.
  destruct (c =? sep)%N eqn:E; bools; subst.
  - simpl. destruct (split_on sep s) eqn:E; [by apply split_on_nonempty in E|].
    simpl in *. by rewrite IH.
  - destruct (split_on sep s) as [|p ps] eqn:E'; [by apply split_on_nonempty in E'|].
    rewrite <- IH. by destruct ps.
Qed.

Lemma split_on_pieces sep s : Forall (fun p => sep ∉ p) (split_on sep s).
Proof.
  induction s as [|c s IH]; simpl.
  - constructor; [apply not_elem_of_nil|constructor].
  - destruct (c =? sep)%N eqn:E; bools.
    + constructor; [apply not_elem_of_nil|done].
    + destruct (split_on sep s) as [|p ps]; [constructor; [|constructor]; by apply not_elem_of_cons; split; [congruence|apply not_elem_of_nil]|].
      apply Forall_cons in IH as [Hp Hps]. constructor; [|done]. apply not_elem_of_cons. split; [congruence|done].
Qed.

#[export] Hint Resolve split_on_nonempty span_le : bastion.

(** ** Lemmas on integers *)

Lemma digit_range d : (d < 10)%N -> is_ascii_digit (48 + d) = true.
Proof. intros. unfold is_ascii_digit, in_range. apply andb_true_iff. split; apply N.leb_le; lia. Qed.

Lemma digits_aux_digits fuel n acc :
  Forall (fun c => is_ascii_digit c = true) acc ->
  Forall (fun c => is_ascii_digit c = true) (digits_aux fuel n acc).
Proof.
  revert n acc. induction fuel as [|f IH]; intros n acc H; simpl; [done|].
  assert (Forall (fun c => is_ascii_digit c = true) ((48 + n mod 10)%N :: acc)).
  { constructor; [|done]. apply digit_range, N.mod_lt. done. }
  case_match; auto.
Qed.

Lemma size_div10 n : (10 <= n)%N -> (N.size (n / 10) < N.size n)%N.
Proof.
  intros Hn. rewrite (N.size_log2 n) by lia.
  destruct (N.log2_spec n) as [_ Hk]; [lia|]. rewrite N.pow_succ_r' in Hk.
  destruct (decide (n / 10 = 0)%N) as [->|Hz]; [simpl; lia|].
  rewrite N.size_log2 by done.
  enough (N.log2 (n / 10) < N.log2 n)%N by lia.
  apply N.log2_lt_pow2; [by apply N.neq_0_lt_0|]. apply N.Div0.div_lt_upper_bound. lia.
Qed.

Lemma digits_aux_read fuel n acc :
  (N.to_nat (N.size n) < fuel) ->
  read_digits 0 (digits_aux fuel n acc) = read_digits (Z.of_N n) acc.
Proof.
  revert n acc. induction fuel as [|f IH]; intros n acc Hf; [lia|]. cbn [digits_aux].
  destruct (n <? 10)%N eqn:E; bools.
  - cbn [read_digits]. rewrite digit_range by (apply N.mod_lt; done).
    f_equal. rewrite N.mod_small by done. lia.
  - rewrite IH.
    + cbn [read_digits]. rewrite digit_range by (apply N.mod_lt; done). f_equal.
      pose proof (N.div_mod' n 10) as Hdm. revert Hdm. clear.
      generalize (n / 10)%N (n mod 10)%N. lia.
    + pose proof (size_div10 n E). lia.
Qed.

Lemma show_N_digits n : Forall (fun c => is_ascii_digit c = true) (show_N n).
Proof. apply digits_aux_digits. constructor. Qed.

Lemma digits_aux_length fuel n acc : length (digits_aux fuel n acc) <= fuel + length acc.
Proof.
  revert n acc. induction fuel as [|f IH]; intros n acc; cbn [digits_aux]; [lia|].
  case_match; [simpl; lia|]. etransitivity; [apply IH|]. simpl. lia.
Qed.

Lemma str_len_digits s : Forall (fun c => is_ascii_digit c = true) s -> str_len s = N.of_nat (length s).
Proof.
  induction 1 as [|c s Hc Hs IH]; [done|]. cbn [str_len length]. rewrite IH.
  unfold is_ascii_digit in Hc. apply andb_true_iff in Hc as [_ Hc]. apply N.leb_le in Hc.
  unfold len_utf8. rewrite (proj2 (N.ltb_lt _ _)) by lia. lia.
Qed.

(** A number below [2 ^ k] has no more digits than bits. *)
Lemma show_N_length n k : (n < 2 ^ k)%N -> (str_len (show_N n) <= k + 1)%N.
Proof.
  intros Hn. rewrite str_len_digits by apply digits_aux_digits, Forall_nil_2.
  unfold show_N. pose proof (digits_aux_length (S (N.to_nat (N.size n))) n []) as H.
  assert (Hs : (N.size n <= k)%N).
  { destruct (decide (n = 0)%N) as [->|Hn0]; [simpl; lia|].
    rewrite N.size_log2 by done. apply N.le_succ_l, N.log2_lt_pow2; lia. }
  cbn [length] in H. lia.
Qed.

Lemma show_N_read n : read_digits 0 (show_N n) = Some (Z.of_N n).
Proof. unfold show_N. by rewrite digits_aux_read by lia. Qed.

Lemma digits_aux_cons fuel n acc : exists c r, digits_aux (S fuel) n acc = c :: r.
Proof.
  revert n acc. induction fuel as [|f IH]; intros n acc.
  - cbn. case_match; eauto.
  - cbn [digits_aux] in *. case_match; eauto.
Qed.

Lemma show_N_cons n : exists c r, show_N n = c :: r /\ is_ascii_digit c = true.
Proof.
  destruct (digits_aux_cons (N.to_nat (N.size n)) n []) as (c & r & H).
  exists c, r. split; [exact H|].
  pose proof (show_N_digits n) as Hd. unfold show_N in Hd. rewrite H in Hd.
  by apply Forall_inv in Hd.
Qed.

(** Reading back a printed number. *)
Lemma parse_int_show lo hi n :
  parse_int lo hi (show_N n) =
    if ((lo <=? Z.of_N n) && (Z.of_N n <=? hi))%Z then Some (Z.of_N n) else None.
Proof.
  pose proof (show_N_read n) as Hr. destruct (show_N_cons n) as (c & r & E & Hd). unfold parse_int.
  rewrite E in Hr |- *. unfold is_ascii_digit, in_range in Hd. bools.
  assert ((c =? chr "-")%N = false) as -> by (apply N.eqb_neq; unfold chr; simpl; lia).
  assert ((c =? chr "+")%N = false) as -> by (apply N.eqb_neq; unfold chr; simpl; lia).
  by rewrite Hr.
Qed.

Lemma parse_show_N lo hi n :
  (lo <= Z.of_N n <= hi)%Z -> parse_int lo hi (show_N n) = Some (Z.of_N n).
Proof. intros [Hl%Z.leb_le Hh%Z.leb_le]. by rewrite parse_int_show, Hl, Hh. Qed.

Lemma parse_show_Z lo hi z :
  (lo <= z <= hi)%Z -> parse_int lo hi (show_Z z) = Some z.
Proof.
  intros H. destruct z as [|p|p].
  - change (show_Z 0) with (show_N 0). by apply (parse_show_N lo hi 0).
  - by apply (parse_show_N lo hi (Npos p)).
  - cbn [show_Z parse_int]. rewrite N.eqb_refl.
    assert ((lo <? 0)%Z = true) as -> by (apply Z.ltb_lt; lia).
    pose proof (show_N_read (Npos p)) as Hr.
    destruct (show_N_cons (Npos p)) as (c & r & E & _). rewrite E in Hr |- *.
    rewrite Hr. cbn [option_map]. change (- Z.of_N (Npos p))%Z with (Zneg p).
    destruct H as [H1%Z.leb_le H2%Z.leb_le]. by rewrite H1, H2.
Qed.

Lemma as_i32_id z : (i32_min <= z <= i32_max)%Z -> as_i32 z = z.
Proof. unfold as_i32, i32_min, i32_max. intros. rewrite Z.mod_small; lia. Qed.

Lemma as_i32_range z : (i32_min <= as_i32 z <= i32_max)%Z.
Proof.
  unfold as_i32, i32_min, i32_max.
  pose proof (Z.mod_pos_bound (z + 2147483648) 4294967296). lia.
Qed.

(** ** Sorting

    [sort_by_key] and [sort_by] of slices are stable: elements of equal keys
    keep their order. *)

Lemma filter_perm {A} (f : A -> bool) (l l' : list A) :
  l ≡ₚ l' -> List.filter f l ≡ₚ List.filter f l'.
Proof.
  induction 1 as [|x l l' _ IH|x y l|l1 l2 l3 _ IH1 _ IH2]; simpl.
  - done.
  - case_match; [by rewrite IH|done].
  - repeat case_match; done || constructor.
  - by rewrite IH1.
Qed.

Lemma find_app {A} (f : A -> bool) (l l' : list A) :
  List.find f (l ++ l') = match List.find f l with Some x => Some x | None => List.find f l' end.
Proof. induction l as [|x l IH]; [done|]. simpl. by destruct (f x). Qed.

Section SortByKey.
Context {A : Type} (key : A -> Z).

Fixpoint insert_by_key (x : A) (l : list A) : list A :=
  match l with
  | [] => [x]
  | y :: l' => if (key x <=? key y)%Z then x :: l else y :: insert_by_key x l'
  end.

Definition sort_by_key (l : list A) : list A := foldr insert_by_key [] l.

Definition key_le (a b : A) : Prop := (key a <= key b)%Z.

Lemma insert_by_key_perm x l : insert_by_key x l ≡ₚ x :: l.
Proof.
  induction l as [|y l IH]; simpl; [done|]. case_match; [done|]. rewrite IH. constructor.
Qed.

Lemma sort_by_key_perm l : sort_by_key l ≡ₚ l.
Proof. induction l as [|x l IH]; simpl; [done|]. by rewrite insert_by_key_perm, IH. Qed.

Lemma insert_by_key_sorted x l :
  StronglySorted key_le l -> StronglySorted key_le (insert_by_key x l).
Proof.
  induction 1 as [|y l Hs IH Hall]; simpl; [by repeat constructor|].
  destruct (key x <=? key y)%Z eqn:E; bools.
  - constructor; [by constructor|]. constructor; [done|].
    eapply Forall_impl; [exact Hall|]. unfold key_le. intros z Hz. simpl in *. lia.
  - constructor; [done|]. rewrite insert_by_key_perm. constructor; [|done]. unfold key_le. lia.
Qed.

Lemma sort_by_key_sorted l : StronglySorted key_le (sort_by_key l).
Proof. induction l; simpl; [constructor|by apply insert_by_key_sorted]. Qed.

Lemma sort_by_key_stable p l :
  List.filter (fun x => (key x =? p)%Z) (sort_by_key l) = List.filter (fun x => (key x =? p)%Z) l.
Proof.
  assert (Hi : forall x l, List.filter (fun x => (key x =? p)%Z) (insert_by_key x l) =
    List.filter (fun x => (key x =? p)%Z) (x :: l)).
  { intros x l'. induction l' as [|y l' IH]; simpl; [done|].
    destruct (key x <=? key y)%Z eqn:E; [done|]. simpl. rewrite IH. simpl. bools.
    destruct (key x =? p)%Z eqn:E1, (key y =? p)%Z eqn:E2; bools; try done. lia. }
  induction l as [|x l IH]; [done|]. simpl sort_by_key. rewrite Hi. simpl. by rewrite IH.
Qed.
End SortByKey.

(** ** Grouping

    [entry(key).or_default().push(x)] for each element in turn. *)
Definition group_by {A} (key : A -> str) (l : list A) : gmap str (list A) :=
  fold_left (fun m x => <[key x := default [] (m !! key x) ++ [x]]> m) l ∅.

Lemma lookup_group_by {A} (key : A -> str) l k :
  group_by key l !! k =
    match List.filter (fun x => str_eqb (key x) k) l with [] => None | g => Some g end.
Proof.
  unfold group_by. induction l as [|x l IH] using rev_ind; [done|].
  rewrite fold_left_app, List.filter_app. simpl.
  set (m := fold_left _ l _) in *. destruct (decide (key x = k)) as [<-|Hk].
  - rewrite lookup_insert_eq, str_eqb_refl, IH. by destruct (List.filter _ l).
  - rewrite lookup_insert_ne, str_eqb_neq, app_nil_r by done. exact IH.
Qed.

Lemma group_by_perm {A} (key : A -> str) l : concat (map snd (map_to_list (group_by key l))) ≡ₚ l.
Proof.
  induction l as [|x l IH] using rev_ind; [done|]. unfold group_by in *. rewrite fold_left_app.
  cbn [fold_left]. set (m := fold_left _ l _) in *. rewrite <- IH, <- insert_delete_eq.
  rewrite map_to_list_insert by apply lookup_delete_eq. cbn [map concat snd].
  destruct (m !! key x) as [g|] eqn:E; cbn [default id].
  - rewrite <- (map_to_list_delete m (key x) g) by done. cbn [map concat snd].
    by rewrite <- !app_assoc, (Permutation_app_comm [x]).
  - rewrite delete_id by done. by rewrite Permutation_app_comm.
Qed.

(** ** The last of the greatest

    [max_by] and [max_by_key]: of equal elements the last. *)
Section MaxByKey.
Context {A : Type} (key : A -> Z).

Definition max_step_by (a b : A) : A := match (key a ?= key b)%Z with Gt => a | _ => b end.

Definition last_greatest (l : list A) (m : A) : Prop :=
  exists l1 l2, l = l1 ++ m :: l2 /\ (forall x, x ∈ l1 -> key x <= key m)%Z /\
    (forall x, x ∈ l2 -> key x < key m)%Z.

Lemma max_by_last x l : last_greatest (x :: l) (fold_left max_step_by l x).
Proof.
  induction l as [|y l IH] using rev_ind.
  - exists [], []. split; [done|]. split; intros z Hz; by apply elem_of_nil in Hz.
  - rewrite fold_left_app. cbn [fold_left]. set (m := fold_left _ l x) in *.
    destruct IH as (l1 & l2 & E & H1 & H2). rewrite app_comm_cons, E. unfold max_step_by.
    destruct (Z.compare_spec (key m) (key y)) as [Hc|Hc|Hc].
    1,2: exists (l1 ++ m :: l2), []; split; [done|]; split; [|intros z Hz; by apply elem_of_nil in Hz];
      intros z [Hz|[Hz|Hz]%elem_of_cons]%elem_of_app; [apply H1 in Hz|subst|apply H2 in Hz]; lia.
    exists l1, (l2 ++ [y]). split; [by rewrite <- app_assoc|]. split; [done|].
    intros z [Hz|Hz%list_elem_of_singleton]%elem_of_app; [by apply H2|by subst].
Qed.
End MaxByKey.

Lemma filter_sublist {A} (f : A -> bool) (l : list A) : List.filter f l `sublist_of` l.
Proof.
  induction l as [|x l IH]; [constructor|]. simpl. destruct (f x); by constructor.
Qed.

(** ** Sorted lists *)

Lemma sorted_map {A B} (f : A -> B) (R : B -> B -> Prop) l :
  StronglySorted R (map f l) -> StronglySorted (fun a b => R (f a) (f b)) l.
Proof.
  induction l as [|a l IH]; [constructor|]. cbn. intros [H1 H2]%StronglySorted_inv. constructor; [by apply IH|].
  by rewrite Forall_map in H2.
Qed.

Lemma Forall_filter_list {A} (P : A -> Prop) f (l : list A) : Forall P l -> Forall P (List.filter f l).
Proof. rewrite !Forall_forall. intros H x Hx. apply H. apply list_elem_of_In in Hx. apply list_elem_of_In.
  by apply filter_In in Hx as [Hx _]. Qed.
