(* ===== verification/Utf8.v ===== *)
(** * Decoding UTF-8

    [String::from_utf8] and [String::from_utf8_lossy] of the standard library:
    a sequence that is not valid is replaced, one replacement character per
    maximal prefix of a valid encoding.  [utf8] of the prelude is the inverse. *)

From S2P Require Import Prelude.

Definition cont (lo hi : N) (b : byte) : bool := in_range lo hi b.

(** The bits of a continuation byte. *)
Definition low6 (b : byte) : N := (b mod 64)%N.

(** The allowed second bytes of a three-byte and of a four-byte sequence. *)
Definition second3 (b0 : byte) : N * N :=
  if (b0 =? 0xE0)%N then (0xA0, 0xBF)%N else if (b0 =? 0xED)%N then (0x80, 0x9F)%N else (0x80, 0xBF)%N.
Definition second4 (b0 : byte) : N * N :=
  if (b0 =? 0xF0)%N then (0x90, 0xBF)%N else if (b0 =? 0xF4)%N then (0x80, 0x8F)%N else (0x80, 0xBF)%N.

(** The first character of a non-empty sequence, [None] when it is not valid,
    and what follows it. *)
Definition next_char (b0 : byte) (s : bytes) : option char * bytes :=
  if (b0 <? 0x80)%N then (Some b0, s)
  else if in_range 0xC2 0xDF b0 then
    match s with
    | b1 :: s1 => if cont 0x80 0xBF b1 then (Some ((b0 - 0xC0) * 64 + low6 b1)%N, s1) else (None, s)
    | [] => (None, [])
    end
  else if in_range 0xE0 0xEF b0 then
    match s with
    | b1 :: s1 =>
        let '(lo, hi) := second3 b0 in
        if cont lo hi b1 then
          match s1 with
          | b2 :: s2 =>
              if cont 0x80 0xBF b2 then
                (Some ((b0 - 0xE0) * 4096 + low6 b1 * 64 + low6 b2)%N, s2)
              else (None, s1)
          | [] => (None, [])
          end
        else (None, s)
    | [] => (None, [])
    end
  else if in_range 0xF0 0xF4 b0 then
    match s with
    | b1 :: s1 =>
        let '(lo, hi) := second4 b0 in
        if cont lo hi b1 then
          match s1 with
          | b2 :: s2 =>
              if cont 0x80 0xBF b2 then
                match s2 with
                | b3 :: s3 =>
                    if cont 0x80 0xBF b3 then
                      (Some ((b0 - 0xF0) * 262144 + low6 b1 * 4096 + low6 b2 * 64 + low6 b3)%N, s3)
                    else (None, s2)
                | [] => (None, [])
                end
              else (None, s1)
          | [] => (None, [])
          end
        else (None, s)
    | [] => (None, [])
    end
  else (None, s).

(** Every step consumes a byte, so the number of bytes is enough fuel. *)
Fixpoint decode_loop (fuel : nat) (s : bytes) : list (option char) :=
  match s, fuel with
  | b :: s', S f => let '(c, rest) := next_char b s' in c :: decode_loop f rest
  | _, _ => []
  end.

Definition decode (s : bytes) : list (option char) := decode_loop (length s) s.

Definition replacement : char := 0xFFFD%N.

Definition from_utf8_lossy (s : bytes) : str := map (default replacement) (decode s).

Definition from_utf8 (s : bytes) : option str :=
  if forallb (fun c => match c with Some _ => true | None => false end) (decode s)
  then Some (map (default replacement) (decode s)) else None.

Example lossy_ex : from_utf8_lossy [97; 0xF0; 0x9F; 98; 0xC3; 0xA9; 0xFF]%N = [97; 0xFFFD; 98; 233; 0xFFFD]%N.
Proof. reflexivity. Qed.

(** ** Decoding inverts encoding *)

(** The Unicode scalar values. *)
Definition scalar_value (c : char) : Prop := (c < 0xD800 \/ (0xE000 <= c /\ c < 0x110000))%N.

Lemma next_char_rest b s : length (snd (next_char b s)) <= length s.
Proof. unfold next_char. repeat case_match; simpl; lia. Qed.

Lemma decode_loop_more fuel s : length s <= fuel -> decode_loop fuel s = decode s.
Proof.
  unfold decode. remember (length s) as n eqn:En. revert fuel s En.
  induction n as [n IH] using (well_founded_induction Nat.lt_wf_0). intros fuel s -> Hf.
  destruct s as [|b s]; [by destruct fuel|]. destruct fuel as [|f]; [simpl in Hf; lia|].
  cbn [decode_loop length]. pose proof (next_char_rest b s) as Hr.
  destruct (next_char b s) as [c rest]. simpl in Hf, Hr. f_equal.
  rewrite (IH (length rest) ltac:(simpl; lia) f rest eq_refl ltac:(lia)).
  symmetry. apply (IH (length rest)); simpl; lia.
Qed.

Lemma in_range_true lo hi b : (lo <= b)%N -> (b <= hi)%N -> in_range lo hi b = true.
Proof. intros. unfold in_range. by rewrite !(proj2 (N.leb_le _ _)). Qed.

Lemma in_range_false lo hi b : (b < lo \/ hi < b)%N -> in_range lo hi b = false.
Proof. intros H. unfold in_range. apply andb_false_iff. rewrite !N.leb_gt. lia. Qed.

Lemma next_char_encode c r :
  scalar_value c ->
  exists b t, utf8_char c = b :: t /\ next_char b (t ++ r) = (Some c, r).
Proof.
  unfold scalar_value, utf8_char. intros Hc.
  assert (Hlow : forall n, low6 (0x80 + n mod 64) = (n mod 64)%N).
  { intros n. unfold low6. pose proof (N.mod_lt n 64 ltac:(lia)).
    rewrite N.Div0.add_mod, N.Div0.mod_mod. change (0x80 mod 64)%N with 0%N.
    rewrite N.add_0_l, N.Div0.mod_mod. done. }
  assert (Hk : forall n, cont 0x80 0xBF (0x80 + n mod 64) = true).
  { intros n. pose proof (N.mod_lt n 64 ltac:(lia)). apply in_range_true; lia. }
  pose proof (N.div_mod' c 64) as D1. pose proof (N.mod_lt c 64 ltac:(lia)) as M1.
  pose proof (N.div_mod' (c / 64) 64) as D2. pose proof (N.mod_lt (c / 64) 64 ltac:(lia)) as M2.
  pose proof (N.div_mod' (c / 64 / 64) 64) as D3. pose proof (N.mod_lt (c / 64 / 64) 64 ltac:(lia)) as M3.
  assert (Q2 : (c / 4096 = c / 64 / 64)%N) by (rewrite N.Div0.div_div; done).
  assert (Q3 : (c / 262144 = c / 64 / 64 / 64)%N) by (rewrite !N.Div0.div_div; done).
  destruct (c <? 0x80)%N eqn:E1; [|destruct (c <? 0x800)%N eqn:E2;
    [|destruct (c <? 0x10000)%N eqn:E3]]; bools; eexists _, _; (split; [reflexivity|]);
    unfold next_char; simpl app.
  - by rewrite (proj2 (N.ltb_lt _ _)).
  - rewrite (proj2 (N.ltb_ge _ _)) by lia. rewrite (in_range_true 0xC2) by lia.
    rewrite Hk, Hlow. f_equal. f_equal. lia.
  - rewrite Q2. rewrite (proj2 (N.ltb_ge _ _)), (in_range_false 0xC2), (in_range_true 0xE0) by lia.
    assert (Hs : (let '(lo, hi) := second3 (0xE0 + c / 64 / 64) in
                  cont lo hi (0x80 + c / 64 mod 64)) = true).
    { unfold second3. destruct (_ =? 0xE0)%N eqn:F1; [|destruct (_ =? 0xED)%N eqn:F2]; bools;
        apply in_range_true; lia. }
    destruct (second3 _) as [lo hi]. rewrite Hs, Hk, !Hlow. f_equal. f_equal. lia.
  - rewrite Q3, Q2.
    rewrite (proj2 (N.ltb_ge _ _)), (in_range_false 0xC2), (in_range_false 0xE0), (in_range_true 0xF0) by lia.
    assert (Hs : (let '(lo, hi) := second4 (0xF0 + c / 64 / 64 / 64) in
                  cont lo hi (0x80 + c / 64 / 64 mod 64)) = true).
    { unfold second4. destruct (_ =? 0xF0)%N eqn:F1; [|destruct (_ =? 0xF4)%N eqn:F2]; bools;
        apply in_range_true; lia. }
    destruct (second4 _) as [lo hi]. rewrite Hs, !Hk, !Hlow. f_equal. f_equal. lia.
Qed.

Lemma decode_utf8 s : Forall scalar_value s -> decode (utf8 s) = map Some s.
Proof.
  induction 1 as [|c s Hc Hs IH]; [done|]. unfold utf8. cbn [flat_map]. fold (utf8 s).
  destruct (next_char_encode c (utf8 s) Hc) as (b & t & -> & En).
  unfold decode. cbn [length app decode_loop]. rewrite En. cbn [map]. f_equal. rewrite <- IH.
  apply decode_loop_more. rewrite length_app. lia.
Qed.

Lemma from_utf8_lossy_utf8 s : Forall scalar_value s -> from_utf8_lossy (utf8 s) = s.
Proof.
  intros Hs. unfold from_utf8_lossy. rewrite decode_utf8 by done. rewrite map_map. apply map_id.
Qed.

Lemma from_utf8_utf8 s : Forall scalar_value s -> from_utf8 (utf8 s) = Some s.
Proof.
  intros Hs. unfold from_utf8. rewrite decode_utf8 by done. rewrite map_map, map_id.
  by rewrite (proj2 (forallb_forall _ _)) by (intros x (y & <- & _)%in_map_iff; done).
Qed.

(** ** Byte offsets *)

(** [str::is_char_boundary]. *)
Fixpoint is_char_boundary (s : str) (i : N) : bool :=
  if (i =? 0)%N then true
  else match s with
       | [] => false
       | c :: s' => (len_utf8 c <=? i)%N && is_char_boundary s' (i - len_utf8 c)
       end.

(** [&s[..i]] and [&s[i..]]. *)
Fixpoint split_at (s : str) (i : N) : option (str * str) :=
  if (i =? 0)%N then Some ([], s)
  else match s with
       | [] => None
       | c :: s' =>
           if (len_utf8 c <=? i)%N then
             match split_at s' (i - len_utf8 c) with
             | Some (a, b) => Some (c :: a, b)
             | None => None
             end
           else None
       end.

(** [&s[a..b]]; [None] is the panic of a bound inside a character, past the end
    or before the other. *)
Definition slice (s : str) (a b : N) : option str :=
  if (b <? a)%N then None
  else match split_at s b with
       | Some (pre, _) => match split_at pre a with Some (_, mid) => Some mid | None => None end
       | None => None
       end.

Lemma split_at_boundary s i a b : split_at s i = Some (a, b) -> s = a ++ b /\ str_len a = i.
Proof.
  revert i a b. induction s as [|c s IH]; intros i a b; simpl.
  - destruct (i =? 0)%N eqn:E; [|done]. intros [= <- <-]. bools. by subst.
  - destruct (i =? 0)%N eqn:E; [intros [= <- <-]; bools; by subst|].
    destruct (len_utf8 c <=? i)%N eqn:El; [|done].
    destruct (split_at s (i - len_utf8 c)) as [[a' b']|] eqn:Es; [|done].
    intros [= <- <-]. apply IH in Es as [-> Hl]. bools. split; [done|]. simpl. lia.
Qed.

Lemma split_at_app a b : split_at (a ++ b) (str_len a) = Some (a, b).
Proof.
  induction a as [|c a IH]; [by destruct b|]. cbn [app str_len split_at].
  pose proof (len_utf8_pos c). rewrite (proj2 (N.eqb_neq _ _)) by lia.
  rewrite (proj2 (N.leb_le _ _)) by lia.
  replace (len_utf8 c + str_len a - len_utf8 c)%N with (str_len a) by lia. by rewrite IH.
Qed.

Lemma is_char_boundary_iff s i :
  is_char_boundary s i = true <-> exists a b, s = a ++ b /\ str_len a = i.
Proof.
  split.
  - revert i. induction s as [|c s IH]; intros i; simpl; destruct (i =? 0)%N eqn:E; bools;
      try (intros _; subst; by eexists [], _); [done|].
    intros Hb. bools. destruct (IH (i - len_utf8 c)%N) as (a & b & -> & Hl); [done|].
    exists (c :: a), b. split; [done|]. simpl. lia.
  - intros (a & b & -> & <-). induction a as [|c a IH]; [by destruct b|].
    cbn [app str_len is_char_boundary]. destruct (_ =? 0)%N; [done|].
    rewrite (proj2 (N.leb_le _ _)) by lia.
    by replace (len_utf8 c + str_len a - len_utf8 c)%N with (str_len a) by lia.
Qed.

Lemma prefix_of_boundaries (a b c d : str) :
  a ++ b = c ++ d -> (str_len a <= str_len c)%N -> exists e, c = a ++ e /\ b = e ++ d.
Proof.
  revert c. induction a as [|x a IH]; intros c E Hl; [by exists c|].
  destruct c as [|y c].
  - simpl in *. pose proof (len_utf8_pos x). lia.
  - injection E as -> E. simpl in Hl. destruct (IH c E) as (e & -> & ->); [lia|]. by exists e.
Qed.
