(* ===== verification/RuleLexer.v ===== *)
(** * The CEL-lite lexer (enrichment-engine/src/rules/lexer.rs)

    [Lexer] holds the characters from the current byte position on; each
    operation is the method of the same name.  The theorem of this file is that
    tokenising terminates and loses nothing. *)

From S2P Require Import Prelude.

(** ** Tokens *)

Inductive TokenKind : Type :=
| TEof
| TInt (n : Z)
| TBool (b : bool)
| TStr (s : str)
| TIdent (s : str)
| TEq | TNe | TGt | TLt | TGe | TLe
| TAnd | TOr | TNot
| TLParen | TRParen | TComma
| TIllegal
| TAnyFact | TAllFact | TCountFact | TDurationGt.

#[export] Instance TokenKind_eq_dec : EqDecision TokenKind.
Proof. solve_decision. Defined.

Record Token : Type := mkToken {
  kind : TokenKind;
  position : N;
  lexeme : str
}.

(** [Lexer]: [rest] is [input[pos..]]. *)
Record Lexer : Type := mkLexer { rest : str; pos : N }.

Definition Lexer_new (input : str) : Lexer := mkLexer input 0.

(** [input[start..pos]], for a position [now] reached from [start]. *)
Definition slice_to (start now : Lexer) : str :=
  take (length (rest start) - length (rest now)) (rest start).

(** ** Scanning *)

Definition advance (lx : Lexer) : Lexer :=
  match rest lx with
  | [] => lx
  | c :: r => mkLexer r (pos lx + len_utf8 c)
  end.

Definition peek_next (lx : Lexer) : option char :=
  match rest lx with _ :: c :: _ => Some c | _ => None end.

(** The scanning loops: skip while [f] holds. *)
Definition skip_while (f : char -> bool) (lx : Lexer) : Lexer :=
  let '(a, b) := span f (rest lx) in mkLexer b (pos lx + str_len a).

Definition skip_whitespace : Lexer -> Lexer := skip_while is_whitespace.

(** The loop of [string_literal]: the literal before the closing quote (or
    before the end of the input) and the lexer after the quote. *)
Fixpoint string_loop (escaped : bool) (r : str) (p : N) : str * Lexer :=
  match r with
  | [] => ([], mkLexer [] p)
  | c :: r' =>
      let p' := (p + len_utf8 c)%N in
      let keep esc := let '(l, lx) := string_loop esc r' p' in (c :: l, lx) in
      if escaped then keep false
      else if (c =? chr "\")%N then keep true
      else if (c =? chr "'")%N then ([], mkLexer r' p')
      else keep false
  end.

Definition string_literal (lx : Lexer) : TokenKind * Lexer :=
  let lx := advance lx in
  let '(l, lx') := string_loop false (rest lx) (pos lx) in
  (TStr l, lx').

Definition integer (lx : Lexer) : TokenKind * Lexer :=
  let lx' := skip_while is_ascii_digit lx in
  match parse_i32 (slice_to lx lx') with
  | Some n => (TInt n, lx')
  | None => (TIllegal, lx')
  end.

(** The keyword table of [identifier_or_keyword]. *)
Definition keyword (text : str) : TokenKind :=
  if str_eqb text (lit "true") then TBool true
  else if str_eqb text (lit "false") then TBool false
  else if str_eqb text (lit "and") then TAnd
  else if str_eqb text (lit "or") then TOr
  else if str_eqb text (lit "not") then TNot
  else if str_eqb text (lit "any_fact") then TAnyFact
  else if str_eqb text (lit "all_fact") then TAllFact
  else if str_eqb text (lit "count_fact") then TCountFact
  else if str_eqb text (lit "duration_gt") then TDurationGt
  else TIdent text.

Section Lexer.
Context `{UnicodeTables}.

Definition ident_char (c : char) : bool := is_alphanumeric c || (c =? chr "_")%N.

Definition identifier_or_keyword (lx : Lexer) : TokenKind * Lexer :=
  let lx' := skip_while ident_char lx in (keyword (slice_to lx lx'), lx').

(** The [match ch] of [next_token], guards in the code's order. *)
Definition scan (lx : Lexer) (ch : char) : TokenKind * Lexer :=
  let eq_next := bool_decide (peek_next lx = Some (chr "=")) in
  let one k := (k, advance lx) in
  let two k := (k, advance (advance lx)) in
  if (ch =? chr "(")%N then one TLParen
  else if (ch =? chr ")")%N then one TRParen
  else if (ch =? chr ",")%N then one TComma
  else if (ch =? chr "=")%N && eq_next then two TEq
  else if (ch =? chr "!")%N && eq_next then two TNe
  else if (ch =? chr ">")%N && eq_next then two TGe
  else if (ch =? chr "<")%N && eq_next then two TLe
  else if (ch =? chr ">")%N then one TGt
  else if (ch =? chr "<")%N then one TLt
  else if (ch =? chr "'")%N then string_literal lx
  else if is_ascii_digit ch then integer lx
  else if is_ascii_alphabetic ch || (ch =? chr "_")%N then identifier_or_keyword lx
  else one TIllegal.

Definition next_token (lx0 : Lexer) : Token * Lexer :=
  let start := skip_whitespace lx0 in
  match rest start with
  | [] => (mkToken TEof (pos start) [], start)
  | ch :: _ =>
      let '(k, lx') := scan start ch in
      (mkToken k (pos start) (slice_to start lx'), lx')
  end.

(** [tokenize]: the loop runs at most once per character and once for Eof. *)
Fixpoint tokenize_loop (fuel : nat) (lx : Lexer) : option (list Token) :=
  match fuel with
  | O => None
  | S f =>
      let '(t, lx') := next_token lx in
      if bool_decide (kind t = TEof) then Some [t]
      else option_map (cons t) (tokenize_loop f lx')
  end.

Definition tokenize (input : str) : option (list Token) :=
  tokenize_loop (S (length input)) (Lexer_new input).
End Lexer.

(** ** The lexer consumes its input from left to right *)

(** [moves a lx lx']: the lexer went from [lx] to [lx'] over exactly [a]. *)
Definition moves (a : str) (lx lx' : Lexer) : Prop :=
  rest lx = a ++ rest lx' /\ pos lx' = (pos lx + str_len a)%N.

Lemma moves_trans a b l1 l2 l3 : moves a l1 l2 -> moves b l2 l3 -> moves (a ++ b) l1 l3.
Proof.
  intros [H1 H2] [H3 H4]. split.
  - by rewrite H1, H3, app_assoc.
  - rewrite H4, H2, str_len_app. lia.
Qed.

Lemma moves_refl lx : moves [] lx lx.
Proof. split; simpl; [done|lia]. Qed.

Lemma slice_moves a lx lx' : moves a lx lx' -> slice_to lx lx' = a.
Proof.
  intros [H _]. unfold slice_to. rewrite H, length_app.
  replace (_ + _ - _) with (length a) by lia. apply take_app_length.
Qed.

Lemma moves_length a lx lx' : moves a lx lx' -> length (rest lx) = length a + length (rest lx').
Proof. intros [-> _]. apply length_app. Qed.

Lemma skip_while_moves f lx : moves (fst (span f (rest lx))) lx (skip_while f lx).
Proof.
  unfold skip_while. pose proof (span_app f (rest lx)) as E.
  destruct (span f (rest lx)) as [a b]. simpl in *. by split.
Qed.

Lemma advance_moves lx c r : rest lx = c :: r -> moves [c] lx (advance lx).
Proof. intros H. unfold advance, moves. rewrite H. simpl. split; [done|lia]. Qed.

Lemma string_loop_moves esc r p :
  exists a, moves a (mkLexer r p) (snd (string_loop esc r p)).
Proof.
  revert esc p. induction r as [|c r IH]; intros esc p; [exists []; apply moves_refl|].
  assert (Hk : forall e, exists a, moves a (mkLexer (c :: r) p)
    (snd (let '(l, lx) := string_loop e r (p + len_utf8 c)%N in (c :: l, lx)))).
  { intros e. destruct (IH e (p + len_utf8 c)%N) as [a [H1 H2]].
    destruct (string_loop e r _) as [l lx]. exists (c :: a).
    split; simpl in *; [by rewrite H1|]. rewrite H2. lia. }
  simpl. destruct esc; [apply Hk|]. destruct (c =? chr "\")%N; [apply Hk|].
  destruct (c =? chr "'")%N; [|apply Hk]. exists [c]. split; simpl; [done|lia].
Qed.

Section LexerFacts.
Context `{UnicodeTables}.

Lemma advance2_moves lx c r :
  rest lx = c :: r -> peek_next lx = Some (chr "=") ->
  exists a, a ≠ [] /\ moves a lx (advance (advance lx)).
Proof.
  intros Hr Hp. unfold peek_next in Hp. rewrite Hr in Hp.
  destruct r as [|d r]; [done|]. pose proof (advance_moves _ _ _ Hr) as M.
  assert (Hr' : rest (advance lx) = d :: r) by (unfold advance; by rewrite Hr).
  exists ([c] ++ [d]). split; [done|].
  eapply moves_trans; [done|]. by eapply advance_moves.
Qed.

(** A loop that accepts the first character consumes at least that one. *)
Lemma skip_while_nonempty f lx c r :
  rest lx = c :: r -> f c = true ->
  exists a, a ≠ [] /\ moves a lx (skip_while f lx).
Proof.
  intros Hr Hf. eexists. split; [|apply skip_while_moves]. rewrite Hr. simpl. rewrite Hf.
  by destruct (span f r).
Qed.

Lemma ident_start_char c :
  (is_ascii_alphabetic c || (c =? chr "_")%N) = true -> ident_char c = true.
Proof.
  unfold ident_char, is_alphanumeric, is_ascii_alphanumeric. intros H1.
  apply orb_true_iff in H1 as [H1| ->]; [|apply orb_true_r].
  assert ((c <? 128)%N = true) as ->; [|by rewrite H1].
  unfold is_ascii_alphabetic, is_ascii_lowercase, is_ascii_uppercase, in_range in H1.
  apply N.ltb_lt. apply orb_true_iff in H1 as [H1|H1]; bools; lia.
Qed.

(** Every branch of the token table consumes at least one character, and
    none yields [Eof]. *)
Lemma scan_moves lx c r :
  rest lx = c :: r ->
  fst (scan lx c) ≠ TEof /\ exists a, a ≠ [] /\ moves a lx (snd (scan lx c)).
Proof.
  intros Hr. unfold scan.
  assert (One : exists a, a ≠ [] /\ moves a lx (advance lx))
    by (exists [c]; split; [done|by eapply advance_moves]).
  assert (Two : bool_decide (peek_next lx = Some (chr "=")) = true ->
    exists a, a ≠ [] /\ moves a lx (advance (advance lx)))
    by (intros E%bool_decide_eq_true; eauto using advance2_moves).
  repeat match goal with
  | |- context [if ?b then (?k, _) else _] =>
      destruct b eqn:?; [split; [done|]; bools; auto|]
  end.
  destruct (c =? chr "'")%N.
  { unfold string_literal. pose proof (advance_moves _ _ _ Hr) as M1.
    destruct (string_loop_moves false (rest (advance lx)) (pos (advance lx))) as [a M2].
    destruct (string_loop _ _ _) as [l lx']. split; [done|]. exists ([c] ++ a).
    split; [done|]. eapply moves_trans; [exact M1|]. by destruct (advance lx). }
  destruct (is_ascii_digit c) eqn:Ed.
  { unfold integer. cbv zeta. split; [by repeat case_match|].
    replace (snd _) with (skip_while is_ascii_digit lx) by (by repeat case_match).
    by eapply skip_while_nonempty. }
  destruct (is_ascii_alphabetic c || (c =? chr "_")%N) eqn:Ei; [|split; [done|auto]].
  unfold identifier_or_keyword. simpl. split.
  - unfold keyword. by repeat case_match.
  - eapply skip_while_nonempty; [done|by apply ident_start_char].
Qed.

(** [next_token] skips white space, then either reports the end of the input
    or consumes a nonempty lexeme, which is the text between the positions. *)
Lemma next_token_spec lx t lx' :
  next_token lx = (t, lx') ->
  exists ws, Forall (fun c => is_whitespace c = true) ws /\
    position t = (pos lx + str_len ws)%N /\ moves (ws ++ lexeme t) lx lx' /\
    (if bool_decide (kind t = TEof) then rest lx' = [] /\ lexeme t = []
     else lexeme t ≠ []).
Proof.
  unfold next_token, skip_whitespace. set (ws := fst (span is_whitespace (rest lx))).
  pose proof (skip_while_moves is_whitespace lx) as M. fold ws in M.
  set (st := skip_while is_whitespace lx) in *. intros E. exists ws.
  split; [apply span_all|]. destruct (rest st) as [|c r] eqn:Hr.
  - injection E as <- <-. destruct M as [M1 M2]. rewrite bool_decide_true by done. simpl.
    by rewrite app_nil_r.
  - destruct (scan_moves st c r Hr) as [Hk (a & Ha & Ma)].
    destruct (scan st c) as [k lx''] eqn:Es. injection E as <- <-. simpl in *.
    rewrite (slice_moves a st lx'' Ma), bool_decide_false by done.
    destruct M as [M1 M2]. split; [done|]. split; [|done].
    by eapply moves_trans; [split|].
Qed.

Lemma next_token_progress lx t lx' :
  next_token lx = (t, lx') ->
  (kind t = TEof -> rest lx' = []) /\
  (kind t ≠ TEof -> length (rest lx') < length (rest lx)).
Proof.
  intros E. apply next_token_spec in E as (ws & _ & _ & M & Hk). apply moves_length in M.
  rewrite length_app in M. case_bool_decide as Hd; [by destruct Hk|].
  split; [done|]. intros _. destruct (lexeme t); [done|]. simpl in M. lia.
Qed.
End LexerFacts.

(** ** Tokenising terminates and loses nothing *)

(** [covers p s ts]: the tokens [ts] are laid over the text [s], which starts
    at byte [p], in order, with only white space between them, and end in Eof. *)
Inductive covers : N -> str -> list Token -> Prop :=
| covers_eof p ws t :
    Forall (fun c => is_whitespace c = true) ws ->
    kind t = TEof -> position t = (p + str_len ws)%N -> lexeme t = [] ->
    covers p ws [t]
| covers_token p ws t s ts :
    Forall (fun c => is_whitespace c = true) ws ->
    kind t ≠ TEof -> position t = (p + str_len ws)%N -> lexeme t ≠ [] ->
    covers (p + str_len ws + str_len (lexeme t)) s ts ->
    covers p (ws ++ lexeme t ++ s) (t :: ts).

Lemma tokenize_loop_covers `{UnicodeTables} fuel lx :
  length (rest lx) < fuel ->
  exists ts, tokenize_loop fuel lx = Some ts /\ covers (pos lx) (rest lx) ts.
Proof.
  revert lx. induction fuel as [|f IH]; intros lx Hf; [lia|]. cbn [tokenize_loop].
  destruct (next_token lx) as [t lx'] eqn:E.
  pose proof (next_token_progress _ _ _ E) as [_ Hp].
  apply next_token_spec in E as (ws & Hws & Hpos & [M1 M2] & Hk).
  case_bool_decide as Hd.
  - destruct Hk as [Hk1 Hk2]. exists [t]. split; [done|].
    rewrite M1, Hk1, Hk2, !app_nil_r. by constructor.
  - destruct (IH lx') as (ts & -> & Hc); [specialize (Hp Hd); lia|].
    exists (t :: ts). split; [done|]. rewrite M1, <- app_assoc. constructor; auto.
    rewrite M2, str_len_app, N.add_assoc in Hc. done.
Qed.

(** The loop of [tokenize] terminates on every input, and its tokens cover
    the whole input: each one carries its byte position and its text, only white
    space lies between them, and the last and only the last is [Eof]. *)
Theorem tokenize_covers `{UnicodeTables} (input : str) :
  exists ts, tokenize input = Some ts /\ covers 0 input ts.
Proof. apply (tokenize_loop_covers _ (Lexer_new input)). simpl. lia. Qed.
