(* ===== verification/RuleParser.v ===== *)
(** * The CEL-lite parser (enrichment-engine/src/rules/ast.rs)

    The expression AST and the recursive-descent parser.  A parsing function
    takes the parser state and returns [None] when its fuel ran out, and
    otherwise the [Result] of the Rust function with the new state; the theorem
    [parse_total] shows that the fuel of [parse] is always enough.

    The Rust error carries the [Debug] text of the token found; [found] carries
    the token kind itself. *)

From S2P Require Import Prelude RuleLexer.

(** ** The AST *)

Inductive CompOp : Type := OpEq | OpNe | OpGt | OpLt | OpGe | OpLe.

#[export] Instance CompOp_eq_dec : EqDecision CompOp.
Proof. solve_decision. Defined.

Inductive Expr : Type :=
| EBool (b : bool)
| EInt (n : Z)
| EStr (s : str)
| EField (f : str)
| EEq (l r : Expr) | ENe (l r : Expr)
| EGt (l r : Expr) | ELt (l r : Expr)
| EGe (l r : Expr) | ELe (l r : Expr)
| EAnd (l r : Expr)
| EOr (l r : Expr)
| ENot (e : Expr)
| EContainsFact (key : str)
| EFact (key : str)
| EStdoutContains (sub : str)
| EAnyFact (key : str) (op : CompOp) (value : str)
| EAllFact (key : str) (op : CompOp) (value : str)
| ECountFact (key : str) (op : CompOp) (n : Z)
| EStderrContains (sub : str)
| EStderrMatches (pattern : str)
| EDurationLt (n : Z)
| EDurationGt (n : Z).

#[export] Instance Expr_eq_dec : EqDecision Expr.
Proof. solve_decision. Defined.

Inductive ParseError : Type :=
| UnexpectedToken (position : N) (expected : str) (found : TokenKind)
| UnterminatedString (position : N)
| Invalid (msg : str).

(** The [regex] crate: compiling a pattern, and matching. *)
Class RegexEngine := {
  regex : Type;
  regex_new : str -> result str regex;
  regex_is_match : regex -> str -> bool
}.

(** A concrete engine for evaluation on examples: a pattern matches the texts
    that contain it, and the empty pattern does not compile. *)
Definition substring_engine : RegexEngine :=
  {| regex := str;
     regex_new p := match p with [] => Err (lit "empty pattern") | _ => Ok p end;
     regex_is_match p s := str_contains s p |}.

(** ** The parser monad *)

Record Parser : Type := mkParser { lexer : Lexer; current : Token }.

Definition PM (A : Type) : Type := Parser -> option (result ParseError (A * Parser)).

#[export] Instance PM_ret : MRet PM := fun A a st => Some (Ok (a, st)).
#[export] Instance PM_bind : MBind PM := fun A B k m st =>
  match m st with
  | None => None
  | Some (Err e) => Some (Err e)
  | Some (Ok (a, st')) => k a st'
  end.

Definition p_fail {A} (e : ParseError) : PM A := fun _ => Some (Err e).
Definition out_of_fuel {A} : PM A := fun _ => None.
Definition p_current : PM Token := fun st => Some (Ok (current st, st)).
Definition p_result {A} (r : result ParseError A) : PM A := fun st =>
  match r with Ok a => Some (Ok (a, st)) | Err e => Some (Err e) end.

Definition unexpected {A} (expected : string) : PM A :=
  t ← p_current; p_fail (UnexpectedToken (position t) (lit expected) (kind t)).
Arguments unexpected {A} expected%_string_scope.

Section Parser.
Context `{UnicodeTables} `{RegexEngine}.

(** [Parser::advance]. *)
Definition p_advance : PM unit := fun st =>
  let '(t, lx) := next_token (lexer st) in Some (Ok (tt, mkParser lx t)).

(** [if self.current.kind != RParen { return Err } self.advance()]. *)
Definition expect_rparen : PM unit :=
  t ← p_current;
  if bool_decide (kind t = TRParen) then p_advance else unexpected ")".

(** ** Function calls *)

Definition invalid {A} (msg : str) : result ParseError A := Err (Invalid msg).

(** "<name> takes <n>, got <m>". *)
Definition wrong_arity {A} (what : string) (args : list Expr) : result ParseError A :=
  invalid (lit what ++ lit ", got " ++ show_nat (length args)).

Definition str_arg (msg : string) (e : Expr) : result ParseError str :=
  match e with EStr s => Ok s | _ => invalid (lit msg) end.

Definition int_arg (msg : string) (e : Expr) : result ParseError Z :=
  match e with EInt n => Ok n | _ => invalid (lit msg) end.

Definition parse_comp_op_from_expr (e : Expr) : result ParseError CompOp :=
  match e with
  | EStr s =>
      if str_eqb s (lit "==") then Ok OpEq
      else if str_eqb s (lit "!=") then Ok OpNe
      else if str_eqb s (lit ">") then Ok OpGt
      else if str_eqb s (lit "<") then Ok OpLt
      else if str_eqb s (lit ">=") then Ok OpGe
      else if str_eqb s (lit "<=") then Ok OpLe
      else invalid (lit "Unknown comparison operator: " ++ s)
  | _ => invalid (lit "Comparison operator must be a string literal")
  end.

(** The predicates of one string argument, with the code's messages. *)
Definition call_unary_str (arity msg : string) (mk : str -> Expr) (args : list Expr) :
    result ParseError Expr :=
  match args with
  | [a] => s ← str_arg msg a; Ok (mk s)
  | _ => wrong_arity arity args
  end.

(** The predicates of one integer argument. *)
Definition call_unary_int (arity msg : string) (mk : Z -> Expr) (args : list Expr) :
    result ParseError Expr :=
  match args with
  | [a] => n ← int_arg msg a; Ok (mk n)
  | _ => wrong_arity arity args
  end.

(** The fields written as calls: [exit_code()], [timed_out()]. *)
Definition call_field (f : string) (msg : string) (args : list Expr) :
    result ParseError Expr :=
  match args with [] => Ok (EField (lit f)) | _ => invalid (lit msg) end.

Definition call_any_fact (args : list Expr) : result ParseError Expr :=
  match args with
  | [a; b; c] =>
      key ← str_arg "any_fact first argument (key) must be a string literal" a;
      op ← parse_comp_op_from_expr b;
      value ← str_arg "any_fact third argument (value) must be a string literal" c;
      Ok (EAnyFact key op value)
  | _ => wrong_arity "any_fact takes 3 arguments" args
  end.

Definition call_all_fact (args : list Expr) : result ParseError Expr :=
  match args with
  | [a; b; c] =>
      key ← str_arg "all_fact first argument (key) must be a string literal" a;
      op ← parse_comp_op_from_expr b;
      value ← str_arg "all_fact third argument (value) must be a string literal" c;
      Ok (EAllFact key op value)
  | _ => wrong_arity "all_fact takes 3 arguments" args
  end.

Definition call_count_fact (args : list Expr) : result ParseError Expr :=
  match args with
  | [a; b; c] =>
      key ← str_arg "count_fact first argument (key) must be a string literal" a;
      op ← parse_comp_op_from_expr b;
      n ← int_arg "count_fact third argument (N) must be an integer" c;
      Ok (ECountFact key op n)
  | _ => wrong_arity "count_fact takes 3 arguments" args
  end.

(** [stderr_matches]: the pattern is compiled at parse time, fail-closed. *)
Definition call_stderr_matches (args : list Expr) : result ParseError Expr :=
  match args with
  | [a] =>
      pattern ← str_arg "stderr_matches argument must be a string literal" a;
      match regex_new pattern with
      | Ok _ => Ok (EStderrMatches pattern)
      | Err e => invalid (lit "Invalid regex in stderr_matches: " ++ e)
      end
  | _ => wrong_arity "stderr_matches takes 1 argument" args
  end.

(** The [match name] of [parse_ident_or_call] on a call. *)
Definition build_call (name : str) (args : list Expr) : result ParseError Expr :=
  if str_eqb name (lit "contains_fact") then
    call_unary_str "contains_fact takes 1 argument"
      "contains_fact argument must be a string literal" EContainsFact args
  else if str_eqb name (lit "fact") then
    call_unary_str "fact takes 1 argument (key)" "fact key must be a string literal"
      EFact args
  else if str_eqb name (lit "stdout_contains") then
    call_unary_str "stdout_contains takes 1 argument"
      "stdout_contains argument must be a string literal" EStdoutContains args
  else if str_eqb name (lit "timed_out") then
    call_field "timed_out" "timed_out takes no arguments" args
  else if str_eqb name (lit "exit_code") then
    call_field "exit_code" "exit_code takes no arguments" args
  else if str_eqb name (lit "any_fact") then call_any_fact args
  else if str_eqb name (lit "all_fact") then call_all_fact args
  else if str_eqb name (lit "count_fact") then call_count_fact args
  else if str_eqb name (lit "duration_gt") then
    call_unary_int "duration_gt takes 1 argument" "duration_gt argument must be an integer"
      EDurationGt args
  else if str_eqb name (lit "stderr_contains") then
    call_unary_str "stderr_contains takes 1 argument"
      "stderr_contains argument must be a string literal" EStderrContains args
  else if str_eqb name (lit "stderr_matches") then call_stderr_matches args
  else if str_eqb name (lit "duration_lt") then
    call_unary_int "duration_lt takes 1 argument" "duration_lt argument must be an integer"
      EDurationLt args
  else invalid (lit "Unknown function: " ++ name).

(** A plain identifier: one of the built-in fields, or a bare string. *)
Definition plain_ident (name : str) : Expr :=
  if bool_decide (name ∈ [lit "exit_code"; lit "timed_out"; lit "stdout"; lit "stderr";
                          lit "duration_ms"])
  then EField name else EStr name.

(** ** Recursive descent

    [rec] is [parse_expression] on nested expressions; the loops carry their
    own fuel [n]. *)
Section Descent.
Context (rec : PM Expr).

Fixpoint call_args_loop (n : nat) (args : list Expr) : PM (list Expr) :=
  match n with
  | O => out_of_fuel
  | S n' =>
      t ← p_current;
      if bool_decide (kind t = TComma) then
        _ ← p_advance; a ← rec; call_args_loop n' (args ++ [a])
      else mret args
  end.

Definition parse_call_args (n : nat) : PM (list Expr) :=
  t ← p_current;
  if bool_decide (kind t = TRParen) then mret []
  else a ← rec; call_args_loop n [a].

Definition parse_ident_or_call (n : nat) (name : str) : PM Expr :=
  t ← p_current;
  if bool_decide (kind t = TLParen) then
    _ ← p_advance;
    args ← parse_call_args n;
    _ ← expect_rparen;
    p_result (build_call name args)
  else mret (plain_ident name).

Definition parse_primary (n : nat) : PM Expr :=
  t ← p_current;
  match kind t with
  | TBool b => _ ← p_advance; mret (EBool b)
  | TInt i => _ ← p_advance; mret (EInt i)
  | TStr s => _ ← p_advance; mret (EStr s)
  | TIdent name => _ ← p_advance; parse_ident_or_call n name
  | TCountFact => _ ← p_advance; parse_ident_or_call n (lit "count_fact")
  | TAnyFact => _ ← p_advance; parse_ident_or_call n (lit "any_fact")
  | TAllFact => _ ← p_advance; parse_ident_or_call n (lit "all_fact")
  | TDurationGt => _ ← p_advance; parse_ident_or_call n (lit "duration_gt")
  | TLParen => _ ← p_advance; e ← rec; _ ← expect_rparen; mret e
  | _ => unexpected "expression"
  end.

(** The AST node of a comparison token. *)
Definition comparison (k : TokenKind) : option (Expr -> Expr -> Expr) :=
  match k with
  | TEq => Some EEq | TNe => Some ENe | TGt => Some EGt
  | TLt => Some ELt | TGe => Some EGe | TLe => Some ELe
  | _ => None
  end.

Definition parse_comparison (n : nat) : PM Expr :=
  left ← parse_primary n;
  t ← p_current;
  match comparison (kind t) with
  | Some mk => _ ← p_advance; right ← parse_primary n; mret (mk left right)
  | None => mret left
  end.

Fixpoint parse_not (n : nat) : PM Expr :=
  match n with
  | O => out_of_fuel
  | S n' =>
      t ← p_current;
      if bool_decide (kind t = TNot) then
        _ ← p_advance; inner ← parse_not n'; mret (ENot inner)
      else parse_comparison n
  end.

Fixpoint and_loop (n : nat) (left : Expr) : PM Expr :=
  match n with
  | O => out_of_fuel
  | S n' =>
      t ← p_current;
      if bool_decide (kind t = TAnd) then
        _ ← p_advance; right ← parse_not n; and_loop n' (EAnd left right)
      else mret left
  end.

Definition parse_and (n : nat) : PM Expr := left ← parse_not n; and_loop n left.

Fixpoint or_loop (n : nat) (left : Expr) : PM Expr :=
  match n with
  | O => out_of_fuel
  | S n' =>
      t ← p_current;
      if bool_decide (kind t = TOr) then
        _ ← p_advance; right ← parse_and n; or_loop n' (EOr left right)
      else mret left
  end.

Definition parse_or (n : nat) : PM Expr := left ← parse_and n; or_loop n left.
End Descent.

Fixpoint parse_expression (fuel : nat) : PM Expr :=
  match fuel with
  | O => out_of_fuel
  | S f => parse_or (parse_expression f) fuel
  end.

(** [Parser::parse]; [None] when the fuel runs out (never, by [parse_total]). *)
Definition parse_fuel (fuel : nat) (input : str) : option (result ParseError Expr) :=
  let st0 := mkParser (Lexer_new input) (mkToken TEof 0 []) in
  match (_ ← p_advance; e ← parse_expression fuel;
         t ← p_current;
         if bool_decide (kind t = TEof) then mret e
         else unexpected (A := Expr) "end of input") st0 with
  | Some (Ok (e, _)) => Some (Ok e)
  | Some (Err err) => Some (Err err)
  | None => None
  end.

Definition parse (input : str) : option (result ParseError Expr) :=
  parse_fuel (S (S (length input))) input.
End Parser.

(** ** The parser terminates *)

(** What is left to parse: zero at the end of the input, and otherwise the
    current token and the characters behind it. *)
Definition remaining (st : Parser) : nat :=
  if bool_decide (kind (current st) = TEof) then 0 else S (length (rest (lexer st))).

(** [p] returns (a value or a parse error) from [st] and leaves at most [k]. *)
Definition returns_within {A} (k : nat) (p : PM A) (st : Parser) : Prop :=
  exists r, p st = Some r /\
    match r with Ok (_, st') => remaining st' <= k | Err _ => True end.

Section Termination.
Context `{UnicodeTables} `{RegexEngine}.

Lemma within_ret {A} k (a : A) st : remaining st <= k -> returns_within k (mret a) st.
Proof. intros. by exists (Ok (a, st)). Qed.

Lemma within_fail {A} k e st : returns_within (A := A) k (p_fail e) st.
Proof. by exists (Err e). Qed.

Lemma within_unexpected {A} k s st : returns_within (A := A) k (unexpected s) st.
Proof. by eexists (Err _). Qed.

Lemma within_result {A} k (r : result ParseError A) st :
  remaining st <= k -> returns_within k (p_result r) st.
Proof. destruct r as [a|e]; intros; [by exists (Ok (a, st))|by exists (Err e)]. Qed.

Lemma within_bind {A B} j k (p : PM A) (f : A -> PM B) st :
  returns_within j p st ->
  (forall a st', remaining st' <= j -> returns_within k (f a) st') ->
  returns_within k (p ≫= f) st.
Proof.
  intros (r & Hp & Hr) Hf. unfold returns_within, mbind, PM_bind. rewrite Hp.
  destruct r as [[a st']|e]; [by apply Hf|by eexists (Err _)].
Qed.

(** Inspecting the current token changes nothing. *)
Lemma within_current {A} k (f : Token -> PM A) st :
  returns_within k (f (current st)) st -> returns_within k (p_current ≫= f) st.
Proof. done. Qed.

Lemma within_advance st :
  kind (current st) ≠ TEof -> returns_within (pred (remaining st)) p_advance st.
Proof.
  intros Hk. unfold returns_within, p_advance. destruct (next_token (lexer st)) as [t lx] eqn:E.
  eexists. split; [done|]. apply next_token_progress in E as [_ Hp].
  unfold remaining. rewrite (bool_decide_false (kind (current st) = _)) by done. simpl.
  case_bool_decide; [lia|]. by apply Hp.
Qed.

Lemma remaining_pos st : kind (current st) ≠ TEof -> 0 < remaining st.
Proof. intros. unfold remaining. rewrite bool_decide_false by done. lia. Qed.

(** Consuming the current token and going on with strictly less to parse. *)
Lemma within_consume {A} k (f : unit -> PM A) st :
  kind (current st) ≠ TEof ->
  (forall st', remaining st' < remaining st -> returns_within k (f tt) st') ->
  returns_within k (p_advance ≫= f) st.
Proof.
  intros Hk Hf. eapply within_bind; [by apply within_advance|].
  intros [] st' Hle. apply Hf. pose proof (remaining_pos st Hk). lia.
Qed.

Lemma within_expect_rparen st : returns_within (remaining st) expect_rparen st.
Proof.
  apply within_current. case_bool_decide as Hk; [|apply within_unexpected].
  destruct (within_advance st) as (r & Hr & Hm); [by rewrite Hk|].
  exists r. split; [done|]. destruct r as [[??]|]; [lia|done].
Qed.

Lemma within_mono {A} j k (p : PM A) st :
  j <= k -> returns_within j p st -> returns_within k p st.
Proof. intros Hle (r & ? & Hr). exists r. split; [done|]. destruct r as [[??]|]; [lia|done]. Qed.

Section Descent.
Context (rec : PM Expr) (N : nat).
Context (Hrec : forall st, remaining st < N -> returns_within (remaining st) rec st).

Lemma within_rec {A} k (f : Expr -> PM A) st :
  remaining st < N ->
  (forall e st', remaining st' <= remaining st -> returns_within k (f e) st') ->
  returns_within k (rec ≫= f) st.
Proof. intros Hlt Hf. eapply within_bind; [by apply Hrec|]. auto. Qed.

Lemma within_call_args_loop n args st :
  remaining st < N -> remaining st < n ->
  returns_within (remaining st) (call_args_loop rec n args) st.
Proof.
  revert args st. induction n as [|n IH]; intros args st HN Hn; [lia|].
  apply within_current. case_bool_decide as Hk; [|by apply within_ret].
  apply within_consume; [by rewrite Hk|]. intros st' Hlt.
  apply within_rec; [lia|]. intros a st'' Hle.
  eapply within_mono; [|apply IH]; lia.
Qed.

Lemma within_call_args n st :
  remaining st < N -> remaining st < n ->
  returns_within (remaining st) (parse_call_args rec n) st.
Proof.
  intros HN Hn. apply within_current. case_bool_decide; [by apply within_ret|].
  apply within_rec; [done|]. intros a st' Hle.
  eapply within_mono; [|apply within_call_args_loop]; lia.
Qed.

Lemma within_ident_or_call n name st :
  remaining st < N -> remaining st < n ->
  returns_within (remaining st) (parse_ident_or_call rec n name) st.
Proof.
  intros HN Hn. apply within_current. case_bool_decide as Hk; [|by apply within_ret].
  apply within_consume; [by rewrite Hk|]. intros st' Hlt.
  eapply within_bind; [apply within_call_args; lia|]. intros args st'' Hle.
  eapply within_bind; [apply within_expect_rparen|]. intros [] st3 Hle3.
  apply within_result. lia.
Qed.

Lemma within_primary n st :
  remaining st <= N -> remaining st < n ->
  returns_within (remaining st) (parse_primary rec n) st.
Proof.
  intros HN Hn. apply within_current. destruct (kind (current st)) eqn:Hk;
    try apply within_unexpected;
    (apply within_consume; [by rewrite Hk|]; intros st' Hlt);
    try (apply within_ret; lia);
    try (eapply within_mono; [|apply within_ident_or_call]; lia).
  apply within_rec; [lia|]. intros e st'' Hle.
  eapply within_bind; [apply within_expect_rparen|]. intros [] st3 Hle3.
  apply within_ret. lia.
Qed.

Lemma within_comparison n st :
  remaining st <= N -> remaining st < n ->
  returns_within (remaining st) (parse_comparison rec n) st.
Proof.
  intros HN Hn. eapply within_bind; [by apply within_primary|]. intros l st1 Hle.
  apply within_current. destruct (comparison _) as [mk|] eqn:Hc; [|by apply within_ret].
  apply within_consume; [by intros Hk; rewrite Hk in Hc|]. intros st2 Hlt.
  eapply within_bind; [apply within_primary; lia|]. intros r st3 Hle3.
  apply within_ret. lia.
Qed.

Lemma within_not n st :
  remaining st <= N -> remaining st < n ->
  returns_within (remaining st) (parse_not rec n) st.
Proof.
  revert st. induction n as [|n IH]; intros st HN Hn; [lia|].
  apply within_current. case_bool_decide as Hk; [|by apply within_comparison].
  apply within_consume; [by rewrite Hk|]. intros st' Hlt.
  eapply within_bind; [apply IH; lia|]. intros e st'' Hle. apply within_ret. lia.
Qed.

Lemma within_and_loop n left st :
  remaining st <= N -> remaining st < n ->
  returns_within (remaining st) (and_loop rec n left) st.
Proof.
  revert left st. induction n as [|n IH]; intros left st HN Hn; [lia|].
  apply within_current. case_bool_decide as Hk; [|by apply within_ret].
  apply within_consume; [by rewrite Hk|]. intros st' Hlt.
  eapply within_bind; [apply within_not; lia|]. intros r st'' Hle.
  eapply within_mono; [|apply IH]; lia.
Qed.

Lemma within_and n st :
  remaining st <= N -> remaining st < n ->
  returns_within (remaining st) (parse_and rec n) st.
Proof.
  intros HN Hn. eapply within_bind; [by apply within_not|]. intros l st' Hle.
  eapply within_mono; [|apply within_and_loop]; lia.
Qed.

Lemma within_or_loop n left st :
  remaining st <= N -> remaining st < n ->
  returns_within (remaining st) (or_loop rec n left) st.
Proof.
  revert left st. induction n as [|n IH]; intros left st HN Hn; [lia|].
  apply within_current. case_bool_decide as Hk; [|by apply within_ret].
  apply within_consume; [by rewrite Hk|]. intros st' Hlt.
  eapply within_bind; [apply within_and; lia|]. intros r st'' Hle.
  eapply within_mono; [|apply IH]; lia.
Qed.

Lemma within_or n st :
  remaining st <= N -> remaining st < n ->
  returns_within (remaining st) (parse_or rec n) st.
Proof.
  intros HN Hn. eapply within_bind; [by apply within_and|]. intros l st' Hle.
  eapply within_mono; [|apply within_or_loop]; lia.
Qed.
End Descent.

Lemma within_expression fuel st :
  remaining st < fuel -> returns_within (remaining st) (parse_expression fuel) st.
Proof.
  revert st. induction fuel as [|f IH]; intros st Hf; [lia|]. cbn [parse_expression].
  apply (within_or _ f); [|lia|lia]. intros st' Hlt. by apply IH.
Qed.

Lemma parse_returns (input : str) : exists r, parse input = Some r.
Proof.
  unfold parse, parse_fuel. set (n := S (S (length input))).
  set (st0 := mkParser _ _).
  enough (returns_within n (_ ← p_advance; e ← parse_expression n; t ← p_current;
    if bool_decide (kind t = TEof) then mret e else unexpected (A := Expr) "end of input") st0)
    as (r & -> & _) by (destruct r as [[e ?]|err]; eauto).
  assert (Ha : returns_within (S (length input)) p_advance st0).
  { unfold returns_within, p_advance. destruct (next_token _) as [t lx] eqn:E.
    eexists. split; [done|]. apply next_token_spec in E as (ws & _ & _ & M & _).
    apply moves_length in M. unfold remaining. simpl in *. case_bool_decide; lia. }
  eapply within_bind; [exact Ha|]. intros [] st1 Hle.
  eapply within_bind; [apply within_expression; lia|]. intros e st2 Hle2.
  apply within_current. case_bool_decide; [apply within_ret; lia|apply within_unexpected].
Qed.

(** C4. [Parser::parse] terminates on every input: with the fuel [parse] gives
    it the recursive descent always returns an expression or a parse error. *)
Theorem parse_total (input : str) : exists r, parse input = Some r.
Proof. apply parse_returns. Qed.
End Termination.
