(* ===== verification/RuleSyntax.v ===== *)
(** * Parsing inverts printing for CEL-lite expressions

    [show] prints an expression as tokens with the fewest parentheses the
    precedence of the language allows (or < and < not < comparison < primary,
    [or] and [and] associating to the left); [render] writes tokens as text.
    The round trip [parse_render] says that the parser of RuleParser.v reads the
    text back as the same expression, so it fixes precedence and associativity. *)

From S2P Require Import Prelude RuleLexer RuleParser.

(** ** The printer *)

Definition op_text (op : CompOp) : str :=
  match op with
  | OpEq => lit "==" | OpNe => lit "!=" | OpGt => lit ">"
  | OpLt => lit "<" | OpGe => lit ">=" | OpLe => lit "<="
  end.

(** Binding strength: 0 [or], 1 [and], 2 [not], 3 comparisons, 4 primaries. *)
Definition paren (b : bool) (ks : list TokenKind) : list TokenKind :=
  if b then TLParen :: ks ++ [TRParen] else ks.

Definition call (f : TokenKind) (args : list TokenKind) : list TokenKind :=
  f :: TLParen :: args ++ [TRParen].

Definition fact_args (key : str) (op : CompOp) (v : TokenKind) : list TokenKind :=
  [TStr key; TComma; TStr (op_text op); TComma; v].

Fixpoint show (lvl : nat) (e : Expr) : list TokenKind :=
  let cmp k a b := paren (3 <? lvl) (show 4 a ++ k :: show 4 b) in
  match e with
  | EOr a b => paren (0 <? lvl) (show 0 a ++ TOr :: show 1 b)
  | EAnd a b => paren (1 <? lvl) (show 1 a ++ TAnd :: show 2 b)
  | ENot a => paren (2 <? lvl) (TNot :: show 2 a)
  | EEq a b => cmp TEq a b | ENe a b => cmp TNe a b
  | EGt a b => cmp TGt a b | ELt a b => cmp TLt a b
  | EGe a b => cmp TGe a b | ELe a b => cmp TLe a b
  | EBool b => [TBool b]
  | EInt n => [TInt n]
  | EStr s => [TStr s]
  | EField f => [TIdent f]
  | EContainsFact k => call (TIdent (lit "contains_fact")) [TStr k]
  | EFact k => call (TIdent (lit "fact")) [TStr k]
  | EStdoutContains s => call (TIdent (lit "stdout_contains")) [TStr s]
  | EAnyFact k op v => call TAnyFact (fact_args k op (TStr v))
  | EAllFact k op v => call TAllFact (fact_args k op (TStr v))
  | ECountFact k op n => call TCountFact (fact_args k op (TInt n))
  | EStderrContains s => call (TIdent (lit "stderr_contains")) [TStr s]
  | EStderrMatches p => call (TIdent (lit "stderr_matches")) [TStr p]
  | EDurationLt n => call (TIdent (lit "duration_lt")) [TInt n]
  | EDurationGt n => call TDurationGt [TInt n]
  end.

(** A literal the lexer reads back: no unescaped quote, no pending escape. *)
Fixpoint raw_literal (escaped : bool) (s : str) : bool :=
  match s with
  | [] => negb escaped
  | c :: s' =>
      if escaped then raw_literal false s'
      else if (c =? chr "\")%N then raw_literal true s'
      else negb (c =? chr "'")%N && raw_literal false s'
  end.

Definition int_literal (n : Z) : bool := ((0 <=? n) && (n <=? i32_max))%Z.

Definition field_names : list str :=
  [lit "exit_code"; lit "timed_out"; lit "stdout"; lit "stderr"; lit "duration_ms"].

(** The expressions with a concrete syntax. *)
Fixpoint printable `{RegexEngine} (e : Expr) : bool :=
  match e with
  | EOr a b | EAnd a b | EEq a b | ENe a b | EGt a b | ELt a b | EGe a b | ELe a b =>
      printable a && printable b
  | ENot a => printable a
  | EBool _ => true
  | EInt n | EDurationLt n | EDurationGt n => int_literal n
  | EField f => bool_decide (f ∈ field_names)
  | EStr s | EContainsFact s | EFact s | EStdoutContains s | EStderrContains s =>
      raw_literal false s
  | EAnyFact k _ v | EAllFact k _ v => raw_literal false k && raw_literal false v
  | ECountFact k _ n => raw_literal false k && int_literal n
  | EStderrMatches p => raw_literal false p && is_ok (regex_new p)
  end.

(** ** Token-level reading of a parser state *)

Section RoundTrip.
Context `{UnicodeTables} `{RegexEngine}.

(** The lexer will yield the token kinds [ks] and then Eof. *)
Inductive lexes : Lexer -> list TokenKind -> Prop :=
| lexes_nil lx : kind (fst (next_token lx)) = TEof -> lexes lx []
| lexes_cons lx k ks :
    k ≠ TEof -> kind (fst (next_token lx)) = k -> lexes (snd (next_token lx)) ks ->
    lexes lx (k :: ks).

(** The parser sees [ks]: the current token and what the lexer will yield. *)
Definition sees (st : Parser) (ks : list TokenKind) : Prop :=
  match ks with
  | [] => kind (current st) = TEof
  | k :: ks' => kind (current st) = k /\ k ≠ TEof /\ lexes (lexer st) ks'
  end.

Definition head (ks : list TokenKind) : TokenKind := default TEof (ks !! 0).

Lemma sees_head st ks : sees st ks -> kind (current st) = head ks.
Proof. destruct ks; [done|]. by intros [? _]. Qed.

(** [p] reads [a] off the tokens [ks] and stops in front of [ks']. *)
Definition reads {A} (p : PM A) (ks : list TokenKind) (a : A) (ks' : list TokenKind) : Prop :=
  forall st, sees st ks -> exists st', p st = Some (Ok (a, st')) /\ sees st' ks'.

Lemma reads_ret {A} (a : A) ks : reads (mret a) ks a ks.
Proof. intros st Hs. by exists st. Qed.

Lemma reads_bind {A B} (p : PM A) (f : A -> PM B) ks a ks1 b ks2 :
  reads p ks a ks1 -> reads (f a) ks1 b ks2 -> reads (p ≫= f) ks b ks2.
Proof.
  intros Hp Hf st Hs. destruct (Hp st Hs) as (st1 & E & Hs1).
  unfold mbind, PM_bind. rewrite E. by apply Hf.
Qed.

Lemma reads_current {A} (f : Token -> PM A) ks a ks' :
  (forall t, kind t = head ks -> reads (f t) ks a ks') -> reads (p_current ≫= f) ks a ks'.
Proof. intros Hf st Hs. apply (Hf (current st)); [by apply sees_head|done]. Qed.

Lemma sees_first lx ks t lx' :
  lexes lx ks -> next_token lx = (t, lx') -> sees (mkParser lx' t) ks.
Proof.
  intros Hl E. inversion Hl as [? Hk|? k ks' Hne Hk Hl']; subst; rewrite E in *; by simpl in *.
Qed.

Lemma reads_advance k ks : reads p_advance (k :: ks) tt ks.
Proof.
  intros st (_ & _ & Hl). unfold p_advance.
  destruct (next_token (lexer st)) as [t lx] eqn:E. eexists. split; [done|].
  by eapply sees_first.
Qed.

Lemma reads_result {A} (a : A) ks r : r = Ok a -> reads (p_result r) ks a ks.
Proof. intros -> st Hs. by exists st. Qed.

Lemma reads_expect_rparen ks : reads expect_rparen (TRParen :: ks) tt ks.
Proof.
  apply reads_current. intros t Ht. rewrite bool_decide_true by done. apply reads_advance.
Qed.

(** Consume the current token, then go on. *)
Lemma reads_consume {A} k ks (f : unit -> PM A) a ks' :
  reads (f tt) ks a ks' -> reads (p_advance ≫= f) (k :: ks) a ks'.
Proof. intros. eapply reads_bind; [apply reads_advance|done]. Qed.

(** ** What may follow an expression of each level *)

Definition stop4 (ks : list TokenKind) : Prop := head ks ≠ TLParen.
Definition stop3 ks : Prop := stop4 ks /\ comparison (head ks) = None.
Definition stop1 ks : Prop := stop3 ks /\ head ks ≠ TAnd.
Definition stop0 ks : Prop := stop1 ks /\ head ks ≠ TOr.

Section Levels.
Context (e : Expr).

Abbreviation size l := (length (show l e)).

Definition At4 : Prop := forall f n ks, size 4 <= f -> size 4 <= n -> stop4 ks ->
  reads (parse_primary (parse_expression f) n) (show 4 e ++ ks) e ks.
Definition At3 : Prop := forall f n ks, size 3 <= f -> size 3 <= n -> stop3 ks ->
  reads (parse_comparison (parse_expression f) n) (show 3 e ++ ks) e ks.
Definition At2 : Prop := forall f n ks, size 2 <= f -> size 2 <= n -> stop3 ks ->
  reads (parse_not (parse_expression f) n) (show 2 e ++ ks) e ks.

(** At the levels of the loops: the parser arrives in its loop with [e] as
    the left operand, having spent fewer iterations than there are tokens. *)
Definition Spine1 : Prop := forall f n ks st, size 1 <= f -> size 1 <= n -> stop3 ks ->
  sees st (show 1 e ++ ks) ->
  exists j st', j < size 1 /\ sees st' ks /\
    parse_and (parse_expression f) n st = and_loop (parse_expression f) (n - j) e st'.
Definition Spine0 : Prop := forall f n ks st, size 0 <= f -> size 0 <= n -> stop1 ks ->
  sees st (show 0 e ++ ks) ->
  exists j st', j < size 0 /\ sees st' ks /\
    parse_or (parse_expression f) n st = or_loop (parse_expression f) (n - j) e st'.
End Levels.

Lemma show_nonempty l e : 0 < length (show l e).
Proof.
  destruct e; simpl; unfold paren; try case_match; simpl; repeat rewrite ?length_app; simpl; lia.
Qed.

Lemma and_loop_stop rec n e ks : 0 < n -> head ks ≠ TAnd -> reads (and_loop rec n e) ks e ks.
Proof.
  intros Hn Hks. destruct n as [|n]; [lia|]. apply reads_current. intros t Ht.
  rewrite bool_decide_false by congruence. apply reads_ret.
Qed.

Lemma or_loop_stop rec n e ks : 0 < n -> head ks ≠ TOr -> reads (or_loop rec n e) ks e ks.
Proof.
  intros Hn Hks. destruct n as [|n]; [lia|]. apply reads_current. intros t Ht.
  rewrite bool_decide_false by congruence. apply reads_ret.
Qed.

(** Leaving the [and] loop, leaving the [or] loop. *)
Lemma spine1_reads e f n ks :
  Spine1 e -> length (show 1 e) <= f -> length (show 1 e) <= n -> stop1 ks ->
  reads (parse_and (parse_expression f) n) (show 1 e ++ ks) e ks.
Proof.
  intros Hsp Hf Hn [H3 Hks] st Hs.
  destruct (Hsp f n ks st Hf Hn H3 Hs) as (j & st' & Hj & Hs' & ->).
  apply (and_loop_stop _ (n - j) e ks); [lia|done|done].
Qed.

Lemma spine0_reads e f n ks :
  Spine0 e -> length (show 0 e) <= f -> length (show 0 e) <= n -> stop0 ks ->
  reads (parse_or (parse_expression f) n) (show 0 e ++ ks) e ks.
Proof.
  intros Hsp Hf Hn [H1 Hks] st Hs.
  destruct (Hsp f n ks st Hf Hn H1 Hs) as (j & st' & Hj & Hs' & ->).
  apply (or_loop_stop _ (n - j) e ks); [lia|done|done].
Qed.

Lemma spine0_expression e f ks :
  Spine0 e -> length (show 0 e) < f -> stop0 ks ->
  reads (parse_expression f) (show 0 e ++ ks) e ks.
Proof.
  intros Hsp Hf Hks. destruct f as [|f]; [lia|]. cbn [parse_expression].
  apply spine0_reads; [done|lia|lia|done].
Qed.

(** ** From one level to the next *)

Lemma at3_of_4 e : show 3 e = show 4 e -> At4 e -> At3 e.
Proof.
  intros E H4 f n ks Hf Hn [Hs Hc]. rewrite E in *.
  eapply reads_bind; [by apply H4|]. apply reads_current. intros t ->. rewrite Hc.
  apply reads_ret.
Qed.

Lemma at2_of_3 e : show 2 e = show 3 e -> head (show 3 e) ≠ TNot -> At3 e -> At2 e.
Proof.
  intros E Hh H3 f n ks Hf Hn Hs. rewrite E in *.
  pose proof (show_nonempty 3 e). destruct n as [|n]; [lia|].
  apply reads_current. intros t Ht. rewrite bool_decide_false; [by apply H3|].
  unfold head in *. destruct (show 3 e) as [|k r]; simpl in *; [lia|congruence].
Qed.

Lemma spine1_of_2 e : show 1 e = show 2 e -> At2 e -> Spine1 e.
Proof.
  intros E H2 f n ks st Hf Hn Hs Hst. rewrite E in *.
  destruct (H2 f n ks Hf Hn Hs st Hst) as (st' & Hp & Hs').
  exists 0, st'. rewrite Nat.sub_0_r. split; [apply show_nonempty|]. split; [done|].
  unfold parse_and, mbind, PM_bind. by rewrite Hp.
Qed.

Lemma spine0_of_1 e : show 0 e = show 1 e -> Spine1 e -> Spine0 e.
Proof.
  intros E H1 f n ks st Hf Hn Hs Hst. rewrite E in *.
  destruct (spine1_reads e f n ks H1 Hf Hn Hs st Hst) as (st' & Hp & Hs').
  exists 0, st'. rewrite Nat.sub_0_r. split; [apply show_nonempty|]. split; [done|].
  unfold parse_or, mbind, PM_bind. by rewrite Hp.
Qed.

Lemma at4_paren e : show 4 e = TLParen :: show 0 e ++ [TRParen] -> Spine0 e -> At4 e.
Proof.
  intros E Hsp f n ks Hf Hn Hs. rewrite E in *. simpl in *. rewrite length_app in *. simpl in *.
  apply reads_current. intros t ->. simpl. apply reads_consume. rewrite <- app_assoc.
  eapply reads_bind.
  - apply spine0_expression; [done|lia|done].
  - eapply reads_bind; [apply reads_expect_rparen|apply reads_ret].
Qed.

(** ** Primaries *)

Lemma at4_bool b : At4 (EBool b).
Proof. intros f n ks _ _ _. apply reads_current. intros t ->. apply reads_consume, reads_ret. Qed.

Lemma at4_int i : At4 (EInt i).
Proof. intros f n ks _ _ _. apply reads_current. intros t ->. apply reads_consume, reads_ret. Qed.

Lemma at4_str s : At4 (EStr s).
Proof. intros f n ks _ _ _. apply reads_current. intros t ->. apply reads_consume, reads_ret. Qed.

Lemma at4_field g : g ∈ field_names -> At4 (EField g).
Proof.
  intros Hg f n ks _ _ Hs. apply reads_current. intros t ->. apply reads_consume.
  apply reads_current. intros t' Ht. rewrite bool_decide_false by (by rewrite Ht).
  unfold plain_ident. rewrite bool_decide_true by exact Hg. apply reads_ret.
Qed.

(** An expression printed the same way at every level. *)
Definition level_free (e : Expr) : Prop := forall l, show l e = show 4 e.

Lemma spine0_atom e :
  level_free e -> head (show 4 e) ≠ TNot -> At4 e -> At3 e /\ At2 e /\ Spine1 e /\ Spine0 e.
Proof.
  intros Hl Hh H4. assert (H3 : At3 e) by (by apply at3_of_4).
  assert (H2 : At2 e) by (apply at2_of_3; [by rewrite (Hl 2), (Hl 3)|by rewrite (Hl 3)|done]).
  assert (H1 : Spine1 e) by (apply spine1_of_2; [by rewrite (Hl 1), (Hl 2)|done]).
  repeat split; [done..|]. apply spine0_of_1; [by rewrite (Hl 0), (Hl 1)|done].
Qed.

Lemma spine0_str s : Spine0 (EStr s).
Proof. by apply spine0_atom; [| |apply at4_str]. Qed.
Lemma spine0_int i : Spine0 (EInt i).
Proof. by apply spine0_atom; [| |apply at4_int]. Qed.

(** The arguments of a call, separated by commas. *)
Definition more_args (es : list Expr) : list TokenKind :=
  concat (map (fun e => TComma :: show 0 e) es).

Lemma reads_args_loop f n es acc ks :
  Forall Spine0 es -> Forall (fun e => length (show 0 e) < f) es -> length es < n ->
  reads (call_args_loop (parse_expression f) n acc) (more_args es ++ TRParen :: ks)
    (acc ++ es) (TRParen :: ks).
Proof.
  revert n acc. induction es as [|e es IH]; intros n acc Hsp Hf Hn; simpl in *.
  - destruct n as [|n]; [lia|]. apply reads_current. intros t Ht.
    rewrite bool_decide_false by (by rewrite Ht). rewrite app_nil_r. apply reads_ret.
  - destruct n as [|n]; [lia|]. apply reads_current. intros t ->.
    rewrite bool_decide_true by done. apply reads_consume.
    apply Forall_cons in Hsp as [He Hsp], Hf as [Hfe Hf]. rewrite <- app_assoc.
    eapply reads_bind.
    + apply spine0_expression; [done|done|]. by destruct es.
    + replace (acc ++ e :: es) with ((acc ++ [e]) ++ es) by (by rewrite <- app_assoc).
      apply IH; [done|done|lia].
Qed.

Lemma reads_call f n name e es r ks :
  Forall Spine0 (e :: es) -> Forall (fun e => length (show 0 e) < f) (e :: es) ->
  length es < n -> head (show 0 e) ≠ TRParen -> build_call name (e :: es) = Ok r ->
  reads (parse_ident_or_call (parse_expression f) n name)
    (TLParen :: (show 0 e ++ more_args es) ++ TRParen :: ks) r ks.
Proof.
  intros Hsp Hf Hn Hh Hb. apply reads_current. intros t ->.
  rewrite bool_decide_true by done. apply reads_consume. rewrite <- app_assoc.
  eapply reads_bind; [|eapply reads_bind; [apply reads_expect_rparen|by apply reads_result]].
  apply Forall_cons in Hsp as [He Hsp], Hf as [Hfe Hf]. apply reads_current. intros t' Ht.
  rewrite bool_decide_false.
  - eapply reads_bind; [apply spine0_expression; [done|done|by destruct es]|].
    by apply (reads_args_loop f n es [e] ks).
  - pose proof (show_nonempty 0 e). unfold head in *.
    destruct (show 0 e) as [|k ?]; simpl in *; [lia|congruence].
Qed.

Lemma reads_call1 f n name a r ks :
  Spine0 a -> length (show 0 a) < f -> 0 < n -> head (show 0 a) ≠ TRParen ->
  build_call name [a] = Ok r ->
  reads (parse_ident_or_call (parse_expression f) n name)
    (TLParen :: (show 0 a ++ [TRParen]) ++ ks) r ks.
Proof.
  intros. rewrite <- app_assoc. simpl.
  replace (show 0 a ++ TRParen :: ks) with ((show 0 a ++ more_args []) ++ TRParen :: ks)
    by (by rewrite app_nil_r).
  by apply reads_call; [repeat constructor|repeat constructor| | |].
Qed.

(** The keyword of a call is read by [parse_primary] as its name. *)
Definition call_head (k : TokenKind) (name : str) : Prop :=
  k = TIdent name \/ (k = TCountFact /\ name = lit "count_fact")
  \/ (k = TAnyFact /\ name = lit "any_fact") \/ (k = TAllFact /\ name = lit "all_fact")
  \/ (k = TDurationGt /\ name = lit "duration_gt").

Lemma reads_call_head rec n k name ks r ks' :
  call_head k name -> reads (parse_ident_or_call rec n name) ks r ks' ->
  reads (parse_primary rec n) (k :: ks) r ks'.
Proof.
  intros Hk Hr. apply reads_current. intros t ->.
  destruct Hk as [->|[[-> ->]|[[-> ->]|[[-> ->]|[-> ->]]]]]; by apply reads_consume.
Qed.

Lemma at4_call k name e es r :
  call_head k name -> Forall Spine0 (e :: es) -> Forall (fun a => length (show 0 a) = 1) (e :: es) ->
  head (show 0 e) ≠ TRParen -> build_call name (e :: es) = Ok r ->
  (show 4 r = k :: TLParen :: (show 0 e ++ more_args es) ++ [TRParen]) ->
  At4 r.
Proof.
  intros Hk Hsp H1 Hh Hb Hr f n ks Hf Hn _. rewrite Hr in *.
  assert (Hes : length (more_args es) = 2 * length es).
  { apply Forall_cons in H1 as [_ H1]. unfold more_args. clear -H1.
    induction H1 as [|a es Ha _ IH]; simpl; [done|]. rewrite length_app, IH, Ha. lia. }
  assert (He : length (show 0 e) = 1) by (by apply Forall_cons in H1 as [? _]).
  simpl in Hf, Hn. rewrite !length_app in Hf, Hn. simpl in Hf, Hn.
  simpl app. apply (reads_call_head _ _ _ name); [done|].
  rewrite <- app_assoc. simpl. apply reads_call; [done| |lia|done|done].
  eapply Forall_impl; [exact H1|]. simpl. intros. lia.
Qed.

Lemma op_text_parse op : parse_comp_op_from_expr (EStr (op_text op)) = Ok op.
Proof. by destruct op. Qed.

(** ** The round trip on tokens *)

Definition AllLevels (e : Expr) : Prop := At4 e /\ At3 e /\ At2 e /\ Spine1 e /\ Spine0 e.

Lemma all_of_atom e :
  level_free e -> head (show 4 e) ≠ TNot -> At4 e -> AllLevels e.
Proof. intros Hl Hh H4. split; [done|]. by apply spine0_atom. Qed.

(** A comparison, from its two operands. *)
Lemma all_of_comparison e k mk a b :
  comparison k = Some mk -> mk a b = e ->
  (forall l, show l e = paren (3 <? l) (show 4 a ++ k :: show 4 b)) ->
  head (show 4 a) ≠ TNot ->
  AllLevels a -> AllLevels b -> AllLevels e.
Proof.
  intros Hk <- Hshow Hh [Ha _] [Hb _].
  assert (Hkk : k ≠ TLParen) by (by intros ->).
  assert (H3 : At3 (mk a b)).
  { intros f n ks Hf Hn [Hs Hc]. rewrite Hshow in *. simpl in *.
    rewrite length_app in *. simpl in *. rewrite <- app_assoc. simpl.
    eapply reads_bind; [apply Ha; [lia|lia|done]|]. apply reads_current. intros t ->.
    change (comparison (head (k :: show 4 b ++ ks))) with (comparison k).
    rewrite Hk. apply reads_consume.
    eapply reads_bind; [apply Hb; [lia|lia|done]|apply reads_ret]. }
  assert (H2 : At2 (mk a b)).
  { apply at2_of_3; [by rewrite !Hshow| |done]. rewrite Hshow. simpl.
    pose proof (show_nonempty 4 a). unfold head in *. destruct (show 4 a); [simpl in *; lia|done]. }
  assert (H1 : Spine1 (mk a b)) by (apply spine1_of_2; [by rewrite !Hshow|done]).
  assert (Hsp : Spine0 (mk a b)) by (apply spine0_of_1; [by rewrite !Hshow|done]).
  repeat split; [|done..]. apply at4_paren; [|done]. by rewrite !Hshow.
Qed.

Lemma all_of_not a : AllLevels a -> AllLevels (ENot a).
Proof.
  intros (_ & _ & Ha & _).
  assert (H2 : At2 (ENot a)).
  { intros f n ks Hf Hn Hs. simpl in *. destruct n as [|n]; [lia|].
    apply reads_current. intros t ->. rewrite bool_decide_true by done. apply reads_consume.
    eapply reads_bind; [apply Ha; [lia|lia|done]|apply reads_ret]. }
  assert (H1 : Spine1 (ENot a)) by (by apply spine1_of_2).
  assert (Hsp : Spine0 (ENot a)) by (by apply spine0_of_1).
  assert (H4 : At4 (ENot a)) by (by apply at4_paren).
  repeat split; [done| |done..]. by apply at3_of_4.
Qed.

Lemma all_of_and a b : AllLevels a -> AllLevels b -> AllLevels (EAnd a b).
Proof.
  intros (_ & _ & _ & Ha & _) (_ & _ & Hb & _).
  assert (H1 : Spine1 (EAnd a b)).
  { intros f n ks st Hf Hn Hs Hst. simpl in *. rewrite length_app in *. simpl in *.
    rewrite <- app_assoc in Hst. simpl in Hst.
    destruct (Ha f n (TAnd :: show 2 b ++ ks) st ltac:(lia) ltac:(lia) ltac:(done) Hst) as (j & st1 & Hj & Hs1 & ->).
    assert (Hr : reads (_ ← p_advance; right ← parse_not (parse_expression f) (n - j); mret right)
      (TAnd :: show 2 b ++ ks) b ks).
    { apply reads_consume. eapply reads_bind; [apply Hb; [lia|lia|done]|apply reads_ret]. }
    destruct (Hr st1 Hs1) as (st2 & Hp & Hs2). exists (S j), st2.
    split; [lia|]. split; [done|].
    destruct (n - j) as [|m] eqn:Em; [lia|]. replace (n - S j) with m by lia.
    cbn [and_loop]. destruct Hs1 as [Hk1 _].
    unfold mbind, PM_bind, p_current in *. rewrite bool_decide_true by done.
    destruct (p_advance st1) as [[[[] s2]|err]|]; [|done|done].
    destruct (parse_not _ _ s2) as [[[e' s3]|err]|]; [|done|done].
    unfold mret, PM_ret in Hp. by injection Hp as -> ->. }
  assert (Hsp : Spine0 (EAnd a b)) by (by apply spine0_of_1).
  assert (H4 : At4 (EAnd a b)) by (by apply at4_paren).
  assert (H3 : At3 (EAnd a b)) by (by apply at3_of_4).
  repeat split; [done|done| |done..]. by apply at2_of_3.
Qed.

Lemma all_of_or a b : AllLevels a -> AllLevels b -> AllLevels (EOr a b).
Proof.
  intros (_ & _ & _ & _ & Ha) (_ & _ & _ & Hb & _).
  assert (Hsp : Spine0 (EOr a b)).
  { intros f n ks st Hf Hn Hs Hst. simpl in *. rewrite length_app in *. simpl in *.
    rewrite <- app_assoc in Hst. simpl in Hst.
    destruct (Ha f n (TOr :: show 1 b ++ ks) st ltac:(lia) ltac:(lia) ltac:(done) Hst) as (j & st1 & Hj & Hs1 & ->).
    assert (Hr : reads (_ ← p_advance; right ← parse_and (parse_expression f) (n - j); mret right)
      (TOr :: show 1 b ++ ks) b ks).
    { apply reads_consume. eapply reads_bind; [apply spine1_reads; [done|lia|lia|done]|].
      apply reads_ret. }
    destruct (Hr st1 Hs1) as (st2 & Hp & Hs2). exists (S j), st2.
    split; [lia|]. split; [done|].
    destruct (n - j) as [|m] eqn:Em; [lia|]. replace (n - S j) with m by lia.
    cbn [or_loop]. destruct Hs1 as [Hk1 _].
    unfold mbind, PM_bind, p_current in *. rewrite bool_decide_true by done.
    destruct (p_advance st1) as [[[[] s2]|err]|]; [|done|done].
    destruct (parse_and _ _ s2) as [[[e' s3]|err]|]; [|done|done].
    unfold mret, PM_ret in Hp. by injection Hp as -> ->. }
  assert (H4 : At4 (EOr a b)) by (by apply at4_paren).
  assert (H3 : At3 (EOr a b)) by (by apply at3_of_4).
  assert (H2 : At2 (EOr a b)) by (by apply at2_of_3).
  repeat split; [done..| |done]. by apply spine1_of_2.
Qed.

(** A primary never starts with [not] (a parenthesis, a literal or a name). *)
Lemma head_show4 e : head (show 4 e) ≠ TNot.
Proof. by destruct e. Qed.

Lemma all_levels e : printable e = true -> AllLevels e.
Proof.
  pose proof spine0_str as Hss. pose proof spine0_int as Hsi.
  induction e; simpl; intros Hp; bools;
    try (by apply all_of_and; auto); try (by apply all_of_or; auto);
    try (by apply all_of_not; auto);
    try (by eapply all_of_comparison; [| |done|apply head_show4|auto|auto]);
    (apply all_of_atom; [done|by apply head_show4|]);
    try apply at4_bool; try apply at4_int; try apply at4_str.
  - apply bool_decide_eq_true in Hp. by apply at4_field.
  - by eapply (at4_call _ (lit "contains_fact") (EStr _) []);
      [by left|by repeat constructor|by repeat constructor| | |].
  - by eapply (at4_call _ (lit "fact") (EStr _) []);
      [by left|by repeat constructor|by repeat constructor| | |].
  - by eapply (at4_call _ (lit "stdout_contains") (EStr _) []);
      [by left|by repeat constructor|by repeat constructor| | |].
  - by eapply (at4_call TAnyFact (lit "any_fact") (EStr _) [EStr (op_text op); EStr _]);
      [unfold call_head; tauto|by repeat constructor|by repeat constructor| |by destruct op|].
  - by eapply (at4_call TAllFact (lit "all_fact") (EStr _) [EStr (op_text op); EStr _]);
      [unfold call_head; tauto|by repeat constructor|by repeat constructor| |by destruct op|].
  - by eapply (at4_call TCountFact (lit "count_fact") (EStr _) [EStr (op_text op); EInt _]);
      [unfold call_head; tauto|by repeat constructor|by repeat constructor| |by destruct op|].
  - by eapply (at4_call _ (lit "stderr_contains") (EStr _) []);
      [by left|by repeat constructor|by repeat constructor| | |].
  - eapply (at4_call _ (lit "stderr_matches") (EStr _) []);
      [by left|by repeat constructor|by repeat constructor|done| |done].
    unfold build_call. simpl. by destruct (regex_new pattern).
  - by eapply (at4_call _ (lit "duration_lt") (EInt _) []);
      [by left|by repeat constructor|by repeat constructor| | |].
  - by eapply (at4_call TDurationGt (lit "duration_gt") (EInt _) []);
      [unfold call_head; tauto|by repeat constructor|by repeat constructor| | |].
Qed.
End RoundTrip.

(** ** Tokens as text *)

Definition print_tok (k : TokenKind) : str :=
  match k with
  | TEof | TIllegal => []
  | TInt n => show_Z n
  | TBool b => show_bool b
  | TStr s => chr "'" :: s ++ [chr "'"]
  | TIdent s => s
  | TEq => lit "==" | TNe => lit "!=" | TGt => lit ">" | TLt => lit "<"
  | TGe => lit ">=" | TLe => lit "<="
  | TAnd => lit "and" | TOr => lit "or" | TNot => lit "not"
  | TLParen => lit "(" | TRParen => lit ")" | TComma => lit ","
  | TAnyFact => lit "any_fact" | TAllFact => lit "all_fact"
  | TCountFact => lit "count_fact" | TDurationGt => lit "duration_gt"
  end.

Definition render (ks : list TokenKind) : str :=
  concat (map (fun k => print_tok k ++ lit " ") ks).

Section Text.
Context `{UnicodeTables}.

Definition word (s : str) : Prop :=
  Forall (fun c => ident_char c = true) s /\
  match s with [] => False | c :: _ => is_ascii_alphabetic c || (c =? chr "_")%N = true end.

Definition tok_ok (k : TokenKind) : Prop :=
  match k with
  | TEof | TIllegal => False
  | TInt n => int_literal n = true
  | TStr s => raw_literal false s = true
  | TIdent s => word s /\ keyword s = TIdent s
  | _ => True
  end.

(** A character that starts a word, or a digit, is none of the symbols. *)
Lemma not_symbol c :
  is_ascii_alphanumeric c || (c =? chr "_")%N = true ->
  is_whitespace c = false /\
  Forall (fun d => (c =? d)%N = false)
    [chr "("; chr ")"; chr ","; chr "="; chr "!"; chr ">"; chr "<"; chr "'"].
Proof.
  intros Hc.
  assert (Hr : (48 <= c <= 57 \/ 65 <= c <= 90 \/ 97 <= c <= 122 \/ c = 95)%N).
  { unfold is_ascii_alphanumeric, is_ascii_alphabetic, is_ascii_lowercase,
      is_ascii_uppercase, is_ascii_digit, in_range in Hc.
    change (chr "_") with 95%N in Hc. rewrite !orb_true_iff, !andb_true_iff, !N.leb_le, N.eqb_eq in Hc. lia. }
  split.
  - unfold is_whitespace, in_range.
    rewrite !orb_false_iff, !andb_false_iff, !N.leb_gt, !N.eqb_neq. lia.
  - repeat constructor; apply N.eqb_neq;
      match goal with |- _ ≠ ?d => let v := eval vm_compute in d in change d with v end; lia.
Qed.

(** What may follow a token without changing how it is read. *)
Definition delimits (k : TokenKind) (r : str) : Prop :=
  match r with
  | [] => True
  | c :: _ =>
      match k with
      | TGt | TLt => (c =? chr "=")%N = false
      | TEq | TNe | TGe | TLe | TLParen | TRParen | TComma | TStr _ => True
      | _ => ident_char c = false
      end
  end.

Definition ends_word (r : str) : Prop :=
  match r with [] => True | c :: _ => ident_char c = false end.

Lemma not_ident_not_digit c : ident_char c = false -> is_ascii_digit c = false.
Proof.
  unfold ident_char, is_alphanumeric. intros [Ha _]%orb_false_iff.
  destruct (is_ascii_digit c) eqn:Ed; [|done].
  assert ((c <? 128)%N = true) as Hc
    by (unfold is_ascii_digit, in_range in Ed; bools; apply N.ltb_lt; lia).
  rewrite Hc in Ha. unfold is_ascii_alphanumeric in Ha. by rewrite Ed, orb_true_r in Ha.
Qed.

Lemma scan_word s r p :
  word s -> ends_word r ->
  scan (mkLexer (s ++ r) p) (default 0%N (s !! 0)) = (keyword s, mkLexer r (p + str_len s)).
Proof.
  intros [Hall Hs] Hr. destruct s as [|c s]; [done|]. simpl default.
  destruct (not_symbol c) as [_ Hsym].
  { unfold is_ascii_alphanumeric. rewrite !orb_true_iff in *. tauto. }
  repeat (apply Forall_cons in Hsym as [? Hsym]).
  assert (is_ascii_digit c = false) as Hd.
  { unfold is_ascii_alphabetic, is_ascii_lowercase, is_ascii_uppercase,
      is_ascii_digit, in_range in *. change (chr "_") with 95%N in Hs.
    rewrite !orb_true_iff, !andb_true_iff, !N.leb_le, N.eqb_eq in Hs.
    rewrite andb_false_iff, !N.leb_gt. lia. }
  simpl app. unfold scan.
  repeat match goal with E : (c =? _)%N = false |- _ => rewrite E; clear E end.
  simpl andb. cbv iota zeta. rewrite Hd, Hs. unfold identifier_or_keyword.
  assert (E : skip_while ident_char (mkLexer (c :: s ++ r) p) = mkLexer r (p + str_len (c :: s))).
  { unfold skip_while. simpl rest. change (c :: s ++ r) with ((c :: s) ++ r).
    by rewrite span_block. }
  cbv zeta. rewrite E. by rewrite (slice_moves (c :: s)) by (by split).
Qed.

Lemma scan_digits c ds r p :
  Forall (fun c => is_ascii_digit c = true) (c :: ds) -> ends_word r ->
  scan (mkLexer ((c :: ds) ++ r) p) c =
    (match parse_i32 (c :: ds) with Some n => TInt n | None => TIllegal end,
     mkLexer r (p + str_len (c :: ds))).
Proof.
  intros Hd Hr. pose proof Hd as [Hc _]%Forall_cons.
  destruct (not_symbol c) as [_ Hsym].
  { unfold is_ascii_alphanumeric. rewrite Hc. by rewrite orb_true_r. }
  repeat (apply Forall_cons in Hsym as [? Hsym]).
  simpl app. unfold scan.
  repeat match goal with E : (c =? _)%N = false |- _ => rewrite E; clear E end.
  simpl andb. cbv iota zeta. rewrite Hc. unfold integer. cbv zeta.
  assert (Es : skip_while is_ascii_digit (mkLexer (c :: ds ++ r) p) = mkLexer r (p + str_len (c :: ds))).
  { unfold skip_while. simpl rest. change (c :: ds ++ r) with ((c :: ds) ++ r).
    rewrite span_block; [done|done|]. destruct r; [done|]. by apply not_ident_not_digit. }
  rewrite Es, (slice_moves (c :: ds)) by (by split). by destruct (parse_i32 (c :: ds)).
Qed.

Lemma scan_int n r p :
  int_literal n = true -> ends_word r ->
  scan (mkLexer (show_Z n ++ r) p) (default 0%N (show_Z n !! 0)) =
    (TInt n, mkLexer r (p + str_len (show_Z n))).
Proof.
  unfold int_literal. intros Hn Hr. bools.
  assert (show_Z n = show_N (Z.to_N n)) as Hz by (by destruct n).
  pose proof (show_N_digits (Z.to_N n)) as Hd. rewrite Hz.
  destruct (show_N_cons (Z.to_N n)) as (c & s & E & Hc). rewrite E in *.
  simpl default. rewrite scan_digits by done. rewrite <- Hz. unfold parse_i32.
  rewrite parse_show_Z; [done|]. unfold i32_min, i32_max in *. lia.
Qed.

Lemma string_loop_raw esc s r p :
  raw_literal esc s = true ->
  exists q, string_loop esc (s ++ chr "'" :: r) p = (s, mkLexer r q).
Proof.
  revert esc p. induction s as [|c s IH]; intros esc p Hr.
  - simpl in Hr. bools. subst. eexists. reflexivity.
  - simpl in *. destruct esc.
    + destruct (IH false (p + len_utf8 c)%N Hr) as [q ->]. by exists q.
    + destruct (c =? chr "\")%N.
      * destruct (IH true (p + len_utf8 c)%N Hr) as [q ->]. by exists q.
      * bools. destruct (c =? chr "'")%N eqn:Eq; [bools; done|].
        destruct (IH false (p + len_utf8 c)%N) as [q ->]; [done|]. by exists q.
Qed.

(** The lexer reads a printed token back and stops after it. *)
Lemma scan_print k r p :
  tok_ok k -> delimits k r -> exists c s q,
    print_tok k = c :: s /\ is_whitespace c = false /\
    scan (mkLexer (print_tok k ++ r) p) c = (k, mkLexer r q).
Proof.
  assert (Hw : forall s k', word s -> keyword s = k' -> ends_word r -> exists c s' q,
    s = c :: s' /\ is_whitespace c = false /\
    scan (mkLexer (s ++ r) p) c = (k', mkLexer r q)).
  { intros s k' Hw Hk Hr. pose proof (scan_word s r p Hw Hr) as E. destruct s as [|c s]; [by destruct Hw|].
    exists c, s, (p + str_len (c :: s))%N. split; [done|]. split; [|by rewrite <- Hk].
    apply not_symbol. destruct Hw as [_ Hw]. unfold is_ascii_alphanumeric.
    rewrite !orb_true_iff in *. tauto. }
  assert (Hlit : forall s, Forall (fun c => is_ascii_alphabetic c || (c =? chr "_")%N = true) (lit s) ->
    lit s ≠ [] -> word (lit s)).
  { intros s Hs Hne. split; [eapply Forall_impl; [exact Hs|apply ident_start_char]|].
    destruct (lit s); [done|]. by apply Forall_cons in Hs as [? _]. }
  intros Hk Hr. destruct k; try done;
    try (eexists _, _, _; split; [done|]; split; [done|]; reflexivity);
    try (apply Hw; [by apply Hlit; [repeat constructor|]|by vm_compute|by destruct r]).
  - destruct (show_N_cons (Z.to_N n)) as (c & s & E & Hc). simpl in Hk.
    assert (show_Z n = show_N (Z.to_N n)) as Hz by (unfold int_literal in Hk; bools; by destruct n).
    assert (Hr' : ends_word r) by by destruct r.
    pose proof (scan_int n r p Hk Hr') as Hs. simpl. rewrite Hz, E in *.
    exists c, s, (p + str_len (c :: s))%N. split; [done|]. split; [|exact Hs].
    apply not_symbol. unfold is_ascii_alphanumeric. rewrite Hc. by rewrite orb_true_r.
  - destruct b; (apply Hw; [by apply Hlit; [repeat constructor|]|by vm_compute|by destruct r]).
  - simpl in Hk. destruct (string_loop_raw false s r (p + 1) Hk) as [q Hq].
    exists (chr "'"), (s ++ [chr "'"]), q. split; [done|]. split; [done|].
    unfold scan. simpl. unfold string_literal. simpl.
    rewrite <- app_assoc. simpl. change (p + len_utf8 (chr "'"))%N with (p + 1)%N.
    unfold chr in *. simpl in *. by rewrite Hq.
  - destruct Hk as [Hs Hk]. apply Hw; [done|done|by destruct r].
  - eexists _, _, _; split; [done|]; split; [done|]. destruct r as [|c r]; [done|].
    unfold scan, peek_next. simpl in *. rewrite (bool_decide_false (Some c = _)) by (intros [= ->]; done).
    done.
  - eexists _, _, _; split; [done|]; split; [done|]. destruct r as [|c r]; [done|].
    unfold scan, peek_next. simpl in *. rewrite (bool_decide_false (Some c = _)) by (intros [= ->]; done).
    done.
Qed.

(** [spells ks s]: the text [s] writes the tokens [ks], with blanks wherever it
    likes as long as every token is delimited. *)
Inductive spells : list TokenKind -> str -> Prop :=
| spells_nil ws : Forall (fun c => is_whitespace c = true) ws -> spells [] ws
| spells_cons k ks ws s :
    Forall (fun c => is_whitespace c = true) ws -> tok_ok k -> delimits k s -> spells ks s ->
    spells (k :: ks) (ws ++ print_tok k ++ s).

Lemma next_print k ws s p :
  Forall (fun c => is_whitespace c = true) ws -> tok_ok k -> delimits k s ->
  exists t q, next_token (mkLexer (ws ++ print_tok k ++ s) p) = (mkToken k t.1 t.2, mkLexer s q).
Proof.
  intros Hws Hk Hd. destruct (scan_print k s (p + str_len ws) Hk Hd) as (c & t & q & Hp & Hc & Hscan).
  unfold next_token, skip_whitespace, skip_while. simpl rest.
  rewrite span_block; [|done|by rewrite Hp]. simpl. rewrite Hp in *. simpl in *. rewrite Hscan.
  by eexists (_, _), q.
Qed.

(** One more token in front of a text that lexes wherever it starts. *)
Lemma lexes_token k ks ws s p :
  Forall (fun c => is_whitespace c = true) ws -> tok_ok k -> delimits k s ->
  (forall q, lexes (mkLexer s q) ks) -> lexes (mkLexer (ws ++ print_tok k ++ s) p) (k :: ks).
Proof.
  intros Hws Hk Hd Hs. destruct (next_print k ws s p Hws Hk Hd) as (t & q & E).
  constructor; rewrite ?E; [by intros ->|done|apply Hs].
Qed.

Lemma lexes_spelled ks s p : spells ks s -> lexes (mkLexer s p) ks.
Proof.
  intros Hs. revert p. induction Hs as [ws Hws|k ks ws s Hws Hk Hd _ IH]; intros p.
  - constructor. unfold next_token, skip_whitespace, skip_while. simpl rest.
    rewrite <- (app_nil_r ws). by rewrite span_block.
  - by apply lexes_token.
Qed.

Lemma spells_length ks s : spells ks s -> length ks <= length s.
Proof.
  induction 1 as [|k ks ws s _ Hk Hd _ IH]; simpl; [lia|].
  destruct (scan_print k s 0 Hk Hd) as (c & t & _ & -> & _). rewrite !length_app. simpl. lia.
Qed.

Lemma spells_render ks ws :
  Forall tok_ok ks -> Forall (fun c => is_whitespace c = true) ws -> spells ks (ws ++ render ks).
Proof.
  intros Hks. revert ws. induction Hks as [|k ks Hk Hks IH]; intros ws Hws.
  - constructor. unfold render. simpl. by rewrite app_nil_r.
  - unfold render. cbn [map concat]. rewrite <- app_assoc. constructor; [done|done| |].
    + by destruct k.
    + apply (IH (lit " ")). by repeat constructor.
Qed.
End Text.

Lemma show_tok_ok `{UnicodeTables, RegexEngine} e l :
  printable e = true -> Forall tok_ok (show l e).
Proof.
  assert (Hparen : forall b ks, Forall tok_ok ks -> Forall tok_ok (paren b ks)).
  { intros [] ks Hks; [|done]. simpl. constructor; [done|].
    apply Forall_app. split; [done|by repeat constructor]. }
  assert (Hcall : forall k args, tok_ok k -> Forall tok_ok args -> Forall tok_ok (call k args)).
  { intros. constructor; [done|]. constructor; [done|]. apply Forall_app. split; [done|].
    by repeat constructor. }
  assert (Hlit : forall s, Forall (fun c => is_ascii_alphabetic c || (c =? chr "_")%N = true) (lit s) ->
    lit s ≠ [] -> keyword (lit s) = TIdent (lit s) -> tok_ok (TIdent (lit s))).
  { intros s Hs Hne Hk. split; [|done].
    split; [eapply Forall_impl; [exact Hs|apply ident_start_char]|].
    destruct (lit s); [done|]. by apply Forall_cons in Hs as [? _]. }
  assert (Hop : forall op, raw_literal false (op_text op) = true) by (by intros []).
  revert l. induction e; simpl; intros l Hp; bools;
    try (apply Hparen; try (apply Forall_app; split; [auto|]); constructor; auto);
    try (apply Hcall; [first [done|by apply Hlit; [repeat constructor| |vm_compute]]|]);
    try (by repeat constructor; simpl).
  apply bool_decide_eq_true in Hp. repeat constructor;
    unfold field_names in Hp; repeat (apply elem_of_cons in Hp as [->|Hp]);
    try (by apply not_elem_of_nil in Hp); by apply Hlit; [repeat constructor| |vm_compute].
Qed.

(** A text that writes the tokens of an expression parses to it. *)
Lemma parse_spelled `{UnicodeTables, RegexEngine} (e : Expr) (s : str) :
  printable e = true -> spells (show 0 e) s -> parse s = Some (Ok e).
Proof.
  intros Hp Hsp. destruct (all_levels e Hp) as (_ & _ & _ & _ & Hspine).
  pose proof (spells_length _ _ Hsp) as Hlen. pose proof (lexes_spelled _ _ 0 Hsp) as Hlex.
  unfold parse, parse_fuel. set (st0 := mkParser _ _).
  assert (Hr : reads (A := Expr) (e ← parse_expression (S (S (length s)));
    t ← p_current; if bool_decide (kind t = TEof) then mret e
    else unexpected (A := Expr) "end of input") (show 0 e) e []).
  { pose proof (spine0_expression e (S (S (length s))) []) as He.
    rewrite app_nil_r in He. eapply reads_bind; [apply He; [done|lia|done]|].
    apply reads_current. intros t ->. apply reads_ret. }
  unfold mbind at 1, PM_bind at 1, p_advance at 1.
  destruct (next_token (lexer st0)) as [t lx] eqn:E.
  destruct (Hr (mkParser lx t)) as (st' & -> & _); [|done].
  eapply sees_first; [|exact E]. by apply Hlex.
Qed.

(** C1. Printing an expression with minimal parentheses and parsing the text
    gives the same expression: the parser implements the documented precedence
    (or, and, not, comparison, primary) with left-associative [or] and [and]. *)
Theorem parse_render `{UnicodeTables, RegexEngine} (e : Expr) :
  printable e = true -> parse (render (show 0 e)) = Some (Ok e).
Proof.
  intros Hp. apply parse_spelled; [done|]. apply (spells_render _ []); [|done].
  by apply show_tok_ok.
Qed.

Definition sample_expr : Expr :=
  EOr (EAnd (ENot (EEq (EField (lit "exit_code")) (EInt 0)))
            (EOr (EStderrMatches (lit "panic")) (EBool false)))
      (EAnyFact (lit "k") OpGe (lit "2")).

Lemma parse_render_witness :
  @parse ascii_tables substring_engine (render (show 0 sample_expr)) = Some (Ok sample_expr).
Proof. apply (@parse_render ascii_tables substring_engine sample_expr). reflexivity. Defined.

(** ** What the parser can return *)

Section Invariant.
Context `{UnicodeTables} `{RegexEngine}.

(** The invariant of a parsed expression: known fields, integers of the
    literal range, regular expressions that compile. *)
Fixpoint well_formed (e : Expr) : bool :=
  match e with
  | EOr a b | EAnd a b | EEq a b | ENe a b | EGt a b | ELt a b | EGe a b | ELe a b =>
      well_formed a && well_formed b
  | ENot a => well_formed a
  | EInt n | EDurationLt n | EDurationGt n | ECountFact _ _ n => int_literal n
  | EField f => bool_decide (f ∈ field_names)
  | EStderrMatches p => is_ok (regex_new p)
  | _ => true
  end.

Definition good_token (t : Token) : Prop :=
  match kind t with TInt n => int_literal n = true | _ => True end.

(** Whenever [p] succeeds, its value satisfies [P]. *)
Definition ensures {A} (P : A -> Prop) (p : PM A) : Prop :=
  forall st a st', good_token (current st) -> p st = Some (Ok (a, st')) ->
    P a /\ good_token (current st').

Lemma ensures_ret {A} (P : A -> Prop) (a : A) : P a -> ensures P (mret a).
Proof. intros Ha st b st' Hg [= -> ->]. done. Qed.

Lemma ensures_result {A} (P : A -> Prop) (r : result ParseError A) :
  (forall a, r = Ok a -> P a) -> ensures P (p_result r).
Proof.
  intros Hr st b st' Hg Hp. destruct r as [a|e]; [|done]. injection Hp as -> ->. auto.
Qed.

Lemma ensures_unexpected {A} (P : A -> Prop) s : ensures P (unexpected s).
Proof. done. Qed.

Lemma ensures_bind {A B} (P : A -> Prop) (Q : B -> Prop) (p : PM A) (f : A -> PM B) :
  ensures P p -> (forall a, P a -> ensures Q (f a)) -> ensures Q (p ≫= f).
Proof.
  intros Hp Hf st b st' Hg E. unfold mbind, PM_bind in E.
  destruct (p st) as [[[a st1]|]|] eqn:Ep; [|done|done].
  destruct (Hp _ _ _ Hg Ep) as [Ha Hg1]. by eapply Hf.
Qed.

Lemma ensures_current {B} (Q : B -> Prop) (f : Token -> PM B) :
  (forall t, good_token t -> ensures Q (f t)) -> ensures Q (p_current ≫= f).
Proof. intros Hf st b st' Hg E. by eapply (Hf (current st)). Qed.

Lemma read_digits_nonneg acc s v : (0 <= acc)%Z -> read_digits acc s = Some v -> (0 <= v)%Z.
Proof.
  revert acc. induction s as [|c s IH]; intros acc Ha; simpl; [by intros [= <-]|].
  destruct (is_ascii_digit c); [|done]. apply IH. lia.
Qed.

Lemma parse_digits_literal s n :
  Forall (fun c => is_ascii_digit c = true) s -> parse_i32 s = Some n -> int_literal n = true.
Proof.
  intros Hs. unfold parse_i32, parse_int. destruct s as [|c s]; [done|].
  assert (is_ascii_digit c = true) as Hc by (by apply Forall_cons in Hs as [? _]).
  unfold is_ascii_digit, in_range in Hc. bools.
  rewrite (proj2 (N.eqb_neq c (chr "-"))) by (change (chr "-") with 45%N; lia).
  rewrite (proj2 (N.eqb_neq c (chr "+"))) by (change (chr "+") with 43%N; lia).
  destruct (read_digits 0 (c :: s)) as [v|] eqn:Ev; [|done].
  apply read_digits_nonneg in Ev; [|lia]. destruct (_ && _)%bool eqn:Er; [|done]. intros [= <-].
  unfold int_literal. bools. apply andb_true_iff. split; [by apply Z.leb_le|by apply Z.leb_le].
Qed.

Lemma next_token_good lx t lx' : next_token lx = (t, lx') -> good_token t.
Proof.
  unfold next_token. destruct (rest _) as [|c r] eqn:Hr; [by intros [= <- _]|].
  set (st := skip_whitespace lx) in *. destruct (scan st c) as [k lx''] eqn:Es.
  intros [= <- _]. unfold good_token. simpl. destruct k; try done.
  unfold scan in Es. repeat (case_match; [by (unfold string_literal in Es; try destruct (string_loop _ _ _))|]).
  destruct (is_ascii_digit c) eqn:Hd.
  - unfold integer in Es. cbv zeta in Es.
    destruct (parse_i32 _) as [m|] eqn:Ep; [|done]. injection Es as -> _.
    apply parse_digits_literal in Ep; [done|].
    rewrite (slice_moves _ _ _ (skip_while_moves _ _)). apply span_all.
  - destruct (_ || _); [|done]. unfold identifier_or_keyword, keyword in Es. cbv zeta in Es.
    by repeat case_match.
Qed.

Lemma ensures_advance : ensures (fun _ => True) p_advance.
Proof.
  intros st a st' _. unfold p_advance. destruct (next_token _) as [t lx] eqn:E.
  intros [= <- <-]. split; [done|]. by eapply next_token_good.
Qed.

Lemma ensures_consume {B} (Q : B -> Prop) (f : unit -> PM B) :
  ensures Q (f tt) -> ensures Q (p_advance ≫= f).
Proof. intros Hf. eapply ensures_bind; [apply ensures_advance|]. by intros []. Qed.

Lemma ensures_expect_rparen : ensures (fun _ => True) expect_rparen.
Proof. apply ensures_current. intros t _. case_bool_decide; [apply ensures_advance|done]. Qed.

Definition wf (e : Expr) : Prop := well_formed e = true.

Lemma build_call_wf name args e :
  Forall wf args -> build_call name args = Ok e -> wf e.
Proof.
  intros Hargs. unfold build_call, call_unary_str, call_unary_int, call_field, call_any_fact,
    call_all_fact, call_count_fact, call_stderr_matches, wrong_arity, invalid.
  repeat (case_match; [destruct args as [|a [|b [|c [|]]]]; try done;
    repeat (apply Forall_cons in Hargs as [? Hargs]);
    try (destruct a; try done); unfold mbind, result_bind; simpl;
    try (destruct (parse_comp_op_from_expr b); [|done]; destruct c; try done);
    try (destruct (regex_new _) eqn:?; [|done]);
    intros [= <-]; unfold wf in *; simpl in *;
    try match goal with E : regex_new _ = _ |- _ => rewrite E end; done|]).
  done.
Qed.

Lemma plain_ident_wf name : wf (plain_ident name).
Proof. unfold plain_ident, wf. case_bool_decide as Hn; [|done]. by apply bool_decide_eq_true. Qed.

Section Descent.
Context (rec : PM Expr) (Hrec : ensures wf rec).

Lemma ensures_call_args n : ensures (Forall wf) (parse_call_args rec n).
Proof.
  apply ensures_current. intros t _. case_bool_decide; [by apply ensures_ret|].
  eapply ensures_bind; [exact Hrec|]. intros a Ha.
  assert (Hargs : Forall wf [a]) by (by constructor). revert Hargs. generalize [a].
  induction n as [|n IH]; intros args Hargs; [done|].
  apply ensures_current. intros t' _. case_bool_decide; [|by apply ensures_ret].
  apply ensures_consume. eapply ensures_bind; [exact Hrec|]. intros b Hb. apply IH.
  apply Forall_app. split; [done|by constructor].
Qed.

Lemma ensures_ident_or_call n name : ensures wf (parse_ident_or_call rec n name).
Proof.
  apply ensures_current. intros t _.
  case_bool_decide; [|apply ensures_ret, plain_ident_wf].
  apply ensures_consume. eapply ensures_bind; [apply ensures_call_args|]. intros args Hargs.
  eapply ensures_bind; [apply ensures_expect_rparen|]. intros _ _.
  apply ensures_result. intros e He. by eapply build_call_wf.
Qed.

Lemma ensures_primary n : ensures wf (parse_primary rec n).
Proof.
  apply ensures_current. intros t Ht. unfold good_token in Ht.
  destruct (kind t); try apply ensures_unexpected; apply ensures_consume;
    try (by apply ensures_ret); try apply ensures_ident_or_call.
  eapply ensures_bind; [exact Hrec|]. intros e He.
  eapply ensures_bind; [apply ensures_expect_rparen|]. intros _ _. by apply ensures_ret.
Qed.

Lemma ensures_comparison n : ensures wf (parse_comparison rec n).
Proof.
  eapply ensures_bind; [apply ensures_primary|]. intros l Hl.
  apply ensures_current. intros t _. destruct (comparison (kind t)) as [mk|] eqn:Hc;
    [|by apply ensures_ret].
  apply ensures_consume. eapply ensures_bind; [apply ensures_primary|]. intros r Hr.
  apply ensures_ret. unfold wf in *.
  by destruct (kind t); try done; injection Hc as <-; simpl; rewrite Hl, Hr.
Qed.

Lemma ensures_not n : ensures wf (parse_not rec n).
Proof.
  induction n as [|n IH]; [done|]. apply ensures_current. intros t _.
  case_bool_decide; [|apply ensures_comparison]. apply ensures_consume.
  eapply ensures_bind; [exact IH|]. intros e He. by apply ensures_ret.
Qed.

Lemma ensures_and n : ensures wf (parse_and rec n).
Proof.
  eapply ensures_bind; [apply ensures_not|]. intros l Hl. revert l Hl.
  induction n as [|n IH]; intros l Hl; [done|]. apply ensures_current. intros t _.
  case_bool_decide; [|by apply ensures_ret]. apply ensures_consume.
  eapply ensures_bind; [apply ensures_not|]. intros r Hr. apply IH.
  unfold wf in *. simpl. by rewrite Hl, Hr.
Qed.

Lemma ensures_or n : ensures wf (parse_or rec n).
Proof.
  eapply ensures_bind; [apply ensures_and|]. intros l Hl. revert l Hl.
  induction n as [|n IH]; intros l Hl; [done|]. apply ensures_current. intros t _.
  case_bool_decide; [|by apply ensures_ret]. apply ensures_consume.
  eapply ensures_bind; [apply ensures_and|]. intros r Hr. apply IH.
  unfold wf in *. simpl. by rewrite Hl, Hr.
Qed.
End Descent.

Lemma ensures_expression fuel : ensures wf (parse_expression fuel).
Proof. induction fuel as [|f IH]; [done|]. by apply ensures_or. Qed.

(** C28. Every expression the parser returns is well formed: its fields are the
    built-in ones, its integers fit the [i32] literals, and the patterns of
    [stderr_matches] compile, so evaluation never meets an invalid regex. *)
Theorem parse_well_formed (input : str) (e : Expr) :
  parse input = Some (Ok e) -> well_formed e = true.
Proof.
  unfold parse, parse_fuel. set (n := S (S (length input))). set (st0 := mkParser _ _).
  assert (Hp : ensures wf (_ ← p_advance; e ← parse_expression n; t ← p_current;
    if bool_decide (kind t = TEof) then mret e else unexpected (A := Expr) "end of input")).
  { apply ensures_consume. eapply ensures_bind; [apply ensures_expression|]. intros a Ha.
    apply ensures_current. intros t _. case_bool_decide; [by apply ensures_ret|done]. }
  destruct ((_ ← p_advance; _) st0) as [[[a st]|]|] eqn:E; [|done|done]. intros [= ->].
  by apply (Hp st0 e st).
Qed.
End Invariant.

Lemma parse_well_formed_witness :
  @well_formed substring_engine sample_expr = true.
Proof.
  apply (@parse_well_formed ascii_tables substring_engine
    (lit "not exit_code == 0 and (stderr_matches('panic') or false) or any_fact('k', '>=', '2')")).
  vm_compute. reflexivity.
Defined.
