(* ===== verification/RuleEval.v ===== *)
(** * Rule evaluation (enrichment-engine/src/models, rules/ast.rs, rules/evaluator.rs)

    The data of the enrichment engine that rules work on, the evaluation of an
    expression over it ([EvalContext]), and the rule evaluator built on both. *)

From S2P Require Import Prelude RuleLexer RuleParser RuleSyntax.

(** ** Models *)

Record OperationInvocation : Type := mkInvocation {
  command : str;
  args : list str;
  working_dir : option str;
  env_vars : gmap str str
}.

Record OperationResult : Type := mkResult {
  exit_code : Z;
  stdout : str;
  stderr : str;
  duration_ms : Z;  (** [u64] *)
  timed_out : bool
}.

Record Fact : Type := mkFact {
  f_key : str;
  f_value : str;
  f_tags : list str;
  source_extractor : str;
  confidence : float
}.

Inductive RuleAction : Type :=
| DeriveFact (key value : str) (conf : float)
| SetVerdict (v : str)
| Recommend (r : str).

Record RuleConfig : Type := mkRule {
  rule_id : str;
  enricher_id : str;
  condition : str;
  priority : Z;  (** [i32], lower is higher priority *)
  enabled : bool;
  actions : list RuleAction
}.

Record RuleOutput : Type := mkOutput {
  derived_facts : list Fact;
  verdict : option str;
  recommendations : list str;
  hit_count : N  (** [u32] *)
}.

(** The sum of two [u32]: it wraps around in a release build. *)
Definition u32_sum (a b : N) : N := (a + b) mod 4294967296.

Definition RuleOutput_empty : RuleOutput := mkOutput [] None [] 0.

Definition merge (self other : RuleOutput) : RuleOutput :=
  mkOutput (derived_facts self ++ derived_facts other)
    (match verdict other with Some v => Some v | None => verdict self end)
    (recommendations self ++ recommendations other)
    (u32_sum (hit_count self) (hit_count other)).

(** ** Evaluation context *)

Record EvalContext : Type := mkContext {
  ec_result : OperationResult;
  ec_facts : list Fact;
  fact_map : gmap str Fact
}.

(** [entry(key).or_insert(fact)] for each fact in turn. *)
Definition build_fact_map (facts : list Fact) : gmap str Fact :=
  fold_left (fun m f => match m !! f_key f with Some _ => m | None => <[f_key f := f]> m end)
    facts ∅.

Definition EvalContext_new (result : OperationResult) (facts : list Fact) : EvalContext :=
  mkContext result facts (build_fact_map facts).

Definition get_fact (ctx : EvalContext) (key : str) : option Fact := fact_map ctx !! key.

Definition extract_str (ctx : EvalContext) (e : Expr) : str :=
  let r := ec_result ctx in
  match e with
  | EStr s => s
  | EInt n => show_Z n
  | EBool b => show_bool b
  | EField f =>
      if str_eqb f (lit "exit_code") then show_Z (exit_code r)
      else if str_eqb f (lit "timed_out") then show_bool (timed_out r)
      else if str_eqb f (lit "stdout") then stdout r
      else if str_eqb f (lit "stderr") then stderr r
      else if str_eqb f (lit "duration_ms") then show_Z (duration_ms r)
      else []
  | _ => []
  end.

Definition extract_i32 (ctx : EvalContext) (e : Expr) : Z :=
  let r := ec_result ctx in
  match e with
  | EInt n => n
  | EStr s => default 0%Z (parse_i32 s)
  | EField f =>
      if str_eqb f (lit "exit_code") then exit_code r
      else if str_eqb f (lit "duration_ms") then as_i32 (duration_ms r)
      else 0%Z
  | _ => 0%Z
  end.

Definition compare_fact_eq (ctx : EvalContext) (key : str) (right : Expr) : bool :=
  match get_fact ctx key with
  | Some f => str_eqb (f_value f) (extract_str ctx right)
  | None => false
  end.

Definition compare_eq (ctx : EvalContext) (l r : Expr) : bool :=
  match l with
  | EFact key => compare_fact_eq ctx key r
  | _ => str_eqb (extract_str ctx l) (extract_str ctx r)
  end.

Definition compare_fact_cmp (ctx : EvalContext) (key : str) (right : Expr)
    (cmp : Z -> Z -> bool) : bool :=
  match get_fact ctx key with
  | Some f => cmp (default 0%Z (parse_i32 (f_value f))) (extract_i32 ctx right)
  | None => false
  end.

(** The common body of [compare_gt], [compare_lt], [compare_ge], [compare_le]. *)
Definition compare_with (cmp : Z -> Z -> bool) (ctx : EvalContext) (l r : Expr) : bool :=
  match l with
  | EFact key => compare_fact_cmp ctx key r cmp
  | _ => cmp (extract_i32 ctx l) (extract_i32 ctx r)
  end.

Definition compare_gt : EvalContext -> Expr -> Expr -> bool := compare_with Z.gtb.
Definition compare_lt : EvalContext -> Expr -> Expr -> bool := compare_with Z.ltb.
Definition compare_ge : EvalContext -> Expr -> Expr -> bool := compare_with Z.geb.
Definition compare_le : EvalContext -> Expr -> Expr -> bool := compare_with Z.leb.

Definition fact_satisfies_op (f : Fact) (op : CompOp) (expected : str) : bool :=
  let fact_i64 := default i64_min (parse_i64 (f_value f)) in
  let expected_i64 := default i64_min (parse_i64 expected) in
  match op with
  | OpEq => str_eqb (f_value f) expected
  | OpNe => negb (str_eqb (f_value f) expected)
  | OpGt => (fact_i64 >? expected_i64)%Z
  | OpLt => (fact_i64 <? expected_i64)%Z
  | OpGe => (fact_i64 >=? expected_i64)%Z
  | OpLe => (fact_i64 <=? expected_i64)%Z
  end.

Definition compare_count (op : CompOp) (count n : Z) : bool :=
  match op with
  | OpEq => (count =? n)%Z
  | OpNe => negb (count =? n)%Z
  | OpGt => (count >? n)%Z
  | OpLt => (count <? n)%Z
  | OpGe => (count >=? n)%Z
  | OpLe => (count <=? n)%Z
  end.

Definition matching (ctx : EvalContext) (key : str) : list Fact :=
  List.filter (fun f => str_eqb (f_key f) key) (ec_facts ctx).

Definition eval_any_fact (ctx : EvalContext) (key : str) (op : CompOp) (value : str) : bool :=
  match matching ctx key with
  | [] => false
  | m => existsb (fun f => fact_satisfies_op f op value) m
  end.

Definition eval_all_fact (ctx : EvalContext) (key : str) (op : CompOp) (value : str) : bool :=
  match matching ctx key with
  | [] => false
  | m => forallb (fun f => fact_satisfies_op f op value) m
  end.

Definition eval_count_fact (ctx : EvalContext) (key : str) (op : CompOp) (n : Z) : bool :=
  compare_count op (as_i32 (Z.of_nat (length (matching ctx key)))) n.

Definition eval_field (r : OperationResult) (f : str) : bool :=
  if str_eqb f (lit "exit_code") then negb (exit_code r =? 0)%Z
  else if str_eqb f (lit "timed_out") then timed_out r
  else if str_eqb f (lit "stdout") then negb (str_eqb (stdout r) [])
  else if str_eqb f (lit "stderr") then negb (str_eqb (stderr r) [])
  else if str_eqb f (lit "duration_ms") then negb (as_i32 (duration_ms r) =? 0)%Z
  else false.

Fixpoint evaluate `{RegexEngine} (ctx : EvalContext) (e : Expr) : bool :=
  let r := ec_result ctx in
  match e with
  | EBool b => b
  | EInt n => negb (n =? 0)%Z
  | EStr s => negb (str_eqb s [])
  | EField f => eval_field r f
  | EEq a b => compare_eq ctx a b
  | ENe a b => negb (compare_eq ctx a b)
  | EGt a b => compare_gt ctx a b
  | ELt a b => compare_lt ctx a b
  | EGe a b => compare_ge ctx a b
  | ELe a b => compare_le ctx a b
  | EAnd a b => evaluate ctx a && evaluate ctx b
  | EOr a b => evaluate ctx a || evaluate ctx b
  | ENot a => negb (evaluate ctx a)
  | EContainsFact key => bool_decide (is_Some (fact_map ctx !! key))
  | EFact _ => false
  | EStdoutContains sub => str_contains (stdout r) sub
  | EAnyFact key op value => eval_any_fact ctx key op value
  | EAllFact key op value => eval_all_fact ctx key op value
  | ECountFact key op n => eval_count_fact ctx key op n
  | EStderrContains sub => str_contains (stderr r) sub
  | EStderrMatches pattern =>
      match regex_new pattern with
      | Ok re => regex_is_match re (stderr r)
      | Err _ => false
      end
  | EDurationLt threshold => (as_i32 (duration_ms r) <? threshold)%Z
  | EDurationGt threshold => (as_i32 (duration_ms r) >? threshold)%Z
  end.

(** ** The rule evaluator *)

(** [InMemoryRuleRepository::find_rules]. *)
Definition find_rules (rules : list RuleConfig) (id : str) : list RuleConfig :=
  List.filter (fun r => str_eqb (enricher_id r) id && enabled r) rules.

Record ParsedRule : Type := mkParsed { pr_config : RuleConfig; pr_expr : Expr }.

Definition execute_action (action : RuleAction) (out : RuleOutput) : RuleOutput :=
  match action with
  | DeriveFact key value conf =>
      mkOutput (derived_facts out ++ [mkFact key value [] (lit "rule") conf])
        (verdict out) (recommendations out) (hit_count out)
  | SetVerdict v =>
      mkOutput (derived_facts out) (Some v) (recommendations out) (hit_count out)
  | Recommend r =>
      mkOutput (derived_facts out) (verdict out) (recommendations out ++ [r]) (hit_count out)
  end.

(** [sort_by_key(|r| r.config.priority)], which is stable. *)
Definition sort_by_priority (rs : list ParsedRule) : list ParsedRule :=
  sort_by_key (fun r => priority (pr_config r)) rs.

Section Evaluator.
Context `{UnicodeTables} `{RegexEngine}.

Definition get_parsed_rules (configs : list RuleConfig) : list ParsedRule :=
  omap (fun config =>
    match parse (condition config) with
    | Some (Ok e) => Some (mkParsed config e)
    | _ => None
    end) configs.

(** One turn of the loop of [evaluate_rules]. *)
Definition apply_rule (ctx : EvalContext) (out : RuleOutput) (pr : ParsedRule) : RuleOutput :=
  if evaluate ctx (pr_expr pr) then
    fold_left (fun o a => execute_action a o) (actions (pr_config pr))
      (mkOutput (derived_facts out) (verdict out) (recommendations out) (u32_sum (hit_count out) 1))
  else out.

Definition evaluate_rules (rs : list ParsedRule) (ctx : EvalContext) : RuleOutput :=
  fold_left (apply_rule ctx) (sort_by_priority rs) RuleOutput_empty.

(** [DefaultRuleEvaluator::evaluate] over a repository holding [rules]. *)
Definition rule_evaluate (rules : list RuleConfig) (id : str) (result : OperationResult)
    (facts : list Fact) : RuleOutput :=
  evaluate_rules (get_parsed_rules (find_rules rules id)) (EvalContext_new result facts).
End Evaluator.

(** ** What the context answers *)

Definition first_with_key (key : str) (facts : list Fact) : option Fact :=
  List.find (fun f => str_eqb (f_key f) key) facts.

Lemma build_fact_map_from (facts : list Fact) (m : gmap str Fact) (key : str) :
  fold_left (fun (m : gmap str Fact) f =>
    match m !! f_key f with Some _ => m | None => <[f_key f := f]> m end) facts m !! key =
  match m !! key with Some f => Some f | None => first_with_key key facts end.
Proof.
  revert m. induction facts as [|f facts IH]; intros m; simpl; [by destruct (m !! key)|].
  rewrite IH. destruct (m !! f_key f) as [g|] eqn:E.
  - destruct (m !! key) eqn:E'; [done|]. rewrite str_eqb_neq; [done|congruence].
  - destruct (decide (f_key f = key)) as [<-|Hne].
    + by rewrite lookup_insert_eq, E, str_eqb_refl.
    + by rewrite lookup_insert_ne, str_eqb_neq.
Qed.

(** The fact map answers a lookup with the first fact of the list that has
    the key, whatever later facts say. *)
Theorem get_fact_first (r : OperationResult) (facts : list Fact) (key : str) :
  get_fact (EvalContext_new r facts) key =
    List.find (fun f => str_eqb (f_key f) key) facts.
Proof. apply build_fact_map_from. Qed.

Lemma matching_in ctx key f :
  f ∈ matching ctx key <-> f ∈ ec_facts ctx /\ f_key f = key.
Proof.
  unfold matching. rewrite !list_elem_of_In, filter_In, str_eqb_eq. done.
Qed.

(** [any_fact] holds iff some fact with the key satisfies the operator, and
    [all_fact] iff there is a fact with the key and every one satisfies it. *)
Theorem quantified_facts `{RegexEngine} (ctx : EvalContext) (key : str) (op : CompOp)
    (value : str) :
  (evaluate ctx (EAnyFact key op value) = true <->
    exists f, f ∈ ec_facts ctx /\ f_key f = key /\ fact_satisfies_op f op value = true) /\
  (evaluate ctx (EAllFact key op value) = true <->
    (exists f, f ∈ ec_facts ctx /\ f_key f = key) /\
    forall f, f ∈ ec_facts ctx -> f_key f = key -> fact_satisfies_op f op value = true).
Proof.
  simpl. unfold eval_any_fact, eval_all_fact. pose proof (matching_in ctx key) as Hm.
  destruct (matching ctx key) as [|g gs]; (split; [split|split]).
  - done.
  - intros (f & Hf & Hk & _). by pose proof (proj2 (Hm f) (conj Hf Hk)) as []%not_elem_of_nil.
  - done.
  - intros [(f & Hf & Hk) _]. by pose proof (proj2 (Hm f) (conj Hf Hk)) as []%not_elem_of_nil.
  - rewrite existsb_exists. intros (f & Hf%list_elem_of_In & Hs). exists f.
    apply Hm in Hf as [??]. done.
  - intros (f & Hf & Hk & Hs). apply existsb_exists. exists f.
    rewrite <- list_elem_of_In. by rewrite Hm.
  - rewrite forallb_forall. intros Hall. split.
    + exists g. apply Hm. by left.
    + intros f Hf Hk. apply Hall, list_elem_of_In. by apply Hm.
  - intros [_ Hall]. apply forallb_forall. intros f Hf%list_elem_of_In.
    apply Hm in Hf as [??]. auto.
Qed.

(** On a missing fact the comparisons [==], [>], [<], [>=], [<=] are false,
    but [!=] is true: it is computed as the negation of [==]. *)
Theorem missing_fact_comparisons `{RegexEngine} (r : OperationResult) (facts : list Fact)
    (key : str) (right : Expr) :
  Forall (fun f => f_key f ≠ key) facts ->
  let ctx := EvalContext_new r facts in
  evaluate ctx (EEq (EFact key) right) = false /\
  evaluate ctx (EGt (EFact key) right) = false /\
  evaluate ctx (ELt (EFact key) right) = false /\
  evaluate ctx (EGe (EFact key) right) = false /\
  evaluate ctx (ELe (EFact key) right) = false /\
  evaluate ctx (ENe (EFact key) right) = true.
Proof.
  intros Hf ctx. assert (E : get_fact ctx key = None).
  { unfold ctx. unfold get_fact, EvalContext_new. simpl. unfold build_fact_map.
    rewrite build_fact_map_from, lookup_empty. induction Hf as [|f fs Hne _ IH]; [done|].
    simpl. by rewrite str_eqb_neq. }
  simpl. unfold compare_gt, compare_lt, compare_ge, compare_le, compare_with,
    compare_fact_cmp, compare_fact_eq. by rewrite E.
Qed.

Definition sample_result : OperationResult :=
  mkResult 1 (lit "out") (lit "err") 2147483648 false.

Lemma missing_fact_comparisons_witness :
  let ctx := EvalContext_new sample_result [mkFact (lit "a") (lit "1") [] [] f32_one] in
  @evaluate substring_engine ctx (EEq (EFact (lit "b")) (EInt 1)) = false /\
  @evaluate substring_engine ctx (EGt (EFact (lit "b")) (EInt 1)) = false /\
  @evaluate substring_engine ctx (ELt (EFact (lit "b")) (EInt 1)) = false /\
  @evaluate substring_engine ctx (EGe (EFact (lit "b")) (EInt 1)) = false /\
  @evaluate substring_engine ctx (ELe (EFact (lit "b")) (EInt 1)) = false /\
  @evaluate substring_engine ctx (ENe (EFact (lit "b")) (EInt 1)) = true.
Proof.
  apply (@missing_fact_comparisons substring_engine sample_result
    [mkFact (lit "a") (lit "1") [] [] f32_one] (lit "b") (EInt 1)).
  by repeat constructor.
Defined.

(** Durations are compared after truncation to [i32]: the thresholds mean
    what they say up to 2147483647 ms, and from 2147483648 ms to 4294967295 ms
    (25 to 49 days) no nonnegative threshold is ever exceeded. *)
Theorem duration_thresholds `{RegexEngine} (ctx : EvalContext) (n : Z) :
  (0 <= duration_ms (ec_result ctx) <= 4294967295)%Z -> (0 <= n <= i32_max)%Z ->
  evaluate ctx (EDurationGt n) =
    ((n <? duration_ms (ec_result ctx)) && (duration_ms (ec_result ctx) <=? i32_max))%Z /\
  evaluate ctx (EDurationLt n) =
    ((duration_ms (ec_result ctx) <? n) || (i32_max <? duration_ms (ec_result ctx)))%Z.
Proof.
  intros Hd Hn. simpl. set (d := duration_ms (ec_result ctx)) in *.
  unfold i32_max in *. destruct (Z.le_gt_cases d 2147483647) as [Hle|Hgt].
  - rewrite as_i32_id by (unfold i32_min, i32_max; lia). split.
    + rewrite Z.gtb_ltb, (proj2 (Z.leb_le d _) Hle). by rewrite andb_true_r.
    + rewrite (proj2 (Z.ltb_ge _ d) Hle). by rewrite orb_false_r.
  - assert (E : as_i32 d = (d - 4294967296)%Z).
    { unfold as_i32. replace (d + 2147483648)%Z with (d - 2147483648 + 1 * 4294967296)%Z by lia.
      rewrite Z.mod_add, Z.mod_small by lia. lia. }
    rewrite E, (proj2 (Z.ltb_lt _ d) Hgt), (proj2 (Z.leb_gt d _) Hgt), orb_true_r, andb_false_r.
    rewrite Z.gtb_ltb. split; [apply Z.ltb_ge; lia|apply Z.ltb_lt; lia].
Qed.

Lemma duration_thresholds_witness :
  @evaluate substring_engine (EvalContext_new sample_result []) (EDurationGt 5000) = false /\
  @evaluate substring_engine (EvalContext_new sample_result []) (EDurationLt 5000) = true.
Proof.
  apply (@duration_thresholds substring_engine (EvalContext_new sample_result []) 5000);
    vm_compute; split; discriminate.
Defined.

(** ** What the rule evaluator produces *)

Definition rule_before (a b : ParsedRule) : Prop :=
  (priority (pr_config a) <= priority (pr_config b))%Z.

Definition derived_fact (a : RuleAction) : option Fact :=
  match a with DeriveFact k v c => Some (mkFact k v [] (lit "rule") c) | _ => None end.
Definition verdict_of (a : RuleAction) : option str :=
  match a with SetVerdict v => Some v | _ => None end.
Definition recommended (a : RuleAction) : option str :=
  match a with Recommend r => Some r | _ => None end.

(** The output that a sequence of actions adds to nothing. *)
Definition output_of (acts : list RuleAction) (hits : N) : RuleOutput :=
  mkOutput (omap derived_fact acts) (last (omap verdict_of acts)) (omap recommended acts) (u32_sum hits 0).

(** A [u32] is in its range. *)
Definition hits_fit (out : RuleOutput) : Prop := (hit_count out < 4294967296)%N.

Lemma u32_sum_assoc a b c : u32_sum a (u32_sum b c) = u32_sum (u32_sum a b) c.
Proof. unfold u32_sum. by rewrite N.Div0.add_mod_idemp_r, N.Div0.add_mod_idemp_l, N.add_assoc. Qed.

Lemma u32_sum_spread n m : u32_sum (n + m) 0 = u32_sum (u32_sum n 0) (u32_sum m 0).
Proof. unfold u32_sum. by rewrite !N.add_0_r, N.Div0.add_mod_idemp_r, N.Div0.add_mod_idemp_l. Qed.

Lemma merge_assoc a b c : merge a (merge b c) = merge (merge a b) c.
Proof. unfold merge. simpl. by rewrite !app_assoc, u32_sum_assoc; destruct (verdict c), (verdict b). Qed.

Lemma merge_fits a b : hits_fit (merge a b).
Proof. by apply N.mod_lt. Qed.

Lemma merge_empty_l a : hits_fit a -> merge RuleOutput_empty a = a.
Proof. intros Ha. destruct a as [d [v|] r n]; unfold merge, u32_sum; simpl; by rewrite N.mod_small. Qed.

Lemma merge_empty_r a : hits_fit a -> merge a (output_of [] 0) = a.
Proof.
  intros Ha. destruct a as [d v r n]; unfold merge, u32_sum; simpl.
  rewrite N.add_0_r, !app_nil_r. by rewrite N.mod_small.
Qed.

Lemma execute_action_merge a out : hits_fit out -> execute_action a out = merge out (output_of [a] 0).
Proof.
  unfold hits_fit. destruct out as [d v r n], a as [k v' c|v'|r']; intros Hn; unfold merge, output_of, u32_sum in *;
    simpl in *; rewrite N.add_0_r, ?app_nil_r; by rewrite N.mod_small.
Qed.

Lemma output_of_app xs ys n m :
  output_of (xs ++ ys) (n + m) = merge (output_of xs n) (output_of ys m).
Proof.
  unfold output_of, merge. simpl. rewrite !omap_app, u32_sum_spread. f_equal. rewrite last_app.
  by destruct (last (omap verdict_of ys)).
Qed.

Lemma execute_actions_merge acts out : hits_fit out ->
  fold_left (fun o a => execute_action a o) acts out = merge out (output_of acts 0).
Proof.
  revert out. induction acts as [|a acts IH]; intros out Ho.
  - by rewrite merge_empty_r.
  - cbn [fold_left]. rewrite execute_action_merge by done. rewrite IH by apply merge_fits.
    rewrite <- merge_assoc. f_equal. by rewrite <- output_of_app.
Qed.

Section EvaluatorFacts.
Context `{UnicodeTables} `{RegexEngine}.

(** The rules that fire, and what they do, in the order of evaluation. *)
Definition fired (ctx : EvalContext) (rs : list ParsedRule) : list ParsedRule :=
  List.filter (fun pr => evaluate ctx (pr_expr pr)) rs.
Definition actions_of (rs : list ParsedRule) : list RuleAction :=
  concat (map (fun pr => actions (pr_config pr)) rs).

Lemma apply_rule_output ctx pr out : hits_fit out ->
  apply_rule ctx out pr =
    merge out (output_of (actions_of (fired ctx [pr])) (N.of_nat (length (fired ctx [pr])))).
Proof.
  intros Ho. unfold apply_rule, fired, actions_of. cbn [List.filter].
  destruct (evaluate ctx (pr_expr pr)); cbn [map concat length]; [|by rewrite merge_empty_r].
  rewrite execute_actions_merge by by apply N.mod_lt. rewrite app_nil_r.
  destruct out as [d v r n]. unfold merge, output_of. simpl. f_equal. by rewrite <- u32_sum_assoc.
Qed.

Lemma apply_rules_output ctx rs out : hits_fit out ->
  fold_left (apply_rule ctx) rs out =
    merge out (output_of (actions_of (fired ctx rs)) (N.of_nat (length (fired ctx rs)))).
Proof.
  revert out. induction rs as [|pr rs IH]; intros out Ho; [by rewrite merge_empty_r|].
  cbn [fold_left]. rewrite apply_rule_output by done. rewrite IH by apply merge_fits.
  rewrite <- merge_assoc, <- output_of_app, <- Nat2N.inj_add, <- length_app. unfold actions_of.
  rewrite <- concat_app, <- map_app. unfold fired. by rewrite <- List.filter_app.
Qed.

(** C11. The output of [evaluate_rules] is determined by the rules that fire,
    taken by ascending priority and, within a priority, in repository order:
    derived facts and recommendations accumulate in that order, [hit_count]
    counts the fired rules up to the wrap-around of a [u32], and the verdict is the last one set, so that the
    rule with the numerically highest priority has the final word. *)
Theorem evaluate_rules_spec (rs : list ParsedRule) (ctx : EvalContext) :
  exists sorted, sorted ≡ₚ rs /\ StronglySorted rule_before sorted /\
    (forall p, List.filter (fun r => (priority (pr_config r) =? p)%Z) sorted =
               List.filter (fun r => (priority (pr_config r) =? p)%Z) rs) /\
    let acts := actions_of (fired ctx sorted) in
    let out := evaluate_rules rs ctx in
    derived_facts out = omap derived_fact acts /\
    verdict out = last (omap verdict_of acts) /\
    recommendations out = omap recommended acts /\
    hit_count out = (N.of_nat (length (fired ctx rs)) mod 4294967296)%N.
Proof.
  exists (sort_by_priority rs). split; [apply sort_by_key_perm|].
  split; [apply (sort_by_key_sorted (fun r => priority (pr_config r)))|].
  split; [intros; apply (sort_by_key_stable (fun r => priority (pr_config r)))|].
  cbv zeta. unfold evaluate_rules. rewrite apply_rules_output by done. rewrite merge_empty_l by by apply N.mod_lt.
  unfold output_of, u32_sum. simpl. rewrite N.add_0_r. repeat split. unfold fired.
  assert (Hp : List.filter (fun pr => evaluate ctx (pr_expr pr)) (sort_by_priority rs)
    ≡ₚ List.filter (fun pr => evaluate ctx (pr_expr pr)) rs); [|by rewrite Hp].
  unfold sort_by_priority. apply filter_perm, sort_by_key_perm.
Qed.
End EvaluatorFacts.
