(* ===== verification/Brn.v ===== *)
(** * Bastion Resource Names and capability-based authorization

    Models [bastion-domain/src/shared/brn.rs]: the closed enumerations of
    namespaces and types, the parser and printer of resource names, and the
    policy that maps a resource and an action to the capabilities it needs.
    Capability sets are the [u32] bit sets declared by the source; the
    operations the [bitflags] macro generates on them are a parameter of the
    model with their documented behaviour ([BitFlags]). *)

From S2P Require Import Prelude.

(** ** Data *)

Inductive BrnNamespace := NsSandbox | NsProject | NsProvider | NsTemplate | NsCatalog | NsInfra.

Inductive BrnType :=
| TySandbox | TyProject | TyProvider | TyInstance | TyTemplate | TyArtifact
| TyDoctor | TyAssertion | TyAdvice | TyExperience
| TyPool | TyWorker | TyConfig | TySecret.

Record Brn := mkBrn { namespace : BrnNamespace; resource_type : BrnType; resource_id : str }.

Inductive BrnError :=
| InvalidFormat
| UnknownNamespace (s : str)
| UnknownType (s : str)
| MissingResourceId.

#[export] Instance BrnNamespace_eq_dec : EqDecision BrnNamespace.
Proof. solve_decision. Defined.
#[export] Instance BrnType_eq_dec : EqDecision BrnType.
Proof. solve_decision. Defined.
#[export] Instance Brn_eq_dec : EqDecision Brn.
Proof. solve_decision. Defined.

Definition ns_parse (s : str) : result BrnError BrnNamespace :=
  if str_eqb s (lit "sandbox") then Ok NsSandbox
  else if str_eqb s (lit "project") then Ok NsProject
  else if str_eqb s (lit "provider") then Ok NsProvider
  else if str_eqb s (lit "template") then Ok NsTemplate
  else if str_eqb s (lit "catalog") then Ok NsCatalog
  else if str_eqb s (lit "infra") then Ok NsInfra
  else Err (UnknownNamespace s).

Definition ns_as_str (n : BrnNamespace) : str :=
  match n with
  | NsSandbox => lit "sandbox"
  | NsProject => lit "project"
  | NsProvider => lit "provider"
  | NsTemplate => lit "template"
  | NsCatalog => lit "catalog"
  | NsInfra => lit "infra"
  end.

Definition type_parse (s : str) : result BrnError BrnType :=
  if str_eqb s (lit "sandbox") then Ok TySandbox
  else if str_eqb s (lit "project") then Ok TyProject
  else if str_eqb s (lit "provider") then Ok TyProvider
  else if str_eqb s (lit "instance") then Ok TyInstance
  else if str_eqb s (lit "template") then Ok TyTemplate
  else if str_eqb s (lit "artifact") then Ok TyArtifact
  else if str_eqb s (lit "doctor") then Ok TyDoctor
  else if str_eqb s (lit "assertion") then Ok TyAssertion
  else if str_eqb s (lit "advice") then Ok TyAdvice
  else if str_eqb s (lit "experience") then Ok TyExperience
  else if str_eqb s (lit "pool") then Ok TyPool
  else if str_eqb s (lit "worker") then Ok TyWorker
  else if str_eqb s (lit "config") then Ok TyConfig
  else if str_eqb s (lit "secret") then Ok TySecret
  else Err (UnknownType s).

Definition type_as_str (t : BrnType) : str :=
  match t with
  | TySandbox => lit "sandbox"
  | TyProject => lit "project"
  | TyProvider => lit "provider"
  | TyInstance => lit "instance"
  | TyTemplate => lit "template"
  | TyArtifact => lit "artifact"
  | TyDoctor => lit "doctor"
  | TyAssertion => lit "assertion"
  | TyAdvice => lit "advice"
  | TyExperience => lit "experience"
  | TyPool => lit "pool"
  | TyWorker => lit "worker"
  | TyConfig => lit "config"
  | TySecret => lit "secret"
  end.

(** ** Factory methods *)

Definition brn_sandbox (id : str) : Brn := mkBrn NsSandbox TySandbox id.
Definition brn_project (id : str) : Brn := mkBrn NsProject TyProject id.
Definition brn_provider (id : str) : Brn := mkBrn NsProvider TyProvider id.
Definition brn_provider_instance (id : str) : Brn := mkBrn NsProvider TyInstance id.
Definition brn_template (id : str) : Brn := mkBrn NsTemplate TyTemplate id.
Definition brn_artifact (id : str) : Brn := mkBrn NsTemplate TyArtifact id.
Definition brn_doctor (id : str) : Brn := mkBrn NsCatalog TyDoctor id.
Definition brn_assertion (id : str) : Brn := mkBrn NsCatalog TyAssertion id.
Definition brn_advice (id : str) : Brn := mkBrn NsCatalog TyAdvice id.
Definition brn_experience (id : str) : Brn := mkBrn NsCatalog TyExperience id.
Definition brn_pool : Brn := mkBrn NsInfra TyPool (lit "default").
Definition brn_worker (id : str) : Brn := mkBrn NsInfra TyWorker id.
Definition brn_config : Brn := mkBrn NsInfra TyConfig (lit "default").
Definition brn_secret (id : str) : Brn := mkBrn NsInfra TySecret id.

(** ** Parsing and printing *)

Definition colon : char := chr ":".

(** The three parts after the prefix. *)
Definition parse_parts (parts : list str) : result BrnError Brn :=
  match parts with
  | [p0; p1; p2] =>
      match ns_parse p0 with
      | Err e => Err e
      | Ok ns =>
          match type_parse p1 with
          | Err e => Err e
          | Ok ty =>
              match p2 with
              | [] => Err MissingResourceId
              | _ => Ok (mkBrn ns ty p2)
              end
          end
      end
  | _ => Err InvalidFormat
  end.

Definition parse (s0 : str) : result BrnError Brn :=
  let s := trim s0 in
  if negb (starts_with (lit "brn:") s) then Err InvalidFormat
  else parse_parts (split_on colon (drop 4 s)).

Definition to_string (b : Brn) : str :=
  lit "brn:" ++ ns_as_str (namespace b) ++ colon ::
  type_as_str (resource_type b) ++ colon :: resource_id b.

Definition is_sandbox (b : Brn) : bool := bool_decide (namespace b = NsSandbox).
Definition is_provider_instance (b : Brn) : bool :=
  bool_decide (namespace b = NsProvider) && bool_decide (resource_type b = TyInstance).
Definition is_infra (b : Brn) : bool := bool_decide (namespace b = NsInfra).

(** ** Capabilities *)

(** What the [bitflags] macro promises of the operations it generates. *)
Class BitFlags := {
  bf_empty : N;
  bf_union : N -> N -> N;
  bf_contains : N -> N -> bool;
  bf_empty_spec : forall i, N.testbit bf_empty i = false;
  bf_union_spec : forall a b i, N.testbit (bf_union a b) i = N.testbit a i || N.testbit b i;
  bf_contains_spec : forall a b,
    bf_contains a b = true <-> forall i, N.testbit b i = true -> N.testbit a i = true
}.

(** Bit sets as [N], with the bitwise operations. *)
Lemma land_contains a b :
  (N.land a b =? b)%N = true <-> forall i, N.testbit b i = true -> N.testbit a i = true.
Proof.
  rewrite N.eqb_eq. split.
  - intros E i Hb. rewrite <- E, N.land_spec in Hb. by apply andb_true_iff in Hb as [? _].
  - intros H. apply N.bits_inj. intros i. rewrite N.land_spec.
    destruct (N.testbit b i) eqn:Hb; [by rewrite H|]. apply andb_false_r.
Qed.

Definition N_bitflags : BitFlags :=
  {| bf_empty := 0; bf_union := N.lor; bf_contains a b := (N.land a b =? b)%N;
     bf_empty_spec := N.bits_0; bf_union_spec := N.lor_spec;
     bf_contains_spec := land_contains |}.

Definition EXECUTION : N := N.shiftl 1 0.
Definition ADMIN : N := N.shiftl 1 1.
Definition READONLY : N := N.shiftl 1 2.

Record AuthContext := mkAuth { principal : str; capabilities : N }.

Definition AuthContext_new (p : str) (c : N) : AuthContext := mkAuth p c.

Inductive Action := Read | Write | Execute.

Inductive AuthError := InsufficientCapabilities (required actual : N).

#[export] Instance Action_eq_dec : EqDecision Action.
Proof. solve_decision. Defined.

Section Policy.
Context `{BF : BitFlags}.

Definition required_capabilities (b : Brn) (a : Action) : N :=
  let ns := namespace b in
  let ty := resource_type b in
  if bool_decide (ns = NsCatalog) && bool_decide (ty = TyExperience) then READONLY
  else if bool_decide (ns = NsSandbox) then EXECUTION
  else if bool_decide (ns = NsProject) then
    match a with
    | Read => READONLY
    | Write => bf_union EXECUTION ADMIN
    | Execute => EXECUTION
    end
  else if bool_decide (ns = NsProvider) then
    match a with Read => READONLY | Write => ADMIN | Execute => bf_empty end
  else if bool_decide (ns = NsTemplate) then
    match a with Read => READONLY | Write => ADMIN | Execute => bf_empty end
  else if bool_decide (ns = NsCatalog) && bool_decide (ty = TyDoctor) then
    match a with Read => READONLY | Write => ADMIN | Execute => ADMIN end
  else if bool_decide (ns = NsCatalog)
          && (bool_decide (ty = TyAssertion) || bool_decide (ty = TyAdvice)) then
    match a with Read => READONLY | Write => ADMIN | Execute => bf_empty end
  else if bool_decide (ns = NsInfra) then
    match a with Read => READONLY | Write => ADMIN | Execute => bf_empty end
  else bf_empty.

Definition authorize (auth : AuthContext) (b : Brn) (a : Action) : result AuthError unit :=
  let required := required_capabilities b a in
  if bf_contains (capabilities auth) required then Ok tt
  else Err (InsufficientCapabilities required (capabilities auth)).
End Policy.

(** ** Round trip *)

Lemma ns_parse_spec s n : ns_parse s = Ok n <-> s = ns_as_str n.
Proof.
  split; [|by intros ->; destruct n].
  unfold ns_parse. repeat (case_match; bools; [intros [= <-]; done|]). done.
Qed.

Lemma type_parse_spec s t : type_parse s = Ok t <-> s = type_as_str t.
Proof.
  split; [|by intros ->; destruct t].
  unfold type_parse. repeat (case_match; bools; [intros [= <-]; done|]). done.
Qed.

Lemma ns_parse_err s e :
  ns_parse s = Err e <-> e = UnknownNamespace s /\ forall n, s ≠ ns_as_str n.
Proof.
  split.
  - intros H. split.
    + revert H. unfold ns_parse. repeat (case_match; [done|]). by intros [= <-].
    + intros n Hn. apply ns_parse_spec in Hn. congruence.
  - intros [-> H]. destruct (ns_parse s) as [n|e] eqn:E.
    + apply ns_parse_spec in E. by apply H in E.
    + revert E. unfold ns_parse. by repeat (case_match; [done|]).
Qed.

Lemma type_parse_err s e :
  type_parse s = Err e <-> e = UnknownType s /\ forall t, s ≠ type_as_str t.
Proof.
  split.
  - intros H. split.
    + revert H. unfold type_parse. repeat (case_match; [done|]). by intros [= <-].
    + intros n Hn. apply type_parse_spec in Hn. congruence.
  - intros [-> H]. destruct (type_parse s) as [n|e] eqn:E.
    + apply type_parse_spec in E. by apply H in E.
    + revert E. unfold type_parse. by repeat (case_match; [done|]).
Qed.

Lemma ns_no_colon n : colon ∉ ns_as_str n.
Proof. destruct n; by apply existsb_not_elem. Qed.

Lemma type_no_colon t : colon ∉ type_as_str t.
Proof. destruct t; by apply existsb_not_elem. Qed.
#[export] Hint Resolve ns_no_colon type_no_colon : bastion.

Lemma split_three a b c :
  colon ∉ a -> colon ∉ b -> colon ∉ c ->
  split_on colon (a ++ (colon :: b ++ (colon :: c))) = [a; b; c].
Proof. intros. by rewrite split_on_app, split_on_app, split_on_none. Qed.

Lemma split_three_inv s a b c :
  split_on colon s = [a; b; c] ->
  s = a ++ (colon :: b ++ (colon :: c)) /\ colon ∉ a /\ colon ∉ b /\ colon ∉ c.
Proof.
  intros E. pose proof (join_split colon s) as J. pose proof (split_on_pieces colon s) as F.
  rewrite E in *. simpl in J. split; [done|]. by rewrite !Forall_cons in F; naive_solver.
Qed.

Lemma starts_with_drop pre s : starts_with pre s = true <-> s = pre ++ drop (length pre) s.
Proof.
  rewrite starts_with_spec. split; [|by eauto]. intros [t ->]. by rewrite drop_app_length.
Qed.

(** The errors of the parser, as conditions on the trimmed text. *)
Inductive parse_fails (t : str) : BrnError -> Prop :=
| fails_prefix : (forall u, t ≠ lit "brn:" ++ u) -> parse_fails t InvalidFormat
| fails_parts u : t = lit "brn:" ++ u -> length (split_on colon u) ≠ 3 ->
    parse_fails t InvalidFormat
| fails_namespace a b c : t = lit "brn:" ++ join [colon] [a; b; c] ->
    colon ∉ a -> colon ∉ b -> colon ∉ c -> (forall n, a ≠ ns_as_str n) ->
    parse_fails t (UnknownNamespace a)
| fails_type n b c : t = lit "brn:" ++ join [colon] [ns_as_str n; b; c] ->
    colon ∉ b -> colon ∉ c -> (forall ty, b ≠ type_as_str ty) ->
    parse_fails t (UnknownType b)
| fails_id n ty : t = lit "brn:" ++ join [colon] [ns_as_str n; type_as_str ty; []] ->
    parse_fails t MissingResourceId.

(** [Brn::parse] reports each of its errors in exactly one situation:
    [InvalidFormat] when the prefix [brn:] is missing or there are not three
    parts, then the unknown namespace, then the unknown type, then the missing
    id, in this order. *)
Theorem parse_errors (s : str) (e : BrnError) :
  parse s = Err e <-> parse_fails (trim s) e.
Proof.
  unfold parse. generalize (trim s) as t. intros t. split.
  - destruct (starts_with _ t) eqn:Hs; cbn [negb].
    + apply starts_with_drop in Hs. change (length (lit "brn:")) with 4 in Hs. unfold parse_parts.
      destruct (split_on _ _) as [|p0 [|p1 [|p2 [|]]]] eqn:E;
        try (intros [= <-]; apply (fails_parts t _ Hs); by rewrite E).
      apply split_three_inv in E as (E & H0 & H1 & H2). rewrite E in Hs.
      destruct (ns_parse p0) as [ns|e0] eqn:En.
      * apply ns_parse_spec in En as ->. destruct (type_parse p1) as [ty|e1] eqn:Et.
        -- apply type_parse_spec in Et as ->. destruct p2; [|done]. intros [= <-].
           by apply (fails_id t ns ty).
        -- apply type_parse_err in Et as [-> Ht]. intros [= <-]. by apply (fails_type t ns p1 p2).
      * apply ns_parse_err in En as [-> Hn]. intros [= <-]. by apply (fails_namespace t p0 p1 p2).
    + intros [= <-]. apply fails_prefix. intros u ->. by rewrite starts_with_app in Hs.
  - intros [Hp|u -> Hl|a b c -> Ha Hb Hc Hn|n b c -> Hb Hc Ht|n ty ->].
    + destruct (starts_with _ t) eqn:Hs; [|done]. apply starts_with_spec in Hs as [u Hu].
      by apply Hp in Hu.
    + rewrite starts_with_app. cbn [negb]. rewrite (drop_app_length' _ _ 4) by done.
      unfold parse_parts. by destruct (split_on _ _) as [|? [|? [|? [|]]]].
    + rewrite starts_with_app. cbn [negb]. rewrite (drop_app_length' _ _ 4) by done.
      cbn [join app]. rewrite split_three by done. unfold parse_parts.
      by rewrite (proj2 (ns_parse_err a _) (conj eq_refl Hn)).
    + rewrite starts_with_app. cbn [negb]. rewrite (drop_app_length' _ _ 4) by done.
      cbn [join app]. rewrite split_three by auto with bastion. unfold parse_parts.
      rewrite (proj2 (ns_parse_spec _ n) eq_refl).
      by rewrite (proj2 (type_parse_err b _) (conj eq_refl Ht)).
    + rewrite starts_with_app. cbn [negb]. rewrite (drop_app_length' _ _ 4) by done.
      cbn [join app]. rewrite split_three by (auto with bastion; apply not_elem_of_nil).
      unfold parse_parts.
      by rewrite (proj2 (ns_parse_spec _ n) eq_refl), (proj2 (type_parse_spec _ ty) eq_refl).
Qed.

Lemma type_no_slash t : chr "/" ∉ type_as_str t.
Proof. destruct t; by apply existsb_not_elem. Qed.

Lemma subtype_fails t n ty sub id :
  colon ∉ sub -> colon ∉ id ->
  t = lit "brn:" ++ join [colon] [ns_as_str n; type_as_str ty ++ lit "/" ++ sub; id] ->
  parse_fails t (UnknownType (type_as_str ty ++ lit "/" ++ sub)).
Proof.
  intros Hs Hi ->. apply (fails_type _ n _ id); [done| |done|].
  - rewrite !elem_of_app. intros [H|[H|H]]; [by apply type_no_colon in H| |done].
    by apply list_elem_of_singleton in H.
  - intros ty' E. apply (type_no_slash ty'). rewrite <- E, !elem_of_app. right. left. constructor.
Qed.

(** C10. [Brn::parse] accepts exactly the texts that are, up to surrounding
    white space, the [to_string] of the name it returns, and it returns exactly
    the names whose resource id is not empty and has no colon.  In particular
    printing and parsing are inverse on the names the parser can return.  The
    sub-type that the documented format allows after the type,
    [brn:{namespace}:{type}/{sub-type}:{id}], is refused as part of an unknown
    type, whatever it is. *)
Theorem parse_iff_to_string (s : str) :
  (forall b, parse s = Ok b <->
     trim s = to_string b /\ resource_id b ≠ [] /\ colon ∉ resource_id b) /\
  (forall n ty sub id, colon ∉ sub -> colon ∉ id ->
     trim s = lit "brn:" ++ join [colon] [ns_as_str n; type_as_str ty ++ lit "/" ++ sub; id] ->
     parse s = Err (UnknownType (type_as_str ty ++ lit "/" ++ sub))).
Proof.
  split; [intros b|intros n ty sub id Hs Hi E; by apply parse_errors, subtype_fails with n id].
  unfold parse. split.
  - destruct (starts_with _ (trim s)) eqn:Hs; [|done]. cbn [negb].
    apply starts_with_drop in Hs. change (length (lit "brn:")) with 4 in Hs.
    unfold parse_parts.
    destruct (split_on _ _) as [|p0 [|p1 [|p2 [|]]]] eqn:E; try done.
    destruct (ns_parse p0) as [ns|] eqn:En; [|done].
    destruct (type_parse p1) as [ty|] eqn:Et; [|done].
    apply ns_parse_spec in En as ->. apply type_parse_spec in Et as ->.
    apply split_three_inv in E as (E & _ & _ & Hc).
    intros Hb. rewrite Hs, E. destruct p2 as [|c p2]; [done|].
    injection Hb as <-. done.
  - intros (Hs & Hn & Hc). rewrite Hs. unfold to_string at 1. rewrite starts_with_app. cbn [negb].
    change 4 with (length (lit "brn:")). unfold to_string. rewrite drop_app_length.
    rewrite split_three by auto with bastion. unfold parse_parts.
    rewrite (proj2 (ns_parse_spec _ _) eq_refl), (proj2 (type_parse_spec _ _) eq_refl).
    destruct b as [ns ty [|c id]]; done.
Qed.

(** ** The policy *)

(** A resource and action the policy leaves open to every principal. *)
Definition unguarded (b : Brn) (a : Action) : Prop :=
  match namespace b, resource_type b with
  | NsSandbox, _ | NsProject, _ => False
  | NsProvider, _ | NsTemplate, _ | NsInfra, _ => a = Execute
  | NsCatalog, TyExperience | NsCatalog, TyDoctor => False
  | NsCatalog, TyAssertion | NsCatalog, TyAdvice => a = Execute
  | NsCatalog, _ => True
  end.

Section PolicyFacts.
Context `{BF : BitFlags}.

Lemma testbit_exec i : N.testbit EXECUTION i = bool_decide (i = 0%N).
Proof.
  unfold EXECUTION. rewrite N.shiftl_1_l, N.pow2_bits_eqb. destruct (N.eqb_spec 0 i);
  symmetry; [by apply bool_decide_eq_true|apply bool_decide_eq_false; congruence].
Qed.

Lemma testbit_admin i : N.testbit ADMIN i = bool_decide (i = 1%N).
Proof.
  unfold ADMIN. rewrite N.shiftl_1_l, N.pow2_bits_eqb. destruct (N.eqb_spec 1 i);
  symmetry; [by apply bool_decide_eq_true|apply bool_decide_eq_false; congruence].
Qed.

Lemma testbit_readonly i : N.testbit READONLY i = bool_decide (i = 2%N).
Proof.
  unfold READONLY. rewrite N.shiftl_1_l, N.pow2_bits_eqb. destruct (N.eqb_spec 2 i);
  symmetry; [by apply bool_decide_eq_true|apply bool_decide_eq_false; congruence].
Qed.

(** The bits a capability needs: the held set must have them all. *)
Definition holds (c : N) (i : N) : Prop := N.testbit c i = true.

Lemma contains_exec c : bf_contains c EXECUTION = true <-> holds c 0.
Proof.
  rewrite bf_contains_spec. setoid_rewrite testbit_exec. setoid_rewrite bool_decide_eq_true.
  unfold holds. naive_solver.
Qed.

Lemma contains_admin c : bf_contains c ADMIN = true <-> holds c 1.
Proof.
  rewrite bf_contains_spec. setoid_rewrite testbit_admin. setoid_rewrite bool_decide_eq_true.
  unfold holds. naive_solver.
Qed.

Lemma contains_readonly c : bf_contains c READONLY = true <-> holds c 2.
Proof.
  rewrite bf_contains_spec. setoid_rewrite testbit_readonly. setoid_rewrite bool_decide_eq_true.
  unfold holds. naive_solver.
Qed.

Lemma contains_empty c : bf_contains c bf_empty = true <-> True.
Proof. rewrite bf_contains_spec. setoid_rewrite bf_empty_spec. naive_solver. Qed.

Lemma contains_union c a b :
  bf_contains c (bf_union a b) = true <-> bf_contains c a = true /\ bf_contains c b = true.
Proof.
  rewrite !bf_contains_spec. setoid_rewrite bf_union_spec. setoid_rewrite orb_true_iff.
  naive_solver.
Qed.

(** The capabilities each resource and action asks for, as bits: 0 for
    execution, 1 for administration and 2 for reading. *)
Definition policy_table (b : Brn) (a : Action) (c : N) : Prop :=
  match namespace b, resource_type b, a with
  | NsSandbox, _, _ => holds c 0
  | NsProject, _, Read => holds c 2
  | NsProject, _, Write => holds c 0 /\ holds c 1
  | NsProject, _, Execute => holds c 0
  | NsCatalog, TyExperience, _ => holds c 2
  | NsCatalog, TyDoctor, Read => holds c 2
  | NsCatalog, TyDoctor, _ => holds c 1
  | NsCatalog, (TyAssertion | TyAdvice), Read => holds c 2
  | NsCatalog, (TyAssertion | TyAdvice), Write => holds c 1
  | NsCatalog, _, _ => True
  | _, _, Read => holds c 2
  | _, _, Write => holds c 1
  | _, _, Execute => True
  end.

(** All the pairs of a resource and an action, with their requirement. *)
Ltac policy_cases ns ty a :=
  destruct ns, ty, a;
  cbv -[bf_contains bf_union bf_empty EXECUTION ADMIN READONLY holds capabilities iff not];
  rewrite ?contains_union, ?contains_exec, ?contains_admin, ?contains_readonly, ?contains_empty.

Lemma authorize_ok auth b a :
  authorize auth b a = Ok tt <->
  bf_contains (capabilities auth) (required_capabilities b a) = true.
Proof. unfold authorize. by destruct (bf_contains _ _). Qed.

(** [authorize] admits a principal exactly when it holds the bits of
    the policy table for the resource and the action; on refusal the error
    carries the required and the held set. *)
Theorem authorize_table (auth : AuthContext) (b : Brn) (a : Action) :
  (authorize auth b a = Ok tt <-> policy_table b a (capabilities auth)) /\
  (forall r c, authorize auth b a = Err (InsufficientCapabilities r c) ->
     r = required_capabilities b a /\ c = capabilities auth).
Proof.
  split.
  - rewrite authorize_ok. destruct b as [ns ty id]. policy_cases ns ty a; reflexivity.
  - intros r c. unfold authorize. case_match; [done|]. by intros [= <- <-].
Qed.

(** The principals without any capability are admitted exactly on the
    unguarded pairs: executing on a provider, a template, an infrastructure
    resource, an assertion or an advice, and anything at all on a catalog name
    whose type does not belong to the catalog.  Elsewhere every admitted
    principal holds a capability. *)
Theorem unguarded_actions (b : Brn) (a : Action) (p : str) :
  (authorize (AuthContext_new p bf_empty) b a = Ok tt <-> unguarded b a) /\
  (unguarded b a -> forall auth, authorize auth b a = Ok tt).
Proof.
  assert (Hh : forall i, ~ holds bf_empty i) by (intros i; unfold holds; by rewrite bf_empty_spec).
  destruct b as [ns ty id]. split; [|intros Hu auth]; rewrite authorize_ok; revert Hh; try revert Hu;
    policy_cases ns ty a; intuition congruence || firstorder congruence.
Qed.

(** Authorization is monotone: a principal that holds at least the
    capabilities of an admitted one is admitted. *)
Theorem authorize_monotone (auth auth' : AuthContext) (b : Brn) (a : Action) :
  bf_contains (capabilities auth') (capabilities auth) = true ->
  authorize auth b a = Ok tt -> authorize auth' b a = Ok tt.
Proof. rewrite !authorize_ok, !bf_contains_spec. naive_solver. Qed.
End PolicyFacts.

Lemma unguarded_actions_witness :
  @authorize N_bitflags (AuthContext_new (lit "nobody") 0) brn_pool Execute = Ok tt /\
  forall auth, @authorize N_bitflags auth brn_pool Execute = Ok tt.
Proof.
  split; [apply (@unguarded_actions N_bitflags brn_pool Execute (lit "nobody")); reflexivity|].
  apply (@unguarded_actions N_bitflags brn_pool Execute (lit "nobody")). reflexivity.
Defined.

Lemma authorize_monotone_witness :
  @authorize N_bitflags (AuthContext_new (lit "root") 7) (brn_project (lit "p")) Write = Ok tt.
Proof.
  apply (@authorize_monotone N_bitflags (AuthContext_new (lit "dev") 3)); reflexivity.
Defined.

Lemma authorize_table_witness :
  @authorize N_bitflags (AuthContext_new (lit "dev") 3) (brn_project (lit "p")) Write = Ok tt.
Proof. apply (@authorize_table N_bitflags). split; reflexivity. Defined.

Lemma parse_iff_to_string_witness :
  parse (lit " brn:sandbox:sandbox:s1 ") = Ok (brn_sandbox (lit "s1")) /\
  parse (lit "brn:catalog:doctor/linux:kvm") = Err (UnknownType (lit "doctor/linux")).
Proof.
  split.
  - apply (parse_iff_to_string (lit " brn:sandbox:sandbox:s1 ")).
    split; [reflexivity|]. split; [discriminate|]. by apply existsb_not_elem.
  - apply (proj2 (parse_iff_to_string (lit "brn:catalog:doctor/linux:kvm")) NsCatalog TyDoctor
      (lit "linux") (lit "kvm")); [by apply existsb_not_elem..|reflexivity].
Defined.
