(* ===== verification/Sandbox.v ===== *)
(** * The sandbox aggregate

    Models [bastion-domain/src/shared/error.rs] (the domain error type),
    [sandbox/value_objects.rs] (status, resources, network, filter) and
    [sandbox/entity.rs] (the aggregate root and its transitions).  An operation
    on [&mut self] takes the aggregate and returns its result with the new
    aggregate.  Time is the [chrono] crate's: the type of instants, the clock's
    reading, the comparison and the addition of milliseconds (which panics
    outside the calendar) are parameters with their documented laws. *)

From S2P Require Import Prelude.

(** ** Errors *)

Inductive DomainError :=
| NotFound (m : str)
| AlreadyExists (m : str)
| Timeout (m : str)
| UnsupportedOperation (m : str)
| ProviderUnavailable (m : str)
| ResourceExhausted (m : str)
| PermissionDenied (m : str)
| CommandFailed (exit_code : Z) (stderr : str)
| Config (m : str)
| Validation (m : str)
| Internal (m : str)
| PoisonedLock (m : str)
| WorkerNotConnected (m : str).

(** The [Display] of an error. *)
Definition show_error (e : DomainError) : str :=
  match e with
  | NotFound m => lit "Sandbox not found: " ++ m
  | AlreadyExists m => lit "Sandbox '" ++ m ++ lit "' already exists"
  | Timeout m => lit "Sandbox timeout: " ++ m
  | UnsupportedOperation m => lit "Unsupported operation: " ++ m
  | ProviderUnavailable m => lit "Provider '" ++ m ++ lit "' is unavailable"
  | ResourceExhausted m => lit "Resource exhausted: " ++ m
  | PermissionDenied m => lit "Permission denied: " ++ m
  | CommandFailed code err => lit "Command failed with exit code " ++ show_Z code ++ lit ": " ++ err
  | Config m => lit "Configuration error: " ++ m
  | Validation m => lit "Validation error: " ++ m
  | Internal m => lit "Internal error: " ++ m
  | PoisonedLock m => lit "Rate limiter lock poisoned: " ++ m
  | WorkerNotConnected m =>
      lit "Worker not connected for sandbox '" ++ m ++
      lit "'. Sandbox creation may have failed or worker could not connect to registry."
  end.

(** ** Value objects *)

Inductive SandboxStatus := Pending | Running | Paused | Stopped | Failed.

#[export] Instance SandboxStatus_eq_dec : EqDecision SandboxStatus.
Proof. solve_decision. Defined.

Definition status_code (s : SandboxStatus) : positive :=
  match s with Pending => 1 | Running => 2 | Paused => 3 | Stopped => 4 | Failed => 5 end.

Definition status_decode (p : positive) : option SandboxStatus :=
  match p with
  | 1%positive => Some Pending | 2%positive => Some Running | 3%positive => Some Paused
  | 4%positive => Some Stopped | 5%positive => Some Failed | _ => None
  end.

Lemma status_decode_code s : status_decode (status_code s) = Some s.
Proof. by destruct s. Qed.

#[export] Instance SandboxStatus_countable : Countable SandboxStatus :=
  {| encode := status_code; decode := status_decode; decode_encode := status_decode_code |}.

(** [Display] of a status; [Debug] prints the constructor. *)
Definition status_display (s : SandboxStatus) : str :=
  match s with
  | Pending => lit "pending"
  | Running => lit "running"
  | Paused => lit "paused"
  | Stopped => lit "stopped"
  | Failed => lit "failed"
  end.

Definition status_debug (s : SandboxStatus) : str :=
  match s with
  | Pending => lit "Pending"
  | Running => lit "Running"
  | Paused => lit "Paused"
  | Stopped => lit "Stopped"
  | Failed => lit "Failed"
  end.

Definition status_is_active (s : SandboxStatus) : bool :=
  match s with Running | Pending => true | _ => false end.

Definition is_terminal (s : SandboxStatus) : bool :=
  match s with Stopped | Failed => true | _ => false end.

Record ResourcesSpec := mkResources { cpu_count : Z; memory_mb : Z; disk_mb : Z }.

Definition ResourcesSpec_new (cpu memory disk : Z) : result DomainError ResourcesSpec :=
  if (cpu =? 0)%Z then Err (Validation (lit "cpu_count must be at least 1"))
  else Ok (mkResources cpu memory disk).

Definition ResourcesSpec_default : ResourcesSpec := mkResources 1 512 1024.

Record NetworkSpec := mkNetwork {
  allow_internet : bool;
  allowed_hosts : list str;
  denied_hosts : list str;
  expose_ports : bool;
  exposed_ports : list Z
}.

Definition NetworkSpec_default : NetworkSpec := mkNetwork true [] [] false [].

Record SandboxFilter := mkFilter {
  f_provider_name : option str;
  f_status : option SandboxStatus;
  f_limit : option Z;
  f_cursor : option str
}.

Definition SandboxFilter_default : SandboxFilter := mkFilter None None None None.

Inductive SandboxPurpose := AdHocTest | ProofOfConcept | E2eTest | RealTest | PipelineStage | Job.

Definition billing_tag (p : SandboxPurpose) : str :=
  match p with
  | AdHocTest => lit "adhoc"
  | ProofOfConcept => lit "poc"
  | E2eTest => lit "e2e"
  | RealTest => lit "realtest"
  | PipelineStage => lit "pipeline"
  | Job => lit "job"
  end.

(** ** Time *)

(** [chrono]: instants ordered along a line of nanoseconds; adding a
    [Duration::milliseconds] moves along it, and [None] is the panic. *)
Class Chrono := {
  DateTime : Type;
  nanos : DateTime -> Z;
  dt_gt : DateTime -> DateTime -> bool;
  add_millis : DateTime -> Z -> option DateTime;
  dt_gt_spec : forall a b, dt_gt a b = true <-> (nanos b < nanos a)%Z;
  add_millis_spec : forall t d t', add_millis t d = Some t' ->
    nanos t' = (nanos t + d * 1000000)%Z
}.

Lemma Zgtb_spec a b : (b <? a)%Z = true <-> (b < a)%Z.
Proof. apply Z.ltb_lt. Qed.

Lemma Some_plus_spec t d t' : Some (t + d * 1000000)%Z = Some t' -> t' = (t + d * 1000000)%Z.
Proof. congruence. Qed.

(** A calendar without bounds. *)
Definition Z_chrono : Chrono :=
  {| DateTime := Z; nanos t := t; dt_gt a b := (b <? a)%Z;
     add_millis t d := Some (t + d * 1000000)%Z;
     dt_gt_spec := Zgtb_spec; add_millis_spec := Some_plus_spec |}.

(** ** The aggregate *)

Section Entity.
Context `{CH : Chrono}.

Record Sandbox := mkSandbox {
  sb_id : str;
  template_id : str;
  provider_id : str;
  provider_instance_id : option str;
  status : SandboxStatus;
  created_at : DateTime;
  expires_at : option DateTime;
  resources : ResourcesSpec;
  network : NetworkSpec;
  metadata : gmap str str;
  project_id : option str;
  purpose : option SandboxPurpose
}.

Definition set_status (s : SandboxStatus) (sb : Sandbox) : Sandbox :=
  mkSandbox (sb_id sb) (template_id sb) (provider_id sb) (provider_instance_id sb) s
    (created_at sb) (expires_at sb) (resources sb) (network sb) (metadata sb)
    (project_id sb) (purpose sb).

Definition set_expires_at (e : option DateTime) (sb : Sandbox) : Sandbox :=
  mkSandbox (sb_id sb) (template_id sb) (provider_id sb) (provider_instance_id sb) (status sb)
    (created_at sb) e (resources sb) (network sb) (metadata sb) (project_id sb) (purpose sb).

(** [now] is the value of [Utc::now()] at the call. *)
Definition Sandbox_new (id template provider : str) (instance : option str)
    (res : ResourcesSpec) (net : NetworkSpec) (now : DateTime) : Sandbox :=
  mkSandbox id template provider instance Pending now None res net ∅ None None.

Definition new_with_project (id template provider : str) (instance : option str)
    (res : ResourcesSpec) (net : NetworkSpec) (project : str) (pur : SandboxPurpose)
    (now : DateTime) : Sandbox :=
  mkSandbox id template provider instance Pending now None res net ∅ (Some project) (Some pur).

Definition mark_running (sb : Sandbox) : result DomainError unit * Sandbox :=
  match status sb with
  | Pending | Paused => (Ok tt, set_status Running sb)
  | _ =>
      (Err (Validation (lit "Cannot transition sandbox " ++ sb_id sb ++ lit " from " ++
         status_debug (status sb) ++ lit " to Running")), sb)
  end.

Definition terminate (sb : Sandbox) : result DomainError unit * Sandbox :=
  match status sb with
  | Running | Pending | Paused => (Ok tt, set_status Stopped sb)
  | Stopped =>
      (Err (Validation (lit "Sandbox " ++ sb_id sb ++ lit " is already stopped")), sb)
  | Failed =>
      (Err (Validation (lit "Sandbox " ++ sb_id sb ++ lit " has failed, cannot terminate")), sb)
  end.

Definition mark_failed (sb : Sandbox) : Sandbox := set_status Failed sb.

Definition is_expired (now : DateTime) (sb : Sandbox) : bool :=
  match expires_at sb with Some e => dt_gt now e | None => false end.

(** [None] is the panic of the addition. *)
Definition set_timeout (timeout_ms : Z) (sb : Sandbox) : option Sandbox :=
  match add_millis (created_at sb) (as_i64 timeout_ms) with
  | Some e => Some (set_expires_at (Some e) sb)
  | None => None
  end.

Definition is_active (sb : Sandbox) : bool :=
  match status sb with Running | Pending => true | _ => false end.
End Entity.

(** ** Behaviour of the aggregate *)

Lemma as_i64_spec z :
  (0 <= z <= u64_max)%Z ->
  as_i64 z = if (z <=? i64_max)%Z then z else (z - 18446744073709551616)%Z.
Proof.
  unfold as_i64, i64_max, u64_max. intros Hz. case_match; bools.
  - rewrite Z.mod_small; lia.
  - rewrite (Z.mod_eq _ 18446744073709551616) by lia.
    assert ((z + 9223372036854775808) / 18446744073709551616 = 1)%Z as -> by nia. lia.
Qed.

Section EntityFacts.
Context `{CH : Chrono}.

(** A sandbox's life as a sequence of calls of its transition methods. *)
Inductive entity_op := CallMarkRunning | CallTerminate | CallMarkFailed.

Definition entity_step (op : entity_op) (sb : Sandbox) : Sandbox :=
  match op with
  | CallMarkRunning => snd (mark_running sb)
  | CallTerminate => snd (terminate sb)
  | CallMarkFailed => mark_failed sb
  end.

Definition run_entity (ops : list entity_op) (sb : Sandbox) : Sandbox :=
  fold_left (fun s op => entity_step op s) ops sb.

(** Of the transition methods only [mark_failed] can move a sandbox out
    of a terminal status: over any sequence of calls a stopped sandbox is
    stopped or failed at the end and never active again, a failed one stays
    failed, and a stopped sandbox cannot be terminated a second time. *)
Theorem entity_terminal (ops : list entity_op) (sb : Sandbox) :
  is_terminal (status sb) = true ->
  let sb' := run_entity ops sb in
  is_terminal (status sb') = true /\ is_active sb' = false /\
  (status sb = Failed -> status sb' = Failed) /\
  (status sb = Stopped -> status sb' = Stopped <-> CallMarkFailed ∉ ops) /\
  is_ok (fst (terminate sb')) = false /\ is_ok (fst (mark_running sb')) = false.
Proof.
  cbv zeta. revert sb. induction ops as [|op ops IH]; intros sb Ht.
  - simpl. unfold is_active, terminate, mark_running.
    destruct (status sb) eqn:E; try done; repeat split; try done; intros; apply not_elem_of_nil.
  - change (run_entity (op :: ops) sb) with (run_entity ops (entity_step op sb)).
    assert (Hs : status (entity_step op sb) =
      match op with CallMarkFailed => Failed | _ => status sb end).
    { destruct op; simpl; unfold mark_running, terminate; by destruct (status sb) eqn:E. }
    destruct (IH (entity_step op sb)) as (H1 & H2 & H3 & H4 & H5 & H6); [by rewrite Hs; destruct op|].
    rewrite Hs in H3, H4.
    split; [done|]. split; [done|]. split; [intros E; apply H3; by destruct op|].
    split; [|done]. intros E. rewrite not_elem_of_cons. destruct op.
    + rewrite H4 by done. naive_solver.
    + rewrite H4 by done. naive_solver.
    + rewrite H3 by done. naive_solver.
Qed.

(** A timeout set on a sandbox expires it strictly after [created_at]
    plus the timeout, as long as the timeout fits an [i64]; a larger one wraps
    to a negative duration, and the sandbox is expired from its creation on. *)
Theorem timeout_expiry (sb sb' : Sandbox) (t : Z) (now : DateTime) :
  (0 <= t <= u64_max)%Z ->
  set_timeout t sb = Some sb' ->
  status sb' = status sb /\
  if (t <=? i64_max)%Z
  then is_expired now sb' = true <-> (nanos (created_at sb) + t * 1000000 < nanos now)%Z
  else (nanos (created_at sb) <= nanos now)%Z -> is_expired now sb' = true.
Proof.
  intros Ht. unfold set_timeout. destruct (add_millis _ _) as [e|] eqn:E; [|done].
  intros [= <-]. split; [done|]. apply add_millis_spec in E. rewrite as_i64_spec in E by done.
  unfold is_expired. simpl. unfold u64_max in Ht. case_match; bools.
  - rewrite dt_gt_spec, E. done.
  - intros Hn. apply dt_gt_spec. lia.
Qed.
End EntityFacts.

Definition sample_sandbox (now : Z) : @Sandbox Z_chrono :=
  @Sandbox_new Z_chrono (lit "s1") (lit "rust") (lit "podman") None
    ResourcesSpec_default NetworkSpec_default now.

Lemma entity_terminal_witness :
  status (run_entity [CallMarkRunning; CallTerminate; CallMarkRunning]
            (set_status Stopped (sample_sandbox 0))) = Stopped.
Proof.
  apply (entity_terminal [CallMarkRunning; CallTerminate; CallMarkRunning]
           (set_status Stopped (sample_sandbox 0))); [reflexivity|reflexivity|].
  rewrite !not_elem_of_cons. repeat split; try discriminate. apply not_elem_of_nil.
Defined.

Lemma timeout_expiry_witness :
  @is_expired Z_chrono 5%Z (@set_expires_at Z_chrono (Some (-1000000)%Z) (sample_sandbox 0)) = true.
Proof.
  apply (@timeout_expiry Z_chrono (sample_sandbox 0) _ 18446744073709551615 5%Z);
    [vm_compute; split; discriminate|reflexivity|vm_compute; discriminate].
Defined.
