(* ===== verification/Command.v ===== *)
(** * Commands, their output and secrets

    The value types of [bastion-domain/src/execution] ([command.rs],
    [stream.rs]), of [file_ops/entry.rs] and of [secret.rs], which the gateway,
    the providers and the enrichment share; and the two resolvers of
    [bastion-infrastructure/src/secret].  A port that resolves secrets is the
    class [SecretResolver], over the world it may consult. *)

From S2P Require Import Prelude Utf8 Sandbox.

(** ** Secrets *)

Record SecretValue := mkSecretValue { sv_value : str; sv_source : str }.

Inductive SecretSource := SecretRef (key : str) | SecretInline (value : str).

Definition as_ref_key (s : SecretSource) : option str :=
  match s with SecretRef k => Some k | SecretInline _ => None end.
Definition is_inline (s : SecretSource) : bool :=
  match s with SecretInline _ => true | SecretRef _ => false end.

Class SecretResolver (W : Type) := {
  resolve_secret : str -> W -> result DomainError SecretValue * W
}.

Definition SECRET_REF_PREFIX : str := lit "${{secret:".
Definition SECRET_REF_SUFFIX : str := lit "}}".

Definition ends_with (suf s : str) : bool := starts_with (rev suf) (rev s).

(** The outer [None] is the panic of the slice. *)
Definition parse_secret_ref (s : str) : option (option str) :=
  if starts_with SECRET_REF_PREFIX s && ends_with SECRET_REF_SUFFIX s then
    match slice s (str_len SECRET_REF_PREFIX) (str_len s - str_len SECRET_REF_SUFFIX) with
    | Some inner => Some (Some inner)
    | None => None
    end
  else Some None.

(** [EnvSecretResolver]: the world is the environment of the process. *)
Definition env_resolve (key : str) (env : gmap str str) : result DomainError SecretValue * gmap str str :=
  (match env !! key with
   | Some v => Ok (mkSecretValue v (lit "env:" ++ key))
   | None => Err (Config (lit "Secret '" ++ key ++ lit "' not found in environment"))
   end, env).

(** [NoopSecretResolver]. *)
Definition noop_resolve {W} (key : str) (w : W) : result DomainError SecretValue * W :=
  (Ok (mkSecretValue key (lit "noop")), w).

(** ** Commands *)

Record CommandSpec := mkCommandSpec {
  cs_command : str; cs_args : list str; cs_working_dir : option str; cs_env_vars : gmap str str;
  cs_timeout_ms : option Z; cs_secrets : gmap str SecretSource
}.

Definition CommandSpec_new (command : str) : CommandSpec := mkCommandSpec command [] None ∅ None ∅.

Definition CommandSpec_try_new (command : str) : result DomainError CommandSpec :=
  match command with
  | [] => Err (Validation (lit "Command cannot be empty"))
  | _ => Ok (CommandSpec_new command)
  end.

Definition with_args (args : list str) (s : CommandSpec) : CommandSpec :=
  mkCommandSpec (cs_command s) args (cs_working_dir s) (cs_env_vars s) (cs_timeout_ms s) (cs_secrets s).
Definition with_working_dir (dir : str) (s : CommandSpec) : CommandSpec :=
  mkCommandSpec (cs_command s) (cs_args s) (Some dir) (cs_env_vars s) (cs_timeout_ms s) (cs_secrets s).
Definition with_env (key value : str) (s : CommandSpec) : CommandSpec :=
  mkCommandSpec (cs_command s) (cs_args s) (cs_working_dir s) (<[key := value]> (cs_env_vars s))
    (cs_timeout_ms s) (cs_secrets s).
Definition with_timeout (ms : Z) (s : CommandSpec) : CommandSpec :=
  mkCommandSpec (cs_command s) (cs_args s) (cs_working_dir s) (cs_env_vars s) (Some ms) (cs_secrets s).

Definition is_no_timeout (s : CommandSpec) : bool := bool_decide (cs_timeout_ms s = Some 0%Z).

Record CommandResult := mkCommandResult {
  cr_exit_code : Z; cr_stdout : bytes; cr_stderr : bytes; cr_duration_ms : Z; cr_timed_out : bool
}.

Definition CommandResult_success (stdout : bytes) : CommandResult := mkCommandResult 0 stdout [] 0 false.
Definition CommandResult_failure (exit_code : Z) (stderr : bytes) : CommandResult :=
  mkCommandResult exit_code [] stderr 0 false.
Definition is_success (r : CommandResult) : bool := (cr_exit_code r =? 0)%Z.

(** ** Streamed output *)

Inductive ChunkType := CtStdout | CtStderr | CtExitCode | CtProgress | CtError.
Record CommandChunk := mkChunk { chunk_type : ChunkType; chunk_data : bytes; is_final : bool }.

(** [i32::to_le_bytes] and [i32::from_le_bytes] of four bytes. *)
Definition i32_to_le_bytes (z : Z) : bytes :=
  let u := Z.to_N (as_u32 z) in
  [N.land u 0xff; N.land (N.shiftr u 8) 0xff; N.land (N.shiftr u 16) 0xff;
   N.land (N.shiftr u 24) 0xff].

Definition i32_from_le_bytes (bs : bytes) : Z :=
  as_i32 (Z.of_N (fold_right (fun b acc => (b + 256 * acc)%N) 0%N bs)).

Definition chunk_stdout (d : bytes) : CommandChunk := mkChunk CtStdout d false.
Definition chunk_stderr (d : bytes) : CommandChunk := mkChunk CtStderr d false.
Definition chunk_exit_code (code : Z) : CommandChunk := mkChunk CtExitCode (i32_to_le_bytes code) true.
Definition chunk_progress (percent : byte) : CommandChunk := mkChunk CtProgress [percent] false.
Definition chunk_error (message : bytes) : CommandChunk := mkChunk CtError message true.

(** ** Files *)

(** An entry of a listing, over the type of a time stamp. *)
Record FileEntry (DT : Type) := mkFileEntry {
  fe_path : str; fe_is_directory : bool; fe_size_bytes : Z; fe_modified_at : option DT;
  fe_permissions : str
}.
Arguments mkFileEntry {DT}.
Arguments fe_path {DT}.
Arguments fe_is_directory {DT}.
Arguments fe_size_bytes {DT}.
Arguments fe_modified_at {DT}.
Arguments fe_permissions {DT}.

(** ** Properties *)

Lemma le_bytes_digits u :
  N.land u 0xff = (u mod 256)%N /\ N.land (N.shiftr u 8) 0xff = (u / 256 mod 256)%N /\
  N.land (N.shiftr u 16) 0xff = (u / 65536 mod 256)%N /\
  N.land (N.shiftr u 24) 0xff = (u / 16777216 mod 256)%N.
Proof.
  change 0xff%N with (N.ones 8). rewrite !N.land_ones, !N.shiftr_div_pow2. done.
Qed.

Lemma i32_le_roundtrip z : (i32_min <= z <= i32_max)%Z -> i32_from_le_bytes (i32_to_le_bytes z) = z.
Proof.
  unfold i32_min, i32_max. intros Hz. unfold i32_from_le_bytes, i32_to_le_bytes.
  set (u := Z.to_N (as_u32 z)). destruct (le_bytes_digits u) as (-> & -> & -> & ->).
  assert (Hu : (u < 4294967296)%N).
  { unfold u, as_u32. pose proof (Z.mod_pos_bound z 4294967296). lia. }
  assert (E : fold_right (fun b acc => (b + 256 * acc)%N) 0%N
    [u mod 256; u / 256 mod 256; u / 65536 mod 256; u / 16777216 mod 256]%N = u).
  { cbn [fold_right]. change 65536%N with (256 * 256)%N. change 16777216%N with (256 * 256 * 256)%N.
    rewrite <- !N.Div0.div_div.
    pose proof (N.div_mod u 256). pose proof (N.div_mod (u / 256) 256).
    pose proof (N.div_mod (u / 256 / 256) 256).
    rewrite (N.mod_small (u / 256 / 256 / 256)); [lia|].
    rewrite !N.Div0.div_div. apply N.Div0.div_lt_upper_bound. lia. }
  rewrite E. unfold u, as_u32, as_i32. rewrite Z2N.id by (apply Z.mod_pos_bound; lia).
  destruct (Z.lt_ge_cases z 0).
  - replace (z mod 4294967296)%Z with (z + 4294967296)%Z
      by (apply (Z.mod_unique _ _ (-1)); lia).
    replace (z + 4294967296 + 2147483648)%Z with (z + 2147483648 + 1 * 4294967296)%Z by lia.
    rewrite Z.mod_add by lia. rewrite Z.mod_small; lia.
  - rewrite (Z.mod_small z) by lia. rewrite Z.mod_small; lia.
Qed.

Lemma slice_middle a b c : slice (a ++ b ++ c) (str_len a) (str_len a + str_len b) = Some b.
Proof.
  unfold slice. rewrite (proj2 (N.ltb_ge _ _)) by lia.
  rewrite app_assoc, <- str_len_app, split_at_app, split_at_app. done.
Qed.

Lemma starts_ends pre suf s :
  starts_with pre s = true -> ends_with suf s = true -> length pre + length suf <= length s ->
  exists k, s = pre ++ k ++ suf.
Proof.
  unfold ends_with. rewrite !starts_with_spec. intros [t ->] [u Hu] Hl.
  assert (E : pre ++ t = rev u ++ suf).
  { rewrite <- (rev_involutive (pre ++ t)), Hu, rev_app_distr. by rewrite rev_involutive. }
  rewrite E, !length_app in Hl. assert (Hlen : length pre <= length (rev u)) by lia.
  exists (drop (length pre) (rev u)). rewrite E, app_assoc. f_equal.
  rewrite <- (take_drop (length pre) (rev u)) at 1. f_equal.
  transitivity (take (length pre) (rev u ++ suf)); [by rewrite take_app_le|].
  rewrite <- E, take_app_length. done.
Qed.

Lemma parse_reference (k : str) :
  parse_secret_ref (SECRET_REF_PREFIX ++ k ++ SECRET_REF_SUFFIX) = Some (Some k).
Proof.
  unfold parse_secret_ref. rewrite starts_with_app. unfold ends_with.
  rewrite app_assoc, rev_app_distr, starts_with_app, <- app_assoc. cbn [andb].
  rewrite !str_len_app.
  replace (str_len SECRET_REF_PREFIX + (str_len k + str_len SECRET_REF_SUFFIX) -
    str_len SECRET_REF_SUFFIX)%N with (str_len SECRET_REF_PREFIX + str_len k)%N by lia.
  by rewrite slice_middle.
Qed.

Lemma parse_secret_ref_cases (s : str) :
  (exists k, s = SECRET_REF_PREFIX ++ k ++ SECRET_REF_SUFFIX /\ parse_secret_ref s = Some (Some k)) \/
  parse_secret_ref s = Some None.
Proof.
  destruct (starts_with SECRET_REF_PREFIX s && ends_with SECRET_REF_SUFFIX s) eqn:E.
  2:{ right. unfold parse_secret_ref. by rewrite E. }
  left. apply andb_true_iff in E as [E1 E2].
  destruct (starts_ends SECRET_REF_PREFIX SECRET_REF_SUFFIX s E1 E2) as [k ->].
  { apply starts_with_spec in E1 as [t ->]. rewrite length_app. apply Nat.add_le_mono_l.
    destruct t as [|x [|y t]]; [done| |simpl; lia].
    exfalso. revert E2. unfold ends_with. rewrite rev_app_distr. simpl. by rewrite andb_false_r. }
  exists k. split; [done|]. apply parse_reference.
Qed.

(** Parsing a reference to a secret never slices out of bounds, and it accepts
    exactly the texts that are a key between the two delimiters, which is the
    key it returns: the short text of a prefix that runs into the suffix is not
    taken for a reference. *)
Theorem parse_secret_ref_iff (s k : str) :
  parse_secret_ref s <> None /\
  (parse_secret_ref s = Some (Some k) <-> s = SECRET_REF_PREFIX ++ k ++ SECRET_REF_SUFFIX).
Proof.
  destruct (parse_secret_ref_cases s) as [(k' & -> & E)|E]; rewrite E; (split; [done|]; split).
  - by intros [= ->].
  - intros Hs. apply app_inv_head in Hs. apply app_inv_tail in Hs. by subst.
  - done.
  - intros ->. by rewrite parse_reference in E.
Qed.

Example a_secret : parse_secret_ref (lit "${{secret:TOKEN}}") = Some (Some (lit "TOKEN")).
Proof. reflexivity. Qed.
