(* ===== verification/SandboxFsm.v ===== *)
(** * The sandbox state machine

    Models [bastion-domain/src/provider/state_machine.rs], whose code
    [bastion-infrastructure/src/provider/state_machine.rs] repeats: the shared
    table from sandbox ids to status, opaque payload and registration time.

    The table is a [DashMap]; every method makes a single access to the table
    or holds the entry's write guard from its first access to its last, so a
    method is one atomic step on a finite map and a concurrent execution is an
    interleaving of such steps ([fsm_run]).  Payloads are [Box<dyn Any>]: values
    tagged with their type, which [downcast_ref] compares with the type asked
    for.  The readings of [Instant::now] are arguments. *)

From S2P Require Import Prelude Sandbox.
From stdpp Require Import gmap.

Section Fsm.
(** The types a payload can have, and the instants of the monotonic clock. *)
Context {Ty : Type} `{EqDecision Ty} (El : Ty -> Type) {Instant : Type}.

Definition AnyBox : Type := { t : Ty & El t }.

(** [<dyn Any>::downcast_ref::<T>]. *)
Definition downcast_ref (t : Ty) (b : AnyBox) : option (El t) :=
  match decide (projT1 b = t) with
  | left e => Some (eq_rect (projT1 b) El (projT2 b) t e)
  | right _ => None
  end.

Record StateEntry := mkEntry {
  e_status : SandboxStatus;
  payload : option AnyBox;
  registered_at : Instant
}.

(** The field [states]. *)
Abbreviation SandboxStateMachine := (gmap (list N) StateEntry).

Definition fsm_new : SandboxStateMachine := ∅.

Definition register (id : str) (now : Instant) (states : SandboxStateMachine) :
    result DomainError unit * SandboxStateMachine :=
  let entry := mkEntry Pending None now in
  let states' := <[id := entry]> states in
  match states !! id with
  | Some _ => (Err (AlreadyExists (lit "Sandbox already registered")), states')
  | None => (Ok tt, states')
  end.

Definition is_valid_transition (from to : SandboxStatus) : bool :=
  match from, to with
  | Pending, Running | Pending, Stopped | Pending, Failed
  | Running, Paused | Running, Stopped | Running, Failed
  | Paused, Running | Paused, Stopped => true
  | _, _ => false
  end.

Definition not_found (id : str) : DomainError :=
  NotFound (lit "Sandbox " ++ id ++ lit " not found").

Definition transition (id : str) (new_status : SandboxStatus) (states : SandboxStateMachine) :
    result DomainError SandboxStatus * SandboxStateMachine :=
  match states !! id with
  | None => (Err (not_found id), states)
  | Some entry =>
      let old_status := e_status entry in
      if negb (is_valid_transition old_status new_status) then
        (Err (Validation (lit "Invalid transition from " ++ status_debug old_status ++
           lit " to " ++ status_debug new_status)), states)
      else
        (Ok old_status,
         <[id := mkEntry new_status (payload entry) (registered_at entry)]> states)
  end.

Definition get_state (id : str) (states : SandboxStateMachine) : option SandboxStatus :=
  option_map e_status (states !! id).

Definition attach_payload (t : Ty) (id : str) (v : El t) (states : SandboxStateMachine) :
    result DomainError unit * SandboxStateMachine :=
  match states !! id with
  | None => (Err (not_found id), states)
  | Some entry =>
      (Ok tt, <[id := mkEntry (e_status entry) (Some (existT t v)) (registered_at entry)]> states)
  end.

Definition get_payload (t : Ty) (id : str) (states : SandboxStateMachine) : option (El t) :=
  match states !! id with
  | None => None
  | Some entry =>
      match payload entry with
      | None => None
      | Some b => downcast_ref t b
      end
  end.

Definition remove (id : str) (states : SandboxStateMachine) :
    option AnyBox * SandboxStateMachine :=
  (match states !! id with Some entry => payload entry | None => None end,
   delete id states).

(** The order of the iteration is the map's. *)
Definition list_active (states : SandboxStateMachine) : list str :=
  map fst (map_to_list states).

Definition bump (s : SandboxStatus) (counts : gmap SandboxStatus nat) : gmap SandboxStatus nat :=
  <[s := S (default 0 (counts !! s))]> counts.

Definition count_by_status (states : SandboxStateMachine) : gmap SandboxStatus nat :=
  fold_left (fun counts kv => bump (e_status (snd kv)) counts) (map_to_list states) ∅.

(** ** Executions *)

(** A call of one of the methods on one sandbox. *)
Inductive fsm_op :=
| OpRegister (id : str) (now : Instant)
| OpTransition (id : str) (s : SandboxStatus)
| OpAttach (id : str) (b : AnyBox)
| OpRemove (id : str)
| OpGetState (id : str)
| OpGetPayload (id : str) (t : Ty).

(** What a call answers; a payload comes with its type. *)
Inductive fsm_answer :=
| ADone (r : result DomainError unit)
| APrevious (r : result DomainError SandboxStatus)
| APayload (b : option AnyBox)
| AState (s : option SandboxStatus).

Definition fsm_call (op : fsm_op) (m : SandboxStateMachine) : fsm_answer * SandboxStateMachine :=
  match op with
  | OpRegister id now => let '(r, m) := register id now m in (ADone r, m)
  | OpTransition id s => let '(r, m) := transition id s m in (APrevious r, m)
  | OpAttach id b => let '(r, m) := attach_payload (projT1 b) id (projT2 b) m in (ADone r, m)
  | OpRemove id => let '(b, m) := remove id m in (APayload b, m)
  | OpGetState id => (AState (get_state id m), m)
  | OpGetPayload id t => (APayload (option_map (existT t) (get_payload t id m)), m)
  end.

Definition fsm_step (op : fsm_op) (m : SandboxStateMachine) : SandboxStateMachine :=
  snd (fsm_call op m).

Definition fsm_run (ops : list fsm_op) (m : SandboxStateMachine) : SandboxStateMachine :=
  fold_left (fun m op => fsm_step op m) ops m.

(** The calls that restart or end the life of [id] in the table. *)
Definition resets (id : str) (op : fsm_op) : bool :=
  match op with
  | OpRegister id' _ | OpRemove id' => bool_decide (id' = id)
  | _ => false
  end.

Definition op_id (op : fsm_op) : str :=
  match op with
  | OpRegister id _ | OpTransition id _ | OpAttach id _ | OpRemove id | OpGetState id
  | OpGetPayload id _ => id
  end.

(** ** The contract

    The moves that the documentation of the type lists, and for each call the
    answers it can give and the table it then leaves, as a relation: one rule
    per call and outcome, and every table that is not written out in full is
    the one before the call. *)

Inductive documented : SandboxStatus -> SandboxStatus -> Prop :=
| after_create : documented Pending Running
| terminate_before_start : documented Pending Stopped
| create_failure : documented Pending Failed
| normal_terminate : documented Running Stopped
| pause : documented Running Paused
| unrecoverable_error : documented Running Failed
| resume : documented Paused Running
| terminate_from_paused : documented Paused Stopped.

Inductive contract : fsm_op -> fsm_answer -> SandboxStateMachine -> SandboxStateMachine -> Prop :=
| c_register id now m :
    m !! id = None ->
    contract (OpRegister id now) (ADone (Ok tt)) m (<[id := mkEntry Pending None now]> m)
| c_register_again id now m e :
    m !! id = Some e ->
    contract (OpRegister id now) (ADone (Err (AlreadyExists (lit "Sandbox already registered"))))
      m (<[id := mkEntry Pending None now]> m)
| c_move id m a b p at_ :
    m !! id = Some (mkEntry a p at_) -> documented a b ->
    contract (OpTransition id b) (APrevious (Ok a)) m (<[id := mkEntry b p at_]> m)
| c_no_move id m a b p at_ :
    m !! id = Some (mkEntry a p at_) -> ~ documented a b ->
    contract (OpTransition id b) (APrevious (Err (Validation (lit "Invalid transition from " ++
      status_debug a ++ lit " to " ++ status_debug b)))) m m
| c_move_unknown id m b :
    m !! id = None -> contract (OpTransition id b) (APrevious (Err (not_found id))) m m
| c_attach id m a p at_ v :
    m !! id = Some (mkEntry a p at_) ->
    contract (OpAttach id v) (ADone (Ok tt)) m (<[id := mkEntry a (Some v) at_]> m)
| c_attach_unknown id m v :
    m !! id = None -> contract (OpAttach id v) (ADone (Err (not_found id))) m m
| c_remove id m e :
    m !! id = Some e -> contract (OpRemove id) (APayload (payload e)) m (delete id m)
| c_remove_unknown id m :
    m !! id = None -> contract (OpRemove id) (APayload None) m m
| c_state id m e :
    m !! id = Some e -> contract (OpGetState id) (AState (Some (e_status e))) m m
| c_state_unknown id m :
    m !! id = None -> contract (OpGetState id) (AState None) m m
| c_payload id m e v :
    m !! id = Some e -> payload e = Some v ->
    contract (OpGetPayload id (projT1 v)) (APayload (Some v)) m m
| c_payload_of_other_type id m e v t :
    m !! id = Some e -> payload e = Some v -> projT1 v ≠ t ->
    contract (OpGetPayload id t) (APayload None) m m
| c_no_payload id m e t :
    m !! id = Some e -> payload e = None -> contract (OpGetPayload id t) (APayload None) m m
| c_payload_unknown id m t :
    m !! id = None -> contract (OpGetPayload id t) (APayload None) m m.

Lemma valid_documented a b : is_valid_transition a b = true <-> documented a b.
Proof. split; [by destruct a, b; try discriminate; constructor|by destruct 1]. Qed.

Lemma invalid_undocumented a b : is_valid_transition a b = false <-> ~ documented a b.
Proof. rewrite <- valid_documented. by destruct (is_valid_transition a b). Qed.

Lemma downcast_own (v : AnyBox) : downcast_ref (projT1 v) v = Some (projT2 v).
Proof.
  unfold downcast_ref. destruct (decide (projT1 v = projT1 v)) as [e|]; [|done].
  by rewrite (proof_irrel e eq_refl).
Qed.

Lemma downcast_foreign t (v : AnyBox) : projT1 v ≠ t -> downcast_ref t v = None.
Proof. intros. unfold downcast_ref. by destruct (decide (projT1 v = t)). Qed.

(** What a call does is allowed. *)
Lemma call_in_contract op m : contract op (fst (fsm_call op m)) m (snd (fsm_call op m)).
Proof.
  destruct op as [id now|id s|id b|id|id|id t]; cbn [fsm_call].
  - unfold register. destruct (m !! id) eqn:E; [by eapply c_register_again|by apply c_register].
  - unfold transition. destruct (m !! id) as [[a p at_]|] eqn:E; [|by apply c_move_unknown].
    cbn [e_status payload registered_at]. destruct (is_valid_transition a s) eqn:V; cbn [negb fst snd].
    + apply c_move; [done|by apply valid_documented].
    + eapply c_no_move; [done|by apply invalid_undocumented].
  - unfold attach_payload. destruct (m !! id) as [[a p at_]|] eqn:E; [|by apply c_attach_unknown].
    destruct b as [t v]. by eapply c_attach.
  - unfold remove. destruct (m !! id) as [e|] eqn:E; cbn [fst snd]; [by apply c_remove|].
    rewrite delete_id by done. by apply c_remove_unknown.
  - unfold get_state. destruct (m !! id) as [e|] eqn:E; [by apply c_state|by apply c_state_unknown].
  - unfold get_payload. destruct (m !! id) as [e|] eqn:E; [|by apply c_payload_unknown].
    destruct (payload e) as [v|] eqn:Ep; [|by eapply c_no_payload].
    destruct (decide (projT1 v = t)) as [<-|Ht].
    + rewrite downcast_own. simpl. rewrite <- sigT_eta. by eapply c_payload.
    + rewrite downcast_foreign by done. by eapply c_payload_of_other_type.
Qed.

(** The contract allows one outcome. *)
Lemma contract_functional op r m m' : contract op r m m' -> fsm_call op m = (r, m').
Proof.
  destruct 1 as [id now m E|id now m e E|id m a b p at_ E D|id m a b p at_ E D|id m b E
    |id m a p at_ v E|id m v E|id m e E|id m E|id m e E|id m E|id m e v E Ep|id m e v t E Ep Ht
    |id m e t E Ep|id m t E]; cbn [fsm_call];
    unfold register, transition, attach_payload, remove, get_state, get_payload; rewrite E; try done.
  - apply valid_documented in D. cbn [e_status]. by rewrite D.
  - apply invalid_undocumented in D. cbn [e_status]. by rewrite D.
  - cbn [e_status registered_at]. by destruct v.
  - by rewrite delete_id.
  - rewrite Ep, downcast_own. simpl. by rewrite <- sigT_eta.
  - by rewrite Ep, downcast_foreign.
  - by rewrite Ep.
Qed.

(** C5. Refinement: a call of the machine on one sandbox does exactly what the
    contract of that call allows.  A registration of a new id enters it as
    pending; one of an id already there is refused with [AlreadyExists] and
    nevertheless replaces the entry by a pending one without payload.  A
    transition answers the previous status and changes the status only, when
    the move is one of those documented; otherwise it is refused with
    [Validation], or [NotFound] for an unknown id, and changes nothing.
    Attaching replaces the payload of a registered id and nothing else; removing
    gives the payload back and deletes the id; reading changes nothing, and a
    payload is answered at its own type only. *)
Theorem fsm_refines (op : fsm_op) (r : fsm_answer) (m m' : SandboxStateMachine) :
  fsm_call op m = (r, m') <-> contract op r m m'.
Proof.
  split; [|apply contract_functional]. intros E. pose proof (call_in_contract op m) as H.
  by rewrite E in H.
Qed.

Lemma step_other id op m : op_id op ≠ id -> fsm_step op m !! id = m !! id.
Proof.
  unfold fsm_step. destruct op as [id' now|id' s|id' b|id'|id'|id' t]; cbn [fsm_call op_id]; intros Hn.
  - unfold register. by destruct (m !! id'); simpl; rewrite lookup_insert_ne.
  - unfold transition. destruct (m !! id') as [e|]; [|done].
    destruct (is_valid_transition _ _); simpl; [|done]. by rewrite lookup_insert_ne.
  - unfold attach_payload. destruct (m !! id'); simpl; [|done]. by rewrite lookup_insert_ne.
  - simpl. by rewrite lookup_delete_ne.
  - done.
  - done.
Qed.

Lemma step_status id op m a :
  resets id op = false -> get_state id m = Some a ->
  exists b, get_state id (fsm_step op m) = Some b /\ (b = a \/ documented a b).
Proof.
  intros Hr Ha. destruct (decide (op_id op = id)) as [E|E].
  - pose proof (call_in_contract op m) as H. fold (fsm_step op m) in H.
    unfold get_state in Ha |- *. destruct (m !! id) as [e|] eqn:Em; [|done]. injection Ha as <-.
    destruct H; cbn [op_id] in E; subst; cbn [resets] in Hr;
      try (by rewrite bool_decide_true in Hr); try congruence;
      try (exists (e_status e); rewrite Em; by auto).
    all: match goal with K : ?m !! ?i = Some (mkEntry ?a _ _) |- _ => rewrite K in Em; injection Em as <- end;
      rewrite lookup_insert_eq; simpl; eauto.
  - exists a. unfold get_state in *. rewrite step_other by done. auto.
Qed.

Lemma terminal_stuck a b : is_terminal a = true -> ~ documented a b.
Proof. by destruct 2. Qed.

(** Over any interleaving of calls that neither registers nor removes a
    sandbox, its status follows a path of documented moves; hence a stopped
    or failed sandbox keeps its status for good. *)
Theorem status_path (id : str) (ops : list fsm_op) (m : SandboxStateMachine) (a : SandboxStatus) :
  Forall (fun op => resets id op = false) ops ->
  get_state id m = Some a ->
  exists b, get_state id (fsm_run ops m) = Some b /\ rtc documented a b /\
    (is_terminal a = true -> b = a).
Proof.
  intros Hops. revert m a. induction Hops as [|op ops Hop Hops IH]; intros m a Ha.
  - exists a. split; [done|]. split; [constructor|done].
  - destruct (step_status id op m a Hop Ha) as (b & Hb & Hs).
    destruct (IH (fsm_step op m) b Hb) as (c & Hc & Hr & Ht). exists c. split; [exact Hc|].
    destruct Hs as [->|Hs]; [done|]. split; [by eapply rtc_l|].
    intros Hta. by apply terminal_stuck in Hs.
Qed.

(** A second registration is refused with [AlreadyExists], but only after
    it has overwritten the entry: whatever its status was, even a terminal one,
    the sandbox is pending again, its payload is lost to [get_payload] and to
    [remove], and it can be started once more. *)
Theorem register_overwrites (id : str) (m : SandboxStateMachine) (now : Instant) (s : SandboxStatus) :
  get_state id m = Some s ->
  let '(r, m') := register id now m in
  r = Err (AlreadyExists (lit "Sandbox already registered")) /\
  get_state id m' = Some Pending /\
  (forall t, get_payload t id m' = None) /\ fst (remove id m') = None /\
  fst (transition id Running m') = Ok Pending.
Proof.
  unfold get_state, register. destruct (m !! id) as [e|]; [|done]. intros _.
  unfold get_payload, remove, transition. simpl. by rewrite lookup_insert_eq.
Qed.

Lemma downcast_same t (v : El t) : downcast_ref t (existT t v) = Some v.
Proof.
  unfold downcast_ref. simpl. destruct (decide (t = t)) as [e|]; [|done].
  rewrite (proof_irrel e eq_refl). done.
Qed.

Lemma downcast_other t t' (v : El t') : t' ≠ t -> downcast_ref t (existT t' v) = None.
Proof. intros. unfold downcast_ref. simpl. by destruct (decide (t' = t)). Qed.

(** A payload attached to a registered sandbox is what [get_payload]
    returns at its type and what [remove] gives back, and [get_payload] has no
    answer at another type; it survives every later valid or invalid
    transition of any sandbox. *)
Theorem payload_roundtrip (id : str) (m : SandboxStateMachine) (t : Ty) (v : El t)
    (moves : list (str * SandboxStatus)) :
  get_state id m ≠ None ->
  let m' := fsm_run (map (fun mv => OpTransition (fst mv) (snd mv)) moves)
              (snd (attach_payload t id v m)) in
  fst (attach_payload t id v m) = Ok tt /\
  get_payload t id m' = Some v /\ (forall t', t' ≠ t -> get_payload t' id m' = None) /\
  fst (remove id m') = Some (existT t v) /\ get_state id (snd (remove id m')) = None.
Proof.
  unfold get_state, attach_payload. destruct (m !! id) as [e|] eqn:E; [|done]. intros _.
  cbv zeta. cbn [fst snd].
  set (m0 := <[id := _]> m).
  assert (Hm : exists s r, m0 !! id = Some (mkEntry s (Some (existT t v)) r)).
  { unfold m0. rewrite lookup_insert_eq. eauto. }
  revert Hm. generalize m0 as m1. clear. induction moves as [|[j s] moves IH]; intros m1 Hm.
  - destruct Hm as (s & r & Hm). simpl. unfold get_payload, remove. rewrite Hm. simpl.
    split; [done|]. split; [apply downcast_same|]. split; [|by rewrite lookup_delete_eq].
    intros. by apply downcast_other.
  - cbn [map]. change (fsm_run (?op :: ?ops) m1) with (fsm_run ops (fsm_step op m1)).
    apply IH. destruct Hm as (s0 & r & Hm). unfold fsm_step. cbn [fst snd fsm_call].
    destruct (decide (j = id)) as [->|Hj].
    + unfold transition. rewrite Hm. cbn [e_status payload registered_at].
      destruct (is_valid_transition s0 s); simpl; [|eauto]. rewrite lookup_insert_eq. eauto.
    + exists s0, r. rewrite <- Hm. by apply (step_other id (OpTransition j s)).
Qed.

(** The number of the statuses in a list that are [s]. *)
Definition occurrences (s : SandboxStatus) (l : list (str * StateEntry)) : nat :=
  length (List.filter (fun kv => bool_decide (e_status (snd kv) = s)) l).

Lemma count_fold s l counts :
  default 0 (fold_left (fun c kv => bump (e_status (snd kv)) c) l counts !! s) =
  default 0 (counts !! s) + occurrences s l.
Proof.
  revert counts. induction l as [|[k e] l IH]; intros counts; [unfold occurrences; simpl; lia|].
  simpl. rewrite IH. unfold bump, occurrences. simpl.
  destruct (decide (e_status e = s)) as [->|Hs].
  - rewrite lookup_insert_eq, bool_decide_true by done. simpl. lia.
  - rewrite lookup_insert_ne, bool_decide_false by done. lia.
Qed.

(** [count_by_status] counts, for every status, the listed ids that
    [get_state] reports in it; and [list_active] lists each registered id once,
    terminal ones included. *)
Theorem count_by_status_spec (m : SandboxStateMachine) (s : SandboxStatus) :
  default 0 (count_by_status m !! s) =
    length (List.filter (fun id => bool_decide (get_state id m = Some s)) (list_active m)) /\
  NoDup (list_active m) /\
  (forall id, id ∈ list_active m <-> get_state id m ≠ None).
Proof.
  split; [|split].
  - unfold count_by_status. rewrite count_fold, lookup_empty. simpl. unfold occurrences, list_active.
    assert (Hl : Forall (fun kv => m !! fst kv = Some (snd kv)) (map_to_list m)).
    { apply Forall_forall. intros [k e] Hin. by apply elem_of_map_to_list in Hin. }
    revert Hl. generalize (map_to_list m) as l. induction 1 as [|[k e] l Hk Hl IH]; [done|].
    simpl in *. assert (Hg : get_state k m = Some (e_status e)) by (unfold get_state; by rewrite Hk).
    replace (bool_decide (get_state k m = Some s)) with (bool_decide (e_status e = s))
      by (apply bool_decide_ext; rewrite Hg; naive_solver).
    destruct (bool_decide (e_status e = s)); simpl; by rewrite IH.
  - apply NoDup_fst_map_to_list.
  - intros id. unfold list_active, get_state. rewrite (list_elem_of_fmap fst). split.
    + intros ([k e] & -> & Hin). apply elem_of_map_to_list in Hin. simpl. by rewrite Hin.
    + destruct (m !! id) as [e|] eqn:E; [|done]. intros _. exists (id, e). split; [done|].
      by apply elem_of_map_to_list.
Qed.
End Fsm.

(** ** The aggregate against the machine *)

(** The aggregate and the machine agree on starting and terminating: the
    entity's [mark_running] and [terminate] succeed exactly on the statuses
    from which the machine has the transition, and then reach its target.  They
    differ on failing: [mark_failed] always succeeds, while the machine lets
    only a pending or running sandbox fail. *)
Theorem entity_agrees_with_fsm `{CH : Chrono} (sb : Sandbox) :
  (is_ok (fst (mark_running sb)) = is_valid_transition (status sb) Running) /\
  (is_ok (fst (terminate sb)) = is_valid_transition (status sb) Stopped) /\
  (is_ok (fst (mark_running sb)) = true -> status (snd (mark_running sb)) = Running) /\
  (is_ok (fst (terminate sb)) = true -> status (snd (terminate sb)) = Stopped) /\
  (is_ok (fst (mark_running sb)) = false -> snd (mark_running sb) = sb) /\
  (is_ok (fst (terminate sb)) = false -> snd (terminate sb) = sb) /\
  status (mark_failed sb) = Failed /\
  (is_valid_transition (status sb) Failed = is_active sb).
Proof.
  unfold mark_running, terminate, mark_failed, is_active.
  destruct (status sb); repeat split; done.
Qed.

(** ** Witnesses *)

Definition W_El (b : bool) : Type := if b then nat else str.

(** A running sandbox with a container payload. *)
Definition w_machine : gmap str (@StateEntry bool W_El nat) :=
  <[lit "s1" := @mkEntry bool W_El nat Running (Some (existT true 7)) 0]> ∅.

(** A second registration of the running sandbox: refused, and it is pending. *)
Lemma fsm_refines_witness :
  contract W_El (OpRegister W_El (lit "s1") 9)
    (ADone W_El (Err (AlreadyExists (lit "Sandbox already registered")))) w_machine
    (<[lit "s1" := @mkEntry bool W_El nat Pending None 9]> w_machine).
Proof.
  apply (proj1 (fsm_refines W_El (OpRegister W_El (lit "s1") 9)
    (ADone W_El (Err (AlreadyExists (lit "Sandbox already registered")))) w_machine _)).
  reflexivity.
Defined.

Lemma status_path_witness :
  exists b, get_state W_El (lit "s1")
      (fsm_run W_El [OpTransition W_El (lit "s1") Stopped; OpRegister W_El (lit "s2") 1;
                     OpTransition W_El (lit "s1") Running] w_machine) = Some b /\
    rtc documented Running b /\ (is_terminal Running = true -> b = Running).
Proof.
  apply (status_path W_El (lit "s1")); [repeat constructor|reflexivity].
Defined.

Lemma register_overwrites_witness :
  fst (remove W_El (lit "s1") (snd (register W_El (lit "s1") 9 w_machine))) = None.
Proof.
  apply (register_overwrites W_El (lit "s1") w_machine 9 Running). reflexivity.
Defined.

Lemma payload_roundtrip_witness :
  get_payload W_El true (lit "s1")
    (snd (transition W_El (lit "s1") Stopped
       (snd (attach_payload W_El true (lit "s1") 42 w_machine)))) = Some 42.
Proof.
  apply (payload_roundtrip W_El (lit "s1") w_machine true 42 [(lit "s1", Stopped)]).
  discriminate.
Defined.

Lemma count_by_status_witness : list_active W_El w_machine = [lit "s1"] /\
  lit "s1" ∈ list_active W_El w_machine.
Proof.
  split; [reflexivity|]. apply (count_by_status_spec W_El w_machine Running). discriminate.
Defined.

Lemma entity_agrees_witness :
  status (snd (mark_running (sample_sandbox 0))) = Running.
Proof. apply (entity_agrees_with_fsm (sample_sandbox 0)). reflexivity. Defined.
