(* ===== verification/SandboxRepo.v ===== *)
(** * The ports of the sandbox pool

    The interfaces the pool manager is written against, as type classes over an
    external world [W] that every call takes and returns:
    [SandboxRepository] ([bastion-domain/src/sandbox/repository.rs]),
    [SandboxProvider] (the part of the provider port the pool calls,
    [provider/lifecycle.rs]) and [Environment] (the monotonic clock and the
    identifier generator).  [RepositoryLaws] and [ProviderLaws] say what the
    ports promise.  [InMemory] is the in-memory repository of
    [bastion-infrastructure/src/persistence/in_memory.rs] and discharges the
    repository's laws. *)

From S2P Require Import Prelude Sandbox.

Section Ports.
Context `{CH : Chrono}.

Class SandboxRepository (W : Type) := {
  repo_save : Sandbox -> W -> result DomainError unit * W;
  repo_find_by_id : str -> W -> result DomainError (option Sandbox) * W;
  repo_update : Sandbox -> W -> result DomainError unit * W;
  repo_delete : str -> W -> result DomainError unit * W;
  repo_find_active : W -> result DomainError (list Sandbox) * W;
  repo_find_expired : W -> result DomainError (list Sandbox) * W
}.

Class SandboxProvider (W : Type) := {
  prov_list_sandboxes : SandboxFilter -> W -> result DomainError (list Sandbox) * W;
  prov_create : str -> str -> ResourcesSpec -> NetworkSpec -> gmap str str -> Z -> W ->
    result DomainError Sandbox * W;
  prov_terminate : str -> W -> result DomainError unit * W
}.

Class Environment (W : Type) := {
  instant_now : W -> Z * W;
  generate_id : W -> str * W
}.

(** The sandboxes a repository holds, and what its operations do to them when
    they succeed. *)
Class RepositoryLaws (W : Type) `{SandboxRepository W} := {
  stored : W -> gmap str (@Sandbox CH);
  law_save : forall sb w, is_ok (fst (repo_save sb w)) = true ->
    stored (snd (repo_save sb w)) = <[sb_id sb := sb]> (stored w);
  law_update : forall sb w, is_ok (fst (repo_update sb w)) = true ->
    stored (snd (repo_update sb w)) = <[sb_id sb := sb]> (stored w);
  law_delete : forall id w, is_ok (fst (repo_delete id w)) = true ->
    stored (snd (repo_delete id w)) = delete id (stored w);
  law_find : forall id w r, fst (repo_find_by_id id w) = Ok r ->
    r = stored w !! id /\ stored (snd (repo_find_by_id id w)) = stored w
}.

(** The sandboxes a provider runs: terminating stops the named one only, and
    neither the clock nor the repository starts or stops one. *)
Class ProviderLaws (W : Type)
    `{SandboxProvider W, SandboxRepository W, Environment W} := {
  alive : W -> str -> bool;
  law_terminate : forall id w, is_ok (fst (prov_terminate id w)) = true ->
    forall id', alive (snd (prov_terminate id w)) id' = alive w id' && negb (str_eqb id' id);
  law_clock : forall w, alive (snd (instant_now w)) = alive w;
  law_update_alive : forall sb w, alive (snd (repo_update sb w)) = alive w
}.
End Ports.

(** ** The in-memory repository *)

Module InMemory.
Section InMemory.
Context `{CH : Chrono}.

(** The field [sandboxes]; each method holds its lock to the end. *)
Abbreviation store := (gmap (list N) (@Sandbox CH)).

Definition im_new : store := ∅.

Definition im_save (sb : Sandbox) (m : store) : result DomainError unit * store :=
  (Ok tt, <[sb_id sb := sb]> m).

Definition im_find_by_id (id : str) (m : store) :
    result DomainError (option (@Sandbox CH)) * store :=
  (Ok (m !! id), m).

Definition im_update (sb : Sandbox) (m : store) : result DomainError unit * store :=
  (Ok tt, <[sb_id sb := sb]> m).

Definition im_delete (id : str) (m : store) : result DomainError unit * store :=
  match m !! id with
  | Some _ => (Ok tt, delete id m)
  | None => (Err (NotFound id), m)
  end.

Definition im_find_active (m : store) : result DomainError (list (@Sandbox CH)) * store :=
  (Ok (map snd (map_to_list m)), m).

(** [now] is the value of [Utc::now()]. *)
Definition im_find_expired (now : DateTime) (m : store) :
    result DomainError (list (@Sandbox CH)) * store :=
  (Ok (List.filter
         (fun s => match expires_at s with Some e => dt_gt now e | None => false end)
         (map snd (map_to_list m))), m).

#[export] Instance repository (now : DateTime) : SandboxRepository store := {|
  repo_save := im_save;
  repo_find_by_id := im_find_by_id;
  repo_update := im_update;
  repo_delete := im_delete;
  repo_find_active := im_find_active;
  repo_find_expired := im_find_expired now
|}.

Lemma delete_law (id : str) (m : store) :
  is_ok (fst (im_delete id m)) = true -> snd (im_delete id m) = delete id m.
Proof. unfold im_delete. by destruct (m !! id). Qed.

Lemma find_law (id : str) (m : store) r :
  fst (im_find_by_id id m) = Ok r -> r = m !! id /\ snd (im_find_by_id id m) = m.
Proof. simpl. by intros [= <-]. Qed.

#[export] Instance repository_laws (now : DateTime) :
  @RepositoryLaws CH store (repository now).
Proof.
  refine {| stored := fun m : store => m |}; [done|done|exact delete_law|exact find_law].
Defined.

(** The calls that write. *)
Inductive repo_op := OpSave (sb : @Sandbox CH) | OpUpdate (sb : @Sandbox CH) | OpDelete (id : str).

Definition repo_step (op : repo_op) (m : store) : store :=
  match op with
  | OpSave sb => snd (im_save sb m)
  | OpUpdate sb => snd (im_update sb m)
  | OpDelete id => snd (im_delete id m)
  end.

(** What the last write of a history says about an id. *)
Fixpoint last_write (id : str) (ops : list repo_op) (start : option (@Sandbox CH)) :
    option (@Sandbox CH) :=
  match ops with
  | [] => start
  | (OpSave sb | OpUpdate sb) :: ops' =>
      last_write id ops' (if decide (sb_id sb = id) then Some sb else start)
  | OpDelete id' :: ops' => last_write id ops' (if decide (id' = id) then None else start)
  end.

Lemma step_lookup (op : repo_op) (m : store) (id : str) :
  repo_step op m !! id = last_write id [op] (m !! id).
Proof.
  destruct op as [sb|sb|id']; simpl.
  1,2: case_decide as Hd; [subst; apply lookup_insert_eq|by apply lookup_insert_ne].
  unfold im_delete. destruct (m !! id') eqn:E; simpl; case_decide as Hd; subst.
  - apply lookup_delete_eq.
  - by apply lookup_delete_ne.
  - done.
  - done.
Qed.

(** The in-memory repository is a last-writer-wins map: after any history
    of writes, [find_by_id] answers with the sandbox last saved or updated under
    the id and not deleted since; [find_active] returns every stored sandbox,
    each once, whatever its status; and [find_expired] those whose expiry lies
    before [now]. *)
Theorem in_memory_spec (ops : list repo_op) (m : store) (id : str) (now : DateTime) :
  let m' := fold_left (fun m op => repo_step op m) ops m in
  fst (im_find_by_id id m') = Ok (last_write id ops (m !! id)) /\
  (exists l, fst (im_find_active m') = Ok l /\
     l ≡ₚ map snd (map_to_list m') /\
     (forall sb, sb ∈ l <-> exists k, last_write k ops (m !! k) = Some sb)) /\
  (exists l, fst (im_find_expired now m') = Ok l /\
     forall sb, sb ∈ l <-> is_expired now sb = true /\
       exists k, last_write k ops (m !! k) = Some sb).
Proof.
  cbv zeta.
  assert (Hl : forall k, fold_left (fun m op => repo_step op m) ops m !! k = last_write k ops (m !! k)).
  { intros k. revert m. induction ops as [|op ops IH]; intros m; [done|].
    cbn [fold_left]. rewrite IH, step_lookup. by destruct op. }
  assert (Hin : forall sb, sb ∈ map snd (map_to_list (fold_left (fun m op => repo_step op m) ops m)) <->
    exists k, last_write k ops (m !! k) = Some sb).
  { intros sb. rewrite (list_elem_of_fmap snd). split.
    - intros ([k v] & -> & Hk%elem_of_map_to_list). exists k. by rewrite <- Hl.
    - intros [k Hk]. exists (k, sb). split; [done|]. apply elem_of_map_to_list. by rewrite Hl. }
  split; [by simpl; rewrite Hl|]. split.
  - eexists. split; [done|]. split; [done|exact Hin].
  - eexists. split; [done|]. intros sb. rewrite <- Hin. unfold is_expired.
    rewrite !list_elem_of_In, filter_In. tauto.
Qed.
End InMemory.
End InMemory.
