(* ===== verification/Pool.v ===== *)
(** * The sandbox pool manager

    Models [bastion-infrastructure/src/pool/manager.rs]: the per-template
    queues of warm sandboxes and the operations that recover, refill, check out
    and check in.  The provider, the repository, the clock and the identifier
    generator are the ports of [SandboxRepo]; a call takes the pool's state and
    the world and returns both.

    The table of queues is a [DashMap] (a finite map, iterated in the map's
    order), the two counters are [AtomicUsize] (64-bit, wrapping) and the
    semaphore is its number of free permits.  Each operation is a definition that
    runs alone from its start to its end, where [None] as the answer of
    [pool_checkout] is the task waiting for a permit; what operations that
    overlap do is the section on interleaving, whose steps are the accesses to
    the shared pool between two awaits, with the permits that the creations in
    progress hold.  Logging is left out. *)

From S2P Require Import Prelude Sandbox SandboxRepo.

(** ** Data *)

Record PoolConfig := mkConfig {
  c_min_idle : nat; c_max_idle : nat; max_total : nat;
  c_idle_timeout_ms : Z; refill_interval_ms : Z
}.

Definition PoolConfig_default : PoolConfig := mkConfig 5 20 200 600000 5000.

(** [AtomicUsize::fetch_add] and [fetch_sub]. *)
Definition fetch_add (a b : Z) : Z := as_u64 (a + b).
Definition fetch_sub (a b : Z) : Z := as_u64 (a - b).

Record TemplateStats := mkTStats { ts_template : str; ts_idle : nat; ts_min : nat; ts_max : nat }.

Record PoolStats := mkStats {
  st_templates : list TemplateStats; st_active : Z; st_idle : nat; st_total : Z
}.

Record RecoveryResult := mkRecovery {
  reintegrated : nat; skipped_pool_full : nat; skipped_not_registered : nat;
  orphaned_terminated : nat; failed : nat
}.

Definition RecoveryResult_default : RecoveryResult := mkRecovery 0 0 0 0 0.

Definition inc_reintegrated (r : RecoveryResult) : RecoveryResult :=
  mkRecovery (S (reintegrated r)) (skipped_pool_full r) (skipped_not_registered r)
    (orphaned_terminated r) (failed r).
Definition inc_pool_full (r : RecoveryResult) : RecoveryResult :=
  mkRecovery (reintegrated r) (S (skipped_pool_full r)) (skipped_not_registered r)
    (orphaned_terminated r) (failed r).
Definition inc_not_registered (r : RecoveryResult) : RecoveryResult :=
  mkRecovery (reintegrated r) (skipped_pool_full r) (S (skipped_not_registered r))
    (orphaned_terminated r) (failed r).
Definition inc_orphaned (r : RecoveryResult) : RecoveryResult :=
  mkRecovery (reintegrated r) (skipped_pool_full r) (skipped_not_registered r)
    (S (orphaned_terminated r)) (failed r).
Definition inc_failed (r : RecoveryResult) : RecoveryResult :=
  mkRecovery (reintegrated r) (skipped_pool_full r) (skipped_not_registered r)
    (orphaned_terminated r) (S (failed r)).

Section Pool.
Context `{CH : Chrono} {W : Type}.
Context `{REPO : !SandboxRepository W, PROV : !SandboxProvider W, ENV : !Environment W}.

(** Instants of the monotonic clock are nanoseconds. *)
Record PoolEntry := mkPEntry { pe_sandbox : @Sandbox CH; pe_created : Z; last_used_at : Z }.

Definition PoolEntry_new (sb : Sandbox) (w : W) : PoolEntry * W :=
  let '(now, w) := instant_now w in (mkPEntry sb now now, w).

Definition is_idle_timeout (timeout_ms : Z) (e : PoolEntry) (w : W) : bool * W :=
  let '(now, w) := instant_now w in
  ((timeout_ms * 1000000 <? Z.max 0 (now - last_used_at e))%Z, w).

Record PoolQueue := mkQueue {
  entries : list PoolEntry; min_idle : nat; max_idle : nat; idle_timeout_ms : Z
}.

Definition PoolQueue_new (mn mx : nat) (timeout : Z) : PoolQueue := mkQueue [] mn mx timeout.

Definition set_entries (l : list PoolEntry) (q : PoolQueue) : PoolQueue :=
  mkQueue l (min_idle q) (max_idle q) (idle_timeout_ms q).

Definition queue_checkout (q : PoolQueue) : option Sandbox * PoolQueue :=
  match entries q with
  | [] => (None, q)
  | e :: l => (Some (pe_sandbox e), set_entries l q)
  end.

Definition queue_checkin (sb : Sandbox) (q : PoolQueue) (w : W) : bool * PoolQueue * W :=
  if (max_idle q <=? length (entries q))%nat then (false, q, w)
  else
    let '(e, w) := PoolEntry_new sb w in
    (true, set_entries (entries q ++ [e]) q, w).

Definition idle_count (q : PoolQueue) : nat := length (entries q).

(** [VecDeque::retain]: the entries kept, and those evicted in order. *)
Fixpoint retain_loop (timeout_ms : Z) (l : list PoolEntry) (w : W) :
    list PoolEntry * list Sandbox * W :=
  match l with
  | [] => ([], [], w)
  | e :: l' =>
      let '(out, w) := is_idle_timeout timeout_ms e w in
      let '(kept, evicted, w) := retain_loop timeout_ms l' w in
      if out then (kept, pe_sandbox e :: evicted, w) else (e :: kept, evicted, w)
  end.

Definition evict_idle (q : PoolQueue) (w : W) : list Sandbox * PoolQueue * W :=
  let '(kept, evicted, w) := retain_loop (idle_timeout_ms q) (entries q) w in
  (evicted, set_entries kept q, w).

Definition needs_refill (q : PoolQueue) : bool := (length (entries q) <? min_idle q)%nat.

(** The manager without its ports; the shutdown channel is left out. *)
Record PoolManager := mkPool {
  pools : gmap str PoolQueue;
  config : PoolConfig;
  total_active : Z;
  total_idle : Z;
  permits : nat
}.

Definition set_pools (p : gmap str PoolQueue) (st : PoolManager) : PoolManager :=
  mkPool p (config st) (total_active st) (total_idle st) (permits st).
Definition set_active (z : Z) (st : PoolManager) : PoolManager :=
  mkPool (pools st) (config st) z (total_idle st) (permits st).
Definition set_idle (z : Z) (st : PoolManager) : PoolManager :=
  mkPool (pools st) (config st) (total_active st) z (permits st).
Definition set_permits (n : nat) (st : PoolManager) : PoolManager :=
  mkPool (pools st) (config st) (total_active st) (total_idle st) n.
Definition put_queue (t : str) (q : PoolQueue) (st : PoolManager) : PoolManager :=
  set_pools (<[t := q]> (pools st)) st.

Definition pool_new (c : PoolConfig) : PoolManager := mkPool ∅ c 0 0 (max_total c).

Definition register_template (t : str) (st : PoolManager) : PoolManager :=
  let c := config st in
  put_queue t (PoolQueue_new (c_min_idle c) (c_max_idle c) (c_idle_timeout_ms c)) st.

(** ** Recovery *)

Definition recovery_filter : SandboxFilter :=
  mkFilter (f_provider_name SandboxFilter_default) (Some Running)
    (f_limit SandboxFilter_default) (f_cursor SandboxFilter_default).

(** Put a provider sandbox into the queue of its template and count it. *)
Definition reintegrate (sb : Sandbox) (t : str) (q : PoolQueue) (st : PoolManager)
    (res : RecoveryResult) (w : W) : PoolManager * RecoveryResult * W :=
  let '(ok, q', w) := queue_checkin sb q w in
  let st := put_queue t q' st in
  if ok then (set_idle (fetch_add (total_idle st) 1) st, inc_reintegrated res, w)
  else (st, inc_pool_full res, w).

(** Bring the repository's record of a running sandbox up to date. *)
Definition refresh_status (repo_sandbox : Sandbox) (w : W) : W :=
  if bool_decide (status repo_sandbox = Running) then w
  else
    let '(r, updated) := mark_running repo_sandbox in
    match r with
    | Err _ => w
    | Ok _ => snd (repo_update updated w)
    end.

Definition recover_one (sb : Sandbox) (st : PoolManager) (res : RecoveryResult) (w : W) :
    PoolManager * RecoveryResult * W :=
  let t := template_id sb in
  match pools st !! t with
  | None => (st, inc_not_registered res, w)
  | Some _ =>
      let '(found, w) := repo_find_by_id (sb_id sb) w in
      match found with
      | Ok (Some repo_sandbox) =>
          let w := refresh_status repo_sandbox w in
          match pools st !! t with
          | None => (st, res, w)
          | Some q =>
              if (max_idle q <=? idle_count q)%nat then (st, inc_pool_full res, w)
              else reintegrate sb t q st res w
          end
      | Ok None =>
          let '(saved, w) := repo_save sb w in
          match saved with
          | Err _ => (st, inc_failed res, w)
          | Ok _ =>
              match pools st !! t with
              | None => (st, res, w)
              | Some q => reintegrate sb t q st res w
              end
          end
      | Err _ => (st, inc_failed res, w)
      end
  end.

Fixpoint recover_loop (l : list Sandbox) (st : PoolManager) (res : RecoveryResult) (w : W) :
    PoolManager * RecoveryResult * W :=
  match l with
  | [] => (st, res, w)
  | sb :: l' =>
      let '(st, res, w) := recover_one sb st res w in recover_loop l' st res w
  end.

Definition orphan_one (ids : list str) (repo_sandbox : Sandbox) (res : RecoveryResult) (w : W) :
    RecoveryResult * W :=
  if bool_decide (sb_id repo_sandbox ∈ ids) then (res, w)
  else
    let '(r, updated) := terminate repo_sandbox in
    match r with
    | Err _ => (res, w)
    | Ok _ =>
        let '(r, w) := repo_update updated w in
        match r with Err _ => (res, w) | Ok _ => (inc_orphaned res, w) end
    end.

Fixpoint orphan_loop (ids : list str) (l : list Sandbox) (res : RecoveryResult) (w : W) :
    RecoveryResult * W :=
  match l with
  | [] => (res, w)
  | sb :: l' => let '(res, w) := orphan_one ids sb res w in orphan_loop ids l' res w
  end.

Definition recover_active_sandboxes (st : PoolManager) (w : W) :
    result DomainError RecoveryResult * PoolManager * W :=
  let '(listed, w) := prov_list_sandboxes recovery_filter w in
  match listed with
  | Err _ => (Ok RecoveryResult_default, st, w)
  | Ok provider_sandboxes =>
      let ids := map sb_id provider_sandboxes in
      let '(st, res, w) := recover_loop provider_sandboxes st RecoveryResult_default w in
      let '(active, w) := repo_find_active w in
      match active with
      | Ok l => let '(res, w) := orphan_loop ids l res w in (Ok res, st, w)
      | Err _ => (Ok res, st, w)
      end
  end.

(** ** Eviction and refill *)

(** Terminate and forget the evicted sandboxes; their number is added to [n]. *)
Fixpoint discard_loop (l : list Sandbox) (n : Z) (w : W) : Z * W :=
  match l with
  | [] => (n, w)
  | sb :: l' =>
      let w := snd (prov_terminate (sb_id sb) w) in
      let w := snd (repo_delete (sb_id sb) w) in
      discard_loop l' (n + 1) w
  end.

(** [for mut entry in pools.iter_mut()]: evict and discard. *)
Fixpoint evict_loop (keys : list str) (st : PoolManager) (n : Z) (w : W) : PoolManager * Z * W :=
  match keys with
  | [] => (st, n, w)
  | t :: ks =>
      match pools st !! t with
      | None => evict_loop ks st n w
      | Some q =>
          let '(evicted, q', w) := evict_idle q w in
          let '(n, w) := discard_loop evicted n w in
          evict_loop ks (put_queue t q' st) n w
      end
  end.

Definition create_sandbox (t : str) (w : W) : result DomainError Sandbox * W :=
  let '(id, w) := generate_id w in
  let '(created, w) := prov_create id t ResourcesSpec_default NetworkSpec_default ∅ 3600000 w in
  match created with
  | Err e => (Err e, w)
  | Ok sb =>
      let '(saved, w) := repo_save sb w in
      match saved with Err e => (Err e, w) | Ok _ => (Ok sb, w) end
  end.

(** [while needs_refill { ... }]: the permit of an iteration is released at its
    end.  [None] is running out of fuel. *)
Fixpoint refill_queue (fuel : nat) (t : str) (q : PoolQueue) (idle : Z) (permits : nat) (w : W) :
    option (PoolQueue * Z * W) :=
  if negb (needs_refill q) then Some (q, idle, w)
  else
    match fuel with
    | O => None
    | S f =>
        match permits with
        | O => Some (q, idle, w)
        | S _ =>
            let '(created, w) := create_sandbox t w in
            match created with
            | Err _ => Some (q, idle, w)
            | Ok sb =>
                let '(ok, q', w) := queue_checkin sb q w in
                if ok then refill_queue f t q' (fetch_add idle 1) permits w
                else
                  let '(id, w) := generate_id w in
                  Some (q', idle, snd (prov_terminate id w))
            end
        end
    end.

(** Enough fuel for [refill_queue]: every iteration that goes on adds an entry. *)
Definition refill_fuel (q : PoolQueue) : nat := min_idle q - length (entries q).

Fixpoint refill_pools (keys : list str) (st : PoolManager) (w : W) : option (PoolManager * W) :=
  match keys with
  | [] => Some (st, w)
  | t :: ks =>
      match pools st !! t with
      | None => refill_pools ks st w
      | Some q =>
          match refill_queue (refill_fuel q) t q (total_idle st) (permits st) w with
          | None => None
          | Some (q', idle, w) => refill_pools ks (set_idle idle (put_queue t q' st)) w
          end
      end
  end.

Definition pool_keys (st : PoolManager) : list str := map fst (map_to_list (pools st)).

Definition refill_and_evict (st : PoolManager) (w : W) : option (PoolManager * W) :=
  let '(st, n, w) := evict_loop (pool_keys st) st 0 w in
  let st := set_idle (fetch_sub (total_idle st) n) st in
  refill_pools (pool_keys st) st w.

(** ** Stop, checkout, checkin, statistics *)

Definition pool_stop (st : PoolManager) (w : W) : PoolManager * W :=
  let '(st, _, w) := evict_loop (pool_keys st) st 0 w in
  (set_active 0 (set_idle 0 st), w).

(** Creation outside the pool, once the permit is held. *)
Definition checkout_create (t : str) (timeout_ms : Z) (st : PoolManager) (w : W) :
    result DomainError Sandbox * PoolManager * W :=
  let '(id, w) := generate_id w in
  let '(created, w) := prov_create id t ResourcesSpec_default NetworkSpec_default ∅ timeout_ms w in
  match created with
  | Err e => (Err e, st, w)
  | Ok sb =>
      let '(saved, w) := repo_save sb w in
      match saved with
      | Err e => (Err e, st, w)
      | Ok _ => (Ok sb, set_active (fetch_add (total_active st) 1) st, w)
      end
  end.

Definition pool_checkout (t : str) (timeout_ms : Z) (st : PoolManager) (w : W) :
    option (result DomainError Sandbox * PoolManager * W) :=
  let pooled :=
    match pools st !! t with
    | Some q => let '(o, q') := queue_checkout q in option_map (fun sb => (sb, q')) o
    | None => None
    end in
  match pooled with
  | Some (sb, q') =>
      let st := put_queue t q' st in
      let st := set_idle (fetch_sub (total_idle st) 1) st in
      let st := set_active (fetch_add (total_active st) 1) st in
      let w := snd (repo_update sb w) in
      Some (Ok sb, st, w)
  | None =>
      match permits st with
      | O => None
      | S n =>
          let '(r, st, w) := checkout_create t timeout_ms (set_permits n st) w in
          Some (r, set_permits (S (permits st)) st, w)
      end
  end.

Definition pool_checkin (id : str) (st : PoolManager) (w : W) :
    result DomainError unit * PoolManager * W :=
  let '(found, w) := repo_find_by_id id w in
  match found with
  | Err e => (Err e, st, w)
  | Ok None => (Err (NotFound id), st, w)
  | Ok (Some sb) =>
      let t := template_id sb in
      let w := snd (prov_terminate id w) in
      let '(pooled, st, w) :=
        match pools st !! t with
        | Some q =>
            let '(ok, q', w) := queue_checkin sb q w in (ok, put_queue t q' st, w)
        | None => (false, st, w)
        end in
      let st := set_active (fetch_sub (total_active st) 1) st in
      if pooled then (Ok tt, set_idle (fetch_add (total_idle st) 1) st, w)
      else (Ok tt, st, w)
  end.

(** The total wraps as the release build's addition does. *)
Definition stats (st : PoolManager) : PoolStats :=
  let l := map_to_list (pools st) in
  let templates :=
    map (fun kq => mkTStats (fst kq) (idle_count (snd kq)) (min_idle (snd kq)) (max_idle (snd kq))) l in
  let idle := fold_left (fun n kq => n + idle_count (snd kq)) l 0 in
  mkStats templates (total_active st) idle (as_u64 (Z.of_nat idle + total_active st)).

(** ** Invariants *)

(** Every queue is within its bound. *)
Definition within_capacity (st : PoolManager) : Prop :=
  forall t q, pools st !! t = Some q -> length (entries q) <= max_idle q.

(** The number of entries of all the queues. *)
Definition idle_sum (m : gmap str PoolQueue) : nat :=
  sum_list_with (fun kq => length (entries (snd kq))) (map_to_list m).

(** The idle counter agrees with the queues. *)
Definition counted (st : PoolManager) : Prop :=
  total_idle st = as_u64 (Z.of_nat (idle_sum (pools st))).

(** What every operation but a stop keeps. *)
Definition keeps (st st' : PoolManager) : Prop :=
  permits st' = permits st /\ config st' = config st /\
  (within_capacity st -> within_capacity st') /\ (counted st -> counted st').

Lemma keeps_refl st : keeps st st.
Proof. done. Qed.

Lemma keeps_trans st1 st2 st3 : keeps st1 st2 -> keeps st2 st3 -> keeps st1 st3.
Proof.
  intros (A1 & A2 & A3 & A4) (B1 & B2 & B3 & B4).
  repeat split; [congruence|congruence|auto|auto].
Qed.

Lemma as_u64_add a b : as_u64 (as_u64 a + b) = as_u64 (a + b).
Proof. unfold as_u64. by rewrite Zplus_mod_idemp_l. Qed.

Lemma as_u64_sub a b : as_u64 (as_u64 a - b) = as_u64 (a - b).
Proof. unfold as_u64. by rewrite Zminus_mod_idemp_l. Qed.

Lemma idle_sum_insert (m : gmap str PoolQueue) t q :
  m !! t = None -> idle_sum (<[t := q]> m) = length (entries q) + idle_sum m.
Proof. intros E. unfold idle_sum. by rewrite (map_to_list_insert m t q E). Qed.

Lemma idle_sum_put (m : gmap str PoolQueue) t q q' :
  m !! t = Some q -> idle_sum (<[t := q']> m) + length (entries q) = idle_sum m + length (entries q').
Proof.
  intros E. rewrite <- (insert_delete_id m t q E) at 2. rewrite <- insert_delete_eq.
  rewrite !idle_sum_insert by apply lookup_delete_eq. lia.
Qed.

Lemma capacity_put t q st :
  within_capacity st -> length (entries q) <= max_idle q -> within_capacity (put_queue t q st).
Proof.
  unfold within_capacity, put_queue. simpl. intros Hc Hq t' q'.
  destruct (decide (t' = t)) as [->|Hn].
  - rewrite lookup_insert_eq. by intros [= <-].
  - rewrite lookup_insert_ne by done. apply Hc.
Qed.

(** ** Queues *)

Lemma queue_checkin_spec sb q w ok q' w' :
  queue_checkin sb q w = (ok, q', w') ->
  max_idle q' = max_idle q /\ min_idle q' = min_idle q /\
  if ok then length (entries q) < max_idle q /\
             exists now, entries q' = entries q ++ [mkPEntry sb now now]
  else q' = q /\ max_idle q <= length (entries q).
Proof.
  unfold queue_checkin. destruct (_ <=? _)%nat eqn:E.
  - apply Nat.leb_le in E. by intros [= <- <- <-].
  - apply Nat.leb_gt in E. unfold PoolEntry_new. destruct (instant_now w) as [now w1].
    intros [= <- <- <-]. simpl. eauto 6.
Qed.

Lemma retain_loop_spec timeout l w kept evicted w' :
  retain_loop timeout l w = (kept, evicted, w') -> length kept + length evicted = length l.
Proof.
  revert w kept evicted w'. induction l as [|e l IH]; intros w kept evicted w'; simpl.
  - by intros [= <- <- <-].
  - destruct (is_idle_timeout timeout e w) as [out w1].
    destruct (retain_loop timeout l w1) as [[k ev] w2] eqn:E. apply IH in E.
    destruct out; intros [= <- <- <-]; simpl; lia.
Qed.

Lemma evict_idle_spec q w evicted q' w' :
  evict_idle q w = (evicted, q', w') ->
  max_idle q' = max_idle q /\ length (entries q') + length evicted = length (entries q).
Proof.
  unfold evict_idle. destruct (retain_loop _ _ _) as [[k ev] w1] eqn:E.
  apply retain_loop_spec in E. by intros [= <- <- <-].
Qed.

Lemma discard_count l n w : fst (discard_loop l n w) = (n + Z.of_nat (length l))%Z.
Proof.
  revert n w. induction l as [|sb l IH]; intros n w; cbn [discard_loop]; [simpl; lia|].
  rewrite IH. simpl. lia.
Qed.

Lemma evict_loop_spec keys st n w st' n' w' :
  evict_loop keys st n w = (st', n', w') ->
  permits st' = permits st /\ config st' = config st /\
  total_idle st' = total_idle st /\ total_active st' = total_active st /\
  (within_capacity st -> within_capacity st') /\
  (Z.of_nat (idle_sum (pools st')) + n' = Z.of_nat (idle_sum (pools st)) + n)%Z.
Proof.
  revert st n w. induction keys as [|t ks IH]; intros st n w; cbn [evict_loop].
  { by intros [= <- <- <-]. }
  destruct (pools st !! t) as [q|] eqn:Et; [|apply IH].
  destruct (evict_idle q w) as [[ev q1] w1] eqn:Ee.
  apply evict_idle_spec in Ee as [Hm Hl].
  pose proof (discard_count ev n w1) as Hn. destruct (discard_loop ev n w1) as [n1 w2].
  simpl in Hn. intros H%IH. destruct H as (H1 & H2 & H3 & H4 & H5 & H6). simpl in *.
  repeat split; try done.
  - intros Hc. apply H5. apply capacity_put; [done|]. specialize (Hc t q Et). lia.
  - pose proof (idle_sum_put (pools st) t q q1 Et). lia.
Qed.

Lemma reintegrate_keeps sb t q st res w st' res' w' :
  pools st !! t = Some q -> reintegrate sb t q st res w = (st', res', w') -> keeps st st'.
Proof.
  unfold reintegrate. intros Et. destruct (queue_checkin sb q w) as [[ok q1] w1] eqn:Ec.
  apply queue_checkin_spec in Ec as (Hm & _ & Hok).
  pose proof (idle_sum_put (pools st) t q q1 Et) as Hs.
  destruct ok; intros [= <- <- <-]; unfold keeps; simpl.
  - destruct Hok as (Hl & now & He). rewrite He, length_app in Hs. simpl in Hs.
    repeat split.
    + intros Hc. apply (capacity_put t q1); [done|]. rewrite He, length_app. simpl. lia.
    + unfold counted, fetch_add. simpl. intros ->. rewrite as_u64_add. f_equal. lia.
  - destruct Hok as [-> Hl]. repeat split.
    + intros Hc. apply (capacity_put t q); [done|]. by apply (Hc t).
    + unfold counted. simpl. intros ->. do 2 f_equal. lia.
Qed.

Lemma recover_one_keeps sb st res w st' res' w' :
  recover_one sb st res w = (st', res', w') -> keeps st st'.
Proof.
  unfold recover_one. destruct (pools st !! template_id sb) as [q|] eqn:Et;
    [|intros [= <- <- <-]; apply keeps_refl].
  destruct (repo_find_by_id (sb_id sb) w) as [[[r|]|e] w1];
    [| |intros [= <- <- <-]; apply keeps_refl].
  - destruct (_ <=? _)%nat; [intros [= <- <- <-]; apply keeps_refl|].
    by apply reintegrate_keeps.
  - destruct (repo_save sb w1) as [[u|e] w2]; [|intros [= <- <- <-]; apply keeps_refl].
    by apply reintegrate_keeps.
Qed.

Lemma recover_loop_keeps l st res w st' res' w' :
  recover_loop l st res w = (st', res', w') -> keeps st st'.
Proof.
  revert st res w. induction l as [|sb l IH]; intros st res w; cbn [recover_loop].
  { intros [= <- <- <-]. apply keeps_refl. }
  destruct (recover_one sb st res w) as [[st1 res1] w1] eqn:E. apply recover_one_keeps in E.
  intros E'%IH. by eapply keeps_trans.
Qed.

Lemma recover_keeps st w r st' w' :
  recover_active_sandboxes st w = (r, st', w') -> keeps st st'.
Proof.
  unfold recover_active_sandboxes. destruct (prov_list_sandboxes _ w) as [[l|e] w1];
    [|intros [= <- <- <-]; apply keeps_refl].
  destruct (recover_loop l st _ w1) as [[st1 res1] w2] eqn:E. apply recover_loop_keeps in E.
  destruct (repo_find_active w2) as [[act|e] w3]; [|by intros [= <- <- <-]].
  destruct (orphan_loop _ act res1 w3). by intros [= <- <- <-].
Qed.

(** ** Refill *)

(** The provider creates whatever it is asked for, and the repository saves it. *)
Definition creates : Prop :=
  (forall id t r n e ms w, is_ok (fst (prov_create id t r n e ms w)) = true) /\
  (forall sb w, is_ok (fst (repo_save sb w)) = true).

Lemma creates_sandbox t w : creates -> is_ok (fst (create_sandbox t w)) = true.
Proof.
  intros [Hc Hs]. unfold create_sandbox. destruct (generate_id w) as [id w1].
  specialize (Hc id t ResourcesSpec_default NetworkSpec_default ∅ 3600000%Z w1).
  destruct (prov_create _ _ _ _ _ _ _) as [[sb|e] w2]; [|done].
  specialize (Hs sb w2). by destruct (repo_save sb w2) as [[u|e] w3].
Qed.

(** The refill of a queue ends within its fuel, adds only entries and counts
    them; it reaches the minimum when there is a permit, room for the minimum,
    and creation does not fail. *)
Lemma refill_queue_spec t p fuel q idle w :
  refill_fuel q <= fuel ->
  exists q' idle' w', refill_queue fuel t q idle p w = Some (q', idle', w') /\
    max_idle q' = max_idle q /\ min_idle q' = min_idle q /\
    (length (entries q) <= max_idle q -> length (entries q') <= max_idle q') /\
    (forall s, idle = as_u64 s ->
       idle' = as_u64 (s + Z.of_nat (length (entries q')) - Z.of_nat (length (entries q)))) /\
    (creates -> 0 < p -> min_idle q <= max_idle q -> needs_refill q' = false).
Proof.
  assert (Hstop : forall q idle (w : W), needs_refill q = false \/ ~ creates \/ p = 0 \/ max_idle q < min_idle q ->
    exists q' idle' w', Some (q, idle, w) = Some (q', idle', w') /\
      max_idle q' = max_idle q /\ min_idle q' = min_idle q /\
      (length (entries q) <= max_idle q -> length (entries q') <= max_idle q') /\
      (forall s, idle = as_u64 s ->
         idle' = as_u64 (s + Z.of_nat (length (entries q')) - Z.of_nat (length (entries q)))) /\
      (creates -> 0 < p -> min_idle q <= max_idle q -> needs_refill q' = false)).
  { intros q0 i0 w0 Hor. exists q0, i0, w0. do 4 (split; [done|]). split.
    - intros s ->. f_equal. lia.
    - destruct Hor as [?|[?|[?|?]]]; [done|done|lia|lia]. }
  revert q idle w. induction fuel as [|f IH]; intros q idle w Hf.
  { assert (Hn : needs_refill q = false).
    { unfold needs_refill. apply Nat.ltb_ge. unfold refill_fuel in Hf. lia. }
    cbn [refill_queue]. rewrite Hn. cbn [negb]. apply Hstop. auto. }
  cbn [refill_queue]. destruct (needs_refill q) eqn:Hn; cbn [negb]; [|apply Hstop; auto].
  destruct p as [|p']; [apply Hstop; auto|].
  destruct (create_sandbox t w) as [[sb|e] w1] eqn:Ec.
  2:{ apply Hstop. right. left. intros Hc. apply (creates_sandbox t w) in Hc. by rewrite Ec in Hc. }
  destruct (queue_checkin sb q w1) as [[ok q1] w2] eqn:Eq.
  apply queue_checkin_spec in Eq as (Hm & Hmn & Hok).
  unfold needs_refill in Hn. apply Nat.ltb_lt in Hn. unfold refill_fuel in Hf.
  destruct ok.
  - destruct Hok as (Hl & now & He).
    assert (Hlen : length (entries q1) = S (length (entries q))).
    { rewrite He, length_app. simpl. lia. }
    destruct (IH q1 (fetch_add idle 1) w2) as (q' & idle' & w' & E & A1 & A2 & A3 & A4 & A5).
    { unfold refill_fuel. rewrite Hmn. lia. }
    exists q', idle', w'. split; [done|]. split; [congruence|]. split; [congruence|].
    split; [intros; apply A3; lia|]. split.
    + intros s ->. rewrite (A4 (s + 1)%Z) by (unfold fetch_add; by rewrite as_u64_add).
      f_equal. lia.
    + intros. apply A5; [done..|lia].
  - destruct Hok as [-> Hl]. destruct (generate_id w2) as [id w3]. apply Hstop.
    do 3 right. lia.
Qed.

Lemma refill_pools_spec keys st w :
  exists st' w', refill_pools keys st w = Some (st', w') /\ keeps st st' /\
    total_active st' = total_active st /\
    (forall t, t ∉ keys -> pools st' !! t = pools st !! t) /\
    (forall t q', pools st' !! t = Some q' -> exists q, pools st !! t = Some q /\
       max_idle q' = max_idle q /\ min_idle q' = min_idle q /\
       (t ∈ keys -> NoDup keys -> creates -> 0 < permits st -> min_idle q <= max_idle q ->
        needs_refill q' = false)).
Proof.
  revert st w. induction keys as [|t ks IH]; intros st w; cbn [refill_pools].
  { exists st, w. split; [done|]. split; [apply keeps_refl|]. split; [done|]. split; [done|].
    intros t q' E. exists q'. split; [done|]. split; [done|]. split; [done|].
    by intros []%not_elem_of_nil. }
  destruct (pools st !! t) as [q|] eqn:Et.
  - destruct (refill_queue_spec t (permits st) (refill_fuel q) q (total_idle st) w ltac:(lia))
      as (q1 & idle1 & w1 & E1 & A1 & A2 & A3 & A4 & A5). rewrite E1.
    set (st1 := set_idle idle1 (put_queue t q1 st)).
    destruct (IH st1 w1) as (st' & w' & E' & B1 & B2 & B3 & B4).
    exists st', w'. split; [done|]. split.
    { apply (keeps_trans st st1); [|done]. unfold keeps. simpl. split; [done|]. split; [done|]. split.
      - intros Hc. apply (capacity_put t q1 st Hc), A3. by apply (Hc t).
      - unfold counted. simpl. intros Hc. rewrite (A4 _ Hc). f_equal.
        pose proof (idle_sum_put (pools st) t q q1 Et). lia. }
    split; [done|]. split.
    + intros t' [Hn Hk]%not_elem_of_cons. rewrite B3 by done. unfold st1. simpl.
      by apply lookup_insert_ne.
    + intros t' q' Eq'. destruct (B4 t' q' Eq') as (q0 & Eq0 & C1 & C2 & C3).
      unfold st1 in Eq0. simpl in Eq0. destruct (decide (t' = t)) as [->|Hn].
      * rewrite lookup_insert_eq in Eq0. injection Eq0 as <-. exists q.
        split; [done|]. split; [congruence|]. split; [congruence|].
        intros _ [Hnk _]%NoDup_cons Hcr Hp Hmm. rewrite (B3 t Hnk) in Eq'. unfold st1 in Eq'.
        simpl in Eq'. rewrite lookup_insert_eq in Eq'. injection Eq' as <-. by apply A5.
      * rewrite lookup_insert_ne in Eq0 by done. exists q0. split; [done|]. split; [done|].
        split; [done|]. intros [?|Hk]%elem_of_cons [_ Hnd]%NoDup_cons; [congruence|]. by apply C3.
  - destruct (IH st w) as (st' & w' & E' & B1 & B2 & B3 & B4). exists st', w'.
    split; [done|]. split; [done|]. split; [done|]. split.
    + intros t' [Hn Hk]%not_elem_of_cons. by apply B3.
    + intros t' q' Eq'. destruct (B4 t' q' Eq') as (q0 & Eq0 & C1 & C2 & C3).
      exists q0. split; [done|]. split; [done|]. split; [done|].
      intros [->|Hk]%elem_of_cons [_ Hnd]%NoDup_cons; [congruence|]. by apply C3.
Qed.






Lemma refill_keeps st w :
  exists st' w', refill_and_evict st w = Some (st', w') /\ keeps st st' /\
    total_active st' = total_active st.
Proof.
  unfold refill_and_evict. destruct (evict_loop (pool_keys st) st 0 w) as [[st1 n] w1] eqn:Ee.
  apply evict_loop_spec in Ee as (A1 & A2 & A3 & A4 & A5 & A6).
  destruct (refill_pools_spec (pool_keys (set_idle (fetch_sub (total_idle st1) n) st1))
    (set_idle (fetch_sub (total_idle st1) n) st1) w1) as (st' & w' & E & B1 & B2 & _).
  exists st', w'. split; [done|]. split; [|by rewrite B2].
  eapply keeps_trans; [|exact B1]. unfold keeps. simpl. repeat split; [done..|].
  unfold counted, fetch_sub. simpl. rewrite A3. intros ->. rewrite as_u64_sub. f_equal. lia.
Qed.


(** ** Executions *)

Lemma put_queue_keeps t q q1 st d :
  pools st !! t = Some q -> max_idle q1 = max_idle q ->
  length (entries q1) <= length (entries q) \/ length (entries q1) <= max_idle q ->
  (Z.of_nat (length (entries q1)) = Z.of_nat (length (entries q)) + d)%Z ->
  keeps st (set_idle (as_u64 (total_idle st + d)) (put_queue t q1 st)).
Proof.
  intros Et Hm Hl Hd. unfold keeps. simpl. split; [done|]. split; [done|]. split.
  - intros Hc. apply (capacity_put t q1 st Hc). specialize (Hc t q Et). lia.
  - unfold counted. simpl. intros ->. rewrite as_u64_add. f_equal.
    pose proof (idle_sum_put (pools st) t q q1 Et). lia.
Qed.

Lemma checkout_create_state t ms st w r st' w' :
  checkout_create t ms st w = (r, st', w') ->
  st' = set_active (if is_ok r then fetch_add (total_active st) 1 else total_active st) st.
Proof.
  unfold checkout_create. destruct (generate_id w) as [id w1].
  destruct (prov_create _ _ _ _ _ _ _) as [[sb|e] w2];
    [|intros [= <- <- <-]; by destruct st].
  destruct (repo_save sb w2) as [[u|e] w3]; intros [= <- <- <-]; by destruct st.
Qed.

Lemma set_active_keeps z st : keeps st (set_active z st).
Proof. done. Qed.

Lemma checkout_keeps t ms st w r st' w' :
  pool_checkout t ms st w = Some (r, st', w') -> keeps st st'.
Proof.
  unfold pool_checkout.
  assert (Hdirect : match permits st with
    | 0 => None
    | S n =>
        let '(r, st0, w0) := checkout_create t ms (set_permits n st) w in
        Some (r, set_permits (S (permits st0)) st0, w0)
    end = Some (r, st', w') -> keeps st st').
  { destruct (permits st) as [|n] eqn:Ep; [done|].
    destruct (checkout_create t ms (set_permits n st) w) as [[r0 st0] w0] eqn:Ec.
    apply checkout_create_state in Ec as ->. intros [= <- <- <-]. unfold keeps. simpl. by rewrite Ep. }
  destruct (pools st !! t) as [q|] eqn:Et; [|exact Hdirect].
  unfold queue_checkout. destruct (entries q) as [|e l] eqn:Ee; [exact Hdirect|]. simpl.
  intros [= <- <- <-]. eapply keeps_trans; [|apply set_active_keeps].
  apply (put_queue_keeps t q (set_entries l q) st (-1) Et); simpl; [done|rewrite Ee; simpl; lia..].
Qed.

Lemma checkin_keeps id st w r st' w' :
  pool_checkin id st w = (r, st', w') -> keeps st st'.
Proof.
  unfold pool_checkin. destruct (repo_find_by_id id w) as [[[sb|]|e] w1];
    try (intros [= <- <- <-]; apply keeps_refl).
  destruct (pools st !! template_id sb) as [q|] eqn:Et;
    [|intros [= <- <- <-]; apply set_active_keeps].
  destruct (queue_checkin sb q _) as [[ok q1] w2] eqn:Eq. apply queue_checkin_spec in Eq as (Hm & _ & Hok).
  destruct ok; intros [= <- <- <-].
  - destruct Hok as (Hl & now & He).
    apply (keeps_trans _ (set_idle (as_u64 (total_idle st + 1)) (put_queue (template_id sb) q1 st)));
      [|done].
    apply (put_queue_keeps (template_id sb) q q1 st 1 Et); rewrite ?He, ?length_app; simpl; lia.
  - destruct Hok as [-> _]. eapply keeps_trans; [|apply set_active_keeps].
    unfold keeps. simpl. unfold put_queue. rewrite insert_id by done. by destruct st.
Qed.

Inductive pool_op :=
| PCheckout (t : str) (timeout_ms : Z)
| PCheckin (id : str)
| PRefill
| PRecover
| PRegister (t : str)
| PStop.

(** [None]: the operation does not return. *)
Definition pool_step (op : pool_op) (st : PoolManager) (w : W) : option (PoolManager * W) :=
  match op with
  | PCheckout t ms =>
      match pool_checkout t ms st w with Some (_, st, w) => Some (st, w) | None => None end
  | PCheckin id => let '(_, st, w) := pool_checkin id st w in Some (st, w)
  | PRefill => refill_and_evict st w
  | PRecover => let '(_, st, w) := recover_active_sandboxes st w in Some (st, w)
  | PRegister t => Some (register_template t st, w)
  | PStop => Some (pool_stop st w)
  end.

(** The states reached from a new pool by operations that satisfy [allowed]. *)
Inductive reachable (c : PoolConfig) (allowed : pool_op -> PoolManager -> Prop) :
    PoolManager -> W -> Prop :=
| reach_new w : reachable c allowed (pool_new c) w
| reach_op op st w st' w' : reachable c allowed st w -> allowed op st ->
    pool_step op st w = Some (st', w') -> reachable c allowed st' w'
| reach_world st w w' : reachable c allowed st w -> reachable c allowed st w'.

(** Operations that keep the idle counter: not a stop, and not a registration
    that replaces a queue with entries. *)
Definition counter_safe (op : pool_op) (st : PoolManager) : Prop :=
  match op with
  | PStop => False
  | PRegister t => forall q, pools st !! t = Some q -> entries q = []
  | _ => True
  end.

Lemma register_capacity t st :
  within_capacity st -> within_capacity (register_template t st).
Proof. intros Hc. apply capacity_put; [done|]. simpl. lia. Qed.

Lemma register_counted t st :
  counter_safe (PRegister t) st -> counted st -> counted (register_template t st).
Proof.
  unfold counted, register_template. simpl. intros Hs ->. do 2 f_equal.
  set (q1 := PoolQueue_new _ _ _). destruct (pools st !! t) as [q|] eqn:Et.
  - pose proof (idle_sum_put (pools st) t q q1 Et) as H. rewrite (Hs q eq_refl) in H. simpl in H. lia.
  - rewrite idle_sum_insert by done. done.
Qed.

Lemma stop_capacity st w : within_capacity st -> within_capacity (fst (pool_stop st w)) /\
  permits (fst (pool_stop st w)) = permits st /\ config (fst (pool_stop st w)) = config st.
Proof.
  unfold pool_stop. destruct (evict_loop _ st 0 w) as [[st1 n] w1] eqn:E.
  apply evict_loop_spec in E as (A1 & A2 & _ & _ & A5 & _). simpl. auto.
Qed.

Lemma step_keeps op st w st' w' :
  pool_step op st w = Some (st', w') ->
  permits st' = permits st /\ config st' = config st /\
  (within_capacity st -> within_capacity st') /\
  (counter_safe op st -> counted st -> counted st').
Proof.
  destruct op as [t ms|id| | |t|]; cbn [pool_step counter_safe].
  - destruct (pool_checkout t ms st w) as [[[r s] x]|] eqn:E; [|done]. intros [= <- <-].
    apply checkout_keeps in E as (? & ? & ? & ?). auto.
  - destruct (pool_checkin id st w) as [[r s] x] eqn:E. intros [= <- <-].
    apply checkin_keeps in E as (? & ? & ? & ?). auto.
  - destruct (refill_keeps st w) as (s & x & -> & (? & ? & ? & ?) & _). intros [= <- <-]. auto.
  - destruct (recover_active_sandboxes st w) as [[r s] x] eqn:E. intros [= <- <-].
    apply recover_keeps in E as (? & ? & ? & ?). auto.
  - intros [= <- <-]. split; [done|]. split; [done|].
    split; [apply register_capacity|apply (register_counted t st)].
  - intros [= E]. pose proof (stop_capacity st w) as Hs. rewrite E in Hs. simpl in Hs.
    unfold pool_stop in E. destruct (evict_loop _ st 0 w) as [[st1 n] w1] eqn:E1.
    apply evict_loop_spec in E1 as (A1 & A2 & _ & _ & A5 & _). injection E as <- _. simpl.
    repeat split; [done..|auto|done].
Qed.

(** ** Interleaving

    The operations are not atomic: a check-out of an empty queue and a refill
    hold a permit of the semaphore while the provider creates the sandbox, and
    other tasks run meanwhile.  The accesses of an operation to the pool between
    two awaits are an [action]; the running system is the shared pool and the
    creations in progress, each with the permit it holds.  A refill also keeps
    its queue locked, which only forbids some of the interleavings considered
    here. *)

Inductive creation := Direct (t : str) | Refilling (t : str).

#[global] Instance creation_eq_dec : EqDecision creation.
Proof. solve_decision. Defined.

Record PoolRun := mkPoolRun { shared : PoolManager; in_progress : list creation }.

Inductive action :=
(* [checkout]: the front of the queue; or a permit, then the end of the
   creation, counted when it succeeded (a cancelled check-out ends uncounted) *)
| ATake (t : str)
| AAcquire (t : str)
| ACreated (t : str) (counted_in : bool)
(* [refill_and_evict] *)
| AEvict (t : str) (w : W)
| AUncount (evicted : Z)
| ATryAcquire (t : str)
| ARefilled (t : str) (created : option (@Sandbox CH)) (w : W)
(* [checkin], recovery, [register_template], [stop] *)
| AReturn (sb : @Sandbox CH) (w : W)
| AReintegrate (sb : @Sandbox CH) (w : W)
| ARegister (t : str)
| AZero.

(** [semaphore.acquire]: not possible without a free permit. *)
Definition acquire (c : creation) (s : PoolRun) : option PoolRun :=
  match permits (shared s) with
  | O => None
  | S n => Some (mkPoolRun (set_permits n (shared s)) (c :: in_progress s))
  end.

Fixpoint remove_one (c : creation) (l : list creation) : option (list creation) :=
  match l with
  | [] => None
  | c' :: l' => if decide (c' = c) then Some l' else option_map (cons c') (remove_one c l')
  end.

(** [drop(permit)]: the creation [c] is over. *)
Definition release (c : creation) (s : PoolRun) : option PoolRun :=
  option_map (mkPoolRun (set_permits (S (permits (shared s))) (shared s)))
    (remove_one c (in_progress s)).

Definition on_shared (f : PoolManager -> PoolManager) (s : PoolRun) : PoolRun :=
  mkPoolRun (f (shared s)) (in_progress s).

Definition take_front (t : str) (st : PoolManager) : option PoolManager :=
  match pools st !! t with
  | None => None
  | Some q =>
      match queue_checkout q with
      | (None, _) => None
      | (Some _, q') =>
          Some (set_active (fetch_add (total_active st) 1)
                  (set_idle (fetch_sub (total_idle st) 1) (put_queue t q' st)))
      end
  end.

Definition evict_front (t : str) (w : W) (st : PoolManager) : PoolManager :=
  match pools st !! t with
  | None => st
  | Some q => let '(_, q', _) := evict_idle q w in put_queue t q' st
  end.

(** A sandbox into the queue of its template, counted as idle when accepted. *)
Definition add_idle (t : str) (sb : @Sandbox CH) (w : W) (st : PoolManager) : PoolManager :=
  match pools st !! t with
  | None => st
  | Some q =>
      let '(ok, q', _) := queue_checkin sb q w in
      let st := put_queue t q' st in
      if ok then set_idle (fetch_add (total_idle st) 1) st else st
  end.

Definition act (a : action) (s : PoolRun) : option PoolRun :=
  match a with
  | ATake t => option_map (fun st => mkPoolRun st (in_progress s)) (take_front t (shared s))
  | AAcquire t => acquire (Direct t) s
  | ACreated t b =>
      release (Direct t)
        (if b then on_shared (fun st => set_active (fetch_add (total_active st) 1) st) s else s)
  | AEvict t w => Some (on_shared (evict_front t w) s)
  | AUncount n => Some (on_shared (fun st => set_idle (fetch_sub (total_idle st) n) st) s)
  | ATryAcquire t =>
      match pools (shared s) !! t with
      | None => None
      | Some q => if needs_refill q then acquire (Refilling t) s else None
      end
  | ARefilled t created w =>
      release (Refilling t)
        (match created with Some sb => on_shared (add_idle t sb w) s | None => s end)
  | AReturn sb w =>
      Some (on_shared (fun st => set_active (fetch_sub (total_active st) 1)
              (add_idle (template_id sb) sb w st)) s)
  | AReintegrate sb w => Some (on_shared (add_idle (template_id sb) sb w) s)
  | ARegister t => Some (on_shared (register_template t) s)
  | AZero => Some (on_shared (fun st => set_active 0 (set_idle 0 st)) s)
  end.

Fixpoint acts (l : list action) (s : PoolRun) : option PoolRun :=
  match l with
  | [] => Some s
  | a :: l' => match act a s with None => None | Some s' => acts l' s' end
  end.












(** *** An operation that runs alone is a sequence of its actions *)

(** The actions [l] lead from the pool [st] to [st'], whatever is in progress. *)
Definition leads (l : list action) (st st' : PoolManager) : Prop :=
  forall hs, acts l (mkPoolRun st hs) = Some (mkPoolRun st' hs).

Lemma leads_nil st : leads [] st st.
Proof. done. Qed.















Lemma stats_idle st : st_idle (stats st) = idle_sum (pools st).
Proof.
  unfold stats, idle_sum, idle_count. simpl. generalize (map_to_list (pools st)) as l. intros l.
  enough (H : forall n, fold_left (fun n kq => n + length (entries (snd kq))) l n =
    n + sum_list_with (fun kq => length (entries (snd kq))) l) by apply (H 0).
  induction l as [|kq l IH]; intros n; simpl; [lia|]. rewrite IH. lia.
Qed.

(** As long as the pool is not stopped and no template with idle sandboxes
    is registered again, the idle counter is the number of pooled sandboxes
    (modulo 2^64), the number [stats] reports. *)
Theorem idle_counter_exact (c : PoolConfig) (st : PoolManager) (w : W) :
  reachable c counter_safe st w ->
  total_idle st = as_u64 (Z.of_nat (st_idle (stats st))) /\
  st_idle (stats st) = idle_sum (pools st).
Proof.
  intros Hr. split; [|apply stats_idle]. rewrite stats_idle.
  induction Hr as [w|op st w st' w' Hr IH Ha Hs|st w w' Hr IH]; [done| |done].
  apply step_keeps in Hs as (_ & _ & _ & Hk). by apply (Hk Ha).
Qed.

(** ** Queue order *)

(** Check in a list of sandboxes, and take out everything. *)
Fixpoint checkin_all (sbs : list (@Sandbox CH)) (q : PoolQueue) (w : W) : PoolQueue * W :=
  match sbs with
  | [] => (q, w)
  | sb :: l => let '(_, q, w) := queue_checkin sb q w in checkin_all l q w
  end.

Fixpoint drain (n : nat) (q : PoolQueue) : list (@Sandbox CH) :=
  match n with
  | O => []
  | S n =>
      match queue_checkout q with
      | (Some sb, q') => sb :: drain n q'
      | (None, _) => []
      end
  end.

Lemma drain_all n q : length (entries q) <= n -> drain n q = map pe_sandbox (entries q).
Proof.
  revert q. induction n as [|n IH]; intros q Hn.
  - destruct (entries q) eqn:E; [done|simpl in Hn; lia].
  - cbn [drain]. unfold queue_checkout. destruct (entries q) as [|e l] eqn:E; [done|].
    simpl. rewrite IH by (simpl in *; lia). done.
Qed.

Lemma checkin_all_entries sbs q w :
  map pe_sandbox (entries (fst (checkin_all sbs q w))) =
    map pe_sandbox (entries q) ++ take (max_idle q - length (entries q)) sbs.
Proof.
  revert q w. induction sbs as [|sb l IH]; intros q w; cbn [checkin_all].
  { by rewrite take_nil, app_nil_r. }
  destruct (queue_checkin sb q w) as [[ok q1] w1] eqn:E.
  apply queue_checkin_spec in E as (Hm & _ & Hok). rewrite IH. destruct ok.
  - destruct Hok as (Hl & now & He). rewrite Hm, He, length_app, map_app, <- app_assoc. simpl.
    replace (max_idle q - length (entries q)) with (S (max_idle q - (length (entries q) + 1))) by lia.
    done.
  - destruct Hok as [-> Hl]. by replace (max_idle q - length (entries q)) with 0 by lia.
Qed.

(** A queue is first in, first out and bounded: taking everything out
    after a series of check-ins gives the earlier entries, then the sandboxes
    checked in, in order, up to the free room; the others are refused. *)
Theorem queue_fifo (sbs : list (@Sandbox CH)) (q : PoolQueue) (w : W) :
  let q' := fst (checkin_all sbs q w) in
  drain (length (entries q')) q' =
    map pe_sandbox (entries q) ++ take (max_idle q - length (entries q)) sbs.
Proof. cbv zeta. rewrite drain_all by done. apply checkin_all_entries. Qed.

(** ** Recovery *)

Definition handled (r : RecoveryResult) : nat :=
  reintegrated r + skipped_pool_full r + skipped_not_registered r + failed r.

Lemma reintegrate_counts sb t q st res w st' res' w' :
  pools st !! t = Some q -> reintegrate sb t q st res w = (st', res', w') ->
  handled res' = S (handled res) /\
  idle_sum (pools st') + reintegrated res = idle_sum (pools st) + reintegrated res' /\
  is_Some (pools st' !! t) /\ orphaned_terminated res' = orphaned_terminated res.
Proof.
  unfold reintegrate, handled. intros Et. destruct (queue_checkin sb q w) as [[ok q1] w1] eqn:Ec.
  apply queue_checkin_spec in Ec as (Hm & _ & Hok).
  pose proof (idle_sum_put (pools st) t q q1 Et) as Hs.
  destruct ok; intros [= <- <- <-]; simpl; rewrite lookup_insert_eq.
  - destruct Hok as (Hl & now & He). rewrite He, length_app in Hs. simpl in Hs.
    split; [lia|]. split; [lia|]. eauto.
  - destruct Hok as [-> Hl]. split; [lia|]. split; [lia|]. eauto.
Qed.

Lemma recover_one_counts sb st res w st' res' w' :
  recover_one sb st res w = (st', res', w') ->
  handled res' = S (handled res) /\
  idle_sum (pools st') + reintegrated res = idle_sum (pools st) + reintegrated res' /\
  orphaned_terminated res' = orphaned_terminated res.
Proof.
  unfold recover_one. destruct (pools st !! template_id sb) as [q|] eqn:Et;
    [|intros [= <- <- <-]; unfold handled; simpl; lia].
  destruct (repo_find_by_id (sb_id sb) w) as [[[r|]|e] w1];
    [| |intros [= <- <- <-]; unfold handled; simpl; lia].
  - destruct (_ <=? _)%nat; [intros [= <- <- <-]; unfold handled; simpl; lia|].
    intros H. apply reintegrate_counts in H; [tauto|done].
  - destruct (repo_save sb w1) as [[u|e] w2]; [|intros [= <- <- <-]; unfold handled; simpl; lia].
    intros H. apply reintegrate_counts in H; [tauto|done].
Qed.

Lemma recover_loop_counts l st res w st' res' w' :
  recover_loop l st res w = (st', res', w') ->
  handled res' = handled res + length l /\
  idle_sum (pools st') + reintegrated res = idle_sum (pools st) + reintegrated res' /\
  orphaned_terminated res' = orphaned_terminated res.
Proof.
  revert st res w. induction l as [|sb l IH]; intros st res w; cbn [recover_loop].
  { intros [= <- <- <-]. simpl. lia. }
  destruct (recover_one sb st res w) as [[st1 res1] w1] eqn:E. apply recover_one_counts in E.
  intros E'%IH. simpl. lia.
Qed.

Lemma orphan_loop_counts ids l res w res' w' :
  orphan_loop ids l res w = (res', w') ->
  handled res' = handled res /\ reintegrated res' = reintegrated res /\
  orphaned_terminated res <= orphaned_terminated res' <= orphaned_terminated res +
    length (List.filter (fun sb => negb (bool_decide (sb_id sb ∈ ids)) &&
                                   negb (is_terminal (status sb))) l).
Proof.
  revert res w. induction l as [|sb l IH]; intros res w; cbn [orphan_loop].
  { intros [= <- <-]. simpl. lia. }
  unfold orphan_one. cbn [List.filter]. destruct (bool_decide _); [apply IH|]. cbn [negb andb].
  unfold terminate. destruct (status sb); cbn [is_terminal negb];
    try (destruct (repo_update _ w) as [[u|e] w1]); intros H%IH; unfold handled in *; simpl in *; lia.
Qed.

(** Recovery never fails.  When the provider cannot list its sandboxes it
    does nothing; otherwise every listed sandbox is counted exactly once as
    reintegrated, skipped for a full pool, skipped for an unregistered template
    or failed, the pools grow by exactly the reintegrated ones, and only
    non-terminal repository sandboxes unknown to the provider can be counted as
    terminated orphans. *)
Theorem recovery_accounts (st : PoolManager) (w : W) :
  exists res st' w', recover_active_sandboxes st w = (Ok res, st', w') /\
  match fst (prov_list_sandboxes recovery_filter w) with
  | Err _ => res = RecoveryResult_default /\ st' = st
  | Ok l =>
      reintegrated res + skipped_pool_full res + skipped_not_registered res + failed res = length l /\
      idle_sum (pools st') = idle_sum (pools st) + reintegrated res /\
      exists active, orphaned_terminated res <=
        length (List.filter (fun sb => negb (bool_decide (sb_id sb ∈ map sb_id l)) &&
                                       negb (is_terminal (status sb))) active)
  end.
Proof.
  unfold recover_active_sandboxes.
  destruct (prov_list_sandboxes recovery_filter w) as [[l|e] w1]; [|eexists _, _, _; by split].
  destruct (recover_loop l st _ w1) as [[st1 res1] w2] eqn:E.
  apply recover_loop_counts in E as (A1 & A2 & A3). unfold handled in A1. simpl in *.
  destruct (repo_find_active w2) as [[act|e] w3].
  - destruct (orphan_loop _ act res1 w3) as [res2 w4] eqn:Eo.
    apply orphan_loop_counts in Eo as (B1 & B2 & B3). unfold handled in B1.
    eexists _, _, _. split; [done|]. split; [lia|]. split; [lia|]. exists act. lia.
  - eexists _, _, _. split; [done|]. split; [lia|]. split; [lia|]. exists []. simpl. lia.
Qed.

(** ** What the pool does not do *)

Lemma checkout_direct t ms st w :
  creates -> pools st !! t = None -> 0 < permits st ->
  exists sb w', pool_checkout t ms st w =
    Some (Ok sb, set_active (fetch_add (total_active st) 1) st, w').
Proof.
  intros [Hc Hs] Et Hp. unfold pool_checkout. rewrite Et. destruct (permits st) as [|n] eqn:Ep; [lia|].
  unfold checkout_create. destruct (generate_id w) as [id w1].
  specialize (Hc id t ResourcesSpec_default NetworkSpec_default ∅ ms w1).
  destruct (prov_create _ _ _ _ _ _ _) as [[sb|e] w2]; [|done].
  specialize (Hs sb w2). destruct (repo_save sb w2) as [[u|e] w3]; [|done].
  eexists _, _. do 2 f_equal. unfold set_permits, set_active. simpl. by rewrite <- Ep.
Qed.

(** [max_total] does not bound the number of sandboxes: with a provider
    that can create them, any number of check-outs succeeds, and the state in
    which they are all active is reachable, whatever positive [max_total] is. *)
Theorem max_total_unenforced (c : PoolConfig) (n : nat) (w : W) :
  creates -> 0 < max_total c ->
  exists st, reachable c counter_safe st w /\ total_active st = as_u64 (Z.of_nat n) /\
    (forall t, pools st !! t = None) /\
    (forall t ms, exists sb st' w', pool_checkout t ms st w = Some (Ok sb, st', w')).
Proof.
  intros Hc Hm.
  assert (H : exists st, reachable c counter_safe st w /\ total_active st = as_u64 (Z.of_nat n) /\
    (forall t, pools st !! t = None) /\ permits st = max_total c).
  { induction n as [|n (st & Hr & Ha & Hp & Hn)].
    - exists (pool_new c). split; [constructor|]. done.
    - destruct (checkout_direct [] 0%Z st w Hc (Hp []) ltac:(lia)) as (sb & w' & E).
      eexists. split; [|split; [|split]].
      + eapply reach_world. eapply (reach_op _ _ (PCheckout [] 0%Z) st w); [done|done|].
        cbn [pool_step]. by rewrite E.
      + simpl. unfold fetch_add. rewrite Ha, as_u64_add. f_equal. lia.
      + exact Hp.
      + exact Hn. }
  destruct H as (st & Hr & Ha & Hp & Hn). exists st. do 3 (split; [done|]). intros t ms.
  destruct (checkout_direct t ms st w Hc (Hp t) ltac:(lia)) as (sb & w' & E). eauto.
Qed.

Lemma retain_fresh timeout l w :
  (forall e w, e ∈ l -> fst (is_idle_timeout timeout e w) = false) ->
  exists w', retain_loop timeout l w = (l, [], w').
Proof.
  revert w. induction l as [|e l IH]; intros w Hf; cbn [retain_loop]; [by eauto|].
  pose proof (Hf e w (list_elem_of_here _ _)) as He.
  destruct (is_idle_timeout timeout e w) as [out w1]. simpl in He. subst out.
  destruct (IH w1) as [w' ->]; [|by eauto]. intros e' w'' Hin. apply Hf. by apply list_elem_of_further.
Qed.

(** Stopping does not terminate the pool's sandboxes: the ones that are
    not idle for too long stay in their queues while the counters are set to
    zero, and the next check-out returns one of them and wraps the idle counter
    to 2^64 - 1. *)
Theorem stop_leaves_sandboxes (st : PoolManager) (w : W) (t : str) (q : PoolQueue) (e : PoolEntry)
    (l : list PoolEntry) (ms : Z) :
  (forall t q e w, pools st !! t = Some q -> e ∈ entries q ->
     fst (is_idle_timeout (idle_timeout_ms q) e w) = false) ->
  pools st !! t = Some q -> entries q = e :: l ->
  let '(st', w') := pool_stop st w in
  pools st' = pools st /\ total_idle st' = 0%Z /\ total_active st' = 0%Z /\
  exists st'' w'', pool_checkout t ms st' w' = Some (Ok (pe_sandbox e), st'', w'') /\
    total_idle st'' = u64_max.
Proof.
  intros Hf Et Ee. unfold pool_stop.
  assert (He : forall keys st0 n w, pools st0 = pools st -> 
    exists st1 w1, evict_loop keys st0 n w = (st1, n, w1) /\ pools st1 = pools st).
  { intros keys. induction keys as [|k ks IH]; intros st0 n w0 Hp; cbn [evict_loop]; [by eauto|].
    destruct (pools st0 !! k) as [q0|] eqn:Ek; [|by apply IH]. rewrite Hp in Ek.
    unfold evict_idle. destruct (retain_fresh (idle_timeout_ms q0) (entries q0) w0) as [w1 ->].
    { intros e0 w1 Hin. by apply (Hf k). }
    cbn [discard_loop]. apply IH. simpl. rewrite Hp. apply insert_id.
    rewrite Ek. by destruct q0. }
  destruct (He (pool_keys st) st 0%Z w eq_refl) as (st1 & w1 & -> & Hp). simpl.
  split; [done|]. split; [done|]. split; [done|].
  unfold pool_checkout. simpl. rewrite Hp, Et. unfold queue_checkout. rewrite Ee. simpl.
  eexists _, _. split; [done|]. done.
Qed.

(** Checking a sandbox in terminates it and then puts that same sandbox
    into the queue: when the queue is empty, the next check-out of the template
    hands out a sandbox the provider no longer runs. *)
Theorem checkin_recycles_terminated `{!ProviderLaws W} (id : str) (st : PoolManager) (w w1 : W)
    (sb : Sandbox) (q : PoolQueue) (ms : Z) :
  repo_find_by_id id w = (Ok (Some sb), w1) ->
  is_ok (fst (prov_terminate id w1)) = true ->
  pools st !! template_id sb = Some q -> entries q = [] -> 0 < max_idle q ->
  exists st' w', pool_checkin id st w = (Ok tt, st', w') /\
  exists st'' w'', pool_checkout (template_id sb) ms st' w' = Some (Ok sb, st'', w'') /\
    alive w'' id = false.
Proof.
  intros Hf Ht Et Ee Hm. unfold pool_checkin. rewrite Hf, Et. unfold queue_checkin.
  rewrite Ee. cbn [length]. rewrite (proj2 (Nat.leb_gt _ _)) by done.
  set (w2 := snd (prov_terminate id w1)).
  unfold PoolEntry_new. pose proof (law_clock w2) as Hc. destruct (instant_now w2) as [now w3].
  simpl in Hc. eexists _, _. split; [done|].
  unfold pool_checkout. simpl. rewrite lookup_insert_eq. simpl.
  eexists _, _. split; [done|]. rewrite law_update_alive, Hc. unfold w2.
  rewrite law_terminate by done. by rewrite str_eqb_refl, andb_false_r.
Qed.
End Pool.

(** ** A simulated world

    A provider that always creates, the in-memory repository, a clock and a
    counter of identifiers: an instance of the ports and of their laws, on which
    the theorems above are applied. *)
Module Sim.

#[local] Existing Instance Z_chrono.

Record SimWorld := mkWorld {
  sw_store : gmap str (@Sandbox Z_chrono);
  sw_alive : list str;
  sw_clock : Z;
  sw_next : N
}.

Definition on_store {A} (f : gmap str (@Sandbox Z_chrono) -> A * gmap str (@Sandbox Z_chrono))
    (w : SimWorld) : A * SimWorld :=
  let '(a, m) := f (sw_store w) in (a, mkWorld m (sw_alive w) (sw_clock w) (sw_next w)).

#[export] Instance sim_repository : SandboxRepository SimWorld := {|
  repo_save := fun sb => on_store (InMemory.im_save sb);
  repo_find_by_id := fun id => on_store (InMemory.im_find_by_id id);
  repo_update := fun sb => on_store (InMemory.im_update sb);
  repo_delete := fun id => on_store (InMemory.im_delete id);
  repo_find_active := on_store InMemory.im_find_active;
  repo_find_expired := on_store (InMemory.im_find_expired 0%Z)
|}.

#[export] Instance sim_provider : SandboxProvider SimWorld := {|
  prov_list_sandboxes := fun _ w =>
    (Ok (List.filter (fun sb => bool_decide (sb_id sb ∈ sw_alive w))
           (map snd (map_to_list (sw_store w)))), w);
  prov_create := fun id t r n _ _ w =>
    (Ok (@set_status Z_chrono Running (@Sandbox_new Z_chrono id t (lit "sim") None r n (sw_clock w))),
     mkWorld (sw_store w) (id :: sw_alive w) (sw_clock w) (sw_next w));
  prov_terminate := fun id w =>
    (Ok tt, mkWorld (sw_store w) (List.filter (fun i => negb (str_eqb i id)) (sw_alive w))
              (sw_clock w) (sw_next w))
|}.

#[export] Instance sim_environment : Environment SimWorld := {|
  instant_now := fun w =>
    (sw_clock w, mkWorld (sw_store w) (sw_alive w) (sw_clock w + 1) (sw_next w));
  generate_id := fun w =>
    (lit "sandbox-" ++ show_N (sw_next w),
     mkWorld (sw_store w) (sw_alive w) (sw_clock w) (sw_next w + 1))
|}.

Definition sim_alive (w : SimWorld) (id : str) : bool := existsb (str_eqb id) (sw_alive w).

Lemma sim_alive_filter id l id' :
  existsb (str_eqb id') (List.filter (fun i => negb (str_eqb i id)) l) =
  existsb (str_eqb id') l && negb (str_eqb id' id).
Proof.
  induction l as [|i l IH]; [done|]. simpl. destruct (str_eqb i id) eqn:E; simpl; rewrite IH.
  - apply str_eqb_eq in E as ->. destruct (str_eqb id' id); simpl; [|done]. by rewrite andb_false_r.
  - destruct (str_eqb id' i) eqn:E'; simpl; [|done]. apply str_eqb_eq in E' as ->. by rewrite E.
Qed.

#[export] Instance sim_laws : ProviderLaws SimWorld.
Proof.
  refine {| alive := sim_alive |}.
  - intros id w _ id'. apply sim_alive_filter.
  - done.
  - done.
Defined.

Lemma sim_creates : creates (W := SimWorld).
Proof. split; done. Qed.

Definition world0 : SimWorld := mkWorld ∅ [] 0 0.
Definition small : PoolConfig := mkConfig 1 2 1 600000 5000.

(** A new pool with the template [rust] registered. *)
Definition pool1 : PoolManager := register_template (lit "rust") (pool_new small).

Lemma pool1_reachable : reachable small counter_safe pool1 world0.
Proof.
  eapply (reach_op _ _ (PRegister (lit "rust"))); [constructor| |reflexivity].
  intros q. simpl. by rewrite lookup_empty.
Qed.

Lemma reachable_any c st (w : SimWorld) :
  reachable c counter_safe st w -> reachable c (fun _ _ => True) st w.
Proof.
  induction 1 as [w|op st w st' w' _ IH _ Hs|st w w' _ IH];
    [apply reach_new|by eapply reach_op|by eapply reach_world].
Qed.


Lemma idle_counter_exact_witness : total_idle pool1 = as_u64 (Z.of_nat (st_idle (stats pool1))).
Proof. apply (idle_counter_exact small pool1 world0). apply pool1_reachable. Defined.



Lemma max_total_unenforced_witness :
  exists st, reachable small counter_safe st world0 /\ total_active st = as_u64 (Z.of_nat 500) /\
    (forall t, pools st !! t = None) /\
    (forall t ms, exists sb st' w', pool_checkout t ms st world0 = Some (Ok sb, st', w')).
Proof. apply (max_total_unenforced small 500 world0); [apply sim_creates|simpl; lia]. Defined.

Definition warm : @Sandbox Z_chrono :=
  @set_status Z_chrono Running
    (@Sandbox_new Z_chrono (lit "s1") (lit "rust") (lit "sim") None ResourcesSpec_default
       NetworkSpec_default 0%Z).

(** A pool with one warm sandbox that never times out. *)
Definition warm_queue : PoolQueue := mkQueue [mkPEntry warm 0 0] 1 2 600000.
Definition pool2 : PoolManager := mkPool {[lit "rust" := warm_queue]} small 0 1 1.

(** A world whose clock stands still. *)
#[local] Instance frozen_environment : Environment SimWorld := {|
  instant_now := fun w => (0%Z, w);
  generate_id := fun w => (lit "sandbox", w)
|}.

Lemma stop_leaves_sandboxes_witness :
  total_idle (fst (pool_stop (ENV := frozen_environment) pool2 world0)) = 0%Z.
Proof.
  pose proof (stop_leaves_sandboxes (ENV := frozen_environment) pool2 world0 (lit "rust") warm_queue
    (mkPEntry warm 0 0) [] 1000) as H.
  destruct (pool_stop (ENV := frozen_environment) pool2 world0) as [st' w'].
  apply H; [|reflexivity|reflexivity].
  intros t q e w Hq He. unfold pool2 in Hq. simpl in Hq. apply lookup_singleton_Some in Hq as [_ <-].
  simpl in He. apply list_elem_of_singleton in He as ->. reflexivity.
Defined.

Definition pool3 : PoolManager := mkPool {[lit "rust" := PoolQueue_new 1 2 600000]} small 1 0 1.
Definition world3 : SimWorld := mkWorld {[lit "s1" := warm]} [lit "s1"] 0 0.

Lemma checkin_recycles_terminated_witness :
  exists st' w', pool_checkin (ENV := sim_environment) (lit "s1") pool3 world3 = (Ok tt, st', w') /\
  exists st'' w'', pool_checkout (ENV := sim_environment) (template_id warm) 1000 st' w' =
      Some (Ok warm, st'', w'') /\
    @alive _ _ _ _ sim_environment sim_laws w'' (lit "s1") = false.
Proof.
  apply (checkin_recycles_terminated (ENV := sim_environment) (lit "s1") pool3 world3 world3 warm
    (PoolQueue_new 1 2 600000) 1000); [reflexivity..|simpl; lia].
Defined.
End Sim.
