(* ===== verification/Sanitizer.v ===== *)
(** * The command sanitizer

    Models [enrichment-engine/src/sanitizer.rs]: the redaction of secrets from
    a command line before it is stored.  The code works on the UTF-8 bytes of
    the input with absolute positions; a checker called at position [i] reads
    nothing before [i], so here it takes [rest], the bytes from [i] on, and its
    positions are relative to [i].  A slice [&input[i..j]] that does not fall on
    character boundaries panics in Rust: that is [None] here. *)

From S2P Require Import Prelude.

(** ** Character boundaries *)

(** Unicode scalar values are below 0x110000. *)
Definition scalar (c : char) : Prop := (c < 0x110000)%N.

Definition is_continuation (b : byte) : bool := in_range 0x80 0xBF b.

(** [str::is_char_boundary]. *)
Definition is_char_boundary (rest : bytes) (k : nat) : bool :=
  match k with
  | O => match rest with [] => true | b :: _ => negb (is_continuation b) end
  | _ => match drop k rest with
         | [] => (k =? length rest)%nat
         | b :: _ => negb (is_continuation b)
         end
  end.

(** [&input[i..i + k]]. *)
Definition slice_to (rest : bytes) (k : nat) : option bytes :=
  if is_char_boundary rest 0 && is_char_boundary rest k then Some (take k rest) else None.

(** ** Scanning loops *)

Definition among (cs : list ascii) (b : byte) : bool := existsb (fun a => (b =? chr a)%N) cs.

Definition newline : ascii := "010"%char.
Definition tab : ascii := "009"%char.
Definition creturn : ascii := "013"%char.
Definition squote : ascii := "039"%char.
Definition dquote : ascii := "034"%char.

Definition is_ascii_whitespace (b : byte) : bool :=
  (b =? 32)%N || (b =? 9)%N || (b =? 10)%N || (b =? 12)%N || (b =? 13)%N.

(** [while p < len && !stop(bytes[p]) { p += 1 }]. *)
Definition scan_until (stop : N -> bool) (rest : bytes) (p : nat) : nat :=
  p + length (fst (span (fun b => negb (stop b)) (drop p rest))).

(** The delimiters of a value. *)
Definition value_delim : byte -> bool :=
  among [" "%char; tab; squote; dquote; ","%char; "&"%char; newline; creturn].
(** The same without the carriage return, as the snake-case keys have it. *)
Definition snake_delim : byte -> bool :=
  among [" "%char; tab; squote; dquote; ","%char; "&"%char; newline].
Definition aws_delim : byte -> bool :=
  among [" "%char; tab; newline; creturn; squote; dquote; ","%char].
Definition jwt_delim : byte -> bool := among [" "%char; tab; newline; creturn].

Definition is_quote (b : byte) : bool := among [squote; dquote] b.

(** At an opening quote: the position after the closing one, or the end. *)
Definition skip_quoted (rest : bytes) (p : nat) : nat :=
  match drop p rest with
  | [] => p
  | quote :: _ =>
      let e := scan_until (fun b => (b =? quote)%N) rest (S p) in
      if (e <? length rest)%nat then S e else e
  end.

Definition quote_at (rest : bytes) (p : nat) : bool :=
  match drop p rest with b :: _ => is_quote b | [] => false end.

(** ** Checkers *)

Definition check_one_assignment (pattern : bytes) (key_len : nat) (rest : bytes) :
    option (nat * nat * nat) :=
  if starts_with pattern rest then
    let value_start := length pattern in
    let value_end := scan_until value_delim rest value_start in
    let value_end := if quote_at rest value_end then skip_quoted rest value_end else value_end in
    Some (key_len, value_start, value_end)
  else None.

Definition check_assignment_pattern (rest : bytes) : option (nat * nat * nat) :=
  match check_one_assignment (lit "token=") 5 rest with
  | Some r => Some r
  | None =>
      match check_one_assignment (lit "password=") 8 rest with
      | Some r => Some r
      | None => check_one_assignment (lit "api_key=") 7 rest
      end
  end.

Definition check_bearer_pattern (rest : bytes) : option nat :=
  if starts_with (lit "Bearer ") rest then Some 7 else None.

Definition check_aws_key_pattern (rest : bytes) : option (nat * nat) :=
  if starts_with (lit "AKIA") rest then
    let e := scan_until aws_delim rest 4 in
    if (8 <=? e)%nat then Some (0, e) else None
  else None.

(** Position of the first ['='], when there is one and it is not at the start. *)
Definition find_eq (rest : bytes) : option nat :=
  match rest with
  | [] => None
  | b :: _ =>
      if (b =? chr "=")%N then None
      else
        let eq_pos := scan_until (fun b => (b =? chr "=")%N) rest 0 in
        if (eq_pos <? length rest)%nat then Some eq_pos else None
  end.

Definition snake_byte (b : byte) : bool :=
  is_ascii_uppercase b || (b =? chr "_")%N || is_ascii_digit b.

(** The loop over the key: [None] is its early return, [Some has_upper] its end. *)
Definition snake_key (key : bytes) : option bool :=
  match key with
  | [] => Some false
  | b :: _ =>
      if is_ascii_digit b || negb (forallb snake_byte key) then None
      else Some (existsb is_ascii_uppercase key)
  end.

Definition check_snake_key_pattern (rest : bytes) : option (nat * nat * nat) :=
  match find_eq rest with
  | None => None
  | Some eq_pos =>
      if (64 <? eq_pos)%nat then None
      else
        match snake_key (take eq_pos rest) with
        | None => None
        | Some has_upper =>
            if has_upper && (3 <=? eq_pos)%nat then
              let value_start := S eq_pos in
              Some (eq_pos, value_start, scan_until snake_delim rest value_start)
            else None
        end
  end.

Definition token_byte (b : byte) : bool :=
  is_ascii_digit b || is_ascii_lowercase b || is_ascii_uppercase b.

(** One prefix: [None] when it is absent, [Some r] the function's answer. *)
Definition check_github_prefix (prefix rest : bytes) : option (option (nat * nat)) :=
  if starts_with prefix rest then
    let e := scan_until (fun b => value_delim b || negb (token_byte b)) rest (length prefix) in
    if (8 <=? e - length prefix)%nat then Some (Some (0, e)) else Some None
  else None.

Fixpoint check_github_prefixes (prefixes : list bytes) (rest : bytes) : option (nat * nat) :=
  match prefixes with
  | [] => None
  | p :: ps =>
      match check_github_prefix p rest with
      | Some r => r
      | None => check_github_prefixes ps rest
      end
  end.

Definition check_github_token (rest : bytes) : option (nat * nat) :=
  check_github_prefixes [lit "ghp_"; lit "gho_"; lit "ght_"; lit "ghs_"] rest.

Definition check_openai_long_prefix (rest prefix : bytes) (min_chars : nat) : option (nat * nat) :=
  if starts_with prefix rest then
    let e := scan_until value_delim rest (length prefix) in
    if (min_chars <=? e - length prefix)%nat then Some (0, e) else None
  else None.

Definition check_openai_key (rest : bytes) : option (nat * nat) :=
  match check_openai_long_prefix rest (lit "sk-proj-") 16 with
  | Some r => Some r
  | None =>
      match check_openai_long_prefix rest (lit "sk-svcacct-") 16 with
      | Some r => Some r
      | None =>
          match check_openai_long_prefix rest (lit "sk-admin-") 16 with
          | Some r => Some r
          | None =>
              if starts_with (lit "sk-") rest then
                let e := scan_until value_delim rest 3 in
                if (48 <=? e - 3)%nat then Some (0, e) else None
              else None
          end
      end
  end.

Definition check_cli_secret_flag (rest : bytes) : option nat :=
  let pos := scan_until (fun b => negb (among [" "%char; tab] b)) rest 0 in
  let after := drop pos rest in
  if (length rest <=? pos)%nat then None
  else if starts_with (lit "--secret ") after then Some (pos + 9)
  else if starts_with (lit "--api-key ") after then Some (pos + 10)
  else None.

Definition check_jwt_prefix (rest : bytes) : option (nat * nat) :=
  if starts_with (lit "eyJ") rest then
    let e := scan_until jwt_delim rest 3 in
    let dot_count := length (List.filter (fun b => (b =? chr ".")%N) (drop 3 (take e rest))) in
    if (dot_count <? 2)%nat then None
    else if (50 <=? e)%nat && (e <=? 1200)%nat then Some (0, e) else None
  else None.

Definition suffix_byte (b : byte) : bool :=
  is_ascii_lowercase b || is_ascii_digit b || (b =? chr "_")%N.

Definition has_suffix (suffix key : bytes) : bool :=
  (length suffix <=? length key)%nat
  && str_eqb (drop (length key - length suffix) key) suffix.

Definition secret_suffixes : list bytes :=
  [lit "_key"; lit "_token"; lit "_secret"; lit "_password"].

Definition check_lowercase_secret_suffix (rest : bytes) : option (nat * nat * nat) :=
  match find_eq rest with
  | None => None
  | Some key_len =>
      if (key_len <? 3)%nat then None
      else
        let key := take key_len rest in
        if negb (forallb suffix_byte key) then None
        else if negb (existsb (fun s => has_suffix s key) secret_suffixes) then None
        else
          let value_start := S key_len in
          let value_end :=
            if quote_at rest value_start then skip_quoted rest value_start
            else scan_until value_delim rest value_start in
          Some (key_len, value_start, value_end)
  end.

(** ** The loop *)

Definition char_len (b : byte) : nat :=
  if (b <? 0x80)%N then 1 else if (b <? 0xE0)%N then 2 else if (b <? 0xF0)%N then 3 else 4.

(** Push [&input[i..i + k]], then [text], and continue at [i + next]. *)
Definition emit (rest : bytes) (k : nat) (text : bytes) (next : nat) : option (bytes * nat) :=
  match slice_to rest k with Some p => Some (p ++ text, next) | None => None end.

(** The skip after [Bearer ]: the token, then the white space behind it. *)
Definition bearer_next (rest : bytes) (bearer_end : nat) : nat :=
  let i1 := scan_until (fun b => is_ascii_whitespace b || (b =? chr squote)%N) rest bearer_end in
  scan_until (fun b => negb (is_ascii_whitespace b)) rest i1.

(** The pattern found at the current position: the length of the text kept,
    the text that replaces the rest of the match, and the next position. *)
Definition find_pattern (rest : bytes) : option (nat * bytes * nat) :=
  match check_assignment_pattern rest with
  | Some (pattern_len, _, value_end) => Some (pattern_len, lit "=[REDACTED]", value_end)
  | None =>
  match check_bearer_pattern rest with
  | Some bearer_end => Some (0, lit "Bearer [REDACTED]", bearer_next rest bearer_end)
  | None =>
  match check_aws_key_pattern rest with
  | Some (start, e) => Some (start, lit "[REDACTED]", e)
  | None =>
  match check_github_token rest with
  | Some (start, e) => Some (start, lit "[REDACTED]", e)
  | None =>
  match check_openai_key rest with
  | Some (start, e) => Some (start, lit "[REDACTED]", e)
  | None =>
  match check_cli_secret_flag rest with
  | Some flag_end =>
      Some (flag_end, lit "[REDACTED]", scan_until is_ascii_whitespace rest flag_end)
  | None =>
  match check_jwt_prefix rest with
  | Some (start, e) => Some (start, lit "[REDACTED]", e)
  | None =>
  match check_snake_key_pattern rest with
  | Some (key_len, _, value_end) => Some (key_len, lit "=[REDACTED]", value_end)
  | None =>
  match check_lowercase_secret_suffix rest with
  | Some (key_len, _, value_end) => Some (key_len, lit "=[REDACTED]", value_end)
  | None => None
  end end end end end end end end end.

(** One iteration of the loop on a non-empty [rest]. *)
Definition sanitize_step (b : byte) (rest : bytes) : option (bytes * nat) :=
  match find_pattern rest with
  | Some (kept, text, next) => emit rest kept text next
  | None => emit rest (char_len b) [] (char_len b)
  end.

Fixpoint sanitize_loop (fuel : nat) (rest result : bytes) : option bytes :=
  match rest with
  | [] => Some result
  | b :: _ =>
      match fuel with
      | O => None
      | S f =>
          match sanitize_step b rest with
          | Some (out, next) => sanitize_loop f (drop next rest) (result ++ out)
          | None => None
          end
      end
  end.

Definition sanitize_command (input : bytes) : option bytes :=
  sanitize_loop (length input) input [].

Example sanitize_ex1 :
  sanitize_command (lit "curl -H 'Authorization: Bearer abc123'") =
  Some (lit "curl -H 'Authorization: Bearer [REDACTED]'").
Proof. reflexivity. Qed.
Example sanitize_ex2 :
  sanitize_command (lit "api_key=sk-12345&model=gpt-4") = Some (lit "api_key=[REDACTED]&model=gpt-4").
Proof. reflexivity. Qed.
Example sanitize_ex3 :
  sanitize_command (lit "Bearer abc -X") = Some (lit "Bearer [REDACTED]-X").
Proof. reflexivity. Qed.

(** ** UTF-8 boundaries *)

Definition ascii_byte (b : byte) : Prop := (b < 0x80)%N.

(** A set of characters with the ASCII ones, closed under what the sanitizer
    writes: its output uses no character outside of the set of its input. *)
Class Alphabet := {
  in_alphabet : char -> Prop;
  alphabet_scalar : forall c, in_alphabet c -> scalar c;
  ascii_in_alphabet : forall c, ascii_byte c -> in_alphabet c
}.

Lemma ascii_below_limit c : ascii_byte c -> scalar c.
Proof. unfold ascii_byte, scalar. lia. Qed.

#[export] Instance scalars : Alphabet :=
  {| in_alphabet := scalar; alphabet_scalar c H := H; ascii_in_alphabet := ascii_below_limit |}.

(** Literals of the source are ASCII. *)
Ltac ascii_lit := repeat (constructor; [reflexivity|]); constructor.

Section Boundaries.
Context {AL : Alphabet}.

(** The encoding of a string over the alphabet. *)
Definition valid (r : bytes) : Prop := exists s, Forall in_alphabet s /\ r = utf8 s.

Lemma utf8_app a b : utf8 (a ++ b) = utf8 a ++ utf8 b.
Proof. apply flat_map_app. Qed.

Lemma utf8_ascii s : Forall ascii_byte s -> utf8 s = s.
Proof.
  unfold ascii_byte. induction 1 as [|c s Hc Hs IH]; [done|]. unfold utf8 in *. simpl. rewrite IH.
  unfold utf8_char. by rewrite (proj2 (N.ltb_lt c 0x80)).
Qed.

Lemma valid_nil : valid [].
Proof. by exists []. Qed.

Lemma valid_app a b : valid a -> valid b -> valid (a ++ b).
Proof.
  intros (s & Hs & ->) (t & Ht & ->). exists (s ++ t). rewrite utf8_app.
  split; [by apply Forall_app|done].
Qed.

Lemma valid_ascii r : Forall ascii_byte r -> valid r.
Proof.
  intros H. exists r. rewrite utf8_ascii by done. split; [|done].
  eapply Forall_impl; [exact H|]. apply ascii_in_alphabet.
Qed.

Lemma continuation_iff b : is_continuation b = false <-> (b < 0x80 \/ 0xC0 <= b)%N.
Proof. unfold is_continuation, in_range. rewrite andb_false_iff, !N.leb_gt. lia. Qed.

(** A character's encoding: a byte that is no continuation, then continuations;
    its length is the one the loop computes from the first byte. *)
Lemma utf8_char_shape c :
  scalar c -> exists b t, utf8_char c = b :: t /\ is_continuation b = false /\
    Forall (fun x => is_continuation x = true) t /\ S (length t) = char_len b /\
    ((b < 0x80)%N -> t = []).
Proof.
  unfold scalar, utf8_char. intros Hc.
  assert (Hk : forall n, is_continuation (128 + n mod 64) = true).
  { intros n. unfold is_continuation, in_range. rewrite andb_true_iff, !N.leb_le.
    pose proof (N.mod_lt n 64). lia. }
  destruct (c <? 0x80)%N eqn:E1; [|destruct (c <? 0x800)%N eqn:E2;
    [|destruct (c <? 0x10000)%N eqn:E3]]; bools; eexists _, _; (split; [reflexivity|]);
    rewrite continuation_iff; unfold char_len.
  - split; [lia|]. split; [constructor|]. by rewrite (proj2 (N.ltb_lt c _)) by lia.
  - assert (c / 64 < 32)%N by (apply N.Div0.div_lt_upper_bound; lia).
    assert (2 <= c / 64)%N by (apply N.div_le_lower_bound; lia).
    split; [lia|]. split; [by repeat constructor|].
    rewrite (proj2 (N.ltb_ge _ _)), (proj2 (N.ltb_lt _ 0xE0)) by lia. split; [done|lia].
  - assert (c / 4096 < 16)%N by (apply N.Div0.div_lt_upper_bound; lia).
    split; [lia|]. split; [by repeat constructor|].
    rewrite (proj2 (N.ltb_ge _ _)), (proj2 (N.ltb_ge _ 0xE0)), (proj2 (N.ltb_lt _ 0xF0)) by lia.
    split; [done|lia].
  - split; [lia|]. split; [by repeat constructor|].
    rewrite (proj2 (N.ltb_ge _ _)), (proj2 (N.ltb_ge _ 0xE0)), (proj2 (N.ltb_ge _ 0xF0)) by lia.
    split; [done|lia].
Qed.

Definition starts_char (r : bytes) : Prop :=
  match r with [] => True | b :: _ => is_continuation b = false end.

Lemma valid_starts r : valid r -> starts_char r.
Proof.
  intros (s & Hs & ->). destruct Hs as [|c s Hc Hs]; [done|].
  destruct (utf8_char_shape c (alphabet_scalar c Hc)) as (b & t & E & Hb & _). unfold utf8. simpl. by rewrite E.
Qed.

(** A position where a character starts splits a valid string in two. *)
Lemma valid_split k r :
  valid r -> starts_char (drop k r) -> valid (take k r) /\ valid (drop k r).
Proof.
  intros (s & Hs & ->). revert k. induction Hs as [|c s Hc Hs IH]; intros k Hk.
  - change (utf8 []) with (@nil N). rewrite take_nil, drop_nil. split; apply valid_nil.
  - change (utf8 (c :: s)) with (utf8_char c ++ utf8 s) in *.
    destruct (decide (k = 0)) as [->|Hk0].
    { simpl. split; [apply valid_nil|]. exists (c :: s). split; [by constructor|done]. }
    destruct (decide (length (utf8_char c) <= k)) as [Hle|Hlt].
    + rewrite take_app_ge, drop_app_ge by done. rewrite drop_app_ge in Hk by done.
      destruct (IH _ Hk) as [H1 H2]. split; [|done]. apply valid_app; [|done].
      exists [c]. split; [by constructor|]. unfold utf8. simpl. by rewrite app_nil_r.
    + destruct (utf8_char_shape c (alphabet_scalar c Hc)) as (b & t & E & _ & Ht & _). exfalso.
      rewrite E in *. simpl in Hlt. destruct k as [|k]; [done|]. simpl in Hk.
      rewrite drop_app_le in Hk by lia. destruct (drop k t) as [|x t'] eqn:Ed.
      * apply (f_equal length) in Ed. rewrite length_drop in Ed. simpl in Ed. lia.
      * simpl in Hk. rewrite <- (take_drop k t), Ed, Forall_app, Forall_cons in Ht.
        destruct Ht as (_ & Hx & _). congruence.
Qed.

Lemma boundary_starts rest k :
  k <= length rest -> starts_char (drop k rest) -> is_char_boundary rest k = true.
Proof.
  intros Hk Hs. unfold is_char_boundary. destruct k as [|k].
  - destruct rest as [|b r]; [done|]. simpl in Hs. by rewrite Hs.
  - destruct (drop (S k) rest) as [|b r] eqn:E; [|by simpl in Hs; rewrite Hs].
    apply (f_equal length) in E. rewrite length_drop in E. simpl in E. apply Nat.eqb_eq. lia.
Qed.

(** A position inside [rest] from which a valid string follows. *)
Definition good (rest : bytes) (k : nat) : Prop := k <= length rest /\ valid (drop k rest).

Lemma good_0 rest : valid rest -> good rest 0.
Proof. split; [lia|done]. Qed.

Lemma good_here rest k : valid rest -> k <= length rest -> starts_char (drop k rest) -> good rest k.
Proof. intros Hv Hk Hs. split; [done|]. by apply (valid_split k rest). Qed.

(** Past an ASCII byte. *)
Lemma good_next rest k b r :
  good rest k -> drop k rest = b :: r -> ascii_byte b -> good rest (S k).
Proof.
  intros [Hk Hv] E Hb. rewrite E in Hv. destruct Hv as (s & Hs & Es).
  destruct Hs as [|c s Hc Hs]; [done|].
  change (utf8 (c :: s)) with (utf8_char c ++ utf8 s) in Es.
  destruct (utf8_char_shape c (alphabet_scalar c Hc)) as (b' & t & Eb & _ & _ & _ & Ht). rewrite Eb in Es.
  injection Es as <- Es. rewrite (Ht Hb) in Es. simpl in Es.
  assert (Hd : drop (S k) rest = r).
  { replace (S k) with (k + 1) by lia. by rewrite <- drop_drop, E. }
  split.
  - apply (f_equal length) in E. rewrite length_drop in E. simpl in E. lia.
  - rewrite Hd, Es. by exists s.
Qed.

Lemma good_take rest k :
  valid rest -> good rest k -> slice_to rest k = Some (take k rest) /\ valid (take k rest).
Proof.
  intros Hv [Hk Hg]. split; [|apply (valid_split k rest); [done|by apply valid_starts]].
  unfold slice_to. rewrite !boundary_starts; [done|..]; try lia; try done; by apply valid_starts.
Qed.

Lemma good_prefix p rest :
  valid rest -> Forall ascii_byte p -> starts_with p rest = true -> good rest (length p).
Proof.
  intros Hv Hp [r ->]%starts_with_spec. revert Hv.
  induction Hp as [|c p Hc Hp IH]; intros Hv; [by apply good_0|].
  assert (Hg : good ((c :: p) ++ r) 1) by (eapply good_next; [by apply good_0|reflexivity|done]).
  destruct Hg as [_ Hg]. simpl in Hg. destruct (IH Hg) as [H1 H2].
  split; [simpl in *; lia|exact H2].
Qed.

(** ** Scanning *)

Lemma scan_until_drop stop rest p :
  drop (scan_until stop rest p) rest = snd (span (fun b => negb (stop b)) (drop p rest)).
Proof.
  unfold scan_until. rewrite <- drop_drop. rewrite <- (span_app (fun b => negb (stop b)) (drop p rest)) at 2.
  apply drop_app_length.
Qed.

Lemma scan_until_ge stop rest p : p <= scan_until stop rest p.
Proof. unfold scan_until. lia. Qed.

Lemma scan_until_le stop rest p : p <= length rest -> scan_until stop rest p <= length rest.
Proof.
  intros Hp. unfold scan_until.
  pose proof (f_equal length (span_app (fun b => negb (stop b)) (drop p rest))) as E.
  rewrite length_app, length_drop in E. lia.
Qed.

Lemma scan_until_stop stop rest p b r :
  drop (scan_until stop rest p) rest = b :: r -> stop b = true.
Proof. rewrite scan_until_drop. intros E%span_stop. by apply negb_false_iff in E. Qed.

(** Scanning over bytes of any kind up to an ASCII byte. *)
Lemma good_scan stop rest p :
  valid rest -> p <= length rest ->
  (forall b, stop b = true -> is_continuation b = false) -> good rest (scan_until stop rest p).
Proof.
  intros Hv Hp Hs. apply good_here; [done|by apply scan_until_le|].
  destruct (drop _ rest) as [|b r] eqn:E; [done|]. by apply Hs, (scan_until_stop _ _ _ _ _ E).
Qed.

(** Scanning over ASCII bytes. *)
Lemma good_scan_ascii stop rest p :
  good rest p -> (forall b, stop b = false -> ascii_byte b) -> good rest (scan_until stop rest p).
Proof.
  intros Hg Hs. unfold scan_until. remember (drop p rest) as d eqn:E. revert p Hg E.
  induction d as [|b d IH]; intros p Hg E; simpl; [by rewrite Nat.add_0_r|].
  destruct (negb (stop b)) eqn:Eb; [|by rewrite Nat.add_0_r].
  specialize (IH (S p)). destruct (span _ d) as [x y]. simpl in *.
  rewrite <- Nat.add_succ_comm. apply IH.
  - eapply good_next; [done|done|]. apply Hs. by destruct (stop b).
  - replace (S p) with (p + 1) by lia. by rewrite <- drop_drop, <- E.
Qed.

(** The stop sets hold ASCII bytes only. *)
Ltac stop_ascii :=
  let H := fresh in
  intros ? H; cbn in H;
  repeat (apply orb_true_iff in H as [H|H]); try discriminate; bools; subst; reflexivity.

Lemma value_delim_start b : value_delim b = true -> is_continuation b = false.
Proof. revert b. stop_ascii. Qed.
Lemma snake_delim_start b : snake_delim b = true -> is_continuation b = false.
Proof. revert b. stop_ascii. Qed.
Lemma aws_delim_start b : aws_delim b = true -> is_continuation b = false.
Proof. revert b. stop_ascii. Qed.
Lemma jwt_delim_start b : jwt_delim b = true -> is_continuation b = false.
Proof. revert b. stop_ascii. Qed.
Lemma quote_ascii b : is_quote b = true -> ascii_byte b.
Proof. revert b. stop_ascii. Qed.
Lemma whitespace_ascii b : is_ascii_whitespace b = true -> ascii_byte b.
Proof. revert b. stop_ascii. Qed.
Lemma blank_ascii b : among [" "%char; tab] b = true -> ascii_byte b.
Proof. revert b. stop_ascii. Qed.
Lemma ascii_start b : ascii_byte b -> is_continuation b = false.
Proof. intros H. apply continuation_iff. by left. Qed.
Lemma token_byte_ascii b : token_byte b = true -> ascii_byte b.
Proof.
  unfold token_byte, is_ascii_digit, is_ascii_lowercase, is_ascii_uppercase, in_range, ascii_byte.
  rewrite !orb_true_iff, !andb_true_iff, !N.leb_le. lia.
Qed.
#[local] Hint Resolve value_delim_start snake_delim_start aws_delim_start jwt_delim_start
  quote_ascii whitespace_ascii blank_ascii ascii_start token_byte_ascii : bastion.

(** ** Every checker answers with positions where characters start *)

(** Reading [b] where a good position has an ASCII byte. *)
Lemma good_after rest k b r :
  valid rest -> k <= length rest -> drop k rest = b :: r -> ascii_byte b -> good rest (S k).
Proof.
  intros Hv Hk E Hb. eapply good_next; [|exact E|done].
  apply good_here; [done..|]. rewrite E. simpl. by apply ascii_start.
Qed.

Lemma scan_until_lt stop rest p :
  scan_until stop rest p < length rest ->
  exists b r, drop (scan_until stop rest p) rest = b :: r /\ stop b = true.
Proof.
  intros Hl. destruct (drop (scan_until stop rest p) rest) as [|b r] eqn:E.
  - apply (f_equal length) in E. rewrite length_drop in E. simpl in E. lia.
  - exists b, r. split; [done|]. by eapply scan_until_stop.
Qed.

Lemma good_skip_quoted rest p :
  valid rest -> p <= length rest -> quote_at rest p = true ->
  good rest (skip_quoted rest p) /\ p < skip_quoted rest p.
Proof.
  unfold quote_at, skip_quoted. intros Hv Hp Hq.
  destruct (drop p rest) as [|q r] eqn:E; [done|]. apply quote_ascii in Hq.
  assert (Hp' : S p <= length rest).
  { apply (f_equal length) in E. rewrite length_drop in E. simpl in E. lia. }
  pose proof (scan_until_ge (fun b => (b =? q)%N) rest (S p)) as Hge.
  pose proof (scan_until_le (fun b => (b =? q)%N) rest (S p) Hp') as Hle.
  destruct (_ <? _)%nat eqn:El.
  - apply Nat.ltb_lt, scan_until_lt in El as (b & r' & Eb & Hb). bools. subst b.
    split; [|lia]. by eapply good_after.
  - split; [|lia]. apply good_scan; [done..|]. intros b Hb. bools. subst. by apply ascii_start.
Qed.

Lemma find_eq_spec rest k :
  valid rest -> find_eq rest = Some k ->
  0 < k < length rest /\ good rest k /\ good rest (S k).
Proof.
  unfold find_eq. intros Hv. destruct rest as [|b r] eqn:Er; [done|]. rewrite <- Er in *.
  destruct (b =? chr "=")%N eqn:Eb; [done|]. destruct (_ <? _)%nat eqn:El; [|done].
  intros [= <-]. apply Nat.ltb_lt in El.
  destruct (scan_until_lt _ _ _ El) as (x & t & Ex & Hx). bools. subst x.
  split.
  - split; [|done]. destruct (scan_until _ rest 0) eqn:E0; [|lia].
    rewrite Er in Ex. simpl in Ex. congruence.
  - split; [|eapply good_after; [done|lia|exact Ex|reflexivity]].
    apply good_here; [done|lia|]. by rewrite Ex.
Qed.

(** What the loop needs of the pattern it found. *)
Definition good_match (rest : bytes) (kept next : nat) : Prop :=
  good rest kept /\ good rest next /\ 0 < next.

Lemma starts_with_le p rest : starts_with p rest = true -> length p <= length rest.
Proof. intros [t ->]%starts_with_spec. rewrite length_app. lia. Qed.

Lemma good_value rest p :
  valid rest -> p <= length rest -> good rest (scan_until value_delim rest p).
Proof. intros. apply good_scan; auto with bastion. Qed.

Lemma check_one_assignment_good pattern key_len rest k v e :
  valid rest -> Forall ascii_byte pattern -> 0 < key_len < length pattern ->
  check_one_assignment pattern key_len rest = Some (k, v, e) -> good_match rest k e.
Proof.
  unfold check_one_assignment. intros Hv Ha Hk. destruct (starts_with _ _) eqn:Es; [|done].
  intros [= <- <- <-]. pose proof (starts_with_le _ _ Es) as Hl.
  assert (Hg : good rest key_len).
  { replace key_len with (length (take key_len pattern)) by (rewrite length_take; lia).
    apply good_prefix; [done|by apply Forall_take|].
    apply starts_with_spec in Es as [t ->]. rewrite <- (take_drop key_len pattern) at 2.
    rewrite <- app_assoc. apply starts_with_app. }
  pose proof (good_value rest (length pattern) Hv Hl) as Hgv.
  pose proof (scan_until_ge value_delim rest (length pattern)) as Hge.
  destruct (quote_at _ _) eqn:Eq; [|repeat split; try apply Hg; try apply Hgv; lia].
  destruct (good_skip_quoted rest _ Hv (proj1 Hgv) Eq) as [Hs Hs'].
  split; [done|]. split; [done|lia].
Qed.

Lemma check_assignment_good rest k v e :
  valid rest -> check_assignment_pattern rest = Some (k, v, e) -> good_match rest k e.
Proof.
  intros Hv. unfold check_assignment_pattern.
  destruct (check_one_assignment (lit "token=") 5 rest) as [r|] eqn:E1;
    [intros [= ->]; refine (check_one_assignment_good _ _ _ _ _ _ Hv _ _ E1); [ascii_lit|cbv; lia]|].
  destruct (check_one_assignment (lit "password=") 8 rest) as [r|] eqn:E2;
    [intros [= ->]; refine (check_one_assignment_good _ _ _ _ _ _ Hv _ _ E2); [ascii_lit|cbv; lia]|].
  intros E3. refine (check_one_assignment_good _ _ _ _ _ _ Hv _ _ E3); [ascii_lit|cbv; lia].
Qed.

Lemma check_bearer_good rest k :
  valid rest -> check_bearer_pattern rest = Some k -> good_match rest 0 (bearer_next rest k).
Proof.
  unfold check_bearer_pattern, bearer_next. intros Hv. destruct (starts_with _ _) eqn:Es; [|done].
  intros [= <-]. pose proof (starts_with_le _ _ Es) as Hl. change (length (lit "Bearer ")) with 7 in Hl.
  set (stop := fun b => is_ascii_whitespace b || (b =? chr squote)%N).
  assert (Hg : good rest (scan_until stop rest 7)).
  { apply good_scan; [done..|]. intros b [Hb|Hb]%orb_true_iff; [by auto with bastion|]. bools. by subst. }
  pose proof (scan_until_ge stop rest 7). pose proof (scan_until_ge (fun b => negb (is_ascii_whitespace b)) rest (scan_until stop rest 7)).
  split; [by apply good_0|]. split; [|lia].
  apply good_scan_ascii; [done|]. intros b Hb%negb_false_iff. by auto with bastion.
Qed.

Lemma good_match_end rest e : valid rest -> good rest e -> 0 < e -> good_match rest 0 e.
Proof. intros. split; [by apply good_0|done]. Qed.

Lemma check_aws_good rest k e :
  valid rest -> check_aws_key_pattern rest = Some (k, e) -> good_match rest k e.
Proof.
  unfold check_aws_key_pattern. intros Hv. destruct (starts_with _ _) eqn:Es; [|done].
  apply starts_with_le in Es. change (length (lit "AKIA")) with 4 in Es.
  destruct (8 <=? _)%nat eqn:El; [|done]. intros [= <- <-]. apply Nat.leb_le in El.
  apply good_match_end; [done| |lia]. apply good_scan; auto with bastion.
Qed.

Lemma check_github_good rest k e :
  valid rest -> check_github_token rest = Some (k, e) -> good_match rest k e.
Proof.
  unfold check_github_token. intros Hv.
  assert (Hp : Forall (fun p => Forall ascii_byte p) [lit "ghp_"; lit "gho_"; lit "ght_"; lit "ghs_"]).
  { repeat (constructor; [ascii_lit|]). constructor. }
  induction Hp as [|p ps Hp Hps IH]; [done|]. cbn [check_github_prefixes].
  unfold check_github_prefix. destruct (starts_with p rest) eqn:Es; [|done].
  destruct (8 <=? _)%nat eqn:El; [|done]. intros [= <- <-]. apply Nat.leb_le in El.
  apply good_match_end; [done| |lia]. apply good_scan_ascii; [by apply good_prefix|].
  intros b [_ Hb%negb_false_iff]%orb_false_iff. by auto with bastion.
Qed.

Lemma check_openai_long_good rest p n k e :
  valid rest -> 0 < length p -> check_openai_long_prefix rest p n = Some (k, e) ->
  good_match rest k e.
Proof.
  unfold check_openai_long_prefix. intros Hv Hp. destruct (starts_with _ _) eqn:Es; [|done].
  apply starts_with_le in Es. destruct (n <=? _)%nat; [|done]. intros [= <- <-].
  pose proof (scan_until_ge value_delim rest (length p)).
  apply good_match_end; [done|by apply good_value|lia].
Qed.

Lemma check_openai_good rest k e :
  valid rest -> check_openai_key rest = Some (k, e) -> good_match rest k e.
Proof.
  unfold check_openai_key. intros Hv.
  do 3 (destruct (check_openai_long_prefix rest _ _) as [r|] eqn:E;
    [intros [= ->]; refine (check_openai_long_good _ _ _ _ _ Hv _ E); cbv; lia|clear E]).
  destruct (starts_with _ _) eqn:Es; [|done]. apply starts_with_le in Es.
  change (length (lit "sk-")) with 3 in Es.
  destruct (48 <=? _)%nat eqn:El; [|done]. intros [= <- <-]. apply Nat.leb_le in El.
  apply good_match_end; [done|by apply good_value|lia].
Qed.

Lemma good_shift rest p k : good rest p -> good (drop p rest) k -> good rest (p + k).
Proof.
  intros [Hp _] [Hk Hv]. rewrite length_drop in Hk. split; [lia|]. by rewrite <- drop_drop.
Qed.

Lemma check_cli_good rest k :
  valid rest -> check_cli_secret_flag rest = Some k ->
  good_match rest k (scan_until is_ascii_whitespace rest k).
Proof.
  unfold check_cli_secret_flag. intros Hv. set (pos := scan_until _ rest 0).
  assert (Hp : good rest pos).
  { apply good_scan_ascii; [by apply good_0|]. intros b Hb%negb_false_iff. by auto with bastion. }
  assert (Hk : forall p, Forall ascii_byte p -> 0 < length p -> starts_with p (drop pos rest) = true ->
    good_match rest (pos + length p) (scan_until is_ascii_whitespace rest (pos + length p))).
  { intros p Ha Hl Hs. assert (Hg : good rest (pos + length p)).
    { apply good_shift; [done|]. apply good_prefix; [apply Hp|done..]. }
    pose proof (scan_until_ge is_ascii_whitespace rest (pos + length p)).
    split; [done|]. split; [|lia]. apply good_scan; [done|apply Hg|]. auto with bastion. }
  destruct (_ <=? _)%nat; [done|].
  destruct (starts_with (lit "--secret ") _) eqn:E1;
    [intros [= <-]; apply (Hk (lit "--secret ")); [ascii_lit|cbv; lia|done]|].
  destruct (starts_with (lit "--api-key ") _) eqn:E2; [|done].
  intros [= <-]; apply (Hk (lit "--api-key ")); [ascii_lit|cbv; lia|done].
Qed.

Lemma check_jwt_good rest k e :
  valid rest -> check_jwt_prefix rest = Some (k, e) -> good_match rest k e.
Proof.
  unfold check_jwt_prefix. intros Hv. destruct (starts_with _ _) eqn:Es; [|done].
  apply starts_with_le in Es. change (length (lit "eyJ")) with 3 in Es.
  destruct (_ <? 2)%nat; [done|]. destruct (_ && _) eqn:El; [|done]. intros [= <- <-].
  apply andb_true_iff in El as [El%Nat.leb_le _].
  apply good_match_end; [done| |lia]. apply good_scan; auto with bastion.
Qed.

Lemma check_snake_good rest k v e :
  valid rest -> check_snake_key_pattern rest = Some (k, v, e) -> good_match rest k e.
Proof.
  unfold check_snake_key_pattern. intros Hv. destruct (find_eq rest) as [n|] eqn:En; [|done].
  apply find_eq_spec in En as (Hn & Hg & Hg'); [|done].
  destruct (64 <? n)%nat; [done|]. destruct (snake_key _) as [u|]; [|done].
  destruct (u && _); [|done]. intros [= <- <- <-].
  pose proof (scan_until_ge snake_delim rest (S n)).
  split; [done|]. split; [|lia]. apply good_scan; [done|lia|]. auto with bastion.
Qed.

Lemma check_lowercase_good rest k v e :
  valid rest -> check_lowercase_secret_suffix rest = Some (k, v, e) -> good_match rest k e.
Proof.
  unfold check_lowercase_secret_suffix. intros Hv. destruct (find_eq rest) as [n|] eqn:En; [|done].
  apply find_eq_spec in En as (Hn & Hg & Hg'); [|done].
  destruct (n <? 3)%nat; [done|]. do 2 (destruct (negb _); [done|]). intros [= <- <- <-].
  split; [done|]. destruct (quote_at _ _) eqn:Eq.
  - destruct (good_skip_quoted rest (S n) Hv ltac:(lia) Eq) as [? ?]. split; [done|lia].
  - pose proof (scan_until_ge value_delim rest (S n)). split; [|lia]. apply good_value; [done|lia].
Qed.

Lemma find_pattern_good rest k text n :
  valid rest -> find_pattern rest = Some (k, text, n) ->
  good_match rest k n /\ Forall ascii_byte text.
Proof.
  intros Hv. unfold find_pattern.
  destruct (check_assignment_pattern rest) as [[[? ?] ?]|] eqn:E1;
    [intros [= <- <- <-]; split; [by eapply check_assignment_good|ascii_lit]|].
  destruct (check_bearer_pattern rest) as [?|] eqn:E2;
    [intros [= <- <- <-]; split; [by apply check_bearer_good|ascii_lit]|].
  destruct (check_aws_key_pattern rest) as [[? ?]|] eqn:E3;
    [intros [= <- <- <-]; split; [by eapply check_aws_good|ascii_lit]|].
  destruct (check_github_token rest) as [[? ?]|] eqn:E4;
    [intros [= <- <- <-]; split; [by eapply check_github_good|ascii_lit]|].
  destruct (check_openai_key rest) as [[? ?]|] eqn:E5;
    [intros [= <- <- <-]; split; [by eapply check_openai_good|ascii_lit]|].
  destruct (check_cli_secret_flag rest) as [?|] eqn:E6;
    [intros [= <- <- <-]; split; [by apply check_cli_good|ascii_lit]|].
  destruct (check_jwt_prefix rest) as [[? ?]|] eqn:E7;
    [intros [= <- <- <-]; split; [by eapply check_jwt_good|ascii_lit]|].
  destruct (check_snake_key_pattern rest) as [[[? ?] ?]|] eqn:E8;
    [intros [= <- <- <-]; split; [by eapply check_snake_good|ascii_lit]|].
  destruct (check_lowercase_secret_suffix rest) as [[[? ?] ?]|] eqn:E9; [|done].
  intros [= <- <- <-]; split; [by eapply check_lowercase_good|ascii_lit].
Qed.

(** ** The loop *)

Lemma step_good b r :
  valid (b :: r) -> exists out next, sanitize_step b (b :: r) = Some (out, next) /\
    0 < next /\ good (b :: r) next /\ valid out.
Proof.
  intros Hv. set (rest := b :: r) in *. unfold sanitize_step, emit.
  destruct (find_pattern rest) as [[[k text] n]|] eqn:Ef.
  - destruct (find_pattern_good _ _ _ _ Hv Ef) as [(Hk & Hn & Hp) Ht].
    destruct (good_take rest k Hv Hk) as [Hs Hvk]. rewrite Hs.
    eexists _, _. split; [done|]. split; [done|]. split; [done|].
    apply valid_app; [done|by apply valid_ascii].
  - assert (Hg : good rest (char_len b)).
    { destruct Hv as (s & Hs & Es). destruct Hs as [|c s Hc Hs]; [done|].
      change (utf8 (c :: s)) with (utf8_char c ++ utf8 s) in Es.
      destruct (utf8_char_shape c (alphabet_scalar c Hc)) as (b' & t & Eb & _ & _ & Hl & _).
      rewrite Es, Eb in *. injection Es as <- Er. rewrite <- Hl.
      split; [simpl; rewrite length_app; lia|]. simpl. rewrite drop_app_length. by exists s. }
    destruct (good_take rest _ Hv Hg) as [Hs Hvk]. rewrite Hs.
    eexists _, _. split; [done|].
    split; [unfold char_len; repeat case_match; lia|]. split; [done|]. by rewrite app_nil_r.
Qed.

(** Enough fuel, and the text already pushed, do not matter. *)
Lemma loop_total fuel rest result :
  valid rest -> length rest <= fuel -> valid result ->
  exists out, sanitize_loop fuel rest result = Some (result ++ out) /\ valid out /\
    forall fuel' result', length rest <= fuel' ->
      sanitize_loop fuel' rest result' = Some (result' ++ out).
Proof.
  revert rest result. induction fuel as [|f IH]; intros rest result Hv Hf Hr.
  { destruct rest; [|simpl in Hf; lia]. exists []. rewrite app_nil_r. split; [done|].
    split; [apply valid_nil|]. intros [|?] ? _; by rewrite app_nil_r. }
  destruct rest as [|b r].
  { exists []. rewrite app_nil_r. split; [done|]. split; [apply valid_nil|].
    intros [|?] ? _; by rewrite app_nil_r. }
  destruct (step_good b r Hv) as (out & n & Hs & Hn & [Hle Hg] & Ho).
  assert (Hl : length (drop n (b :: r)) < length (b :: r)) by (rewrite length_drop; simpl in *; lia).
  destruct (IH (drop n (b :: r)) (result ++ out)) as (out' & E & Ho' & Hi);
    [done|lia|by apply valid_app|].
  exists (out ++ out'). cbn [sanitize_loop]. rewrite Hs, E, app_assoc. split; [done|].
  split; [by apply valid_app|]. intros [|f'] result' Hf'; [simpl in Hf'; lia|].
  cbn [sanitize_loop]. rewrite Hs, Hi by lia. by rewrite app_assoc.
Qed.

End Boundaries.

(** C3. On every string the sanitizer terminates within one iteration per
    byte, never slices inside a character (so it does not panic), and returns
    well-formed text. *)
Theorem sanitize_total (s : str) :
  Forall scalar s ->
  exists t, Forall scalar t /\ sanitize_command (utf8 s) = Some (utf8 t).
Proof.
  intros Hs. destruct (loop_total (length (utf8 s)) (utf8 s) []) as (out & E & (t & Ht & ->) & _);
    [by exists s|done|apply valid_nil|]. by exists t.
Qed.

(** One iteration, then the rest of the input on its own. *)
Lemma sanitize_unfold b r out next :
  valid (b :: r) -> sanitize_step b (b :: r) = Some (out, next) ->
  sanitize_command (b :: r) =
    option_map (fun o => out ++ o) (sanitize_command (drop next (b :: r))).
Proof.
  intros Hv Hs. destruct (step_good b r Hv) as (out' & n' & Hs' & Hn & [Hle Hg] & Ho).
  rewrite Hs in Hs'. injection Hs' as <- <-.
  unfold sanitize_command. cbn [length sanitize_loop]. rewrite Hs.
  destruct (loop_total (length r) (drop next (b :: r)) out Hg) as (o & E & _ & Hi);
    [rewrite length_drop; simpl; lia|done|].
  simpl app. rewrite E. by rewrite (Hi _ []).
Qed.

(** The position of the loop: [reaches input out rest] when it has pushed
    [out] and [rest] is still to be read. *)
Inductive reaches (input : bytes) : bytes -> bytes -> Prop :=
| reaches_start : reaches input [] input
| reaches_step out b r o n : reaches input out (b :: r) ->
    sanitize_step b (b :: r) = Some (o, n) -> reaches input (out ++ o) (drop n (b :: r)).

Lemma reaches_sanitize input out rest :
  valid input -> reaches input out rest ->
  valid rest /\ sanitize_command input = option_map (fun o => out ++ o) (sanitize_command rest).
Proof.
  intros Hv. induction 1 as [|out b r o n Hr [IHv IH] Hs].
  - split; [done|]. by destruct (sanitize_command input).
  - destruct (step_good b r IHv) as (o' & n' & Hs' & _ & [_ Hg] & _).
    rewrite Hs in Hs'. injection Hs' as <- <-. split; [done|].
    rewrite IH, (sanitize_unfold _ _ _ _ IHv Hs). destruct (sanitize_command (drop n (b :: r))); simpl; [|reflexivity].
    by rewrite app_assoc.
Qed.

Lemma no_pattern_id (s : str) :
  Forall scalar s ->
  (forall k, find_pattern (drop k (utf8 s)) = None) ->
  sanitize_command (utf8 s) = Some (utf8 s).
Proof.
  induction 1 as [|c s Hc Hs IH]; intros Hn; [done|].
  assert (Hv : valid (utf8 (c :: s))) by (exists (c :: s); split; [by constructor|done]).
  change (utf8 (c :: s)) with (utf8_char c ++ utf8 s) in *.
  destruct (utf8_char_shape c Hc) as (b & t & Eb & _ & _ & Hl & _). rewrite Eb in *.
  change ((b :: t) ++ utf8 s) with (b :: t ++ utf8 s) in *.
  destruct (step_good _ _ Hv) as (o & n & Hst & _ & _ & _).
  rewrite (sanitize_unfold _ _ _ _ Hv Hst). unfold sanitize_step in Hst.
  pose proof (Hn 0) as Hn0. cbn [drop] in Hn0. rewrite Hn0 in Hst. unfold emit in Hst.
  destruct (slice_to _ _) as [p|] eqn:Ep; [|done]. injection Hst as <- <-.
  unfold slice_to in Ep. destruct (_ && _); [|done]. injection Ep as <-. rewrite <- Hl.
  cbn [drop take]. rewrite drop_app_length, take_app_length, app_nil_r, IH; [done|].
  intros k. specialize (Hn (S (length t) + k)). rewrite <- drop_drop in Hn. cbn [drop] in Hn.
  by rewrite drop_app_length in Hn.
Qed.

(** The sanitizer is the identity on a string at none of whose positions a
    pattern is found. *)
Theorem sanitize_identity (s : str) :
  Forall scalar s ->
  (forall k, find_pattern (drop k (utf8 s)) = None) ->
  sanitize_command (utf8 s) = Some (utf8 s).
Proof. apply no_pattern_id. Qed.

(** ** Redaction *)

Definition assignment_keys : list bytes := [lit "token"; lit "password"; lit "api_key"].

(** What may follow the value of an assignment: the end of the input or a
    delimiter other than a quote. *)
Definition value_ends (rest : bytes) : Prop :=
  match rest with [] => True | b :: _ => value_delim b = true /\ is_quote b = false end.

Lemma scan_block stop p v rest :
  Forall (fun b => stop b = false) v ->
  match rest with [] => True | b :: _ => stop b = true end ->
  scan_until stop (p ++ v ++ rest) (length p) = length p + length v.
Proof.
  intros Hv Hr. unfold scan_until. rewrite drop_app_length. rewrite span_block; [done| |].
  - eapply Forall_impl; [exact Hv|]. by intros b ->.
  - destruct rest; [done|]. by rewrite Hr.
Qed.

Lemma one_assignment_found p n v rest :
  Forall (fun b => value_delim b = false) v -> value_ends rest ->
  check_one_assignment p n (p ++ v ++ rest) = Some (n, length p, length p + length v).
Proof.
  intros Hv Hr. unfold check_one_assignment. rewrite starts_with_app.
  rewrite scan_block; [|done|destruct rest; [done|apply Hr]].
  enough (quote_at (p ++ v ++ rest) (length p + length v) = false) as -> by done.
  unfold quote_at. rewrite <- drop_drop, drop_app_length, drop_app_length.
  destruct rest; [done|apply Hr].
Qed.

Lemma assignment_found key v rest :
  key ∈ assignment_keys -> Forall (fun b => value_delim b = false) v -> value_ends rest ->
  find_pattern (key ++ chr "=" :: v ++ rest) =
    Some (length key, lit "=[REDACTED]", S (length key) + length v).
Proof.
  intros Hk Hv Hr. unfold find_pattern, check_assignment_pattern.
  unfold assignment_keys in Hk. rewrite !elem_of_cons in Hk.
  destruct Hk as [->|[->|[->|[]%not_elem_of_nil]]].
  - change (lit "token" ++ chr "=" :: v ++ rest) with (lit "token=" ++ v ++ rest).
    by rewrite (one_assignment_found (lit "token=") 5 v rest Hv Hr).
  - change (check_one_assignment (lit "token=") 5 _) with (@None (nat * nat * nat)).
    change (lit "password" ++ chr "=" :: v ++ rest) with (lit "password=" ++ v ++ rest).
    by rewrite (one_assignment_found (lit "password=") 8 v rest Hv Hr).
  - change (check_one_assignment (lit "token=") 5 _) with (@None (nat * nat * nat)).
    change (check_one_assignment (lit "password=") 8 _) with (@None (nat * nat * nat)).
    change (lit "api_key" ++ chr "=" :: v ++ rest) with (lit "api_key=" ++ v ++ rest).
    by rewrite (one_assignment_found (lit "api_key=") 7 v rest Hv Hr).
Qed.

(** C19. Redaction: when the loop reaches an assignment [token=v],
    [password=v] or [api_key=v] whose value ends at a delimiter, the output
    continues with [key=[REDACTED]] and the sanitized rest: it does not depend
    on the value. *)
Theorem assignment_redacted (input : str) (out key v rest : bytes) :
  Forall scalar input ->
  reaches (utf8 input) out (key ++ chr "=" :: v ++ rest) ->
  key ∈ assignment_keys -> Forall (fun b => value_delim b = false) v -> value_ends rest ->
  exists o, sanitize_command rest = Some o /\
    sanitize_command (utf8 input) = Some (out ++ key ++ lit "=[REDACTED]" ++ o).
Proof.
  intros Hs Hreach Hk Hv Hr.
  destruct (reaches_sanitize (utf8 input) out _ ltac:(by exists input) Hreach) as [Hval ->].
  pose proof (assignment_found key v rest Hk Hv Hr) as Hf.
  destruct (key ++ chr "=" :: v ++ rest) as [|b r] eqn:E; [by destruct key|].
  destruct (step_good b r Hval) as (o & n & Hst & _ & [_ Hg] & _).
  rewrite (sanitize_unfold _ _ _ _ Hval Hst). unfold sanitize_step in Hst. rewrite Hf in Hst.
  unfold emit, slice_to in Hst. destruct (_ && _); [|done]. injection Hst as <- <-.
  rewrite <- E in *. rewrite take_app_length.
  assert (Hd : drop (S (length key) + length v) (key ++ chr "=" :: v ++ rest) = rest).
  { replace (S (length key) + length v) with (length key + S (length v)) by lia.
    rewrite <- drop_drop, drop_app_length. simpl. apply drop_app_length. }
  change (S (length key + length v)) with (S (length key) + length v) in *.
  rewrite Hd in *. destruct (loop_total (length rest) rest [] Hg) as (o & Eo & _);
    [done|apply valid_nil|]. exists o. unfold sanitize_command. rewrite Eo. simpl.
  by rewrite <- app_assoc.
Qed.

(** The rest of the run after a match at the current position. *)
Lemma match_then kept text head rest :
  valid (head ++ rest) -> 0 < length head ->
  find_pattern (head ++ rest) = Some (kept, text, length head) ->
  exists o, sanitize_command rest = Some o /\
    sanitize_command (head ++ rest) = Some (take kept (head ++ rest) ++ text ++ o).
Proof.
  intros Hv Hh Hf. destruct (head ++ rest) as [|b r] eqn:E; [by destruct head|].
  destruct (step_good b r Hv) as (o & n & Hst & _ & [_ Hg] & _).
  rewrite (sanitize_unfold _ _ _ _ Hv Hst). unfold sanitize_step in Hst. rewrite Hf in Hst.
  unfold emit, slice_to in Hst. destruct (_ && _); [|done]. injection Hst as <- <-.
  rewrite <- E in *. rewrite drop_app_length in *.
  destruct (loop_total (length rest) rest [] Hg) as (o & Eo & _); [done|apply valid_nil|].
  exists o. unfold sanitize_command. rewrite Eo. simpl. by rewrite <- app_assoc.
Qed.

Definition bearer_stop (b : byte) : bool := is_ascii_whitespace b || (b =? chr squote)%N.

Lemma bearer_found tok ws rest :
  Forall (fun b => bearer_stop b = false) tok ->
  Forall (fun b => is_ascii_whitespace b = true) ws ->
  match rest with
  | [] => True
  | b :: _ => is_ascii_whitespace b = false /\ (ws = [] -> b = chr squote)
  end ->
  find_pattern ((lit "Bearer " ++ tok ++ ws) ++ rest) =
    Some (0, lit "Bearer [REDACTED]", length (lit "Bearer " ++ tok ++ ws)).
Proof.
  intros Ht Hw Hr. rewrite <- !app_assoc.
  change (find_pattern (lit "Bearer " ++ tok ++ ws ++ rest)) with
    (Some (0, lit "Bearer [REDACTED]", bearer_next (lit "Bearer " ++ tok ++ ws ++ rest) 7)).
  do 2 f_equal. unfold bearer_next.
  change (fun b : byte => is_ascii_whitespace b || (b =? chr squote)%N) with bearer_stop.
  change 7 with (length (lit "Bearer ")). rewrite (scan_block bearer_stop).
  - rewrite !length_app, Nat.add_assoc, <- length_app, app_assoc.
    rewrite (scan_block (fun b => negb (is_ascii_whitespace b))); [done| |].
    + eapply Forall_impl; [exact Hw|]. by intros b ->.
    + destruct rest; [done|]. by destruct Hr as [-> _].
  - done.
  - destruct Hw as [|b ws Hb Hw]; simpl; [|unfold bearer_stop; by rewrite Hb].
    destruct rest as [|b rest]; [done|]. destruct Hr as [_ Hq]. by rewrite (Hq eq_refl).
Qed.

(** When the loop reaches [Bearer tok], the token is redacted, and the
    white space between the token and what follows it is dropped as well: the
    following word is glued to the replacement. *)
Theorem bearer_swallows_space (input : str) (out tok ws rest : bytes) :
  Forall scalar input ->
  reaches (utf8 input) out ((lit "Bearer " ++ tok ++ ws) ++ rest) ->
  Forall (fun b => bearer_stop b = false) tok ->
  Forall (fun b => is_ascii_whitespace b = true) ws ->
  match rest with
  | [] => True
  | b :: _ => is_ascii_whitespace b = false /\ (ws = [] -> b = chr squote)
  end ->
  exists o, sanitize_command rest = Some o /\
    sanitize_command (utf8 input) = Some (out ++ lit "Bearer [REDACTED]" ++ o).
Proof.
  intros Hs Hreach Ht Hw Hr.
  destruct (reaches_sanitize (utf8 input) out _ ltac:(by exists input) Hreach) as [Hval ->].
  destruct (match_then 0 (lit "Bearer [REDACTED]") (lit "Bearer " ++ tok ++ ws) rest Hval)
    as (o & Eo & ->).
  - rewrite length_app. change (length (lit "Bearer ")) with 7. lia.
  - by apply bearer_found.
  - exists o. by split.
Qed.

(** ** A value in double quotes after an upper-case key *)

(** Characters that begin none of the patterns and belong to no key. *)
Definition plain_byte (b : byte) : bool :=
  is_ascii_lowercase b || is_ascii_digit b || (b =? chr dquote)%N.

Lemma starts_with_absent p r x :
  x ∈ p -> Forall (fun b => plain_byte b = true) r -> plain_byte x = false ->
  starts_with p r = false.
Proof.
  intros Hx Hr Hp. destruct (starts_with p r) eqn:E; [|done]. exfalso.
  apply starts_with_spec in E as [t ->]. apply Forall_app in Hr as [Hr _].
  rewrite Forall_forall in Hr. apply Hr in Hx. congruence.
Qed.

Lemma plain_no_eq r : Forall (fun b => plain_byte b = true) r -> find_eq r = None.
Proof.
  intros Hr. unfold find_eq. destruct Hr as [|b r Hb Hr]; [done|].
  assert (He : forall x, plain_byte x = true -> (x =? chr "=")%N = false).
  { intros x Hx. apply N.eqb_neq. intros ->. done. }
  rewrite He by done. unfold scan_until. cbn [drop].
  rewrite <- (app_nil_r (b :: r)) at 1. rewrite span_block; [|
    constructor; [by rewrite He|eapply Forall_impl; [exact Hr|]; intros x Hx; simpl in Hx; by rewrite He]|done].
  cbn [fst length]. by rewrite (proj2 (Nat.ltb_ge _ _)) by lia.
Qed.

Ltac absent x :=
  apply (starts_with_absent _ _ (chr x)); [apply list_elem_of_In; cbv; tauto|assumption|reflexivity].

Lemma plain_no_pattern r : Forall (fun b => plain_byte b = true) r -> find_pattern r = None.
Proof.
  intros Hr. unfold find_pattern, check_assignment_pattern, check_one_assignment.
  replace (starts_with (lit "token=") r) with false by (symmetry; absent "="%char).
  replace (starts_with (lit "password=") r) with false by (symmetry; absent "="%char).
  replace (starts_with (lit "api_key=") r) with false by (symmetry; absent "="%char).
  unfold check_bearer_pattern.
  replace (starts_with (lit "Bearer ") r) with false by (symmetry; absent "B"%char).
  unfold check_aws_key_pattern.
  replace (starts_with (lit "AKIA") r) with false by (symmetry; absent "A"%char).
  unfold check_github_token, check_github_prefixes, check_github_prefix.
  replace (starts_with (lit "ghp_") r) with false by (symmetry; absent "_"%char).
  replace (starts_with (lit "gho_") r) with false by (symmetry; absent "_"%char).
  replace (starts_with (lit "ght_") r) with false by (symmetry; absent "_"%char).
  replace (starts_with (lit "ghs_") r) with false by (symmetry; absent "_"%char).
  unfold check_openai_key, check_openai_long_prefix.
  replace (starts_with (lit "sk-proj-") r) with false by (symmetry; absent "-"%char).
  replace (starts_with (lit "sk-svcacct-") r) with false by (symmetry; absent "-"%char).
  replace (starts_with (lit "sk-admin-") r) with false by (symmetry; absent "-"%char).
  replace (starts_with (lit "sk-") r) with false by (symmetry; absent "-"%char).
  assert (check_cli_secret_flag r = None) as ->.
  { unfold check_cli_secret_flag. case_match; [done|].
    pose proof (Forall_drop _ (scan_until (fun b => negb (among [" "%char; tab] b)) r 0) r Hr) as Hd.
    replace (starts_with (lit "--secret ") _) with false by (symmetry; absent "-"%char).
    by replace (starts_with (lit "--api-key ") _) with false by (symmetry; absent "-"%char). }
  unfold check_jwt_prefix.
  replace (starts_with (lit "eyJ") r) with false by (symmetry; absent "J"%char).
  unfold check_snake_key_pattern, check_lowercase_secret_suffix. by rewrite plain_no_eq.
Qed.

Lemma plain_ascii b : plain_byte b = true -> ascii_byte b.
Proof.
  unfold plain_byte, is_ascii_lowercase, is_ascii_digit, in_range, ascii_byte.
  rewrite !orb_true_iff, !andb_true_iff, !N.leb_le, N.eqb_eq.
  change (chr dquote) with 34%N. lia.
Qed.

Lemma sanitize_plain q :
  Forall ascii_byte q -> Forall (fun b => plain_byte b = true) q -> sanitize_command (utf8 q) = Some q.
Proof.
  intros Ha Hq. rewrite no_pattern_id.
  - by rewrite utf8_ascii.
  - eapply Forall_impl; [exact Ha|]. unfold ascii_byte, scalar. lia.
  - intros k. rewrite utf8_ascii by done. apply plain_no_pattern. by apply Forall_drop.
Qed.

Lemma starts_with_short p key r :
  length p <= length key -> starts_with p key = false -> starts_with p (key ++ r) = false.
Proof.
  revert key. induction p as [|x p IH]; intros key Hl; [done|].
  destruct key as [|c key]; simpl in *; [lia|]. destruct (x =? c)%N; [|done]. simpl.
  intros. apply IH; [lia|done].
Qed.

(** Upper-case keys that reach the snake-case checker. *)
Definition snake_name (key : bytes) : Prop :=
  match key with [] => False | c :: _ => is_ascii_uppercase c = true end /\
  Forall (fun b => snake_byte b = true) key /\ 4 <= length key <= 64 /\
  starts_with (lit "AKIA") key = false.

Lemma uppercase_bounds b : is_ascii_uppercase b = true -> (65 <= b <= 90)%N.
Proof. unfold is_ascii_uppercase, in_range. rewrite andb_true_iff, !N.leb_le. done. Qed.

Lemma snake_byte_ascii b : snake_byte b = true -> ascii_byte b /\ b ≠ chr "=" /\ b ≠ chr "e".
Proof.
  unfold snake_byte, is_ascii_uppercase, is_ascii_digit, in_range, ascii_byte.
  rewrite !orb_true_iff, !andb_true_iff, !N.leb_le, N.eqb_eq.
  change (chr "_") with 95%N. change (chr "=") with 61%N. change (chr "e") with 101%N. lia.
Qed.

Lemma starts_with_head p x key r c :
  starts_with (x :: p) (c :: key ++ r) = true -> x = c.
Proof. simpl. intros E. by bools. Qed.

Lemma find_eq_key key r :
  0 < length key -> Forall (fun b => snake_byte b = true) key ->
  find_eq (key ++ chr "=" :: r) = Some (length key).
Proof.
  intros Hl Hk. unfold find_eq. destruct Hk as [|c key Hc Hk]; [simpl in Hl; lia|].
  assert (He : forall b, snake_byte b = true -> (b =? chr "=")%N = false).
  { intros b Hb. apply N.eqb_neq. by apply snake_byte_ascii. }
  cbn [app]. rewrite He by done.
  pose proof (scan_block (fun b => (b =? chr "=")%N) [] (c :: key) (chr "=" :: r)) as Hs.
  cbn [app length] in Hs. rewrite Hs; [|constructor; [by apply He|]|apply N.eqb_refl].
  - rewrite Nat.add_0_l, (proj2 (Nat.ltb_lt _ _)); [done|]. simpl. rewrite length_app. simpl. lia.
  - eapply Forall_impl; [exact Hk|]. apply He.
Qed.

Lemma snake_quoted_found key r :
  snake_name key ->
  find_pattern ((key ++ [chr "="]) ++ chr dquote :: r) =
    Some (length key, lit "=[REDACTED]", length (key ++ [chr "="])).
Proof.
  intros (Hh & Hk & Hl & Ha). rewrite <- app_assoc. cbn [app].
  set (tl := chr "=" :: chr dquote :: r).
  assert (Hh' : forall x p, is_ascii_uppercase x = false -> starts_with (x :: p) (key ++ tl) = false).
  { intros x p Hx. destruct key as [|c key]; [done|]. apply not_true_is_false. intros E.
    apply starts_with_head in E. congruence. }
  assert (Hlow : forall p, match p with [] => False | x :: _ => is_ascii_uppercase x = false end ->
    starts_with p (key ++ tl) = false) by (intros [|x p]; [done|apply Hh']).
  unfold find_pattern, check_assignment_pattern, check_one_assignment.
  rewrite !Hlow by done. unfold check_bearer_pattern.
  assert (starts_with (lit "Bearer ") (key ++ tl) = false) as ->.
  { destruct key as [|c1 [|c2 key]]; simpl in Hl; try lia.
    rewrite !Forall_cons in Hk. destruct Hk as (_ & Hc & _). apply snake_byte_ascii in Hc.
    apply not_true_is_false. intros E. apply starts_with_spec in E as [t E]. cbn in E.
    injection E as -> -> _. by apply Hc. }
  unfold check_aws_key_pattern. rewrite (starts_with_short (lit "AKIA") key tl (proj1 Hl) Ha).
  unfold check_github_token, check_github_prefixes, check_github_prefix. rewrite !Hlow by done.
  unfold check_openai_key, check_openai_long_prefix. rewrite !Hlow by done.
  assert (check_cli_secret_flag (key ++ tl) = None) as ->.
  { unfold check_cli_secret_flag. destruct key as [|c key]; [done|].
    assert (scan_until (fun b => negb (among [" "%char; tab] b)) ((c :: key) ++ tl) 0 = 0) as ->.
    { unfold scan_until. cbn [drop app span]. apply uppercase_bounds in Hh.
      assert (among [" "%char; tab] c = false) as -> by (cbn; rewrite !orb_false_iff, !N.eqb_neq;
        change (chr " ") with 32%N; change (chr tab) with 9%N; lia). done. }
    cbn [drop]. case_match; [done|]. by rewrite !Hlow. }
  unfold check_jwt_prefix. rewrite !Hlow by done.
  unfold check_snake_key_pattern. unfold tl. rewrite find_eq_key by (done || lia).
  rewrite (proj2 (Nat.ltb_ge _ _)) by lia. rewrite take_app_length.
  assert (snake_key key = Some true) as ->.
  { unfold snake_key. destruct key as [|c key]; [done|].
    assert (is_ascii_digit c = false) as ->.
    { apply uppercase_bounds in Hh. unfold is_ascii_digit, in_range. apply andb_false_iff.
      right. apply N.leb_gt. lia. }
    assert (forallb snake_byte (c :: key) = true) as ->.
    { apply forallb_forall. intros x Hx. rewrite Forall_forall in Hk. by apply Hk, list_elem_of_In. }
    simpl. by rewrite Hh. }
  rewrite (proj2 (Nat.leb_le _ _)) by lia. cbn [andb]. do 2 f_equal.
  rewrite length_app. cbn [length]. rewrite Nat.add_1_r.
  unfold scan_until. replace (S (length key)) with (length key + 1) by lia.
  rewrite <- drop_drop, drop_app_length. cbn [drop span].
  change (negb (snake_delim (chr dquote))) with false. cbn [fst length]. lia.
Qed.

(** The value of an upper-case key is not redacted when it stands in
    double quotes: the replacement is inserted before the opening quote and the
    quoted value, here any text of lower-case letters and digits, is copied to
    the output. *)
Theorem quoted_value_leaks (key v : bytes) :
  snake_name key ->
  Forall (fun b => is_ascii_lowercase b || is_ascii_digit b = true) v ->
  sanitize_command (key ++ lit "=" ++ [chr dquote] ++ v ++ [chr dquote]) =
    Some (key ++ lit "=[REDACTED]" ++ [chr dquote] ++ v ++ [chr dquote]).
Proof.
  intros Hk Hv. set (q := [chr dquote] ++ v ++ [chr dquote]).
  assert (Hq : Forall (fun b => plain_byte b = true) q).
  { constructor; [done|]. apply Forall_app. split; [|by repeat constructor].
    eapply Forall_impl; [exact Hv|]. unfold plain_byte. by intros b ->. }
  assert (Hqa : Forall ascii_byte q) by (eapply Forall_impl; [exact Hq|]; apply plain_ascii).
  assert (Hka : Forall ascii_byte key).
  { destruct Hk as (_ & Hk & _). eapply Forall_impl; [exact Hk|]. apply snake_byte_ascii. }
  assert (Hsq : sanitize_command q = Some q).
  { pose proof (sanitize_plain q Hqa Hq) as Es. by rewrite (utf8_ascii q Hqa) in Es. }
  change (key ++ lit "=" ++ q) with (key ++ ([chr "="] ++ q)). rewrite app_assoc.
  destruct (match_then (length key) (lit "=[REDACTED]") (key ++ [chr "="]) q) as (o & Eo & ->).
  - apply valid_ascii. rewrite !Forall_app. split; [split; [done|by repeat constructor]|done].
  - rewrite length_app. simpl. lia.
  - by apply snake_quoted_found.
  - rewrite Hsq in Eo. injection Eo as <-. by rewrite <- app_assoc, take_app_length.
Qed.

(** ** Witnesses *)

Lemma scalar_lit s : Forall ascii_byte s -> Forall scalar s.
Proof. intros H. eapply Forall_impl; [exact H|]. unfold ascii_byte, scalar. lia. Qed.

Lemma sanitize_total_witness :
  exists t, Forall scalar t /\ sanitize_command (utf8 [0x1F600; 0x61; 0xE9]%N) = Some (utf8 t).
Proof. apply sanitize_total. repeat (constructor; [reflexivity|]). constructor. Defined.

Lemma sanitize_identity_witness : sanitize_command (utf8 (lit "ls -la")) = Some (utf8 (lit "ls -la")).
Proof.
  apply sanitize_identity.
  - apply scalar_lit. ascii_lit.
  - intros k. do 7 (destruct k as [|k]; [reflexivity|]). reflexivity.
Defined.

Lemma assignment_redacted_witness :
  exists o, sanitize_command (lit "&x=1") = Some o /\
    sanitize_command (utf8 (lit "?token=s3cr3t&x=1")) =
      Some (lit "?" ++ lit "token" ++ lit "=[REDACTED]" ++ o).
Proof.
  apply (assignment_redacted (lit "?token=s3cr3t&x=1") (lit "?") (lit "token") (lit "s3cr3t") (lit "&x=1")).
  - apply scalar_lit. ascii_lit.
  - apply (reaches_step _ [] (chr "?") (lit "token=s3cr3t&x=1") (lit "?") 1);
      [apply reaches_start|reflexivity].
  - left.
  - ascii_lit.
  - split; reflexivity.
Defined.

Lemma bearer_swallows_space_witness :
  exists o, sanitize_command (lit "-X") = Some o /\
    sanitize_command (utf8 (lit "Bearer abc  -X")) = Some ([] ++ lit "Bearer [REDACTED]" ++ o).
Proof.
  apply (bearer_swallows_space (lit "Bearer abc  -X") [] (lit "abc") (lit "  ") (lit "-X")).
  - apply scalar_lit. ascii_lit.
  - apply reaches_start.
  - ascii_lit.
  - ascii_lit.
  - split; [reflexivity|discriminate].
Defined.

Lemma quoted_value_leaks_witness :
  sanitize_command (lit "API_KEY" ++ lit "=" ++ [chr dquote] ++ lit "hunter2" ++ [chr dquote]) =
    Some (lit "API_KEY" ++ lit "=[REDACTED]" ++ [chr dquote] ++ lit "hunter2" ++ [chr dquote]).
Proof.
  apply quoted_value_leaks; [|ascii_lit].
  split; [reflexivity|]. split; [ascii_lit|]. split; [cbv; lia|reflexivity].
Defined.
