(* ===== verification/WorkerAuth.v ===== *)
(** * Worker authentication

    Models the registration handshake of [bastion-gateway/src/registry.rs]:
    [verify_hmac_proof], [verify_hmac_proof_against_keys], [generate_nonce] and
    the [register] and [challenge_response] calls of the [WorkerRegistry]
    service, with the parts of the service's state they use.  The HMAC
    implementation is a parameter ([HmacSha256]); the wall clock, fresh session
    ids and the package version are arguments. *)

From S2P Require Import Prelude.

(** What the code uses of [hmac::Hmac<Sha256>]: a key may be refused, feeding
    the message in pieces is feeding their concatenation, and a proof is
    accepted when it is the tag of the message. *)
Class HmacSha256 := {
  mac_key : Type;
  new_from_slice : bytes -> option mac_key;
  mac_tag : mac_key -> bytes -> bytes
}.

(** A tag that is the key followed by the message, to evaluate examples. *)
Definition toy_hmac : HmacSha256 :=
  {| mac_key := bytes; new_from_slice := Some; mac_tag k m := k ++ m |}.

Record PendingChallenge := mkPending { worker_nonce : bytes; gateway_nonce : bytes }.

Record AuthConfig := mkAuthConfig {
  pre_shared_key_enabled : bool;
  pre_shared_keys : list str
}.

(** The fields [secrets], [pending_challenges] and [auth_config]. *)
Record AuthState := mkAuthState {
  secrets : gmap str str;
  pending_challenges : gmap str PendingChallenge;
  auth_config : AuthConfig
}.

Inductive RegisterStatus := Accepted | Challenge | Rejected | VersionMismatch.

Record RegisterResponse := mkResponse {
  rr_status : RegisterStatus;
  rr_gateway_nonce : bytes;
  rr_session_token : str;
  rr_heartbeat_interval_ms : Z;
  rr_command_timeout_ms : Z;
  rr_session_expiry_ms : Z;
  rr_gateway_version : str
}.

Record RegisterRequest := mkRegister { rq_sandbox_id : str; rq_worker_nonce : bytes }.
Record ChallengeProof := mkProof { cp_sandbox_id : str; cp_proof : bytes }.

(** The nanoseconds since the epoch, a [u128], as 16 little-endian bytes. *)
Fixpoint le_bytes (n : nat) (z : N) : bytes :=
  match n with O => [] | S n => N.land z 0xff :: le_bytes n (N.shiftr z 8) end.

Definition generate_nonce (ts : N) : bytes :=
  le_bytes 16 ts ++ map (fun i => N.land (N.shiftr ts (N.of_nat i * 8)) 0xff) (seq 0 8).

Section Auth.
Context `{HMAC : HmacSha256} (gateway_version : str).

Definition verify_hmac_proof (secret : str) (worker_nonce gateway_nonce proof : bytes) : bool :=
  match new_from_slice (utf8 secret) with
  | None => false
  | Some k => bool_decide (mac_tag k (worker_nonce ++ gateway_nonce) = proof)
  end.

Definition verify_hmac_proof_against_keys (keys : list str)
    (worker_nonce gateway_nonce proof : bytes) : bool :=
  existsb (fun key => verify_hmac_proof key worker_nonce gateway_nonce proof) keys.

Definition response (s : RegisterStatus) (nonce : bytes) (token : str) : RegisterResponse :=
  mkResponse s nonce token 10000 30000 3600000 gateway_version.

Definition set_secret (id secret : str) (st : AuthState) : AuthState :=
  mkAuthState (<[id := secret]> (secrets st)) (pending_challenges st) (auth_config st).

Definition get_secret (id : str) (st : AuthState) : option str := secrets st !! id.

(** [ts] is the clock's reading in [generate_nonce]. *)
Definition register (req : RegisterRequest) (ts : N) (st : AuthState) :
    RegisterResponse * AuthState :=
  let secret := default [] (get_secret (rq_sandbox_id req) st) in
  match secret with
  | [] => (response Accepted [] (lit "token-" ++ rq_sandbox_id req), st)
  | _ =>
      let gateway_nonce := generate_nonce ts in
      (response Challenge gateway_nonce [],
       mkAuthState (secrets st)
         (<[rq_sandbox_id req := mkPending (rq_worker_nonce req) gateway_nonce]>
            (pending_challenges st))
         (auth_config st))
  end.

(** [uuid] is the value of [Uuid::new_v4()]. *)
Definition challenge_response (req : ChallengeProof) (uuid : str) (st : AuthState) :
    RegisterResponse * AuthState :=
  let id := cp_sandbox_id req in
  match pending_challenges st !! id with
  | None => (response Rejected [] [], st)
  | Some pending =>
      let st' := mkAuthState (secrets st) (delete id (pending_challenges st)) (auth_config st) in
      let hmac_valid :=
        if pre_shared_key_enabled (auth_config st) then
          match pre_shared_keys (auth_config st) with
          | [] => false
          | keys =>
              verify_hmac_proof_against_keys keys (worker_nonce pending) (gateway_nonce pending)
                (cp_proof req)
          end
        else
          match get_secret id st with
          | Some secret =>
              verify_hmac_proof secret (worker_nonce pending) (gateway_nonce pending) (cp_proof req)
          | None => false
          end in
      if negb hmac_valid then (response Rejected [] [], st')
      else (response Accepted [] uuid, st')
  end.

(** ** Histories *)

Inductive auth_op :=
| OpRegister (req : RegisterRequest) (ts : N)
| OpChallenge (req : ChallengeProof) (uuid : str)
| OpSetSecret (id secret : str).

Definition auth_step (op : auth_op) (st : AuthState) : AuthState :=
  match op with
  | OpRegister req ts => snd (register req ts st)
  | OpChallenge req uuid => snd (challenge_response req uuid st)
  | OpSetSecret id secret => set_secret id secret st
  end.

Definition auth_run (ops : list auth_op) (st : AuthState) : AuthState :=
  fold_left (fun st op => auth_step op st) ops st.

Definition auth_new (c : AuthConfig) : AuthState := mkAuthState ∅ ∅ c.

(** The secret last set for [id] in a history (latest operation first). *)
Fixpoint last_secret (id : str) (hist : list auth_op) : option str :=
  match hist with
  | [] => None
  | OpSetSecret id' s :: h => if decide (id' = id) then Some s else last_secret id h
  | _ :: h => last_secret id h
  end.

(** The challenge that is open for [id]: the nonces of the last registration of
    [id] that was challenged, unless it has been answered since. *)
Fixpoint open_challenge (id : str) (hist : list auth_op) : option PendingChallenge :=
  match hist with
  | [] => None
  | OpRegister req ts :: h =>
      if decide (rq_sandbox_id req = id) then
        match default [] (last_secret id h) with
        | [] => open_challenge id h
        | _ => Some (mkPending (rq_worker_nonce req) (generate_nonce ts))
        end
      else open_challenge id h
  | OpChallenge req _ :: h =>
      if decide (cp_sandbox_id req = id) then None else open_challenge id h
  | OpSetSecret _ _ :: h => open_challenge id h
  end.

(** The keys a proof may be made with. *)
Definition accepted_keys (c : AuthConfig) (id : str) (hist : list auth_op) : list str :=
  if pre_shared_key_enabled c then pre_shared_keys c
  else match last_secret id hist with Some s => [s] | None => [] end.

Lemma auth_run_snoc ops op st : auth_run (ops ++ [op]) st = auth_step op (auth_run ops st).
Proof. unfold auth_run. by rewrite fold_left_app. Qed.

Lemma auth_run_inv c hist :
  let st := auth_run (rev hist) (auth_new c) in
  auth_config st = c /\ (forall id, secrets st !! id = last_secret id hist) /\
  (forall id, pending_challenges st !! id = open_challenge id hist).
Proof.
  induction hist as [|op h (I1 & I2 & I3)]; [done|]. cbv zeta. simpl rev. rewrite auth_run_snoc.
  set (st := auth_run (rev h) (auth_new c)) in *. destruct op as [req ts|req uuid|id s]; simpl.
  - unfold register, get_secret. rewrite I2. split; [by case_match|].
    split; [intros id; by case_match|]. intros id.
    destruct (decide (rq_sandbox_id req = id)) as [<-|Hn].
    + destruct (default [] (last_secret (rq_sandbox_id req) h)); simpl; [apply I3|].
      apply lookup_insert_eq.
    + case_match; simpl; [apply I3|]. by rewrite lookup_insert_ne.
  - unfold challenge_response. destruct (pending_challenges st !! cp_sandbox_id req) as [p|] eqn:Ep.
    + set (ok := if pre_shared_key_enabled _ then _ else _).
      assert (E : forall r1 r2, snd (if negb ok then (r1 : RegisterResponse,
          mkAuthState (secrets st) (delete (cp_sandbox_id req) (pending_challenges st)) (auth_config st))
        else (r2, mkAuthState (secrets st) (delete (cp_sandbox_id req) (pending_challenges st)) (auth_config st)))
        = mkAuthState (secrets st) (delete (cp_sandbox_id req) (pending_challenges st)) (auth_config st))
        by (intros; by destruct ok).
      rewrite E. simpl. split; [done|]. split; [done|]. intros id. case_decide as Hd.
      * subst id. apply lookup_delete_eq.
      * by rewrite lookup_delete_ne.
    + simpl. split; [done|]. split; [done|]. intros id. case_decide as Hd; [by subst id|done].
  - split; [done|]. split; [|done]. intros id'. case_decide as Hd.
    + subst id'. apply lookup_insert_eq.
    + by rewrite lookup_insert_ne.
Qed.

(** C2. In any history of calls, a proof is accepted exactly when a challenge is
    open for the sandbox, that is, when its last challenged registration has not
    been answered yet, and the proof is the tag of that challenge's two nonces
    under one of the pre-shared keys, or in legacy mode under the sandbox's
    secret.  Right or wrong, an answer closes the challenge, so a proof cannot
    be replayed. *)
Theorem challenge_accepts_iff (c : AuthConfig) (hist : list auth_op) (req : ChallengeProof)
    (uuid : str) :
  let st := auth_run (rev hist) (auth_new c) in
  let '(r, st') := challenge_response req uuid st in
  (rr_status r = Accepted <->
     exists p key k, open_challenge (cp_sandbox_id req) hist = Some p /\
       key ∈ accepted_keys c (cp_sandbox_id req) hist /\
       new_from_slice (utf8 key) = Some k /\
       cp_proof req = mac_tag k (worker_nonce p ++ gateway_nonce p)) /\
  (rr_status r ≠ Accepted -> rr_status r = Rejected /\ rr_session_token r = []) /\
  pending_challenges st' !! cp_sandbox_id req = None /\
  (forall req' uuid', cp_sandbox_id req' = cp_sandbox_id req ->
     rr_status (fst (challenge_response req' uuid' st')) = Rejected).
Proof.
  cbv zeta. destruct (auth_run_inv c hist) as (I1 & I2 & I3).
  set (st := auth_run (rev hist) (auth_new c)) in *.
  assert (Hv : forall keys p, verify_hmac_proof_against_keys keys (worker_nonce p) (gateway_nonce p) (cp_proof req) = true <->
    exists key k, key ∈ keys /\ new_from_slice (utf8 key) = Some k /\
      cp_proof req = mac_tag k (worker_nonce p ++ gateway_nonce p)).
  { intros keys p. unfold verify_hmac_proof_against_keys. rewrite existsb_exists. split.
    - intros (key & Hin & Hk). unfold verify_hmac_proof in Hk.
      destruct (new_from_slice (utf8 key)) as [k|] eqn:Ek; [|done].
      apply bool_decide_eq_true in Hk. exists key, k. by rewrite list_elem_of_In.
    - intros (key & k & Hin & Hk & ->). exists key. split; [by apply list_elem_of_In|].
      unfold verify_hmac_proof. rewrite Hk. by apply bool_decide_eq_true. }
  unfold challenge_response at 1. rewrite I3.
  destruct (open_challenge (cp_sandbox_id req) hist) as [p|] eqn:Eo.
  2:{ split; [|split; [done|split; [by rewrite I3|]]].
      - simpl. split; [done|]. intros (p & _ & _ & Hp & _). done.
      - intros req' uuid' E. unfold challenge_response. by rewrite E, I3, Eo. }
  assert (Hok : (if pre_shared_key_enabled (auth_config st) then
      match pre_shared_keys (auth_config st) with
      | [] => false
      | keys => verify_hmac_proof_against_keys keys (worker_nonce p) (gateway_nonce p) (cp_proof req)
      end
    else match get_secret (cp_sandbox_id req) st with
      | Some secret => verify_hmac_proof secret (worker_nonce p) (gateway_nonce p) (cp_proof req)
      | None => false
      end) = verify_hmac_proof_against_keys (accepted_keys c (cp_sandbox_id req) hist)
        (worker_nonce p) (gateway_nonce p) (cp_proof req)).
  { unfold accepted_keys, get_secret. rewrite I1, I2. destruct (pre_shared_key_enabled c).
    - by destruct (pre_shared_keys c).
    - destruct (last_secret _ hist); [|done]. simpl. by rewrite orb_false_r. }
  rewrite Hok. specialize (Hv (accepted_keys c (cp_sandbox_id req) hist) p).
  destruct (verify_hmac_proof_against_keys _ _ _ _); simpl;
    (split; [|split; [done|split; [apply lookup_delete_eq|
      intros req' uuid' E; unfold challenge_response; simpl; by rewrite E, lookup_delete_eq]]]).
  - split; [|done]. intros _. destruct (proj1 Hv eq_refl) as (key & k & ? & ? & ?). by exists p, key, k.
  - split; [done|]. intros (p' & key & k & [= <-] & H1 & H2 & H3).
    assert (false = true) by (apply Hv; by exists key, k). done.
Qed.

(** A registration is accepted without any proof whenever no secret, or an
    empty one, is set for the sandbox: also when pre-shared keys are enabled.
    The session token is then the sandbox id behind a fixed prefix.  With a
    secret the registration is answered with a challenge and no token. *)
Theorem register_without_secret (req : RegisterRequest) (ts : N) (st : AuthState) :
  let r := fst (register req ts st) in
  (rr_status r = Accepted <-> default [] (secrets st !! rq_sandbox_id req) = []) /\
  (rr_status r = Accepted -> rr_session_token r = lit "token-" ++ rq_sandbox_id req /\
     snd (register req ts st) = st) /\
  (rr_status r ≠ Accepted -> rr_status r = Challenge /\ rr_session_token r = [] /\
     rr_gateway_nonce r = generate_nonce ts).
Proof.
  unfold register, get_secret. destruct (default [] (secrets st !! rq_sandbox_id req)); simpl; done.
Qed.

Lemma le_bytes_nth n z i :
  (i < n)%nat -> le_bytes n z !! i = Some (N.land (N.shiftr z (N.of_nat i * 8)) 0xff).
Proof.
  revert z i. induction n as [|n IH]; intros z i Hi; [lia|].
  destruct i as [|i]; cbn [le_bytes lookup list_lookup]; [by rewrite N.shiftr_0_r|].
  change (le_bytes n (N.shiftr z 8) !! i = Some (N.land (N.shiftr z (N.of_nat (S i) * 8)) 0xff)).
  rewrite IH by lia. rewrite N.shiftr_shiftr. do 3 f_equal. lia.
Qed.

Lemma le_bytes_length n z : length (le_bytes n z) = n.
Proof. revert z. induction n as [|n IH]; intros z; simpl; [done|]. by rewrite IH. Qed.

(** The gateway's nonce has 24 bytes and no randomness: it is the clock's
    reading in 16 bytes followed by a copy of its first 8, so that two
    challenges are distinct exactly as far as their instants are. *)
Theorem nonce_is_the_clock (ts ts' : N) :
  length (generate_nonce ts) = 24 /\
  drop 16 (generate_nonce ts) = take 8 (generate_nonce ts) /\
  ((ts < 2 ^ 128)%N -> (ts' < 2 ^ 128)%N -> generate_nonce ts = generate_nonce ts' -> ts = ts').
Proof.
  assert (Hl : length (generate_nonce ts) = 24).
  { unfold generate_nonce. by rewrite length_app, le_bytes_length, length_map, length_seq. }
  split; [done|]. split.
  - unfold generate_nonce. rewrite drop_app_length' by (by rewrite le_bytes_length).
    apply list_eq. intros i. destruct (decide (i < 8)) as [Hi|Hi].
    + rewrite lookup_take_lt, lookup_app_l by (rewrite ?le_bytes_length; lia).
      rewrite le_bytes_nth by lia. rewrite list_lookup_fmap. rewrite lookup_seq_lt by lia. done.
    + rewrite lookup_take_ge by lia. apply lookup_ge_None. rewrite length_map, length_seq. lia.
  - intros H1 H2 E. apply N.bits_inj. intros b.
    destruct (decide (b < 128)%N) as [Hb|Hb].
    + assert (Hi : (N.to_nat (b / 8) < 16)%nat).
      { apply (N.Div0.div_lt_upper_bound b 8 16) in Hb. lia. }
      apply (f_equal (fun l => l !! N.to_nat (b / 8))) in E. unfold generate_nonce in E.
      rewrite !lookup_app_l in E by (by rewrite le_bytes_length).
      rewrite !le_bytes_nth in E by done. injection E as E.
      apply (f_equal (fun z => N.testbit z (b mod 8))) in E.
      rewrite !N.land_spec, !N.shiftr_spec' in E.
      assert (Hbit : N.testbit 0xff (b mod 8) = true).
      { pose proof (N.mod_lt b 8 ltac:(done)) as Hm. revert Hm. generalize (b mod 8)%N. intros m Hm.
        change 0xff%N with (N.ones 8). by apply N.ones_spec_low. }
      rewrite Hbit, !andb_true_r in E.
      replace (b mod 8 + N.of_nat (N.to_nat (b / 8)) * 8)%N with b in E; [done|].
      pose proof (N.div_mod' b 8). lia.
    + rewrite !N.bits_above_log2; [done|..].
      * destruct (decide (ts' = 0)%N) as [->|Hz]; [simpl; lia|].
        apply N.log2_lt_pow2 in H2; lia.
      * destruct (decide (ts = 0)%N) as [->|Hz]; [simpl; lia|].
        apply N.log2_lt_pow2 in H1; lia.
Qed.
End Auth.

(** ** Witnesses *)

Definition w_hist : list auth_op :=
  [OpRegister (mkRegister (lit "s1") [1; 2]%N) 5; OpSetSecret (lit "s1") (lit "key")].

Lemma challenge_accepts_witness :
  rr_status (fst (@challenge_response toy_hmac (lit "1.0")
    (mkProof (lit "s1") (lit "key" ++ [1; 2]%N ++ generate_nonce 5)) (lit "uuid")
    (@auth_run toy_hmac (lit "1.0") (rev w_hist) (auth_new (mkAuthConfig false []))))) = Accepted.
Proof.
  apply (@challenge_accepts_iff toy_hmac (lit "1.0") (mkAuthConfig false []) w_hist
    (mkProof (lit "s1") (lit "key" ++ [1; 2]%N ++ generate_nonce 5)) (lit "uuid")).
  exists (mkPending [1; 2]%N (generate_nonce 5)), (lit "key"), (lit "key").
  split; [reflexivity|]. split; [left|]. split; reflexivity.
Defined.

Lemma register_without_secret_witness :
  rr_session_token (fst (register (lit "1.0") (mkRegister (lit "s1") []) 5
    (auth_new (mkAuthConfig true [lit "key"])))) = lit "token-" ++ lit "s1".
Proof.
  apply (register_without_secret (lit "1.0") (mkRegister (lit "s1") []) 5
    (auth_new (mkAuthConfig true [lit "key"]))). reflexivity.
Defined.

Lemma nonce_witness : 5%N = 5%N.
Proof. apply (nonce_is_the_clock 5 5); reflexivity. Defined.
