(* ===== verification/WorkerLink.v ===== *)
(** * Rate limiter and circuit breaker

    Models the two guards of a worker connection in
    [bastion-gateway/src/registry.rs]: the token bucket on [f64] values (the
    [spec_float]s of precision 53) and the circuit breaker of [WorkerHandle].
    Instants are nanoseconds of the monotonic clock; a method that reads the
    clock takes its readings as arguments. *)

From S2P Require Import Prelude.
From Stdlib Require Import SpecFloat.

(** [Duration::as_secs_f64] of a duration in nanoseconds. *)
Definition as_secs_f64 (d : Z) : float :=
  f64_add (f64_of_Z (d / 1000000000)) (f64_div (f64_of_Z (d mod 1000000000)) (f64_of_Z 1000000000)).

(** The difference of two instants: zero when the second is later. *)
Definition instant_sub (a b : Z) : Z := Z.max 0 (a - b).

(** ** Token bucket *)

Record TokenBucket := mkBucket {
  tokens : float; max_tokens : float; refill_rate : float; last_refill : Z
}.

Definition TokenBucket_new (max rate : float) (now : Z) : TokenBucket := mkBucket max max rate now.

Definition try_consume (now : Z) (b : TokenBucket) : bool * TokenBucket :=
  let elapsed := as_secs_f64 (instant_sub now (last_refill b)) in
  let t := f64_min (f64_add (tokens b) (f64_mul elapsed (refill_rate b))) (max_tokens b) in
  if f_ge t (f64_of_Z 1) then (true, mkBucket (f64_sub t (f64_of_Z 1)) (max_tokens b) (refill_rate b) now)
  else (false, mkBucket t (max_tokens b) (refill_rate b) now).

(** The limiter a registered worker gets: a burst of 20, 10 per second. *)
Definition worker_limiter (now : Z) : TokenBucket :=
  TokenBucket_new (f64_of_Z 20) (f64_of_Z 10) now.

(** Requests at the given instants. *)
Fixpoint consume_all (times : list Z) (b : TokenBucket) : list bool * TokenBucket :=
  match times with
  | [] => ([], b)
  | t :: ts =>
      let '(r, b) := try_consume t b in
      let '(rs, b) := consume_all ts b in (r :: rs, b)
  end.

(** The bucket with [k] tokens at the instant [t]. *)
Definition limiter_at (k : nat) (t : Z) : TokenBucket :=
  mkBucket (f64_of_Z (Z.of_nat k)) (f64_of_Z 20) (f64_of_Z 10) t.

Lemma instant_sub_diag t : instant_sub t t = 0%Z.
Proof. unfold instant_sub. lia. Qed.

Lemma consume_some k t :
  k < 20 -> try_consume t (limiter_at (S k) t) = (true, limiter_at k t).
Proof.
  intros Hk. unfold try_consume, limiter_at. cbn [last_refill tokens refill_rate max_tokens].
  rewrite instant_sub_diag.
  do 20 (destruct k as [|k]; [reflexivity|]). lia.
Qed.

Lemma consume_none t : try_consume t (limiter_at 0 t) = (false, limiter_at 0 t).
Proof.
  unfold try_consume, limiter_at. cbn [last_refill tokens refill_rate max_tokens].
  rewrite instant_sub_diag. reflexivity.
Qed.

Lemma consume_burst k n t :
  k <= 20 -> fst (consume_all (repeat t n) (limiter_at k t)) =
    map (fun i => (i <? k)%nat) (seq 0 n).
Proof.
  revert k. induction n as [|n IH]; intros k Hk; [done|]. cbn [repeat consume_all].
  destruct k as [|k].
  - rewrite consume_none. specialize (IH 0 ltac:(lia)).
    destruct (consume_all (repeat t n) (limiter_at 0 t)) as [rs b]. simpl in *. f_equal.
    rewrite IH, <- seq_shift, map_map. by apply map_ext.
  - rewrite consume_some by lia. specialize (IH k ltac:(lia)).
    destruct (consume_all (repeat t n) (limiter_at k t)) as [rs b]. simpl in *. f_equal.
    rewrite IH, <- seq_shift, map_map. by apply map_ext.
Qed.

(** At one instant a freshly registered worker is granted exactly its burst:
    of any number of requests the first 20 pass and all others are refused; and
    an emptied limiter grants exactly one request again 100 milliseconds later
    and exactly 20 two seconds later. *)
Theorem burst_of_twenty (n : nat) (t : Z) :
  fst (consume_all (repeat t n) (worker_limiter t)) = map (fun i => (i <? 20)%nat) (seq 0 n) /\
  fst (consume_all (repeat (t + 100000000)%Z n) (limiter_at 0 t)) = map (fun i => (i <? 1)%nat) (seq 0 n) /\
  fst (consume_all (repeat (t + 2000000000)%Z n) (limiter_at 0 t)) = map (fun i => (i <? 20)%nat) (seq 0 n).
Proof.
  split; [by apply (consume_burst 20)|].
  assert (H : forall d k, f64_min (f64_add (f64_of_Z 0) (f64_mul (as_secs_f64 d) (f64_of_Z 10))) (f64_of_Z 20)
      = f64_of_Z (Z.of_nat (S k)) -> (0 <= d)%Z -> k < 20 ->
    fst (consume_all (repeat (t + d)%Z n) (limiter_at 0 t)) = map (fun i => (i <? S k)%nat) (seq 0 n)).
  { intros d k Hd Hp Hk. destruct n as [|m]; [done|]. cbn [repeat consume_all].
    assert (E : try_consume (t + d) (limiter_at 0 t) = (true, limiter_at k (t + d))).
    { rewrite <- (consume_some k (t + d) Hk). unfold try_consume, limiter_at.
      cbn [last_refill tokens refill_rate max_tokens]. rewrite instant_sub_diag.
      replace (instant_sub (t + d) t) with d by (unfold instant_sub; lia).
      change (Z.of_nat 0) with 0%Z. rewrite Hd.
      do 20 (destruct k as [|k]; [reflexivity|]). lia. }
    rewrite E. pose proof (consume_burst k m (t + d) ltac:(lia)) as Hb.
    destruct (consume_all (repeat (t + d)%Z m) (limiter_at k (t + d))) as [rs b]. simpl in *. f_equal.
    rewrite Hb, <- seq_shift, map_map. by apply map_ext. }
  split; [apply (H _ 0)|apply (H _ 19)]; try reflexivity; lia.
Qed.

(** ** Circuit breaker *)

(** The shared cells of a [WorkerHandle]: [consecutive_failures] (an
    [AtomicU32]) and [circuit_open_until]. *)
Record Breaker := mkBreaker { consecutive_failures : Z; circuit_open_until : option Z }.

Definition Breaker_new : Breaker := mkBreaker 0 None.

Inductive CircuitState := Closed | HalfOpen | Open.

#[export] Instance CircuitState_eq_dec : EqDecision CircuitState.
Proof. solve_decision. Defined.

Definition get_circuit_state (now : Z) (b : Breaker) : CircuitState :=
  match circuit_open_until b with
  | Some until => if (now <? until)%Z then Open else HalfOpen
  | None => Closed
  end.

Definition is_circuit_open (now : Z) (b : Breaker) : bool :=
  match get_circuit_state now b with Open => true | _ => false end.

Definition record_success (b : Breaker) : Breaker := mkBreaker 0 None.

(** Thirty seconds. *)
Definition open_period : Z := 30000000000.

(** [now] is the reading for the state, [now'] the one for the new deadline. *)
Definition record_failure (now now' : Z) (b : Breaker) : Breaker :=
  let state := get_circuit_state now b in
  let failures := as_u32 (consecutive_failures b + 1) in
  let opened := mkBreaker failures (Some (now' + open_period)%Z) in
  match state with
  | HalfOpen => opened
  | Closed => if (3 <=? failures)%Z then opened else mkBreaker failures (circuit_open_until b)
  | Open => mkBreaker failures (circuit_open_until b)
  end.

(** *** The breaker as a state machine *)

Inductive breaker_state := Counting (failures : nat) | Tripped (until : Z).

Inductive outcome := Success | Failure (now now' : Z).

Definition spec_step (o : outcome) (s : breaker_state) : breaker_state :=
  match o, s with
  | Success, _ => Counting 0
  | Failure _ now', Counting n => if (3 <=? S n)%nat then Tripped (now' + open_period) else Counting (S n)
  | Failure now now', Tripped until =>
      if (now <? until)%Z then Tripped until else Tripped (now' + open_period)
  end.

Definition breaker_step (o : outcome) (b : Breaker) : Breaker :=
  match o with Success => record_success b | Failure now now' => record_failure now now' b end.

(** The concrete cells represent the abstract state. *)
Definition represents (b : Breaker) (s : breaker_state) : Prop :=
  match s with
  | Counting n => circuit_open_until b = None /\ consecutive_failures b = Z.of_nat n /\ n < 3
  | Tripped until => circuit_open_until b = Some until
  end.

Lemma breaker_step_represents o b s :
  represents b s -> represents (breaker_step o b) (spec_step o s).
Proof.
  destruct o as [|now now'], s as [n|until]; cbn [represents breaker_step spec_step];
    [intros _; repeat split; lia|intros _; repeat split; lia|..].
  - intros (Ho & Hf & Hn). unfold record_failure, get_circuit_state. rewrite Ho, Hf.
    assert (as_u32 (Z.of_nat n + 1) = Z.of_nat (S n)) as -> by (unfold as_u32; rewrite Z.mod_small; lia).
    destruct n as [|[|[|n]]]; [..|lia]; simpl; try done; repeat split; lia.
  - intros Ho. unfold record_failure, get_circuit_state. rewrite Ho.
    by destruct (now <? until)%Z; simpl.
Qed.

(** The number of failures at the end of a history. *)
Fixpoint trailing_failures (os : list outcome) : nat :=
  match os with
  | [] => 0
  | o :: os' =>
      if forallb (fun o => match o with Failure _ _ => true | Success => false end) (o :: os')
      then length (o :: os') else trailing_failures os'
  end.

Definition breaker_run (os : list outcome) : Breaker :=
  fold_left (fun b o => breaker_step o b) os Breaker_new.
Definition spec_run (os : list outcome) : breaker_state :=
  fold_left (fun s o => spec_step o s) os (Counting 0).

Lemma run_represents os : represents (breaker_run os) (spec_run os).
Proof.
  unfold breaker_run, spec_run.
  assert (H : represents Breaker_new (Counting 0)) by (repeat split; simpl; lia).
  revert H. generalize Breaker_new (Counting 0). induction os as [|o os IH]; intros b s H; [done|].
  simpl. apply IH. by apply breaker_step_represents.
Qed.

Definition is_failure (o : outcome) : bool := match o with Failure _ _ => true | Success => false end.

Lemma trailing_snoc os o :
  trailing_failures (os ++ [o]) = if is_failure o then S (trailing_failures os) else 0.
Proof.
  induction os as [|o' os IH]; [by destruct o|]. cbn [trailing_failures app].
  change (fun o => match o with Failure _ _ => true | Success => false end) with is_failure.
  change (forallb is_failure (o' :: os ++ [o])) with (is_failure o' && forallb is_failure (os ++ [o])).
  change (forallb is_failure (o' :: os)) with (is_failure o' && forallb is_failure os).
  rewrite forallb_app. rewrite IH. cbn [forallb length]. rewrite length_app. simpl.
  destruct (is_failure o'), (forallb is_failure os) eqn:Ef, (is_failure o); simpl; try done; try lia.
Qed.

Lemma spec_run_counting os n :
  spec_run os = Counting n -> n = trailing_failures os /\ n < 3.
Proof.
  revert n. induction os as [|o os IH] using rev_ind; intros n; [intros [= <-]; simpl; lia|].
  unfold spec_run. rewrite fold_left_app. simpl. fold (spec_run os). rewrite trailing_snoc.
  destruct o as [|now now'], (spec_run os) as [m|u] eqn:Es; simpl; try (by intros [= <-]; lia).
  - destruct (IH m eq_refl) as [-> Hm]. destruct (trailing_failures os) as [|[|[|k]]] eqn:Et;
      simpl; try (by intros [= <-]; lia); done.
  - by destruct (now <? u)%Z.
Qed.

Lemma spec_run_tripped os u :
  spec_run os = Tripped u -> 3 <= trailing_failures os /\
    exists now now', (Failure now now') ∈ os /\ u = (now' + open_period)%Z.
Proof.
  revert u. induction os as [|o os IH] using rev_ind; intros u; [done|].
  unfold spec_run. rewrite fold_left_app. simpl. fold (spec_run os). rewrite trailing_snoc.
  destruct o as [|now now'], (spec_run os) as [m|v] eqn:Es; simpl; try done.
  - apply spec_run_counting in Es as [-> Hm].
    destruct (trailing_failures os) as [|[|[|k]]] eqn:Et; simpl; try done; try lia.
    intros [= <-]. split; [lia|]. exists now, now'. split; [|done].
    apply elem_of_app. right. left.
  - destruct (IH v eq_refl) as (Hl & a & b & Hin & Hv).
    destruct (now <? v)%Z; intros [= <-]; (split; [lia|]).
    + exists a, b. split; [apply elem_of_app; by left|done].
    + exists now, now'. split; [apply elem_of_app; right; left|done].
Qed.

(** C16. The breaker refines a two-state machine that counts failures up to
    three and then trips until a deadline, whatever the instants of the
    outcomes.  It refuses requests only after three failures in a row since the
    last success and only until thirty seconds after one of the recorded
    failures; after that it lets requests through again, any number of them, in
    the half-open state, until the next outcome. *)
Theorem breaker_refines (os : list outcome) (now : Z) :
  represents (breaker_run os) (spec_run os) /\
  (is_circuit_open now (breaker_run os) = true ->
     3 <= trailing_failures os /\
     exists t t', Failure t t' ∈ os /\ (now < t' + open_period)%Z) /\
  (trailing_failures os < 3 -> get_circuit_state now (breaker_run os) = Closed) /\
  (3 <= trailing_failures os -> exists until, spec_run os = Tripped until /\
     get_circuit_state now (breaker_run os) = if (now <? until)%Z then Open else HalfOpen).
Proof.
  pose proof (run_represents os) as Hr. split; [done|].
  unfold is_circuit_open, get_circuit_state. destruct (spec_run os) as [n|u] eqn:Es; simpl in Hr.
  - apply spec_run_counting in Es as [-> Hn]. destruct Hr as (Ho & _). rewrite Ho.
    split; [done|]. split; [done|]. lia.
  - rewrite Hr. destruct (spec_run_tripped os u Es) as (Hl & t & t' & Hin & ->).
    split; [|split; [lia|eauto]].
    destruct (now <? t' + open_period)%Z eqn:E; [|done]. bools. intros _. eauto.
Qed.

Lemma breaker_refines_witness :
  get_circuit_state 5 (breaker_run [Failure 0 0; Failure 1 1]) = Closed.
Proof. apply (breaker_refines [Failure 0 0; Failure 1 1] 5). simpl. lia. Defined.
