(* ===== verification/Registry.v ===== *)
(** * The worker registry and command routing

    Models the rest of [bastion-gateway/src/registry.rs]: the table of connected
    workers, [collect_responses] and the routing operations built on it, the
    streaming forwarder, the pipeline commands, the watchdog and the first
    message of [command_stream].

    A [WorkerHandle] holds [Arc]s to its circuit breaker: handles name a cell of
    a shared store, so that a clone taken at the start of a command and the
    table's entry update the same breaker, also after the entry was replaced.
    The channels to the workers are the class [WorkerLink]: whether a command
    could be sent, which items arrive on a response channel before the timeout
    and how the wait ends.  Messages are those of the protocol buffer
    declarations, reduced to the fields the code reads. *)

From S2P Require Import Prelude Sandbox Command SandboxRepo WorkerLink.

(** ** Messages *)

Record FileListEntry := mkFileListEntry {
  fl_path : str; fl_is_directory : bool; fl_size_bytes : Z; fl_permissions : str;
  fl_modified_epoch_ms : Z
}.

Inductive WorkerPayload :=
| PReady (session_token : str)
| PStdout (data : bytes)
| PStderr (data : bytes)
| PExit (exit_code : Z) (duration_ms : Z) (timed_out : bool)
| PFileChunk (content : bytes) (is_last : bool)
| PFileList (entries : list FileListEntry)
| PError (error : str)
| POther.

Record WorkerMessage := mkMessage { wm_command_id : str; wm_payload : option WorkerPayload }.

Inductive GatewayPayload :=
| GRun (command : str) (args : list str) (working_dir : str) (env : gmap str str) (timeout_ms : Z)
| GRead (path : str) (offset length : Z)
| GWrite (path : str) (mode total_size : Z) (content : bytes)
| GList (directory : str) (recursive : bool) (max_depth : Z)
| GRunPipeline (pipeline_file : str) (env : gmap str str) (timeout_ms : Z) (run_id : str)
    (parameters : gmap str str)
| GCancelPipeline (run_id reason : str).

Record GatewayCommand := mkCommand {
  gc_command_id : str; gc_session_token : str; gc_payload : GatewayPayload
}.

Inductive RegistryError :=
| WorkerNotFound (id : str)
| WorkerDisconnected (id : str)
| CommandTimeout (id : str)
| RCommandFailed (e : str)
| RateLimited (id : str).

Definition registry_error_display (e : RegistryError) : str :=
  match e with
  | WorkerNotFound id => lit "Worker " ++ id ++ lit " not found"
  | WorkerDisconnected id => lit "Worker " ++ id ++ lit " disconnected"
  | CommandTimeout id => lit "Command " ++ id ++ lit " timed out"
  | RCommandFailed e => lit "Command failed: " ++ e
  | RateLimited id => lit "Rate limited for sandbox " ++ id
  end.

(** ** State *)

(** A channel's sender, the token, and the cell of the circuit breaker. *)
Record WorkerHandle := mkHandle { cmd_tx : nat; session_token : str; breaker : nat }.

Record RegistryService := mkRegistry {
  workers : gmap str WorkerHandle;
  breakers : gmap nat Breaker;
  pending_multi : gset str;
  rate_limiters : gmap str TokenBucket
}.

Definition set_workers (m : gmap str WorkerHandle) (st : RegistryService) : RegistryService :=
  mkRegistry m (breakers st) (pending_multi st) (rate_limiters st).
Definition set_breaker (c : nat) (b : Breaker) (st : RegistryService) : RegistryService :=
  mkRegistry (workers st) (<[c := b]> (breakers st)) (pending_multi st) (rate_limiters st).
Definition set_pending (p : gset str) (st : RegistryService) : RegistryService :=
  mkRegistry (workers st) (breakers st) p (rate_limiters st).
Definition set_limiter (id : str) (b : TokenBucket) (st : RegistryService) : RegistryService :=
  mkRegistry (workers st) (breakers st) (pending_multi st) (<[id := b]> (rate_limiters st)).

Definition registry_new : RegistryService := mkRegistry ∅ ∅ ∅ ∅.

(** The breaker of a handle; its cell always exists. *)
Definition breaker_of (h : WorkerHandle) (st : RegistryService) : Breaker :=
  default Breaker_new (breakers st !! breaker h).

(** How the wait for responses ends when no item ended it. *)
Inductive Ending := TimedOut | ChannelClosed.

Class WorkerLink (W : Type) := {
  link_send : nat -> GatewayCommand -> W -> bool * W;
  link_replies : str -> Z -> W -> list (result str WorkerMessage) * Ending * W;
  link_is_closed : nat -> W -> bool
}.

Definition register_worker (id : str) (h : WorkerHandle) (now : Z) (st : RegistryService) :
    RegistryService :=
  set_limiter id (worker_limiter now) (set_workers (<[id := h]> (workers st)) st).

Definition unregister_worker (id : str) (st : RegistryService) : RegistryService :=
  set_workers (delete id (workers st)) st.

Definition get_session_token (id : str) (st : RegistryService) : option str :=
  option_map session_token (workers st !! id).

Definition is_worker_connected (id : str) (st : RegistryService) : bool :=
  match workers st !! id with Some _ => true | None => false end.

(** ** Collecting responses *)

Definition is_terminal_message (m : WorkerMessage) : bool :=
  match wm_payload m with
  | Some (PExit _ _ _) | Some (PError _) | Some (PFileList _) => true
  | Some (PFileChunk _ is_last) => is_last
  | _ => false
  end.

(** The loop over the channel; [None] is the elapsed timeout. *)
Fixpoint collect_loop (items : list (result str WorkerMessage)) (ending : Ending)
    (messages : list WorkerMessage) : option (result RegistryError (list WorkerMessage)) :=
  match items with
  | [] => match ending with ChannelClosed => Some (Ok messages) | TimedOut => None end
  | Ok msg :: l =>
      let messages := messages ++ [msg] in
      if is_terminal_message msg then Some (Ok messages) else collect_loop l ending messages
  | Err e :: _ => Some (Err (RCommandFailed e))
  end.

Section Routing.
Context {W : Type} `{ENV : !Environment W, LINK : !WorkerLink W}.

Definition handle_success (h : WorkerHandle) (st : RegistryService) : RegistryService :=
  set_breaker (breaker h) (record_success (breaker_of h st)) st.

(** The two readings of the clock in [record_failure]. *)
Definition handle_failure (h : WorkerHandle) (st : RegistryService) (w : W) :
    RegistryService * W :=
  let '(now, w) := instant_now w in
  let '(now', w) := instant_now w in
  (set_breaker (breaker h) (record_failure now now' (breaker_of h st)) st, w).

(** The rate limiter's answer, with its state. *)
Definition check_rate_limit (id : str) (st : RegistryService) (w : W) : bool * RegistryService * W :=
  match rate_limiters st !! id with
  | None => (true, st, w)
  | Some b =>
      let '(now, w) := instant_now w in
      let '(ok, b) := try_consume now b in (ok, set_limiter id b st, w)
  end.

(** Why a command is not even sent. *)
Inductive refusal := NotConnected | CircuitIsOpen | Limited.

(** The checks before a command is sent: [inl] the refusal, [inr] the handle. *)
Definition acquire (id : str) (st : RegistryService) (w : W) :
    (refusal + WorkerHandle) * RegistryService * W :=
  match workers st !! id with
  | None => (inl NotConnected, st, w)
  | Some h =>
      let '(now, w) := instant_now w in
      if is_circuit_open now (breaker_of h st) then
        (inl CircuitIsOpen, st, w)
      else
        let '(ok, st, w) := check_rate_limit id st w in
        if ok then (inr h, st, w) else (inl Limited, st, w)
  end.

Definition collect_refusal (id : str) (r : refusal) : RegistryError :=
  match r with
  | NotConnected => WorkerNotFound id
  | CircuitIsOpen => WorkerNotFound (lit "Circuit breaker open for " ++ id)
  | Limited => RateLimited id
  end.

Definition collect_responses (id : str) (cmd : GatewayCommand) (timeout_ms : Z)
    (st : RegistryService) (w : W) :
    result RegistryError (list WorkerMessage) * RegistryService * W :=
  let command_id := gc_command_id cmd in
  let '(r, st, w) := acquire id st w in
  match r with
  | inl e => (Err (collect_refusal id e), st, w)
  | inr h =>
      let st := set_pending ({[command_id]} ∪ pending_multi st) st in
      let '(sent, w) := link_send (cmd_tx h) cmd w in
      if negb sent then
        let '(st, w) := handle_failure h st w in
        (Err (WorkerDisconnected id), set_pending (pending_multi st ∖ {[command_id]}) st, w)
      else
        let '(items, ending, w) := link_replies command_id timeout_ms w in
        let result := collect_loop items ending [] in
        let st := set_pending (pending_multi st ∖ {[command_id]}) st in
        match result with
        | Some (Ok messages) => (Ok messages, handle_success h st, w)
        | Some (Err e) => let '(st, w) := handle_failure h st w in (Err e, st, w)
        | None => let '(st, w) := handle_failure h st w in (Err (CommandTimeout command_id), st, w)
        end
  end.

(** ** Routing *)

Definition internal (e : RegistryError) : DomainError := Internal (registry_error_display e).

Fixpoint aggregate_run (msgs : list WorkerMessage) (r : CommandResult) :
    result DomainError CommandResult :=
  match msgs with
  | [] => Ok r
  | m :: l =>
      match wm_payload m with
      | Some (PStdout d) =>
          aggregate_run l (mkCommandResult (cr_exit_code r) (cr_stdout r ++ d) (cr_stderr r)
            (cr_duration_ms r) (cr_timed_out r))
      | Some (PStderr d) =>
          aggregate_run l (mkCommandResult (cr_exit_code r) (cr_stdout r) (cr_stderr r ++ d)
            (cr_duration_ms r) (cr_timed_out r))
      | Some (PExit c d t) =>
          aggregate_run l (mkCommandResult c (cr_stdout r) (cr_stderr r) (as_u64 d) t)
      | Some (PError e) => Err (Internal e)
      | _ => aggregate_run l r
      end
  end.

Definition run_start : CommandResult := mkCommandResult (-1) [] [] 0 false.

(** [collect_responses] with its error turned into a domain error, and the
    messages handed to [k]. *)
Definition routed {A} (id : str) (cmd : GatewayCommand) (timeout_ms : Z)
    (k : list WorkerMessage -> result DomainError A) (st : RegistryService) (w : W) :
    result DomainError A * RegistryService * W :=
  let '(r, st, w) := collect_responses id cmd timeout_ms st w in
  match r with
  | Err e => (Err (internal e), st, w)
  | Ok msgs => (k msgs, st, w)
  end.

Definition route_run_command (id command : str) (args : list str) (dir : str) (env : gmap str str)
    (timeout_ms : Z) (st : RegistryService) (w : W) :
    result DomainError CommandResult * RegistryService * W :=
  let '(command_id, w) := generate_id w in
  let cmd := mkCommand command_id [] (GRun command args dir env (as_i64 timeout_ms)) in
  routed id cmd timeout_ms (fun msgs => aggregate_run msgs run_start) st w.

Fixpoint first_error (msgs : list WorkerMessage) : result DomainError unit :=
  match msgs with
  | [] => Ok tt
  | m :: l =>
      match wm_payload m with Some (PError e) => Err (Internal e) | _ => first_error l end
  end.

Definition route_write_file (id path : str) (content : bytes) (st : RegistryService) (w : W) :
    result DomainError unit * RegistryService * W :=
  let '(command_id, w) := generate_id w in
  let cmd := mkCommand command_id [] (GWrite path 420 (Z.of_nat (length content)) content) in
  routed id cmd 30000 first_error st w.

Fixpoint aggregate_chunks (msgs : list WorkerMessage) (content : bytes) : result DomainError bytes :=
  match msgs with
  | [] => Ok content
  | m :: l =>
      match wm_payload m with
      | Some (PFileChunk d _) => aggregate_chunks l (content ++ d)
      | Some (PError e) => Err (Internal e)
      | _ => aggregate_chunks l content
      end
  end.

Definition route_read_file (id path : str) (st : RegistryService) (w : W) :
    result DomainError bytes * RegistryService * W :=
  let '(command_id, w) := generate_id w in
  let cmd := mkCommand command_id [] (GRead path 0 (-1)) in
  routed id cmd 30000 (fun msgs => aggregate_chunks msgs []) st w.

Section Listing.
(** [chrono::DateTime::from_timestamp_millis]. *)
Context {DT : Type} (from_timestamp_millis : Z -> option DT).

Definition file_entry (e : FileListEntry) : FileEntry DT :=
  mkFileEntry (fl_path e) (fl_is_directory e) (as_u64 (fl_size_bytes e))
    (if (0 <? fl_modified_epoch_ms e)%Z then from_timestamp_millis (fl_modified_epoch_ms e) else None)
    (fl_permissions e).

Fixpoint find_listing (msgs : list WorkerMessage) : result DomainError (list (FileEntry DT)) :=
  match msgs with
  | [] => Ok []
  | m :: l =>
      match wm_payload m with
      | Some (PFileList es) => Ok (map file_entry es)
      | Some (PError e) => Err (Internal e)
      | _ => find_listing l
      end
  end.

Definition route_list_files (id directory : str) (st : RegistryService) (w : W) :
    result DomainError (list (FileEntry DT)) * RegistryService * W :=
  let '(command_id, w) := generate_id w in
  let cmd := mkCommand command_id [] (GList directory false 1) in
  routed id cmd 30000 find_listing st w.
End Listing.

(** ** Streaming *)

(** The spawned task: the items sent to the consumer, of which the first
    [accepts] sends succeed. *)
Fixpoint forward_loop (accepts : nat) (items : list (result str WorkerMessage)) :
    list (result DomainError CommandChunk) :=
  match items with
  | [] => []
  | Err e :: _ => match accepts with O => [] | S _ => [Err (Internal e)] end
  | Ok m :: l =>
      match wm_payload m with
      | Some (PStdout d) =>
          match accepts with O => [] | S n => Ok (chunk_stdout d) :: forward_loop n l end
      | Some (PStderr d) =>
          match accepts with O => [] | S n => Ok (chunk_stderr d) :: forward_loop n l end
      | Some (PExit c _ _) =>
          match accepts with
          | O => []
          | S _ => [Ok (mkChunk CtExitCode (i32_to_le_bytes c) true)]
          end
      | Some (PError e) => match accepts with O => [] | S _ => [Err (Internal e)] end
      | _ => forward_loop accepts l
      end
  end.

Definition stream_refusal (id : str) (r : refusal) : DomainError :=
  match r with
  | NotConnected => Internal (lit "Worker not found: " ++ id)
  | CircuitIsOpen => Internal (lit "Circuit breaker open for " ++ id)
  | Limited => Internal (lit "Rate limited for " ++ id)
  end.

(** Until the stream is returned; the task that forwards is [forward_loop], and
    it removes the pending entry when it ends. *)
Definition route_run_command_stream (id command : str) (args : list str) (dir : str)
    (env : gmap str str) (timeout_ms : Z) (st : RegistryService) (w : W) :
    result DomainError str * RegistryService * W :=
  let '(command_id, w) := generate_id w in
  let cmd := mkCommand command_id [] (GRun command args dir env (as_i64 timeout_ms)) in
  let '(r, st, w) := acquire id st w in
  match r with
  | inl e => (Err (stream_refusal id e), st, w)
  | inr h =>
      let st := set_pending ({[command_id]} ∪ pending_multi st) st in
      let '(sent, w) := link_send (cmd_tx h) cmd w in
      if negb sent then
        let '(st, w) := handle_failure h st w in
        (Err (Internal (lit "Worker disconnected: " ++ id)),
         set_pending (pending_multi st ∖ {[command_id]}) st, w)
      else (Ok command_id, st, w)
  end.

(** The end of the forwarding task. *)
Definition stream_finished (command_id : str) (st : RegistryService) : RegistryService :=
  set_pending (pending_multi st ∖ {[command_id]}) st.

(** ** Pipelines *)

(** [send_error] is the text of the channel's error. *)
Definition run_pipeline (id file : str) (env : gmap str str) (timeout_ms : Z)
    (parameters : gmap str str) (send_error : str) (st : RegistryService) (w : W) :
    result DomainError str * W :=
  let '(run_id, w) := generate_id w in
  let cmd := mkCommand run_id [] (GRunPipeline file env timeout_ms run_id parameters) in
  match workers st !! id with
  | None => (Err (Internal (lit "Worker not found for sandbox " ++ id)), w)
  | Some h =>
      let '(sent, w) := link_send (cmd_tx h) cmd w in
      if sent then (Ok run_id, w)
      else (Err (Internal (lit "Failed to send pipeline command: " ++ send_error)), w)
  end.

Definition cancel_pipeline (id run_id reason : str) (send_error : str) (st : RegistryService)
    (w : W) : result DomainError unit * W :=
  let '(command_id, w) := generate_id w in
  let cmd := mkCommand command_id [] (GCancelPipeline run_id reason) in
  match workers st !! id with
  | None => (Err (Internal (lit "Worker not found for sandbox " ++ id)), w)
  | Some h =>
      let '(sent, w) := link_send (cmd_tx h) cmd w in
      if sent then (Ok tt, w)
      else (Err (Internal (lit "Failed to send cancel command: " ++ send_error)), w)
  end.

(** ** Watchdog and connections *)

(** One tick: the workers whose channel is closed are removed. *)
Definition watchdog_tick (st : RegistryService) (w : W) : RegistryService :=
  let dead := map fst (List.filter (fun kv => link_is_closed (cmd_tx (snd kv)) w)
                         (map_to_list (workers st))) in
  fold_left (fun st id => unregister_worker id st) dead st.

(** [command_stream] up to the spawned tasks: the first item of the incoming
    stream, the fresh channel and the fresh cell of the breaker. *)
Inductive StreamError := EmptyStream | StreamFailed (e : str) | ExpectedReady.

Definition command_stream (first : option (result str WorkerMessage)) (tx cell : nat) (now : Z)
    (st : RegistryService) : result StreamError str * RegistryService :=
  match first with
  | None => (Err EmptyStream, st)
  | Some (Err e) => (Err (StreamFailed e), st)
  | Some (Ok m) =>
      match wm_payload m with
      | Some (PReady token) =>
          let st := mkRegistry (workers st) (<[cell := Breaker_new]> (breakers st))
                      (pending_multi st) (rate_limiters st) in
          (Ok token, register_worker token (mkHandle tx token cell) now st)
      | _ => (Err ExpectedReady, st)
      end
  end.

(** ** Behaviour of a command *)

Lemma collect_until_terminal pre m post ending acc :
  Forall (fun m => is_terminal_message m = false) pre -> is_terminal_message m = true ->
  collect_loop (map Ok pre ++ Ok m :: post) ending acc = Some (Ok (acc ++ pre ++ [m])).
Proof.
  intros Hp Hm. revert acc. induction Hp as [|x pre Hx Hp IH]; intros acc; simpl.
  - by rewrite Hm.
  - rewrite Hx, IH. by rewrite <- app_assoc.
Qed.

Lemma check_rate_limit_spec id st w ok st' w' :
  check_rate_limit id st w = (ok, st', w') ->
  workers st' = workers st /\ breakers st' = breakers st /\ pending_multi st' = pending_multi st.
Proof.
  unfold check_rate_limit. destruct (rate_limiters st !! id) as [b|]; [|by intros [= <- <- <-]].
  destruct (instant_now w) as [now w1]. destruct (try_consume now b). by intros [= <- <- <-].
Qed.

Lemma acquire_spec id st w r st' w' :
  acquire id st w = (r, st', w') ->
  workers st' = workers st /\ breakers st' = breakers st /\ pending_multi st' = pending_multi st /\
  match r with
  | inr h => workers st !! id = Some h
  | inl NotConnected => workers st !! id = None
  | inl _ => workers st !! id ≠ None
  end.
Proof.
  unfold acquire. destruct (workers st !! id) as [h|] eqn:Eh; [|by intros [= <- <- <-]].
  destruct (instant_now w) as [now w1]. destruct (is_circuit_open _ _); [by intros [= <- <- <-]|].
  destruct (check_rate_limit id st w1) as [[ok st1] w2] eqn:Ea. apply check_rate_limit_spec in Ea as (A1 & A2 & A3).
  destruct ok; intros [= <- <- <-]; by rewrite ?A1.
Qed.

Lemma breaker_of_set h b st : breaker_of h (set_breaker (breaker h) b st) = b.
Proof. unfold breaker_of. simpl. by rewrite lookup_insert_eq. Qed.

Lemma handle_failure_spec h st w :
  exists now now' w', handle_failure h st w =
    (set_breaker (breaker h) (record_failure now now' (breaker_of h st)) st, w').
Proof.
  unfold handle_failure. destruct (instant_now w) as [now w1].
  destruct (instant_now w1) as [now' w2]. eauto.
Qed.

(** What a finished command has recorded on the worker's breaker. *)
Definition recorded (h : WorkerHandle) (st st' : RegistryService) (os : list outcome) : Prop :=
  breaker_of h st' = fold_left (fun b o => breaker_step o b) os (breaker_of h st).

Lemma recorded_from h st st1 st' os :
  breakers st1 = breakers st -> recorded h st1 st' os -> recorded h st st' os.
Proof. intros E. unfold recorded, breaker_of. by rewrite E. Qed.

(** A failure records itself and touches nothing else. *)
Lemma handle_failure_recorded h st w st' w' :
  handle_failure h st w = (st', w') ->
  workers st' = workers st /\ pending_multi st' = pending_multi st /\
  exists t t', recorded h st st' [Failure t t'].
Proof.
  destruct (handle_failure_spec h st w) as (t & t' & w1 & ->). intros [= <- <-].
  split; [done|]. split; [done|]. exists t, t'. unfold recorded. by rewrite breaker_of_set.
Qed.

(** Collecting fails only on an error item. *)
Lemma collect_loop_error items ending acc e :
  collect_loop items ending acc = Some (Err e) -> exists m, e = RCommandFailed m.
Proof.
  revert acc. induction items as [|[m|x] l IH]; intros acc; simpl.
  - by destruct ending.
  - destruct (is_terminal_message m); [done|apply IH].
  - intros [= <-]. eauto.
Qed.

(** C7. Every command ends with one outcome on its worker's circuit breaker and
    leaves no response channel behind: a command that is refused (no worker, open
    circuit, rate limit) records nothing, one that returns messages records a
    success, and a failed send, an error item or an elapsed timeout records one
    failure and is reported as [WorkerDisconnected], [CommandFailed] or
    [CommandTimeout].  The set of pending commands never grows. *)
Theorem command_outcome (id : str) (cmd : GatewayCommand) (timeout_ms : Z)
    (st : RegistryService) (w : W) :
  let '(r, st', w') := collect_responses id cmd timeout_ms st w in
  pending_multi st' ⊆ pending_multi st /\ workers st' = workers st /\
  match fst (fst (acquire id st w)) with
  | inl refused => r = Err (collect_refusal id refused) /\ breakers st' = breakers st
  | inr h =>
      workers st !! id = Some h /\ gc_command_id cmd ∉ pending_multi st' /\
      match r with
      | Ok _ => recorded h st st' [Success]
      | Err e =>
          (exists t t', recorded h st st' [Failure t t']) /\
          (e = WorkerDisconnected id \/ e = CommandTimeout (gc_command_id cmd) \/
           exists m, e = RCommandFailed m)
      end
  end.
Proof.
  unfold collect_responses. destruct (acquire id st w) as [[r st1] w1] eqn:Ea.
  apply acquire_spec in Ea as (A1 & A2 & A3 & A4). cbn [fst]. destruct r as [ref|h].
  { rewrite A1, A3. split; [set_solver|]. by split. }
  rewrite <- A1, <- A3 in *.
  destruct (link_send (cmd_tx h) cmd w1) as [[] w2]; cbn [negb].
  2:{ set (st2 := set_pending _ _). destruct (handle_failure h st2 w2) as [st3 w3] eqn:Ef.
      apply handle_failure_recorded in Ef as (E1 & E2 & t & t' & Hr). simpl. rewrite E1, E2. simpl.
      split; [set_solver|]. split; [done|]. split; [done|]. split; [set_solver|].
      split; [|by left]. exists t, t'. by apply (recorded_from h st st2). }
  destruct (link_replies (gc_command_id cmd) timeout_ms w2) as [[items ending] w3].
  set (st2 := set_pending _ _).
  assert (Hp : pending_multi st2 ⊆ pending_multi st1 /\ gc_command_id cmd ∉ pending_multi st2)
    by (simpl; set_solver).
  assert (B : breakers st2 = breakers st /\ workers st2 = workers st1) by done.
  destruct Hp as [P1 P2], B as [B1 B2]. clearbody st2.
  destruct (collect_loop items ending []) as [[msgs|e]|] eqn:El.
  - unfold handle_success. simpl. rewrite B2. repeat (split; [done|]).
    apply (recorded_from h st st2); [done|]. unfold recorded. by rewrite breaker_of_set.
  - apply collect_loop_error in El. destruct (handle_failure h st2 w3) as [st3 w4] eqn:Ef.
    apply handle_failure_recorded in Ef as (E1 & E2 & t & t' & Hr). simpl. rewrite E1, E2, B2.
    repeat (split; [done|]). split; [|auto]. exists t, t'. by apply (recorded_from h st st2).
  - destruct (handle_failure h st2 w3) as [st3 w4] eqn:Ef.
    apply handle_failure_recorded in Ef as (E1 & E2 & t & t' & Hr). simpl. rewrite E1, E2, B2.
    repeat (split; [done|]). split; [|auto]. exists t, t'. by apply (recorded_from h st st2).
Qed.

Definition stdout_of (m : WorkerMessage) : bytes :=
  match wm_payload m with Some (PStdout d) => d | _ => [] end.
Definition stderr_of (m : WorkerMessage) : bytes :=
  match wm_payload m with Some (PStderr d) => d | _ => [] end.

Lemma aggregate_run_app pre l r :
  Forall (fun m => is_terminal_message m = false) pre ->
  aggregate_run (pre ++ l) r =
    aggregate_run l (mkCommandResult (cr_exit_code r) (cr_stdout r ++ concat (map stdout_of pre))
      (cr_stderr r ++ concat (map stderr_of pre)) (cr_duration_ms r) (cr_timed_out r)).
Proof.
  intros Hp. revert r. induction Hp as [|m pre Hm Hp IH]; intros r.
  - simpl. rewrite !app_nil_r. by destruct r.
  - unfold is_terminal_message in Hm. cbn [app aggregate_run map concat].
    unfold stdout_of at 1, stderr_of at 1.
    destruct (wm_payload m) as [[]|]; try done; rewrite IH; simpl; by rewrite <- ?app_assoc.
Qed.

(** A command that gets through returns what the worker sent up to its exit
    message: the standard output and the standard error are the chunks of each
    in order, exit code, duration and timeout flag are those of the exit
    message, anything after it is ignored, and the breaker is reset.  If the
    worker reports an error instead, the command fails with that error. *)
Theorem run_command_result (id command : str) (args : list str) (dir : str) (env : gmap str str)
    (timeout_ms : Z) (st st1 : RegistryService) (w w1 w2 w3 w4 : W) (cid : str) (h : WorkerHandle)
    (pre : list WorkerMessage) (m : WorkerMessage) (post : list (result str WorkerMessage))
    (ending : Ending) :
  generate_id w = (cid, w1) ->
  acquire id st w1 = (inr h, st1, w2) ->
  link_send (cmd_tx h) (mkCommand cid [] (GRun command args dir env (as_i64 timeout_ms))) w2 = (true, w3) ->
  link_replies cid timeout_ms w3 = (map Ok pre ++ Ok m :: post, ending, w4) ->
  Forall (fun m => is_terminal_message m = false) pre ->
  let '(r, st', w') := route_run_command id command args dir env timeout_ms st w in
  match wm_payload m with
  | Some (PExit c d t) =>
      r = Ok (mkCommandResult c (concat (map stdout_of pre)) (concat (map stderr_of pre)) (as_u64 d) t) /\
      breaker_of h st' = Breaker_new
  | Some (PError e) => r = Err (Internal e) /\ breaker_of h st' = Breaker_new
  | _ => True
  end.
Proof.
  intros Hid Hacq Hsend Hrep Hpre. unfold route_run_command, routed. rewrite Hid.
  unfold collect_responses. cbn [gc_command_id]. rewrite Hacq. rewrite Hsend. cbn [negb].
  rewrite Hrep. destruct (is_terminal_message m) eqn:Hm.
  - rewrite collect_until_terminal by done. simpl app.
    unfold is_terminal_message in Hm. destruct (wm_payload m) as [[]|] eqn:Em; try done;
      cbv beta iota zeta; rewrite aggregate_run_app by done; simpl; rewrite Em;
      (split; [done|]); unfold handle_success; by rewrite breaker_of_set.
  - unfold is_terminal_message in Hm. destruct (collect_loop _ _ _) as [[msgs|e]|];
      repeat destruct (handle_failure _ _ _); by destruct (wm_payload m) as [[]|].
Qed.

(** The connection of a worker is not authenticated: whatever token the
    first message carries, the sender becomes the worker of the sandbox of that
    name, replacing the one connected before, with a closed circuit and a full
    rate limiter, and the next command for the sandbox is sent to its channel. *)
Theorem stream_registration_unchecked (cid token : str) (tx cell : nat) (now : Z)
    (st : RegistryService) (w w1 w2 : W) (t1 : Z) :
  instant_now w = (t1, w1) -> instant_now w1 = (now, w2) ->
  let '(r, st') := command_stream (Some (Ok (mkMessage cid (Some (PReady token))))) tx cell now st in
  r = Ok token /\
  fst (fst (acquire token st' w)) = inr (mkHandle tx token cell) /\
  (forall id, id ≠ token -> workers st' !! id = workers st !! id).
Proof.
  intros H1 H2. simpl. split; [done|]. split.
  - unfold acquire. simpl. rewrite lookup_insert_eq, H1.
    unfold breaker_of. simpl. rewrite lookup_insert_eq. simpl.
    unfold check_rate_limit. simpl. rewrite lookup_insert_eq, H2.
    change (worker_limiter now) with (limiter_at 20 now). by rewrite (consume_some 19 now) by lia.
  - intros id Hn. by rewrite lookup_insert_ne.
Qed.

Lemma remove_all_lookup (ids : list str) (st : RegistryService) id :
  workers (fold_left (fun st id => unregister_worker id st) ids st) !! id =
    if bool_decide (id ∈ ids) then None else workers st !! id.
Proof.
  revert st. induction ids as [|i ids IH]; intros st; [done|]. cbn [fold_left]. rewrite IH.
  destruct (decide (id = i)) as [->|Hn].
  - rewrite (bool_decide_true (i ∈ i :: ids)) by left. simpl. rewrite lookup_delete_eq.
    by destruct (bool_decide _).
  - simpl. rewrite lookup_delete_ne by done.
    destruct (decide (id ∈ ids)); [rewrite !bool_decide_true; [done|by right|done]|].
    rewrite !bool_decide_false; [done| |done]. rewrite elem_of_cons. tauto.
Qed.

(** A tick of the watchdog removes exactly the workers whose channel is
    closed and leaves the others, their breakers and all rate limiters alone. *)
Theorem watchdog_removes_closed (st : RegistryService) (w : W) (id : str) (h : WorkerHandle) :
  (workers (watchdog_tick st w) !! id = Some h <->
     workers st !! id = Some h /\ link_is_closed (cmd_tx h) w = false) /\
  breakers (watchdog_tick st w) = breakers st /\
  rate_limiters (watchdog_tick st w) = rate_limiters st.
Proof.
  unfold watchdog_tick. set (dead := map fst _). split.
  - rewrite remove_all_lookup.
    assert (Hd : id ∈ dead <-> exists h, workers st !! id = Some h /\ link_is_closed (cmd_tx h) w = true).
    { unfold dead. rewrite (list_elem_of_fmap fst). split.
      - intros ([k h'] & -> & Hin). apply list_elem_of_In, filter_In in Hin as [Hin Hc].
        apply list_elem_of_In, elem_of_map_to_list in Hin. eauto.
      - intros (h' & Hl & Hc). exists (id, h'). split; [done|]. apply list_elem_of_In, filter_In.
        split; [|done]. by apply list_elem_of_In, elem_of_map_to_list. }
    case_bool_decide as Hi.
    + split; [done|]. intros [Hl Hc]. apply Hd in Hi as (h' & Hl' & Hc'). congruence.
    + split; [|tauto]. intros Hl. split; [done|]. destruct (link_is_closed (cmd_tx h) w) eqn:E; [|done].
      exfalso. apply Hi, Hd. eauto.
  - clearbody dead. rename dead into l. revert st.
    induction l as [|i l IH]; intros st; [done|]. cbn [fold_left]. destruct (IH (unregister_worker i st)) as [-> ->]. done.
Qed.
End Routing.

(** ** Witnesses *)

(** A link on which every command is sent and answered with some output and an
    exit message, and whose clock stands still. *)
#[local] Instance w_env : Environment unit := {|
  instant_now := fun w => (0%Z, w); generate_id := fun w => (lit "c1", w)
|}.

#[local] Instance w_link : WorkerLink unit := {|
  link_send := fun _ _ w => (true, w);
  link_replies := fun cid _ w =>
    ([Ok (mkMessage cid (Some (PStdout [104]%N))); Ok (mkMessage cid (Some (PExit 0 7 false)));
      Ok (mkMessage cid (Some (PStdout [105]%N)))], TimedOut, w);
  link_is_closed := fun tx _ => (tx =? 1)%nat
|}.

Definition w_registry : RegistryService :=
  snd (command_stream (Some (Ok (mkMessage [] (Some (PReady (lit "s1")))))) 0 0 0 registry_new).

Lemma run_command_result_witness :
  fst (fst (route_run_command (lit "s1") (lit "ls") [] (lit "/") ∅ 1000 w_registry tt)) =
    Ok (mkCommandResult 0 [104]%N [] 7 false).
Proof.
  pose proof (run_command_result (lit "s1") (lit "ls") [] (lit "/") ∅ 1000 w_registry
    (snd (fst (acquire (lit "s1") w_registry tt))) tt tt tt tt tt (lit "c1") (mkHandle 0 (lit "s1") 0)
    [mkMessage (lit "c1") (Some (PStdout [104]%N))] (mkMessage (lit "c1") (Some (PExit 0 7 false)))
    [Ok (mkMessage (lit "c1") (Some (PStdout [105]%N)))] TimedOut) as H.
  destruct (route_run_command (lit "s1") (lit "ls") [] (lit "/") ∅ 1000 w_registry tt) as [[r st'] w'].
  apply H; [reflexivity..|]. repeat constructor.
Defined.

Lemma stream_registration_witness :
  fst (fst (acquire (lit "victim") (snd (command_stream
    (Some (Ok (mkMessage [] (Some (PReady (lit "victim")))))) 5 9 0 w_registry)) tt)) =
  inr (mkHandle 5 (lit "victim") 9).
Proof.
  apply (stream_registration_unchecked [] (lit "victim") 5 9 0 w_registry tt tt tt 0); reflexivity.
Defined.
