(* ===== verification/CommandExtractor.v ===== *)
(** * The command extractor

    Models [enrichment-engine/src/extractors/command_extractor.rs]: the
    tokenizer of command lines, the classifier of the tokens into facts, and
    [CommandExtractor::extract_command]; with the policy of
    [models/enricher.rs].  The tokenizer's loops consume characters; the outer
    one and the loop of an unquoted token run on fuel, for which the number of
    characters is enough. *)

From S2P Require Import Prelude RuleEval.

(** ** Diagnostics and policy *)

Inductive Diagnostic :=
| UnsafeToken (ch : str)
| CommandTooLong (tokens length : Z)
| EmptyCommand
| UnclosedQuote (prefix : str).

Definition diag_key (d : Diagnostic) : str :=
  match d with
  | UnsafeToken _ => lit "unsafe_token"
  | CommandTooLong _ _ => lit "command_too_long"
  | EmptyCommand => lit "empty_command"
  | UnclosedQuote _ => lit "unclosed_quote"
  end.

Definition diag_value (d : Diagnostic) : str :=
  match d with
  | UnsafeToken ch => ch
  | CommandTooLong tokens length => lit "t:" ++ show_Z tokens ++ lit " l:" ++ show_Z length
  | EmptyCommand => []
  | UnclosedQuote prefix => prefix
  end.

Record CommandExtractorPolicy := mkPolicy {
  strict : bool; allow_flags : bool; allow_options : bool; allow_targets : bool;
  max_tokens : Z; max_input_len : Z; goal_map : option (gmap str str)
}.

Definition policy_default : CommandExtractorPolicy := mkPolicy true true true true 64 4096 None.

(** ** Tokenizer *)

Definition squote_c : char := 39%N.
Definition dquote_c : char := 34%N.
Definition backslash_c : char := 92%N.

Definition is_unsafe (c : char) : bool :=
  existsb (N.eqb c) [chr "`"; chr "$"; chr "|"; chr "&"; chr ";"; chr ">"; chr "<"; chr "*";
                     chr "?"; chr "["; chr "{"; 0%N].

(** Up to the closing single quote: the literal and what follows it, or the
    literal read so far when the quote is not closed. *)
Fixpoint single_quoted (s token : str) : (str * str) + str :=
  match s with
  | [] => inr token
  | c :: s' => if (c =? squote_c)%N then inl (token, s') else single_quoted s' (token ++ [c])
  end.

(** The characters an escape inside double quotes stands for. *)
Definition escape (c : char) : str :=
  if (c =? dquote_c)%N then [dquote_c]
  else if (c =? backslash_c)%N then [backslash_c]
  else if (c =? chr "n")%N then [10%N]
  else if (c =? chr "t")%N then [9%N]
  else [backslash_c; c].

Fixpoint double_quoted (s token : str) : (str * str) + str :=
  match s with
  | [] => inr token
  | c :: s' =>
      if (c =? dquote_c)%N then inl (token, s')
      else if (c =? backslash_c)%N then
        match s' with
        | [] => inr token
        | c2 :: s'' => double_quoted s'' (token ++ escape c2)
        end
      else double_quoted s' (token ++ [c])
  end.

(** The rest of an unquoted token. *)
Fixpoint unquoted (fuel : nat) (s token : str) : option (result Diagnostic (str * str)) :=
  match s with
  | [] => Some (Ok (token, []))
  | c2 :: s' =>
      if is_whitespace c2 then Some (Ok (token, s))
      else if is_unsafe c2 then Some (Err (UnsafeToken [c2]))
      else
        match fuel with
        | O => None
        | S f =>
            if (c2 =? squote_c)%N then
              match single_quoted s' [] with
              | inl (sq, rest) => unquoted f rest (token ++ sq)
              | inr sq => Some (Err (UnclosedQuote (squote_c :: sq)))
              end
            else if (c2 =? dquote_c)%N then
              match double_quoted s' token with
              | inl (t, rest) => unquoted f rest t
              | inr t => Some (Err (UnclosedQuote (dquote_c :: t)))
              end
            else if (c2 =? backslash_c)%N then
              match s' with
              | c3 :: rest => unquoted f rest (token ++ [c3])
              | [] => unquoted f [] (token ++ [backslash_c])
              end
            else unquoted f s' (token ++ [c2])
        end
  end.

(** One token that starts with [c]. *)
Definition read_token (fuel : nat) (c : char) (s : str) : option (result Diagnostic (str * str)) :=
  if (c =? squote_c)%N then
    match single_quoted s [] with
    | inl (t, rest) => Some (Ok (t, rest))
    | inr t => Some (Err (UnclosedQuote (squote_c :: t)))
    end
  else if (c =? dquote_c)%N then
    match double_quoted s [] with
    | inl (t, rest) => Some (Ok (t, rest))
    | inr t => Some (Err (UnclosedQuote (dquote_c :: t)))
    end
  else if (c =? backslash_c)%N then
    match s with
    | c2 :: rest => Some (Ok ([c2], rest))
    | [] => Some (Ok ([backslash_c], []))
    end
  else unquoted fuel s [c].

(** The error of an unsafe character at the start of a token: the three cases
    after a dollar sign report the same character. *)
Definition unsafe_start (c : char) (s : str) : Diagnostic :=
  if (c =? chr "$")%N then
    match s with
    | n :: _ =>
        if (n =? chr "(")%N || (n =? chr "{")%N then UnsafeToken (lit "$")
        else if is_ascii_alphanumeric n || (n =? chr "_")%N then UnsafeToken (lit "$")
        else UnsafeToken [c]
    | [] => UnsafeToken [c]
    end
  else UnsafeToken [c].

(** [len] is the length of the command in bytes, as a [u32]. *)
Fixpoint token_loop (fuel : nat) (max_tokens len : Z) (s : str) (tokens : list str) (count : Z) :
    option (result Diagnostic (list str)) :=
  match s with
  | [] => Some (Ok tokens)
  | c :: s' =>
      match fuel with
      | O => None
      | S f =>
          if is_unsafe c then Some (Err (unsafe_start c s'))
          else if is_whitespace c then token_loop f max_tokens len s' tokens count
          else
            let count := (count + 1)%Z in
            if (max_tokens <? count)%Z then Some (Err (CommandTooLong count len))
            else
              match read_token f c s' with
              | None => None
              | Some (Err d) => Some (Err d)
              | Some (Ok (token, rest)) =>
                  token_loop f max_tokens len rest (tokens ++ [token]) count
              end
      end
  end.

Definition tokenize_fuel (fuel : nat) (command : str) (max_tokens max_input_len : Z) :
    option (result Diagnostic (list str)) :=
  match command with
  | [] => Some (Err EmptyCommand)
  | _ =>
      let len := as_u32 (Z.of_N (str_len command)) in
      if (max_input_len <? len)%Z then Some (Err (CommandTooLong 0 len))
      else token_loop fuel max_tokens len command [] 0
  end.

Definition tokenize (command : str) (max_tokens max_input_len : Z) :
    option (result Diagnostic (list str)) :=
  tokenize_fuel (length command) command max_tokens max_input_len.

(** ** Classifier *)

Definition classify_tool (executable : str) : str :=
  if str_eqb executable (lit "mvn") then lit "maven"
  else if str_eqb executable (lit "gradle") || str_eqb executable (lit "gradlew") then lit "gradle"
  else if str_eqb executable (lit "npm") || str_eqb executable (lit "npx")
          || str_eqb executable (lit "yarn") then lit "node"
  else if str_eqb executable (lit "cargo") then lit "cargo"
  else lit "unknown".

Definition default_intent (goal : str) : str :=
  if str_eqb goal (lit "compile") then lit "build"
  else if str_eqb goal (lit "build") then lit "build"
  else if str_eqb goal (lit "test") then lit "test"
  else if str_eqb goal (lit "clean") then lit "clean"
  else if str_eqb goal (lit "install") then lit "install"
  else if str_eqb goal (lit "publish") || str_eqb goal (lit "deploy") then lit "deploy"
  else lit "run".

Definition infer_intent (goal : str) (goal_map : option (gmap str str)) : str :=
  match goal_map with
  | Some map =>
      match map !! goal with
      | Some intent => intent
      | None => default_intent goal
      end
  | None => default_intent goal
  end.

(** A fact of the classifier: full confidence. *)
Definition cfact (key value : str) (tags : list str) (source : str) : Fact :=
  mkFact key value tags source f32_one.

Definition flag_fact (flag_rest source : str) : Fact :=
  match split_once (chr "=") flag_rest with
  | Some (name, value) => cfact (lit "command_flag") (name ++ lit "=" ++ value) [] source
  | None => cfact (lit "command_flag") flag_rest [] source
  end.

Definition d_option_fact (token d_arg source : str) : Fact :=
  match split_once (chr "=") d_arg with
  | Some (key, value) =>
      cfact (lit "command_option") token [lit "key:" ++ key; lit "value:" ++ value] source
  | None => cfact (lit "command_option") token [lit "key:" ++ d_arg] source
  end.

(** One iteration over the tokens from the third on: the fact, the target, and
    whether the next token is skipped. *)
Definition classify_token (policy : CommandExtractorPolicy) (source token : str)
    (next : option str) : option Fact * option str * bool :=
  match strip_prefix (lit "--") token with
  | Some flag_rest =>
      (if allow_flags policy then Some (flag_fact flag_rest source) else None, None, false)
  | None =>
  match strip_prefix (lit "-x") token with
  | Some task =>
      if allow_options policy then
        match task with
        | _ :: _ =>
            (Some (cfact (lit "command_option") token [lit "exclude"; lit "exclude:" ++ task] source),
             None, false)
        | [] =>
            match next with
            | Some n =>
                if negb (starts_with (lit "-") n) then
                  (Some (cfact (lit "command_option") (lit "-x=" ++ n)
                           [lit "exclude"; lit "exclude:" ++ n] source), None, true)
                else (None, None, false)
            | None => (None, None, false)
            end
        end
      else (None, None, false)
  | None =>
  match strip_prefix (lit "-D") token with
  | Some d_arg =>
      (if allow_options policy then Some (d_option_fact token d_arg source) else None, None, false)
  | None =>
  match strip_prefix (lit "-P") token with
  | Some profile =>
      (if allow_options policy && negb (str_eqb profile []) then
         Some (cfact (lit "command_option") token [lit "profile"; lit "profile:" ++ profile] source)
       else None, None, false)
  | None =>
      if (str_len token =? 2)%N && starts_with (lit "-") token then
        (if allow_flags policy then Some (cfact (lit "command_flag") (drop 1 token) [] source)
         else None, None, false)
      else (None, Some token, false)
  end end end end.

Definition opt_list {A} (o : option A) : list A := match o with Some a => [a] | None => [] end.

(** The loop over the remaining tokens; [skip] is the [i += 1] of the [-x]
    option. *)
Fixpoint classify_rest (policy : CommandExtractorPolicy) (source : str) (tokens : list str)
    (skip : bool) : list Fact * list str :=
  match tokens with
  | [] => ([], [])
  | t :: ts =>
      if skip then classify_rest policy source ts false
      else
        let '(f, tgt, skip') := classify_token policy source t (head ts) in
        let '(facts, targets) := classify_rest policy source ts skip' in
        (opt_list f ++ facts, opt_list tgt ++ targets)
  end.

Definition is_flag_like (token : str) : bool :=
  starts_with (lit "-D") token || starts_with (lit "-P") token || starts_with (lit "-x") token.

Definition goal_facts (policy : CommandExtractorPolicy) (source token1 : str) : list Fact :=
  if is_flag_like token1 then []
  else
    [cfact (lit "command_goal") token1 [] source;
     cfact (lit "command_intent") (infer_intent token1 (goal_map policy)) [lit "intent"] source].

Definition classify (tokens : list str) (policy : CommandExtractorPolicy) (source : str) :
    list Fact :=
  match tokens with
  | [] => []
  | executable :: l =>
      let '(facts, targets) := classify_rest policy source (drop 1 l) false in
      [cfact (lit "command_executable") executable [] source;
       cfact (lit "command_tool") (classify_tool executable) [lit "tool"] source]
      ++ match l with token1 :: _ => goal_facts policy source token1 | [] => [] end
      ++ facts
      ++ (if allow_targets policy
          then map (fun t => cfact (lit "command_target") t [] source) targets else [])
  end.

(** ** Extractor *)

Definition diagnostic_fact (key value source : str) : Fact :=
  mkFact key value [lit "diagnostic"] source f_zero.

Definition extract_command (name : str) (policy : CommandExtractorPolicy) (command : str) :
    option (list Fact) :=
  match tokenize command (max_tokens policy) (max_input_len policy) with
  | None => None
  | Some (Err d) => Some [diagnostic_fact (diag_key d) (diag_value d) name]
  | Some (Ok []) => Some [diagnostic_fact (lit "empty_command") [] name]
  | Some (Ok tokens) => Some (classify tokens policy name)
  end.

Example tokenize_ex :
  tokenize (lit "mvn -q 'a b' c\ d") 64 4096 =
  Some (Ok [lit "mvn"; lit "-q"; lit "a b"; lit "c d"]).
Proof. reflexivity. Qed.

(** ** Termination and bounds *)

Lemma single_quoted_rest s token t rest :
  single_quoted s token = inl (t, rest) -> length rest < length s.
Proof.
  revert token. induction s as [|c s IH]; intros token; simpl; [done|].
  destruct (c =? squote_c)%N; [intros [= _ <-]; lia|]. intros H%IH. lia.
Qed.

Lemma double_quoted_rest n s token t rest :
  length s <= n -> double_quoted s token = inl (t, rest) -> length rest < length s.
Proof.
  revert s token. induction n as [|n IH]; intros s token Hn; (destruct s as [|c s]; [done|]);
    simpl in Hn; [lia|]. cbn [double_quoted].
  destruct (c =? dquote_c)%N; [intros [= _ <-]; simpl; lia|].
  destruct (c =? backslash_c)%N.
  - destruct s as [|c2 s]; [done|]. intros H%IH; simpl in *; lia.
  - intros H%IH; simpl in *; lia.
Qed.

Lemma unquoted_total fuel s token :
  length s <= fuel ->
  exists r, unquoted fuel s token = Some r /\
    match r with Ok (_, rest) => length rest <= length s | Err _ => True end.
Proof.
  revert s token. induction fuel as [|f IH]; intros s token Hf; destruct s as [|c s];
    try (by eexists; split; [reflexivity|]; simpl; lia); simpl in Hf; [lia|].
  cbn [unquoted]. destruct (is_whitespace c); [eexists; split; [done|]; simpl; lia|].
  destruct (is_unsafe c); [by eexists|].
  assert (Hgo : forall rest tok, length rest <= length s ->
    exists r, unquoted f rest tok = Some r /\
      match r with Ok (_, rest') => length rest' <= length (c :: s) | Err _ => True end).
  { intros rest tok Hr. destruct (IH rest tok ltac:(lia)) as (r & E & Hl). exists r.
    split; [done|]. destruct r as [[? ?]|]; simpl in *; [lia|done]. }
  destruct (c =? squote_c)%N.
  { destruct (single_quoted s []) as [[sq rest]|sq] eqn:E; [|by eexists].
    apply single_quoted_rest in E. apply Hgo. lia. }
  destruct (c =? dquote_c)%N.
  { destruct (double_quoted s token) as [[t rest]|t] eqn:E; [|by eexists].
    eapply double_quoted_rest in E; [|reflexivity]. apply Hgo. lia. }
  destruct (c =? backslash_c)%N; [|by apply Hgo].
  destruct s as [|c3 s]; apply Hgo; simpl; lia.
Qed.

Lemma read_token_total fuel c s :
  length s <= fuel ->
  exists r, read_token fuel c s = Some r /\
    match r with Ok (_, rest) => length rest <= length s | Err _ => True end.
Proof.
  intros Hf. unfold read_token. destruct (c =? squote_c)%N.
  { destruct (single_quoted s []) as [[t rest]|t] eqn:E; [|by eexists].
    apply single_quoted_rest in E. eexists. split; [done|]. cbv beta iota. lia. }
  destruct (c =? dquote_c)%N.
  { destruct (double_quoted s []) as [[t rest]|t] eqn:E; [|by eexists].
    eapply double_quoted_rest in E; [|reflexivity]. eexists. split; [done|]. cbv beta iota. lia. }
  destruct (c =? backslash_c)%N; [|by apply unquoted_total].
  destruct s; eexists; (split; [done|]); simpl; lia.
Qed.

Lemma token_loop_total fuel mt len s tokens count :
  length s <= fuel -> Z.of_nat (length tokens) = count -> (count <= Z.max 0 mt)%Z ->
  exists r, token_loop fuel mt len s tokens count = Some r /\
    match r with Ok l => (Z.of_nat (length l) <= Z.max 0 mt)%Z | Err _ => True end.
Proof.
  revert s tokens count. induction fuel as [|f IH]; intros s tokens count Hf Hc Hm;
    (destruct s as [|c s]; [eexists; split; [reflexivity|]; cbv beta iota; lia|]); simpl in Hf; [lia|].
  cbn [token_loop]. destruct (is_unsafe c); [by eexists|].
  destruct (is_whitespace c); [apply IH; (done || lia)|].
  destruct (mt <? count + 1)%Z eqn:E; [by eexists|]. bools.
  destruct (read_token_total f c s ltac:(lia)) as (r & -> & Hr).
  destruct r as [[token rest]|d]; [|by eexists]. apply IH; [lia| |lia].
  rewrite length_app. simpl. lia.
Qed.

(** The tokenizer ends on every command, within as many steps as the command
    has characters; what it accepts is not longer than [max_input_len] bytes and
    has at most [max_tokens] tokens. *)
Lemma tokenize_total (command : str) (mt ml : Z) :
  exists r, tokenize command mt ml = Some r /\
    match r with
    | Ok tokens => (Z.of_nat (length tokens) <= Z.max 0 mt)%Z /\
                   (as_u32 (Z.of_N (str_len command)) <= ml)%Z /\ command ≠ []
    | Err _ => True
    end.
Proof.
  unfold tokenize, tokenize_fuel. destruct command as [|c s]; [by eexists|].
  destruct (_ <? _)%Z eqn:E; [by eexists|]. bools.
  destruct (token_loop_total (length (c :: s)) mt (as_u32 (Z.of_N (str_len (c :: s)))) (c :: s) [] 0)
    as (r & -> & Hr); [done|done|lia|]. exists r. split; [done|]. destruct r; done.
Qed.

(** ** Plain commands *)

(** The words of a string: the longest runs without white space. *)
Definition emit_word (w : str) : list str := match w with [] => [] | _ => [w] end.

Fixpoint words (s cur : str) : list str :=
  match s with
  | [] => emit_word cur
  | c :: s' => if is_whitespace c then emit_word cur ++ words s' [] else words s' (cur ++ [c])
  end.

Definition plain (c : char) : Prop := c ≠ squote_c /\ c ≠ dquote_c /\ c ≠ backslash_c.

Lemma words_span s cur :
  words s cur = emit_word (cur ++ fst (span (fun c => negb (is_whitespace c)) s)) ++
                words (snd (span (fun c => negb (is_whitespace c)) s)) [].
Proof.
  revert cur. induction s as [|c s IH]; intros cur; simpl; [by rewrite !app_nil_r|].
  destruct (is_whitespace c) eqn:E; simpl.
  - by rewrite E, app_nil_r.
  - rewrite IH. destruct (span _ s) as [w r]. simpl. by rewrite <- app_assoc.
Qed.

Lemma plain_eqb c :
  plain c -> (c =? squote_c)%N = false /\ (c =? dquote_c)%N = false /\ (c =? backslash_c)%N = false.
Proof. intros (H1 & H2 & H3). by rewrite !N.eqb_neq. Qed.

Lemma unquoted_plain fuel s token :
  length s <= fuel -> Forall plain s ->
  let '(w, rest) := span (fun c => negb (is_whitespace c)) s in
  unquoted fuel s token =
    Some (match find is_unsafe w with Some c => Err (UnsafeToken [c]) | None => Ok (token ++ w, rest) end).
Proof.
  revert s token. induction fuel as [|f IH]; intros s token Hf Hp;
    (destruct s as [|c s]; [simpl; by rewrite app_nil_r|]); simpl in Hf; [lia|].
  apply Forall_cons in Hp as [Hc Hp]. cbn [span unquoted].
  destruct (is_whitespace c) eqn:Ew; simpl; [by rewrite app_nil_r|].
  specialize (IH s (token ++ [c]) ltac:(lia) Hp).
  destruct (span _ s) as [w rest]. simpl. destruct (is_unsafe c); [done|].
  destruct (plain_eqb c Hc) as (-> & -> & ->). rewrite IH.
  destruct (find is_unsafe w); [done|]. by rewrite <- app_assoc.
Qed.

Lemma unsafe_start_eq c s : unsafe_start c s = UnsafeToken [c].
Proof.
  unfold unsafe_start. destruct (c =? chr "$")%N eqn:E; [|done]. bools. subst.
  destruct s; [done|]. by repeat case_match.
Qed.

Lemma find_app_span f (g : N -> bool) s :
  find f s = match find f (fst (span g s)) with
             | Some c => Some c
             | None => find f (snd (span g s))
             end.
Proof.
  rewrite <- (span_app g s) at 1. generalize (fst (span g s)) (snd (span g s)). intros a b.
  induction a as [|c a IH]; simpl; [done|]. by destruct (f c).
Qed.

Lemma token_loop_plain fuel mt len s tokens count :
  length s <= fuel -> Forall plain s -> (count + Z.of_nat (length (words s [])) <= mt)%Z ->
  token_loop fuel mt len s tokens count =
    Some (match find is_unsafe s with
          | Some c => Err (UnsafeToken [c])
          | None => Ok (tokens ++ words s [])
          end).
Proof.
  revert s tokens count. induction fuel as [|f IH]; intros s tokens count Hf Hp Hm;
    (destruct s as [|c s]; [simpl; by rewrite app_nil_r|]); simpl in Hf; [lia|].
  apply Forall_cons in Hp as [Hc Hp]. cbn [token_loop find words] in *.
  destruct (is_unsafe c) eqn:Eu; [by rewrite unsafe_start_eq|].
  destruct (is_whitespace c) eqn:Ew; [apply IH; (done || lia)|].
  rewrite words_span in *. simpl app in *.
  pose proof (find_app_span is_unsafe (fun c => negb (is_whitespace c)) s) as Hfind.
  pose proof (unquoted_plain f s [c] ltac:(lia) Hp) as Hu.
  assert (Hr : Forall plain (snd (span (fun c => negb (is_whitespace c)) s)) /\
    length (snd (span (fun c => negb (is_whitespace c)) s)) <= length s).
  { split; [|apply span_le]. pose proof Hp as Hp'.
    rewrite <- (span_app (fun c => negb (is_whitespace c)) s) in Hp'. by apply Forall_app in Hp' as [_ ?]. }
  unfold read_token. destruct (plain_eqb c Hc) as (-> & -> & ->).
  destruct (span _ s) as [w rest]. simpl in *. destruct Hr as [Hr Hl].
  rewrite (proj2 (Z.ltb_ge _ _)) by lia.
  rewrite Hu, Hfind. destruct (find is_unsafe w); [done|].
  rewrite IH; [|lia|done|lia]. by rewrite <- app_assoc.
Qed.

(** On a command without quotes and backslashes the tokenizer is the
    splitting into words, or the refusal of the first unsafe character,
    provided the words are within the limits. *)
Theorem tokenize_plain (command : str) (mt ml : Z) :
  Forall plain command -> command ≠ [] ->
  (as_u32 (Z.of_N (str_len command)) <= ml)%Z ->
  (Z.of_nat (length (words command [])) <= mt)%Z ->
  tokenize command mt ml =
    Some (match find is_unsafe command with
          | Some c => Err (UnsafeToken [c])
          | None => Ok (words command [])
          end).
Proof.
  intros Hp Hn Hl Hm. unfold tokenize, tokenize_fuel. destruct command as [|c s]; [done|].
  rewrite (proj2 (Z.ltb_ge _ _)) by done. by apply token_loop_plain.
Qed.

(** ** Quoting *)

Definition quote (t : str) : str := squote_c :: t ++ [squote_c].
Definition quote_command (ts : list str) : str := join [32%N] (map quote ts).

Lemma single_quoted_close t token rest :
  squote_c ∉ t -> single_quoted (t ++ squote_c :: rest) token = inl (token ++ t, rest).
Proof.
  revert token. induction t as [|c t IH]; intros token Ht; [by rewrite app_nil_r|].
  apply not_elem_of_cons in Ht as [Hc Ht]. simpl.
  rewrite (proj2 (N.eqb_neq c squote_c)) by congruence. rewrite IH by done. by rewrite <- app_assoc.
Qed.

Lemma quote_command_cons t ts :
  quote_command (t :: ts) =
    squote_c :: t ++ squote_c :: match ts with [] => [] | _ => 32%N :: quote_command ts end.
Proof.
  unfold quote_command. cbn [map join]. destruct ts as [|t' ts]; [done|].
  cbn [map]. unfold quote at 1. simpl. by rewrite <- app_assoc.
Qed.

Lemma token_loop_quoted fuel mt len ts tokens count :
  length (quote_command ts) <= fuel -> Forall (fun t => squote_c ∉ t) ts ->
  (count + Z.of_nat (length ts) <= mt)%Z ->
  token_loop fuel mt len (quote_command ts) tokens count = Some (Ok (tokens ++ ts)).
Proof.
  intros Hf Ht. revert fuel tokens count Hf. induction Ht as [|t ts Ht Hts IH]; intros fuel tokens count Hf Hm.
  { destruct fuel; simpl; by rewrite app_nil_r. }
  rewrite quote_command_cons in Hf |- *. cbn [length] in Hf, Hm.
  destruct fuel as [|f]; [lia|]. cbn [token_loop].
  change (is_unsafe squote_c) with false. change (is_whitespace squote_c) with false. cbv iota.
  rewrite (proj2 (Z.ltb_ge _ _)) by lia. unfold read_token. rewrite N.eqb_refl.
  rewrite single_quoted_close by done. cbn [app]. rewrite length_app in Hf. cbn [length] in Hf.
  destruct ts as [|t' ts]; [by destruct f|].
  destruct f as [|f]; [lia|]. cbn [token_loop].
  change (is_unsafe 32) with false. change (is_whitespace 32) with true. cbv iota.
  rewrite IH; [|cbn [length] in Hf; lia|lia]. by rewrite <- app_assoc.
Qed.

(** Round trip: a list of arguments, each in single quotes and separated by
    a space, is tokenized back into exactly those arguments, whatever other
    characters they contain, unsafe ones and white space included. *)
Theorem quote_roundtrip (ts : list str) (mt ml : Z) :
  ts ≠ [] -> Forall (fun t => squote_c ∉ t) ts ->
  (Z.of_nat (length ts) <= mt)%Z ->
  (as_u32 (Z.of_N (str_len (quote_command ts))) <= ml)%Z ->
  tokenize (quote_command ts) mt ml = Some (Ok ts).
Proof.
  intros Hn Ht Hm Hl. unfold tokenize, tokenize_fuel.
  pose proof (token_loop_quoted (length (quote_command ts)) mt
    (as_u32 (Z.of_N (str_len (quote_command ts)))) ts [] 0 (le_n _) Ht Hm) as Hq.
  destruct ts as [|t ts]; [done|]. rewrite quote_command_cons in *.
  rewrite (proj2 (Z.ltb_ge _ _)) by done. exact Hq.
Qed.

(** ** Facts *)

Definition keys_of (policy : CommandExtractorPolicy) : list str :=
  [lit "command_executable"; lit "command_tool"; lit "command_goal"; lit "command_intent"]
  ++ (if allow_flags policy then [lit "command_flag"] else [])
  ++ (if allow_options policy then [lit "command_option"] else [])
  ++ (if allow_targets policy then [lit "command_target"] else []).

(** A fact the classifier may emit. *)
Definition classified (name : str) (policy : CommandExtractorPolicy) (f : Fact) : Prop :=
  source_extractor f = name /\ confidence f = f32_one /\ f_key f ∈ keys_of policy /\
  lit "diagnostic" ∉ f_tags f.

Lemma cfact_classified name policy k v tags :
  k ∈ keys_of policy -> lit "diagnostic" ∉ tags -> classified name policy (cfact k v tags name).
Proof. done. Qed.

(** Membership in [keys_of], under equations on the policy's switches. *)
Ltac in_keys :=
  unfold keys_of;
  repeat match goal with E : ?b = true |- context [if ?b then _ else _] => rewrite E end;
  rewrite ?elem_of_app, ?elem_of_cons; tauto.

(** The same for a fact's tags, of which none is the diagnostic one. *)
Ltac no_diagnostic :=
  repeat (apply not_elem_of_cons; split; [discriminate|]); apply not_elem_of_nil.

(** Facts that are classified one by one. *)
Ltac classified_facts :=
  repeat (apply Forall_nil_2 || apply Forall_cons_2); (apply cfact_classified; [in_keys|no_diagnostic]).

Lemma classify_token_ok policy name t next f tgt skip :
  classify_token policy name t next = (f, tgt, skip) ->
  Forall (classified name policy) (opt_list f) /\ length (opt_list f) + length (opt_list tgt) <= 1.
Proof.
  unfold classify_token, flag_fact, d_option_fact.
  destruct (allow_flags policy) eqn:E1, (allow_options policy) eqn:E2;
    cbn [andb]; repeat case_match; intros [= <- <- <-]; cbn [opt_list length]; (split; [|lia]);
    classified_facts.
Qed.

Lemma classify_rest_ok policy name ts skip facts targets :
  classify_rest policy name ts skip = (facts, targets) ->
  Forall (classified name policy) facts /\ length facts + length targets <= length ts.
Proof.
  revert skip facts targets. induction ts as [|t ts IH]; intros skip facts targets; cbn [classify_rest].
  { intros [= <- <-]. by split; [constructor|]. }
  destruct skip; [intros H%IH; simpl; split; [tauto|lia]|].
  destruct (classify_token policy name t (head ts)) as [[f tgt] skip'] eqn:Et.
  apply classify_token_ok in Et as [Hf Hl].
  destruct (classify_rest policy name ts skip') as [fs tgts] eqn:Er.
  apply IH in Er as [Hfs Hls]. intros [= <- <-]. rewrite !length_app. simpl.
  split; [by apply Forall_app|lia].
Qed.

(** Extraction always ends, and a command yields either one diagnostic
    fact, of confidence zero, or classified facts only: of full confidence and
    under the keys the policy allows, beginning with the executable and its
    tool, and at most two more than there are tokens. *)
Theorem extract_command_spec (name : str) (policy : CommandExtractorPolicy) (command : str) :
  exists facts, extract_command name policy command = Some facts /\
    ((exists key value, facts = [diagnostic_fact key value name]) \/
     (exists exe l facts', tokenize command (max_tokens policy) (max_input_len policy) = Some (Ok (exe :: l)) /\
        facts = cfact (lit "command_executable") exe [] name
                :: cfact (lit "command_tool") (classify_tool exe) [lit "tool"] name :: facts' /\
        Forall (classified name policy) facts /\ length facts <= length (exe :: l) + 2)).
Proof.
  destruct (tokenize_total command (max_tokens policy) (max_input_len policy)) as (r & Er & _).
  unfold extract_command. rewrite Er. destruct r as [[|exe l]|d].
  - eexists. split; [done|]. left. eauto.
  - eexists. split; [done|]. right. unfold classify.
    destruct (classify_rest policy name (drop 1 l) false) as [fs tgts] eqn:Ec.
    apply classify_rest_ok in Ec as [Hf Hl]. rewrite length_drop in Hl.
    eexists exe, l, _. split; [done|]. split; [done|].
    assert (Hg : Forall (classified name policy) (match l with t1 :: _ => goal_facts policy name t1 | [] => [] end) /\
      length (match l with t1 :: _ => goal_facts policy name t1 | [] => [] end) <= 2 * Nat.min 1 (length l)).
    { destruct l as [|t1 l]; [split; [constructor|simpl; lia]|]. unfold goal_facts.
      destruct (is_flag_like t1); simpl; (split; [|lia]); classified_facts. }
    split.
    + apply Forall_cons_2; [classified_facts|]. apply Forall_cons_2; [classified_facts|].
      apply Forall_app. split; [apply Hg|]. apply Forall_app. split; [done|].
      destruct (allow_targets policy) eqn:Ea; [|constructor]. apply Forall_forall.
      intros f (t & -> & _)%list_elem_of_fmap. apply cfact_classified; [in_keys|no_diagnostic].
    + cbn [length]. rewrite !length_app.
      assert (length (if allow_targets policy
        then map (fun t => cfact (lit "command_target") t [] name) tgts else []) <= length tgts)
        by (destruct (allow_targets policy); rewrite ?length_map; simpl; lia).
      cbn [length]. lia.
  - eexists. split; [done|]. left. eauto.
Qed.

(** A flag-like second token leaves no trace in the facts. *)
Lemma second_flag_lost policy name exe t t' ts :
  is_flag_like t = true -> is_flag_like t' = true ->
  classify (exe :: t :: ts) policy name = classify (exe :: t' :: ts) policy name.
Proof. intros Ht Ht'. unfold classify, goal_facts. simpl. by rewrite Ht, Ht'. Qed.

(** ** Witnesses *)

Lemma tokenize_plain_witness :
  tokenize (lit "ls | wc") 64 4096 = Some (Err (UnsafeToken (lit "|"))).
Proof.
  apply (tokenize_plain (lit "ls | wc") 64 4096); [|discriminate|vm_compute; discriminate|vm_compute; discriminate].
  repeat (constructor; [split; [discriminate|split; discriminate]|]). constructor.
Defined.

Lemma quote_roundtrip_witness :
  tokenize (quote_command [lit "echo"; lit "a | $b"]) 64 4096 = Some (Ok [lit "echo"; lit "a | $b"]).
Proof.
  apply (quote_roundtrip [lit "echo"; lit "a | $b"] 64 4096);
    [discriminate| |vm_compute; discriminate|vm_compute; discriminate].
  repeat constructor; apply existsb_not_elem; reflexivity.
Defined.
