(* ===== verification/Normalizer.v ===== *)
(** * The fact normalizer

    Models [enrichment-engine/src/normalizer.rs] with the extractor
    configuration of [models/enricher.rs].  The facts are grouped by key in a
    [HashMap]; the order in which its groups come out is left to the class
    [HashOrder], about which nothing but the documented law is known: every
    entry comes out once.  Confidences are IEEE single-precision values, so a
    comparison may have no answer. *)

From Stdlib Require Import SpecFloat.
From S2P Require Import Prelude RuleEval CommandExtractor.

(** ** Configuration *)

Record ExtractorConfig := mkExtractorConfig {
  ec_id : str; ec_type : str; ec_pattern : str; ec_fact_key : str; ec_priority : Z;
  ec_merge_mode : str; ec_policy : option CommandExtractorPolicy;
  ec_static_value : option (gmap str str); ec_output_key : option str; ec_shape : option str;
  ec_fact_type : option str; ec_confidence : option float; ec_source : option str;
  ec_single : bool
}.

(** [ExtractorConfig::default] with an id, a type, a pattern, a fact key and a
    merge mode. *)
Definition extractor_config (id typ pattern key mode : str) : ExtractorConfig :=
  mkExtractorConfig id typ pattern key 0 mode None None None None None None None false.

Record NormalizerConfig := mkNormalizerConfig { threshold : float }.

Definition normalizer_default : NormalizerConfig := mkNormalizerConfig f32_half.

(** The iteration order of a hash map. *)
Class HashOrder := {
  hash_iter : forall A, gmap str A -> list (str * A);
  hash_iter_perm : forall A (m : gmap str A), Permutation (hash_iter A m) (map_to_list m)
}.

Definition some_order : HashOrder :=
  {| hash_iter := fun A m => map_to_list m; hash_iter_perm := fun A m => Permutation_refl _ |}.

(** ** Normalization *)

Definition group_by_key (facts : list Fact) : gmap str (list Fact) := group_by f_key facts.

(** One step of [max_by]: of two that compare equal, and of two that do not
    compare, the later one is kept. *)
Definition max_step (a b : Fact) : Fact :=
  match default Eq (partial_cmp (confidence a) (confidence b)) with
  | Gt => a
  | _ => b
  end.

Definition best_of (facts : list Fact) : option Fact :=
  match facts with [] => None | f :: fs => Some (fold_left max_step fs f) end.

(** The merge mode of a group: that of the extractor of its first fact. *)
Definition merge_mode (config : gmap str ExtractorConfig) (facts : list Fact) : str :=
  match head facts with
  | Some f =>
      match config !! source_extractor f with
      | Some cfg => ec_merge_mode cfg
      | None => lit "single"
      end
  | None => lit "single"
  end.

Definition normalize_group (config : gmap str ExtractorConfig) (facts : list Fact) : list Fact :=
  if str_eqb (merge_mode config facts) (lit "multi") then facts else opt_list (best_of facts).

Definition above (cfg : NormalizerConfig) (f : Fact) : bool := f_ge (confidence f) (threshold cfg).

Definition normalize_with_config `{HashOrder} (cfg : NormalizerConfig) (facts : list Fact)
    (config : gmap str ExtractorConfig) : list Fact :=
  List.filter (above cfg)
    (flat_map (fun kf => normalize_group config (snd kf)) (hash_iter _ (group_by_key facts))).

Definition normalize `{HashOrder} (cfg : NormalizerConfig) (facts : list Fact) : list Fact :=
  normalize_with_config cfg facts ∅.

(** ** Confidences *)

Definition is_nan (x : float) : bool := match x with S754_nan => true | _ => false end.

Definition f_le (a b : float) : Prop := SFcompare a b = Some Lt \/ SFcompare a b = Some Eq.
Definition f_lt (a b : float) : Prop := SFcompare a b = Some Lt.

(** The position of a number in the order: its class, exponent and significand. *)
Definition rank (x : float) : Z * Z * Z :=
  match x with
  | S754_infinity true => (-2, 0, 0)
  | S754_finite true m e => (-1, - e, - Zpos m)
  | S754_zero _ | S754_nan => (0, 0, 0)
  | S754_finite false m e => (1, e, Zpos m)
  | S754_infinity false => (2, 0, 0)
  end%Z.

Definition rank_le (a b : Z * Z * Z) : Prop :=
  let '(c1, e1, m1) := a in let '(c2, e2, m2) := b in
  (c1 < c2 \/ (c1 = c2 /\ (e1 < e2 \/ (e1 = e2 /\ m1 <= m2))))%Z.

Lemma f_le_rank a b : is_nan a = false -> is_nan b = false -> f_le a b <-> rank_le (rank a) (rank b).
Proof.
  unfold f_le, rank_le. intros Ha Hb.
  destruct a as [[]|[]| |[] m1 e1], b as [[]|[]| |[] m2 e2]; try done; simpl;
    try (split; [intros [|]; (discriminate || lia) | intros; (by left) || (by right) || lia]).
  all: change (Pos.compare_cont Eq m1 m2) with (Pos.compare m1 m2);
    destruct (Z.compare_spec e1 e2), (Pos.compare_spec m1 m2);
    simpl; (split; [intros [|]; (discriminate || lia) | intros; (by left) || (by right) || lia]).
Qed.

Lemma f_lt_rank a b :
  is_nan a = false -> is_nan b = false -> f_lt a b <-> ~ rank_le (rank b) (rank a).
Proof.
  unfold f_lt, rank_le. intros Ha Hb.
  destruct a as [[]|[]| |[] m1 e1], b as [[]|[]| |[] m2 e2]; try done; simpl;
    try (split; [intros; (discriminate || lia) | intros; (reflexivity || lia)]).
  all: change (Pos.compare_cont Eq m1 m2) with (Pos.compare m1 m2);
    destruct (Z.compare_spec e1 e2), (Pos.compare_spec m1 m2);
    simpl; (split; [intros; (discriminate || lia) | intros; (reflexivity || lia)]).
Qed.

Lemma rank_le_trans a b c : rank_le a b -> rank_le b c -> rank_le a c.
Proof. destruct a as [[??]?], b as [[??]?], c as [[??]?]. unfold rank_le. lia. Qed.

Lemma rank_le_total a b : rank_le a b \/ rank_le b a.
Proof. destruct a as [[??]?], b as [[??]?]. unfold rank_le. lia. Qed.

Lemma partial_cmp_some a b : is_nan a = false -> is_nan b = false -> exists o, partial_cmp a b = Some o.
Proof. destruct a, b; try done; intros; eexists; reflexivity. Qed.

Lemma f_ge_le a b : f_ge a b = true -> f_le b a /\ is_nan a = false /\ is_nan b = false.
Proof.
  unfold f_ge. destruct a as [[]|[]| |[] m1 e1], b as [[]|[]| |[] m2 e2]; try done;
    (split; [|done]); apply f_le_rank; simpl in *; unfold rank_le; try lia; revert H; simpl;
    try (intros; lia);
    change (Pos.compare_cont Eq m1 m2) with (Pos.compare m1 m2);
    destruct (Z.compare_spec e1 e2), (Pos.compare_spec m1 m2); simpl; intros; (discriminate || lia).
Qed.

(** ** Groups *)

Definition with_key (k : str) (facts : list Fact) : list Fact :=
  List.filter (fun f => str_eqb (f_key f) k) facts.

Lemma with_key_app k l1 l2 : with_key k (l1 ++ l2) = with_key k l1 ++ with_key k l2.
Proof. apply List.filter_app. Qed.

Lemma elem_of_with_key k f facts : f ∈ with_key k facts <-> f ∈ facts /\ f_key f = k.
Proof. unfold with_key. by rewrite !list_elem_of_In, filter_In, str_eqb_eq. Qed.

Lemma group_by_key_lookup facts k :
  group_by_key facts !! k = match with_key k facts with [] => None | l => Some l end.
Proof. apply (lookup_group_by f_key). Qed.

Lemma group_with_key facts k l : group_by_key facts !! k = Some l -> l = with_key k facts /\ l ≠ [].
Proof. rewrite group_by_key_lookup. destruct (with_key k facts); [done|]. by intros [= <-]. Qed.

(** ** The fact kept in single mode *)

(** [f] is the last of the facts of maximal confidence. *)
Definition last_max (facts : list Fact) (f : Fact) : Prop :=
  exists l1 l2, facts = l1 ++ f :: l2 /\
    (forall g, g ∈ l1 -> f_le (confidence g) (confidence f)) /\
    (forall g, g ∈ l2 -> f_lt (confidence g) (confidence f)).

Definition numeric (facts : list Fact) : Prop := forall f, f ∈ facts -> is_nan (confidence f) = false.

Lemma best_of_snoc facts x :
  best_of (facts ++ [x]) = Some (match best_of facts with Some b => max_step b x | None => x end).
Proof. destruct facts as [|f fs]; [done|]. simpl. by rewrite fold_left_app. Qed.

Lemma max_step_in a b : max_step a b = a \/ max_step a b = b.
Proof. unfold max_step. destruct (default _ _); auto. Qed.

Lemma best_of_elem facts b : best_of facts = Some b -> b ∈ facts.
Proof.
  revert b. induction facts as [|x facts IH] using rev_ind; intros b; [done|].
  rewrite best_of_snoc. intros [= <-]. apply elem_of_app.
  destruct (best_of facts) as [c|]; [|right; apply list_elem_of_here].
  destruct (max_step_in c x) as [->| ->]; [left; auto|right; apply list_elem_of_here].
Qed.

Lemma best_of_none facts : best_of facts = None <-> facts = [].
Proof. by destruct facts. Qed.

Lemma max_step_cases a b :
  is_nan (confidence a) = false -> is_nan (confidence b) = false ->
  (max_step a b = b /\ f_le (confidence a) (confidence b)) \/
  (max_step a b = a /\ f_lt (confidence b) (confidence a)).
Proof.
  intros Ha Hb. unfold max_step. destruct (partial_cmp_some _ _ Ha Hb) as [o E]. rewrite E.
  unfold partial_cmp in E. destruct o; simpl.
  - left. split; [done|]. by right.
  - left. split; [done|]. by left.
  - right. split; [done|]. rewrite f_lt_rank, <- f_le_rank by done. unfold f_le. rewrite E.
    intros [|]; discriminate.
Qed.

Lemma last_max_snoc facts b x :
  numeric (facts ++ [x]) -> last_max facts b -> last_max (facts ++ [x]) (max_step b x).
Proof.
  intros Hn (l1 & l2 & -> & H1 & H2).
  assert (Hx : is_nan (confidence x) = false) by (apply Hn; rewrite !elem_of_app; right; apply list_elem_of_here).
  assert (Hl : forall g, g ∈ l1 ++ b :: l2 -> is_nan (confidence g) = false)
    by (intros; apply Hn, elem_of_app; by left).
  assert (Hb : is_nan (confidence b) = false)
    by (apply Hl, elem_of_app; right; apply list_elem_of_here).
  destruct (max_step_cases b x Hb Hx) as [[-> Hle]|[-> Hlt]].
  - exists (l1 ++ b :: l2), []. split; [done|]. split; [|intros g Hg; by apply elem_of_nil in Hg].
    intros g Hg. assert (f_le (confidence g) (confidence b)) as Hgb.
    { apply elem_of_app in Hg as Hg'. destruct Hg' as [Hg'|Hg']; [auto|].
      apply elem_of_cons in Hg' as [->|Hg'].
      - apply f_le_rank; [done|done|]. by destruct (rank_le_total (rank (confidence b)) (rank (confidence b))).
      - left. by apply H2. }
    rewrite f_le_rank in Hgb, Hle |- * by auto. by eapply rank_le_trans.
  - exists l1, (l2 ++ [x]). split; [by rewrite <- app_assoc|]. split; [done|].
    intros g [Hg|Hg%list_elem_of_singleton]%elem_of_app; [auto|by subst].
Qed.

Lemma last_max_unique facts f g : numeric facts -> last_max facts f -> last_max facts g -> f = g.
Proof.
  intros Hn (l1 & l2 & -> & H1 & H2) (l1' & l2' & E & H1' & H2').
  assert (Hin : forall x, x ∈ l1 ++ f :: l2 -> is_nan (confidence x) = false) by done.
  assert (Hf : is_nan (confidence f) = false) by (apply Hin, elem_of_app; right; apply list_elem_of_here).
  assert (Hg : is_nan (confidence g) = false)
    by (apply Hin; rewrite E; apply elem_of_app; right; apply list_elem_of_here).
  destruct (List.app_eq_app _ _ _ _ E) as ([|y l] & [[-> El]|[-> El]]); simpl in El;
    try (by injection El); injection El as <- ->.
  - exfalso. pose proof (H1 g ltac:(apply elem_of_app; right; apply list_elem_of_here)) as A.
    pose proof (H2' f ltac:(apply elem_of_app; right; apply list_elem_of_here)) as B.
    rewrite f_le_rank in A by done. rewrite f_lt_rank in B by done. done.
  - exfalso. pose proof (H1' f ltac:(apply elem_of_app; right; apply list_elem_of_here)) as A.
    pose proof (H2 g ltac:(apply elem_of_app; right; apply list_elem_of_here)) as B.
    rewrite f_le_rank in A by done. rewrite f_lt_rank in B by done. done.
Qed.

Lemma numeric_app l1 l2 : numeric (l1 ++ l2) -> numeric l1.
Proof. intros H f Hf. apply H, elem_of_app. by left. Qed.

Lemma best_of_last_max facts f : numeric facts -> best_of facts = Some f <-> last_max facts f.
Proof.
  intros Hn. assert (Hb : forall b, best_of facts = Some b -> last_max facts b).
  { revert Hn. induction facts as [|x facts IH] using rev_ind; intros Hn b; [done|].
    rewrite best_of_snoc. intros [= <-]. destruct (best_of facts) as [c|] eqn:Ec.
    - apply last_max_snoc; [done|]. apply IH; [by eapply numeric_app|done].
    - apply best_of_none in Ec as ->. exists [], [].
      split; [done|]. split; intros g Hg; by apply elem_of_nil in Hg. }
  split; [apply Hb|]. intros Hf. destruct (best_of facts) as [c|] eqn:Ec.
  - by rewrite (last_max_unique facts f c Hn Hf (Hb c eq_refl)).
  - apply best_of_none in Ec as ->. destruct Hf as ([|] & ? & E & _); done.
Qed.

(** ** The result, key by key *)

Lemma with_key_flat_map (g : str * list Fact -> list Fact) k L :
  (forall e, e ∈ L -> Forall (fun f => f_key f = fst e) (g e)) ->
  with_key k (flat_map g L) = flat_map g (List.filter (fun e => str_eqb (fst e) k) L).
Proof.
  induction L as [|e L IH]; intros Hg; [done|]. cbn [flat_map List.filter].
  rewrite with_key_app, IH by (intros; apply Hg; by apply list_elem_of_further).
  specialize (Hg e (list_elem_of_here _ _)).
  assert (Hk : with_key k (g e) = if str_eqb (fst e) k then g e else []).
  { clear -Hg. induction Hg as [|f l Hf Hl IHl]; [by destruct (str_eqb _ _)|].
    unfold with_key in *. simpl. rewrite Hf, IHl. by destruct (str_eqb _ _). }
  rewrite Hk. by destruct (str_eqb (fst e) k).
Qed.

Lemma filter_assoc {A} (L : list (str * A)) k v :
  NoDup (map fst L) -> (k, v) ∈ L -> List.filter (fun e => str_eqb (fst e) k) L = [(k, v)].
Proof.
  induction L as [|[k' v'] L IH]; intros Hn Hin; [by apply elem_of_nil in Hin|].
  apply NoDup_cons in Hn as [Hk Hn]. simpl. apply elem_of_cons in Hin as [[= <- <-]|Hin].
  - rewrite str_eqb_refl. f_equal. clear IH Hn. induction L as [|[a b] L IH]; [done|].
    simpl in *. apply not_elem_of_cons in Hk as [Hk1 Hk2]. rewrite str_eqb_neq by congruence. auto.
  - rewrite str_eqb_neq; [auto|]. intros ->. apply Hk. apply list_elem_of_fmap. by exists (k, v).
Qed.

Lemma filter_assoc_none {A} (L : list (str * A)) k :
  (forall v, (k, v) ∉ L) -> List.filter (fun e => str_eqb (fst e) k) L = [].
Proof.
  induction L as [|[k' v'] L IH]; intros Hn; [done|]. simpl.
  rewrite str_eqb_neq, IH; [done| |].
  - intros v Hv. apply (Hn v). by apply list_elem_of_further.
  - intros ->. apply (Hn v'). apply list_elem_of_here.
Qed.

Lemma normalize_group_sub config facts f : f ∈ normalize_group config facts -> f ∈ facts.
Proof.
  unfold normalize_group. destruct (str_eqb _ _); [done|].
  destruct (best_of facts) as [b|] eqn:Eb; [|by rewrite elem_of_nil].
  intros ->%list_elem_of_singleton. by apply best_of_elem.
Qed.

Lemma normalize_group_nil config : normalize_group config [] = [].
Proof. by unfold normalize_group; destruct (str_eqb _ _). Qed.

Lemma normalize_group_single facts : normalize_group ∅ facts = opt_list (best_of facts).
Proof. unfold normalize_group, merge_mode. by destruct (head facts). Qed.

Lemma filter_comm {A} (p q : A -> bool) l :
  List.filter p (List.filter q l) = List.filter q (List.filter p l).
Proof.
  induction l as [|x l IH]; [done|]. simpl. destruct (q x) eqn:Eq, (p x) eqn:Ep; simpl;
    rewrite ?Eq, ?Ep, IH; done.
Qed.

Lemma hash_iter_empty `{HashOrder} A : hash_iter A ∅ = [].
Proof. apply Permutation_nil. rewrite hash_iter_perm. by rewrite map_to_list_empty. Qed.

Lemma hash_iter_nodup `{HashOrder} {A} (m : gmap str A) : NoDup (map fst (hash_iter A m)).
Proof.
  rewrite (Permutation_map fst (hash_iter_perm A m)). apply NoDup_fst_map_to_list.
Qed.

Lemma elem_of_hash_iter `{HashOrder} {A} (m : gmap str A) k v :
  (k, v) ∈ hash_iter A m <-> m !! k = Some v.
Proof. by rewrite hash_iter_perm, elem_of_map_to_list. Qed.

Lemma normalize_key `{HashOrder} cfg facts config k :
  with_key k (normalize_with_config cfg facts config) =
  List.filter (above cfg) (normalize_group config (with_key k facts)).
Proof.
  unfold normalize_with_config. unfold with_key at 1. rewrite filter_comm. f_equal.
  change (List.filter (fun f => str_eqb (f_key f) k)) with (with_key k).
  rewrite with_key_flat_map.
  - pose proof (group_by_key_lookup facts k) as Hk. destruct (with_key k facts) as [|f fs] eqn:E.
    + rewrite filter_assoc_none; [by rewrite normalize_group_nil|].
      intros v. rewrite elem_of_hash_iter, Hk. done.
    + rewrite (filter_assoc _ k (f :: fs)).
      * simpl. by rewrite app_nil_r.
      * apply hash_iter_nodup.
      * by apply elem_of_hash_iter.
  - intros [k' l] Hin%elem_of_hash_iter. apply group_with_key in Hin as [-> _].
    apply Forall_forall. intros g Hg%normalize_group_sub. by apply elem_of_with_key in Hg as [_ ?].
Qed.

Lemma elem_of_normalize `{HashOrder} cfg facts config f :
  f ∈ normalize_with_config cfg facts config <->
  f ∈ normalize_group config (with_key (f_key f) facts) /\ above cfg f = true.
Proof.
  assert (f ∈ normalize_with_config cfg facts config <->
          f ∈ with_key (f_key f) (normalize_with_config cfg facts config)) as ->
    by (rewrite elem_of_with_key; tauto).
  by rewrite normalize_key, !list_elem_of_In, filter_In.
Qed.

Lemma normalize_sub `{HashOrder} cfg facts config f :
  f ∈ normalize_with_config cfg facts config -> f ∈ facts /\ above cfg f = true.
Proof.
  intros [Hf Ha]%elem_of_normalize. apply normalize_group_sub, elem_of_with_key in Hf as [? _]. done.
Qed.

(** Two lists that agree key by key are permutations of each other. *)
Lemma with_key_split k (f : Fact) fs l :
  with_key k l = f :: fs ->
  exists a b, l = a ++ f :: b /\ with_key k a = [] /\ with_key k b = fs.
Proof.
  induction l as [|x l IH]; [done|]. unfold with_key in *. simpl.
  destruct (str_eqb (f_key x) k) eqn:Ek.
  - intros [= -> E]. by exists [], l.
  - intros (a & b & -> & Ha & Hb)%IH. exists (x :: a), b. simpl. by rewrite Ek.
Qed.

Lemma perm_by_key l1 l2 : (forall k, with_key k l1 = with_key k l2) -> Permutation l1 l2.
Proof.
  revert l2. induction l1 as [|f l1 IH]; intros l2 Hk.
  - destruct l2 as [|g l2]; [done|]. specialize (Hk (f_key g)). unfold with_key in Hk. simpl in Hk.
    by rewrite str_eqb_refl in Hk.
  - pose proof (Hk (f_key f)) as Hf. unfold with_key in Hf at 1. simpl in Hf.
    rewrite str_eqb_refl in Hf. symmetry in Hf. apply with_key_split in Hf as (a & b & -> & Ha & Hb).
    apply Permutation_cons_app, IH. intros k. specialize (Hk k).
    change (f :: l1) with ([f] ++ l1) in Hk. change (f :: b) with ([f] ++ b) in Hk.
    rewrite (with_key_app k [f] l1), (with_key_app k a), (with_key_app k [f] b) in Hk.
    rewrite with_key_app. destruct (decide (k = f_key f)) as [->|Hne].
    + rewrite Ha. symmetry. exact Hb.
    + change (with_key k [f]) with (if str_eqb (f_key f) k then [f] else []) in Hk.
      rewrite str_eqb_neq in Hk by congruence. exact Hk.
Qed.

Lemma nodup_by_key l : (forall k, length (with_key k l) <= 1) -> NoDup (map f_key l).
Proof.
  induction l as [|f l IH]; intros Hk; [constructor|]. simpl. constructor.
  - intros (g & Eg & Hg)%list_elem_of_fmap. specialize (Hk (f_key f)). unfold with_key in Hk.
    simpl in Hk. rewrite str_eqb_refl in Hk. simpl in Hk.
    assert (g ∈ with_key (f_key f) l) as Hin by (by apply elem_of_with_key).
    unfold with_key in Hin. destruct (List.filter _ l); [by apply elem_of_nil in Hin|]. simpl in Hk. lia.
  - apply IH. intros k. specialize (Hk k). unfold with_key in *. simpl in Hk.
    destruct (str_eqb _ _); simpl in Hk; lia.
Qed.

(** Whatever the order of the hash map, the facts kept under a key are a
    function of the facts under that key alone: all of them when the extractor
    of the first one is in multi mode, otherwise one of greatest confidence;
    and of these the ones that reach the threshold. *)
Theorem normalize_by_key `{HashOrder} (cfg : NormalizerConfig) (facts : list Fact)
    (config : gmap str ExtractorConfig) (k : str) :
  with_key k (normalize_with_config cfg facts config) =
  List.filter (above cfg)
    (if str_eqb (merge_mode config (with_key k facts)) (lit "multi")
     then with_key k facts else opt_list (best_of (with_key k facts))).
Proof. apply normalize_key. Qed.

(** C15. In single mode, when no confidence is NaN, the normalizer keeps at most
    one fact per key, and a fact is kept exactly when it is the last of those of
    greatest confidence under its key and reaches the threshold. *)
Theorem normalize_single `{HashOrder} (cfg : NormalizerConfig) (facts : list Fact) :
  numeric facts ->
  NoDup (map f_key (normalize cfg facts)) /\
  forall f, f ∈ normalize cfg facts <->
            last_max (with_key (f_key f) facts) f /\ f_ge (confidence f) (threshold cfg) = true.
Proof.
  intros Hn. unfold normalize. split.
  - apply nodup_by_key. intros k. rewrite normalize_key. rewrite normalize_group_single.
    destruct (best_of _) as [b|]; simpl; [|lia]. destruct (above cfg b); simpl; lia.
  - intros f. rewrite elem_of_normalize. rewrite normalize_group_single.
    rewrite <- best_of_last_max.
    + destruct (best_of _) as [b|]; simpl.
      * rewrite list_elem_of_singleton. split; intros [E ?]; (split; [congruence|done]).
      * rewrite elem_of_nil. split; intros [E ?]; done.
    + intros g [Hg _]%elem_of_with_key. auto.
Qed.

(** The order of the hash map never matters, and normalizing twice is
    normalizing once: with any two orders the results are permutations of each
    other. *)
Theorem normalize_idempotent (o1 o2 o3 : HashOrder) (cfg : NormalizerConfig) (facts : list Fact) :
  Permutation (@normalize o1 cfg (@normalize o2 cfg facts)) (@normalize o3 cfg facts).
Proof.
  apply perm_by_key. intros k. unfold normalize. rewrite !normalize_key, !normalize_group_single.
  destruct (best_of (with_key k facts)) as [b|] eqn:Eb; [|done]. simpl.
  destruct (above cfg b) eqn:Ea; [|done]. simpl. by rewrite Ea.
Qed.

Lemma normalize_order (o1 o2 : HashOrder) cfg facts config :
  Permutation (@normalize_with_config o1 cfg facts config) (@normalize_with_config o2 cfg facts config).
Proof. apply perm_by_key. intros k. by rewrite !normalize_key. Qed.

(** A fact below the threshold never survives, in particular the diagnostics of
    the command extractor, whose confidence is zero. *)
Lemma diagnostic_dropped `{HashOrder} facts config key value source :
  diagnostic_fact key value source ∉ normalize_with_config normalizer_default facts config.
Proof. by intros [_ Ha]%normalize_sub. Qed.

(** In multi mode equal facts are kept as often as they occur. *)
Definition sample_fact (value : str) (c : float) : Fact := mkFact (lit "k") value [] (lit "x") c.

Example multi_keeps_duplicates :
  @normalize_with_config some_order normalizer_default
    [sample_fact (lit "v") f32_one; sample_fact (lit "v") f32_one]
    {[lit "x" := extractor_config (lit "x") (lit "regex") [] (lit "k") (lit "multi")]} =
  [sample_fact (lit "v") f32_one; sample_fact (lit "v") f32_one].
Proof. vm_compute. reflexivity. Qed.

(** A confidence that is NaN compares with nothing: as the later one it wins
    over a certain fact, and then fails the threshold. *)
Example nan_masks_fact :
  @normalize some_order normalizer_default
    [sample_fact (lit "v") f32_one; sample_fact (lit "w") S754_nan] = [].
Proof. vm_compute. reflexivity. Qed.

(** ** Witnesses *)

Definition sample_facts : list Fact :=
  [sample_fact (lit "a") f32_half; sample_fact (lit "b") f32_one; sample_fact (lit "c") f32_one].

Lemma normalize_single_witness :
  NoDup (map f_key (@normalize some_order normalizer_default sample_facts)) /\
  sample_fact (lit "c") f32_one ∈ @normalize some_order normalizer_default sample_facts.
Proof.
  assert (Hn : numeric sample_facts)
    by (intros f Hf; repeat (apply elem_of_cons in Hf as [->|Hf]; [reflexivity|]); by apply elem_of_nil in Hf).
  destruct (@normalize_single some_order normalizer_default sample_facts Hn) as [Hd Hin].
  split; [exact Hd|]. apply Hin. split; [|reflexivity].
  apply best_of_last_max; [|vm_compute; reflexivity].
  intros f [Hf _]%elem_of_with_key. by apply Hn.
Defined.
