(* ===== verification/Extractors.v ===== *)
(** * Extractors

    Models the ports and extractors of the enrichment engine:
    [traits/mod.rs] (errors, the file system, the [Extractor] trait),
    [extractors/regex_extractor.rs], [glob_extractor.rs], [static_extractor.rs]
    and the [Extractor] implementation of [command_extractor.rs].  The trait is
    the class [Extractor]; its law, that an extractor signs its facts with its
    own name, is what the pipeline relies on.  Regular expressions and the file
    system are parameters; a path stands for its lossy string form. *)

From S2P Require Import Prelude RuleParser RuleEval CommandExtractor.

(** ** Ports *)

Inductive EnrichmentError :=
| ErrFileSystem (s : str) | ErrCatalog (s : str) | ErrExtraction (s : str)
| ErrConfig (s : str) | ErrRecorder (s : str) | ErrIo (s : str).

Record FileSystem := mkFileSystem {
  fs_read_to_string : str -> result EnrichmentError str;
  fs_glob : str -> result EnrichmentError (list str)
}.

(** The captures of a match: group 0 is the whole match, the others are reached
    by name. *)
Record Captures := mkCaptures { cap_get0 : option str; cap_name : str -> option str }.

(** The part of the [regex] crate that the extractors use. *)
Class RegexCaptures `{RegexEngine} := {
  capture_names : regex -> list (option str);
  captures : regex -> str -> option Captures
}.

Class Extractor (E : Type) := {
  ext_name : E -> str;
  extract : E -> OperationInvocation -> OperationResult -> FileSystem -> list Fact
}.

Class ExtractorLaws (E : Type) `{Extractor E} :=
  extract_signed : forall (e : E) inv res fs f,
    f ∈ extract e inv res fs -> source_extractor f = ext_name e.

(** ** Glob extractor *)

Record GlobExtractor := mkGlob { ge_name : str; ge_pattern : str; ge_fact_key : str; ge_merge_mode : str }.

Definition GlobExtractor_new (name pattern fact_key : str) : GlobExtractor :=
  mkGlob name pattern fact_key (lit "single").

Definition GlobExtractor_with_merge_mode (name pattern fact_key merge_mode : str) : GlobExtractor :=
  mkGlob name pattern fact_key merge_mode.

Definition glob_extract (e : GlobExtractor) (fs : FileSystem) : list Fact :=
  match fs_glob fs (ge_pattern e) with
  | Ok paths => map (fun p => mkFact (ge_fact_key e) p [] (ge_name e) f32_one) paths
  | Err _ => []
  end.

#[export] Instance GlobExtractor_Extractor : Extractor GlobExtractor :=
  {| ext_name := ge_name; extract := fun e _ _ fs => glob_extract e fs |}.

#[export] Instance GlobExtractor_laws : ExtractorLaws GlobExtractor.
Proof.
  intros e inv res fs f. simpl. unfold glob_extract. destruct (fs_glob fs _); [|by rewrite elem_of_nil].
  by intros (p & -> & _)%list_elem_of_fmap.
Qed.

(** ** Static extractor *)

Record StaticFact := mkStaticFact { sf_key : str; sf_value : str; sf_confidence : float }.
Record StaticExtractor := mkStatic { se_name : str; se_facts : list StaticFact }.

Definition StaticExtractor_new (name : str) (facts : list StaticFact) : StaticExtractor :=
  mkStatic name facts.

Definition static_extract (e : StaticExtractor) : list Fact :=
  map (fun sf => mkFact (sf_key sf) (sf_value sf) [] (se_name e) (sf_confidence sf)) (se_facts e).

#[export] Instance StaticExtractor_Extractor : Extractor StaticExtractor :=
  {| ext_name := se_name; extract := fun e _ _ _ => static_extract e |}.

#[export] Instance StaticExtractor_laws : ExtractorLaws StaticExtractor.
Proof. intros e inv res fs f. by intros (p & -> & _)%list_elem_of_fmap. Qed.

(** ** Command extractor *)

Record CommandExtractor := mkCommandExtractor { ce_name : str; ce_policy : CommandExtractorPolicy }.

Definition CommandExtractor_with_policy (name : str) (policy : CommandExtractorPolicy) :
    CommandExtractor := mkCommandExtractor name policy.

(** [extract_command_spec] shows that the tokenizer's fuel never runs out, so
    the default is never used. *)
#[export] Instance CommandExtractor_Extractor : Extractor CommandExtractor :=
  {| ext_name := ce_name;
     extract := fun e inv _ _ => default [] (extract_command (ce_name e) (ce_policy e) (command inv)) |}.

Lemma command_extract_signed e inv res fs :
  exists facts, extract_command (ce_name e) (ce_policy e) (command inv) = Some facts /\
    extract e inv res fs = facts /\ Forall (fun f => source_extractor f = ce_name e) facts.
Proof.
  destruct (extract_command_spec (ce_name e) (ce_policy e) (command inv)) as (facts & E & H).
  exists facts. split; [done|]. split; [by simpl; rewrite E|].
  destruct H as [(key & value & ->)|(? & ? & ? & _ & _ & Hc & _)]; [by repeat constructor|].
  eapply Forall_impl; [exact Hc|]. by intros f [Hf _].
Qed.

#[export] Instance CommandExtractor_laws : ExtractorLaws CommandExtractor.
Proof.
  intros e inv res fs f Hf. destruct (command_extract_signed e inv res fs) as (l & _ & E & Hl).
  rewrite E in Hf. by apply (proj1 (Forall_forall _ l) Hl).
Qed.

(** ** Regex extractor *)

Section Regex.
Context `{RegexCaptures}.

Record RegexExtractor := mkRegex {
  re_name : str; re_pattern : regex; re_fact_key : str; re_merge_mode : str
}.

Definition invalid_regex (e : str) : EnrichmentError := ErrConfig (lit "Invalid regex: " ++ e).

Definition RegexExtractor_with_merge_mode (name pattern fact_key merge_mode : str) :
    result EnrichmentError RegexExtractor :=
  match regex_new pattern with
  | Ok r => Ok (mkRegex name r fact_key merge_mode)
  | Err e => Err (invalid_regex e)
  end.

Definition RegexExtractor_new (name pattern fact_key : str) :
    result EnrichmentError RegexExtractor :=
  RegexExtractor_with_merge_mode name pattern fact_key (lit "single").

Definition has_named_captures (e : RegexExtractor) : bool :=
  match omap id (capture_names (re_pattern e)) with [] => false | _ => true end.

Definition regex_extract (e : RegexExtractor) (result : OperationResult) : list Fact :=
  let text := match stdout result with [] => stderr result | _ => stdout result end in
  match captures (re_pattern e) text with
  | None => []
  | Some caps =>
      let names := omap id (capture_names (re_pattern e)) in
      if Nat.ltb 1 (length names) then
        flat_map (fun name =>
          match cap_name caps name with
          | Some cap => [mkFact name cap [] (re_name e) f32_one]
          | None => []
          end) names
      else
        match cap_get0 caps with
        | Some m => [mkFact (re_fact_key e) m [] (re_name e) f32_one]
        | None => []
        end
  end.

#[export] Instance RegexExtractor_Extractor : Extractor RegexExtractor :=
  {| ext_name := re_name; extract := fun e _ res _ => regex_extract e res |}.

#[export] Instance RegexExtractor_laws : ExtractorLaws RegexExtractor.
Proof.
  intros e inv res fs f. simpl. unfold regex_extract.
  destruct (captures _ _) as [caps|]; [|by rewrite elem_of_nil]. destruct (Nat.ltb _ _).
  - rewrite list_elem_of_In, in_flat_map. intros (n & _ & Hf).
    destruct (cap_name caps n); [|done]. destruct Hf as [<-|[]]. done.
  - destruct (cap_get0 caps); [|by rewrite elem_of_nil]. by intros ->%list_elem_of_singleton.
Qed.

(** A regex extractor emits either one fact under its own key or facts under
    the names of the pattern's groups. *)
Lemma regex_extract_keys e res f :
  f ∈ regex_extract e res ->
  f_key f = re_fact_key e \/ Some (f_key f) ∈ capture_names (re_pattern e).
Proof.
  unfold regex_extract. destruct (captures _ _) as [caps|]; [|by rewrite elem_of_nil].
  destruct (Nat.ltb _ _).
  - rewrite list_elem_of_In, in_flat_map. intros (n & Hn & Hf).
    apply list_elem_of_In, list_elem_of_omap in Hn as (o & Ho & E). unfold id in E. subst o.
    destruct (cap_name caps n); [|done]. destruct Hf as [<-|[]]. by right.
  - destruct (cap_get0 caps); [|by rewrite elem_of_nil]. intros ->%list_elem_of_singleton. by left.
Qed.
End Regex.

(** A concrete engine on which examples run: patterns are plain substrings,
    without named groups. *)
Definition substring_captures : @RegexCaptures substring_engine :=
  @Build_RegexCaptures substring_engine (fun _ => [])
    (fun p s => if str_contains s p then Some (mkCaptures (Some p) (fun _ => None)) else None).
