(* ===== verification/Pipeline.v ===== *)
(** * The enrichment pipeline

    Models [enrichment-engine/src/pipeline.rs] and [intent.rs]: intent
    detection with its cache of compiled patterns, the cache of validated
    patterns per enricher, the extractor instances built lazily from it, and
    [FactPipeline::run]: selection of an enricher, extraction, rules,
    normalization and composition of the agent context.  The pipeline's state
    is the record [FactPipeline], threaded through [run]; the catalog and the
    rule evaluator are records of functions, as the trait objects are. *)

From S2P Require Import Prelude RuleParser RuleEval CommandExtractor Normalizer Extractors.

(** ** Descriptors *)

Record EnricherDescriptor := mkEnricher {
  en_id : str; en_name : str; en_version : str; en_match_patterns : list str;
  en_template : str; en_enabled : bool; en_extractors : list ExtractorConfig;
  en_schema_version : str; en_description : option str; en_category : option str;
  en_command_pattern : option str; en_advice_scope : list str; en_pre_checks : list str;
  en_assertions : list str
}.

(** An enabled enricher with the defaults of [EnricherDescriptor::default]. *)
Definition enricher (id : str) (patterns : list str) (extractors : list ExtractorConfig) :
    EnricherDescriptor :=
  mkEnricher id [] [] patterns [] true extractors (lit "1.0") None None None [] [] [].

Record CatalogRepository := mkCatalog {
  find_enrichers : str -> list EnricherDescriptor;
  list_all : list EnricherDescriptor
}.

Definition RuleEvaluator : Type :=
  str -> OperationInvocation -> OperationResult -> list Fact -> RuleOutput.

(** [DefaultRuleEvaluator] as a rule evaluator. *)
Definition default_rule_evaluator `{UnicodeTables} `{RegexEngine} (rules : list RuleConfig) :
    RuleEvaluator :=
  fun id _ result facts => rule_evaluate rules id result facts.

(** ** Agent context *)

Record TestSummary := mkSummary { ts_run : Z; ts_failed : Z; ts_errors : Z; ts_skipped : Z }.
Record EnrichmentMeta := mkMeta { em_source : str; em_timestamp : str; em_enricher_id : str }.
Record AgentContext := mkAgentContext {
  ac_facts : list Fact; ac_build_status : option str; ac_artifacts : list Fact;
  ac_test_summary : option TestSummary; ac_meta : EnrichmentMeta;
  ac_verdict : option str; ac_recommendations : option (list str)
}.

(** [AgentContextComposer::get_fact]. *)
Definition composer_get_fact (facts : list Fact) (key : str) : option str :=
  option_map f_value (List.find (fun f => str_eqb (f_key f) key) facts).

Definition parse_test_summary (facts : list Fact) : option TestSummary :=
  match composer_get_fact facts (lit "tests_run") with
  | None => None
  | Some s =>
      let count key :=
        match composer_get_fact facts key with Some v => parse_u32 v | None => None end in
      Some (mkSummary (default 0%Z (parse_u32 s)) (default 0%Z (count (lit "tests_failed")))
              (default 0%Z (count (lit "tests_errors"))) (default 0%Z (count (lit "tests_skipped"))))
  end.

Definition compose_context (now : str) (facts : list Fact) (enricher : EnricherDescriptor)
    (verdict : option str) (recommendations : option (list str)) : AgentContext :=
  mkAgentContext facts (composer_get_fact facts (lit "build_status"))
    (List.filter (fun f => str_contains (f_key f) (lit "artifact")) facts)
    (parse_test_summary facts)
    (mkMeta (lit "enrichment-engine") now (en_id enricher)) verdict recommendations.

Definition no_match_context (now : str) : AgentContext :=
  mkAgentContext [] None [] None (mkMeta (lit "enrichment-engine") now []) None None.

Section Pipeline.
Context `{RegexCaptures} `{HashOrder}.

(** ** Intent detection *)

Abbreviation IntentCache := (gmap str regex).

Definition get_or_compile (cache : IntentCache) (pattern : str) : option regex * IntentCache :=
  match cache !! pattern with
  | Some cached => (Some cached, cache)
  | None =>
      match regex_new pattern with
      | Err _ => (None, cache)
      | Ok r => (Some r, <[pattern := r]> cache)
      end
  end.

(** [any] over the patterns of one enricher, which stops at the first match. *)
Fixpoint any_match (cache : IntentCache) (command : str) (patterns : list str) :
    bool * IntentCache :=
  match patterns with
  | [] => (false, cache)
  | p :: ps =>
      let '(r, cache) := get_or_compile cache p in
      if match r with Some r => regex_is_match r command | None => false end then (true, cache)
      else any_match cache command ps
  end.

Fixpoint detect (cache : IntentCache) (command : str) (enrichers : list EnricherDescriptor) :
    list EnricherDescriptor * IntentCache :=
  match enrichers with
  | [] => ([], cache)
  | e :: es =>
      let '(matched, cache) :=
        if en_enabled e then any_match cache command (en_match_patterns e) else (false, cache) in
      let '(rest, cache) := detect cache command es in
      (if matched then e :: rest else rest, cache)
  end.

(** ** Validated patterns *)

Record ValidatedPattern := mkValidated {
  vp_regex : regex; vp_pattern_str : str; vp_fact_key : str; vp_extractor_id : str;
  vp_merge_mode : str; vp_extractor_type : str
}.

Definition ValidatedPattern_new (extractor_id pattern fact_key merge_mode : str) :
    result str ValidatedPattern :=
  match regex_new pattern with
  | Ok r => Ok (mkValidated r pattern fact_key extractor_id merge_mode (lit "regex"))
  | Err e => Err e
  end.

(** [None] is the panic of the [expect] on the dummy pattern. *)
Definition ValidatedPattern_new_glob (extractor_id pattern fact_key merge_mode : str) :
    option ValidatedPattern :=
  match regex_new (lit ".") with
  | Ok r => Some (mkValidated r pattern fact_key extractor_id merge_mode (lit "glob"))
  | Err _ => None
  end.

Abbreviation CompiledEnricherCache := (gmap str (list ValidatedPattern)).

(** One turn of the inner loop of [from_enrichers]. *)
Definition validate_extractor (ext : ExtractorConfig) : option (list ValidatedPattern) :=
  if str_eqb (ec_type ext) (lit "regex") then
    match ValidatedPattern_new (ec_id ext) (ec_pattern ext) (ec_fact_key ext) (ec_merge_mode ext) with
    | Ok vp => Some [vp]
    | Err _ => Some []
    end
  else if str_eqb (ec_type ext) (lit "glob") then
    match ValidatedPattern_new_glob (ec_id ext) (ec_pattern ext) (ec_fact_key ext) (ec_merge_mode ext) with
    | Some vp => Some [vp]
    | None => None
    end
  else Some [].

Fixpoint validate_all (exts : list ExtractorConfig) : option (list ValidatedPattern) :=
  match exts with
  | [] => Some []
  | ext :: exts' =>
      match validate_extractor ext, validate_all exts' with
      | Some a, Some b => Some (a ++ b)
      | _, _ => None
      end
  end.

Fixpoint from_enrichers_loop (cache : CompiledEnricherCache) (enrichers : list EnricherDescriptor) :
    option CompiledEnricherCache :=
  match enrichers with
  | [] => Some cache
  | e :: es =>
      match validate_all (en_extractors e) with
      | Some validated => from_enrichers_loop (<[en_id e := validated]> cache) es
      | None => None
      end
  end.

Definition from_enrichers (enrichers : list EnricherDescriptor) : option CompiledEnricherCache :=
  from_enrichers_loop ∅ enrichers.

(** ** Extractor instances *)

Inductive ExtractorInstance :=
| InstRegex (e : RegexExtractor)
| InstGlob (e : GlobExtractor)
| InstCommand (e : CommandExtractor).

Definition instance_name (i : ExtractorInstance) : str :=
  match i with
  | InstRegex e => ext_name e
  | InstGlob e => ext_name e
  | InstCommand e => ext_name e
  end.

Definition instance_extract (i : ExtractorInstance) (inv : OperationInvocation)
    (res : OperationResult) (fs : FileSystem) : list Fact :=
  match i with
  | InstRegex e => extract e inv res fs
  | InstGlob e => extract e inv res fs
  | InstCommand e => extract e inv res fs
  end.

(** [RegexExtractor::from_validated]. *)
Definition from_validated (vp : ValidatedPattern) : RegexExtractor :=
  mkRegex (vp_extractor_id vp) (vp_regex vp) (vp_fact_key vp) (vp_merge_mode vp).

Definition instance_of (vp : ValidatedPattern) : ExtractorInstance :=
  if str_eqb (vp_extractor_type vp) (lit "regex") then InstRegex (from_validated vp)
  else if str_eqb (vp_extractor_type vp) (lit "glob") then
    InstGlob (GlobExtractor_with_merge_mode (vp_extractor_id vp) (vp_pattern_str vp)
                (vp_fact_key vp) (vp_merge_mode vp))
  else InstRegex (from_validated vp).

(** ** The pipeline *)

Record FactPipeline := mkPipeline {
  catalog : CatalogRepository;
  rule_evaluator : option RuleEvaluator;
  compiled_cache : CompiledEnricherCache;
  cached_extractors : option (gmap str (list ExtractorInstance))
}.

Definition FactPipeline_new (c : CatalogRepository) : FactPipeline := mkPipeline c None ∅ None.
Definition with_rule_evaluator (c : CatalogRepository) (re : option RuleEvaluator) : FactPipeline :=
  mkPipeline c re ∅ None.
Definition with_cache (c : CatalogRepository) (cache : CompiledEnricherCache) : FactPipeline :=
  mkPipeline c None cache None.
Definition with_cache_and_rules (c : CatalogRepository) (cache : CompiledEnricherCache)
    (re : option RuleEvaluator) : FactPipeline :=
  mkPipeline c re cache None.

Definition build_cached_extractors (p : FactPipeline) : FactPipeline :=
  match cached_extractors p with
  | Some _ => p
  | None =>
      mkPipeline (catalog p) (rule_evaluator p) (compiled_cache p)
        (Some (map instance_of <$> compiled_cache p))
  end.

Definition build_cache (p : FactPipeline) : option CompiledEnricherCache :=
  from_enrichers (list_all (catalog p)).

Definition catalog_count (p : FactPipeline) : nat := length (list_all (catalog p)).

Definition select_enricher (p : FactPipeline) (inv : OperationInvocation) :
    option EnricherDescriptor :=
  head (fst (detect ∅ (command inv) (find_enrichers (catalog p) (command inv)))).

Definition run_extractor (config : ExtractorConfig) (inv : OperationInvocation)
    (res : OperationResult) (fs : FileSystem) : result EnrichmentError (list Fact) :=
  if str_eqb (ec_type config) (lit "regex") then
    match RegexExtractor_with_merge_mode (ec_id config) (ec_pattern config) (ec_fact_key config)
            (ec_merge_mode config) with
    | Ok e => Ok (extract e inv res fs)
    | Err e => Err e
    end
  else if str_eqb (ec_type config) (lit "glob") then
    Ok (extract (GlobExtractor_with_merge_mode (ec_id config) (ec_pattern config)
                   (ec_fact_key config) (ec_merge_mode config)) inv res fs)
  else if str_eqb (ec_type config) (lit "command") then
    Ok (extract (CommandExtractor_with_policy (ec_id config)
                   (default policy_default (ec_policy config))) inv res fs)
  else Ok [].

Definition cached_instances (p : FactPipeline) (id : str) : list ExtractorInstance :=
  match cached_extractors p with
  | Some cached => default [] (cached !! id)
  | None => []
  end.

(** The facts of the extractors built per call: a failing one is skipped. *)
Definition per_call_facts (cached_ids : gset str) (inv : OperationInvocation)
    (res : OperationResult) (fs : FileSystem) (config : ExtractorConfig) : list Fact :=
  if decide (ec_id config ∈ cached_ids) then []
  else match run_extractor config inv res fs with Ok facts => facts | Err _ => [] end.

Definition execute_extractors (p : FactPipeline) (inv : OperationInvocation)
    (res : OperationResult) (fs : FileSystem) (e : EnricherDescriptor) :
    list Fact * FactPipeline :=
  let p := build_cached_extractors p in
  let instances := cached_instances p (en_id e) in
  let cached_ids : gset str := list_to_set (map instance_name instances) in
  (flat_map (fun i => instance_extract i inv res fs) instances
   ++ flat_map (per_call_facts cached_ids inv res fs) (en_extractors e), p).

(** The configurations by id; of two with the same id, the later one. *)
Definition extractor_config_map (exts : list ExtractorConfig) : gmap str ExtractorConfig :=
  fold_left (fun m e => <[ec_id e := e]> m) exts ∅.

Definition evaluate_and_normalize (p : FactPipeline) (inv : OperationInvocation)
    (res : OperationResult) (e : EnricherDescriptor) (all_facts : list Fact) :
    RuleOutput * list Fact :=
  let '(output, all_facts) :=
    match rule_evaluator p with
    | Some evaluator =>
        let output := evaluator (en_id e) inv res all_facts in
        (output, all_facts ++ derived_facts output)
    | None => (RuleOutput_empty, all_facts)
    end in
  (output, normalize_with_config normalizer_default all_facts (extractor_config_map (en_extractors e))).

Definition run (now : str) (p : FactPipeline) (inv : OperationInvocation) (res : OperationResult)
    (fs : FileSystem) : result str AgentContext * FactPipeline :=
  match select_enricher p inv with
  | None => (Ok (no_match_context now), p)
  | Some e =>
      let '(all_facts, p) := execute_extractors p inv res fs e in
      let '(output, normalized) := evaluate_and_normalize p inv res e all_facts in
      (Ok (compose_context now normalized e (verdict output)
             (match recommendations output with [] => None | r => Some r end)), p)
  end.
End Pipeline.

Section PipelineFacts.
Context `{RegexCaptures} `{HashOrder}.

(** ** Intent detection *)

(** A pattern that compiles and matches. *)
Definition pattern_matches (command pattern : str) : bool :=
  match regex_new pattern with Ok r => regex_is_match r command | Err _ => false end.

Definition enricher_matches (command : str) (e : EnricherDescriptor) : bool :=
  en_enabled e && existsb (pattern_matches command) (en_match_patterns e).

(** Every cached regex is what its pattern compiles to. *)
Definition cache_ok (cache : gmap str regex) : Prop :=
  map_Forall (fun pattern r => regex_new pattern = Ok r) cache.

Lemma get_or_compile_ok (cache : gmap str regex) pattern :
  cache_ok cache ->
  fst (get_or_compile cache pattern) = match regex_new pattern with Ok r => Some r | Err _ => None end /\
  cache_ok (snd (get_or_compile cache pattern)).
Proof.
  intros Hc. unfold get_or_compile. destruct (cache !! pattern) as [r|] eqn:E.
  - by rewrite (Hc _ _ E).
  - destruct (regex_new pattern) as [r|] eqn:Er; [|done]. split; [done|].
    by apply map_Forall_insert_2.
Qed.

Lemma any_match_ok (cache : gmap str regex) command patterns :
  cache_ok cache ->
  fst (any_match cache command patterns) = existsb (pattern_matches command) patterns /\
  cache_ok (snd (any_match cache command patterns)).
Proof.
  revert cache. induction patterns as [|p ps IH]; intros cache Hc; [done|]. cbn [any_match existsb].
  destruct (get_or_compile_ok cache p Hc) as [Hr Hc']. unfold pattern_matches at 1.
  destruct (get_or_compile cache p) as [r cache']. simpl in Hr, Hc'. subst r.
  destruct (regex_new p) as [r|]; [|simpl; by apply IH].
  destruct (regex_is_match r command); [done|]. simpl. by apply IH.
Qed.

(** Intent detection with its cache of compiled patterns, in any state the cache
    can be in, selects what the patterns select without a cache. *)
Lemma detect_ok (cache : gmap str regex) command es :
  cache_ok cache ->
  fst (detect cache command es) = List.filter (enricher_matches command) es /\
  cache_ok (snd (detect cache command es)).
Proof.
  revert cache. induction es as [|e es IH]; intros cache Hc; [done|]. cbn [detect List.filter].
  unfold enricher_matches at 1. destruct (en_enabled e); simpl.
  - destruct (any_match_ok cache command (en_match_patterns e) Hc) as [Hm Hc'].
    destruct (any_match cache command _) as [m cache']. simpl in Hm, Hc'. subst m.
    destruct (IH cache' Hc') as [Hd Hc'']. destruct (detect cache' command es). simpl in *. subst.
    by destruct (existsb _ _).
  - destruct (IH cache Hc) as [Hd Hc'']. destruct (detect cache command es). simpl in *. by subst.
Qed.

Lemma select_enricher_find p inv :
  select_enricher p inv =
  List.find (enricher_matches (command inv)) (find_enrichers (catalog p) (command inv)).
Proof.
  unfold select_enricher.
  destruct (detect_ok ∅ (command inv) (find_enrichers (catalog p) (command inv))) as [-> _];
    [apply map_Forall_empty|].
  induction (find_enrichers _ _) as [|e es IH]; [done|]. simpl.
  by destruct (enricher_matches _ e).
Qed.

(** ** The cache of validated patterns *)

(** What an extractor contributes without any cache. *)
Definition extractor_facts inv res fs (config : ExtractorConfig) : list Fact :=
  match run_extractor config inv res fs with Ok facts => facts | Err _ => [] end.

(** Whether it is served from the cache. *)
Definition cacheable (ext : ExtractorConfig) : bool :=
  (str_eqb (ec_type ext) (lit "regex") && is_ok (regex_new (ec_pattern ext)))
  || str_eqb (ec_type ext) (lit "glob").

Lemma validate_extractor_ok inv res fs ext l :
  validate_extractor ext = Some l ->
  map (fun vp => instance_name (instance_of vp)) l = (if cacheable ext then [ec_id ext] else []) /\
  flat_map (fun vp => instance_extract (instance_of vp) inv res fs) l =
    (if cacheable ext then extractor_facts inv res fs ext else []).
Proof.
  unfold validate_extractor, cacheable, extractor_facts, run_extractor, ValidatedPattern_new,
    ValidatedPattern_new_glob, RegexExtractor_with_merge_mode.
  destruct (str_eqb (ec_type ext) (lit "regex")) eqn:Er.
  - destruct (regex_new (ec_pattern ext)) as [r|]; intros [= <-]; simpl.
    + by rewrite app_nil_r.
    + destruct (str_eqb (ec_type ext) (lit "glob")) eqn:Eg; [|done].
      bools. rewrite Er in Eg. discriminate Eg.
  - simpl. destruct (str_eqb (ec_type ext) (lit "glob")); [|by intros [= <-]].
    destruct (regex_new (lit ".")); [|done]. intros [= <-]. simpl. by rewrite app_nil_r.
Qed.

Lemma validate_all_ok inv res fs exts l :
  validate_all exts = Some l ->
  map (fun vp => instance_name (instance_of vp)) l = map ec_id (List.filter cacheable exts) /\
  flat_map (fun vp => instance_extract (instance_of vp) inv res fs) l =
    flat_map (extractor_facts inv res fs) (List.filter cacheable exts).
Proof.
  revert l. induction exts as [|ext exts IH]; intros l; cbn [validate_all].
  { by intros [= <-]. }
  destruct (validate_extractor ext) as [a|] eqn:Ea; [|done].
  destruct (validate_all exts) as [b|]; [|done]. intros [= <-].
  apply (validate_extractor_ok inv res fs) in Ea as [Hn Hf]. destruct (IH b eq_refl) as [Hn' Hf'].
  rewrite map_app, flat_map_app, Hn, Hf, Hn', Hf'. simpl. by destruct (cacheable ext).
Qed.

Lemma from_enrichers_loop_lookup cache0 es cache e :
  from_enrichers_loop cache0 es = Some cache -> NoDup (map en_id es) ->
  (e ∈ es -> exists l, cache !! en_id e = Some l /\ validate_all (en_extractors e) = Some l) /\
  (en_id e ∉ map en_id es -> cache !! en_id e = cache0 !! en_id e).
Proof.
  revert cache0. induction es as [|x es IH]; intros cache0; cbn [from_enrichers_loop].
  { intros [= <-] _. split; [by intros Hin%elem_of_nil|done]. }
  destruct (validate_all (en_extractors x)) as [l|] eqn:El; [|done].
  intros Hl [Hx Hn]%NoDup_cons. destruct (IH _ Hl Hn) as [IH1 IH2]. split.
  - intros [->|Hin]%elem_of_cons; [|auto]. exists l. split; [|done].
    rewrite IH2 by done. apply lookup_insert_eq.
  - simpl. intros [Hne Hin]%not_elem_of_cons. rewrite IH2 by done. by apply lookup_insert_ne.
Qed.

(** The lazily built instances are those of the compiled cache. *)
Definition pipeline_ok (p : FactPipeline) : Prop :=
  match cached_extractors p with
  | None => True
  | Some m => m = (map instance_of <$> compiled_cache p)
  end.

Lemma build_cached_extractors_ok p :
  pipeline_ok p ->
  pipeline_ok (build_cached_extractors p) /\
  compiled_cache (build_cached_extractors p) = compiled_cache p /\
  forall id, cached_instances (build_cached_extractors p) id =
             map instance_of (default [] (compiled_cache p !! id)).
Proof.
  unfold pipeline_ok, build_cached_extractors, cached_instances.
  destruct (cached_extractors p) as [m|] eqn:E; simpl; intros Hm; rewrite ?E;
    (split; [done|]); (split; [done|]); intros id; try subst m; rewrite lookup_fmap;
    by destruct (compiled_cache p !! id).
Qed.

Lemma flat_map_partition {A B} (p : A -> bool) (g : A -> list B) l :
  Permutation (flat_map g (List.filter p l) ++ flat_map (fun x => if p x then [] else g x) l)
              (flat_map g l).
Proof.
  induction l as [|x l IH]; [done|]. simpl. destruct (p x); simpl.
  - rewrite <- app_assoc. by apply Permutation_app_head.
  - rewrite <- IH. rewrite !app_assoc. apply Permutation_app_tail. apply Permutation_app_comm.
Qed.

Lemma flat_map_map {A B C} (f : A -> B) (g : B -> list C) l :
  flat_map g (map f l) = flat_map (fun x => g (f x)) l.
Proof. induction l as [|x l IH]; [done|]. simpl. by rewrite IH. Qed.

Lemma parse_int_range lo hi s n : parse_int lo hi s = Some n -> (lo <= n <= hi)%Z.
Proof.
  unfold parse_int. destruct s as [|c s]; [done|].
  repeat case_match; try done; intros [= <-]; bools; lia.
Qed.

Lemma flat_map_ext_in {A B} (f g : A -> list B) l :
  (forall x, In x l -> f x = g x) -> flat_map f l = flat_map g l.
Proof.
  induction l as [|x l IH]; intros Hfg; [done|]. simpl. rewrite Hfg by (by left).
  rewrite IH; [done|]. intros y Hy. apply Hfg. by right.
Qed.

Lemma nodup_map_inj {A} (f : A -> str) (l : list A) x y :
  NoDup (map f l) -> In x l -> In y l -> f x = f y -> x = y.
Proof.
  induction l as [|z l IH]; [done|]. intros [Hz Hn]%NoDup_cons [->|Hx] [->|Hy] E; auto.
  - exfalso. apply Hz. rewrite E. apply list_elem_of_fmap. exists y. by rewrite list_elem_of_In.
  - exfalso. apply Hz. rewrite <- E. apply list_elem_of_fmap. exists x. by rewrite list_elem_of_In.
Qed.

Lemma per_call_cached inv res fs (exts : list ExtractorConfig) :
  NoDup (map ec_id exts) ->
  flat_map (per_call_facts (list_to_set (map ec_id (List.filter cacheable exts))) inv res fs) exts =
  flat_map (fun x => if cacheable x then [] else extractor_facts inv res fs x) exts.
Proof.
  intros Hn. apply flat_map_ext_in. intros x Hx. unfold per_call_facts.
  assert (Hiff : ec_id x ∈ (list_to_set (map ec_id (List.filter cacheable exts)) : gset str) <->
                 cacheable x = true).
  { rewrite elem_of_list_to_set, list_elem_of_fmap. split.
    - intros (y & E & Hy). apply list_elem_of_In, filter_In in Hy as [Hy Hc].
      by rewrite (nodup_map_inj ec_id exts x y Hn) by (done || by apply list_elem_of_In).
    - intros Hc. exists x. split; [done|]. apply list_elem_of_In, filter_In. done. }
  destruct (decide _) as [Hd|Hd]; rewrite Hiff in Hd; [by rewrite Hd|].
  destruct (cacheable x); done.
Qed.

Lemma execute_uncached c re inv res fs e :
  fst (execute_extractors (mkPipeline c re ∅ None) inv res fs e) =
  flat_map (extractor_facts inv res fs) (en_extractors e).
Proof.
  unfold execute_extractors, cached_instances. simpl. rewrite lookup_fmap, lookup_empty. simpl.
  apply flat_map_ext_in. intros x _. unfold per_call_facts.
  destruct (decide _) as [Hd|]; [|done]. by apply elem_of_empty in Hd.
Qed.

(** C14. The cache of validated patterns is transparent up to order: a pipeline
    whose cache was built from the catalog extracts, in whatever state of its
    lazily built instances, the same facts for each enricher of the catalog as a
    pipeline without cache, failing and unknown extractors included. *)
Theorem cache_transparent (es : list EnricherDescriptor) (p : FactPipeline)
    (e : EnricherDescriptor) inv res fs :
  from_enrichers es = Some (compiled_cache p) -> pipeline_ok p ->
  NoDup (map en_id es) -> e ∈ es -> NoDup (map ec_id (en_extractors e)) ->
  Permutation (fst (execute_extractors p inv res fs e))
              (fst (execute_extractors (FactPipeline_new (catalog p)) inv res fs e)).
Proof.
  intros Hes Hp Hn He Hx. unfold FactPipeline_new. rewrite execute_uncached.
  destruct (from_enrichers_loop_lookup ∅ es _ e Hes Hn) as [Hl _].
  destruct (Hl He) as (l & El & Ev). apply (validate_all_ok inv res fs) in Ev as [Hnames Hfacts].
  destruct (build_cached_extractors_ok p Hp) as (_ & _ & Hi).
  unfold execute_extractors. cbn [fst]. rewrite Hi, El.
  change (default [] (Some l)) with l. rewrite flat_map_map. cbv beta. rewrite Hfacts, map_map, Hnames.
  rewrite per_call_cached by done. apply flat_map_partition.
Qed.

(** ** The whole run *)

Lemma instance_signed i inv res fs f :
  f ∈ instance_extract i inv res fs -> source_extractor f = instance_name i.
Proof. destruct i as [e|e|e]; exact (extract_signed e inv res fs f). Qed.

Lemma extractor_facts_signed inv res fs config f :
  f ∈ extractor_facts inv res fs config -> source_extractor f = ec_id config.
Proof.
  unfold extractor_facts, run_extractor, RegexExtractor_with_merge_mode.
  destruct (str_eqb (ec_type config) (lit "regex")).
  { destruct (regex_new _); [intros Hf; by apply (extract_signed _ inv res fs) in Hf|by rewrite elem_of_nil]. }
  destruct (str_eqb (ec_type config) (lit "glob")); [intros Hf; by apply (extract_signed _ inv res fs) in Hf|].
  destruct (str_eqb (ec_type config) (lit "command")); [intros Hf; by apply (extract_signed _ inv res fs) in Hf|].
  by rewrite elem_of_nil.
Qed.

Lemma instance_of_name vp : instance_name (instance_of vp) = vp_extractor_id vp.
Proof. unfold instance_of. by repeat case_match. Qed.

(** The names under which an enricher's facts may be signed. *)
Definition extractor_names (p : FactPipeline) (e : EnricherDescriptor) : list str :=
  map vp_extractor_id (default [] (compiled_cache p !! en_id e)) ++ map ec_id (en_extractors e).

Lemma execute_signed p inv res fs e f :
  pipeline_ok p -> f ∈ fst (execute_extractors p inv res fs e) ->
  source_extractor f ∈ extractor_names p e.
Proof.
  intros Hp. destruct (build_cached_extractors_ok p Hp) as (_ & _ & Hi).
  unfold execute_extractors, extractor_names. cbn [fst]. rewrite Hi, !elem_of_app.
  rewrite !list_elem_of_In, !in_flat_map. intros [(i & Hin & Hf)|(x & Hin & Hf)].
  - left. apply list_elem_of_In in Hf. rewrite (instance_signed _ _ _ _ _ Hf).
    apply in_map_iff in Hin as (vp & <- & Hin). rewrite instance_of_name. by apply in_map.
  - right. unfold per_call_facts in Hf. destruct (decide _); [done|].
    apply list_elem_of_In in Hf. rewrite (extractor_facts_signed _ _ _ x f Hf). by apply in_map.
Qed.

(** The rule output of a run and the facts it derives. *)
Definition rules_of (p : FactPipeline) inv res (e : EnricherDescriptor) (facts : list Fact) : RuleOutput :=
  match rule_evaluator p with
  | Some evaluator => evaluator (en_id e) inv res facts
  | None => RuleOutput_empty
  end.

Lemma evaluate_and_normalize_eq p inv res e facts :
  evaluate_and_normalize p inv res e facts =
  (rules_of p inv res e facts,
   normalize_with_config normalizer_default (facts ++ derived_facts (rules_of p inv res e facts))
     (extractor_config_map (en_extractors e))).
Proof.
  unfold evaluate_and_normalize, rules_of. destruct (rule_evaluator p); [done|]. by rewrite app_nil_r.
Qed.

Lemma run_match now p inv res fs :
  pipeline_ok p ->
  run now p inv res fs =
  match List.find (enricher_matches (command inv)) (find_enrichers (catalog p) (command inv)) with
  | None => (Ok (no_match_context now), p)
  | Some e =>
      let facts := fst (execute_extractors p inv res fs e) in
      let output := rules_of p inv res e facts in
      (Ok (compose_context now
             (normalize_with_config normalizer_default (facts ++ derived_facts output)
                (extractor_config_map (en_extractors e))) e (verdict output)
             (match recommendations output with [] => None | r => Some r end)),
       build_cached_extractors p)
  end.
Proof.
  intros Hp. unfold run. rewrite select_enricher_find. destruct (List.find _ _) as [e|]; [|done].
  unfold execute_extractors. cbn [fst]. rewrite evaluate_and_normalize_eq.
  assert (forall facts, rules_of (build_cached_extractors p) inv res e facts = rules_of p inv res e facts)
    as -> by (intros; unfold rules_of, build_cached_extractors; by destruct (cached_extractors p)).
  done.
Qed.

(** C8. A run always succeeds and keeps the pipeline's invariant. It uses the
    first enabled enricher of the catalog's answer one of whose patterns matches
    the command, and answers with an empty context when there is none. Every
    fact of the context has confidence at least one half and was either derived
    by a rule or signed by one of that enricher's extractors; so the diagnostics
    of the command extractor never reach the agent. *)
Theorem run_spec (now : str) (p : FactPipeline) inv res fs :
  pipeline_ok p ->
  let '(r, p') := run now p inv res fs in
  pipeline_ok p' /\ compiled_cache p' = compiled_cache p /\
  match List.find (enricher_matches (command inv)) (find_enrichers (catalog p) (command inv)) with
  | None => r = Ok (no_match_context now)
  | Some e =>
      exists ctx, r = Ok ctx /\ em_enricher_id (ac_meta ctx) = en_id e /\
        let output := rules_of p inv res e (fst (execute_extractors p inv res fs e)) in
        ac_verdict ctx = verdict output /\
        default [] (ac_recommendations ctx) = recommendations output /\
        (forall f, f ∈ ac_facts ctx ->
           f_ge (confidence f) f32_half = true /\
           (f ∈ derived_facts output \/ source_extractor f ∈ extractor_names p e)) /\
        (forall f, f ∈ ac_artifacts ctx -> f ∈ ac_facts ctx) /\
        (forall key value source, diagnostic_fact key value source ∉ ac_facts ctx)
  end.
Proof.
  intros Hp. rewrite run_match by done. destruct (List.find _ _) as [e|]; [|done].
  destruct (build_cached_extractors_ok p Hp) as (Hp' & Hc & _).
  split; [done|]. split; [done|]. eexists. split; [done|]. split; [done|].
  cbv zeta. split; [done|]. split; [by destruct (recommendations _)|].
  split; [|split].
  - intros f [Hf Ha]%normalize_sub. split; [exact Ha|].
    apply elem_of_app in Hf as [Hf|Hf]; [right; by apply (execute_signed p inv res fs e)|by left].
  - intros f. simpl. rewrite !list_elem_of_In, filter_In. tauto.
  - intros key value source. apply diagnostic_dropped.
Qed.

(** The test summary is present exactly when some fact has the key
    [tests_run], whatever its value; each of its counts is a [u32], and is 0
    when its fact is missing or is not the decimal form of one. *)
Theorem test_summary_spec (facts : list Fact) :
  let count key := match composer_get_fact facts key with
                   | Some v => default 0%Z (parse_u32 v)
                   | None => 0%Z
                   end in
  (parse_test_summary facts = None <-> forall f, f ∈ facts -> f_key f ≠ lit "tests_run") /\
  forall ts, parse_test_summary facts = Some ts ->
    ts = mkSummary (count (lit "tests_run")) (count (lit "tests_failed"))
           (count (lit "tests_errors")) (count (lit "tests_skipped")) /\
    Forall (fun n => 0 <= n <= u32_max)%Z [ts_run ts; ts_failed ts; ts_errors ts; ts_skipped ts].
Proof.
  assert (Hr : forall s, (0 <= default 0 (parse_u32 s) <= u32_max)%Z).
  { intros s. destruct (parse_u32 s) as [n|] eqn:E; simpl; [|by cbv].
    by apply parse_int_range in E. }
  intros count. unfold parse_test_summary. split.
  - unfold composer_get_fact. destruct (List.find _ facts) as [f|] eqn:E; simpl.
    + split; [done|]. intros Hall. apply find_some in E as [Hin Hk]. bools.
      by apply list_elem_of_In, Hall in Hin.
    + split; [|done]. intros _ f Hf%list_elem_of_In Hk. apply (find_none _ _ E) in Hf.
      by rewrite Hk, str_eqb_refl in Hf.
  - intros ts. subst count. cbv beta.
    destruct (composer_get_fact facts (lit "tests_run")) as [s|]; [|done]. intros [= <-]. split.
    + by repeat match goal with |- context [composer_get_fact ?f ?k] => destruct (composer_get_fact f k) end.
    + repeat (apply Forall_cons_2; [simpl|]); try apply Forall_nil_2;
        try apply Hr; destruct (composer_get_fact _ _); try apply Hr; by cbv.
Qed.
End PipelineFacts.

(** ** Examples and witnesses *)

#[local] Existing Instances substring_engine substring_captures some_order.

(** A command extractor and a regex extractor that emit the same key: the later
    of the two wins, and the cache moves the regex extractor to the front. *)
Definition tie_enricher : EnricherDescriptor :=
  enricher (lit "maven") [lit "mvn"]
    [extractor_config (lit "cmd") (lit "command") [] [] (lit "single");
     extractor_config (lit "re") (lit "regex") (lit "BUILD") (lit "command_tool") (lit "single")].

Definition tie_catalog : CatalogRepository := mkCatalog (fun _ => [tie_enricher]) [tie_enricher].
Definition tie_invocation : OperationInvocation := mkInvocation (lit "mvn test") [] None ∅.
Definition tie_result : OperationResult := mkResult 0 (lit "BUILD SUCCESS") [] 10 false.
Definition no_files : FileSystem :=
  mkFileSystem (fun _ => Err (ErrFileSystem [])) (fun _ => Ok []).

Definition tie_cached : FactPipeline :=
  with_cache tie_catalog (default ∅ (from_enrichers [tie_enricher])).

Definition tool_of (r : result str AgentContext * FactPipeline) : option str :=
  match fst r with Ok ctx => composer_get_fact (ac_facts ctx) (lit "command_tool") | Err _ => None end.

(** The same catalog, command and output: the cache changes the answer. *)
Example cache_changes_tie :
  tool_of (run [] (FactPipeline_new tie_catalog) tie_invocation tie_result no_files) = Some (lit "BUILD") /\
  tool_of (run [] tie_cached tie_invocation tie_result no_files) = Some (lit "maven").
Proof. split; vm_compute; reflexivity. Qed.

Lemma cache_transparent_witness :
  Permutation (fst (execute_extractors tie_cached tie_invocation tie_result no_files tie_enricher))
    (fst (execute_extractors (FactPipeline_new (catalog tie_cached)) tie_invocation tie_result
            no_files tie_enricher)).
Proof.
  apply (cache_transparent [tie_enricher] tie_cached tie_enricher tie_invocation tie_result no_files).
  - reflexivity.
  - exact I.
  - apply NoDup_singleton.
  - apply list_elem_of_here.
  - simpl. constructor; [|apply NoDup_singleton]. intros E%list_elem_of_singleton. discriminate E.
Defined.

Lemma run_spec_witness :
  pipeline_ok tie_cached /\
  pipeline_ok (snd (run [] tie_cached tie_invocation tie_result no_files)).
Proof.
  split; [exact I|].
  pose proof (run_spec [] tie_cached tie_invocation tie_result no_files I) as Hs.
  destruct (run [] tie_cached tie_invocation tie_result no_files) as [r p'].
  destruct Hs as [Hp _]. exact Hp.
Defined.
