(* ===== verification/Render.v ===== *)
(** * Rendering and truncation

    Models [enrichment-engine/src/composer.rs], the interpolation of facts into
    a template, and [truncate.rs], the two truncations of command output.  The
    composer's regular expression is a constant of the source, so its matches
    are computed: two braces, the longest run of word characters, two braces.
    Which characters outside ASCII are word characters is a parameter. *)

From S2P Require Import Prelude RuleEval Pipeline.

(** ** Composer *)

(** The word characters ([\w]) outside ASCII. *)
Class WordTable := uni_word : N -> bool.

Definition is_word `{WordTable} (c : char) : bool :=
  is_ascii_alphanumeric c || (c =? 95)%N || ((128 <=? c)%N && uni_word c).

Definition lbrace : char := 123%N.
Definition rbrace : char := 125%N.

Section Composer.
Context `{WordTable}.

(** A match of the placeholder expression at the start of [s]: the key, and
    what follows the match. *)
Definition placeholder_at (s : str) : option (str * str) :=
  match s with
  | c1 :: c2 :: s' =>
      if (c1 =? lbrace)%N && (c2 =? lbrace)%N then
        let '(w, rest) := span is_word s' in
        match w, rest with
        | _ :: _, d1 :: d2 :: rest' =>
            if (d1 =? rbrace)%N && (d2 =? rbrace)%N then Some (w, rest') else None
        | _, _ => None
        end
      else None
  | _ => None
  end.

(** [collect] into a map: of the facts with one key the last counts. *)
Definition value_map (facts : list Fact) : gmap str str :=
  fold_left (fun m f => <[f_key f := f_value f]> m) facts ∅.

(** [replace_all]: the matches from left to right, without overlap. *)
Fixpoint replace_all (fuel : nat) (m : gmap str str) (s : str) : option str :=
  match s with
  | [] => Some []
  | c :: s' =>
      match fuel with
      | O => None
      | S f =>
          match placeholder_at s with
          | Some (key, rest) => option_map (fun r => default [] (m !! key) ++ r) (replace_all f m rest)
          | None => option_map (cons c) (replace_all f m s')
          end
      end
  end.

Definition compose (template : str) (facts : list Fact) : option str :=
  replace_all (length template) (value_map facts) template.

(** ** Templates as data *)

Inductive segment := Text (s : str) | Key (k : str).

(** The text of a template. *)
Definition template_of (segs : list segment) : str :=
  flat_map (fun g => match g with
                     | Text s => s
                     | Key k => lbrace :: lbrace :: k ++ [rbrace; rbrace]
                     end) segs.

(** The last value of a key, or nothing. *)
Definition last_value (facts : list Fact) (k : str) : str :=
  match List.find (fun f => str_eqb (f_key f) k) (rev facts) with Some f => f_value f | None => [] end.

(** What it should render to. *)
Definition rendered (facts : list Fact) (segs : list segment) : str :=
  flat_map (fun g => match g with Text s => s | Key k => last_value facts k end) segs.

Definition segment_ok (g : segment) : Prop :=
  match g with
  | Text s => lbrace ∉ s
  | Key k => k ≠ [] /\ Forall (fun c => is_word c = true) k
  end.

Lemma value_map_lookup facts k : default [] (value_map facts !! k) = last_value facts k.
Proof.
  unfold value_map, last_value. induction facts as [|f facts IH] using rev_ind; [done|].
  rewrite fold_left_app, rev_app_distr. simpl. destruct (decide (f_key f = k)) as [<-|Hne].
  - by rewrite lookup_insert_eq, str_eqb_refl.
  - rewrite lookup_insert_ne, str_eqb_neq by done. exact IH.
Qed.

Lemma placeholder_rest s key rest : placeholder_at s = Some (key, rest) -> length rest < length s.
Proof.
  unfold placeholder_at. destruct s as [|c1 [|c2 s]]; try done.
  destruct (_ && _)%bool; [|done]. pose proof (span_le is_word s) as Hl.
  destruct (span is_word s) as [[|w0 w] [|d1 [|d2 r]]]; try done.
  destruct (_ && _)%bool; [|done]. intros [= _ <-]. simpl in *. lia.
Qed.

Lemma replace_all_total fuel m s : length s <= fuel -> exists r, replace_all fuel m s = Some r.
Proof.
  revert s. induction fuel as [|f IH]; intros s Hl; (destruct s as [|c s]; [by exists []|]);
    simpl in Hl; [lia|]. cbn [replace_all].
  destruct (placeholder_at (c :: s)) as [[key rest]|] eqn:E.
  - apply placeholder_rest in E. simpl in E. destruct (IH rest ltac:(lia)) as [r ->]. by eexists.
  - destruct (IH s ltac:(lia)) as [r ->]. by eexists.
Qed.

Lemma compose_total template facts : exists r, compose template facts = Some r.
Proof. by apply replace_all_total. Qed.

Lemma rbrace_not_word : is_word rbrace = false.
Proof. done. Qed.

Lemma placeholder_key k s :
  k ≠ [] -> Forall (fun c => is_word c = true) k ->
  placeholder_at (lbrace :: lbrace :: (k ++ [rbrace; rbrace]) ++ s) = Some (k, s).
Proof.
  intros Hk Hw. unfold placeholder_at. rewrite !N.eqb_refl. cbn [andb].
  rewrite <- app_assoc. simpl app. rewrite span_block by done.
  destruct k as [|c k]; [done|]. by rewrite !N.eqb_refl.
Qed.

Lemma placeholder_text c s : c ≠ lbrace -> placeholder_at (c :: s) = None.
Proof.
  intros Hc. unfold placeholder_at. destruct s as [|d s]; [done|].
  by rewrite (proj2 (N.eqb_neq _ _) Hc).
Qed.

Lemma replace_all_text fuel m t s :
  lbrace ∉ t -> replace_all (length t + fuel) m (t ++ s) = option_map (app t) (replace_all fuel m s).
Proof.
  induction t as [|c t IH]; intros Ht; [simpl; by destruct (replace_all fuel m s)|].
  apply not_elem_of_cons in Ht as [Hc Ht]. simpl app. simpl length. cbn [Nat.add replace_all].
  rewrite placeholder_text by congruence. rewrite IH by done. by destruct (replace_all fuel m s).
Qed.

Lemma replace_all_more fuel n m s r :
  replace_all fuel m s = Some r -> replace_all (fuel + n) m s = Some r.
Proof.
  revert s r. induction fuel as [|f IH]; intros s r; (destruct s as [|c s]; [by destruct n|]); [done|].
  cbn [Nat.add replace_all]. destruct (placeholder_at (c :: s)) as [[key rest]|].
  - destruct (replace_all f m rest) as [x|] eqn:E; [|done]. by rewrite (IH _ _ E).
  - destruct (replace_all f m s) as [x|] eqn:E; [|done]. by rewrite (IH _ _ E).
Qed.

Lemma replace_all_segments facts segs :
  Forall segment_ok segs ->
  replace_all (length (template_of segs)) (value_map facts) (template_of segs) =
    Some (rendered facts segs).
Proof.
  induction 1 as [|g segs Hg Hs IH]; [done|].
  unfold template_of, rendered. cbn [flat_map]. fold (template_of segs) (rendered facts segs).
  rewrite length_app. destruct g as [t|k]; simpl in Hg.
  - rewrite replace_all_text by done. by rewrite IH.
  - destruct Hg as [Hk Hw]. simpl length. cbn [Nat.add app].
    replace (S (length (k ++ [rbrace; rbrace]) + length (template_of segs)))
      with (length (template_of segs) + S (length (k ++ [rbrace; rbrace]))) by lia.
    cbn [replace_all]. rewrite placeholder_key by done.
    rewrite (replace_all_more _ _ _ _ _ IH). simpl. by rewrite value_map_lookup.
Qed.
End Composer.

(** Rendering: a template made of texts without an opening brace and of
    placeholders is rendered, and every placeholder is replaced by the value of
    the last fact with its key, or by nothing; the values are inserted as they
    are, braces and placeholders in them included. *)
Theorem compose_spec `{WordTable} (segs : list segment) (facts : list Fact) :
  Forall segment_ok segs -> compose (template_of segs) facts = Some (rendered facts segs).
Proof. apply replace_all_segments. Qed.

(** ** Truncation *)

Definition ellipsis : char := 8230%N.

(** The loop over [char_indices]; [i] is the byte index of the next character. *)
Fixpoint truncate_loop (limit : nat) (i : N) (s truncated : str) : str :=
  match s with
  | [] => truncated
  | c :: s' =>
      if (i =? 0)%N then truncate_loop limit (i + len_utf8 c) s' (truncated ++ [c])
      else if Nat.ltb (length truncated) limit
        then truncate_loop limit (i + len_utf8 c) s' (truncated ++ [c])
      else truncated
  end.

Definition truncate_string (s : str) (limit : nat) : option str :=
  if Nat.eqb limit 0 then None
  else match trim s with
       | [] => None
       | _ =>
           if Nat.leb (length s) limit then Some s
           else Some (truncate_loop limit 0 s [] ++ [ellipsis])
       end.

Definition truncate_string_at (s : str) (limit : nat) : option str :=
  if Nat.eqb limit 0 then None
  else match trim s with
       | [] => None
       | _ =>
           if Nat.leb (length s) limit then Some s
           else Some (take limit s ++ [ellipsis])
       end.

Lemma truncate_loop_take limit i s acc :
  i ≠ 0%N -> truncate_loop limit i s acc = acc ++ take (limit - length acc) s.
Proof.
  revert i acc. induction s as [|c s IH]; intros i acc Hi; simpl; [by rewrite take_nil, app_nil_r|].
  rewrite (proj2 (N.eqb_neq _ _) Hi). destruct (Nat.ltb_spec (length acc) limit) as [Hl|Hl].
  - rewrite IH by (pose proof (len_utf8_pos c); lia).
    rewrite length_app, <- app_assoc. simpl length.
    replace (limit - length acc) with (S (limit - (length acc + 1))) by lia. done.
  - replace (limit - length acc) with 0 by lia. by rewrite app_nil_r.
Qed.

Lemma truncate_loop_first limit s :
  0 < limit -> truncate_loop limit 0 s [] = take limit s.
Proof.
  intros Hl. destruct s as [|c s]; [by rewrite take_nil|]. cbn [truncate_loop app].
  rewrite N.eqb_refl, truncate_loop_take by (pose proof (len_utf8_pos c); lia).
  destruct limit as [|n]; [lia|]. simpl. by rewrite Nat.sub_0_r.
Qed.

(** The two truncations are the same function: the alternative one has no
    regard for word boundaries either. *)
Theorem truncate_same (s : str) (limit : nat) : truncate_string s limit = truncate_string_at s limit.
Proof.
  unfold truncate_string, truncate_string_at. destruct (Nat.eqb_spec limit 0) as [|Hl]; [done|].
  destruct (trim s); [done|]. destruct (Nat.leb _ _); [done|]. by rewrite truncate_loop_first by lia.
Qed.

(** Truncation stores nothing exactly for a zero limit or a blank text;
    otherwise it stores the text itself when it fits, or else its first [limit]
    characters and an ellipsis: never more than [limit + 1] characters. *)
Theorem truncate_spec (s : str) (limit : nat) :
  match truncate_string s limit with
  | None => limit = 0 \/ trim s = []
  | Some t =>
      0 < limit /\ trim s ≠ [] /\ length t <= limit + 1 /\
      ((length s <= limit /\ t = s) \/
       (limit < length s /\ t = take limit s ++ [ellipsis]))
  end.
Proof.
  unfold truncate_string. destruct (Nat.eqb_spec limit 0) as [|Hl]; [by left|].
  destruct (trim s) as [|x l]; [by right|]. destruct (Nat.leb_spec (length s) limit).
  - repeat split; try (done || lia). by left.
  - rewrite truncate_loop_first by lia. rewrite length_app, length_take. simpl.
    repeat split; try (done || lia). by right.
Qed.

(** ** Witnesses *)

Definition ascii_words : WordTable := fun _ => false.

Definition sample_segments : list segment := [Text (lit "Build "); Key (lit "status"); Text (lit "!")].

Lemma compose_witness :
  @compose ascii_words (template_of sample_segments)
    [mkFact (lit "status") (lit "{{x}}") [] [] f32_one] = Some (lit "Build {{x}}!").
Proof.
  apply (@compose_spec ascii_words sample_segments [mkFact (lit "status") (lit "{{x}}") [] [] f32_one]).
  repeat (apply Forall_cons_2 || apply Forall_nil_2); simpl.
  - apply existsb_not_elem. reflexivity.
  - split; [discriminate|]. repeat constructor.
  - apply existsb_not_elem. reflexivity.
Defined.
