(* ===== verification/Metrics.v ===== *)
(** * Metrics of the enrichment engine

    Models [enrichment-engine/src/metrics.rs]: the counters, the latencies and
    the ring of completion times of [EnrichmentMetrics], its percentiles and its
    snapshot.  Each counter is an [AtomicU64] and wraps; the readings of the
    clock are arguments, in nanoseconds, and every method is one step, as the
    ring is only touched under its lock. *)

From Stdlib Require Import Sorted.
From stdpp Require Import sorting.
From S2P Require Import Prelude.

Definition RING_CAPACITY : nat := Z.to_nat 10000.

(** Five minutes. *)
Definition window : Z := 300000000000.

Record EnrichmentMetrics := mkMetrics {
  total_success : Z; total_failure : Z; saturation_drops : Z; facts_total : Z;
  latencies : list Z; run_timestamps : list Z
}.

Definition EnrichmentMetrics_new : EnrichmentMetrics := mkMetrics 0 0 0 0 [] [].

(** [fetch_add] on an [AtomicU64]. *)
Definition fetch_add (c n : Z) : Z := as_u64 (c + n).

Fixpoint prune_old (timestamps : list Z) (now : Z) : list Z :=
  match timestamps with
  | [] => []
  | t :: ts => if (t <? now - window)%Z then prune_old ts now else timestamps
  end.

(** The loop that drops the oldest times beyond the capacity. *)
Definition cap_ring (timestamps : list Z) : list Z :=
  drop (length timestamps - RING_CAPACITY) timestamps.

(** A completed run: the time pushed is one reading of the clock, the pruning
    takes a second one. *)
Definition push_run (pushed now : Z) (timestamps : list Z) : list Z :=
  cap_ring (prune_old (timestamps ++ [pushed]) now).

Definition record_success (pushed now : Z) (m : EnrichmentMetrics) : EnrichmentMetrics :=
  mkMetrics (fetch_add (total_success m) 1) (total_failure m) (saturation_drops m) (facts_total m)
    (latencies m) (push_run pushed now (run_timestamps m)).

Definition record_failure (pushed now : Z) (m : EnrichmentMetrics) : EnrichmentMetrics :=
  mkMetrics (total_success m) (fetch_add (total_failure m) 1) (saturation_drops m) (facts_total m)
    (latencies m) (push_run pushed now (run_timestamps m)).

Definition recent_runs_5min (now : Z) (m : EnrichmentMetrics) : Z * EnrichmentMetrics :=
  let ts := prune_old (run_timestamps m) now in
  (Z.of_nat (length ts),
   mkMetrics (total_success m) (total_failure m) (saturation_drops m) (facts_total m)
     (latencies m) ts).

Definition record_saturation_drop (m : EnrichmentMetrics) : EnrichmentMetrics :=
  mkMetrics (total_success m) (total_failure m) (fetch_add (saturation_drops m) 1) (facts_total m)
    (latencies m) (run_timestamps m).

Definition record_facts (count : Z) (m : EnrichmentMetrics) : EnrichmentMetrics :=
  mkMetrics (total_success m) (total_failure m) (saturation_drops m) (fetch_add (facts_total m) count)
    (latencies m) (run_timestamps m).

Definition record_latency (elapsed_ms : Z) (m : EnrichmentMetrics) : EnrichmentMetrics :=
  mkMetrics (total_success m) (total_failure m) (saturation_drops m) (facts_total m)
    (latencies m ++ [elapsed_ms]) (run_timestamps m).

(** [None] is an index out of range, which panics. *)
Definition percentile (sorted : list Z) (p : Z) : option (option Z) :=
  match sorted with
  | [] => Some None
  | [x] => Some (Some x)
  | _ =>
      let rank := f64_mul (f64_div (f64_of_Z p) (f64_of_Z 100))
                    (f64_sub (f64_of_Z (Z.of_nat (length sorted))) (f64_of_Z 1)) in
      let lower := f64_floor rank in
      let upper := f64_ceil rank in
      if (lower =? upper)%Z then option_map Some (sorted !! Z.to_nat lower)
      else
        let weight := f64_sub rank (f64_of_Z lower) in
        match sorted !! Z.to_nat lower, sorted !! Z.to_nat upper with
        | Some a, Some b =>
            Some (Some (f64_as_u64
              (f64_add (f64_mul (f64_of_Z a) (f64_sub (f64_of_Z 1) weight))
                 (f64_mul (f64_of_Z b) weight))))
        | _, _ => None
        end
  end.

Record EnrichmentMetricsSnapshot := mkSnapshot {
  sn_total_success : Z; sn_total_failure : Z; sn_saturation_drops : Z; sn_facts_total : Z;
  p50_latency_ms : option Z; p99_latency_ms : option Z
}.

Definition snapshot_zero : EnrichmentMetricsSnapshot := mkSnapshot 0 0 0 0 None None.

Definition snapshot (m : EnrichmentMetrics) : option EnrichmentMetricsSnapshot :=
  match percentile (latencies m) 50, percentile (latencies m) 99 with
  | Some p50, Some p99 =>
      Some (mkSnapshot (total_success m) (total_failure m) (saturation_drops m) (facts_total m) p50 p99)
  | _, _ => None
  end.

Record EnrichmentHealth := mkHealth {
  h_enabled : bool; h_catalog_enricher_count : Z; h_recent_runs_5min : Z;
  h_saturation_events : Z; h_db_row_count : option Z; h_recorder_available : bool
}.

Definition EnrichmentHealth_disabled : EnrichmentHealth := mkHealth false 0 0 0 None false.

(** ** Percentiles

    The percentiles are taken by position in the latencies, which are in order
    of arrival: the same three latencies have three medians. *)

Definition with_latencies (ls : list Z) : EnrichmentMetrics :=
  fold_left (fun m l => record_latency l m) ls EnrichmentMetrics_new.

Example median_depends_on_order :
  (option_map p50_latency_ms (snapshot (with_latencies [10; 20; 1000]%Z)),
   option_map p50_latency_ms (snapshot (with_latencies [20; 1000; 10]%Z)),
   option_map p50_latency_ms (snapshot (with_latencies [20; 10; 1000]%Z))) =
  (Some (Some 20), Some (Some 1000), Some (Some 10))%Z.
Proof. vm_compute. reflexivity. Qed.

Example snapshot_empty : snapshot EnrichmentMetrics_new = Some snapshot_zero.
Proof. reflexivity. Qed.

(** ** The ring of completion times *)

(** The operations, with their readings of the clock. *)
Inductive metrics_op :=
| OpSuccess (pushed now : Z)
| OpFailure (pushed now : Z)
| OpRecent (now : Z)
| OpDrop
| OpFacts (count : Z)
| OpLatency (elapsed_ms : Z).

Definition metrics_step (op : metrics_op) (m : EnrichmentMetrics) : EnrichmentMetrics :=
  match op with
  | OpSuccess pushed now => record_success pushed now m
  | OpFailure pushed now => record_failure pushed now m
  | OpRecent now => snd (recent_runs_5min now m)
  | OpDrop => record_saturation_drop m
  | OpFacts n => record_facts n m
  | OpLatency l => record_latency l m
  end.

Definition metrics_run (ops : list metrics_op) : EnrichmentMetrics :=
  fold_left (fun m op => metrics_step op m) ops EnrichmentMetrics_new.

(** The completion times of a history, in order. *)
Definition completions (ops : list metrics_op) : list Z :=
  flat_map (fun op => match op with OpSuccess t _ | OpFailure t _ => [t] | _ => [] end) ops.

(** The clock readings of a history. *)
Definition readings (ops : list metrics_op) : list Z :=
  flat_map (fun op => match op with
                      | OpSuccess t now | OpFailure t now => [t; now]
                      | OpRecent now => [now]
                      | _ => []
                      end) ops.

Definition recent (now t : Z) : bool := (now - window <=? t)%Z.

Lemma prune_old_split ts now :
  exists a, ts = a ++ prune_old ts now /\ Forall (fun t => t < now - window)%Z a /\
    match prune_old ts now with [] => True | t :: _ => (now - window <= t)%Z end.
Proof.
  induction ts as [|t ts (a & E & Ha & Hh)]; [by exists []|]. simpl.
  destruct (t <? now - window)%Z eqn:Et; bools.
  - exists (t :: a). simpl. rewrite <- E. split; [done|]. split; [by constructor|done].
  - exists []. done.
Qed.

(** What the ring holds after the completions [h], the last reading of the clock
    being [last]: a suffix of [h]; what is missing is old, or the ring is full. *)
Definition ring_ok (cap : nat) (h : list Z) (last : Z) (ts : list Z) : Prop :=
  exists d, h = d ++ ts /\ length ts <= cap /\
    (Forall (fun t => t < last - window)%Z d \/ length ts = cap).

Lemma ring_prune cap h last now ts :
  StronglySorted Z.le h -> (last <= now)%Z -> ring_ok cap h last ts ->
  ring_ok cap h now (prune_old ts now).
Proof.
  intros Hs Hl (d & -> & Hc & Hd). destruct (prune_old_split ts now) as (a & E & Ha & _).
  set (b := prune_old ts now) in *. clearbody b. subst ts. rewrite length_app in *.
  exists (d ++ a). split; [by rewrite app_assoc|]. split; [lia|].
  destruct a as [|x a].
  - rewrite app_nil_r. simpl in *. destruct Hd as [Hd|Hd]; [left|by right].
    eapply Forall_impl; [exact Hd|]. simpl. lia.
  - left. apply Forall_app. split; [|done]. apply Forall_forall. intros y Hy.
    apply Forall_cons in Ha as [Hx _]. enough (y <= x)%Z by lia.
    apply (StronglySorted_app_1_elem_of Z.le d ((x :: a) ++ b)); [done|done|apply list_elem_of_here].
Qed.

Lemma ring_push cap h last t ts :
  ring_ok cap h last ts -> ring_ok (S cap) (h ++ [t]) last (ts ++ [t]).
Proof.
  intros (d & -> & Hc & Hd). exists d. rewrite length_app. simpl. split; [by rewrite app_assoc|].
  split; [lia|]. destruct Hd as [Hd|Hd]; [by left|right; lia].
Qed.

Lemma ring_cap h last ts :
  ring_ok (S RING_CAPACITY) h last ts -> ring_ok RING_CAPACITY h last (cap_ring ts).
Proof.
  intros (d & -> & Hc & Hd). unfold cap_ring. generalize dependent RING_CAPACITY. intros C Hc Hd.
  destruct (decide (length ts <= C)) as [Hle|Hgt].
  - replace (length ts - C) with 0 by lia. rewrite drop_0. exists d. split; [done|]. split; [done|].
    destruct Hd; [by left|lia].
  - exists (d ++ take (length ts - C) ts). split; [by rewrite <- app_assoc, take_drop|].
    rewrite length_drop. split; [lia|]. right. lia.
Qed.

Lemma metrics_run_snoc ops op : metrics_run (ops ++ [op]) = metrics_step op (metrics_run ops).
Proof. unfold metrics_run. by rewrite fold_left_app. Qed.

Lemma ring_later cap h last now ts :
  (last <= now)%Z -> ring_ok cap h last ts -> ring_ok cap h now ts.
Proof.
  intros Hl (d & E & Hc & Hd). exists d. split; [done|]. split; [done|].
  destruct Hd as [Hd|Hd]; [left|by right]. eapply Forall_impl; [exact Hd|]. simpl. lia.
Qed.

Lemma ring_push_run h last pushed now ts :
  StronglySorted Z.le (h ++ [pushed]) -> (last <= now)%Z ->
  ring_ok RING_CAPACITY h last ts ->
  ring_ok RING_CAPACITY (h ++ [pushed]) now (push_run pushed now ts).
Proof.
  intros Hs Hl Hr. unfold push_run. apply ring_cap. apply (ring_prune _ _ last); [done|done|].
  by apply ring_push.
Qed.

Lemma completions_sub ops t : t ∈ completions ops -> t ∈ readings ops.
Proof.
  unfold completions, readings. rewrite !list_elem_of_In, !in_flat_map.
  intros (op & Hop & Ht). exists op. split; [done|]. destruct op; simpl in *; tauto.
Qed.

Lemma completions_sorted ops : StronglySorted Z.le (readings ops) -> StronglySorted Z.le (completions ops).
Proof.
  unfold readings, completions.
  induction ops as [|op ops IH]; intros Hs; [constructor|]. simpl in *.
  apply StronglySorted_app in Hs as (Hx & Ha & Hb).
  apply StronglySorted_app. split; [|split; [|by apply IH]].
  - intros x y Hxin Hy. apply Hx; [|by apply completions_sub].
    destruct op; simpl in *; try (by apply elem_of_nil in Hxin);
      apply list_elem_of_singleton in Hxin as ->; apply list_elem_of_here.
  - destruct op; repeat constructor.
Qed.

Lemma metrics_ring ops last :
  StronglySorted Z.le (readings ops) -> Forall (fun t => t <= last)%Z (readings ops) ->
  ring_ok RING_CAPACITY (completions ops) last (run_timestamps (metrics_run ops)).
Proof.
  revert last. induction ops as [|op ops IH] using rev_ind; intros last Hs Hl.
  { exists []. split; [done|]. split; [simpl; lia|by left]. }
  rewrite metrics_run_snoc. pose proof (completions_sorted _ Hs) as Hcs.
  unfold readings, completions in *. rewrite flat_map_app in Hs, Hl, Hcs |- *. simpl in Hs, Hl, Hcs |- *.
  rewrite app_nil_r in *. apply Forall_app in Hl as [Hl Hop].
  apply StronglySorted_app in Hs as (Hx & Hs & Hsop).
  assert (Hbefore : forall x, x ∈ flat_map (fun op => match op with
                      | OpSuccess t now | OpFailure t now => [t; now]
                      | OpRecent now => [now] | _ => [] end) [op] ->
            ring_ok RING_CAPACITY (completions ops) x (run_timestamps (metrics_run ops))).
  { intros x Hin. simpl in Hin. rewrite app_nil_r in Hin. apply IH; [done|].
    apply Forall_forall. intros y Hy. by apply Hx. }
  simpl in Hbefore. rewrite app_nil_r in Hbefore.
  destruct op; simpl in *; try (rewrite app_nil_r; by apply IH).
  all: repeat match goal with H : Forall _ (_ :: _) |- _ => apply Forall_cons in H as [? H] end.
  1,2: apply (ring_later _ _ now); [done|]; apply (ring_push_run _ pushed); [done| |apply Hbefore, list_elem_of_here];
    by apply StronglySorted_inv in Hsop as [_ Hf]; apply Forall_cons in Hf as [? _].
  rewrite app_nil_r. apply (ring_later _ _ now); [done|].
  apply (ring_prune _ _ now); [by rewrite app_nil_r in Hcs|lia|]. apply Hbefore, list_elem_of_here.
Qed.

Lemma filter_recent_old now l :
  Forall (fun t => t < now - window)%Z l -> List.filter (recent now) l = [].
Proof.
  induction 1 as [|t l Ht Hl IH]; [done|]. simpl. unfold recent at 1.
  by rewrite (proj2 (Z.leb_gt _ _) Ht).
Qed.

Lemma filter_recent_all now t l :
  StronglySorted Z.le (t :: l) -> (now - window <= t)%Z -> List.filter (recent now) (t :: l) = t :: l.
Proof.
  intros Hs Ht. apply StronglySorted_inv in Hs as [_ Hf].
  simpl. unfold recent at 1. rewrite (proj2 (Z.leb_le _ _) Ht). f_equal.
  induction Hf as [|x l Hx Hl IH]; [done|]. simpl. unfold recent at 1.
  rewrite (proj2 (Z.leb_le _ _)) by lia. by f_equal.
Qed.

(** Over any history of operations whose clock does not go back,
    [recent_runs_5min] answers the number of runs completed in the last five
    minutes, up to the capacity of the ring: pruning and capping lose no run
    that counts, and the ring stays within its capacity. *)
Theorem recent_runs_spec (ops : list metrics_op) (now : Z) :
  StronglySorted Z.le (readings ops ++ [now]) ->
  length (run_timestamps (metrics_run ops)) <= RING_CAPACITY /\
  fst (recent_runs_5min now (metrics_run ops)) =
    Z.of_nat (Nat.min RING_CAPACITY (length (List.filter (recent now) (completions ops)))).
Proof.
  intros Hs. apply StronglySorted_app in Hs as (Hx & Hs & _).
  pose proof (completions_sorted _ Hs) as Hcs.
  assert (Hr : ring_ok RING_CAPACITY (completions ops) now (run_timestamps (metrics_run ops))).
  { apply metrics_ring; [done|]. apply Forall_forall. intros y Hy. apply Hx; [done|apply list_elem_of_here]. }
  split; [by destruct Hr as (d & _ & Hc & _)|].
  unfold recent_runs_5min. cbn [fst]. f_equal.
  apply (ring_prune _ _ now now) in Hr; [|done|lia].
  destruct (prune_old_split (run_timestamps (metrics_run ops)) now) as (_ & _ & _ & Hh).
  destruct Hr as (d & E & Hc & Hd). generalize dependent RING_CAPACITY. intros C Hc Hd.
  rewrite E in Hcs |- *. apply StronglySorted_app in Hcs as (_ & _ & Hts).
  set (b := prune_old _ now) in *. clearbody b.
  assert (Hb : List.filter (recent now) b = b).
  { destruct b as [|t l]; [done|]. by apply filter_recent_all. }
  rewrite List.filter_app, length_app, Hb.
  destruct Hd as [Hd|Hd]; [rewrite filter_recent_old by done; simpl; lia|lia].
Qed.

(** ** Witness *)

Definition sample_history : list metrics_op :=
  [OpSuccess 0 1; OpLatency 5; OpFailure 100000000000 100000000000; OpSuccess 200000000000 200000000001]%Z.

Lemma recent_runs_witness :
  length (run_timestamps (metrics_run sample_history)) <= RING_CAPACITY /\
  fst (recent_runs_5min 350000000000 (metrics_run sample_history)) =
    Z.of_nat (Nat.min RING_CAPACITY
      (length (List.filter (recent 350000000000) (completions sample_history)))).
Proof.
  apply (recent_runs_spec sample_history 350000000000). simpl.
  repeat (constructor; [|repeat (constructor; [lia|]); constructor]). constructor.
Defined.
