(* ===== verification/RunStore.v ===== *)
(** * The store of enrichment runs

    Models the telemetry of the enrichment engine: the record of a run
    ([models/run_record.rs], [models/utility_metrics.rs]), the retention policy
    and the statistics ([models/mod.rs]), and the worker of
    [bastion-infrastructure/src/enrichment/sqlite_worker.rs] that owns the
    database: its commands, its loop, and what its SQL statements do to the one
    table.

    The table is a finite map from the primary key to the row.  A statement may
    fail ([db_error], an argument); rows with equal timestamps come out of an
    [ORDER BY] in any order ([SqlOrder], of which only the law is known).  Text
    compares by bytes, which for UTF-8 is the order of the code points.  A
    double that is NaN is stored as NULL. *)

From Stdlib Require Import Sorted SpecFloat.
From stdpp Require Import sorting.
From S2P Require Import Prelude Utf8 Extractors Sanitizer.

(** ** Records *)

Record EnrichmentRunRecord := mkRun {
  run_id : str; run_timestamp : str; run_command : str; run_enricher_id : str; run_exit_code : Z;
  run_duration_ms : Z; output_summary_stdout : option str; output_summary_stderr : option str;
  facts_count : Z; derived_facts_count : Z; rule_hits_count : Z; diagnostics_count : Z;
  artifact_count : Z; confidence_avg : float; run_verdict : option str;
  recommendation_count : Z; run_error : option str
}.

Record UtilityMetrics := mkUtility {
  um_facts_count : Z; um_derived_facts_count : Z; um_rule_hits_count : Z; um_diagnostics_count : Z;
  um_artifact_count : Z; aggregate_confidence : float; verdict_present : bool;
  um_recommendation_count : Z; elapsed_ms : Z; errored : bool
}.

Definition from_run (r : EnrichmentRunRecord) : UtilityMetrics :=
  mkUtility (facts_count r) (derived_facts_count r) (rule_hits_count r) (diagnostics_count r)
    (artifact_count r) (confidence_avg r) (match run_verdict r with Some _ => true | None => false end)
    (recommendation_count r) (run_duration_ms r) (match run_error r with Some _ => true | None => false end).

Record RetentionConfig := mkRetention {
  max_age_days : Z; max_rows : Z; retention_enabled : bool; sanitize : bool
}.
Definition RetentionConfig_default : RetentionConfig := mkRetention 90 100000 true true.

Record RunRecorderStats := mkStats {
  current_row_count : Z; oldest_record_ts : option str; newest_record_ts : option str
}.
Definition RunRecorderStats_empty : RunRecorderStats := mkStats 0 None None.

(** ** The table *)

Record Row := mkRow {
  c_id : str; c_timestamp : str; c_command : bytes; c_enricher_id : str; c_exit_code : Z;
  c_duration_ms : Z; c_stdout : option str; c_stderr : option str; c_facts : Z; c_derived : Z;
  c_hits : Z; c_diagnostics : Z; c_artifacts : Z; c_confidence : option float; c_verdict : option str;
  c_recommendations : Z; c_error : option str
}.

Abbreviation Table := (gmap str Row).

Inductive statement :=
| InsertRun | DeleteOld | CountRows | DeleteExcess | MinTimestamp | MaxTimestamp
| PrepareRuns | QueryRuns | FetchRow.

(** The text of the error of a statement that fails. *)
Definition Db : Type := statement -> option str.
Definition db_ok : Db := fun _ => None.

(** [<] on text columns. *)
Fixpoint str_ltb (a b : str) : bool :=
  match a, b with
  | [], [] => false
  | [], _ :: _ => true
  | _ :: _, [] => false
  | x :: a', y :: b' => (x <? y)%N || ((x =? y)%N && str_ltb a' b')
  end.

Definition ts_le (a b : str * Row) : Prop := str_ltb (c_timestamp (snd b)) (c_timestamp (snd a)) = false.

Class SqlOrder := {
  by_timestamp : list (str * Row) -> list (str * Row);
  by_timestamp_perm : forall l, Permutation (by_timestamp l) l;
  by_timestamp_sorted : forall l, StronglySorted ts_le (by_timestamp l)
}.

(** The binding of a double. *)
Definition bind_f64 (x : float) : option float := match x with S754_nan => None | _ => Some x end.

(** The row of the [INSERT]; [command] is the text to store. *)
Definition row_of (run : EnrichmentRunRecord) (command : bytes) : Row :=
  mkRow (run_id run) (run_timestamp run) command (run_enricher_id run) (run_exit_code run)
    (as_i64 (run_duration_ms run)) (output_summary_stdout run) (output_summary_stderr run)
    (as_i32 (facts_count run)) (as_i32 (derived_facts_count run)) (as_i32 (rule_hits_count run))
    (as_i32 (diagnostics_count run)) (as_i32 (artifact_count run)) (bind_f64 (confidence_avg run))
    (run_verdict run) (as_i32 (recommendation_count run)) (run_error run).

(** A row that does not decode is skipped by its readers. *)
Definition row_to_record (r : Row) : option EnrichmentRunRecord :=
  match from_utf8 (c_command r), c_confidence r with
  | Some command, Some confidence =>
      Some (mkRun (c_id r) (c_timestamp r) command (c_enricher_id r) (c_exit_code r)
        (as_u64 (c_duration_ms r)) (c_stdout r) (c_stderr r) (as_u32 (c_facts r)) (as_u32 (c_derived r))
        (as_u32 (c_hits r)) (as_u32 (c_diagnostics r)) (as_u32 (c_artifacts r)) confidence
        (c_verdict r) (as_u32 (c_recommendations r)) (c_error r))
  | _, _ => None
  end.

Definition recorder_error (what e : str) : EnrichmentError := ErrRecorder (what ++ e).

(** ** Operations of the worker *)

(** [None] is a panic of the sanitizer. *)
Definition do_record (db : Db) (t : Table) (run : EnrichmentRunRecord) (sanitize : bool) :
    option (result EnrichmentError unit * Table) :=
  match (if sanitize then sanitize_command (utf8 (run_command run)) else Some (utf8 (run_command run))) with
  | None => None
  | Some command =>
      match db InsertRun with
      | Some e => Some (Err (recorder_error (lit "Failed to insert record: ") e), t)
      | None => Some (Ok tt, <[run_id run := row_of run command]> t)
      end
  end.

Section Worker.
Context `{SqlOrder}.

(** [DELETE ... WHERE timestamp < cutoff]. *)
Definition delete_old (cutoff : str) (t : Table) : Table :=
  filter (fun kv => str_ltb (c_timestamp (snd kv)) cutoff = false) t.

(** The ids of [SELECT id ... ORDER BY timestamp ASC LIMIT n]: a negative limit
    is none. *)
Definition oldest_ids (n : Z) (t : Table) : list str :=
  let l := map fst (by_timestamp (map_to_list t)) in
  if (n <? 0)%Z then l else take (Z.to_nat n) l.

Definition delete_ids (ids : list str) (t : Table) : Table :=
  filter (fun kv => fst kv ∉ ids) t.

Definition deleted_between (t t' : Table) : Z := Z.of_nat (size t - size t').

(** [cutoff] is the text of the present less [max_age_days]. *)
Definition do_cleanup (db : Db) (cutoff : str) (t : Table) (retention : RetentionConfig) :
    result EnrichmentError Z * Table :=
  if negb (retention_enabled retention) then (Ok 0%Z, t)
  else
    match db DeleteOld with
    | Some e => (Err (recorder_error (lit "cleanup age-based delete failed: ") e), t)
    | None =>
        let t1 := delete_old cutoff t in
        let total_deleted := deleted_between t t1 in
        match db CountRows with
        | Some e => (Err (recorder_error (lit "count query failed: ") e), t1)
        | None =>
            let row_count := Z.of_nat (size t1) in
            if (row_count >? as_i64 (max_rows retention))%Z then
              let to_delete := as_i64 (row_count - as_i64 (max_rows retention)) in
              match db DeleteExcess with
              | Some e => (Err (recorder_error (lit "cleanup row-count delete failed: ") e), t1)
              | None =>
                  let t2 := delete_ids (oldest_ids to_delete t1) t1 in
                  (Ok (total_deleted + deleted_between t1 t2)%Z, t2)
              end
            else (Ok total_deleted, t1)
        end
    end.

(** [MIN] and [MAX] of the timestamps. *)
Definition min_timestamp (t : Table) : option str :=
  option_map (fun kv => c_timestamp (snd kv)) (head (by_timestamp (map_to_list t))).
Definition max_timestamp (t : Table) : option str :=
  option_map (fun kv => c_timestamp (snd kv)) (last (by_timestamp (map_to_list t))).

Definition do_stats (db : Db) (t : Table) : result EnrichmentError RunRecorderStats :=
  match db CountRows with
  | Some e => Err (recorder_error (lit "stats count query failed: ") e)
  | None =>
      if Nat.eqb (size t) 0 then Ok RunRecorderStats_empty
      else
        match db MinTimestamp with
        | Some e => Err (recorder_error (lit "stats oldest query failed: ") e)
        | None =>
            match db MaxTimestamp with
            | Some e => Err (recorder_error (lit "stats newest query failed: ") e)
            | None => Ok (mkStats (Z.of_nat (size t)) (min_timestamp t) (max_timestamp t))
            end
        end
  end.

(** Preparing and running a [SELECT] whose [WHERE] clause is [keep]. *)
Definition select_runs (db : Db) (keep : Row -> bool) (t : Table) :
    result EnrichmentError (list Row) :=
  match db PrepareRuns with
  | Some e => Err (recorder_error (lit "Failed to prepare query: ") e)
  | None =>
      match db QueryRuns with
      | Some e => Err (recorder_error (lit "Failed to query records: ") e)
      | None => Ok (map snd (by_timestamp (List.filter (fun kv => keep (snd kv)) (map_to_list t))))
      end
  end.

(** [timestamp >= after], or every row. *)
Definition not_before (after : option str) (r : Row) : bool :=
  match after with Some ts => negb (str_ltb (c_timestamp r) ts) | None => true end.

Definition do_read_records (db : Db) (t : Table) (after : option str) :
    result EnrichmentError (list EnrichmentRunRecord) :=
  match select_runs db (not_before after) t with
  | Err e => Err e
  | Ok rows =>
      match db FetchRow with
      | Some e => Err (recorder_error (lit "Failed to fetch row: ") e)
      | None => Ok (omap row_to_record rows)
      end
  end.

Definition do_read_records_by_enricher (db : Db) (t : Table) (id : str) :
    result EnrichmentError (list EnrichmentRunRecord) :=
  match select_runs db (fun r => str_eqb (c_enricher_id r) id) t with
  | Err e => Err e
  | Ok rows => Ok (omap row_to_record rows)
  end.

(** ** Commands and the loop *)

Inductive WorkerCommand :=
| CmdRecord (run : EnrichmentRunRecord) (sanitize : bool)
| CmdCleanup (retention : RetentionConfig)
| CmdStats
| CmdReadRecords (after : option str)
| CmdReadRecordsByEnricher (enricher_id : str)
| CmdShutdown.

Inductive Response :=
| RspRecord (r : result EnrichmentError unit)
| RspCleanup (r : result EnrichmentError Z)
| RspStats (r : result EnrichmentError RunRecorderStats)
| RspRecords (r : result EnrichmentError (list EnrichmentRunRecord))
| RspShutdown.

Definition handle_command (db : Db) (cutoff : str) (t : Table) (cmd : WorkerCommand) :
    option (Response * bool * Table) :=
  match cmd with
  | CmdRecord run sanitize =>
      match do_record db t run sanitize with
      | Some (r, t') => Some (RspRecord r, true, t')
      | None => None
      end
  | CmdCleanup retention =>
      let '(r, t') := do_cleanup db cutoff t retention in Some (RspCleanup r, true, t')
  | CmdStats => Some (RspStats (do_stats db t), true, t)
  | CmdReadRecords after => Some (RspRecords (do_read_records db t after), true, t)
  | CmdReadRecordsByEnricher id => Some (RspRecords (do_read_records_by_enricher db t id), true, t)
  | CmdShutdown => Some (RspShutdown, false, t)
  end.

(** The loop over the commands in the order of the channel, each with the
    cutoff at its time; it ends at a shutdown or when the channel closes. *)
Fixpoint run_loop (db : Db) (t : Table) (cmds : list (str * WorkerCommand)) :
    option (list Response * Table) :=
  match cmds with
  | [] => Some ([], t)
  | (cutoff, cmd) :: cmds' =>
      match handle_command db cutoff t cmd with
      | None => None
      | Some (r, false, t') => Some ([r], t')
      | Some (r, true, t') =>
          match run_loop db t' cmds' with
          | Some (rs, t'') => Some (r :: rs, t'')
          | None => None
          end
      end
  end.
End Worker.

(** ** Order of the timestamps *)

Lemma str_ltb_asym a b : str_ltb a b = true -> str_ltb b a = false.
Proof.
  revert b. induction a as [|x a IH]; intros [|y b]; simpl; try done.
  destruct (x <? y)%N eqn:E1; simpl; bools.
  - intros _. rewrite (proj2 (N.ltb_ge y x)), (proj2 (N.eqb_neq y x)) by lia. done.
  - destruct (x =? y)%N eqn:E2; simpl; [|done]. bools. subst. rewrite N.ltb_irrefl, N.eqb_refl. apply IH.
Qed.

Lemma str_ltb_neg_trans a b c : str_ltb b a = false -> str_ltb c b = false -> str_ltb c a = false.
Proof.
  revert b c. induction a as [|x a IH]; intros [|y b] [|z c]; simpl; try done.
  intros [H1 H1']%orb_false_iff [H2 H2']%orb_false_iff. apply N.ltb_ge in H1, H2.
  apply orb_false_iff. split; [apply N.ltb_ge; lia|].
  destruct (z =? x)%N eqn:E; [|done]. bools. subst.
  assert (x = y) as <- by lia. rewrite N.eqb_refl in *. simpl in *. by apply (IH b).
Qed.

#[export] Instance ts_le_dec : RelDecision ts_le.
Proof. intros a b. unfold ts_le. apply _. Defined.
#[export] Instance ts_le_total : Total ts_le.
Proof.
  intros a b. unfold ts_le. destruct (str_ltb (c_timestamp (snd b)) (c_timestamp (snd a))) eqn:E; [|by left].
  right. by apply str_ltb_asym.
Qed.
#[export] Instance ts_le_trans : Transitive ts_le.
Proof. intros a b c. unfold ts_le. apply str_ltb_neg_trans. Qed.

(** An order the database may choose. *)
Definition merge_order : SqlOrder :=
  {| by_timestamp := merge_sort ts_le;
     by_timestamp_perm := merge_sort_Permutation ts_le;
     by_timestamp_sorted := fun l => StronglySorted_merge_sort ts_le l |}.

(** ** Reading back what was recorded *)

Definition table_ok (t : Table) : Prop := map_Forall (fun id r => c_id r = id) t.

(** The integers of a record are in the range of their types, and its command
    is a text. *)
Definition record_ok (r : EnrichmentRunRecord) : Prop :=
  Forall (fun n => 0 <= n <= u32_max)%Z
    [facts_count r; derived_facts_count r; rule_hits_count r; diagnostics_count r;
     artifact_count r; recommendation_count r] /\
  (0 <= run_duration_ms r <= u64_max)%Z /\
  Forall scalar_value (run_command r).

Lemma as_u32_as_i32 n : (0 <= n <= u32_max)%Z -> as_u32 (as_i32 n) = n.
Proof.
  unfold as_u32, as_i32, u32_max. intros Hn. rewrite Zminus_mod_idemp_l.
  replace (n + 2147483648 - 2147483648)%Z with n by lia. apply Z.mod_small. lia.
Qed.

Lemma as_i64_id n : (i64_min <= n <= i64_max)%Z -> as_i64 n = n.
Proof. unfold as_i64, i64_min, i64_max. intros Hn. rewrite Z.mod_small; lia. Qed.

Lemma as_u64_as_i64 n : (0 <= n <= u64_max)%Z -> as_u64 (as_i64 n) = n.
Proof.
  unfold as_u64, as_i64, u64_max. intros Hn. rewrite Zminus_mod_idemp_l.
  replace (n + 9223372036854775808 - 9223372036854775808)%Z with n by lia. apply Z.mod_small. lia.
Qed.

(** The run with the command that the database has. *)
Definition with_command (command : str) (r : EnrichmentRunRecord) : EnrichmentRunRecord :=
  mkRun (run_id r) (run_timestamp r) command (run_enricher_id r) (run_exit_code r)
    (run_duration_ms r) (output_summary_stdout r) (output_summary_stderr r) (facts_count r)
    (derived_facts_count r) (rule_hits_count r) (diagnostics_count r) (artifact_count r)
    (confidence_avg r) (run_verdict r) (recommendation_count r) (run_error r).

(** Counts above [i32::MAX] and durations above [i64::MAX] are stored as
    negative numbers, and come back as they were; a confidence that is not a
    number makes the row unreadable. *)
Lemma row_roundtrip run command :
  record_ok run -> Forall scalar_value command ->
  row_to_record (row_of run (utf8 command)) =
    match confidence_avg run with S754_nan => None | _ => Some (with_command command run) end.
Proof.
  intros (Hn & Hd & Hf) Hc. repeat (apply Forall_cons in Hn as [? Hn]).
  unfold row_to_record, row_of, with_command. simpl. rewrite from_utf8_utf8 by done.
  rewrite !as_u32_as_i32, as_u64_as_i64 by done.
  by destruct (confidence_avg run).
Qed.

Lemma row_to_record_id row r : row_to_record row = Some r -> run_id r = c_id row.
Proof. unfold row_to_record. repeat case_match; try done. by intros [= <-]. Qed.

Lemma table_ok_insert t run command :
  table_ok t -> table_ok (<[run_id run := row_of run command]> t).
Proof. intros Ht. by apply map_Forall_insert_2. Qed.

Section StoreFacts.
Context `{SqlOrder}.

Lemma elem_of_select (keep : Row -> bool) (t : Table) (row : Row) :
  (exists rows, select_runs db_ok keep t = Ok rows /\ row ∈ rows) <->
  exists id, t !! id = Some row /\ keep row = true.
Proof.
  unfold select_runs. simpl. split.
  - intros (rows & [= <-] & Hin). apply list_elem_of_fmap in Hin as ([id r] & -> & Hin).
    rewrite by_timestamp_perm, list_elem_of_In, filter_In, <- list_elem_of_In, elem_of_map_to_list in Hin.
    exists id. exact Hin.
  - intros (id & Hid & Hk). eexists. split; [done|]. apply list_elem_of_fmap. exists (id, row).
    split; [done|]. rewrite by_timestamp_perm, list_elem_of_In, filter_In, <- list_elem_of_In, elem_of_map_to_list.
    done.
Qed.

Lemma elem_of_records (t : Table) (after : option str) (r : EnrichmentRunRecord) :
  (exists rs, do_read_records db_ok t after = Ok rs /\ r ∈ rs) <->
  exists id row, t !! id = Some row /\ not_before after row = true /\ row_to_record row = Some r.
Proof.
  unfold do_read_records. split.
  - intros (rs & E & Hin). destruct (select_runs db_ok (not_before after) t) as [rows|] eqn:Es; [|done].
    simpl in E. injection E as <-. apply list_elem_of_omap in Hin as (row & Hrow & Hr).
    destruct (proj1 (elem_of_select (not_before after) t row)) as (id & Hid & Hk); [by exists rows|].
    by exists id, row.
  - intros (id & row & Hid & Hk & Hr).
    destruct (proj2 (elem_of_select (not_before after) t row)) as (rows & -> & Hin); [by exists id|].
    simpl. eexists. split; [done|]. apply list_elem_of_omap. by exists row.
Qed.

(** Texts have no surrogate, and the sanitizer writes none. *)
Lemma scalar_value_scalar c : scalar_value c -> scalar c.
Proof. unfold scalar_value, scalar. lia. Qed.

Lemma ascii_scalar_value c : ascii_byte c -> scalar_value c.
Proof. unfold ascii_byte, scalar_value. lia. Qed.

Definition texts : Alphabet :=
  {| in_alphabet := scalar_value; alphabet_scalar := scalar_value_scalar;
     ascii_in_alphabet := ascii_scalar_value |}.

(** Sanitizing never fails, and leaves a text. *)
Lemma sanitize_text (command : str) :
  Forall scalar_value command ->
  exists s, Forall scalar_value s /\ sanitize_command (utf8 command) = Some (utf8 s).
Proof.
  intros Hs. destruct (@loop_total texts (length (utf8 command)) (utf8 command) [])
    as (out & E & (s & Hsc & ->) & _); [by exists command|done|apply valid_nil|].
  exists s. unfold sanitize_command. by rewrite E.
Qed.

(** C21. Round trip through the database: recording a run, with or without
    sanitizing, succeeds and keeps the table keyed by id.  The text [s] that is
    stored for the command is the command itself without sanitizing and what the
    sanitizer makes of it with.  Afterwards the records read back are the run
    with the command [s] and every other field exactly as it was given, counts
    above the signed range included, provided its confidence is a number (a
    [NaN] is stored as [NULL] and its row is skipped), and the records of all
    other ids; the record that had the same id before is gone. *)
Theorem record_then_read (t : Table) (run : EnrichmentRunRecord) (sanitize : bool) :
  table_ok t -> record_ok run ->
  exists s t', do_record db_ok t run sanitize = Some (Ok tt, t') /\ table_ok t' /\
    (if sanitize then sanitize_command (utf8 (run_command run)) = Some (utf8 s)
     else s = run_command run) /\
    forall r, (exists rs, do_read_records db_ok t' None = Ok rs /\ r ∈ rs) <->
      (r = with_command s run /\ confidence_avg run ≠ S754_nan) \/
      (run_id r ≠ run_id run /\ exists rs, do_read_records db_ok t None = Ok rs /\ r ∈ rs).
Proof.
  intros Ht Hr.
  assert (Hs : exists s, Forall scalar_value s /\
    (if sanitize then sanitize_command (utf8 (run_command run)) = Some (utf8 s) else s = run_command run) /\
    do_record db_ok t run sanitize = Some (Ok tt, <[run_id run := row_of run (utf8 s)]> t)).
  { pose proof Hr as (_ & _ & Hc). unfold do_record. destruct sanitize; [|by exists (run_command run)].
    destruct (sanitize_text _ Hc) as (s & Hsc & E). exists s. by rewrite E. }
  destruct Hs as (s & Hsc & Hs & E). exists s. eexists. split; [exact E|].
  split; [by apply table_ok_insert|]. split; [done|].
  intros r. rewrite !elem_of_records. pose proof (row_roundtrip run s Hr Hsc) as Hrow. split.
  - intros (id & row & Hid & _ & Er). apply lookup_insert_Some in Hid as [[<- <-]|[Hne Hid]].
    + left. rewrite Hrow in Er. destruct (confidence_avg run); by simplify_eq.
    + right. split; [|by exists id, row]. rewrite (row_to_record_id _ _ Er).
      specialize (Ht id row Hid). simpl in Ht. congruence.
  - intros [[-> Hn]|(Hne & id & row & Hid & _ & Er)].
    + exists (run_id run), (row_of run (utf8 s)). split; [apply lookup_insert_eq|].
      split; [done|]. rewrite Hrow. by destruct (confidence_avg run).
    + exists id, row. split; [|done]. rewrite lookup_insert_ne; [done|].
      specialize (Ht id row Hid). rewrite (row_to_record_id _ _ Er) in Hne. simpl in Ht. congruence.
Qed.

(** ** Cleanup *)

Lemma delete_ids_drop (t : Table) n :
  (0 <= n)%Z ->
  delete_ids (oldest_ids n t) t =
    list_to_map (drop (Z.to_nat n) (by_timestamp (map_to_list t))).
Proof.
  intros Hn. unfold delete_ids, oldest_ids. rewrite (proj2 (Z.ltb_ge _ _)) by done.
  set (L := by_timestamp (map_to_list t)).
  assert (HL : Permutation L (map_to_list t)) by apply by_timestamp_perm.
  assert (Hnd : NoDup (map fst L)) by (rewrite HL; apply NoDup_fst_map_to_list).
  rewrite <- (take_drop (Z.to_nat n) L) in Hnd. rewrite map_app in Hnd.
  apply NoDup_app in Hnd as (_ & Hdis & Hnd). apply map_eq. intros k.
  apply option_eq. intros v. rewrite map_lookup_filter_Some. cbn [fst].
  rewrite <- (elem_of_list_to_map (drop (Z.to_nat n) L)) by exact Hnd.
  rewrite <- elem_of_map_to_list, <- HL.
  rewrite <- (take_drop (Z.to_nat n) L) at 1. rewrite elem_of_app. change (map fst L) with (fst <$> L). rewrite <- fmap_take.
  split.
  - intros [[Hin|Hin] Hk]; [|done]. exfalso. apply Hk. apply list_elem_of_fmap. by exists (k, v).
  - intros Hin. split; [by right|]. intros Hk. apply (Hdis k Hk). apply list_elem_of_fmap.
    by exists (k, v).
Qed.

(** The rows a deletion of the [n] oldest keeps. *)
Lemma delete_oldest (t : Table) n :
  n <= size t ->
  let t' := delete_ids (oldest_ids (Z.of_nat n) t) t in
  size t' = size t - n /\ t' ⊆ t /\
  forall id row, t !! id = Some row -> t' !! id = None ->
    forall id' row', t' !! id' = Some row' -> str_ltb (c_timestamp row') (c_timestamp row) = false.
Proof.
  intros Hn t'. subst t'. split; [|split].
  - rewrite delete_ids_drop by lia. rewrite Nat2Z.id, map_size_list_to_map.
    + rewrite length_drop, by_timestamp_perm, length_map_to_list. done.
    + rewrite fmap_drop. eapply sublist_NoDup; [|apply sublist_drop]. rewrite by_timestamp_perm.
      apply NoDup_fst_map_to_list.
  - apply map_filter_subseteq.
  - intros id row Hid Hnone id' row' Hid'.
    rewrite delete_ids_drop in Hid' by lia. unfold delete_ids in Hnone.
    rewrite Nat2Z.id in Hid'. apply elem_of_list_to_map_2 in Hid'.
    apply map_lookup_filter_None in Hnone as [Hnone|Hnone]; [congruence|].
    specialize (Hnone row Hid). cbn [fst] in Hnone. apply dec_stable in Hnone.
    unfold oldest_ids in Hnone. rewrite (proj2 (Z.ltb_ge _ _)), Nat2Z.id in Hnone by lia.
    set (L := by_timestamp (map_to_list t)) in *.
    change (map fst L) with (fst <$> L) in Hnone. rewrite <- fmap_take in Hnone.
    apply list_elem_of_fmap in Hnone as ([k r] & -> & Hin). cbn [fst] in *.
    assert (Hk : t !! k = Some r).
    { apply elem_of_map_to_list. rewrite <- by_timestamp_perm. fold L.
      rewrite <- (take_drop n L), elem_of_app. by left. }
    assert (r = row) as -> by congruence.
    pose proof (by_timestamp_sorted (map_to_list t)) as Hs. fold L in Hs.
    rewrite <- (take_drop n L) in Hs.
    exact (StronglySorted_app_1_elem_of ts_le _ _ (k, row) (id', row') Hs Hin Hid').
Qed.

(** A cleanup whose policy is enabled and whose limit is a signed 64-bit
    number deletes, and counts, exactly what the policy says: no row stays that
    is older than the cutoff, at most [max_rows] rows stay, a row that is not
    older is deleted only to meet that limit, and then every row that stays is
    at least as recent. *)
Theorem cleanup_spec (cutoff : str) (t : Table) (ret : RetentionConfig) :
  retention_enabled ret = true -> (0 <= max_rows ret <= i64_max)%Z -> (Z.of_nat (size t) <= i64_max)%Z ->
  let '(r, t') := do_cleanup db_ok cutoff t ret in
  r = Ok (Z.of_nat (size t) - Z.of_nat (size t'))%Z /\ t' ⊆ t /\
  (Z.of_nat (size t') <= max_rows ret)%Z /\
  map_Forall (fun _ row => str_ltb (c_timestamp row) cutoff = false) t' /\
  forall id row, t !! id = Some row -> t' !! id = None ->
    str_ltb (c_timestamp row) cutoff = true \/
    (Z.of_nat (size t') = max_rows ret /\
     map_Forall (fun _ row' => str_ltb (c_timestamp row') (c_timestamp row) = false) t').
Proof.
  intros He Hm Hs. unfold do_cleanup. rewrite He. simpl negb. cbv iota. simpl db_ok. cbv iota.
  set (t1 := delete_old cutoff t).
  assert (Hsub : t1 ⊆ t) by apply map_filter_subseteq.
  assert (Hle : size t1 <= size t) by (apply map_subseteq_size, Hsub).
  assert (Hold : map_Forall (fun _ row => str_ltb (c_timestamp row) cutoff = false) t1)
    by (intros id row Hid; by apply map_lookup_filter_Some in Hid as [_ ?]).
  assert (Hdel : forall id row, t !! id = Some row -> t1 !! id = None -> str_ltb (c_timestamp row) cutoff = true).
  { intros id row Hid Hn. apply map_lookup_filter_None in Hn as [Hn|Hn]; [congruence|].
    specialize (Hn row Hid). simpl in Hn. by destruct (str_ltb _ _). }
  assert (Ha : as_i64 (max_rows ret) = max_rows ret) by (apply as_i64_id; unfold i64_min, i64_max in *; lia).
  rewrite Ha. unfold deleted_between.
  destruct (Z.of_nat (size t1) >? max_rows ret)%Z eqn:Eg.
  - assert (Hgt : (max_rows ret < Z.of_nat (size t1))%Z) by lia.
    assert (Hn : as_i64 (Z.of_nat (size t1) - max_rows ret) = Z.of_nat (size t1 - Z.to_nat (max_rows ret))).
    { rewrite as_i64_id by (unfold i64_min, i64_max in *; lia). lia. }
    rewrite Hn. destruct (delete_oldest t1 (size t1 - Z.to_nat (max_rows ret)) ltac:(lia)) as (Hsz & Hsub' & Hrec).
    set (t2 := delete_ids _ t1) in *.
    split; [f_equal; lia|]. split; [by transitivity t1|]. split; [lia|].
    split; [intros id row Hid; apply (Hold id); by apply (lookup_weaken t2)|].
    intros id row Hid Hnone. destruct (t1 !! id) as [row1|] eqn:E1; [|left; by apply (Hdel id)].
    right. split; [lia|]. intros id' row' Hid'.
    assert (row1 = row) as -> by (apply (lookup_weaken _ t) in E1; [congruence|done]).
    by apply (Hrec id row E1 Hnone id').
  - split; [f_equal; lia|]. split; [done|]. split; [lia|]. split; [done|].
    intros id row Hid Hnone. left. by apply (Hdel id).
Qed.

(** A limit above the signed 64-bit range, such as the largest [u64] for
    "no limit", makes the cleanup delete every row. *)
Theorem cleanup_wipes (cutoff : str) (t : Table) (ret : RetentionConfig) :
  retention_enabled ret = true -> (i64_max < max_rows ret <= u64_max)%Z ->
  (Z.of_nat (size t) <= i64_max)%Z ->
  snd (do_cleanup db_ok cutoff t ret) = ∅.
Proof.
  intros He Hm Hs. unfold do_cleanup. rewrite He. simpl negb. cbv iota. simpl db_ok. cbv iota.
  set (t1 := delete_old cutoff t).
  assert (Hle : size t1 <= size t) by (apply map_subseteq_size, map_filter_subseteq).
  assert (Ha : as_i64 (max_rows ret) = (max_rows ret - 18446744073709551616)%Z).
  { unfold as_i64, i64_max, u64_max in *.
    replace (max_rows ret + 9223372036854775808)%Z
      with (max_rows ret - 9223372036854775808 + 1 * 18446744073709551616)%Z by lia.
    rewrite Z.mod_add, Z.mod_small by lia. lia. }
  rewrite Ha. replace (Z.of_nat (size t1) >? max_rows ret - 18446744073709551616)%Z with true
    by (symmetry; apply Z.gtb_lt; unfold u64_max in *; lia).
  cbn [snd]. apply map_empty. intros id. unfold delete_ids. apply map_lookup_filter_None. right.
  intros row Hid. cbn [fst]. intros Hn. apply Hn. clear Hn. unfold oldest_ids.
  assert (Hin : id ∈ map fst (by_timestamp (map_to_list t1))).
  { apply list_elem_of_fmap. exists (id, row). split; [done|].
    by rewrite by_timestamp_perm, elem_of_map_to_list. }
  destruct (_ <? 0)%Z eqn:Eneg; [done|]. apply Z.ltb_ge in Eneg. rewrite take_ge; [done|].
  rewrite length_map, by_timestamp_perm, length_map_to_list.
  revert Eneg. unfold as_i64, i64_max, u64_max in *.
  set (x := (Z.of_nat (size t1) - (max_rows ret - 18446744073709551616))%Z).
  assert (Hx : (Z.of_nat (size t1) <= x <= 18446744073709551616)%Z) by lia. intros Eneg.
  destruct (decide (x < 9223372036854775808)%Z) as [Hlt|Hge].
  - rewrite Z.mod_small in * by lia. lia.
  - exfalso. replace (x + 9223372036854775808)%Z
      with (x - 9223372036854775808 + 1 * 18446744073709551616)%Z in Eneg by lia.
    rewrite Z.mod_add in Eneg by lia. rewrite Z.mod_small in Eneg by lia. lia.
Qed.
End StoreFacts.

(** ** What sanitizing covers *)

(** A record stored with sanitizing keeps its command as the sanitizer leaves
    it; the summaries of its output are stored as they are. *)
Lemma stored_sanitized (t : Table) (run : EnrichmentRunRecord) :
  Forall scalar_value (run_command run) ->
  exists s, Forall scalar_value s /\ sanitize_command (utf8 (run_command run)) = Some (utf8 s) /\
    do_record db_ok t run true = Some (Ok tt, <[run_id run := row_of run (utf8 s)]> t) /\
    c_stdout (row_of run (utf8 s)) = output_summary_stdout run /\
    c_stderr (row_of run (utf8 s)) = output_summary_stderr run.
Proof.
  intros Hs. destruct (sanitize_text _ Hs) as (s & Hsc & E). exists s. unfold do_record. by rewrite E.
Qed.

(** ** Witnesses *)

Definition sample_run : EnrichmentRunRecord :=
  mkRun (lit "id") (lit "2024-01-01T00:00:00+00:00") (lit "mvn test") (lit "maven") 0 5
    (Some (lit "ok")) None 4000000000 0 0 0 0 f_zero None 0 None.

Definition sample_table : Table := {[lit "old" := row_of sample_run (lit "ls")]}.

Lemma sample_run_ok : record_ok sample_run.
Proof.
  split; [repeat constructor; vm_compute; discriminate|].
  split; [split; vm_compute; discriminate|].
  repeat (constructor; [left; reflexivity|]). constructor.
Qed.

Lemma record_then_read_witness :
  exists s t', do_record db_ok ∅ sample_run true = Some (Ok tt, t') /\ table_ok t' /\
    exists rs, @do_read_records merge_order db_ok t' None = Ok rs /\ with_command s sample_run ∈ rs.
Proof.
  destruct (@record_then_read merge_order ∅ sample_run true (map_Forall_empty _) sample_run_ok)
    as (s & t' & E & Hok & _ & Hr).
  exists s, t'. split; [exact E|]. split; [exact Hok|]. apply Hr. left. split; [reflexivity|discriminate].
Defined.

Lemma cleanup_witness :
  let '(r, t') := @do_cleanup merge_order db_ok (lit "2025") sample_table RetentionConfig_default in
  r = Ok 1%Z /\ t' = ∅.
Proof.
  pose proof (@cleanup_spec merge_order (lit "2025") sample_table RetentionConfig_default eq_refl
    ltac:(split; vm_compute; discriminate) ltac:(vm_compute; discriminate)) as Hs.
  destruct (@do_cleanup merge_order db_ok (lit "2025") sample_table RetentionConfig_default) as [r t'] eqn:E.
  destruct Hs as (Hr & _). assert (t' = ∅) as -> by (change t' with (snd (r, t')); rewrite <- E; vm_compute; reflexivity).
  split; [exact Hr|reflexivity].
Defined.

Lemma cleanup_wipes_witness :
  snd (@do_cleanup merge_order db_ok [] sample_table (mkRetention 90 u64_max true true)) = ∅.
Proof.
  apply (@cleanup_wipes merge_order [] sample_table (mkRetention 90 u64_max true true));
    [reflexivity|split; vm_compute; (reflexivity || discriminate)|vm_compute; discriminate].
Defined.
