(* ===== verification/Adapter.v ===== *)
(** * The enrichment adapter

    Models [bastion-infrastructure/src/enrichment/adapter.rs], which puts the
    parts of the enrichment engine together for every command run in a sandbox:
    it maps the command and its result, runs the pipeline, counts metrics,
    builds the telemetry record and hands it to the recorder, with a bound on
    the records in flight.  With it the configuration of
    [enrichment/config.rs].

    A call of [enrich] takes the adapter's state and returns the response, the
    record handed to a recording task if one was started, and the new state.
    Readings of clocks and fresh identifiers come with the call ([CallInputs]).
    The counter of records in flight is also modelled on its own, at the level
    of single atomic operations of concurrent calls. *)

From Stdlib Require Import SpecFloat.
From stdpp Require Import relations.
From S2P Require Import Prelude Utf8 Command RuleParser RuleEval CommandExtractor Normalizer Extractors.
From S2P Require Import Pipeline Render Metrics RunStore.

(** ** Commands *)

Definition map_command_spec (spec : CommandSpec) : OperationInvocation :=
  mkInvocation (cs_command spec) (cs_args spec) (cs_working_dir spec) (cs_env_vars spec).

Definition map_command_result (r : CommandResult) : OperationResult :=
  mkResult (cr_exit_code r) (from_utf8_lossy (cr_stdout r)) (from_utf8_lossy (cr_stderr r))
    (cr_duration_ms r) (cr_timed_out r).

(** ** Configuration and state *)

Record SemaphoreConfig := mkSemaphore { max_concurrent_records : Z }.
Definition SemaphoreConfig_default : SemaphoreConfig := mkSemaphore 64.

Record EnrichmentConfig := mkEnrichmentConfig {
  cfg_enabled : bool; cfg_catalog_dir : str; cfg_retention : RetentionConfig;
  cfg_semaphore : SemaphoreConfig
}.
Definition EnrichmentConfig_default : EnrichmentConfig :=
  mkEnrichmentConfig true (lit ".bastion/catalog/enrichers") RetentionConfig_default
    SemaphoreConfig_default.

(** The clock readings and fresh values of one call; instants are nanoseconds. *)
Record CallInputs := mkInputs {
  in_context_ts : str;      (** timestamp of the agent context *)
  in_start : Z; in_end : Z; (** instants around the pipeline *)
  in_record_id : str; in_record_ts : str;
  in_pushed : Z; in_now : Z (** readings of the metrics' clock *)
}.

(** [elapsed().as_millis() as u64]. *)
Definition elapsed_millis (i : CallInputs) : Z := as_u64 (Z.max 0 (in_end i - in_start i) / 1000000).

(** [x as f64] of an [f32]. *)
Definition f64_of_f32 (x : float) : float :=
  match x with
  | S754_finite s m e => binary_normalize 53 1024 (if s then Zneg m else Zpos m) e s
  | _ => x
  end.

Definition sum_f64 (xs : list float) : float := fold_left f64_add xs f_zero.

Definition as_count {A} (l : list A) : Z := as_u32 (Z.of_nat (length l)).

(** The policy's four fields and the statistics of the database. *)
Record RetentionStats := mkRetentionStats {
  rs_policy : RetentionConfig; rs_current_row_count : option Z;
  rs_oldest_record_ts : option str; rs_newest_record_ts : option str
}.

Section Adapter.
Context `{RegexCaptures} `{HashOrder}.

Record Adapter := mkAdapter {
  ad_pipeline : FactPipeline;
  ad_config : EnrichmentConfig;
  ad_recorder : option RetentionConfig;  (** a recorder, by its retention policy *)
  ad_optimizer_repo : bool;              (** whether there is an optimizer repository *)
  ad_in_flight : Z;
  ad_metrics : EnrichmentMetrics
}.

Definition Adapter_new (c : CatalogRepository) (config : EnrichmentConfig) : Adapter :=
  mkAdapter (FactPipeline_new c) config None false 0 EnrichmentMetrics_new.

Definition with_pipeline (p : FactPipeline) (config : EnrichmentConfig) : Adapter :=
  mkAdapter p config None false 0 EnrichmentMetrics_new.

Definition with_recorder (a : Adapter) (r : RetentionConfig) : Adapter :=
  mkAdapter (ad_pipeline a) (ad_config a) (Some r) (ad_optimizer_repo a) (ad_in_flight a) (ad_metrics a).

Definition with_optimizer_repo (a : Adapter) : Adapter :=
  mkAdapter (ad_pipeline a) (ad_config a) (ad_recorder a) true (ad_in_flight a) (ad_metrics a).

Definition set_metrics (a : Adapter) (m : EnrichmentMetrics) : Adapter :=
  mkAdapter (ad_pipeline a) (ad_config a) (ad_recorder a) (ad_optimizer_repo a) (ad_in_flight a) m.
Definition set_in_flight (a : Adapter) (n : Z) : Adapter :=
  mkAdapter (ad_pipeline a) (ad_config a) (ad_recorder a) (ad_optimizer_repo a) n (ad_metrics a).
Definition set_pipeline (a : Adapter) (p : FactPipeline) : Adapter :=
  mkAdapter p (ad_config a) (ad_recorder a) (ad_optimizer_repo a) (ad_in_flight a) (ad_metrics a).

(** [health]; [db_rows] is the recorder's answer for its number of rows.  Asking
    for the recent runs prunes the ring. *)
Definition health (now : Z) (db_rows : option Z) (a : Adapter) : EnrichmentHealth * Adapter :=
  let '(recent, m) := recent_runs_5min now (ad_metrics a) in
  (mkHealth (cfg_enabled (ad_config a)) (Z.of_nat (catalog_count (ad_pipeline a)))
     recent (saturation_drops (ad_metrics a))
     (match ad_recorder a with Some _ => db_rows | None => None end)
     (match ad_recorder a with Some _ => true | None => false end),
   set_metrics a m).

(** [retention_info]; [stats] is the recorder's answer. *)
Definition retention_info (stats : result EnrichmentError RunRecorderStats) (a : Adapter) :
    option RetentionStats :=
  match ad_recorder a with
  | None => None
  | Some config =>
      Some (match stats with
            | Err _ => mkRetentionStats config None None None
            | Ok s => mkRetentionStats config (Some (current_row_count s)) (oldest_record_ts s)
                        (newest_record_ts s)
            end)
  end.

(** ** The record of a run *)

Definition is_diagnostic (f : Fact) : bool := existsb (fun t => str_eqb t (lit "diagnostic")) (f_tags f).
Definition is_derived (f : Fact) : bool := str_eqb (source_extractor f) (lit "rule").

Definition average_confidence (facts : list Fact) : float :=
  match facts with
  | [] => f_zero
  | _ => f64_div (sum_f64 (map (fun f => f64_of_f32 (confidence f)) facts))
           (f64_of_Z (Z.of_nat (length facts)))
  end.

Definition build_record (i : CallInputs) (inv : OperationInvocation) (res : OperationResult)
    (ctx : option AgentContext) (error : option str) : EnrichmentRunRecord :=
  let facts := match ctx with Some c => ac_facts c | None => [] end in
  let verdict := match ctx with Some c => ac_verdict c | None => None end in
  let recommendation_count :=
    match ctx with
    | Some c => match ac_recommendations c with Some r => as_count r | None => 0%Z end
    | None => 0%Z
    end in
  let derived := as_count (List.filter is_derived facts) in
  mkRun (in_record_id i) (in_record_ts i)
    (match truncate_string (command inv) 500 with Some s => s | None => command inv end)
    (match ctx with Some c => em_enricher_id (ac_meta c) | None => [] end)
    (exit_code res) (elapsed_millis i)
    (truncate_string (stdout res) 500) (truncate_string (stderr res) 500)
    (as_count facts) derived
    (if (0 <? derived)%Z || (0 <? recommendation_count)%Z
        || match verdict with Some _ => true | None => false end then 1%Z else 0%Z)
    (as_count (List.filter is_diagnostic facts))
    (match ctx with Some c => as_count (ac_artifacts c) | None => 0%Z end)
    (average_confidence facts) verdict recommendation_count error.

(** Handing a record to the recorder: the counter is incremented first, and
    decremented again when the limit was already reached. *)
Definition record_run (i : CallInputs) (inv : OperationInvocation) (res : OperationResult)
    (ctx : option AgentContext) (error : option str) (a : Adapter) :
    option EnrichmentRunRecord * Adapter :=
  match ad_recorder a with
  | None => (None, a)
  | Some _ =>
      let record := build_record i inv res ctx error in
      let prev := ad_in_flight a in
      let a := set_in_flight a (as_u64 (prev + 1)) in
      if (max_concurrent_records (cfg_semaphore (ad_config a)) <=? prev)%Z then
        let a := set_in_flight a (as_u64 (ad_in_flight a - 1)) in
        (None, set_metrics a (record_saturation_drop (ad_metrics a)))
      else (Some record, a)
  end.

(** The end of a recording task, whether the recorder succeeded or not. *)
Definition recording_done (a : Adapter) : Adapter :=
  set_in_flight a (as_u64 (ad_in_flight a - 1)).

(** ** The two entry points *)

Definition enrich (i : CallInputs) (a : Adapter) (fs : FileSystem) (spec : CommandSpec)
    (cresult : CommandResult) : option AgentContext * option EnrichmentRunRecord * Adapter :=
  if negb (cfg_enabled (ad_config a)) then (None, None, a)
  else
    let inv := map_command_spec spec in
    let res := map_command_result cresult in
    let '(r, p) := run (in_context_ts i) (ad_pipeline a) inv res fs in
    let a := set_pipeline a p in
    match r with
    | Err e =>
        let a := set_metrics a (record_failure (in_pushed i) (in_now i) (ad_metrics a)) in
        let a := set_metrics a (record_latency (elapsed_millis i) (ad_metrics a)) in
        let '(spawned, a) := record_run i inv res None (Some e) a in
        (None, spawned, a)
    | Ok ctx =>
        let a := set_metrics a (record_latency (elapsed_millis i) (ad_metrics a)) in
        match ac_facts ctx with
        | [] => let '(spawned, a) := record_run i inv res (Some ctx) None a in (None, spawned, a)
        | facts =>
            let a := set_metrics a (record_success (in_pushed i) (in_now i) (ad_metrics a)) in
            let a := set_metrics a (record_facts (as_count facts) (ad_metrics a)) in
            let '(spawned, a) := record_run i inv res (Some ctx) None a in
            (Some ctx, spawned, a)
        end
    end.

Definition enrich_stream (i : CallInputs) (a : Adapter) (fs : FileSystem) (spec : CommandSpec)
    (out err : str) (code duration : Z) (timed : bool) :
    option AgentContext * option EnrichmentRunRecord * Adapter :=
  if negb (cfg_enabled (ad_config a)) then (None, None, a)
  else
    let inv := map_command_spec spec in
    let res := mkResult code out err duration timed in
    let '(r, p) := run (in_context_ts i) (ad_pipeline a) inv res fs in
    let a := set_pipeline a p in
    match r with
    | Err e => let '(spawned, a) := record_run i inv res None (Some e) a in (None, spawned, a)
    | Ok ctx =>
        match ac_facts ctx with
        | [] => let '(spawned, a) := record_run i inv res (Some ctx) None a in (None, spawned, a)
        | _ => let '(spawned, a) := record_run i inv res (Some ctx) None a in (Some ctx, spawned, a)
        end
    end.
End Adapter.

(** ** Records in flight, concurrently

    A call between its increment and its decision holds the value it read.  The
    calls are concurrent: any of them may take the next step. *)

Record slots := mkSlots {
  counter : Z;         (** the atomic counter, 64 bits *)
  waiting : list Z;    (** values read by calls that have not decided yet *)
  writing : nat        (** recording tasks that have not finished *)
}.

Inductive slot_step (max : Z) : slots -> slots -> Prop :=
| step_enter c ws n :
    (Z.of_nat (S (length ws + n)) <= u64_max)%Z ->   (* the calls fit in memory *)
    slot_step max (mkSlots c ws n) (mkSlots (as_u64 (c + 1)) (c :: ws) n)
| step_reject c ws1 prev ws2 n :
    (max <= prev)%Z ->
    slot_step max (mkSlots c (ws1 ++ prev :: ws2) n) (mkSlots (as_u64 (c - 1)) (ws1 ++ ws2) n)
| step_accept c ws1 prev ws2 n :
    (prev < max)%Z ->
    slot_step max (mkSlots c (ws1 ++ prev :: ws2) n) (mkSlots c (ws1 ++ ws2) (S n))
| step_finish c ws n :
    slot_step max (mkSlots c ws (S n)) (mkSlots (as_u64 (c - 1)) ws n).

Definition no_calls : slots := mkSlots 0 [] 0.

(** The calls that will be accepted. *)
Definition winners (max : Z) (ws : list Z) : nat := length (List.filter (fun p => (p <? max)%Z) ws).

Definition slots_ok (max : Z) (s : slots) : Prop :=
  counter s = Z.of_nat (length (waiting s) + writing s) /\ (counter s <= u64_max)%Z /\
  (Z.of_nat (winners max (waiting s) + writing s) <= max)%Z.

Lemma as_u64_small n : (0 <= n <= u64_max)%Z -> as_u64 n = n.
Proof. unfold as_u64, u64_max. intros. apply Z.mod_small. lia. Qed.

Lemma winners_app max a b : winners max (a ++ b) = winners max a + winners max b.
Proof. unfold winners. by rewrite List.filter_app, length_app. Qed.

Lemma winners_cons max p ws :
  winners max (p :: ws) = (if (p <? max)%Z then 1 else 0) + winners max ws.
Proof. unfold winners. simpl. by destruct (p <? max)%Z. Qed.

Lemma winners_le max ws : winners max ws <= length ws.
Proof. induction ws as [|p ws IH]; [done|]. rewrite winners_cons. simpl. destruct (_ <? _)%Z; lia. Qed.

Lemma slot_step_ok max s s' : (0 <= max)%Z -> slot_step max s s' -> slots_ok max s -> slots_ok max s'.
Proof.
  intros Hm Hstep (Hc & Hb & Hw). unfold slots_ok in *.
  destruct Hstep as [c ws n Hfit|c ws1 prev ws2 n Hp|c ws1 prev ws2 n Hp|c ws n]; simpl in *.
  - rewrite as_u64_small by lia. rewrite winners_cons. pose proof (winners_le max ws).
    split; [lia|]. split; [lia|]. destruct (c <? max)%Z eqn:E; bools; lia.
  - rewrite length_app in *. simpl in *. rewrite winners_app, winners_cons in Hw. rewrite winners_app.
    rewrite as_u64_small by lia. rewrite (proj2 (Z.ltb_ge _ _)) in Hw by lia.
    split; [lia|]. split; lia.
  - rewrite length_app in *. simpl in *. rewrite winners_app, winners_cons in Hw. rewrite winners_app.
    rewrite (proj2 (Z.ltb_lt _ _)) in Hw by lia. split; [lia|]. split; [lia|lia].
  - rewrite as_u64_small by lia. split; [lia|]. split; lia.
Qed.

(** C22. However the calls interleave, never more than [max] records are being
    written at once, the counter is the number of calls and tasks under way, and
    when none is left it is back at zero. *)
Theorem slots_bounded (max : Z) (s : slots) :
  (0 <= max)%Z -> rtc (slot_step max) no_calls s ->
  (Z.of_nat (writing s) <= max)%Z /\
  counter s = Z.of_nat (length (waiting s) + writing s) /\
  (waiting s = [] -> writing s = 0 -> counter s = 0%Z).
Proof.
  intros Hm Hr. assert (Hok : slots_ok max s).
  { assert (Hstart : slots_ok max no_calls) by (split; [done|]; split; [done|]; simpl; lia).
    induction Hr as [s|s1 s2 s3 H12 H23 IH]; [done|]. apply IH. by apply (slot_step_ok max s1). }
  destruct Hok as (Hc & _ & Hw). split; [lia|]. split; [done|].
  intros Hws Hn. rewrite Hc, Hws, Hn. done.
Qed.

(** A call that is about to be turned away holds a place of the counter: with
    no record being written, another call can be turned away because of it. *)
Example spurious_drop :
  rtc (slot_step 1) no_calls (mkSlots 2 [1; 1]%Z 0).
Proof.
  apply (rtc_l _ _ (mkSlots 1 [0]%Z 0)); [apply (step_enter 1 0 []); done|].
  apply (rtc_l _ _ (mkSlots 1 [] 1)); [apply (step_accept 1 1 [] 0%Z []); lia|].
  apply (rtc_l _ _ (mkSlots 2 [1]%Z 1)); [apply (step_enter 1 1 []); done|].
  apply (rtc_l _ _ (mkSlots 1 [1]%Z 0)); [apply (step_finish 1 2 [1]%Z)|].
  apply (rtc_l _ _ (mkSlots 2 [1; 1]%Z 0)); [apply (step_enter 1 1 [1]%Z); done|]. apply rtc_refl.
Qed.

(** ** What is counted *)

(** A fact that is a diagnostic has no confidence. *)
Definition quiet (f : Fact) : Prop := is_diagnostic f = false \/ confidence f = f_zero.

Lemma untagged_quiet f : f_tags f = [] -> quiet f.
Proof. intros E. left. unfold is_diagnostic. by rewrite E. Qed.

Lemma not_tagged_quiet f : lit "diagnostic" ∉ f_tags f -> quiet f.
Proof.
  intros Hf. left. unfold is_diagnostic. apply not_true_iff_false.
  intros (t & Ht & E)%existsb_exists. apply str_eqb_eq in E as ->. by apply Hf, list_elem_of_In.
Qed.

Lemma command_extract_quiet e inv res fs (f : Fact) :
  f ∈ @extract CommandExtractor _ e inv res fs -> quiet f.
Proof.
  simpl. destruct (extract_command_spec (ce_name e) (ce_policy e) (command inv)) as (l & -> & Hl). simpl.
  intros Hf. destruct Hl as [(k & v & ->)|(? & ? & ? & _ & _ & Hc & _)].
  - apply list_elem_of_singleton in Hf as ->. by right.
  - rewrite Forall_forall in Hc. apply not_tagged_quiet. by apply Hc.
Qed.

Lemma glob_extract_quiet e inv res fs (f : Fact) :
  f ∈ @extract GlobExtractor _ e inv res fs -> quiet f.
Proof.
  simpl. unfold glob_extract. destruct (fs_glob fs _); [|by rewrite elem_of_nil].
  intros (p & -> & _)%list_elem_of_fmap. by apply untagged_quiet.
Qed.

Section AdapterFacts.
Context `{RegexCaptures} `{HashOrder}.

Lemma regex_extract_quiet e inv res fs (f : Fact) :
  f ∈ @extract RegexExtractor _ e inv res fs -> quiet f.
Proof.
  simpl. unfold regex_extract. destruct (captures _ _) as [caps|]; [|by rewrite elem_of_nil].
  destruct (Nat.ltb _ _).
  - rewrite list_elem_of_In, in_flat_map. intros (n & _ & Hf).
    destruct (cap_name caps n); [|done]. destruct Hf as [<-|[]]. by apply untagged_quiet.
  - destruct (cap_get0 caps); [|by rewrite elem_of_nil].
    intros ->%list_elem_of_singleton. by apply untagged_quiet.
Qed.

Lemma instance_quiet i inv res fs f : f ∈ instance_extract i inv res fs -> quiet f.
Proof.
  destruct i as [e|e|e];
    [exact (regex_extract_quiet e inv res fs f)|exact (glob_extract_quiet e inv res fs f)
    |exact (command_extract_quiet e inv res fs f)].
Qed.

Lemma run_extractor_quiet config inv res fs facts f :
  run_extractor config inv res fs = Ok facts -> f ∈ facts -> quiet f.
Proof.
  unfold run_extractor, RegexExtractor_with_merge_mode.
  destruct (str_eqb (ec_type config) (lit "regex")).
  { destruct (regex_new _); [|done]. intros [= <-]. apply (regex_extract_quiet _ inv res fs). }
  destruct (str_eqb (ec_type config) (lit "glob")); [intros [= <-]; apply (glob_extract_quiet _ inv res fs)|].
  destruct (str_eqb (ec_type config) (lit "command")); [intros [= <-];
    exact (command_extract_quiet (CommandExtractor_with_policy (ec_id config)
             (default policy_default (ec_policy config))) inv res fs f)|].
  intros [= <-]. by rewrite elem_of_nil.
Qed.

Lemma execute_quiet p inv res fs e f :
  f ∈ fst (execute_extractors p inv res fs e) -> quiet f.
Proof.
  unfold execute_extractors. cbn [fst]. rewrite elem_of_app, !list_elem_of_In, !in_flat_map.
  intros [(i & _ & Hf)|(x & _ & Hf)].
  - by apply (instance_quiet i inv res fs), list_elem_of_In.
  - unfold per_call_facts in Hf. destruct (decide _); [done|].
    destruct (run_extractor x inv res fs) as [facts|] eqn:E; [|done].
    by apply (run_extractor_quiet _ _ _ _ _ _ E), list_elem_of_In.
Qed.

(** A rule evaluator whose derived facts carry no tags. *)
Definition tagless (re : option RuleEvaluator) : Prop :=
  forall ev id inv res facts f, re = Some ev -> f ∈ derived_facts (ev id inv res facts) -> f_tags f = [].

Lemma execute_actions_untagged acts out :
  (forall f, f ∈ derived_facts out -> f_tags f = []) ->
  forall f, f ∈ derived_facts (fold_left (fun o a => execute_action a o) acts out) -> f_tags f = [].
Proof.
  revert out. induction acts as [|a acts IH]; intros out Ho; [done|]. simpl. apply IH.
  intros f. destruct a; simpl; try apply Ho.
  rewrite elem_of_app. intros [Hf| ->%list_elem_of_singleton]; [by apply Ho|done].
Qed.

Lemma default_evaluator_tagless `{UnicodeTables} rules :
  tagless (Some (default_rule_evaluator rules)).
Proof.
  intros ev id inv res facts f [= <-]. unfold default_rule_evaluator, rule_evaluate, evaluate_rules.
  generalize (sort_by_priority (get_parsed_rules (find_rules rules id))). intros prs.
  assert (Hnil : forall g, g ∈ derived_facts RuleOutput_empty -> f_tags g = [])
    by (intros g Hg; by apply elem_of_nil in Hg).
  revert Hnil. generalize RuleOutput_empty. induction prs as [|pr prs IH]; intros out Ho; [apply Ho|].
  simpl. apply IH. intros g. unfold apply_rule. destruct (evaluate _ _); [|apply Ho].
  apply execute_actions_untagged. exact Ho.
Qed.

Lemma record_run_some i inv res ctx error a r a' :
  record_run i inv res ctx error a = (Some r, a') -> r = build_record i inv res ctx error.
Proof.
  unfold record_run. destruct (ad_recorder a); [|done]. destruct (_ <=? _)%Z; [done|]. by intros [= <- _].
Qed.

Lemma record_run_pipeline i inv res ctx error a :
  ad_pipeline (snd (record_run i inv res ctx error a)) = ad_pipeline a.
Proof. unfold record_run. destruct (ad_recorder a); [|done]. by destruct (_ <=? _)%Z. Qed.

(** The record a call hands over is the record of its run. *)
Lemma enrich_record i a fs spec cresult ctx r a' :
  enrich i a fs spec cresult = (ctx, Some r, a') ->
  exists c error,
    match fst (run (in_context_ts i) (ad_pipeline a) (map_command_spec spec) (map_command_result cresult) fs) with
    | Ok c' => c = Some c' /\ error = None
    | Err e => c = None /\ error = Some e
    end /\
    r = build_record i (map_command_spec spec) (map_command_result cresult) c error.
Proof.
  unfold enrich. destruct (negb _); [done|]. destruct (run _ _ _ _ fs) as [[c|e] p]; cbn [fst]; intros E.
  - exists (Some c), None. split; [done|]. revert E. destruct (ac_facts c);
      (destruct (record_run i _ _ (Some c) None _) as [sp b] eqn:Eb); intros [= _ -> _];
      by apply record_run_some in Eb.
  - exists None, (Some e). split; [done|]. revert E.
    destruct (record_run i _ _ None (Some e) _) as [sp b] eqn:Eb; intros [= _ -> _].
    by apply record_run_some in Eb.
Qed.

Lemma enrich_stream_record i a fs spec out err code duration timed ctx r a' :
  enrich_stream i a fs spec out err code duration timed = (ctx, Some r, a') ->
  exists c error,
    r = build_record i (map_command_spec spec) (mkResult code out err duration timed) c error.
Proof.
  unfold enrich_stream. destruct (negb _); [done|]. destruct (run _ _ _ _ fs) as [[c|e] p]; intros E.
  - exists (Some c), None. revert E. destruct (ac_facts c);
      (destruct (record_run i _ _ (Some c) None _) as [sp b] eqn:Eb); intros [= _ -> _];
      by apply record_run_some in Eb.
  - exists None, (Some e). revert E.
    destruct (record_run i _ _ None (Some e) _) as [sp b] eqn:Eb; intros [= _ -> _].
    by apply record_run_some in Eb.
Qed.

Lemma run_no_diagnostics now p inv res fs c :
  pipeline_ok p -> tagless (rule_evaluator p) -> fst (run now p inv res fs) = Ok c ->
  List.filter is_diagnostic (ac_facts c) = [].
Proof.
  intros Hp Ht Hrun.
  assert (Hall : forall f, f ∈ ac_facts c -> is_diagnostic f = false).
  { rewrite run_match in Hrun by done. destruct (List.find _ _) as [e|];
      [|injection Hrun as <-; intros f Hf; by apply elem_of_nil in Hf].
    injection Hrun as <-. simpl ac_facts. intros f [Hf Ha]%normalize_sub.
    assert (Hqf : quiet f).
    { apply elem_of_app in Hf as [Hf|Hf]; [by apply execute_quiet in Hf|]. apply untagged_quiet.
      unfold rules_of in Hf. destruct (rule_evaluator p) as [ev|] eqn:Er.
      - by apply (Ht _ _ _ _ _ f eq_refl) in Hf.
      - by apply elem_of_nil in Hf. }
    destruct Hqf as [?|E]; [done|]. unfold above in Ha. by rewrite E in Ha. }
  induction (ac_facts c) as [|f l IH]; [done|]. simpl. rewrite Hall by apply list_elem_of_here.
  apply IH. intros g Hg. apply Hall. by apply list_elem_of_further.
Qed.

(** The records never count a diagnostic: with the rule evaluator of the
    engine, or none, no fact of a context has the diagnostic tag, so the number
    of diagnostics handed to the recorder is 0 whatever the command was. *)
Theorem diagnostics_never_counted (i : CallInputs) (a a' : Adapter) (fs : FileSystem)
    (spec : CommandSpec) (cresult : CommandResult) (ctx : option AgentContext)
    (record : EnrichmentRunRecord) :
  pipeline_ok (ad_pipeline a) -> tagless (rule_evaluator (ad_pipeline a)) ->
  enrich i a fs spec cresult = (ctx, Some record, a') ->
  diagnostics_count record = 0%Z.
Proof.
  intros Hp Ht E. apply enrich_record in E as (c & error & Hc & ->).
  destruct (fst (run _ _ _ _ fs)) as [c'|e] eqn:Er; destruct Hc as [-> ->]; [|done].
  simpl. by rewrite (run_no_diagnostics _ _ _ _ _ _ Hp Ht Er).
Qed.

Lemma truncate_500 s : match truncate_string s 500 with Some t => length t <= 501 | None => trim s = [] end.
Proof.
  unfold truncate_string. change (Nat.eqb 500 0) with false. cbv iota.
  destruct (trim s) as [|x l]; [done|]. destruct (Nat.leb_spec (length s) 500); cbv beta iota; [lia|].
  rewrite truncate_loop_first, length_app, length_take by lia.
  change (length [ellipsis]) with 1. lia.
Qed.

Lemma build_record_bounded i inv res c error :
  let r := build_record i inv res c error in
  (length (run_command r) <= 501 \/ trim (command inv) = [] /\ run_command r = command inv) /\
  match output_summary_stdout r with Some t => length t <= 501 | None => trim (stdout res) = [] end /\
  match output_summary_stderr r with Some t => length t <= 501 | None => trim (stderr res) = [] end.
Proof.
  cbv zeta. unfold build_record. simpl. pose proof (truncate_500 (command inv)) as Hc.
  split; [|split; apply truncate_500]. destruct (truncate_string (command inv) 500); [by left|by right].
Qed.

(** Whatever a command prints, the record of its run, streamed or not,
    holds at most 501 characters of each output, and of the command, except
    that a command of blanks only is stored in full. *)
Theorem record_bounded (i : CallInputs) (a a' : Adapter) (fs : FileSystem) (spec : CommandSpec)
    (ctx : option AgentContext) (r : EnrichmentRunRecord) :
  (exists cresult, enrich i a fs spec cresult = (ctx, Some r, a')) \/
  (exists out err code duration timed,
     enrich_stream i a fs spec out err code duration timed = (ctx, Some r, a')) ->
  (length (run_command r) <= 501 \/ trim (cs_command spec) = [] /\ run_command r = cs_command spec) /\
  Forall (fun o => match o with Some t => length t <= 501 | None => True end)
    [output_summary_stdout r; output_summary_stderr r].
Proof.
  assert (Hb : forall res c error, r = build_record i (map_command_spec spec) res c error ->
    (length (run_command r) <= 501 \/ trim (cs_command spec) = [] /\ run_command r = cs_command spec) /\
    Forall (fun o => match o with Some t => length t <= 501 | None => True end)
      [output_summary_stdout r; output_summary_stderr r]).
  { intros res c error ->. destruct (build_record_bounded i (map_command_spec spec) res c error) as (H1' & H2 & H3).
    split; [exact H1'|]. repeat constructor.
    - by destruct (output_summary_stdout _).
    - by destruct (output_summary_stderr _). }
  intros [(cresult & E)|(out & err & code & duration & timed & E)].
  - apply enrich_record in E as (c & error & _ & E). by eapply Hb.
  - apply enrich_stream_record in E as (c & error & E). by eapply Hb.
Qed.

(** C20. The telemetry never changes the answer: whether there is a recorder,
    how many records are in flight, what the metrics hold and what the clocks
    and the identifiers of the record are, the response and the pipeline's next
    state are the same; and the response is the context of the run exactly when
    the adapter is enabled and the run found a fact. *)
Theorem response_spec (i i' : CallInputs) (a b : Adapter) (fs : FileSystem) (spec : CommandSpec)
    (cresult : CommandResult) :
  ad_pipeline a = ad_pipeline b -> cfg_enabled (ad_config a) = cfg_enabled (ad_config b) ->
  in_context_ts i = in_context_ts i' ->
  let '(ca, _, a') := enrich i a fs spec cresult in
  let '(cb, _, b') := enrich i' b fs spec cresult in
  ca = cb /\ ad_pipeline a' = ad_pipeline b' /\
  ca = (if cfg_enabled (ad_config a) then
          match fst (run (in_context_ts i) (ad_pipeline a) (map_command_spec spec)
                       (map_command_result cresult) fs) with
          | Ok c => match ac_facts c with [] => None | _ => Some c end
          | Err _ => None
          end
        else None).
Proof.
  intros Hp He Hi. unfold enrich. rewrite <- Hp, <- He, <- Hi. destruct (cfg_enabled (ad_config a)); [|done].
  cbn [negb]. destruct (run (in_context_ts i) (ad_pipeline a) _ _ fs) as [[c|e] p]; cbn [fst].
  - destruct (ac_facts c);
      repeat match goal with |- context [record_run ?x1 ?x2 ?x3 ?x4 ?x5 ?x6] =>
        pose proof (record_run_pipeline x1 x2 x3 x4 x5 x6);
        destruct (record_run x1 x2 x3 x4 x5 x6) as [??] end; simpl in *; repeat split; congruence.
  - repeat match goal with |- context [record_run ?x1 ?x2 ?x3 ?x4 ?x5 ?x6] =>
        pose proof (record_run_pipeline x1 x2 x3 x4 x5 x6);
        destruct (record_run x1 x2 x3 x4 x5 x6) as [??] end; simpl in *; repeat split; congruence.
Qed.
End AdapterFacts.

(** ** Witnesses *)

#[local] Existing Instances substring_engine substring_captures some_order ascii_tables.

Definition sample_inputs : CallInputs := mkInputs [] 0 5000000 (lit "r1") (lit "2025") 0 0.

Definition sample_adapter : Adapter :=
  with_recorder (with_pipeline tie_cached EnrichmentConfig_default) RetentionConfig_default.

Definition sample_spec : CommandSpec := CommandSpec_new (lit "mvn test").
Definition sample_output : CommandResult := mkCommandResult 0 (lit "BUILD SUCCESS") [] 10 false.

(** A call that hands over a record. *)
Lemma sample_record :
  exists ctx r a', enrich sample_inputs sample_adapter no_files sample_spec sample_output = (ctx, Some r, a').
Proof. eexists _, _, _. vm_compute. reflexivity. Qed.

Lemma slots_bounded_witness :
  (Z.of_nat (writing (mkSlots 1 [] 1)) <= 1)%Z /\ rtc (slot_step 1) no_calls (mkSlots 1 [] 1).
Proof.
  assert (Hr : rtc (slot_step 1) no_calls (mkSlots 1 [] 1)).
  { apply (rtc_l _ _ (mkSlots 1 [0]%Z 0)); [apply (step_enter 1 0 []); discriminate|].
    apply (rtc_l _ _ (mkSlots 1 [] 1)); [apply (step_accept 1 1 [] 0%Z []); lia|]. apply rtc_refl. }
  split; [|exact Hr]. apply (slots_bounded 1 (mkSlots 1 [] 1)); [lia|exact Hr].
Defined.

Lemma diagnostics_never_counted_witness :
  exists r, diagnostics_count r = 0%Z /\ run_id r = lit "r1".
Proof.
  destruct sample_record as (ctx & r & a' & E). exists r. split.
  - apply (diagnostics_never_counted sample_inputs sample_adapter a' no_files sample_spec sample_output ctx r);
      [exact I|intros ev id inv res facts f Hev _; discriminate Hev|exact E].
  - destruct (enrich_record _ _ _ _ _ _ _ _ E) as (c & error & _ & ->). reflexivity.
Defined.

Lemma record_bounded_witness :
  exists r, length (run_command r) <= 501 \/ trim (cs_command sample_spec) = [] /\ run_command r = cs_command sample_spec.
Proof.
  destruct sample_record as (ctx & r & a' & E). exists r.
  apply (record_bounded sample_inputs sample_adapter a' no_files sample_spec ctx r).
  left. exists sample_output. exact E.
Defined.

Lemma response_witness :
  fst (fst (enrich sample_inputs sample_adapter no_files sample_spec sample_output)) =
  fst (fst (enrich sample_inputs (with_pipeline tie_cached EnrichmentConfig_default) no_files
              sample_spec sample_output)).
Proof.
  pose proof (response_spec sample_inputs sample_inputs sample_adapter
    (with_pipeline tie_cached EnrichmentConfig_default) no_files sample_spec sample_output
    eq_refl eq_refl eq_refl) as Hr.
  destruct (enrich sample_inputs sample_adapter no_files sample_spec sample_output) as [[ca ra] a'].
  destruct (enrich sample_inputs (with_pipeline tie_cached EnrichmentConfig_default) no_files
              sample_spec sample_output) as [[cb rb] b'].
  exact (proj1 Hr).
Defined.
