(* ===== verification/SandboxFs.v ===== *)
(** * The file system of a sandbox

    Models [bastion-infrastructure/src/enrichment/fs.rs]: the file system port
    of the extractors, implemented by running [cat] and [find] inside the
    sandbox.  Running a command is a parameter; what the shell makes of the
    command lines is said by [sh_words], a reader of the simple commands of the
    POSIX shell, against which the quoting is proved. *)

From S2P Require Import Prelude Utf8 Command Extractors Adapter.

(** ** Strings of the standard library *)

(** [str::contains] of a character. *)
Definition contains_char (s : str) (c : char) : bool := existsb (N.eqb c) s.

Definition star : char := 42%N.
Definition slash : char := 47%N.
Definition quote_c : char := 39%N.

(** [s.replace("**", "")]. *)
Fixpoint remove_stars (s : str) : str :=
  match s with
  | [] => []
  | c :: s' =>
      match s' with
      | d :: s'' => if (c =? star)%N && (d =? star)%N then remove_stars s'' else c :: remove_stars s'
      | [] => [c]
      end
  end.

(** [trim_end_matches('/')]. *)
Definition trim_slashes (s : str) : str := rev (snd (span (N.eqb slash) (rev s))).

(** Splitting at the last slash: what is before it and what is after it. *)
Definition rsplit_slash (s : str) : option (str * str) :=
  let '(name, before) := span (fun c => negb (c =? slash)%N) (rev s) in
  match before with
  | [] => None
  | _ :: dir => Some (rev dir, rev name)
  end.

(** [str::lines]: without the line ends, a carriage return before one included. *)
Definition strip_cr (s : str) : str :=
  match rev s with c :: r => if (c =? 13)%N then rev r else s | [] => s end.
Fixpoint lines_from (s cur : str) : list str :=
  match s with
  | [] => match cur with [] => [] | _ => [cur] end
  | c :: s' => if (c =? 10)%N then strip_cr cur :: lines_from s' [] else lines_from s' (cur ++ [c])
  end.
Definition lines (s : str) : list str := lines_from s [].

(** ** Validation *)

Definition DANGEROUS_CHARS : list char := [chr ";"; chr "|"; chr "$"; chr "`"; 10; 13; 0]%N.

Definition is_dangerous_path (path : str) : bool := existsb (contains_char path) DANGEROUS_CHARS.

Definition dangerous_meta : list char :=
  [chr ";"; chr "|"; chr "$"; chr "`"; quote_c; 34; chr "<"; chr ">"; chr "&"; 10; 13; 0]%N.

Definition is_valid_glob_pattern (pattern : str) : bool :=
  match pattern with
  | [] => false
  | _ => negb (existsb (contains_char pattern) dangerous_meta)
  end.

(** ** Commands *)

(** Escaping for use between single quotes. *)
Definition escape_quotes (s : str) : str := replace_char quote_c [quote_c; 92; quote_c; quote_c]%N s.

Definition cat_command (path : str) : str := lit "cat '" ++ escape_quotes path ++ lit "'".

(** Directory and name of a pattern, before cleaning. *)
Definition split_pattern (pattern : str) : str * str :=
  let working := match strip_prefix (lit "**/") pattern with Some s => s | None => pattern end in
  match rsplit_slash working with
  | Some (dir, name) => match dir with [] => (lit ".", name) | _ => (dir, name) end
  | None => (lit ".", working)
  end.

Definition clean_dir (dir : str) : str :=
  match trim_slashes (remove_stars dir) with [] => lit "." | d => d end.

Definition find_command (dir name : str) : str :=
  lit "find " ++ escape_quotes dir ++ lit " -name '" ++ escape_quotes name ++ lit "' 2>/dev/null".

Definition glob_to_find_command (pattern : str) : result EnrichmentError CommandSpec :=
  let '(dir, name) := split_pattern pattern in
  let dir := clean_dir dir in
  if str_contains dir (lit "..") || starts_with (lit "/") dir then
    Err (ErrFileSystem (lit "path traversal not allowed in glob pattern"))
  else Ok (CommandSpec_new (find_command dir name)).

(** ** The port *)

(** Running a command in the sandbox: the error is its text. *)
Definition CommandRunner : Type := CommandSpec -> result str CommandResult.

Definition read_to_string (run : CommandRunner) (path : str) : result EnrichmentError str :=
  if is_dangerous_path path then Err (ErrFileSystem (lit "unsafe path"))
  else
    match run (CommandSpec_new (cat_command path)) with
    | Err e => Err (ErrFileSystem e)
    | Ok r =>
        if negb (cr_exit_code r =? 0)%Z then
          Err (ErrFileSystem (lit "cat " ++ path ++ lit " failed: " ++ from_utf8_lossy (cr_stderr r)))
        else Ok (from_utf8_lossy (cr_stdout r))
    end.

Definition glob (run : CommandRunner) (pattern : str) : result EnrichmentError (list str) :=
  if negb (is_valid_glob_pattern pattern) then Err (ErrFileSystem (lit "invalid glob pattern"))
  else
    match glob_to_find_command pattern with
    | Err e => Err e
    | Ok cmd =>
        match run cmd with
        | Err e => Err (ErrFileSystem e)
        | Ok r =>
            if negb (cr_exit_code r =? 0)%Z then Ok []
            else Ok (List.filter (fun l => match l with [] => false | _ => true end)
                       (lines (from_utf8_lossy (cr_stdout r))))
        end
    end.

(** [SandboxFileSystem] as the extractors' file system. *)
Definition sandbox_fs (run : CommandRunner) : FileSystem :=
  mkFileSystem (read_to_string run) (glob run).

Example glob_simple : option_map cs_command
    (match glob_to_find_command (lit "src/main/java/**/*.kt") with Ok c => Some c | Err _ => None end) =
  Some (lit "find src/main/java -name '*.kt' 2>/dev/null").
Proof. reflexivity. Qed.

(** ** The shell's reading of a command line

    The words of a simple command: blanks separate, single quotes quote, a
    backslash quotes the next character.  Anything with a further meaning to
    the shell (operators, expansions, comments, patterns outside quotes) is
    outside this reader, which then answers [None]. *)

Definition is_blank (c : char) : bool := (c =? 32)%N || (c =? 9)%N.
Definition shell_special (c : char) : bool :=
  existsb (N.eqb c) [10; 13; 0; 34; chr ";"; chr "|"; chr "&"; chr "<"; chr ">"; chr "("; chr ")";
                     chr "$"; chr "`"; chr "*"; chr "?"; chr "["; chr "#"; chr "~"]%N.

Definition emit_opt (cur : option str) : list str := match cur with Some w => [w] | None => [] end.
Definition push (cur : option str) (c : char) : option str := Some (default [] cur ++ [c]).

Fixpoint sh (s : str) (quoted : bool) (cur : option str) : option (list str) :=
  match s with
  | [] => if quoted then None else Some (emit_opt cur)
  | c :: s' =>
      if quoted then
        if (c =? quote_c)%N then sh s' false cur else sh s' true (push cur c)
      else if (c =? quote_c)%N then sh s' true (Some (default [] cur))
      else if is_blank c then option_map (app (emit_opt cur)) (sh s' false None)
      else if (c =? 92)%N then
        match s' with c2 :: s'' => sh s'' false (push cur c2) | [] => None end
      else if shell_special c then None
      else sh s' false (push cur c)
  end.

Definition sh_words (s : str) : option (list str) := sh s false None.

(** Text between single quotes, however it is escaped, is read as it was. *)
Lemma sh_escaped s rest w :
  sh (escape_quotes s ++ quote_c :: rest) true (Some w) = sh rest false (Some (w ++ s)).
Proof.
  revert w. unfold escape_quotes, replace_char. induction s as [|c s IH]; intros w.
  - simpl. by rewrite app_nil_r.
  - cbn [flat_map]. rewrite <- app_assoc. destruct (c =? quote_c)%N eqn:E.
    + bools. subst. cbn [app sh]. rewrite !N.eqb_refl. cbn [default].
      change (92 =? quote_c)%N with false. change (is_blank 92) with false.
      change (92 =? 92)%N with true. cbv iota. unfold push. cbn [default from_option].
      change (quote_c =? quote_c)%N with true. cbv iota. cbn [default from_option id].
      rewrite IH. by rewrite <- app_assoc.
    + cbn [app sh]. rewrite E. unfold push. cbn [default from_option id]. rewrite IH.
      by rewrite <- app_assoc.
Qed.

(** Reading a file: whatever the path is, quotes included, the shell reads
    the command line as [cat] with the path as its only argument. *)
Theorem cat_command_words (path : str) : sh_words (cat_command path) = Some [lit "cat"; path].
Proof.
  unfold cat_command. change (lit "cat '" ++ escape_quotes path ++ lit "'")
    with (lit "cat '" ++ (escape_quotes path ++ quote_c :: [])).
  change (sh_words (lit "cat '" ++ (escape_quotes path ++ quote_c :: [])))
    with (option_map (app [lit "cat"]) (sh (escape_quotes path ++ quote_c :: []) true (Some []))).
  by rewrite sh_escaped.
Qed.

(** Two command lines joined by a blank. *)
Lemma sh_app_blank n d q cur ws r :
  length d <= n -> sh d q cur = Some ws ->
  sh (d ++ 32%N :: r) q cur = option_map (app ws) (sh r false None).
Proof.
  revert d q cur ws. induction n as [|n IH]; intros d q cur ws Hn;
    (destruct d as [|c d]; [|simpl in Hn]).
  1,3: cbn [sh app]; destruct q; [done|]; intros [= <-]; done.
  { lia. }
  cbn [sh app]. destruct q.
  - destruct (c =? quote_c)%N; apply IH; lia.
  - destruct (c =? quote_c)%N; [apply IH; lia|]. destruct (is_blank c).
    + destruct (sh d false None) as [ws'|] eqn:E; [|done]. intros [= <-].
      rewrite (IH d false None ws') by (done || lia). destruct (sh r false None); [|done]. simpl.
      by rewrite app_assoc.
    + destruct (c =? 92)%N.
      * destruct d as [|c2 d]; [done|]. cbn [app]. apply IH. simpl in Hn. lia.
      * destruct (shell_special c); [done|]. apply IH. lia.
Qed.

Lemma escape_quotes_id s : quote_c ∉ s -> escape_quotes s = s.
Proof.
  unfold escape_quotes, replace_char. induction s as [|c s IH]; intros Hs; [done|].
  apply not_elem_of_cons in Hs as [Hc Hs]. cbn [flat_map].
  rewrite (proj2 (N.eqb_neq _ _)) by congruence. simpl. by rewrite IH.
Qed.

(** The command line without its redirection. *)
Definition find_line (dir name : str) : str :=
  lit "find " ++ dir ++ 32%N :: lit "-name '" ++ escape_quotes name ++ [quote_c].

Lemma find_line_words dir name ws :
  sh_words dir = Some ws -> sh_words (find_line dir name) = Some (lit "find" :: ws ++ [lit "-name"; name]).
Proof.
  intros Hd. unfold find_line.
  change (sh_words (lit "find " ++ dir ++ 32%N :: lit "-name '" ++ escape_quotes name ++ [quote_c]))
    with (option_map (app [lit "find"])
            (sh (dir ++ 32%N :: lit "-name '" ++ escape_quotes name ++ [quote_c]) false None)).
  rewrite (sh_app_blank (length dir) dir false None ws) by done.
  change (sh (lit "-name '" ++ escape_quotes name ++ [quote_c]) false None)
    with (option_map (app [lit "-name"]) (sh (escape_quotes name ++ quote_c :: []) true (Some []))).
  by rewrite sh_escaped.
Qed.

(** The directory and the name are made of characters of the pattern. *)
Lemma elem_of_remove_stars n s c : length s <= n -> c ∈ remove_stars s -> c ∈ s.
Proof.
  revert s. induction n as [|n IH]; intros [|x s] Hn; try done; simpl in Hn; [lia|].
  destruct s as [|y s]; [done|]. cbn [remove_stars]. destruct (_ && _)%bool.
  - intros Hc. apply list_elem_of_further, list_elem_of_further. apply IH; [simpl in Hn; lia|done].
  - intros [->|Hc]%elem_of_cons; [apply list_elem_of_here|]. apply list_elem_of_further.
    apply IH; [simpl in *; lia|done].
Qed.

Lemma elem_of_span_snd f s c : c ∈ snd (span f s) -> c ∈ s.
Proof. intros Hc. rewrite <- (span_app f s). apply elem_of_app. by right. Qed.

Lemma elem_of_clean_dir d c : c ∈ clean_dir d -> c ∈ d \/ c = chr ".".
Proof.
  unfold clean_dir. destruct (trim_slashes (remove_stars d)) as [|x l] eqn:E.
  - intros ->%list_elem_of_singleton. by right.
  - rewrite <- E. unfold trim_slashes. rewrite list_elem_of_In, <- in_rev, <- list_elem_of_In.
    intros Hc%elem_of_span_snd. rewrite list_elem_of_In, <- in_rev, <- list_elem_of_In in Hc.
    left. by apply (elem_of_remove_stars (length d)).
Qed.

Lemma rsplit_slash_some s dir name :
  rsplit_slash s = Some (dir, name) -> s = dir ++ slash :: name /\ slash ∉ name.
Proof.
  unfold rsplit_slash.
  pose proof (span_app (fun c => negb (c =? slash)%N) (rev s)) as Ha.
  pose proof (span_all (fun c => negb (c =? slash)%N) (rev s)) as Hall.
  pose proof (span_stop (fun c => negb (c =? slash)%N) (rev s)) as Hs.
  destruct (span _ (rev s)) as [nm before]. simpl in *. destruct before as [|x d]; [done|].
  intros [= <- <-]. specialize (Hs x d eq_refl). bools. subst x. split.
  - rewrite <- (rev_involutive s), <- Ha, rev_app_distr. simpl. by rewrite <- app_assoc.
  - rewrite list_elem_of_In, <- in_rev, <- list_elem_of_In. intros Hin.
    rewrite Forall_forall in Hall. specialize (Hall _ Hin). simpl in Hall. discriminate Hall.
Qed.

Lemma rsplit_slash_none s : rsplit_slash s = None -> slash ∉ s.
Proof.
  unfold rsplit_slash. pose proof (span_app (fun c => negb (c =? slash)%N) (rev s)) as Ha.
  pose proof (span_all (fun c => negb (c =? slash)%N) (rev s)) as Hall.
  destruct (span _ (rev s)) as [nm before]. simpl in *. destruct before as [|x d]; [|done].
  intros _ Hin. rewrite app_nil_r in Ha. subst nm. rewrite Forall_forall in Hall.
  specialize (Hall slash). rewrite list_elem_of_In, <- in_rev, <- list_elem_of_In in Hall.
  specialize (Hall Hin). discriminate Hall.
Qed.

Lemma strip_prefix_sub pre s r c : strip_prefix pre s = Some r -> c ∈ r -> c ∈ s.
Proof.
  unfold strip_prefix. destruct (starts_with pre s); [|done]. intros [= <-] Hc.
  rewrite <- (take_drop (length pre) s). apply elem_of_app. by right.
Qed.

Lemma split_pattern_ok pattern dir name :
  split_pattern pattern = (dir, name) ->
  slash ∉ name /\ (forall c, c ∈ dir -> c ∈ pattern \/ c = chr ".") /\ (forall c, c ∈ name -> c ∈ pattern).
Proof.
  unfold split_pattern.
  set (working := match strip_prefix (lit "**/") pattern with Some s => s | None => pattern end).
  assert (Hw : forall c, c ∈ working -> c ∈ pattern).
  { intros c. unfold working. destruct (strip_prefix _ _) eqn:E; [|done]. by apply (strip_prefix_sub _ _ _ c E). }
  destruct (rsplit_slash working) as [[d nm]|] eqn:E.
  - apply rsplit_slash_some in E as [Ew Hn]. intros Heq.
    assert (nm = name /\ (d = dir \/ dir = lit ".")) as [-> Hd]
      by (destruct d; injection Heq as <- <-; auto).
    split; [done|]. split.
    + intros c Hc. destruct Hd as [-> | ->].
      * left. apply Hw. rewrite Ew, elem_of_app. by left.
      * right. by apply list_elem_of_singleton in Hc.
    + intros c Hc. apply Hw. rewrite Ew, elem_of_app. right. by apply list_elem_of_further.
  - apply rsplit_slash_none in E. intros [= <- <-]. split; [done|]. split; [|done].
    intros c Hc. right. by apply list_elem_of_singleton in Hc.
Qed.

Lemma valid_pattern_quote pattern : is_valid_glob_pattern pattern = true -> quote_c ∉ pattern.
Proof.
  destruct pattern as [|c p]; [done|]. unfold is_valid_glob_pattern. rewrite negb_true_iff.
  intros Hv Hin. assert (existsb (contains_char (c :: p)) dangerous_meta = true) as Ht; [|congruence].
  apply existsb_exists. exists quote_c. split; [simpl; tauto|].
  apply existsb_exists. exists quote_c. split; [by apply list_elem_of_In|]. apply N.eqb_refl.
Qed.

(** Globbing: the command of an accepted pattern is a [find] whose last
    argument is the name part of the pattern, read by the shell as one word
    without a slash; the directory part has no parent step, is not absolute, and
    is read by the shell as it stands, word by word, before it. *)
Theorem glob_command_words (pattern : str) (cmd : CommandSpec) :
  is_valid_glob_pattern pattern = true -> glob_to_find_command pattern = Ok cmd ->
  exists dir name,
    cs_command cmd = find_line dir name ++ lit " 2>/dev/null" /\
    slash ∉ name /\ str_contains dir (lit "..") = false /\ starts_with (lit "/") dir = false /\
    forall ws, sh_words dir = Some ws ->
      sh_words (find_line dir name) = Some (lit "find" :: ws ++ [lit "-name"; name]).
Proof.
  intros Hv%valid_pattern_quote. unfold glob_to_find_command.
  destruct (split_pattern pattern) as [dir name] eqn:Es. apply split_pattern_ok in Es as (Hs & Hd & Hn).
  destruct (_ || _)%bool eqn:Eb; [done|]. bools. intros [= <-].
  exists (clean_dir dir), name. split.
  - unfold CommandSpec_new, find_command, find_line. simpl cs_command.
    rewrite (escape_quotes_id (clean_dir dir)).
    + rewrite <- !app_assoc. simpl app. rewrite <- !app_assoc. done.
    + intros [Hc|Hc]%elem_of_clean_dir; [|discriminate Hc].
      destruct (Hd _ Hc) as [?|Hc']; [done|discriminate Hc'].
  - split; [done|]. split; [done|]. split; [done|]. intros ws. apply find_line_words.
Qed.

(** The directory part is not quoted, and blanks and dashes are accepted: a
    pattern can add options, here one that deletes. *)
Example glob_option_injection :
  let pattern := lit "x -delete/*.jar" in
  is_valid_glob_pattern pattern = true /\
  glob_to_find_command pattern = Ok (CommandSpec_new (lit "find x -delete -name '*.jar' 2>/dev/null")) /\
  sh_words (find_line (lit "x -delete") (lit "*.jar")) =
    Some [lit "find"; lit "x"; lit "-delete"; lit "-name"; lit "*.jar"].
Proof. repeat split; vm_compute; reflexivity. Qed.

(** ** Witness *)

Lemma glob_command_witness :
  exists dir name,
    lit "find target -name '*.jar' 2>/dev/null" = find_line dir name ++ lit " 2>/dev/null" /\
    slash ∉ name /\ starts_with (lit "/") dir = false.
Proof.
  destruct (glob_command_words (lit "target/*.jar")
    (CommandSpec_new (lit "find target -name '*.jar' 2>/dev/null")) eq_refl eq_refl)
    as (dir & name & E & Hn & _ & Ha & _).
  exists dir, name. split; [exact E|]. split; [exact Hn|exact Ha].
Defined.
