(* ===== verification/Fmt.v ===== *)
(** * Formatting

    What [std::fmt] prints: the [Debug] form of a string, the shortest decimal
    of a double and its form with two decimals. *)

From Stdlib Require Import SpecFloat.
From S2P Require Import Prelude.

(** ** Strings *)

(** Which characters outside ASCII [Debug] prints as they are is decided by the
    Unicode tables, an argument of the model. *)
Class DebugTables := uni_printable : N -> bool.
Definition no_printable : DebugTables := fun _ => false.

Definition hex_digit (n : N) : char := if (n <? 10)%N then (48 + n)%N else (87 + n)%N.

(** The digits of a code point, at most six. *)
Fixpoint hex_aux (fuel : nat) (n : N) (acc : str) : str :=
  match fuel with
  | O => acc
  | S f =>
      let acc' := hex_digit (n mod 16) :: acc in
      if (n <? 16)%N then acc' else hex_aux f (n / 16)%N acc'
  end.
Definition show_hex (n : N) : str := hex_aux 6 n [].

Definition double_quote : char := 34%N.
Definition backslash : char := 92%N.

Definition debug_char `{DebugTables} (c : char) : str :=
  if (c =? 0)%N then lit "\0"
  else if (c =? 9)%N then lit "\t"
  else if (c =? 13)%N then lit "\r"
  else if (c =? 10)%N then lit "\n"
  else if (c =? double_quote)%N then [backslash; double_quote]
  else if (c =? backslash)%N then [backslash; backslash]
  else if (if (c <? 0x80)%N then in_range 0x20 0x7E c else uni_printable c) then [c]
  else lit "\u{" ++ show_hex c ++ lit "}".

Definition debug_str `{DebugTables} (s : str) : str :=
  double_quote :: flat_map debug_char s ++ [double_quote].

Example debug_ex :
  @debug_str no_printable [97; 34; 92; 10; 27]%N =
    [34; 97; 92; 34; 92; 92; 92; 110; 92; 117; 123; 49; 98; 125; 34]%N.
Proof. reflexivity. Qed.

(** ** Doubles *)

(** The value of a positive finite double as a fraction. *)
Definition fraction (m : positive) (e : Z) : Z * Z :=
  if (0 <=? e)%Z then (Zpos m * 2 ^ e, 1)%Z else (Zpos m, 2 ^ (- e))%Z.

(** The double nearest to [d * 10^k]. *)
Definition f64_of_decimal (d : Z) (k : Z) : float :=
  match d with
  | Zpos p =>
      if (0 <=? k)%Z then f64_of_Z (d * 10 ^ k)
      else match 10 ^ (- k) with
           | Zpos q => f64_div (S754_finite false p 0) (S754_finite false q 0)
           | _ => S754_nan
           end%Z
  | _ => f_zero
  end.

Definition f64_eqb (a b : float) : bool :=
  match SFcompare a b with Some Eq => true | _ => false end.

(** A carry out of the leading digit leaves a one and zeros. *)
Definition carry (d k n : Z) : Z * Z :=
  if (d =? 10 ^ n)%Z then (1, k + n)%Z else (d, k).

(** The decimal of [n] digits nearest to [num/den], when it reads back as [x];
    [mag] is the number of digits before the decimal point (or less than 1). *)
Definition candidate (x : float) (num den mag n : Z) : option (Z * Z) :=
  let k := (mag - n)%Z in
  let '(a, b) := if (0 <=? k)%Z then (num, den * 10 ^ k)%Z else (num * 10 ^ (- k), den)%Z in
  let d := (a / b)%Z in
  let lo := f64_eqb (f64_of_decimal d k) x in
  let hi := f64_eqb (f64_of_decimal (d + 1) k) x in
  if lo && (negb hi || (2 * (a - d * b) <=? b)%Z) then Some (d, k)
  else if hi then Some (carry (d + 1) k n) else None.

Fixpoint first_candidate (fuel : nat) (x : float) (num den mag n : Z) : Z * Z :=
  match fuel with
  | O => (0, 0)%Z
  | S f =>
      match candidate x num den mag n with
      | Some r => r
      | None => first_candidate f x num den mag (n + 1)
      end
  end.

(** The number of digits before the point: the least [k >= lo] with [x < 10^k]. *)
Fixpoint magnitude (fuel : nat) (num den k : Z) : Z :=
  match fuel with
  | O => k
  | S f =>
      let lt := if (0 <=? k)%Z then (num <? den * 10 ^ k)%Z else (num * 10 ^ (- k) <? den)%Z in
      if lt then k else magnitude f num den (k + 1)
  end.

Definition repeat_char (c : char) (n : Z) : str := repeat c (Z.to_nat n).

(** Digits [d] times [10^k] without an exponent. *)
Definition positional (d k : Z) : str :=
  let ds := show_Z d in
  let len := Z.of_nat (length ds) in
  if (0 <=? k)%Z then ds ++ repeat_char 48%N k
  else if (- k <? len)%Z then
    take (Z.to_nat (len + k)) ds ++ lit "." ++ drop (Z.to_nat (len + k)) ds
  else lit "0." ++ repeat_char 48%N (- k - len) ++ ds.

(** [{}]: the fewest digits that read back as the same double (17 always do,
    and no double is below [10^-324]). *)
Definition show_f64 (x : float) : str :=
  match x with
  | S754_zero s => if s then lit "-0" else lit "0"
  | S754_infinity s => if s then lit "-inf" else lit "inf"
  | S754_nan => lit "NaN"
  | S754_finite s m e =>
      let '(num, den) := fraction m e in
      let mag := magnitude 640 num den (-323) in
      let '(d, k) := first_candidate 17 (S754_finite false m e) num den mag 1 in
      (if s then lit "-" else []) ++ positional d k
  end.

(** [{:.2}]: rounded to hundredths, halves to even. *)
Definition hundredths (m : positive) (e : Z) : Z :=
  let '(num, den) := fraction m e in
  let q := (num * 100 / den)%Z in
  let r := (num * 100 - q * den)%Z in
  if (den <? 2 * r)%Z || ((den =? 2 * r)%Z && Z.odd q) then (q + 1)%Z else q.

Definition two_decimals (q : Z) : str :=
  show_Z (q / 100) ++ lit "." ++ show_Z (q mod 100 / 10) ++ show_Z (q mod 10).

Definition show_f64_2 (x : float) : str :=
  match x with
  | S754_zero s => if s then lit "-0.00" else lit "0.00"
  | S754_infinity s => if s then lit "-inf" else lit "inf"
  | S754_nan => lit "NaN"
  | S754_finite s m e => (if s then lit "-" else []) ++ two_decimals (hundredths m e)
  end.

Example show_f64_ex :
  map show_f64 [f64_of_decimal 85 (-2); f64_of_Z 5000; f64_of_decimal 12345 (-4);
                f64_of_decimal 1 (-7); f64_of_decimal 1 22] =
  [lit "0.85"; lit "5000"; lit "1.2345"; lit "0.0000001"; lit "10000000000000000000000"].
Proof. vm_compute. reflexivity. Qed.

Example show_f64_2_ex :
  map show_f64_2 [f64_of_decimal 125 (-3); f64_of_decimal 375 (-3); f64_of_decimal 7 (-1); f64_of_Z 12] =
  [lit "0.12"; lit "0.38"; lit "0.70"; lit "12.00"].
Proof. vm_compute. reflexivity. Qed.

