(* ===== verification/Optimizer.v ===== *)
(** * The optimizer of enrichment runs

    Models [enrichment-engine/src/optimizer.rs]: statistics of the recorded runs
    by enricher, their scores, the recommendations, and the report; and the
    repository the report is read from ([bastion-infrastructure/src/enrichment/
    sqlite_optimizer_repo.rs], [Adapter::get_optimizer_report]).  Sums of
    durations wrap as they do in a release build; the time of the report is left
    out; the order of the enrichers is that of a hash map. *)

From Stdlib Require Import SpecFloat.
From S2P Require Import Prelude Fmt Extractors Normalizer RunStore.

(** ** Data *)

Record AggregateStats := mkAggregate {
  ag_enricher_id : str; ag_total_runs : Z; ag_avg_latency_ms : float; ag_artifact_yield : float;
  ag_diagnostic_hit_rate : float; ag_false_positive_rate : float; ag_never_fired_rules : Z;
  ag_error_rate : float
}.

Record EnricherScore := mkScore {
  es_enricher_id : str; es_total_runs : Z; es_artifact_yield : float; es_diagnostic_hit_rate : float;
  es_false_positive_rate : float; es_avg_latency_ms : float; es_never_fired_rules : Z;
  es_utility_score : float
}.

Inductive RecAction := Keep | Review | Deprioritize | Remove.

#[export] Instance RecAction_eq_dec : EqDecision RecAction.
Proof. solve_decision. Defined.

Definition show_action (a : RecAction) : str :=
  match a with
  | Keep => lit "Keep" | Review => lit "Review" | Deprioritize => lit "Deprioritize"
  | Remove => lit "Remove"
  end.

Record OptimizationRecommendation := mkRecommendation {
  or_enricher_id : str; or_action : RecAction; or_reason : str; or_confidence : float
}.

Record OptimizerReport := mkReport {
  rp_scores : list EnricherScore; rp_recommendations : list OptimizationRecommendation;
  rp_total_runs_analyzed : Z
}.

(** ** Arithmetic *)

(** [f64::round]: to the nearest integer, halves away from zero. *)
Definition f64_round (x : float) : float :=
  match x with
  | S754_finite s m e =>
      if (0 <=? e)%Z then x
      else let q := ((2 * Zpos m + 2 ^ (- e)) / (2 * 2 ^ (- e)))%Z in
           match q with
           | Zpos p => binary_normalize 53 1024 (if s then Zneg p else Zpos p) 0 s
           | _ => S754_zero s
           end
  | _ => x
  end.

Definition f64_lt (a b : float) : bool :=
  match SFcompare a b with Some Lt => true | _ => false end.

(** [f64::clamp]; a NaN stays one. *)
Definition f64_clamp (x lo hi : float) : float :=
  let x := if f64_lt x lo then lo else x in if f64_lt hi x then hi else x.

Definition f64_one : float := f64_of_Z 1.

Definition round4 (x : float) : float :=
  f64_div (f64_round (f64_mul x (f64_of_Z 10000))) (f64_of_Z 10000).

Definition MIN_RUNS_FOR_CONFIDENCE : Z := 10.
Definition MAX_LATENCY_MS : float := f64_of_Z 5000.

Definition ratio (a b : Z) : float := f64_div (f64_of_Z a) (f64_of_Z b).

(** ** Scores *)

Definition latency_score (avg : float) : float :=
  f64_sub f64_one (f64_min (f64_div avg MAX_LATENCY_MS) f64_one).

Definition compute_enricher_score (s : AggregateStats) : EnricherScore :=
  let utility_score :=
    if (ag_total_runs s =? 0)%Z then f_zero
    else f64_div (f64_add (f64_add (f64_add (ag_artifact_yield s) (ag_diagnostic_hit_rate s))
                    (latency_score (ag_avg_latency_ms s)))
                    (f64_sub f64_one (ag_false_positive_rate s))) (f64_of_Z 4) in
  mkScore (ag_enricher_id s) (ag_total_runs s) (round4 (ag_artifact_yield s))
    (round4 (ag_diagnostic_hit_rate s)) (round4 (ag_false_positive_rate s))
    (round4 (ag_avg_latency_ms s)) (ag_never_fired_rules s)
    (round4 (f64_clamp utility_score f_zero f64_one)).

Definition compute_confidence (total_runs : Z) : float :=
  if (MIN_RUNS_FOR_CONFIDENCE <=? total_runs)%Z then f64_one
  else round4 (ratio total_runs MIN_RUNS_FOR_CONFIDENCE).

Definition build_component_breakdown (s : EnricherScore) : str :=
  lit " (artifact_yield=" ++ show_f64 (es_artifact_yield s) ++ lit ", latency=" ++
  show_Z (f64_as_u64 (es_avg_latency_ms s)) ++ lit "ms, error_rate=" ++
  show_f64 (es_false_positive_rate s) ++ lit ")".

Definition tenth (n : Z) : float := f64_of_decimal n (-1).

Definition determine_action_and_reason (s : EnricherScore) (conf : float) : RecAction * str :=
  let utility := es_utility_score s in
  let runs := es_total_runs s in
  let breakdown := build_component_breakdown s in
  let scored before after :=
    lit before ++ lit " utility score (" ++ show_f64_2 utility ++ lit "). " ++ lit after ++ breakdown in
  if f64_lt conf (tenth 8) then
    (Review,
     if (runs =? 0)%Z then lit "No runs recorded for this enricher." ++ breakdown
     else lit "Insufficient data (" ++ show_Z runs ++ lit " runs). Need " ++
          show_Z MIN_RUNS_FOR_CONFIDENCE ++ lit " for full confidence." ++ breakdown)
  else if f64_lt utility (tenth 2) then
    (Remove, scored "Very low"%string "Recommend removal."%string)
  else if f64_lt utility (tenth 4) then
    (Deprioritize, scored "Low"%string "Consider deprioritizing in catalog."%string)
  else if f64_lt (tenth 7) utility then (Keep, scored "High"%string "Keep in catalog."%string)
  else (Review, scored "Moderate"%string "Review configuration."%string).

Definition generate_recommendation (s : EnricherScore) : OptimizationRecommendation :=
  let conf := compute_confidence (es_total_runs s) in
  let '(action, reason) := determine_action_and_reason s conf in
  mkRecommendation (es_enricher_id s) action reason conf.

(** ** Statistics *)

(** [iter().filter(p).count() as u64]. *)
Definition count_runs (p : EnrichmentRunRecord -> bool) (rs : list EnrichmentRunRecord) : Z :=
  Z.of_nat (length (List.filter p rs)).

Definition sum_durations (rs : list EnrichmentRunRecord) : Z :=
  fold_left (fun acc r => as_u64 (acc + run_duration_ms r)) rs 0%Z.

Definition has_error (r : EnrichmentRunRecord) : bool :=
  match run_error r with Some _ => true | None => false end.

Definition compute_aggregate_stats (id : str) (rs : list EnrichmentRunRecord) : AggregateStats :=
  match rs with
  | [] => mkAggregate id 0 f_zero f_zero f_zero f_zero 0 f_zero
  | _ =>
      let total := Z.of_nat (length rs) in
      mkAggregate id total
        (round4 (ratio (sum_durations rs) total))
        (round4 (ratio (count_runs (fun r => (0 <? artifact_count r)%Z) rs) total))
        (round4 (ratio (count_runs (fun r => (0 <? diagnostics_count r)%Z) rs) total))
        (round4 (ratio (count_runs (fun r => (artifact_count r =? 0)%Z) rs) total))
        (count_runs (fun r => (rule_hits_count r =? 0)%Z) rs)
        (round4 (ratio (count_runs has_error rs) total))
  end.

Definition compute_all_stats `{HashOrder} (rs : list EnrichmentRunRecord) : list AggregateStats :=
  map (fun '(id, recs) => compute_aggregate_stats id recs) (hash_iter _ (group_by run_enricher_id rs)).

Definition compute_scores (stats : list AggregateStats) : list EnricherScore :=
  map compute_enricher_score stats.
Definition generate_recommendations (scores : list EnricherScore) : list OptimizationRecommendation :=
  map generate_recommendation scores.

Definition generate_report `{HashOrder} (rs : list EnrichmentRunRecord) : OptimizerReport :=
  let scores := compute_scores (compute_all_stats rs) in
  mkReport scores (generate_recommendations scores) (Z.of_nat (length rs)).

(** ** The repository over the store of runs *)

Section Repository.
Context `{SqlOrder} `{HashOrder}.

(** The worker of the store: its table, or [None] once its loop has ended and
    the reply channel of a command closes unused. *)
Abbreviation Worker := (option Table) (only parsing).

Definition read_records (db : Db) (w : Worker) (after : option str) :
    result EnrichmentError (list EnrichmentRunRecord) :=
  match w with
  | Some t => do_read_records db t after
  | None => Err (recorder_error (lit "Worker response error: ") (lit "channel closed"))
  end.

Definition read_records_by_enricher (db : Db) (w : Worker) (id : str) :
    result EnrichmentError (list EnrichmentRunRecord) :=
  match w with
  | Some t => do_read_records_by_enricher db t id
  | None => Err (recorder_error (lit "Worker response error: ") (lit "channel closed"))
  end.

Definition compute_statistics (db : Db) (w : Worker) : result EnrichmentError (list AggregateStats) :=
  match read_records db w None with
  | Err e => Err e
  | Ok rs => Ok (compute_all_stats rs)
  end.

(** [Adapter::get_optimizer_report]; the repository is that of the store. *)
Definition get_optimizer_report (optimizer_repo : bool) (db : Db) (w : Worker)
    (after : option str) : result EnrichmentError (option OptimizerReport) :=
  if negb optimizer_repo then Ok None
  else match read_records db w after with
       | Err e => Err e
       | Ok rs => Ok (Some (generate_report rs))
       end.
End Repository.

(** ** What the report says *)

Lemma elem_of_stats `{HashOrder} rs s :
  s ∈ compute_all_stats rs <->
    exists r, r ∈ rs /\ s = compute_aggregate_stats (run_enricher_id r)
      (List.filter (fun r' => str_eqb (run_enricher_id r') (run_enricher_id r)) rs).
Proof.
  unfold compute_all_stats. rewrite list_elem_of_fmap. split.
  - intros ([id recs] & -> & Hin%elem_of_hash_iter). rewrite lookup_group_by in Hin.
    destruct (List.filter _ rs) as [|r g] eqn:E; [done|]. injection Hin as <-.
    assert (In r (List.filter (fun r => str_eqb (run_enricher_id r) id) rs)) as Hr by (rewrite E; by left).
    apply filter_In in Hr as [Hr <-%str_eqb_eq]. exists r. rewrite E.
    split; [by apply list_elem_of_In|done].
  - intros (r & Hr & ->). exists (run_enricher_id r, List.filter
      (fun r' => str_eqb (run_enricher_id r') (run_enricher_id r)) rs). split; [done|].
    apply elem_of_hash_iter. rewrite lookup_group_by.
    destruct (List.filter _ rs) as [|r' g] eqn:E; [|done].
    assert (In r []) as []. rewrite <- E. apply filter_In.
    split; [by apply list_elem_of_In|apply str_eqb_refl].
Qed.

Lemma stats_id id rs : ag_enricher_id (compute_aggregate_stats id rs) = id.
Proof. by destruct rs. Qed.

Lemma stats_runs id rs : ag_total_runs (compute_aggregate_stats id rs) = Z.of_nat (length rs).
Proof. by destruct rs. Qed.

Lemma total_runs_sum (gs : list (str * list EnrichmentRunRecord)) :
  fold_right Z.add 0%Z (map es_total_runs (compute_scores
    (map (fun '(id, recs) => compute_aggregate_stats id recs) gs))) =
  Z.of_nat (length (concat (map snd gs))).
Proof.
  induction gs as [|[id g] gs IH]; [done|]. simpl in *. rewrite IH, stats_runs, length_app. lia.
Qed.

(** A report has one score for each enricher with a run, computed from all
    the runs of that enricher, in some order, and one recommendation for each
    score; the runs of the scores add up to the runs analyzed. *)
Theorem report_spec `{HashOrder} (rs : list EnrichmentRunRecord) :
  let rep := generate_report rs in
  NoDup (map es_enricher_id (rp_scores rep)) /\
  (forall s, s ∈ rp_scores rep <-> exists r, r ∈ rs /\
     s = compute_enricher_score (compute_aggregate_stats (run_enricher_id r)
       (List.filter (fun r' => str_eqb (run_enricher_id r') (run_enricher_id r)) rs))) /\
  rp_recommendations rep = map generate_recommendation (rp_scores rep) /\
  fold_right Z.add 0%Z (map es_total_runs (rp_scores rep)) = rp_total_runs_analyzed rep.
Proof.
  cbn [generate_report rp_scores rp_recommendations rp_total_runs_analyzed].
  split; [|split; [|split; [done|]]].
  - unfold compute_scores, compute_all_stats. rewrite !map_map.
    rewrite (map_ext _ fst); [apply hash_iter_nodup|]. intros [id recs]. apply stats_id.
  - intros s. unfold compute_scores. rewrite list_elem_of_fmap. setoid_rewrite elem_of_stats. split.
    + intros (x & -> & r & Hr & ->). by exists r.
    + intros (r & Hr & ->). eexists. split; [done|]. by exists r.
  - unfold compute_all_stats. rewrite total_runs_sum. f_equal. apply Permutation_length.
    rewrite <- (group_by_perm run_enricher_id rs) at 2. by rewrite hash_iter_perm.
Qed.

(** What is recommended: fewer than eight runs are never enough for anything
    but a review, and from there on the utility score alone decides. *)
Theorem action_spec (s : EnricherScore) :
  (0 <= es_total_runs s)%Z ->
  or_enricher_id (generate_recommendation s) = es_enricher_id s /\
  or_action (generate_recommendation s) =
    if (es_total_runs s <? 8)%Z then Review
    else if f64_lt (es_utility_score s) (tenth 2) then Remove
    else if f64_lt (es_utility_score s) (tenth 4) then Deprioritize
    else if f64_lt (tenth 7) (es_utility_score s) then Keep
    else Review.
Proof.
  intros Hn. assert (Hc : f64_lt (compute_confidence (es_total_runs s)) (tenth 8) =
    (es_total_runs s <? 8)%Z).
  { unfold compute_confidence, MIN_RUNS_FOR_CONFIDENCE. destruct (10 <=? _)%Z eqn:E; bools.
    - rewrite (proj2 (Z.ltb_ge _ _)) by lia. by vm_compute.
    - assert (In (es_total_runs s) [0; 1; 2; 3; 4; 5; 6; 7; 8; 9]%Z) as Hin by (simpl; lia).
      simpl in Hin. repeat (destruct Hin as [<-|Hin]; [vm_compute; reflexivity|]). done. }
  unfold generate_recommendation, determine_action_and_reason. cbv zeta. rewrite Hc.
  destruct (es_total_runs s <? 8)%Z; [by destruct (es_total_runs s =? 0)%Z|].
  destruct (f64_lt (es_utility_score s) (tenth 2)); [done|].
  destruct (f64_lt (es_utility_score s) (tenth 4)); [done|].
  by destruct (f64_lt (tenth 7) (es_utility_score s)).
Qed.

Definition sample_score : EnricherScore :=
  mkScore (lit "maven") 8 (tenth 9) (tenth 8) (tenth 1) (f64_of_Z 120) 0 (f64_of_decimal 8144 (-4)).

Lemma action_spec_witness :
  (0 <= 8)%Z /\ or_action (generate_recommendation sample_score) = Keep.
Proof.
  split; [done|]. destruct (action_spec sample_score) as [_ ->]; [done|]. vm_compute. reflexivity.
Defined.

(** Errors do not count: what is recommended for an enricher, reason
    included, is the same whatever errors its runs had, although the reason
    names an error rate. *)
Theorem errors_ignored (id : str) (rs : list EnrichmentRunRecord)
    (f : EnrichmentRunRecord -> EnrichmentRunRecord) :
  (forall r, run_duration_ms (f r) = run_duration_ms r /\ artifact_count (f r) = artifact_count r /\
     diagnostics_count (f r) = diagnostics_count r /\ rule_hits_count (f r) = rule_hits_count r) ->
  let recommended rs := generate_recommendation (compute_enricher_score (compute_aggregate_stats id rs)) in
  recommended (map f rs) = recommended rs.
Proof.
  intros Hf. assert (Hcount : forall p, (forall r, p (f r) = p r) ->
    count_runs p (map f rs) = count_runs p rs).
  { intros p Hp. unfold count_runs. f_equal. induction rs as [|r rs IH]; [done|]. simpl.
    rewrite Hp. destruct (p r); simpl; by rewrite IH. }
  assert (Hsum : sum_durations (map f rs) = sum_durations rs).
  { clear Hcount. unfold sum_durations. generalize 0%Z. induction rs as [|r rs IH]; intros acc; [done|].
    cbn [map fold_left]. by rewrite IH, (proj1 (Hf r)). }
  assert (Hlen : length (map f rs) = length rs) by apply length_map. cbv zeta.
  destruct rs as [|r rs']; [done|]. unfold compute_aggregate_stats. cbn [map] in *.
  rewrite Hlen, Hsum, !(Hcount (fun r => (0 <? artifact_count r)%Z)),
    !(Hcount (fun r => (0 <? diagnostics_count r)%Z)), !(Hcount (fun r => (artifact_count r =? 0)%Z)),
    !(Hcount (fun r => (rule_hits_count r =? 0)%Z)); [reflexivity|..];
    intros r0; destruct (Hf r0) as (_ & Ha & Hd & Hr); by rewrite ?Ha, ?Hd, ?Hr.
Qed.
