(* ===== verification/Experience.v ===== *)
(** * Experience records

    Models [bastion-domain/src/catalog/experience.rs]: the evidence kept of a
    tool execution, its builder and the summary of an output by byte offsets.
    Instants are nanoseconds; slicing a text inside a character is a panic. *)

From S2P Require Import Prelude Utf8 Sandbox.

(** [serde_json::Value], of which only two values are built here. *)
Class JsonValue := { json : Type; json_null : json; json_empty_object : json }.

Inductive ExperienceStatus := ESuccess | EFailure | ETimeout | ECancelled.

#[export] Instance ExperienceStatus_eq_dec : EqDecision ExperienceStatus.
Proof. solve_decision. Defined.

Definition is_terminal (s : ExperienceStatus) : bool :=
  match s with ESuccess | EFailure => true | _ => false end.

(** ** Summaries of an output *)

(** The two loops: down to 0 and up to the length. *)
Fixpoint floor_loop (s : str) (idx : nat) : nat :=
  match idx with
  | O => O
  | S i => if is_char_boundary s (N.of_nat idx) then idx else floor_loop s i
  end.

Definition floor_char_boundary (s : str) (idx : N) : N :=
  N.of_nat (floor_loop s (N.to_nat (N.min idx (str_len s)))).

Fixpoint ceil_loop (s : str) (fuel : nat) (idx : N) : N :=
  match fuel with
  | O => idx
  | S f =>
      if (idx <? str_len s)%N && negb (is_char_boundary s idx) then ceil_loop s f (idx + 1)%N
      else idx
  end.

(** Each turn adds a byte, so the bytes that are left are enough turns. *)
Definition ceil_char_boundary (s : str) (idx : N) : N :=
  let idx := N.min idx (str_len s) in ceil_loop s (N.to_nat (str_len s - idx)) idx.

Definition MAX_SUMMARY_BYTES : N := 1024%N.
Definition HEAD_BYTES : N := 512%N.
Definition TAIL_BYTES : N := 512%N.
Definition newline : char := 10%N.
Definition summary_marker : str :=
  newline :: lit "... [truncated: showing head and tail] ..." ++ [newline].

(** [None] is the panic of a slice inside a character. *)
Definition summarize_output (output : str) : option str :=
  if (str_len output <=? MAX_SUMMARY_BYTES)%N then Some output
  else
    let head_end := floor_char_boundary output HEAD_BYTES in
    let tail_start := ceil_char_boundary output (str_len output - TAIL_BYTES) in
    match split_at output head_end, split_at output tail_start with
    | Some (head, _), Some (_, tail) => Some (head ++ summary_marker ++ tail)
    | _, _ => None
    end.

(** ** The record *)

Section Record.
Context `{JsonValue}.

Record ExperienceRecord := mkExperience {
  ex_id : str;
  ex_trace_id : option str;
  ex_tool_name : str;
  ex_sandbox_id : option str;
  ex_started_at : Z;
  ex_finished_at : option Z;
  ex_exit_code : option Z;
  ex_stdout_summary : str;
  ex_stderr_summary : str;
  ex_status : ExperienceStatus;
  ex_metadata : json
}.

(** [new]; the fresh id and the present are arguments. *)
Definition ExperienceRecord_new (id : str) (now : Z) (tool_name : str) : ExperienceRecord :=
  mkExperience id None tool_name None now None None [] [] EFailure json_empty_object.

Definition with_trace_id (t : str) (r : ExperienceRecord) : ExperienceRecord :=
  mkExperience (ex_id r) (Some t) (ex_tool_name r) (ex_sandbox_id r) (ex_started_at r)
    (ex_finished_at r) (ex_exit_code r) (ex_stdout_summary r) (ex_stderr_summary r)
    (ex_status r) (ex_metadata r).

Definition with_sandbox_id (s : str) (r : ExperienceRecord) : ExperienceRecord :=
  mkExperience (ex_id r) (ex_trace_id r) (ex_tool_name r) (Some s) (ex_started_at r)
    (ex_finished_at r) (ex_exit_code r) (ex_stdout_summary r) (ex_stderr_summary r)
    (ex_status r) (ex_metadata r).

Definition finish (now : Z) (code : option Z) (status : ExperienceStatus) (r : ExperienceRecord) :
    ExperienceRecord :=
  mkExperience (ex_id r) (ex_trace_id r) (ex_tool_name r) (ex_sandbox_id r) (ex_started_at r)
    (Some now) code (ex_stdout_summary r) (ex_stderr_summary r) status (ex_metadata r).

Definition completed (now exit_code : Z) (r : ExperienceRecord) : ExperienceRecord :=
  finish now (Some exit_code) (if (exit_code =? 0)%Z then ESuccess else EFailure) r.

(** A timed out or cancelled record keeps the exit code it had. *)
Definition ex_timed_out (now : Z) (r : ExperienceRecord) : ExperienceRecord :=
  finish now (ex_exit_code r) ETimeout r.
Definition ex_cancelled (now : Z) (r : ExperienceRecord) : ExperienceRecord :=
  finish now (ex_exit_code r) ECancelled r.

Definition set_outputs (out err : str) (r : ExperienceRecord) : ExperienceRecord :=
  mkExperience (ex_id r) (ex_trace_id r) (ex_tool_name r) (ex_sandbox_id r) (ex_started_at r)
    (ex_finished_at r) (ex_exit_code r) out err (ex_status r) (ex_metadata r).

Definition with_stdout (out : bytes) (r : ExperienceRecord) : option ExperienceRecord :=
  option_map (fun s => set_outputs s (ex_stderr_summary r) r) (summarize_output (from_utf8_lossy out)).
Definition with_stderr (err : bytes) (r : ExperienceRecord) : option ExperienceRecord :=
  option_map (fun s => set_outputs (ex_stdout_summary r) s r) (summarize_output (from_utf8_lossy err)).

Definition with_metadata (m : json) (r : ExperienceRecord) : ExperienceRecord :=
  mkExperience (ex_id r) (ex_trace_id r) (ex_tool_name r) (ex_sandbox_id r) (ex_started_at r)
    (ex_finished_at r) (ex_exit_code r) (ex_stdout_summary r) (ex_stderr_summary r)
    (ex_status r) m.

(** [num_milliseconds() as u64]: toward zero, then to the low 64 bits. *)
Definition ex_duration_ms (r : ExperienceRecord) : option Z :=
  option_map (fun finished => as_u64 (Z.quot (finished - ex_started_at r) 1000000)) (ex_finished_at r).

(** [ExperienceStore], the port of the use cases; every call can fail. *)
Record ExperienceStore := mkStore {
  es_save : ExperienceRecord -> result DomainError unit;
  es_find_by_id : str -> result DomainError (option ExperienceRecord);
  es_find_by_trace_id : str -> result DomainError (list ExperienceRecord);
  es_list_all : nat -> result DomainError (list ExperienceRecord)
}.

(** [RecordExperienceUseCase::execute]. *)
Definition record_experience (store : ExperienceStore) (r : ExperienceRecord) :
    result DomainError unit := es_save store r.
End Record.

(** The largest boundary at or below an index, the least one at or above it. *)
Lemma floor_loop_spec s n :
  let r := N.of_nat (floor_loop s n) in
  is_char_boundary s r = true /\ (r <= N.of_nat n)%N /\
  forall i, (r < i <= N.of_nat n)%N -> is_char_boundary s i = false.
Proof.
  induction n as [|n IH]; cbn [floor_loop].
  - split; [by destruct s|]. split; [lia|]. intros i. lia.
  - destruct (is_char_boundary s (N.of_nat (S n))) eqn:E.
    + split; [done|]. split; [lia|]. intros i. lia.
    + destruct IH as (Hb & Hle & Hmax). split; [done|]. split; [lia|]. intros i Hi.
      destruct (decide (i = N.of_nat (S n))) as [->|]; [done|]. apply Hmax. lia.
Qed.

Lemma ceil_loop_spec s fuel idx :
  (idx <= str_len s)%N -> N.to_nat (str_len s - idx) <= fuel ->
  let r := ceil_loop s fuel idx in
  is_char_boundary s r = true /\ (idx <= r <= str_len s)%N /\
  forall i, (idx <= i < r)%N -> is_char_boundary s i = false.
Proof.
  assert (Hend : is_char_boundary s (str_len s) = true)
    by (apply is_char_boundary_iff; exists s, []; by rewrite app_nil_r).
  revert idx. induction fuel as [|f IH]; intros idx Hi Hf; cbn [ceil_loop].
  - replace idx with (str_len s) in * by lia. split; [done|]. split; [lia|]. intros i. lia.
  - destruct (_ && _)%bool eqn:E.
    + bools. destruct (IH (idx + 1)%N) as (Hb & Hr & Hmin); [lia|lia|].
      split; [done|]. split; [lia|]. intros i Hr'.
      destruct (decide (i = idx)) as [->|]; [done|]. apply Hmin. lia.
    + apply andb_false_iff in E as [E|E]; bools.
      * replace idx with (str_len s) in * by lia. split; [done|]. split; [lia|]. intros i. lia.
      * split; [done|]. split; [lia|]. intros i. lia.
Qed.

(** The summary of an output never panics.  An output of at most 1024 bytes
    is kept; of a longer one it shows the longest prefix and the longest suffix of
    whole characters of at most 512 bytes each, around a marker of 44 bytes, so
    that nothing overlaps and the summary has at most 1068 bytes. *)
Theorem summarize_output_spec (output : str) :
  (str_len output <= 1024)%N /\ summarize_output output = Some output \/
  (1024 < str_len output)%N /\
  exists head middle tail,
    output = head ++ middle ++ tail /\
    summarize_output output = Some (head ++ summary_marker ++ tail) /\
    (str_len head <= 512)%N /\ (str_len tail <= 512)%N /\
    (str_len (head ++ summary_marker ++ tail) <= 1068)%N /\
    (forall a b, output = a ++ b -> (str_len a <= 512)%N -> (str_len a <= str_len head)%N) /\
    (forall a b, output = a ++ b -> (str_len b <= 512)%N -> (str_len b <= str_len tail)%N).
Proof.
  unfold summarize_output, MAX_SUMMARY_BYTES, HEAD_BYTES, TAIL_BYTES.
  destruct (_ <=? _)%N eqn:El; bools; [by left|]. right. split; [lia|].
  unfold floor_char_boundary, ceil_char_boundary.
  pose proof (floor_loop_spec output (N.to_nat (N.min 512 (str_len output)))) as (F1 & F2 & F3).
  pose proof (ceil_loop_spec output (N.to_nat (str_len output - N.min (str_len output - 512) (str_len output)))
    (N.min (str_len output - 512) (str_len output))) as (C1 & C2 & C3); [lia|lia|].
  set (h := N.of_nat _) in *. set (t := ceil_loop _ _ _) in *. clearbody h t.
  apply is_char_boundary_iff in F1 as (head & rest & Eh & <-).
  apply is_char_boundary_iff in C1 as (front & tail & Et & <-).
  pose proof (f_equal str_len Et) as Hlen. rewrite str_len_app in Hlen.
  destruct (prefix_of_boundaries head rest front tail) as (middle & Ef & Er); [congruence|lia|].
  exists head, middle, tail.
  split; [by rewrite Eh, Er|].
  rewrite Eh at 1. rewrite split_at_app. rewrite Et at 1. rewrite split_at_app.
  split; [done|]. split; [lia|]. split; [lia|].
  split; [rewrite !str_len_app; change (str_len summary_marker) with 44%N; lia|]. split.
  - intros a b E Ha. destruct (decide (str_len a <= str_len head)%N); [done|].
    assert (is_char_boundary output (str_len a) = false) as Hf by (apply F3; lia).
    rewrite (proj2 (is_char_boundary_iff _ _)) in Hf by (by exists a, b). done.
  - intros a b E Hb. pose proof (f_equal str_len E) as Hlen'. rewrite str_len_app in Hlen'.
    destruct (decide (str_len b <= str_len tail)%N); [done|].
    assert (is_char_boundary output (str_len a) = false) as Hf by (apply C3; lia).
    rewrite (proj2 (is_char_boundary_iff _ _)) in Hf by (by exists a, b). done.
Qed.
