(* ===== verification/Catalog.v ===== *)
(** * Assertions, doctors and advice

    Models the catalog primitives of [bastion-domain/src/catalog] (assertion.rs,
    doctor.rs, advice.rs), their descriptors as read from files
    ([bastion-infrastructure/src/catalog/toml_*_parser.rs], past the decoding of
    the file) and the use cases over them ([bastion-application/src/catalog]).
    The sandbox provider, the pool's statistics and the stores are arguments. *)

From Stdlib Require Import Sorted.
From S2P Require Import Prelude Fmt Sandbox Experience.

(** ** Assertions *)

Inductive AssertionCheck :=
| ExitCode (expected : Z)
| StdoutContains (substring : str)
| StderrContains (substring : str)
| StdoutMatches (regex : str)
| SandboxAlive
| CommandDuration (max_ms : Z).

Record AssertionDescriptor := mkAssertion {
  as_id : str; as_name : str; as_description : str; as_category : str;
  as_checks : list AssertionCheck
}.

Record CheckResult := mkCheck { ck_check : str; ck_passed : bool; ck_reason : option str }.

Record AssertionResult := mkAssertionResult {
  ar_passed : bool; ar_assertion_id : str; ar_check_results : list CheckResult
}.

Section Assertions.
Context `{DebugTables} `{JsonValue}.

(** [AssertionCheck::evaluate]: regular expressions and liveness are deferred. *)
Definition evaluate_check (c : AssertionCheck) (r : ExperienceRecord) : bool * option str :=
  match c with
  | ExitCode expected =>
      match ex_exit_code r with
      | Some code =>
          if (code =? expected)%Z then (true, None)
          else (false, Some (lit "expected exit code " ++ show_Z expected ++ lit ", got " ++ show_Z code))
      | None => (false, Some (lit "expected exit code " ++ show_Z expected ++ lit ", got none"))
      end
  | StdoutContains sub =>
      if str_contains (ex_stdout_summary r) sub then (true, None)
      else (false, Some (lit "stdout does not contain " ++ debug_str sub))
  | StderrContains sub =>
      if str_contains (ex_stderr_summary r) sub then (true, None)
      else (false, Some (lit "stderr does not contain " ++ debug_str sub))
  | StdoutMatches _ => (true, None)
  | SandboxAlive => (true, None)
  | CommandDuration max_ms =>
      match ex_duration_ms r with
      | Some dur =>
          if (dur <=? max_ms)%Z then (true, None)
          else (false, Some (lit "command took " ++ show_Z dur ++ lit "ms, expected <= " ++
                             show_Z max_ms ++ lit "ms"))
      | None => (false, Some (lit "command still running, duration unknown"))
      end
  end.

(** The derived [Debug] of a check. *)
Definition debug_check (c : AssertionCheck) : str :=
  let field name value := lit " { " ++ lit name ++ lit ": " ++ value ++ lit " }" in
  match c with
  | ExitCode e => lit "ExitCode" ++ field "expected"%string (show_Z e)
  | StdoutContains s => lit "StdoutContains" ++ field "substring"%string (debug_str s)
  | StderrContains s => lit "StderrContains" ++ field "substring"%string (debug_str s)
  | StdoutMatches s => lit "StdoutMatches" ++ field "regex"%string (debug_str s)
  | SandboxAlive => lit "SandboxAlive"
  | CommandDuration m => lit "CommandDuration" ++ field "max_ms"%string (show_Z m)
  end.

Definition check_result (r : ExperienceRecord) (c : AssertionCheck) : CheckResult :=
  let '(passed, reason) := evaluate_check c r in mkCheck (debug_check c) passed reason.

(** [EvaluateAssertionUseCase::evaluate_against] and [execute]. *)
Definition evaluate_against (a : AssertionDescriptor) (r : ExperienceRecord) : AssertionResult :=
  let results := map (check_result r) (as_checks a) in
  mkAssertionResult (forallb ck_passed results) (as_id a) results.

Definition evaluate_assertion (store : ExperienceStore) (a : AssertionDescriptor)
    (experience_id : str) : result DomainError AssertionResult :=
  match es_find_by_id store experience_id with
  | Err e => Err e
  | Ok None => Err (NotFound (lit "experience '" ++ experience_id ++ lit "'"))
  | Ok (Some r) => Ok (evaluate_against a r)
  end.
End Assertions.

(** ** Descriptors read from files *)

(** [TomlCheck] has the constructors of [AssertionCheck]. *)
Inductive TomlCheck :=
| TExitCode (expected : Z)
| TStdoutContains (substring : str)
| TStderrContains (substring : str)
| TStdoutMatches (regex : str)
| TSandboxAlive
| TCommandDuration (max_ms : Z).

Definition into_assertion_check (c : TomlCheck) : AssertionCheck :=
  match c with
  | TExitCode e => ExitCode e
  | TStdoutContains s => StdoutContains s
  | TStderrContains s => StderrContains s
  | TStdoutMatches s => StdoutMatches s
  | TSandboxAlive => SandboxAlive
  | TCommandDuration m => CommandDuration m
  end.

Definition of_assertion_check (c : AssertionCheck) : TomlCheck :=
  match c with
  | ExitCode e => TExitCode e
  | StdoutContains s => TStdoutContains s
  | StderrContains s => TStderrContains s
  | StdoutMatches s => TStdoutMatches s
  | SandboxAlive => TSandboxAlive
  | CommandDuration m => TCommandDuration m
  end.

(** [escape_cel_string]: backslashes first, then quotes. *)
Definition escape_cel_string (s : str) : str :=
  flat_map (fun c => if (c =? chr "'")%N then [chr "\"; chr "'"] else [c])
    (flat_map (fun c => if (c =? chr "\")%N then [chr "\"; chr "\"] else [c]) s).

(** [TomlCheck::to_cel_condition]. *)
Definition check_condition (c : TomlCheck) : option str :=
  match c with
  | TExitCode e => Some (lit "exit_code == " ++ show_Z e)
  | TStdoutContains s => Some (lit "stdout_contains('" ++ escape_cel_string s ++ lit "')")
  | TStderrContains s => Some (lit "stderr_contains('" ++ escape_cel_string s ++ lit "')")
  | TStdoutMatches s => Some (lit "stdout_matches('" ++ escape_cel_string s ++ lit "')")
  | TSandboxAlive => None
  | TCommandDuration m => Some (lit "duration_lt(" ++ show_Z m ++ lit ")")
  end.

Record TomlAssertion := mkTomlAssertion {
  ta_id : str; ta_name : str; ta_description : str; ta_category : str;
  ta_check : option TomlCheck; ta_checks : list TomlCheck
}.

(** The single check of the older format comes first; no check at all becomes a
    check for exit code 0. *)
Definition assertion_of_toml (a : TomlAssertion) : AssertionDescriptor :=
  let all := map into_assertion_check
    (match ta_check a with Some c => c :: ta_checks a | None => ta_checks a end) in
  mkAssertion (ta_id a) (ta_name a) (ta_description a) (ta_category a)
    (match all with [] => [ExitCode 0] | _ => all end).

(** A registry maps ids to descriptors; a file that does not decode is skipped. *)
Abbreviation AssertionRegistry := (gmap str AssertionDescriptor) (only parsing).

(** [load_from_dir] over the files of the directory in the order they are
    listed: the registry and the number loaded. *)
Fixpoint load_assertions {E} (files : list (result E TomlAssertion)) (reg : AssertionRegistry) (n : N) :
    AssertionRegistry * N :=
  match files with
  | [] => (reg, n)
  | Err _ :: fs => load_assertions fs reg n
  | Ok a :: fs => load_assertions fs (<[ta_id a := assertion_of_toml a]> reg) (n + 1)%N
  end.

(** ** Doctors *)

Inductive Severity := Critical | Warning | Info.
Inductive DoctorStatus := DPass | DFail | DSkip | DError.

#[export] Instance DoctorStatus_eq_dec : EqDecision DoctorStatus.
Proof. solve_decision. Defined.

Inductive DoctorCheck :=
| Aliveness (sandbox_id : option str)
| Resources (max_total max_idle_per_template : option Z)
| AssertionDriven (assertion_id : str)
| ProviderAlive (provider : str)
| BinaryAvailable (name : str) (expected_path : option str)
| ImageAvailable (provider : str) (image : option str)
| KvmAvailable
| CapabilitiesMet (provider : str) (min_memory_mb min_cpu_count : option Z)
| ConfigValid (provider : str)
| WorkerBinaryValid (provider : str).

Record DoctorDescriptor := mkDoctor {
  dd_id : str; dd_name : str; dd_description : str; dd_category : str;
  dd_severity : Severity; dd_checks : list DoctorCheck
}.

(** [DoctorResult], without the rich results that only the gateway adds. *)
Record DoctorResult := mkDoctorResult {
  dr_doctor_id : str; dr_sandbox_id : option str; dr_status : DoctorStatus;
  dr_severity : Severity; dr_trace_id : str; dr_check_results : list CheckResult;
  dr_rationale : str
}.

Definition DoctorResult_new (id : str) (sandbox : option str) (trace : str) (sev : Severity) :
    DoctorResult := mkDoctorResult id sandbox DPass sev trace [] [].

Definition add_check_result (c : CheckResult) (d : DoctorResult) : DoctorResult :=
  mkDoctorResult (dr_doctor_id d) (dr_sandbox_id d) (dr_status d) (dr_severity d) (dr_trace_id d)
    (dr_check_results d ++ [c]) (dr_rationale d).

Definition set_rationale (s : str) (d : DoctorResult) : DoctorResult :=
  mkDoctorResult (dr_doctor_id d) (dr_sandbox_id d) (dr_status d) (dr_severity d) (dr_trace_id d)
    (dr_check_results d) s.

Definition finalize (d : DoctorResult) : DoctorResult :=
  mkDoctorResult (dr_doctor_id d) (dr_sandbox_id d)
    (match dr_check_results d with
     | [] => DSkip
     | rs => if forallb ck_passed rs then DPass else DFail
     end)
    (dr_severity d) (dr_trace_id d) (dr_check_results d) (dr_rationale d).

Record TemplateStats := mkTemplateStats { ts_template : str; ts_idle : Z }.
Record PoolStats := mkPoolStats {
  ps_templates : list TemplateStats; ps_active : Z; ps_idle : Z; ps_total : Z
}.

(** [TomlDoctorCheck] has the constructors of [DoctorCheck]. *)
Inductive TomlDoctorCheck :=
| TAliveness (sandbox_id : option str)
| TResources (max_total max_idle_per_template : option Z)
| TAssertionDriven (assertion_id : str)
| TProviderAlive (provider : str)
| TBinaryAvailable (name : str) (expected_path : option str)
| TImageAvailable (provider : str) (image : option str)
| TKvmAvailable
| TCapabilitiesMet (provider : str) (min_memory_mb min_cpu_count : option Z)
| TConfigValid (provider : str)
| TWorkerBinaryValid (provider : str).

Definition into_doctor_check (c : TomlDoctorCheck) : DoctorCheck :=
  match c with
  | TAliveness s => Aliveness s
  | TResources t i => Resources t i
  | TAssertionDriven a => AssertionDriven a
  | TProviderAlive p => ProviderAlive p
  | TBinaryAvailable n p => BinaryAvailable n p
  | TImageAvailable p i => ImageAvailable p i
  | TKvmAvailable => KvmAvailable
  | TCapabilitiesMet p m c => CapabilitiesMet p m c
  | TConfigValid p => ConfigValid p
  | TWorkerBinaryValid p => WorkerBinaryValid p
  end.

(** [TomlDoctorCheck::to_cel_condition]. *)
Definition doctor_condition (c : TomlDoctorCheck) : option str :=
  match c with
  | TAssertionDriven id => Some (lit "fact('assertion:" ++ id ++ lit "') == 'passed'")
  | _ => None
  end.

Record TomlDoctor := mkTomlDoctor {
  td_id : str; td_name : str; td_description : str; td_category : str;
  td_severity : Severity; td_checks : list TomlDoctorCheck
}.

Definition doctor_of_toml (d : TomlDoctor) : DoctorDescriptor :=
  mkDoctor (td_id d) (td_name d) (td_description d) (td_category d) (td_severity d)
    (map into_doctor_check (td_checks d)).

(** [DoctorRegistry]: descriptors and the texts they were read from. *)
Record DoctorRegistry := mkDoctorRegistry {
  drg_doctors : gmap str DoctorDescriptor; drg_sources : gmap str str
}.

Fixpoint load_doctors {E} (files : list (result E (TomlDoctor * str))) (reg : DoctorRegistry) (n : N) :
    DoctorRegistry * N :=
  match files with
  | [] => (reg, n)
  | Err _ :: fs => load_doctors fs reg n
  | Ok (d, source) :: fs =>
      load_doctors fs
        (mkDoctorRegistry (<[td_id d := doctor_of_toml d]> (drg_doctors reg))
           (<[td_id d := source]> (drg_sources reg))) (n + 1)%N
  end.

(** What running a doctor asks of the rest of the system: the provider, the
    pool, the assertions and the experiences, the last three optional. *)
Record DoctorPorts `{JsonValue} := mkPorts {
  dp_is_alive : str -> result DomainError bool;
  dp_pool_stats : option PoolStats;
  dp_assertions : option (str -> option AssertionDescriptor);
  dp_store : option ExperienceStore
}.

Definition failed_check (name : str) (reason : str) : CheckResult := mkCheck name false (Some reason).
Definition passed_check (name : str) : CheckResult := mkCheck name true None.

(** [format!("{}: {}", check, reason.unwrap_or("failed"))]. *)
Definition rationale_part (c : CheckResult) : str :=
  ck_check c ++ lit ": " ++ default (lit "failed") (ck_reason c).

Section RunDoctor.
Context `{DebugTables} `{JsonValue}.

(** *** The use case ([run_doctor.rs]) *)

Definition aliveness (ports : DoctorPorts) (target : str) : CheckResult :=
  match dp_is_alive ports target with
  | Ok true => passed_check (lit "Aliveness")
  | Ok false => failed_check (lit "Aliveness") (lit "Sandbox " ++ target ++ lit " is not alive")
  | Err e => failed_check (lit "Aliveness") (lit "Aliveness check failed: " ++ show_error e)
  end.

(** The first template with more idle sandboxes than allowed. *)
Fixpoint first_over (max_idle : Z) (templates : list TemplateStats) : option TemplateStats :=
  match templates with
  | [] => None
  | t :: ts => if (max_idle <? ts_idle t)%Z then Some t else first_over max_idle ts
  end.

Definition resources (ports : DoctorPorts) (max_total max_idle : option Z) : CheckResult :=
  match dp_pool_stats ports with
  | None => failed_check (lit "Resources") (lit "Pool manager not available")
  | Some stats =>
      let idle_check :=
        match max_idle with
        | None => passed_check (lit "Resources")
        | Some max =>
            match first_over max (ps_templates stats) with
            | None => passed_check (lit "Resources")
            | Some t => failed_check (lit "Resources")
                (lit "Template '" ++ ts_template t ++ lit "' idle " ++ show_Z (ts_idle t) ++
                 lit " exceeds max " ++ show_Z max)
            end
        end in
      match max_total with
      | None => idle_check
      | Some max =>
          if (max <? ps_total stats)%Z then
            failed_check (lit "Resources")
              (lit "Total sandboxes " ++ show_Z (ps_total stats) ++ lit " exceeds max " ++ show_Z max)
          else idle_check
      end
  end.

(** [sort_by(|a, b| b.started_at.cmp(a.started_at))] and the first. *)
Definition most_recent (records : list ExperienceRecord) : option ExperienceRecord :=
  head (sort_by_key (fun r => - ex_started_at r)%Z records).

Definition experience_for (store : option ExperienceStore) (sandbox : option str) :
    option ExperienceRecord :=
  match store, sandbox with
  | Some st, Some id =>
      match es_find_by_trace_id st id with Ok rs => most_recent rs | Err _ => None end
  | _, _ => None
  end.

Definition assertion_check_name (id : str) : str := lit "AssertionDriven(" ++ id ++ lit ")".

Definition judge_assertion (id : str) (a : AssertionDescriptor) (r : ExperienceRecord) : CheckResult :=
  let results := map (check_result r) (as_checks a) in
  let all_passed := forallb ck_passed results in
  mkCheck (assertion_check_name id) all_passed
    (if all_passed then None
     else Some (join (lit "; ")
       (map (fun c => default (lit "failed") (ck_reason c))
          (List.filter (fun c => negb (ck_passed c)) results)))).

Definition assertion_driven (ports : DoctorPorts) (id : str) (sandbox : option str) : CheckResult :=
  match match dp_assertions ports with Some get => get id | None => None end with
  | None => failed_check (assertion_check_name id) (lit "Assertion '" ++ id ++ lit "' not found")
  | Some a =>
      match experience_for (dp_store ports) sandbox with
      | Some r => judge_assertion id a r
      | None => failed_check (assertion_check_name id)
                  (lit "No experience record found for assertion '" ++ id ++ lit "'")
      end
  end.

(** The name of a check that only the gateway can make. *)
Definition infrastructure_check (c : DoctorCheck) : option str :=
  match c with
  | ProviderAlive _ => Some (lit "ProviderAlive")
  | BinaryAvailable _ _ => Some (lit "BinaryAvailable")
  | ImageAvailable _ _ => Some (lit "ImageAvailable")
  | KvmAvailable => Some (lit "KvmAvailable")
  | CapabilitiesMet _ _ _ => Some (lit "CapabilitiesMet")
  | ConfigValid _ => Some (lit "ConfigValid")
  | WorkerBinaryValid _ => Some (lit "WorkerBinaryValid")
  | _ => None
  end.

(** [None] is the panic of [expect] on a missing sandbox id. *)
Definition run_check (ports : DoctorPorts) (c : DoctorCheck) (sandbox : option str) :
    option CheckResult :=
  match c with
  | Aliveness own =>
      match match own with Some s => Some s | None => sandbox end with
      | Some target => Some (aliveness ports target)
      | None => None
      end
  | Resources max_total max_idle => Some (resources ports max_total max_idle)
  | AssertionDriven id => Some (assertion_driven ports id sandbox)
  | _ =>
      let name := default [] (infrastructure_check c) in
      Some (failed_check name (name ++ lit " check not supported in RunDoctor use case"))
  end.

(** The loop over the checks: the result so far, whether all passed, and the
    parts of the rationale. *)
Fixpoint run_checks (ports : DoctorPorts) (sandbox : option str) (cs : list DoctorCheck)
    (d : DoctorResult) (all_passed : bool) (parts : list str) :
    option (DoctorResult * bool * list str) :=
  match cs with
  | [] => Some (d, all_passed, parts)
  | c :: cs' =>
      match run_check ports c sandbox with
      | None => None
      | Some r =>
          run_checks ports sandbox cs' (add_check_result r d) (all_passed && ck_passed r)
            (if ck_passed r then parts else parts ++ [rationale_part r])
      end
  end.

Definition rationale_of (name sandbox : str) (d : DoctorResult) (all_passed : bool)
    (parts : list str) : str :=
  if all_passed then
    lit "Doctor '" ++ name ++ lit "' passed all " ++ show_nat (length (dr_check_results d)) ++
    lit " checks for sandbox '" ++ sandbox ++ lit "'"
  else join (lit "; ") parts.

(** [RunDoctorUseCase::run]. *)
Definition run_doctor (ports : DoctorPorts) (desc : DoctorDescriptor) (sandbox : option str)
    (trace : str) : option DoctorResult :=
  match run_checks ports sandbox (dd_checks desc)
          (DoctorResult_new (dd_id desc) sandbox trace (dd_severity desc)) true [] with
  | None => None
  | Some (d, all_passed, parts) =>
      Some (finalize (set_rationale
        (rationale_of (dd_name desc) (default (lit "(none)") sandbox) d all_passed parts) d))
  end.

(** *** The gateway's tool ([doctor_tools.rs])

    It does not call the use case: its private [run_doctor_check] and the loop of
    [doctor_run] are a second copy of that code, translated on its own here.  Of
    the pool manager's statistics it reads the fields of [PoolStats]. *)

Definition gw_aliveness (ports : DoctorPorts) (check_sandbox_id : option str) (sandbox : str) :
    CheckResult :=
  let target_id := match check_sandbox_id with Some s => s | None => sandbox end in
  match dp_is_alive ports target_id with
  | Ok true => mkCheck (lit "Aliveness") true None
  | Ok false =>
      mkCheck (lit "Aliveness") false (Some (lit "Sandbox " ++ target_id ++ lit " is not alive"))
  | Err e => mkCheck (lit "Aliveness") false (Some (lit "Aliveness check failed: " ++ show_error e))
  end.

(** The check of [max_total]: the early return, when it is exceeded. *)
Definition gw_total_exceeded (stats : PoolStats) (max_total : option Z) : option CheckResult :=
  match max_total with
  | Some max =>
      if (ps_total stats >? max)%Z then
        Some (mkCheck (lit "Resources") false
          (Some (lit "Total sandboxes " ++ show_Z (ps_total stats) ++ lit " exceeds max " ++ show_Z max)))
      else None
  | None => None
  end.

(** The loop over the templates: the early return at the first that is over. *)
Fixpoint gw_idle_exceeded (max_idle : Z) (templates : list TemplateStats) : option CheckResult :=
  match templates with
  | [] => None
  | t :: ts =>
      if (ts_idle t >? max_idle)%Z then
        Some (mkCheck (lit "Resources") false
          (Some (lit "Template '" ++ ts_template t ++ lit "' idle " ++ show_Z (ts_idle t) ++
                 lit " exceeds max " ++ show_Z max_idle)))
      else gw_idle_exceeded max_idle ts
  end.

Definition gw_resources (ports : DoctorPorts) (max_total max_idle_per_template : option Z) :
    CheckResult :=
  match dp_pool_stats ports with
  | Some stats =>
      match gw_total_exceeded stats max_total with
      | Some failed => failed
      | None =>
          let over :=
            match max_idle_per_template with
            | Some max_idle => gw_idle_exceeded max_idle (ps_templates stats)
            | None => None
            end in
          match over with
          | Some failed => failed
          | None => mkCheck (lit "Resources") true None
          end
      end
  | None => mkCheck (lit "Resources") false (Some (lit "Pool manager not available"))
  end.

Definition gw_experience (store : option ExperienceStore) (sandbox : str) : option ExperienceRecord :=
  match store with
  | Some st =>
      match es_find_by_trace_id st sandbox with
      | Ok records =>
          match sort_by_key (fun r => - ex_started_at r)%Z records with r :: _ => Some r | [] => None end
      | Err _ => None
      end
  | None => None
  end.

Definition gw_evaluate (record : ExperienceRecord) (check : AssertionCheck) : CheckResult :=
  let '(passed, reason) := evaluate_check check record in mkCheck (debug_check check) passed reason.

Fixpoint gw_failed_reasons (results : list CheckResult) : list str :=
  match results with
  | [] => []
  | r :: rs =>
      if negb (ck_passed r) then
        match ck_reason r with Some s => s | None => lit "failed" end :: gw_failed_reasons rs
      else gw_failed_reasons rs
  end.

Definition gw_assertion_driven (ports : DoctorPorts) (assertion_id sandbox : str) : CheckResult :=
  let name := lit "AssertionDriven(" ++ assertion_id ++ lit ")" in
  match match dp_assertions ports with Some r => r assertion_id | None => None end with
  | None => mkCheck name false (Some (lit "Assertion '" ++ assertion_id ++ lit "' not found"))
  | Some assertion =>
      match gw_experience (dp_store ports) sandbox with
      | Some record =>
          let check_results := map (gw_evaluate record) (as_checks assertion) in
          if forallb ck_passed check_results then mkCheck name true None
          else mkCheck name false (Some (join (lit "; ") (gw_failed_reasons check_results)))
      | None =>
          mkCheck name false
            (Some (lit "No experience record found for assertion '" ++ assertion_id ++ lit "'"))
      end
  end.

Definition gw_unsupported (name : str) : CheckResult :=
  mkCheck name false (Some (name ++ lit " check not supported in this context")).

Definition gw_run_check (ports : DoctorPorts) (c : DoctorCheck) (sandbox : str) : CheckResult :=
  match c with
  | Aliveness own => gw_aliveness ports own sandbox
  | Resources max_total max_idle => gw_resources ports max_total max_idle
  | AssertionDriven id => gw_assertion_driven ports id sandbox
  | ProviderAlive _ => gw_unsupported (lit "ProviderAlive")
  | BinaryAvailable _ _ => gw_unsupported (lit "BinaryAvailable")
  | ImageAvailable _ _ => gw_unsupported (lit "ImageAvailable")
  | KvmAvailable => gw_unsupported (lit "KvmAvailable")
  | CapabilitiesMet _ _ _ => gw_unsupported (lit "CapabilitiesMet")
  | ConfigValid _ => gw_unsupported (lit "ConfigValid")
  | WorkerBinaryValid _ => gw_unsupported (lit "WorkerBinaryValid")
  end.

Fixpoint gw_run_checks (ports : DoctorPorts) (sandbox : str) (cs : list DoctorCheck)
    (d : DoctorResult) (all_passed : bool) (parts : list str) : DoctorResult * bool * list str :=
  match cs with
  | [] => (d, all_passed, parts)
  | c :: cs' =>
      let r := gw_run_check ports c sandbox in
      let parts :=
        if negb (ck_passed r) then
          parts ++ [ck_check r ++ lit ": " ++
                    match ck_reason r with Some s => s | None => lit "failed" end]
        else parts in
      gw_run_checks ports sandbox cs' (add_check_result r d) (all_passed && ck_passed r) parts
  end.

Definition gw_rationale (name sandbox : str) (d : DoctorResult) (all_passed : bool)
    (parts : list str) : str :=
  if all_passed then
    lit "Doctor '" ++ name ++ lit "' passed all " ++ show_nat (length (dr_check_results d)) ++
    lit " checks for sandbox '" ++ sandbox ++ lit "'"
  else join (lit "; ") parts.

Inductive DoctorAnswer := DoctorRan (r : DoctorResult) | DoctorFailed (error : str).

(** [doctor_run], before its answer is written as JSON. *)
Definition doctor_run (ports : DoctorPorts) (registry : option (str -> option DoctorDescriptor))
    (doctor_id sandbox trace : str) : DoctorAnswer :=
  match registry with
  | None => DoctorFailed (lit "doctor registry not configured")
  | Some get =>
      match get doctor_id with
      | None => DoctorFailed (lit "doctor '" ++ doctor_id ++ lit "' not found")
      | Some desc =>
          let '(d, all_passed, parts) := gw_run_checks ports sandbox (dd_checks desc)
            (DoctorResult_new (dd_id desc) (Some sandbox) trace (dd_severity desc)) true [] in
          DoctorRan (finalize (set_rationale (gw_rationale (dd_name desc) sandbox d all_passed parts) d))
      end
  end.
End RunDoctor.

(** ** What a doctor answers *)

Section DoctorFacts.
Context `{DebugTables} `{JsonValue}.

Definition with_checks (d : DoctorResult) (rs : list CheckResult) : DoctorResult :=
  mkDoctorResult (dr_doctor_id d) (dr_sandbox_id d) (dr_status d) (dr_severity d) (dr_trace_id d)
    (dr_check_results d ++ rs) (dr_rationale d).

Definition failures (rs : list CheckResult) : list CheckResult :=
  List.filter (fun c => negb (ck_passed c)) rs.

Lemma gw_run_checks_map ports sb cs d ap parts :
  gw_run_checks ports sb cs d ap parts =
    let rs := map (fun c => gw_run_check ports c sb) cs in
    (with_checks d rs, ap && forallb ck_passed rs, parts ++ map rationale_part (failures rs)).
Proof.
  revert d ap parts. induction cs as [|c cs IH]; intros d ap parts; cbn [gw_run_checks map].
  - unfold with_checks. destruct d. simpl. by rewrite !app_nil_r, andb_true_r.
  - rewrite IH. cbv zeta. set (r := gw_run_check ports c sb). unfold with_checks, add_check_result.
    simpl. rewrite <- app_assoc, andb_assoc. unfold rationale_part, default, from_option, id.
    by destruct (ck_passed r); simpl; rewrite <- ?app_assoc.
Qed.

Lemma run_checks_mapM ports sb cs d ap parts :
  run_checks ports sb cs d ap parts =
    match mapM (fun c => run_check ports c sb) cs with
    | Some rs => Some (with_checks d rs, ap && forallb ck_passed rs,
                       parts ++ map rationale_part (failures rs))
    | None => None
    end.
Proof.
  revert d ap parts. induction cs as [|c cs IH]; intros d ap parts; cbn [run_checks].
  - simpl. unfold with_checks. destruct d. simpl. by rewrite !app_nil_r, andb_true_r.
  - simpl. destruct (run_check ports c sb) as [r|]; [|done]. simpl. rewrite IH.
    destruct (mapM _ cs) as [rs|]; [|done]. simpl. unfold with_checks, add_check_result. simpl.
    rewrite <- app_assoc, andb_assoc. by destruct (ck_passed r); simpl; rewrite <- ?app_assoc.
Qed.

(** *** The two copies of each check *)

Lemma aliveness_agrees ports own sb : gw_aliveness ports own sb = aliveness ports (default sb own).
Proof. by destruct own. Qed.

Lemma idle_agrees max ts :
  gw_idle_exceeded max ts =
    option_map (fun t => failed_check (lit "Resources")
      (lit "Template '" ++ ts_template t ++ lit "' idle " ++ show_Z (ts_idle t) ++
       lit " exceeds max " ++ show_Z max)) (first_over max ts).
Proof.
  induction ts as [|t ts IH]; cbn [gw_idle_exceeded first_over]; [done|].
  rewrite Z.gtb_ltb. by destruct (max <? ts_idle t)%Z.
Qed.

Lemma resources_agree ports mt mi : gw_resources ports mt mi = resources ports mt mi.
Proof.
  unfold gw_resources, resources, gw_total_exceeded. destruct (dp_pool_stats ports) as [stats|]; [|done].
  assert (Hi : match match mi with Some max_idle => gw_idle_exceeded max_idle (ps_templates stats) | None => None end with
    | Some failed => failed | None => mkCheck (lit "Resources") true None end =
    match mi with
    | None => passed_check (lit "Resources")
    | Some max =>
        match first_over max (ps_templates stats) with
        | None => passed_check (lit "Resources")
        | Some t => failed_check (lit "Resources")
            (lit "Template '" ++ ts_template t ++ lit "' idle " ++ show_Z (ts_idle t) ++
             lit " exceeds max " ++ show_Z max)
        end
    end).
  { destruct mi as [mi|]; [|done]. rewrite idle_agrees. by destruct (first_over mi _). }
  cbv zeta in *. rewrite Hi. destruct mt as [mt|]; [|done]. rewrite Z.gtb_ltb.
  by destruct (mt <? ps_total stats)%Z.
Qed.

Lemma experience_agrees store sb : gw_experience store sb = experience_for store (Some sb).
Proof.
  unfold gw_experience, experience_for, most_recent. destruct store as [st|]; [|done].
  destruct (es_find_by_trace_id st sb) as [rs|e]; [|done].
  by destruct (sort_by_key _ rs).
Qed.

Lemma failed_reasons_agree rs :
  gw_failed_reasons rs = map (fun c => default (lit "failed") (ck_reason c))
    (List.filter (fun c => negb (ck_passed c)) rs).
Proof.
  induction rs as [|r rs IH]; cbn [gw_failed_reasons List.filter]; [done|].
  destruct (negb (ck_passed r)); cbn [map]; rewrite IH; [|done]. by destruct (ck_reason r).
Qed.

Lemma assertion_agrees ports id sb :
  gw_assertion_driven ports id sb = assertion_driven ports id (Some sb).
Proof.
  unfold gw_assertion_driven, assertion_driven, judge_assertion. rewrite experience_agrees.
  destruct (match dp_assertions ports with Some get => get id | None => None end) as [a|]; [|done].
  destruct (experience_for _ _) as [r|]; [|done]. change (gw_evaluate r) with (check_result r).
  cbv zeta. rewrite failed_reasons_agree. by destruct (forallb ck_passed _).
Qed.

(** The two versions of a check differ only in the reason given for a check
    that neither of them makes. *)
Lemma run_check_agrees ports c sb :
  exists r, run_check ports c (Some sb) = Some r /\
    ck_check r = ck_check (gw_run_check ports c sb) /\
    ck_passed r = ck_passed (gw_run_check ports c sb) /\
    (infrastructure_check c = None -> r = gw_run_check ports c sb).
Proof.
  destruct c as [own|mt mi|id| | | | | | |]; cbn [run_check gw_run_check];
    rewrite ?aliveness_agrees, ?resources_agree, ?assertion_agrees;
    try (eexists; split; [reflexivity|done]).
  destruct own; (eexists; split; [reflexivity|done]).
Qed.

Lemma run_checks_agree ports cs sb :
  exists rs, mapM (fun c => run_check ports c (Some sb)) cs = Some rs /\
    map (fun r => (ck_check r, ck_passed r)) rs =
      map (fun r => (ck_check r, ck_passed r)) (map (fun c => gw_run_check ports c sb) cs) /\
    (Forall (fun c => infrastructure_check c = None) cs ->
     rs = map (fun c => gw_run_check ports c sb) cs).
Proof.
  induction cs as [|c cs (rs & E & Hp & Heq)]; [by exists []|].
  destruct (run_check_agrees ports c sb) as (r & Er & Hn & Hr & Hri).
  exists (r :: rs). simpl. rewrite Er. simpl. rewrite E. simpl. split; [done|].
  split; [by rewrite Hn, Hr, Hp|]. intros [Hc Hcs]%Forall_cons. by rewrite Hri, Heq.
Qed.

Lemma forallb_passed (rs : list CheckResult) : forallb ck_passed rs = forallb id (map ck_passed rs).
Proof. induction rs as [|r rs IH]; simpl; [done|]. by rewrite IH. Qed.

Lemma status_by_passed (d d' : DoctorResult) :
  map ck_passed (dr_check_results d) = map ck_passed (dr_check_results d') ->
  dr_status (finalize d) = dr_status (finalize d').
Proof.
  unfold finalize. simpl. destruct (dr_check_results d), (dr_check_results d'); try done.
  simpl. intros [= E1 E2]. by rewrite !forallb_passed, E1, E2.
Qed.

(** C24. The use case and the gateway's tool are two implementations of the same
    routine: on a sandbox they reach the same status through checks of the same
    names with the same outcomes, in the same order, and when the doctor has no
    check that needs the gateway's host they give the same answer, field by
    field, reasons and rationale included. *)
Theorem doctors_agree (ports : DoctorPorts) (get : str -> option DoctorDescriptor)
    (desc : DoctorDescriptor) (doctor_id sandbox trace : str) :
  get doctor_id = Some desc ->
  exists r r', run_doctor ports desc (Some sandbox) trace = Some r /\
    doctor_run ports (Some get) doctor_id sandbox trace = DoctorRan r' /\
    dr_status r = dr_status r' /\
    map (fun c => (ck_check c, ck_passed c)) (dr_check_results r) =
      map (fun c => (ck_check c, ck_passed c)) (dr_check_results r') /\
    (Forall (fun c => infrastructure_check c = None) (dd_checks desc) -> r = r').
Proof.
  intros Hget. unfold run_doctor, doctor_run. rewrite Hget, gw_run_checks_map, run_checks_mapM.
  destruct (run_checks_agree ports (dd_checks desc) sandbox) as (rs & -> & Hp & Heq).
  cbv zeta. eexists _, _. split; [reflexivity|]. split; [reflexivity|]. split; [|split; [exact Hp|]].
  - apply status_by_passed. cbn [dr_check_results with_checks set_rationale DoctorResult_new app].
    apply (f_equal (map snd)) in Hp. rewrite !map_map in Hp. rewrite map_map. exact Hp.
  - intros Hi. by rewrite Heq.
Qed.

(** A doctor that runs reports one result per check, in order: it is skipped
    exactly when it has no check, passes exactly when it has some and all pass,
    and otherwise fails with the failed checks as its rationale.  A check that
    needs the gateway's host always fails here. *)
Theorem doctor_run_spec (ports : DoctorPorts) (get : str -> option DoctorDescriptor)
    (desc : DoctorDescriptor) (doctor_id sandbox trace : str) :
  get doctor_id = Some desc ->
  exists r, doctor_run ports (Some get) doctor_id sandbox trace = DoctorRan r /\
    dr_check_results r = map (fun c => gw_run_check ports c sandbox) (dd_checks desc) /\
    (dr_status r = DSkip <-> dd_checks desc = []) /\
    (dr_status r = DPass <-> dd_checks desc ≠ [] /\ Forall (fun c => ck_passed c = true) (dr_check_results r)) /\
    (dr_status r = DFail -> dr_rationale r = join (lit "; ") (map rationale_part (failures (dr_check_results r)))) /\
    (Exists (fun c => is_Some (infrastructure_check c)) (dd_checks desc) -> dr_status r = DFail).
Proof.
  intros Hget. unfold doctor_run. rewrite Hget, gw_run_checks_map. cbv zeta.
  eexists. split; [reflexivity|]. unfold finalize. simpl.
  set (rs := map _ (dd_checks desc)).
  assert (Hnil : rs = [] <-> dd_checks desc = []) by (unfold rs; by destruct (dd_checks desc)).
  assert (Hall : forallb ck_passed rs = true <-> Forall (fun c => ck_passed c = true) rs).
  { rewrite forallb_forall, Forall_forall. by setoid_rewrite list_elem_of_In. }
  assert (Hinf : Exists (fun c => is_Some (infrastructure_check c)) (dd_checks desc) ->
    rs ≠ [] /\ forallb ck_passed rs = false).
  { intros He. split; [intros Hr%Hnil; rewrite Hr in He; by apply Exists_nil in He|].
    apply not_true_iff_false. rewrite Hall. unfold rs. rewrite Forall_map. intros Hf.
    apply Exists_exists in He as (c & Hc & n & En). rewrite Forall_forall in Hf.
    specialize (Hf c Hc). by destruct c. }
  split; [done|]. clearbody rs.
  assert (Hne : rs ≠ [] -> dd_checks desc ≠ []) by (intros Hr Hd%Hnil; done).
  destruct rs as [|r0 rest].
  - assert (Hd : dd_checks desc = []) by by apply Hnil. rewrite Hd in *.
    repeat split; try done; [by intros [? _]|by intros [? _]%Hinf].
  - specialize (Hne ltac:(done)). simpl in Hall, Hinf |- *.
    destruct (ck_passed r0 && forallb ck_passed rest) eqn:Ef.
    + split; [split; [done|intros Hd; by destruct Hne]|]. split; [|split; [done|by intros [_ ?]%Hinf]].
      split; [intros _; split; [done|by apply Hall]|done].
    + split; [split; [done|intros Hd; by destruct Hne]|]. split; [|by split]. split; [done|]. intros [_ Hf%Hall]. congruence.
Qed.

(** Without a sandbox the use case panics exactly on a doctor that has a
    liveness check that names no sandbox of its own. *)
Theorem run_doctor_panics (ports : DoctorPorts) (desc : DoctorDescriptor) (sandbox : option str)
    (trace : str) :
  run_doctor ports desc sandbox trace = None <->
  sandbox = None /\ Aliveness None ∈ dd_checks desc.
Proof.
  unfold run_doctor. rewrite run_checks_mapM.
  assert (Hc : forall c, run_check ports c sandbox = None <-> sandbox = None /\ c = Aliveness None).
  { intros c. destruct c as [[own|]| | | | | | | | |], sandbox; simpl; (split; [done|by intros [??]]). }
  destruct (mapM _ (dd_checks desc)) as [rs|] eqn:E.
  - split; [done|]. intros [Hs Hin]. apply mapM_Some_1 in E.
    apply list_elem_of_lookup in Hin as [i Hi].
    destruct (Forall2_lookup_l _ _ _ _ _ E Hi) as (r & _ & Hr).
    by rewrite (proj2 (Hc (Aliveness None))) in Hr.
  - split; [intros _|done]. apply mapM_None_1, Exists_exists in E as (c & Hin & Hn).
    apply Hc in Hn as [-> ->]. done.
Qed.
End DoctorFacts.

(** ** Loading *)

(** The last file that describes an id. *)
Definition last_with_id {E} (files : list (result E TomlAssertion)) (id : str) : option TomlAssertion :=
  last (List.filter (fun a => str_eqb (ta_id a) id)
    (omap (fun f => match f with Ok a => Some a | Err _ => None end) files)).

Lemma load_assertions_lookup {E} (files : list (result E TomlAssertion))
    (reg : gmap str AssertionDescriptor) n id :
  fst (load_assertions files reg n) !! id =
    match last_with_id files id with
    | Some a => Some (assertion_of_toml a)
    | None => reg !! id
    end.
Proof.
  revert reg n. induction files as [|[a|e] files IH]; intros reg n; cbn [load_assertions].
  - done.
  - rewrite IH. unfold last_with_id. simpl. destruct (str_eqb (ta_id a) id) eqn:E'.
    + apply str_eqb_eq in E' as <-. rewrite last_cons. destruct (last _); [done|].
      by rewrite lookup_insert_eq.
    + destruct (last _); [done|]. apply lookup_insert_ne. intros <-. by rewrite str_eqb_refl in E'.
  - rewrite IH. done.
Qed.

(** After loading a directory an id is known exactly when a file that decodes
    describes it, the last such file decides, and every assertion of the registry
    has a check: none can pass for want of one. *)
Theorem load_assertions_spec {E} (files : list (result E TomlAssertion)) (id : str) :
  let reg := fst (load_assertions files ∅ 0) in
  reg !! id = option_map assertion_of_toml (last_with_id files id) /\
  forall d, reg !! id = Some d -> as_checks d ≠ [].
Proof.
  cbv zeta. rewrite load_assertions_lookup, lookup_empty. split; [by destruct (last_with_id files id)|].
  intros d. destruct (last_with_id files id) as [a|]; [|done]. intros [= <-].
  unfold assertion_of_toml. simpl. by destruct (map into_assertion_check _).
Qed.

(** ** Witnesses *)

Definition unit_json : JsonValue := {| json := unit; json_null := tt; json_empty_object := tt |}.

Definition sample_ports : @DoctorPorts unit_json := {|
  dp_is_alive := fun _ => Ok true;
  dp_pool_stats := Some (mkPoolStats [mkTemplateStats (lit "ubuntu") 3] 1 3 4);
  dp_assertions := None;
  dp_store := None
|}.

Definition sample_doctor : DoctorDescriptor :=
  mkDoctor (lit "d") (lit "D") [] [] Warning [Aliveness None; Resources (Some 10) (Some 2)]%Z.

Lemma doctors_agree_witness :
  exists r r', @run_doctor no_printable unit_json sample_ports sample_doctor (Some (lit "s")) (lit "t") = Some r /\
    @doctor_run no_printable unit_json sample_ports (Some (fun _ => Some sample_doctor)) (lit "d") (lit "s") (lit "t") = DoctorRan r' /\
    dr_status r = dr_status r' /\ r = r'.
Proof.
  destruct (@doctors_agree no_printable unit_json sample_ports (fun _ => Some sample_doctor) sample_doctor
    (lit "d") (lit "s") (lit "t") eq_refl) as (r & r' & E & E' & Es & _ & Eq).
  exists r, r'. split; [exact E|]. split; [exact E'|]. split; [exact Es|].
  apply Eq. repeat constructor.
Defined.

Lemma doctor_run_witness :
  exists r, @doctor_run no_printable unit_json sample_ports (Some (fun _ => Some sample_doctor)) (lit "d") (lit "s") (lit "t") = DoctorRan r /\
    dr_rationale r = lit "Resources: Template 'ubuntu' idle 3 exceeds max 2".
Proof.
  destruct (@doctor_run_spec no_printable unit_json sample_ports (fun _ => Some sample_doctor) sample_doctor
    (lit "d") (lit "s") (lit "t") eq_refl) as (r & E & Hr & _ & _ & Hf & _).
  exists r. split; [exact E|]. rewrite Hf; [rewrite Hr; reflexivity|].
  injection E as <-. reflexivity.
Defined.
