(* ===== verification/Advice.v ===== *)
(** * Advice

    Models [bastion-domain/src/catalog/advice.rs], the descriptors and the
    configuration file of advice ([bastion-infrastructure/src/catalog/
    toml_advice_parser.rs]), the use case ([bastion-application/src/catalog/
    suggest_advice.rs]) and the gateway's tools ([bastion-gateway/src/
    advice_tools.rs]) up to the writing of their answers as JSON.  The order in
    which a registry lists its descriptors is that of the list given. *)

From S2P Require Import Prelude Experience.

(** ** Data *)

Inductive AdviceSeverity := ACritical | AWarning | AHint.

Definition sort_key (s : AdviceSeverity) : Z :=
  match s with ACritical => 0 | AWarning => 1 | AHint => 2 end%Z.

Inductive AdviceTrigger :=
| AssertionFailed (assertion_id : str)
| DoctorFailed (doctor_id : str)
| ExperiencePattern (tool_name status : str) (threshold : Z).

Record AdviceDescriptor := mkAdvice {
  av_id : str; av_name : str; av_description : str; av_category : str;
  av_severity : AdviceSeverity; av_triggers : list AdviceTrigger; av_message : str;
  av_suggested_actions : list str; av_hint : option str
}.

Section Results.
Context `{JsonValue}.

Record AdviceResult := mkAdviceResult {
  rv_advice_id : str; rv_triggered_by : AdviceTrigger; rv_message : str; rv_context : json;
  rv_suggested_actions : list str; rv_severity : AdviceSeverity
}.

Definition AdviceResult_new (id : str) (t : AdviceTrigger) (message : str) (acts : list str)
    (s : AdviceSeverity) : AdviceResult := mkAdviceResult id t message json_null acts s.

Definition with_context (c : json) (r : AdviceResult) : AdviceResult :=
  mkAdviceResult (rv_advice_id r) (rv_triggered_by r) (rv_message r) c (rv_suggested_actions r)
    (rv_severity r).
End Results.

(** ** Descriptors read from files *)

Inductive TomlTrigger :=
| TAssertionFailed (assertion_id : str)
| TDoctorFailed (doctor_id : str)
| TExperiencePattern (tool_name status : str) (threshold : Z).

Definition into_trigger (t : TomlTrigger) : AdviceTrigger :=
  match t with
  | TAssertionFailed a => AssertionFailed a
  | TDoctorFailed d => DoctorFailed d
  | TExperiencePattern t s n => ExperiencePattern t s n
  end.

(** [TomlTrigger::to_cel_condition]. *)
Definition trigger_condition (t : TomlTrigger) : option str :=
  match t with
  | TAssertionFailed id => Some (lit "fact('assertion:" ++ id ++ lit "') == 'failed'")
  | TDoctorFailed id => Some (lit "fact('doctor:" ++ id ++ lit "') == 'failed'")
  | TExperiencePattern tool status n =>
      Some (lit "count_fact('experience:" ++ tool ++ lit ":" ++ status ++ lit "', '>=', " ++
            show_Z n ++ lit ")")
  end.

Record TomlAdvice := mkTomlAdvice {
  tv_id : str; tv_name : str; tv_description : str; tv_category : str; tv_severity : AdviceSeverity;
  tv_triggers : list TomlTrigger; tv_message : str; tv_suggested_actions : list str;
  tv_hint : option str
}.

Definition advice_of_toml (a : TomlAdvice) : AdviceDescriptor :=
  mkAdvice (tv_id a) (tv_name a) (tv_description a) (tv_category a) (tv_severity a)
    (map into_trigger (tv_triggers a)) (tv_message a) (tv_suggested_actions a) (tv_hint a).

Record AdviceRegistry := mkAdviceRegistry {
  avr_advice : gmap str AdviceDescriptor; avr_sources : gmap str str
}.

(** [load_from_dir]: the last file of an id wins, a file that does not decode is
    skipped. *)
Fixpoint load_advice {E} (files : list (result E (TomlAdvice * str))) (reg : AdviceRegistry) (n : N) :
    AdviceRegistry * N :=
  match files with
  | [] => (reg, n)
  | Err _ :: fs => load_advice fs reg n
  | Ok (a, source) :: fs =>
      load_advice fs
        (mkAdviceRegistry (<[tv_id a := advice_of_toml a]> (avr_advice reg))
           (<[tv_id a := source]> (avr_sources reg))) (n + 1)%N
  end.

(** ** The configuration *)

Record AdviceConfig := mkAdviceConfig { ac_enabled : bool; ac_disabled : list str }.

Definition default_enabled : AdviceConfig := mkAdviceConfig true [].

Definition contains (l : list str) (s : str) : bool := existsb (str_eqb s) l.

Definition is_disabled (c : AdviceConfig) (id : str) : bool := contains (ac_disabled c) id.

Inductive AdviceParserError :=
| APReadDir (e : str) | APTomlParse (e : str) | APTomlSerialize (e : str) | APNotFound (id : str).

Definition show_parser_error (e : AdviceParserError) : str :=
  match e with
  | APReadDir e => lit "Failed to read directory: " ++ e
  | APTomlParse e => lit "Failed to parse TOML: " ++ e
  | APTomlSerialize e => lit "Failed to serialize TOML: " ++ e
  | APNotFound id => lit "Advice '" ++ id ++ lit "' not found"
  end.

(** The store: the configuration in memory and the one in the file, if any. *)
Record AdviceConfigStore := mkConfigStore {
  cs_config : AdviceConfig; cs_file : option AdviceConfig
}.

(** [new]; [file] is what reading the file gives, [None] when there is none. *)
Definition AdviceConfigStore_new (file : option (result AdviceParserError AdviceConfig)) :
    AdviceConfigStore :=
  match file with
  | Some (Ok c) => mkConfigStore c (Some c)
  | Some (Err _) | None => mkConfigStore default_enabled None
  end.

(** [save_config]: [io] says how serializing, writing and renaming go.  The file
    changes only by the last step. *)
Definition save_config (io : option AdviceParserError) (s : AdviceConfigStore) :
    result AdviceParserError AdviceConfig * AdviceConfigStore :=
  match io with
  | Some e => (Err e, s)
  | None => (Ok (cs_config s), mkConfigStore (cs_config s) (Some (cs_config s)))
  end.

Definition in_memory (c : AdviceConfig) (s : AdviceConfigStore) : AdviceConfigStore :=
  mkConfigStore c (cs_file s).

Definition set_global_enabled (enabled : bool) io (s : AdviceConfigStore) :=
  save_config io (in_memory (mkAdviceConfig enabled (ac_disabled (cs_config s))) s).

Definition disable_advice (id : str) io (s : AdviceConfigStore) :=
  let c := cs_config s in
  save_config io (in_memory (mkAdviceConfig (ac_enabled c)
    (if contains (ac_disabled c) id then ac_disabled c else ac_disabled c ++ [id])) s).

Definition enable_advice (id : str) io (s : AdviceConfigStore) :=
  let c := cs_config s in
  save_config io (in_memory (mkAdviceConfig (ac_enabled c)
    (List.filter (fun d => negb (str_eqb d id)) (ac_disabled c))) s).

Definition clear_disabled io (s : AdviceConfigStore) :=
  save_config io (in_memory (mkAdviceConfig (ac_enabled (cs_config s)) []) s).

(** ** The use case *)

Record ExperienceHint := mkHint { eh_tool_name : str; eh_status : str; eh_count : Z }.

Record SuggestAdviceContext := mkSuggest {
  sc_assertion_failures : list str; sc_doctor_failures : list str;
  sc_experience_hints : list ExperienceHint
}.

Definition hint_matches (tool status : str) (threshold : Z) (h : ExperienceHint) : bool :=
  str_eqb (eh_tool_name h) tool && str_eqb (eh_status h) status && (threshold <=? eh_count h)%Z.

Definition trigger_matches (ctx : SuggestAdviceContext) (t : AdviceTrigger) : bool :=
  match t with
  | AssertionFailed id => contains (sc_assertion_failures ctx) id
  | DoctorFailed id => contains (sc_doctor_failures ctx) id
  | ExperiencePattern tool status n => existsb (hint_matches tool status n) (sc_experience_hints ctx)
  end.

Definition evaluate_triggers (ctx : SuggestAdviceContext) (ts : list AdviceTrigger) :
    option AdviceTrigger := List.find (trigger_matches ctx) ts.

Section Suggest.
Context `{JsonValue}.

Definition result_for (d : AdviceDescriptor) (t : AdviceTrigger) : AdviceResult :=
  AdviceResult_new (av_id d) t (av_message d) (av_suggested_actions d) (av_severity d).

Definition by_severity (rs : list AdviceResult) : list AdviceResult :=
  sort_by_key (fun r => sort_key (rv_severity r)) rs.

(** [SuggestAdviceUseCase::suggest]. *)
Definition suggest (all_advice : list AdviceDescriptor) (ctx : SuggestAdviceContext) :
    list AdviceResult :=
  by_severity (omap (fun d =>
    match evaluate_triggers ctx (av_triggers d) with
    | Some t => Some (result_for d t)
    | None => None
    end) all_advice).

(** ** The gateway's tools *)

Inductive AdviceAnswer :=
| AdviceList (advice : list AdviceDescriptor) (global_enabled : bool)
| AdviceGet (d : AdviceDescriptor) (toml_source : option str)
| AdviceMatches (matches : list AdviceResult) (global_enabled : bool)
| AdviceConfigured (advice_id : str) (enabled global_enabled : bool) (disabled_count : nat)
| AdviceError (error : str).

Definition config_of (store : option AdviceConfigStore) : AdviceConfig :=
  match store with Some s => cs_config s | None => default_enabled end.

(** The registry as its lookup, its sources and its listing. *)
Record AdviceCatalog := mkAdviceCatalog {
  ct_registry : AdviceRegistry; ct_list : list AdviceDescriptor
}.

Definition advice_list (catalog : option AdviceCatalog) (store : option AdviceConfigStore) :
    AdviceAnswer :=
  match catalog with
  | None => AdviceError (lit "advice registry not configured")
  | Some ct =>
      let config := config_of store in
      AdviceList (if ac_enabled config
                  then List.filter (fun a => negb (is_disabled config (av_id a))) (ct_list ct)
                  else []) (ac_enabled config)
  end.

Definition advice_get (catalog : option AdviceCatalog) (id : str) : AdviceAnswer :=
  match catalog with
  | None => AdviceError (lit "advice registry not configured")
  | Some ct =>
      match avr_advice (ct_registry ct) !! id with
      | None => AdviceError (lit "advice '" ++ id ++ lit "' not found")
      | Some d => AdviceGet d (avr_sources (ct_registry ct) !! id)
      end
  end.

(** The inner loop: the first trigger that matches adds a result. *)
Fixpoint push_first_match (ctx : SuggestAdviceContext) (d : AdviceDescriptor)
    (ts : list AdviceTrigger) (results : list AdviceResult) : list AdviceResult :=
  match ts with
  | [] => results
  | t :: ts' =>
      let matched :=
        match t with
        | AssertionFailed id => contains (sc_assertion_failures ctx) id
        | DoctorFailed id => contains (sc_doctor_failures ctx) id
        | ExperiencePattern tool status n =>
            existsb (hint_matches tool status n) (sc_experience_hints ctx)
        end in
      if matched then results ++ [result_for d t] else push_first_match ctx d ts' results
  end.

Fixpoint push_matches (config : AdviceConfig) (ctx : SuggestAdviceContext)
    (ds : list AdviceDescriptor) (results : list AdviceResult) : list AdviceResult :=
  match ds with
  | [] => results
  | d :: ds' =>
      push_matches config ctx ds'
        (if is_disabled config (av_id d) then results
         else push_first_match ctx d (av_triggers d) results)
  end.

Definition advice_suggest (catalog : option AdviceCatalog) (store : option AdviceConfigStore)
    (ctx : SuggestAdviceContext) : AdviceAnswer :=
  match catalog with
  | None => AdviceError (lit "advice registry not configured")
  | Some ct =>
      let config := config_of store in
      if negb (ac_enabled config) then AdviceMatches [] false
      else AdviceMatches (by_severity (push_matches config ctx (ct_list ct) [])) true
  end.

Definition advice_configure (store : option AdviceConfigStore) (io : option AdviceParserError)
    (id : str) (enabled clear : bool) : AdviceAnswer * option AdviceConfigStore :=
  match store with
  | None => (AdviceError (lit "advice config store not configured"), None)
  | Some s =>
      let '(r, s') :=
        if str_eqb id (lit "global") then
          if clear then clear_disabled io s else set_global_enabled enabled io s
        else if enabled then enable_advice id io s
        else disable_advice id io s in
      (match r with
       | Ok cfg => AdviceConfigured id enabled (ac_enabled cfg) (length (ac_disabled cfg))
       | Err e => AdviceError (lit "Failed to update config: " ++ show_parser_error e)
       end, Some s')
  end.
End Suggest.

(** ** What is suggested *)

Lemma contains_spec l s : contains l s = true <-> s ∈ l.
Proof.
  unfold contains. rewrite existsb_exists. setoid_rewrite <- list_elem_of_In. split.
  - by intros (x & Hx & ->%str_eqb_eq).
  - intros Hs. exists s. by rewrite str_eqb_refl.
Qed.

Section SuggestFacts.
Context `{JsonValue}.

Definition matched (ctx : SuggestAdviceContext) (d : AdviceDescriptor) : option AdviceResult :=
  match evaluate_triggers ctx (av_triggers d) with
  | Some t => Some (result_for d t)
  | None => None
  end.

Definition less_severe (a b : AdviceResult) : Prop :=
  (sort_key (rv_severity a) <= sort_key (rv_severity b))%Z.

Lemma matched_severity ctx d r : matched ctx d = Some r -> rv_severity r = av_severity d.
Proof. unfold matched. destruct (evaluate_triggers _ _); [|done]. by intros [= <-]. Qed.

Lemma omap_matched_cons ctx d ds :
  omap (matched ctx) (d :: ds) =
    match matched ctx d with
    | Some r => r :: omap (matched ctx) ds
    | None => omap (matched ctx) ds
    end.
Proof. done. Qed.

Lemma filter_matched ctx p (ds : list AdviceDescriptor) :
  List.filter (fun r => (sort_key (rv_severity r) =? p)%Z) (omap (matched ctx) ds) =
  omap (matched ctx) (List.filter (fun d => (sort_key (av_severity d) =? p)%Z) ds).
Proof.
  induction ds as [|d ds IH]; [done|]. rewrite omap_matched_cons. cbn [List.filter].
  destruct (matched ctx d) as [r|] eqn:E; cbn [List.filter];
    rewrite ?(matched_severity ctx d r E), IH;
    (destruct (sort_key (av_severity d) =? p)%Z; [|done]); by rewrite omap_matched_cons, E.
Qed.

(** The suggestions are those of the descriptors with a trigger that holds,
    each reported with the first such trigger, critical ones first, and within a
    severity in the order of the registry. *)
Theorem suggest_spec (ds : list AdviceDescriptor) (ctx : SuggestAdviceContext) :
  (forall r, r ∈ suggest ds ctx <->
     exists d t, d ∈ ds /\ List.find (trigger_matches ctx) (av_triggers d) = Some t /\
                 r = result_for d t) /\
  StronglySorted less_severe (suggest ds ctx) /\
  forall s, List.filter (fun r => (sort_key (rv_severity r) =? sort_key s)%Z) (suggest ds ctx) =
            omap (matched ctx) (List.filter (fun d => (sort_key (av_severity d) =? sort_key s)%Z) ds).
Proof.
  unfold suggest, by_severity. split; [|split].
  - intros r. rewrite (sort_by_key_perm _ _), list_elem_of_omap. unfold evaluate_triggers. split.
    + intros (d & Hd & Hr). destruct (List.find _ _) as [t|] eqn:E; [|done].
      injection Hr as <-. by exists d, t.
    + intros (d & t & Hd & Ht & ->). exists d. by rewrite Ht.
  - apply (sort_by_key_sorted (fun r => sort_key (rv_severity r))).
  - intros s. rewrite (sort_by_key_stable (fun r => sort_key (rv_severity r))). apply filter_matched.
Qed.

Lemma push_first_match_find ctx d ts rs :
  push_first_match ctx d ts rs =
    match List.find (trigger_matches ctx) ts with
    | Some t => rs ++ [result_for d t]
    | None => rs
    end.
Proof.
  induction ts as [|t ts IH]; [done|]. cbn [push_first_match List.find].
  change (match t with
          | AssertionFailed id => contains (sc_assertion_failures ctx) id
          | DoctorFailed id => contains (sc_doctor_failures ctx) id
          | ExperiencePattern tool status n =>
              existsb (hint_matches tool status n) (sc_experience_hints ctx)
          end) with (trigger_matches ctx t). cbv zeta.
  destruct (trigger_matches ctx t); [done|apply IH].
Qed.

Lemma push_matches_omap config ctx ds rs :
  push_matches config ctx ds rs =
    rs ++ omap (matched ctx) (List.filter (fun d => negb (is_disabled config (av_id d))) ds).
Proof.
  revert rs. induction ds as [|d ds IH]; intros rs; cbn [push_matches List.filter].
  - by rewrite app_nil_r.
  - rewrite IH, push_first_match_find. destruct (is_disabled config (av_id d)); [done|]. simpl.
    unfold matched at 2, evaluate_triggers. destruct (List.find _ _); [|done].
    by rewrite <- app_assoc.
Qed.

(** The gateway's own loop answers what the use case answers on the advice
    that is listed, and nothing when advice is switched off: whatever it suggests
    comes from advice that [advice_list] shows. *)
Theorem gateway_suggests (ct : AdviceCatalog) (store : option AdviceConfigStore)
    (ctx : SuggestAdviceContext) :
  exists listed enabled,
    advice_list (Some ct) store = AdviceList listed enabled /\
    advice_suggest (Some ct) store ctx = AdviceMatches (suggest listed ctx) enabled.
Proof.
  eexists _, _. split; [reflexivity|]. unfold advice_suggest.
  destruct (ac_enabled (config_of store)); [|done]. simpl.
  by rewrite push_matches_omap.
Qed.
End SuggestFacts.

(** ** What the configuration remembers *)

(** A call of [advice_configure] with the fate of its save. *)
Record configure_op := mkConfigure {
  op_id : str; op_enabled : bool; op_clear : bool; op_io : option AdviceParserError
}.

Section Configure.
Context `{JsonValue}.

Definition configure (op : configure_op) (s : AdviceConfigStore) : AdviceConfigStore :=
  default s (snd (advice_configure (Some s) (op_io op) (op_id op) (op_enabled op) (op_clear op))).

Definition configure_all (ops : list configure_op) (s : AdviceConfigStore) : AdviceConfigStore :=
  fold_left (fun s op => configure op s) ops s.

(** Whether an id is disabled after a call, given whether it was. *)
Definition setting (id : str) (was : bool) (op : configure_op) : bool :=
  if str_eqb (op_id op) (lit "global") then if op_clear op then false else was
  else if str_eqb (op_id op) id then negb (op_enabled op) else was.

Lemma save_config_snd io s :
  snd (save_config io s) = mkConfigStore (cs_config s)
    (match io with Some _ => cs_file s | None => Some (cs_config s) end).
Proof. by destruct io, s. Qed.

(** The configuration in memory after a call does not depend on the save. *)
Definition configured (op : configure_op) (c : AdviceConfig) : AdviceConfig :=
  if str_eqb (op_id op) (lit "global") then
    if op_clear op then mkAdviceConfig (ac_enabled c) []
    else mkAdviceConfig (op_enabled op) (ac_disabled c)
  else if op_enabled op then
    mkAdviceConfig (ac_enabled c) (List.filter (fun d => negb (str_eqb d (op_id op))) (ac_disabled c))
  else mkAdviceConfig (ac_enabled c)
    (if contains (ac_disabled c) (op_id op) then ac_disabled c else ac_disabled c ++ [op_id op]).

Lemma configure_eq op s :
  configure op s = mkConfigStore (configured op (cs_config s))
    (match op_io op with Some _ => cs_file s | None => Some (configured op (cs_config s)) end).
Proof.
  unfold configure, advice_configure, configured.
  destruct (str_eqb (op_id op) (lit "global")), (op_clear op), (op_enabled op);
    unfold clear_disabled, set_global_enabled, enable_advice, disable_advice;
    match goal with |- context [save_config ?io ?t] =>
      pose proof (save_config_snd io t) as E; destruct (save_config io t) as [r s'] end;
    simpl in *; by rewrite E.
Qed.

Lemma configured_disabled op c id :
  is_disabled (configured op c) id = setting id (is_disabled c id) op.
Proof.
  unfold configured, setting, is_disabled.
  destruct (str_eqb (op_id op) (lit "global")); [by destruct (op_clear op)|].
  apply eq_true_iff_eq. destruct (op_enabled op); simpl; rewrite contains_spec.
  - rewrite list_elem_of_In, filter_In, <- list_elem_of_In.
    destruct (str_eqb (op_id op) id) eqn:E; simpl.
    + apply str_eqb_eq in E as <-. rewrite str_eqb_refl. split; [by intros [_ ?]|done].
    + rewrite contains_spec. split; [by intros [? _]|]. intros Hi. split; [done|].
      rewrite str_eqb_neq; [done|]. intros ->. by rewrite str_eqb_refl in E.
  - destruct (contains (ac_disabled c) (op_id op)) eqn:Ec; simpl.
    + apply contains_spec in Ec. destruct (str_eqb (op_id op) id) eqn:E; simpl.
      * by apply str_eqb_eq in E as <-.
      * by rewrite contains_spec.
    + rewrite elem_of_app, list_elem_of_singleton. destruct (str_eqb (op_id op) id) eqn:E; simpl.
      * apply str_eqb_eq in E as <-. split; [done|]. by right.
      * rewrite contains_spec. split; [|by left]. intros [?| ->]; [done|].
        by rewrite str_eqb_refl in E.
Qed.

Lemma configured_nodup op c : NoDup (ac_disabled c) -> NoDup (ac_disabled (configured op c)).
Proof.
  intros Hn. unfold configured. repeat case_match; simpl; try done.
  - constructor.
  - apply NoDup_ListNoDup, List.NoDup_filter. by apply NoDup_ListNoDup.
  - apply NoDup_app. split; [done|]. split; [|by repeat constructor; apply not_elem_of_nil].
    intros x Hx ->%list_elem_of_singleton. apply contains_spec in Hx. congruence.
Qed.

(** After any sequence of [advice_configure] calls, whether saving them
    succeeded or not, an advice is disabled in memory exactly when the last call
    about it, or the last reset since, says so; the list of disabled advice never
    gains a duplicate.  The file follows only a call that reported success, and
    then holds the whole configuration in memory, what failed calls left there
    included. *)
Theorem configure_history (ops : list configure_op) (s : AdviceConfigStore) :
  let s' := configure_all ops s in
  (forall id, is_disabled (cs_config s') id = fold_left (setting id) ops (is_disabled (cs_config s) id)) /\
  (NoDup (ac_disabled (cs_config s)) -> NoDup (ac_disabled (cs_config s'))) /\
  forall pre op, ops = pre ++ [op] ->
    cs_file s' = match op_io op with
                 | None => Some (cs_config s')
                 | Some _ => cs_file (configure_all pre s)
                 end.
Proof.
  cbv zeta. unfold configure_all. split; [|split].
  - intros id. revert s. induction ops as [|op ops IH]; intros s; [done|]. cbn [fold_left].
    rewrite IH, configure_eq. simpl. by rewrite configured_disabled.
  - revert s. induction ops as [|op ops IH]; intros s Hs; [done|]. cbn [fold_left]. apply IH.
    rewrite configure_eq. by apply configured_nodup.
  - intros pre op ->. rewrite fold_left_app. cbn [fold_left]. rewrite configure_eq. simpl.
    by destruct (op_io op).
Qed.

(** The id "global" stands for the switch: an advice that bears it cannot be
    disabled, and the answer to a reset reports the switch as asked for, though
    it is left alone. *)
Example global_is_reserved :
  let s := mkConfigStore (mkAdviceConfig false []) None in
  advice_configure (Some s) None (lit "global") true true =
    (AdviceConfigured (lit "global") true false 0, Some (mkConfigStore (mkAdviceConfig false []) (Some (mkAdviceConfig false [])))).
Proof. reflexivity. Qed.
End Configure.
