(* ===== verification/Shim.v ===== *)
(** * The shim between the two evaluations of a check

    Models [bastion-infrastructure/src/evaluation/legacy_cel_shim.rs], which
    evaluates a check once by the catalog's own code (Catalog.v) and once by
    printing it as a CEL-lite condition, parsing that and evaluating it over a
    record of the execution (RuleParser.v, RuleEval.v), and reports whether the
    two agree.  [None] is a parser out of fuel, which does not occur. *)

From S2P Require Import Prelude RuleLexer RuleParser RuleSyntax RuleEval Fmt Sandbox Experience Catalog Advice.

(** A parse error is kept as it is, before it is displayed. *)
Inductive ShimError :=
| CelParse (e : ParseError)
| LegacyEval (msg : str)
| ResultMismatch (legacy_result cel_result : bool)
| NoCelCondition.

Record ComparisonResult := mkComparison {
  legacy_passed : bool; cel_passed : bool; legacy_reason : option str; matches : bool
}.

Definition compare (legacy : bool * option str) (cel : bool) : ComparisonResult :=
  mkComparison legacy.1 cel legacy.2 (Bool.eqb legacy.1 cel).

Section Shim.
Context `{UnicodeTables} `{RegexEngine} `{DebugTables} `{JsonValue}.

Abbreviation Shim A := (option (result ShimError A)).

(** [eval_cel_sync]. *)
Definition eval_cel_sync (ctx : EvalContext) (condition : str) : Shim bool :=
  match parse condition with
  | None => None
  | Some (Err e) => Some (Err (CelParse e))
  | Some (Ok expr) => Some (Ok (evaluate ctx expr))
  end.

(** The result an experience stands for: no exit code counts as 0, no duration
    as the greatest 32-bit number; the duration passes through 32 bits. *)
Definition result_of_record (r : ExperienceRecord) : OperationResult :=
  mkResult (default 0%Z (ex_exit_code r)) (ex_stdout_summary r) (ex_stderr_summary r)
    (as_u64 (default i32_max (option_map as_i32 (ex_duration_ms r))))
    (bool_decide (ex_status r = ETimeout)).

Definition eval_cel_on_record_with_facts (r : ExperienceRecord) (extra_facts : list Fact)
    (condition : str) : Shim bool :=
  eval_cel_sync (EvalContext_new (result_of_record r) extra_facts) condition.

Definition eval_cel_on_record (r : ExperienceRecord) (condition : str) : Shim bool :=
  eval_cel_sync (EvalContext_new (result_of_record r) []) condition.

Definition shim_map {A B} (f : A -> B) (x : Shim A) : Shim B :=
  match x with
  | None => None
  | Some (Err e) => Some (Err e)
  | Some (Ok a) => Some (Ok (f a))
  end.

Definition evaluate_toml_check (c : TomlCheck) (r : ExperienceRecord) : Shim ComparisonResult :=
  match check_condition c with
  | None => Some (Err NoCelCondition)
  | Some condition =>
      let legacy := evaluate_check (into_assertion_check c) r in
      shim_map (compare legacy) (eval_cel_on_record r condition)
  end.

Definition evaluate_assertion_check_with_cel (c : AssertionCheck) (r : ExperienceRecord)
    (cel_condition : option str) : Shim ComparisonResult :=
  let legacy := evaluate_check c r in
  match cel_condition with
  | Some condition => shim_map (compare legacy) (eval_cel_on_record r condition)
  | None => Some (Ok (mkComparison legacy.1 legacy.1 legacy.2 true))
  end.

(** The checks of an assertion, all of them, with the reasons of the failed ones. *)
Definition evaluate_assertion_descriptor (checks : list AssertionCheck) (r : ExperienceRecord) :
    bool * option str :=
  let '(all_passed, reasons) :=
    fold_left (fun '(all, reasons) c =>
      let '(passed, reason) := evaluate_check c r in
      if passed then (all, reasons)
      else (false, match reason with Some x => reasons ++ [x] | None => reasons end))
      checks (true, []) in
  match reasons with
  | [] => (all_passed, None)
  | _ => (false, Some (join (lit "; ") reasons))
  end.

Definition assertion_fact (id : str) (passed : bool) : Fact :=
  mkFact (lit "assertion:" ++ id) (if passed then lit "passed" else lit "failed") []
    (lit "legacy_shim") f32_one.

Definition evaluate_doctor_check (c : TomlDoctorCheck) (r : ExperienceRecord)
    (registry : AssertionRegistry) : Shim ComparisonResult :=
  match c with
  | TAssertionDriven id =>
      match registry !! id with
      | None => Some (Err (LegacyEval (lit "Assertion '" ++ id ++ lit "' not found")))
      | Some d =>
          let legacy := evaluate_assertion_descriptor (as_checks d) r in
          match doctor_condition c with
          | None => Some (Err NoCelCondition)
          | Some condition =>
              shim_map (compare legacy)
                (eval_cel_on_record_with_facts r [assertion_fact id legacy.1] condition)
          end
      end
  | _ => Some (Ok (mkComparison true true None true))
  end.

Definition evaluate_advice_trigger (t : TomlTrigger) (facts : list Fact) : Shim ComparisonResult :=
  match trigger_condition t with
  | None => Some (Err NoCelCondition)
  | Some condition =>
      let result := mkResult 0 [] [] 0 false in
      shim_map (fun cel => mkComparison cel cel None true)
        (eval_cel_sync (EvalContext_new result facts) condition)
  end.

(** [TomlCheck::to_rule_config]; the random part of the id is an argument. *)
Definition to_rule_config (uuid : str) (c : TomlCheck) (enricher : str) : option RuleConfig :=
  match check_condition c with
  | None => None
  | Some condition => Some (mkRule (lit "check_" ++ uuid) enricher condition 0 true [])
  end.
End Shim.

(** ** Texts that do not parse *)

Section Rejects.
Context `{UnicodeTables} `{RegexEngine}.

(** [p] fails on the tokens [ks], with an error that satisfies [P]. *)
Definition rejects {A} (P : ParseError -> Prop) (p : PM A) (ks : list TokenKind) : Prop :=
  forall st, sees st ks -> exists e, p st = Some (Err e) /\ P e.

Lemma rejects_bind {A B} P (p : PM A) (f : A -> PM B) ks :
  rejects P p ks -> rejects P (p ≫= f) ks.
Proof.
  intros Hp st Hs. destruct (Hp st Hs) as (e & E & He). exists e.
  unfold mbind, PM_bind. by rewrite E.
Qed.

Lemma rejects_after {A B} P (p : PM A) (f : A -> PM B) ks a ks1 :
  reads p ks a ks1 -> rejects P (f a) ks1 -> rejects P (p ≫= f) ks.
Proof.
  intros Hp Hf st Hs. destruct (Hp st Hs) as (st1 & E & Hs1).
  unfold mbind, PM_bind. rewrite E. by apply Hf.
Qed.

Lemma rejects_current {A} P (f : Token -> PM A) ks :
  (forall t, kind t = head ks -> rejects P (f t) ks) -> rejects P (p_current ≫= f) ks.
Proof. intros Hf st Hs. apply (Hf (current st)); [by apply sees_head|done]. Qed.

Lemma rejects_consume {A} P k ks (f : unit -> PM A) :
  rejects P (f tt) ks -> rejects P (p_advance ≫= f) (k :: ks).
Proof. intros. eapply rejects_after; [apply reads_advance|done]. Qed.

Lemma rejects_expression P f ks :
  head ks ≠ TNot -> rejects P (parse_comparison (parse_expression f) (S f)) ks ->
  rejects P (parse_expression (S f)) ks.
Proof.
  intros Hh Hp. cbn [parse_expression]. unfold parse_or, parse_and.
  do 2 apply rejects_bind. cbn [parse_not]. apply rejects_current. intros t Ht.
  by rewrite bool_decide_false by congruence.
Qed.

Lemma parse_rejects P s ks :
  (forall p, lexes (mkLexer s p) ks) ->
  rejects P (parse_expression (S (S (length s)))) ks -> exists e, parse s = Some (Err e) /\ P e.
Proof.
  intros Hlex Hr. unfold parse, parse_fuel. set (st0 := mkParser _ _).
  unfold mbind at 1, PM_bind at 1, p_advance at 1.
  destruct (next_token (lexer st0)) as [t lx] eqn:E.
  destruct (Hr (mkParser lx t)) as (e & He & HP); [eapply sees_first; [by apply Hlex|exact E]|].
  exists e. unfold mbind at 1, PM_bind at 1. by rewrite He.
Qed.

(** Where an operand is expected, a token the lexer made nothing of. *)
Definition illegal (e : ParseError) : Prop :=
  exists pos, e = UnexpectedToken pos (lit "expression") TIllegal.

Lemma rejects_illegal rec n ks : rejects illegal (parse_primary rec n) (TIllegal :: ks).
Proof.
  intros st Hs. pose proof (sees_head _ _ Hs) as Hk. unfold parse_primary, mbind, PM_bind, p_current.
  rewrite Hk. cbn [head lookup list_lookup default]. unfold unexpected, mbind, PM_bind, p_current, p_fail.
  eexists. split; [done|]. rewrite Hk. by eexists.
Qed.
End Rejects.

(** ** The conditions a check is printed as *)

Definition quoted (s : str) : str := chr "'" :: s ++ [chr "'"].

Lemma quoted_call s : lit "('" ++ s ++ lit "')" = chr "(" :: quoted s ++ lit ")".
Proof. unfold quoted. cbn [app]. by rewrite <- app_assoc. Qed.

Lemma escape_raw s : raw_literal false (escape_cel_string s) = true.
Proof.
  unfold escape_cel_string. induction s as [|c s IH]; [done|]. cbn [flat_map].
  destruct (c =? chr "\")%N eqn:Eb; [exact IH|]. cbn [app flat_map].
  destruct (c =? chr "'")%N eqn:Eq; [exact IH|]. cbn [app raw_literal]. by rewrite Eb, Eq.
Qed.

(** A text without quotes and backslashes is printed as it is. *)
Definition plain (s : str) : bool := forallb (fun c => negb (c =? chr "'")%N && negb (c =? chr "\")%N) s.

Lemma escape_plain s : plain s = true -> escape_cel_string s = s.
Proof.
  unfold plain, escape_cel_string. induction s as [|c s IH]; [done|]. simpl. intros [[Hq Hb]%andb_true_iff Hs]%andb_true_iff.
  apply negb_true_iff in Hq, Hb. rewrite Hb. simpl. rewrite Hq. simpl. by rewrite IH.
Qed.

Lemma show_Z_inj a b : show_Z a = show_Z b -> a = b.
Proof.
  intros E. assert (Some a = Some b) as [=]; [|done].
  rewrite <- (parse_show_Z (Z.min a b) (Z.max a b) a), E by lia. apply parse_show_Z. lia.
Qed.

Lemma show_Z_eqb a b : str_eqb (show_Z a) (show_Z b) = (a =? b)%Z.
Proof.
  apply eq_true_iff_eq. rewrite str_eqb_eq, Z.eqb_eq. split; [apply show_Z_inj|by intros ->].
Qed.

Section Conditions.
Context `{UnicodeTables} `{RegexEngine}.

Lemma ident_ok s : Forall (fun c => is_ascii_alphabetic c || (c =? chr "_")%N = true) (lit s) ->
  lit s ≠ [] -> keyword (lit s) = TIdent (lit s) -> tok_ok (TIdent (lit s)).
Proof.
  intros Hs Hne Hk. split; [|done].
  split; [eapply Forall_impl; [exact Hs|apply ident_start_char]|].
  destruct (lit s); [done|]. by apply Forall_cons in Hs as [? _].
Qed.

(** [f('s')] and [f(n)]. *)
Lemma spells_call f k args s :
  tok_ok (TIdent (lit f)) -> tok_ok k -> args = [k] -> s = print_tok k ++ lit ")" ->
  spells (call (TIdent (lit f)) args) (lit f ++ chr "(" :: s).
Proof.
  intros Hf Hk -> ->. unfold call.
  change (lit f ++ chr "(" :: print_tok k ++ lit ")")
    with ([] ++ print_tok (TIdent (lit f)) ++ [] ++ print_tok TLParen ++
          [] ++ print_tok k ++ [] ++ print_tok TRParen ++ []).
  constructor; [done|exact Hf|reflexivity|]. constructor; [done|done|by unfold delimits; case_match|].
  constructor; [done|exact Hk|by destruct k|]. constructor; [done|done|done|]. by constructor.
Qed.

Lemma parse_text_call f mk s :
  tok_ok (TIdent (lit f)) -> printable (mk s) = true -> raw_literal false s = true ->
  (forall l, show l (mk s) = call (TIdent (lit f)) [TStr s]) ->
  parse (lit f ++ lit "('" ++ s ++ lit "')") = Some (Ok (mk s)).
Proof.
  intros Hf Hp Hs Hshow. apply parse_spelled; [done|]. rewrite Hshow, quoted_call. by apply (spells_call f (TStr s)).
Qed.

Lemma parse_exit_code e :
  int_literal e = true ->
  parse (lit "exit_code == " ++ show_Z e) = Some (Ok (EEq (EField (lit "exit_code")) (EInt e))).
Proof.
  intros He. apply parse_spelled; [exact (andb_true_intro (conj eq_refl He))|].
  cbn [show paren Nat.ltb Nat.leb app]. rewrite <- (app_nil_r (show_Z e)).
  change (spells [TIdent (lit "exit_code"); TEq; TInt e]
    ([] ++ print_tok (TIdent (lit "exit_code")) ++ lit " " ++ print_tok TEq ++ lit " " ++
     print_tok (TInt e) ++ [])).
  constructor; [done|apply ident_ok; [repeat constructor|done|reflexivity]|reflexivity|].
  constructor; [by repeat constructor|done|done|]. constructor; [by repeat constructor|exact He|done|].
  by constructor.
Qed.
Lemma parse_duration_lt m :
  int_literal m = true ->
  parse (lit "duration_lt(" ++ show_Z m ++ lit ")") = Some (Ok (EDurationLt m)).
Proof.
  intros Hm. apply parse_spelled; [exact Hm|].
  apply (spells_call "duration_lt" (TInt m)); [|exact Hm|done|done].
  apply ident_ok; [repeat constructor|done|reflexivity].
Qed.

(** A fact compared with a text: the condition of a doctor. *)
Lemma parse_fact_eq key v :
  raw_literal false key = true -> raw_literal false v = true ->
  parse (lit "fact(" ++ quoted key ++ lit ") == " ++ quoted v) = Some (Ok (EEq (EFact key) (EStr v))).
Proof.
  intros Hk Hv. apply parse_spelled; [exact (andb_true_intro (conj Hk Hv))|].
  cbn [show paren Nat.ltb Nat.leb app]. unfold call. rewrite <- (app_nil_r (quoted v)).
  change (spells [TIdent (lit "fact"); TLParen; TStr key; TRParen; TEq; TStr v]
    ([] ++ print_tok (TIdent (lit "fact")) ++ [] ++ print_tok TLParen ++ [] ++ print_tok (TStr key) ++
     [] ++ print_tok TRParen ++ lit " " ++ print_tok TEq ++ lit " " ++ print_tok (TStr v) ++ [])).
  constructor; [done|apply ident_ok; [repeat constructor|done|reflexivity]|reflexivity|].
  constructor; [done|done|done|]. constructor; [done|exact Hk|done|].
  constructor; [done|done|done|]. constructor; [by repeat constructor|done|done|].
  constructor; [by repeat constructor|exact Hv|done|]. by constructor.
Qed.

(** The condition of an experience pattern. *)
Lemma parse_count_ge key n :
  raw_literal false key = true -> int_literal n = true ->
  parse (lit "count_fact(" ++ quoted key ++ lit ", '>=', " ++ show_Z n ++ lit ")") =
    Some (Ok (ECountFact key OpGe n)).
Proof.
  intros Hk Hn. apply parse_spelled; [exact (andb_true_intro (conj Hk Hn))|].
  change (spells [TCountFact; TLParen; TStr key; TComma; TStr (lit ">="); TComma; TInt n; TRParen]
    ([] ++ print_tok TCountFact ++ [] ++ print_tok TLParen ++ [] ++ print_tok (TStr key) ++
     [] ++ print_tok TComma ++ lit " " ++ print_tok (TStr (lit ">=")) ++ [] ++ print_tok TComma ++
     lit " " ++ print_tok (TInt n) ++ [] ++ print_tok TRParen ++ [])).
  constructor; [done|done|reflexivity|]. constructor; [done|done|done|].
  constructor; [done|exact Hk|done|]. constructor; [done|done|done|].
  constructor; [by repeat constructor|reflexivity|done|]. constructor; [done|done|done|].
  constructor; [by repeat constructor|exact Hn|reflexivity|]. constructor; [done|done|done|].
  by constructor.
Qed.

(** *** Conditions that do not parse *)

(** Numbers the lexer makes nothing of, in front of a delimiter. *)
Lemma lexes_digits n r ks p :
  ends_word r -> (forall q, lexes (mkLexer r q) ks) ->
  exists k, lexes (mkLexer (show_N n ++ r) p) (k :: ks) /\
    k = match parse_i32 (show_N n) with Some m => TInt m | None => TIllegal end.
Proof.
  intros Hr Hks. eexists. split; [|done]. pose proof (show_N_digits n) as Hd.
  destruct (show_N_cons n) as (c & s & E & Hc). rewrite E in *.
  assert (En : exists a b, next_token (mkLexer ((c :: s) ++ r) p) =
    (mkToken (match parse_i32 (c :: s) with Some m => TInt m | None => TIllegal end) a b,
     mkLexer r (p + str_len (c :: s)))).
  { unfold next_token, skip_whitespace, skip_while. simpl rest. cbn [app span].
    assert (is_whitespace c = false) as -> by
      (apply not_symbol; unfold is_ascii_alphanumeric; by rewrite Hc, orb_true_r).
    cbn [rest]. change (c :: s ++ r) with ((c :: s) ++ r).
    change (str_len []) with 0%N. rewrite N.add_0_r, scan_digits by done. by eexists _, _. }
  destruct En as (a & b & En). constructor; rewrite ?En; [|done|apply Hks].
  by destruct (parse_i32 (c :: s)).
Qed.
End Conditions.

(** ** What the shim answers *)

Section Outcome.
Context `{UnicodeTables} `{RegexEngine} `{DebugTables} `{JsonValue}.

(** The types of the numbers: an [i32] and a [u64]. *)
Definition fits (c : TomlCheck) : Prop :=
  match c with
  | TExitCode e => (i32_min <= e <= i32_max)%Z
  | TCommandDuration m => (0 <= m <= u64_max)%Z
  | _ => True
  end.

(** What the condition of a check says of a record, when it is a condition. *)
Definition cel_answer (c : TomlCheck) (r : ExperienceRecord) : option bool :=
  match c with
  | TExitCode e => if (e <? 0)%Z then None else Some (default 0 (ex_exit_code r) =? e)%Z
  | TStdoutContains s => Some (str_contains (ex_stdout_summary r) (escape_cel_string s))
  | TStderrContains s => Some (str_contains (ex_stderr_summary r) (escape_cel_string s))
  | TCommandDuration m =>
      if (i32_max <? m)%Z then None
      else Some (match ex_duration_ms r with Some d => as_i32 d <? m | None => false end)%Z
  | TStdoutMatches _ | TSandboxAlive => None
  end.

Definition shim_refusal (c : TomlCheck) (e : ShimError) : Prop :=
  match c with
  | TSandboxAlive => e = NoCelCondition
  | TStdoutMatches _ => e = CelParse (Invalid (lit "Unknown function: stdout_matches"))
  | _ => exists pos, e = CelParse (UnexpectedToken pos (lit "expression") TIllegal)
  end.

Lemma as_i32_u64 z : as_i32 (as_u64 z) = as_i32 z.
Proof.
  unfold as_i32, as_u64. f_equal. rewrite (Z.add_mod (z mod _)), (Z.add_mod z) by lia.
  f_equal. f_equal. rewrite Z.mod_mod_divide; [done|]. by exists 4294967296%Z.
Qed.

Lemma eval_ok c r condition expr :
  check_condition c = Some condition -> parse condition = Some (Ok expr) ->
  evaluate_toml_check c r = Some (Ok (compare (evaluate_check (into_assertion_check c) r)
    (evaluate (EvalContext_new (result_of_record r) []) expr))).
Proof.
  intros Hc Hp. unfold evaluate_toml_check, eval_cel_on_record, eval_cel_sync. by rewrite Hc, Hp.
Qed.

Lemma eval_err c r condition e :
  check_condition c = Some condition -> parse condition = Some (Err e) ->
  evaluate_toml_check c r = Some (Err (CelParse e)).
Proof.
  intros Hc Hp. unfold evaluate_toml_check, eval_cel_on_record, eval_cel_sync. by rewrite Hc, Hp.
Qed.

Lemma parse_negative e :
  (e < 0)%Z -> exists err, parse (lit "exit_code == " ++ show_Z e) = Some (Err err) /\ illegal err.
Proof.
  intros He. destruct e as [|p|p]; [lia|lia|].
  eapply (parse_rejects illegal _ [TIdent (lit "exit_code"); TEq; TIllegal; _]).
  - intros q.
    change (lit "exit_code == " ++ show_Z (Zneg p))
      with ([] ++ print_tok (TIdent (lit "exit_code")) ++ lit " " ++ print_tok TEq ++
            lit " -" ++ show_N (Npos p)).
    apply lexes_token; [done|apply ident_ok; [repeat constructor|done|reflexivity]|reflexivity|].
    intros q1. apply lexes_token; [by repeat constructor|done|done|]. intros q2.
    rewrite <- (app_nil_r (show_N (Npos p))).
    destruct (lexes_digits (Npos p) [] [] (q2 + 1 + 1)) as (k' & Hk & ->); [done|by constructor|].
    constructor; [done|reflexivity|]. exact Hk.
  - apply rejects_expression; [done|].
    eapply rejects_after; [apply (at4_field (lit "exit_code")); [by left|simpl; lia|simpl; lia|done]|].
    apply rejects_current. intros t ->. apply rejects_consume, rejects_bind, rejects_illegal.
Qed.
Lemma parse_long_duration m :
  (i32_max < m)%Z ->
  exists err, parse (lit "duration_lt(" ++ show_Z m ++ lit ")") = Some (Err err) /\ illegal err.
Proof.
  intros Hm. eapply (parse_rejects illegal _ [TIdent (lit "duration_lt"); TLParen; TIllegal; TRParen]).
  - intros q. assert (show_Z m = show_N (Z.to_N m)) as -> by (unfold i32_max in *; by destruct m).
    change (lit "duration_lt(" ++ show_N (Z.to_N m) ++ lit ")")
      with ([] ++ print_tok (TIdent (lit "duration_lt")) ++ [] ++ print_tok TLParen ++
            show_N (Z.to_N m) ++ lit ")").
    apply lexes_token; [done|apply ident_ok; [repeat constructor|done|reflexivity]|reflexivity|].
    intros q1. apply lexes_token; [done|done|by unfold delimits; case_match|]. intros q2.
    destruct (lexes_digits (Z.to_N m) (lit ")") [TRParen] q2) as (k & Hk & ->); [done| |].
    + intros q3. apply (lexes_token TRParen [] [] []); [done|done|done|]. by constructor.
    + replace (parse_i32 (show_N (Z.to_N m))) with (@None Z) in Hk; [done|].
      unfold parse_i32. rewrite parse_int_show, (proj2 (Z.leb_gt (Z.of_N _) i32_max)) by lia.
      by rewrite andb_false_r.
  - apply rejects_expression; [done|].
    apply rejects_bind, rejects_current. intros t ->. cbn [head lookup list_lookup default].
    apply rejects_consume, rejects_current. intros u Hu. rewrite bool_decide_true by done.
    apply rejects_consume, rejects_bind, rejects_current. intros v Hv.
    rewrite bool_decide_false by (by rewrite Hv). apply rejects_bind, rejects_expression; [done|].
    apply rejects_bind, rejects_illegal.
Qed.
Lemma parse_stdout_matches s :
  raw_literal false s = true ->
  parse (lit "stdout_matches" ++ lit "('" ++ s ++ lit "')") =
    Some (Err (Invalid (lit "Unknown function: stdout_matches"))).
Proof.
  intros Hs. rewrite quoted_call.
  destruct (parse_rejects (fun e => e = Invalid (lit "Unknown function: stdout_matches"))
    (lit "stdout_matches" ++ chr "(" :: quoted s ++ lit ")")
    (call (TIdent (lit "stdout_matches")) [TStr s])) as (e & He & ->); [| |exact He].
  - intros q. apply lexes_spelled. apply (spells_call "stdout_matches" (TStr s)); [|exact Hs|done|done].
    apply ident_ok; [repeat constructor|done|reflexivity].
  - apply rejects_expression; [done|].
    apply rejects_bind, rejects_current. intros t ->. cbn [head call lookup list_lookup default].
    apply rejects_consume, rejects_current. intros u Hu. rewrite bool_decide_true by done.
    apply rejects_consume. unfold call. simpl app.
    eapply rejects_after; [|eapply rejects_after; [apply reads_expect_rparen|by eexists]].
    apply reads_current. intros v Hv. rewrite bool_decide_false by (by rewrite Hv).
    eapply reads_bind; [apply (spine0_expression (EStr s)); [apply spine0_str|simpl; lia|done]|].
    apply (reads_args_loop _ _ [] [EStr s]); [done|done|simpl; lia].
Qed.

(** When the two readings of a check are the same. *)
Definition same_reading (c : TomlCheck) (r : ExperienceRecord) : Prop :=
  match c with
  | TExitCode e => ex_exit_code r = None -> e ≠ 0%Z
  | TStdoutContains s => str_contains (ex_stdout_summary r) s =
                         str_contains (ex_stdout_summary r) (escape_cel_string s)
  | TStderrContains s => str_contains (ex_stderr_summary r) s =
                         str_contains (ex_stderr_summary r) (escape_cel_string s)
  | TCommandDuration m =>
      match ex_duration_ms r with
      | Some d => (d < m \/ (m < d /\ m <= as_i32 d))%Z
      | None => True
      end
  | _ => True
  end.
Lemma same_reading_spec c r b :
  fits c -> cel_answer c r = Some b ->
  ((evaluate_check (into_assertion_check c) r).1 = b <-> same_reading c r).
Proof.
  intros Hc. destruct c as [e|s|s|s| |m]; cbn [cel_answer same_reading fits into_assertion_check evaluate_check] in *;
    try done.
  - destruct (e <? 0)%Z; [done|]. intros [= <-]. destruct (ex_exit_code r) as [x|].
    + change (default 0%Z (Some x)) with x. destruct (x =? e)%Z; (split; [by intros _ ?|done]).
    + change (default 0%Z None) with 0%Z. cbn [fst]. destruct (0 =? e)%Z eqn:E; bools.
      * split; [done|]. intros Hs. by destruct (Hs eq_refl).
      * split; [|done]. intros _ _ ->. done.
  - intros [= <-]. by destruct (str_contains _ s).
  - intros [= <-]. by destruct (str_contains _ s).
  - destruct (i32_max <? m)%Z eqn:E; [done|]. intros [= <-]. bools.
    destruct (ex_duration_ms r) as [d|] eqn:Ed; [|done].
    assert (0 <= d)%Z as Hd.
    { unfold ex_duration_ms in Ed. destruct (ex_finished_at r); [|done]. injection Ed as <-.
      unfold as_u64. by apply Z.mod_pos_bound. }
    assert (d <= m -> as_i32 d = d)%Z as Hid.
    { intros. apply as_i32_id. unfold i32_min, i32_max in *. lia. }
    destruct (d <=? m)%Z eqn:E1, (as_i32 d <? m)%Z eqn:E2; bools; cbn [fst];
      (split; intros; try done; lia).
Qed.

Lemma shim_answers (c : TomlCheck) (r : ExperienceRecord) :
  fits c ->
  match cel_answer c r with
  | Some b => evaluate_toml_check c r =
      Some (Ok (compare (evaluate_check (into_assertion_check c) r) b))
  | None => exists e, evaluate_toml_check c r = Some (Err e) /\ shim_refusal c e
  end.
Proof.
  intros Hc. destruct c as [e|s|s|s| |m]; cbn [cel_answer shim_refusal].
  - destruct (e <? 0)%Z eqn:E; bools.
    + destruct (parse_negative e E) as (err & Hp & pos & ->).
      eexists. split; [by eapply eval_err|by eexists].
    + erewrite eval_ok; [|done|apply parse_exit_code]; [|by unfold int_literal; apply andb_true_iff;
        rewrite !Z.leb_le; simpl in Hc; lia].
      do 2 f_equal. simpl. by rewrite show_Z_eqb.
  - rewrite (eval_ok (TStdoutContains s) r _ (EStdoutContains (escape_cel_string s)) eq_refl); [done|].
    change (lit "stdout_contains('" ++ ?x) with (lit "stdout_contains" ++ lit "('" ++ x).
    apply (parse_text_call "stdout_contains" EStdoutContains (escape_cel_string s));
      [apply ident_ok; [repeat constructor|done|reflexivity]|apply escape_raw..|done].
  - rewrite (eval_ok (TStderrContains s) r _ (EStderrContains (escape_cel_string s)) eq_refl); [done|].
    change (lit "stderr_contains('" ++ ?x) with (lit "stderr_contains" ++ lit "('" ++ x).
    apply (parse_text_call "stderr_contains" EStderrContains (escape_cel_string s));
      [apply ident_ok; [repeat constructor|done|reflexivity]|apply escape_raw..|done].
  - eexists. split; [|done]. eapply eval_err; [done|].
    change (lit "stdout_matches('" ++ ?x) with (lit "stdout_matches" ++ lit "('" ++ x).
    apply (parse_stdout_matches (escape_cel_string s)), escape_raw.
  - eexists. split; done.
  - destruct (i32_max <? m)%Z eqn:E; bools.
    + destruct (parse_long_duration m E) as (err & Hp & pos & ->).
      eexists. split; [by eapply eval_err|by eexists].
    + erewrite eval_ok; [|done|apply parse_duration_lt]; [|by unfold int_literal; apply andb_true_iff;
        rewrite !Z.leb_le; simpl in Hc; lia].
      do 2 f_equal. simpl. rewrite as_i32_u64. destruct (ex_duration_ms r) as [d|]; simpl.
      * by rewrite (as_i32_id (as_i32 d)) by apply as_i32_range.
      * rewrite as_i32_id by (by unfold i32_min, i32_max). by rewrite (proj2 (Z.ltb_ge _ _) E).
Qed.

(** Every check, both ways: the shim reports the catalog's verdict beside
    what the condition says of the record, and refuses the checks whose condition
    is no condition - a negative exit code, a duration above 32 bits, a regular
    expression (no such function) and liveness (no condition).  The two agree
    except on an absent exit code read as 0, on texts whose quotes or backslashes
    were escaped, on a duration equal to the bound and on one that does not fit
    32 bits. *)
Theorem shim_outcome (c : TomlCheck) (r : ExperienceRecord) :
  fits c ->
  match cel_answer c r with
  | Some b =>
      exists res, evaluate_toml_check c r = Some (Ok res) /\
        res = compare (evaluate_check (into_assertion_check c) r) b /\
        (matches res = true <-> same_reading c r)
  | None => exists e, evaluate_toml_check c r = Some (Err e) /\ shim_refusal c e
  end.
Proof.
  intros Hc. pose proof (shim_answers c r Hc) as Ha. destruct (cel_answer c r) as [b|] eqn:E; [|done].
  eexists. split; [exact Ha|]. split; [done|].
  rewrite <- (same_reading_spec c r b Hc E). apply eqb_true_iff.
Qed.
End Outcome.

(** A record of a command that took exactly 100 milliseconds. *)
Definition sample_record : @ExperienceRecord unit_json :=
  @mkExperience unit_json (lit "e") None (lit "t") None 0 (Some 100000000%Z) None (lit "it's") []
    ESuccess tt.

(** At the bound the catalog passes the check and the condition does not. *)
Lemma shim_outcome_witness :
  fits (TCommandDuration 100) /\
  exists res, @evaluate_toml_check ascii_tables substring_engine no_printable unit_json
      (TCommandDuration 100) sample_record = Some (Ok res) /\
    res = mkComparison true false None false.
Proof.
  assert (Hf : fits (TCommandDuration 100)) by (vm_compute; split; discriminate).
  split; [exact Hf|].
  destruct (@shim_outcome ascii_tables substring_engine no_printable unit_json
    (TCommandDuration 100) sample_record Hf) as (res & E & -> & _).
  eexists. split; [exact E|reflexivity].
Defined.

Example quote_mismatch :
  @evaluate_toml_check ascii_tables substring_engine no_printable unit_json
    (TStdoutContains (lit "it's")) sample_record = Some (Ok (mkComparison true false None false)).
Proof. vm_compute. reflexivity. Qed.

(** ** Doctors and triggers *)

Section Facts.
Context `{UnicodeTables} `{RegexEngine} `{DebugTables} `{JsonValue}.

Lemma descriptor_loop r checks all reasons :
  let step := fun '(all, reasons) c =>
      let '(passed, reason) := evaluate_check c r in
      if passed then (all, reasons)
      else (false, match reason with Some x => reasons ++ [x] | None => reasons end) in
  fold_left step checks (all, reasons) =
    (all && forallb (fun c => (evaluate_check c r).1) checks,
     reasons ++ omap (fun c => if (evaluate_check c r).1 then None else (evaluate_check c r).2) checks).
Proof.
  cbv zeta. revert all reasons. induction checks as [|c cs IH]; intros all reasons; cbn [fold_left].
  - by rewrite andb_true_r, app_nil_r.
  - cbn [forallb omap list_omap]. destruct (evaluate_check c r) as [[] [x|]]; rewrite IH; simpl;
      by rewrite ?andb_false_r, <- ?app_assoc.
Qed.

(** The use case and the shim have the same verdict on an assertion. *)
Lemma descriptor_passed d r :
  (evaluate_assertion_descriptor (as_checks d) r).1 = ar_passed (evaluate_against d r).
Proof.
  unfold evaluate_assertion_descriptor. rewrite descriptor_loop. cbn [andb app].
  assert (E : forall cs, ar_passed (evaluate_against (mkAssertion [] [] [] [] cs) r) =
    forallb (fun c => (evaluate_check c r).1) cs).
  { intros cs. simpl. induction cs as [|c cs IH]; [done|]. simpl in *. rewrite IH.
    unfold check_result at 1. by destruct (evaluate_check c r). }
  specialize (E (as_checks d)). unfold evaluate_against in *. simpl in *. rewrite E.
  destruct (omap _ _) as [|s l] eqn:Eo; [done|]. cbn [fst]. symmetry. apply not_true_iff_false.
  rewrite forallb_forall. intros Hall.
  assert (s ∈ omap (fun c => if (evaluate_check c r).1 then None else (evaluate_check c r).2)
    (as_checks d)) as (c & Hc & Hs)%list_elem_of_omap by (rewrite Eo; by left).
  by rewrite (Hall c) in Hs by (by apply list_elem_of_In).
Qed.

Definition id_literal (id : str) : Prop := raw_literal false id = true.

Lemma literal_app a b : raw_literal false a = true -> id_literal b -> raw_literal false (a ++ b) = true.
Proof.
  unfold id_literal. intros Ha Hb. enough (forall esc, raw_literal esc a = true ->
    raw_literal esc (a ++ b) = true) by eauto. clear Ha.
  induction a as [|c a IH]; intros esc Ha; [by destruct esc|]. simpl in *.
  destruct esc; [by apply IH|]. destruct (c =? chr "\")%N; [by apply IH|].
  apply andb_true_iff in Ha as [-> Ha]. by rewrite IH.
Qed.

Lemma quoted_fact (key v : str) :
  lit "fact('" ++ key ++ lit "') == '" ++ v ++ lit "'" =
    lit "fact(" ++ quoted key ++ lit ") == " ++ quoted v.
Proof. unfold quoted. cbn [app]. by rewrite <- !app_assoc. Qed.

Lemma eval_fact r facts key v :
  evaluate (EvalContext_new r facts) (EEq (EFact key) (EStr v)) =
    match first_with_key key facts with Some f => str_eqb (f_value f) v | None => false end.
Proof.
  simpl. unfold compare_fact_eq, get_fact, EvalContext_new, fact_map, build_fact_map.
  rewrite build_fact_map_from, lookup_empty. by destruct (first_with_key key facts).
Qed.

Lemma fact_condition r facts prefix id v :
  raw_literal false (lit prefix) = true -> raw_literal false (lit v) = true -> id_literal id ->
  eval_cel_sync (EvalContext_new r facts)
    (lit "fact('" ++ (lit prefix ++ id) ++ lit "') == '" ++ lit v ++ lit "'") =
  Some (Ok (match first_with_key (lit prefix ++ id) facts with
            | Some f => str_eqb (f_value f) (lit v)
            | None => false
            end)).
Proof.
  intros Hp Hv Hid. rewrite quoted_fact. unfold eval_cel_sync.
  rewrite parse_fact_eq by (try done; by apply literal_app). by rewrite eval_fact.
Qed.

(** For an assertion-driven check of an assertion whose id is a literal, the
    condition over the synthesized fact says what the assertion says of the
    record, so the shim always reports a match. *)
Theorem doctor_shim (id : str) (d : AssertionDescriptor) (r : ExperienceRecord)
    (registry : AssertionRegistry) :
  raw_literal false id = true -> registry !! id = Some d ->
  exists res, evaluate_doctor_check (TAssertionDriven id) r registry = Some (Ok res) /\
    matches res = true /\
    legacy_passed res = ar_passed (evaluate_against d r) /\
    cel_passed res = ar_passed (evaluate_against d r).
Proof.
  intros Hid Hd. cbn [evaluate_doctor_check doctor_condition]. rewrite Hd.
  unfold eval_cel_on_record_with_facts. rewrite <- descriptor_passed.
  set (legacy := evaluate_assertion_descriptor (as_checks d) r).
  replace (lit "fact('assertion:" ++ id ++ lit "') == 'passed'")
    with (lit "fact('" ++ (lit "assertion:" ++ id) ++ lit "') == '" ++ lit "passed" ++ lit "'")
    by (by rewrite <- app_assoc).
  rewrite fact_condition by done. eexists. split; [reflexivity|].
  unfold first_with_key. cbn [List.find assertion_fact f_key]. rewrite str_eqb_refl. cbn [f_value].
  by destruct legacy as [[] ?].
Qed.


(** What a trigger says of the facts: the first fact of the assertion or the
    doctor says "failed", or there are enough facts of the pattern. *)
Definition triggered (t : TomlTrigger) (facts : list Fact) : bool :=
  let failed key :=
    match first_with_key key facts with Some f => str_eqb (f_value f) (lit "failed") | None => false end in
  match t with
  | TAssertionFailed id => failed (lit "assertion:" ++ id)
  | TDoctorFailed id => failed (lit "doctor:" ++ id)
  | TExperiencePattern tool status n =>
      (n <=? as_i32 (Z.of_nat (length (List.filter
        (fun f => str_eqb (f_key f) (lit "experience:" ++ tool ++ lit ":" ++ status)) facts))))%Z
  end.

Definition literal_trigger (t : TomlTrigger) : Prop :=
  match t with
  | TAssertionFailed id | TDoctorFailed id => id_literal id
  | TExperiencePattern tool status n => id_literal tool /\ id_literal status /\ int_literal n = true
  end.

(** The condition of a trigger whose names are literals fires exactly when
    the facts say so; the shim has no second reading to compare it with and
    reports a match whatever the facts are. *)
Theorem trigger_shim (t : TomlTrigger) (facts : list Fact) :
  literal_trigger t ->
  evaluate_advice_trigger t facts =
    Some (Ok (mkComparison (triggered t facts) (triggered t facts) None true)).
Proof.
  intros Ht. unfold evaluate_advice_trigger. destruct t as [id|id|tool status n];
    cbn [trigger_condition literal_trigger triggered] in *.
  - replace (lit "fact('assertion:" ++ id ++ lit "') == 'failed'")
      with (lit "fact('" ++ (lit "assertion:" ++ id) ++ lit "') == '" ++ lit "failed" ++ lit "'")
      by (by rewrite <- app_assoc).
    by rewrite fact_condition.
  - replace (lit "fact('doctor:" ++ id ++ lit "') == 'failed'")
      with (lit "fact('" ++ (lit "doctor:" ++ id) ++ lit "') == '" ++ lit "failed" ++ lit "'")
      by (by rewrite <- app_assoc).
    by rewrite fact_condition.
  - destruct Ht as (Htool & Hstatus & Hn). set (key := lit "experience:" ++ tool ++ lit ":" ++ status).
    replace (lit "count_fact('experience:" ++ tool ++ lit ":" ++ status ++ lit "', '>=', " ++
             show_Z n ++ lit ")")
      with (lit "count_fact(" ++ quoted key ++ lit ", '>=', " ++ show_Z n ++ lit ")")
      by (unfold key, quoted; cbn [app]; rewrite <- ?app_assoc; cbn [app]; by rewrite <- ?app_assoc).
    unfold eval_cel_sync. rewrite parse_count_ge; [|by repeat apply literal_app|done].
    cbn [evaluate]. unfold eval_count_fact, matching. cbn [compare_count ec_facts EvalContext_new].
    by rewrite Z.geb_leb.
Qed.
End Facts.

Definition exit_zero : AssertionDescriptor := mkAssertion (lit "a") [] [] [] [ExitCode 0].

Lemma doctor_shim_witness :
  exists res, @evaluate_doctor_check ascii_tables substring_engine no_printable unit_json
      (TAssertionDriven (lit "a")) sample_record {[lit "a" := exit_zero]} = Some (Ok res) /\
    matches res = true /\ cel_passed res = false.
Proof.
  destruct (@doctor_shim ascii_tables substring_engine no_printable unit_json (lit "a") exit_zero
    sample_record {[lit "a" := exit_zero]} eq_refl (lookup_singleton_eq _ _)) as (res & E & Hm & _ & Hc).
  exists res. split; [exact E|]. split; [exact Hm|]. rewrite Hc. reflexivity.
Defined.

Lemma trigger_shim_witness :
  @evaluate_advice_trigger ascii_tables substring_engine
    (TExperiencePattern (lit "t") (lit "failure") 2)
    [mkFact (lit "experience:t:failure") [] [] [] f32_one;
     mkFact (lit "experience:t:failure") [] [] [] f32_one] =
  Some (Ok (mkComparison true true None true)).
Proof.
  apply (@trigger_shim ascii_tables substring_engine
    (TExperiencePattern (lit "t") (lit "failure") 2)).
  repeat split.
Defined.

(** An id is not escaped, so it can say something else than the id it is. *)
Example trigger_injection :
  @evaluate_advice_trigger ascii_tables substring_engine
    (TAssertionFailed (lit "x') == 'failed' or not fact('x")) [] =
  Some (Ok (mkComparison true true None true)).
Proof. vm_compute. reflexivity. Qed.
