(* ===== verification/Hub.v ===== *)
(** * The metrics hub

    Models [bastion-infrastructure/src/metrics]: the gateway's counters
    ([mod.rs]), the resources that workers report ([heartbeat_bridge.rs]) and the
    hub with its history of configuration changes ([hub.rs]); and the bounded
    history of [bastion-domain/src/orientation/config_history.rs].  Counters are
    atomic 64-bit integers and wrap; instants are whole seconds; the database is
    the list of rows inserted, oldest first, and an insertion may fail. *)

From Stdlib Require Import SpecFloat.
From S2P Require Import Prelude Normalizer.

(** ** Counters *)

Record GatewayMetrics := mkGatewayMetrics {
  gm_created : Z; gm_terminated : Z; gm_commands : Z; gm_command_time_us : Z; gm_errors : Z;
  gm_active : Z
}.

Definition GatewayMetrics_default : GatewayMetrics := mkGatewayMetrics 0 0 0 0 0 0.

Definition record_sandbox_created (m : GatewayMetrics) : GatewayMetrics :=
  mkGatewayMetrics (as_u64 (gm_created m + 1)) (gm_terminated m) (gm_commands m)
    (gm_command_time_us m) (gm_errors m) (as_u64 (gm_active m + 1)).
Definition record_sandbox_terminated (m : GatewayMetrics) : GatewayMetrics :=
  mkGatewayMetrics (gm_created m) (as_u64 (gm_terminated m + 1)) (gm_commands m)
    (gm_command_time_us m) (gm_errors m) (as_u64 (gm_active m - 1)).
Definition record_command (duration_us : Z) (m : GatewayMetrics) : GatewayMetrics :=
  mkGatewayMetrics (gm_created m) (gm_terminated m) (as_u64 (gm_commands m + 1))
    (as_u64 (gm_command_time_us m + duration_us)) (gm_errors m) (gm_active m).
Definition record_error (m : GatewayMetrics) : GatewayMetrics :=
  mkGatewayMetrics (gm_created m) (gm_terminated m) (gm_commands m) (gm_command_time_us m)
    (as_u64 (gm_errors m + 1)) (gm_active m).

Definition avg_command_latency_us (m : GatewayMetrics) : Z :=
  if (gm_commands m =? 0)%Z then 0%Z else (gm_command_time_us m / gm_commands m)%Z.

Definition active_sandboxes (m : GatewayMetrics) : Z := gm_active m.

(** The three lines of a metric. *)
Definition metric_lines (name help typ : string) (value : Z) : str :=
  lit "# HELP " ++ lit name ++ lit " " ++ lit help ++ [10%N] ++
  lit "# TYPE " ++ lit name ++ lit " " ++ lit typ ++ [10%N] ++
  lit name ++ lit " " ++ show_Z value ++ [10%N].

Definition prometheus_export (m : GatewayMetrics) : str :=
  metric_lines "bastion_sandboxes_created_total" "Total sandboxes created" "counter" (gm_created m) ++
  metric_lines "bastion_sandboxes_terminated_total" "Total sandboxes terminated" "counter" (gm_terminated m) ++
  metric_lines "bastion_commands_executed_total" "Total commands executed" "counter" (gm_commands m) ++
  metric_lines "bastion_errors_total" "Total errors" "counter" (gm_errors m) ++
  metric_lines "bastion_sandboxes_active" "Current active sandboxes" "gauge" (gm_active m) ++
  metric_lines "bastion_command_latency_us_avg" "Average command latency in microseconds" "gauge"
    (avg_command_latency_us m).

(** ** Heartbeats *)

Record WorkerResources := mkWorkerResources {
  wr_sandbox_id : str; wr_cpu_percent : float; wr_mem_used_mb : float; wr_mem_limit_mb : float;
  wr_disk_used_mb : float; wr_loadavg_1m : float; wr_uptime_seconds : Z; wr_last_heartbeat_epoch : Z
}.

Record SystemResources := mkSystemResources {
  sr_total_cpu_percent : float; sr_total_mem_used_mb : float; sr_total_mem_limit_mb : float;
  sr_total_disk_used_mb : float; sr_active_sandboxes : nat; sr_avg_loadavg_1m : float;
  sr_last_heartbeat_epoch : Z
}.
Definition SystemResources_default : SystemResources :=
  mkSystemResources f_zero f_zero f_zero f_zero 0 f_zero 0.

Abbreviation Resources := (gmap str WorkerResources).

Record HeartbeatBridge := mkBridge { hb_resources : Resources; hb_stale_threshold_secs : Z }.

Definition HeartbeatBridge_new : HeartbeatBridge := mkBridge ∅ 30.
Definition with_stale_threshold (secs : Z) : HeartbeatBridge := mkBridge ∅ secs.

Definition update_resources (w : WorkerResources) (b : HeartbeatBridge) : HeartbeatBridge :=
  mkBridge (<[wr_sandbox_id w := w]> (hb_resources b)) (hb_stale_threshold_secs b).

Definition remove_resources (id : str) (b : HeartbeatBridge) : bool * HeartbeatBridge :=
  (match hb_resources b !! id with Some _ => true | None => false end,
   mkBridge (delete id (hb_resources b)) (hb_stale_threshold_secs b)).

Definition get_resources (b : HeartbeatBridge) (id : str) : option WorkerResources := hb_resources b !! id.

Definition set_stale_threshold (secs : Z) (b : HeartbeatBridge) : HeartbeatBridge :=
  mkBridge (hb_resources b) secs.
Definition stale_threshold (b : HeartbeatBridge) : Z := hb_stale_threshold_secs b.

Definition tracked_count (b : HeartbeatBridge) : nat := size (hb_resources b).

Section Bridge.
Context `{HashOrder}.

Definition entries (b : HeartbeatBridge) : list (str * WorkerResources) := hash_iter _ (hb_resources b).

Definition tracked_sandbox_ids (b : HeartbeatBridge) : list str := map fst (entries b).

Definition sum_of (f : WorkerResources -> float) (ws : list WorkerResources) : float :=
  fold_left f64_add (map f ws) f_zero.

Definition get_system_resources (b : HeartbeatBridge) : SystemResources :=
  match map snd (entries b) with
  | [] => SystemResources_default
  | w :: ws as all =>
      mkSystemResources (sum_of wr_cpu_percent all) (sum_of wr_mem_used_mb all)
        (sum_of wr_mem_limit_mb all) (sum_of wr_disk_used_mb all) (length all)
        (f64_div (sum_of wr_loadavg_1m all) (f64_of_Z (Z.of_nat (length all))))
        (fold_left Z.max (map wr_last_heartbeat_epoch ws) (wr_last_heartbeat_epoch w))
  end.

Definition cutoff_of (b : HeartbeatBridge) (now : Z) : Z :=
  as_i64 (now - as_i64 (hb_stale_threshold_secs b)).

(** [prune_stale]: the ids are collected first and removed one by one. *)
Definition prune_stale (now : Z) (b : HeartbeatBridge) : nat * HeartbeatBridge :=
  let cutoff := cutoff_of b now in
  let stale_ids := map fst (List.filter (fun e => (wr_last_heartbeat_epoch (snd e) <? cutoff)%Z) (entries b)) in
  (length stale_ids,
   fold_left (fun b id => snd (remove_resources id b)) stale_ids b).
End Bridge.

(** The view of the tools; an instant out of range becomes the present. *)
Record SandboxResources := mkSandboxResources {
  xr_sandbox_id : str; xr_cpu_percent : float; xr_mem_used_mb : float; xr_mem_limit_mb : float;
  xr_disk_used_mb : float; xr_loadavg_1m : float; xr_uptime_seconds : Z; xr_last_heartbeat : Z
}.

Definition resources_of_worker (from_timestamp : Z -> option Z) (now : Z) (w : WorkerResources) :
    SandboxResources :=
  mkSandboxResources (wr_sandbox_id w) (wr_cpu_percent w) (wr_mem_used_mb w) (wr_mem_limit_mb w)
    (wr_disk_used_mb w) (wr_loadavg_1m w) (wr_uptime_seconds w)
    (default now (from_timestamp (wr_last_heartbeat_epoch w))).

(** ** Configuration changes *)

Record ConfigChange := mkChange {
  cc_timestamp : Z; cc_key : str; cc_old_value : option str; cc_new_value : str; cc_changed_by : str
}.

(** [ConfigHistory]: a queue with a bound. *)
Record ConfigHistory := mkHistory { ch_changes : list ConfigChange; ch_max_capacity : nat }.

Definition ConfigHistory_new (max_capacity : nat) : ConfigHistory := mkHistory [] max_capacity.
Definition ConfigHistory_default : ConfigHistory := ConfigHistory_new 1000.

Definition history_add (c : ConfigChange) (h : ConfigHistory) : ConfigHistory :=
  mkHistory ((if ch_max_capacity h <=? length (ch_changes h) then tail (ch_changes h)
              else ch_changes h) ++ [c]) (ch_max_capacity h).

Definition history_record (now : Z) (key : str) (old : option str) (new by_ : str) :
    ConfigHistory -> ConfigHistory := history_add (mkChange now key old new by_).

Definition get_all (h : ConfigHistory) : list ConfigChange := ch_changes h.
Definition get_recent (n : nat) (h : ConfigHistory) : list ConfigChange := take n (rev (ch_changes h)).
Definition history_len (h : ConfigHistory) : nat := length (ch_changes h).
Definition history_is_empty (h : ConfigHistory) : bool :=
  match ch_changes h with [] => true | _ => false end.

(** ** The hub *)

Inductive MetricsHubError := HubSqlite (e : str) | HubConfig (e : str).

Record SetConfigResult := mkSetConfig {
  sc_applied : bool; sc_requires_restart : bool; sc_restart_hint : option str
}.

Definition RESTRICTED_CONFIG_KEYS : list str :=
  [lit "auth.hmac_enabled"; lit "auth.jwt_enabled"; lit "auth.pre_shared_key_enabled";
   lit "gateway.port"].

(** The hub: the table and the buffer of configuration changes, and the bridge. *)
Record MetricsHub := mkHub {
  hub_rows : list ConfigChange; hub_history : list ConfigChange; hub_max_history : nat;
  hub_bridge : HeartbeatBridge
}.

Definition MetricsHub_new (rows : list ConfigChange) : MetricsHub :=
  mkHub rows [] 1000 HeartbeatBridge_new.

Definition restart_needed (key : str) : bool :=
  starts_with (lit "auth.") key || starts_with (lit "gateway.port") key ||
  starts_with (lit "gateway.tls") key.

(** [set_config] at [now]; [db] is the error of the insertion, if it fails. *)
Definition set_config (now : Z) (db : option str) (key : str) (old : option str) (new by_ : str)
    (h : MetricsHub) : result MetricsHubError SetConfigResult * MetricsHub :=
  if existsb (str_eqb key) RESTRICTED_CONFIG_KEYS then
    (Ok (mkSetConfig false false
           (Some (lit "Key '" ++ key ++ lit "' cannot be changed at runtime"))), h)
  else
    match db with
    | Some e => (Err (HubSqlite e), h)
    | None =>
        let change := mkChange now key old new by_ in
        let kept := if hub_max_history h <=? length (hub_history h) then tail (hub_history h)
                    else hub_history h in
        (Ok (mkSetConfig true (restart_needed key)
               (if restart_needed key then Some (lit "Gateway restart required for this change")
                else None)),
         mkHub (hub_rows h ++ [change]) (kept ++ [change]) (hub_max_history h) (hub_bridge h))
    end.

Definition get_config_history (h : MetricsHub) : list ConfigChange := hub_history h.

Definition get_sandbox_resources (from_timestamp : Z -> option Z) (now : Z) (h : MetricsHub) (id : str) :
    option SandboxResources :=
  option_map (resources_of_worker from_timestamp now) (get_resources (hub_bridge h) id).

(** ** Counters count *)

Inductive metric_event := Created | Terminated | Ran (duration_us : Z) | Errored.

#[export] Instance metric_event_eq_dec : EqDecision metric_event.
Proof. solve_decision. Defined.

Definition metric_step (m : GatewayMetrics) (e : metric_event) : GatewayMetrics :=
  match e with
  | Created => record_sandbox_created m
  | Terminated => record_sandbox_terminated m
  | Ran d => record_command d m
  | Errored => record_error m
  end.

Definition occurrences (e : metric_event) (es : list metric_event) : Z :=
  Z.of_nat (length (List.filter (fun x => bool_decide (x = e)) es)).

Definition times (es : list metric_event) : list Z :=
  omap (fun e => match e with Ran d => Some d | _ => None end) es.

Lemma as_u64_shift a b c : as_u64 (as_u64 a + b + c) = as_u64 (a + b + c).
Proof. unfold as_u64. by rewrite <- !Z.add_assoc, Zplus_mod_idemp_l. Qed.

Definition counted (es : list metric_event) (m : GatewayMetrics) : Prop :=
  let total := fold_right Z.add 0%Z (times es) in
  gm_created m = as_u64 (occurrences Created es) /\
  gm_terminated m = as_u64 (occurrences Terminated es) /\
  gm_active m = as_u64 (occurrences Created es - occurrences Terminated es) /\
  gm_commands m = as_u64 (Z.of_nat (length (times es))) /\
  gm_command_time_us m = as_u64 total /\
  gm_errors m = as_u64 (occurrences Errored es).

Lemma as_u64_move a b : as_u64 (as_u64 a + b) = as_u64 (a + b).
Proof. unfold as_u64. by rewrite Zplus_mod_idemp_l. Qed.

Lemma counted_step es m e : counted es m -> counted (es ++ [e]) (metric_step m e).
Proof.
  assert (Ho : forall x, occurrences x (es ++ [e]) = (occurrences x es + if decide (e = x) then 1 else 0)%Z).
  { intros x. unfold occurrences. rewrite List.filter_app, length_app. simpl.
    rewrite bool_decide_decide. destruct (decide (e = x)); simpl; lia. }
  assert (Hs : forall l x, fold_right Z.add 0%Z (l ++ [x]) = (fold_right Z.add 0 l + x)%Z).
  { intros l x. rewrite fold_right_app. simpl. induction l as [|y l IH]; simpl in *; lia. }
  unfold counted. intros (H1 & H2 & H3 & H4 & H5 & H6). rewrite !Ho.
  assert (Ht : times (es ++ [e]) = times es ++ match e with Ran d => [d] | _ => [] end).
  { unfold times. rewrite omap_app. by destruct e. }
  rewrite Ht. destruct e; simpl; rewrite ?app_nil_r, ?length_app, ?Hs, ?Z.add_0_r, H1, H2, H3, H4, H5, H6;
    unfold Z.sub; rewrite ?as_u64_move; repeat split; f_equal; simpl; lia.
Qed.

(** The counters hold, modulo 2^64, what has happened; the gauge of active
    sandboxes is the difference of the first two and goes around below zero when
    more terminations than creations are recorded. *)
Theorem counters_count (es : list metric_event) :
  counted es (fold_left metric_step es GatewayMetrics_default).
Proof.
  induction es as [|e es IH] using rev_ind; [by repeat split|].
  rewrite fold_left_app. by apply counted_step.
Qed.

(** ** Pruning *)

Section BridgeFacts.
Context `{HashOrder}.

Lemma remove_all ids b :
  fold_left (fun b id => snd (remove_resources id b)) ids b =
    mkBridge (fold_left (fun m id => delete id m) ids (hb_resources b)) (hb_stale_threshold_secs b).
Proof. revert b. induction ids as [|id ids IH]; intros b; [by destruct b|]. cbn [fold_left]. by rewrite IH. Qed.

Lemma delete_all (ids : list str) (m : Resources) id :
  fold_left (fun m id => delete id m) ids m !! id = if decide (id ∈ ids) then None else m !! id.
Proof.
  revert m. induction ids as [|x ids IH]; intros m; cbn [fold_left].
  - by rewrite decide_False by apply not_elem_of_nil.
  - rewrite IH. destruct (decide (id ∈ ids)) as [Hin|Hin].
    + by rewrite decide_True by (by right).
    + destruct (decide (id = x)) as [->|Hne].
      * by rewrite lookup_delete_eq, decide_True by left.
      * rewrite lookup_delete_ne by done. rewrite decide_False; [done|].
        by intros [?|?]%elem_of_cons.
Qed.

Lemma delete_all_size (ids : list str) (m : Resources) :
  NoDup ids -> (forall id, id ∈ ids -> is_Some (m !! id)) ->
  length ids + size (fold_left (fun m id => delete id m) ids m) = size m.
Proof.
  intros Hn. revert m. induction Hn as [|x ids Hx _ IH]; intros m Hm; [done|]. cbn [fold_left length].
  destruct (Hm x) as [w Hw]; [by left|].
  assert (size m ≠ 0) by (intros Hz%map_size_empty_inv; by rewrite Hz, lookup_empty in Hw).
  rewrite Nat.add_succ_l, IH.
  - rewrite map_size_delete, Hw. simpl. lia.
  - intros id Hid. rewrite lookup_delete_ne by (by intros ->). apply Hm. by right.
Qed.

Lemma nodup_map_filter {A} (f : str * A -> bool) l :
  NoDup (map fst l) -> NoDup (map fst (List.filter f l)).
Proof.
  induction l as [|x l IH]; [done|]. cbn [map]. intros [Hx Hl]%NoDup_cons. simpl.
  destruct (f x); [|by apply IH]. cbn [map]. constructor; [|by apply IH].
  intros (y & Hy & Hin)%list_elem_of_fmap. apply Hx. rewrite Hy. apply list_elem_of_fmap.
  exists y. split; [done|]. rewrite list_elem_of_In, filter_In, <- list_elem_of_In in Hin. by destruct Hin.
Qed.

(** Pruning removes exactly the workers whose last heartbeat is before the
    cutoff, and says how many they were; nothing else forgets a silent worker. *)
Theorem prune_exact (now : Z) (b : HeartbeatBridge) :
  let '(n, b') := prune_stale now b in
  (forall id w, hb_resources b' !! id = Some w <->
     hb_resources b !! id = Some w /\ (cutoff_of b now <= wr_last_heartbeat_epoch w)%Z) /\
  n + tracked_count b' = tracked_count b /\
  hb_stale_threshold_secs b' = hb_stale_threshold_secs b.
Proof.
  unfold prune_stale. cbv zeta. set (old := fun e : str * WorkerResources =>
    (wr_last_heartbeat_epoch e.2 <? cutoff_of b now)%Z).
  set (ids := map fst (List.filter old (entries b))). rewrite remove_all. cbn [hb_resources].
  assert (Hids : forall id, id ∈ ids <-> exists w, hb_resources b !! id = Some w /\ old (id, w) = true).
  { intros id. unfold ids. rewrite list_elem_of_fmap. split.
    - intros ([x w] & -> & Hin). rewrite list_elem_of_In, filter_In, <- list_elem_of_In in Hin.
      destruct Hin as [Hin%elem_of_hash_iter ?]. by exists w.
    - intros (w & Hw & Ho). exists (id, w). split; [done|].
      rewrite list_elem_of_In, filter_In, <- list_elem_of_In. split; [by apply elem_of_hash_iter|done]. }
  split; [|split; [|done]].
  - intros id w. rewrite delete_all. destruct (decide (id ∈ ids)) as [Hin|Hin].
    + apply Hids in Hin as (w' & Hw' & Ho). split; [done|]. intros [Hw Hc].
      rewrite Hw in Hw'. injection Hw' as <-. unfold old in Ho. simpl in Ho. bools. lia.
    + split; [|by intros [? _]]. intros Hw. split; [done|].
      destruct (old (id, w)) eqn:Ho; [by destruct Hin; apply Hids; exists w|].
      unfold old in Ho. simpl in Ho. bools. done.
  - unfold tracked_count. cbn [hb_resources].
    apply delete_all_size.
    + apply nodup_map_filter, hash_iter_nodup.
    + intros id (w & Hw & _)%Hids. by exists w.
Qed.
End BridgeFacts.

(** ** The history of configuration changes *)

(** A call of [set_config] at an instant, with the fate of its insertion. *)
Record set_op := mkSetOp {
  so_now : Z; so_db : option str; so_key : str; so_old : option str; so_new : str; so_by : str
}.

Definition run_set (op : set_op) (h : MetricsHub) : MetricsHub :=
  snd (set_config (so_now op) (so_db op) (so_key op) (so_old op) (so_new op) (so_by op) h).

Definition change_of (op : set_op) : ConfigChange :=
  mkChange (so_now op) (so_key op) (so_old op) (so_new op) (so_by op).

Definition accepted (op : set_op) : bool :=
  negb (existsb (str_eqb (so_key op)) RESTRICTED_CONFIG_KEYS) &&
  match so_db op with None => true | Some _ => false end.

Lemma run_set_eq op h :
  run_set op h =
    if accepted op then
      mkHub (hub_rows h ++ [change_of op])
        (ch_changes (history_add (change_of op) (mkHistory (hub_history h) (hub_max_history h))))
        (hub_max_history h) (hub_bridge h)
    else h.
Proof.
  unfold run_set, set_config, accepted. destruct (existsb _ _); [done|]. by destruct (so_db op).
Qed.

Lemma history_add_last c h :
  0 < ch_max_capacity h -> length (ch_changes h) <= ch_max_capacity h ->
  ch_changes (history_add c h) =
    drop (length (ch_changes h ++ [c]) - ch_max_capacity h) (ch_changes h ++ [c]).
Proof.
  intros Hc Hl. unfold history_add. cbn [ch_changes]. rewrite length_app. simpl.
  destruct (Nat.leb_spec (ch_max_capacity h) (length (ch_changes h))).
  - replace (length (ch_changes h) + 1 - ch_max_capacity h) with 1 by lia.
    destruct (ch_changes h); [simpl in *; lia|done].
  - by replace (length (ch_changes h) + 1 - ch_max_capacity h) with 0 by lia.
Qed.

(** Through any sequence of calls, failed and refused ones included, the
    table holds every accepted change in order and nothing else, the buffer holds
    the last thousand of them, as the bounded history of the domain would, and no
    key that is restricted is ever recorded. *)
Theorem hub_history_spec (ops : list set_op) :
  let h := fold_left (fun h op => run_set op h) ops (MetricsHub_new []) in
  let changes := map change_of (List.filter accepted ops) in
  hub_rows h = changes /\
  get_config_history h = drop (length changes - 1000) changes /\
  get_config_history h =
    get_all (fold_left (fun h c => history_add c h) changes ConfigHistory_default) /\
  forall c, c ∈ hub_rows h -> cc_key c ∉ RESTRICTED_CONFIG_KEYS.
Proof.
  cbv zeta. set (step := fun h op => run_set op h). set (cs := map change_of (List.filter accepted ops)).
  assert (Hinv : hub_rows (fold_left step ops (MetricsHub_new [])) = cs /\
    hub_max_history (fold_left step ops (MetricsHub_new [])) = 1000 /\
    hub_history (fold_left step ops (MetricsHub_new [])) = drop (length cs - 1000) cs /\
    ch_changes (fold_left (fun h c => history_add c h) cs ConfigHistory_default) = drop (length cs - 1000) cs /\
    ch_max_capacity (fold_left (fun h c => history_add c h) cs ConfigHistory_default) = 1000).
  { subst cs. induction ops as [|op ops IH] using rev_ind; [done|].
    rewrite fold_left_app, List.filter_app, map_app. cbn [fold_left List.filter].
    destruct IH as (H1 & H2 & H3 & H4 & H5). unfold step at 1 3 5. rewrite run_set_eq.
    set (cs := map change_of (List.filter accepted ops)) in *.
    destruct (accepted op); cbn [map]; [|by rewrite app_nil_r].
    rewrite fold_left_app. cbn [fold_left hub_rows hub_max_history hub_history].
    assert (Hd : drop (length (drop (length cs - 1000) cs ++ [change_of op]) - 1000)
      (drop (length cs - 1000) cs ++ [change_of op]) =
      drop (length (cs ++ [change_of op]) - 1000) (cs ++ [change_of op])).
    { rewrite !length_app, length_drop. cbn [length].
      destruct (decide (length cs < 1000)).
      - replace (length cs - 1000) with 0 by lia. rewrite drop_0. f_equal. lia.
      - rewrite <- drop_app_le by lia. rewrite drop_drop. f_equal. lia. }
    assert (Hl : length (drop (length cs - 1000) cs) <= 1000) by (rewrite length_drop; lia).
    rewrite !history_add_last; cbn [ch_changes ch_max_capacity]; rewrite ?H1, ?H2, ?H3, ?H4, ?H5;
      [done|lia..]. }
  destruct Hinv as (H1 & _ & H3 & H4 & _). split; [exact H1|]. split; [exact H3|].
  split; [by rewrite <- H4 in H3|]. rewrite H1. intros c Hc Hr. subst cs.
  apply list_elem_of_fmap in Hc as (op & -> & Hop).
  rewrite list_elem_of_In, filter_In in Hop. destruct Hop as [_ [Hn _]%andb_true_iff].
  apply negb_true_iff in Hn. apply eq_true_false_abs in Hn; [done|]. apply existsb_exists.
  exists (so_key op). split; [by apply list_elem_of_In|apply str_eqb_refl].
Qed.
