(* ===== verification/Orientation.v ===== *)
(** * Guidance for agents

    Models the template recommender of [bastion-domain/src/orientation/
    template_recommender.rs] and the orientation tools of the gateway
    ([bastion-gateway/src/orientation_tools.rs]) up to the writing of their
    answers as JSON.  [str::to_lowercase] is an argument; scores are [f32]. *)

From Stdlib Require Import SpecFloat.
From S2P Require Import Prelude Hub.

(** [str::to_lowercase], which follows the Unicode tables. *)
Class Lowercase := to_lowercase : str -> str.

(** On ASCII alone. *)
Definition ascii_lowercase : Lowercase :=
  map (fun c => if is_ascii_uppercase c then (c + 32)%N else c).

(** ** The recommender *)

Record Rule := mkRule {
  ru_keywords : list string; ru_template : string; ru_confidence : float; ru_alternative : string;
  ru_reasoning : string
}.

Record TemplateRecommendation := mkTemplate {
  rec_template : str; rec_confidence : float; rec_alternative : str; rec_reasoning : str
}.

(** [f32] arithmetic, and the literal of a number of hundredths. *)
Definition f32_of_nat (n : nat) : float := binary_normalize 24 128 (Z.of_nat n) 0 false.
Definition f32_add : float -> float -> float := SFadd 24 128.
Definition f32_mul : float -> float -> float := SFmul 24 128.
Definition f32_hundredths (n : nat) : float := SFdiv 24 128 (f32_of_nat n) (f32_of_nat 100).

Definition rules : list Rule :=
  [mkRule ["mvn"; "maven"; "mavenw"] "eclipse-temurin:21-jdk-maven" (f32_hundredths 95) "ubuntu:24.04"
     "Matched Maven build tool. Template provides pre-installed JDK 21 + Maven 3.11.";
   mkRule ["gradle"; "gradlew"] "eclipse-temurin:21-jdk-gradle" (f32_hundredths 90)
     "eclipse-temurin:21-jdk-maven"
     "Matched Gradle build tool. Template provides pre-installed JDK 21 + Gradle 8.6.";
   mkRule ["npm"; "node"; "nodejs"; "yarn"; "pnpm"; "node-gyp"] "node:20-slim" (f32_hundredths 95)
     "ubuntu:24.04" "Matched Node.js ecosystem. Template provides Node 20 + npm/yarn/pnpm.";
   mkRule ["python"; "pip"; "pip3"; "pyenv"; "poetry"; "uv"; "pipenv"] "python:3.12-slim"
     (f32_hundredths 95) "ubuntu:24.04"
     "Matched Python ecosystem. Template provides Python 3.12 + pip + uv.";
   mkRule ["cargo"; "rustc"; "cargo-watch"; "rust-analyzer"] "rust:1.77-slim" (f32_hundredths 95)
     "ubuntu:24.04" "Matched Rust toolchain. Template provides Rust 1.77 + Cargo.";
   mkRule ["go"; "golang"; "go build"; "go mod"] "golang:1.22-alpine" (f32_hundredths 90)
     "ubuntu:24.04" "Matched Go toolchain. Template provides Go 1.22.";
   mkRule ["bundle"; "ruby"; "rake"; "rbenv"] "ruby:3.3-slim" (f32_hundredths 90) "ubuntu:24.04"
     "Matched Ruby ecosystem. Template provides Ruby 3.3 + Bundler.";
   mkRule ["apt"; "apt-get"; "dpkg"; "asdf"; "python"] "ubuntu:24.04" (f32_hundredths 90)
     "debian:bookworm-slim" "Matched general-purpose template. Supports apt/dpkg/asdf toolchains.";
   mkRule ["dotnet"; "msbuild"; "nuget"] "mcr.microsoft.com/dotnet/sdk:8.0" (f32_hundredths 90)
     "ubuntu:24.04" "Matched .NET SDK. Template provides .NET 8.0 SDK.";
   mkRule ["php"; "composer"; "laravel"; "symfony"] "php:8.3-cli" (f32_hundredths 85) "ubuntu:24.04"
     "Matched PHP ecosystem. Template provides PHP 8.3 + Composer."]%string.

Definition fallback : TemplateRecommendation :=
  mkTemplate (lit "ubuntu:24.04") (f32_hundredths 30) (lit "debian:bookworm-slim")
    (lit "No specific toolchain detected. Defaulting to ubuntu:24.04 as a general-purpose template.").

Section Recommender.
Context `{UnicodeTables} `{Lowercase}.

(** [split] on the characters that satisfy [p]. *)
Fixpoint split_by (p : char -> bool) (s : str) : list str :=
  match s with
  | [] => [[]]
  | c :: s' =>
      if p c then [] :: split_by p s'
      else match split_by p s' with
           | [] => [[c]]
           | w :: ws => (c :: w) :: ws
           end
  end.

Definition tokenize (text : str) : list str :=
  List.filter (fun s => negb (str_eqb s []) && (1 <? str_len s)%N)
    (split_by (fun c => negb (is_alphanumeric c)) (to_lowercase text)).

Definition hit (tokens : list str) (kw : string) : bool := existsb (fun t => str_contains t (lit kw)) tokens.

Definition count_matches (tokens : list str) (r : Rule) : nat :=
  length (List.filter (hit tokens) (ru_keywords r)).

(** [f32::min]. *)
Definition f32_min (a b : float) : float :=
  match SFcompare a b with Some Lt => a | Some _ => b | None => match a with S754_nan => b | _ => a end end.
Definition f32_gt (a b : float) : bool := match SFcompare a b with Some Gt => true | _ => false end.

Definition score_of (r : Rule) (matches : nat) : float :=
  f32_min (f32_add (ru_confidence r) (f32_mul (f32_hundredths 5) (f32_of_nat matches))) f32_one.

Definition Scored : Type := Rule * float * nat.
Definition sc_rule (s : Scored) : Rule := fst (fst s).
Definition sc_score (s : Scored) : float := snd (fst s).
Definition sc_matches (s : Scored) : nat := snd s.

(** A template that has been scored keeps the higher score. *)
Fixpoint put_score (r : Rule) (score : float) (matches : nat) (scores : list Scored) : list Scored :=
  match scores with
  | [] => [(r, score, matches)]
  | (r0, s0, m0) :: rest =>
      if String.eqb (ru_template r0) (ru_template r) then
        (if f32_gt score s0 then (r0, score, matches) else (r0, s0, m0)) :: rest
      else (r0, s0, m0) :: put_score r score matches rest
  end.

Definition match_keywords (tokens : list str) : list Scored :=
  fold_left (fun scores r =>
    let matches := count_matches tokens r in
    if 0 <? matches then put_score r (score_of r matches) matches scores else scores) rules [].

(** [partial_cmp(..).unwrap_or(Equal).then_with(..)]. *)
Definition compare_scored (a b : Scored) : comparison :=
  match default Eq (SFcompare (sc_score a) (sc_score b)) with
  | Eq => Nat.compare (sc_matches a) (sc_matches b)
  | o => o
  end.

(** [max_by]: of equals the last. *)
Definition max_scored (scores : list Scored) : option Scored :=
  match scores with
  | [] => None
  | s :: rest => Some (fold_left (fun a b => match compare_scored a b with Gt => a | _ => b end) rest s)
  end.

Definition of_scored (s : Scored) : TemplateRecommendation :=
  mkTemplate (lit (ru_template (sc_rule s))) (f32_min (sc_score s) f32_one)
    (lit (ru_alternative (sc_rule s))) (lit (ru_reasoning (sc_rule s))).

Definition recommend (task : str) : TemplateRecommendation :=
  match tokenize task with
  | [] => fallback
  | tokens =>
      match max_scored (match_keywords tokens) with
      | Some s => of_scored s
      | None => fallback
      end
  end.
End Recommender.

(** ** The tools *)

Record PoolCounts := mkPoolCounts { pc_active : Z; pc_idle : Z }.

Record CapacityCheckResponse := mkCapacity {
  cap_available : bool; cap_current_count : Z; cap_max_capacity : Z; cap_recommended_action : str
}.

(** [sandbox_capacity_check]; the sum is one of 32 bits. *)
Definition capacity_check (pool : option PoolCounts) (count : Z) : CapacityCheckResponse :=
  let '(current_count, max_capacity) :=
    match pool with
    | Some st => (as_u32 (pc_active st), as_u32 (pc_active st + pc_idle st))
    | None => (0%Z, 4294967295%Z)
    end in
  let available := (as_u32 (current_count + count) <=? max_capacity)%Z in
  mkCapacity available current_count max_capacity
    (if available then lit "proceed"
     else if (count =? 1)%Z then
       lit "Wait for an existing sandbox to be terminated, or terminate unused sandboxes with sandbox_terminate."
     else lit "Reduce requested count to " ++ show_Z (Z.max 0 (max_capacity - current_count)) ++
          lit " or wait for existing sandboxes to be terminated.").

(** The values of the JSON of [sandbox_optimal_config]. *)
Record OptimalConfig := mkOptimal {
  oc_max_total : Z; oc_min_idle : Z; oc_idle_ttl_secs : Z; oc_timeout_ms : Z; oc_template : option str;
  oc_warnings : list str; oc_restart_required : bool; oc_reasoning : str
}.

Definition optimal_config (use_case : str) : OptimalConfig :=
  if str_eqb use_case (lit "ci_build") then
    mkOptimal 50 5 300 600000 (Some (lit "debian:bookworm-slim")) [] false
      (lit "CI build optimized: high pool capacity with short idle TTL for burst workloads")
  else if str_eqb use_case (lit "local_dev") then
    mkOptimal 10 2 3600 3600000 (Some (lit "ubuntu:24.04")) [] false
      (lit "Local development optimized: smaller pool with longer idle TTL for interactive use")
  else if str_eqb use_case (lit "data_processing") then
    mkOptimal 100 10 600 3600000 (Some (lit "python:3.12-slim")) [] false
      (lit "Data processing optimized: large pool for batch workloads")
  else
    mkOptimal 20 2 900 1800000 None
      [lit "Unknown use case '" ++ use_case ++ lit "', returning default config"] false
      (lit "Default configuration for general workloads").

Record SetConfigResponse := mkSetResponse {
  sr_applied : list str; sr_failed : list str; sr_requires_restart : bool; sr_restart_hint : option str
}.

(** The updates, when they are an object: its members in order, each with the
    text of its value, the instant and the fate of its insertion. *)
Record Update := mkUpdate { up_key : str; up_value : str; up_now : Z; up_db : option str }.

(** The loop of [sandbox_set_config] over the members. *)
Fixpoint apply_updates (us : list Update) (h : MetricsHub) (r : SetConfigResponse) :
    SetConfigResponse * MetricsHub :=
  match us with
  | [] => (r, h)
  | u :: us' =>
      let '(res, h') := set_config (up_now u) (up_db u) (up_key u) None (up_value u)
        (lit "sandbox_set_config") h in
      let hint s := match sr_restart_hint r with None => sc_restart_hint s | Some x => Some x end in
      apply_updates us' h'
        match res with
        | Ok s =>
            if sc_applied s then
              mkSetResponse (sr_applied r ++ [up_key u]) (sr_failed r)
                (sr_requires_restart r || sc_requires_restart s)
                (if sc_requires_restart s then hint s else sr_restart_hint r)
            else mkSetResponse (sr_applied r) (sr_failed r ++ [up_key u]) (sr_requires_restart r) (hint s)
        | Err _ => mkSetResponse (sr_applied r) (sr_failed r ++ [up_key u]) (sr_requires_restart r)
                     (sr_restart_hint r)
        end
  end.

Definition sandbox_set_config (hub : option MetricsHub) (updates : option (list Update)) :
    SetConfigResponse * option MetricsHub :=
  match hub with
  | Some h =>
      match updates with
      | Some us => let '(r, h') := apply_updates us h (mkSetResponse [] [] false None) in (r, Some h')
      | None => (mkSetResponse [] [lit "updates"] false None, Some h)
      end
  | None =>
      (mkSetResponse [] (match updates with Some us => map up_key us | None => [lit "updates"] end) false
         (Some (lit "MetricsHub not available")), None)
  end.

Definition sandbox_config_history (hub : option MetricsHub) : list ConfigChange :=
  match hub with Some h => get_config_history h | None => [] end.

(** ** The recommendation *)

(** A score as a number of 2^-24ths. *)
Definition units (x : float) : Z :=
  match x with S754_finite false m e => (Zpos m * 2 ^ (e + 24))%Z | _ => 0%Z end.

(** A rule with its matches weighs its score first and its matches second. *)
Definition weight (m : Rule * nat) : Z := (units (score_of (fst m) (snd m)) * 16 + Z.of_nat (snd m))%Z.

Definition possible : list (Rule * nat) :=
  flat_map (fun r => map (fun n => (r, n)) (seq 1 (length (ru_keywords r)))) rules.

Definition scored (m : Rule * nat) : Scored := (fst m, score_of (fst m) (snd m), snd m).

(** The comparison of two scores is that of their weights, and no score is above one. *)
Lemma possible_compare a b :
  a ∈ possible -> b ∈ possible -> compare_scored (scored a) (scored b) = (weight a ?= weight b)%Z.
Proof.
  assert (Hall : forallb (fun a => forallb (fun b =>
    bool_decide (compare_scored (scored a) (scored b) = (weight a ?= weight b)%Z)) possible) possible = true)
    by (vm_compute; reflexivity).
  intros Ha Hb. rewrite forallb_forall in Hall. rewrite list_elem_of_In in Ha, Hb.
  specialize (Hall a Ha). cbv beta in Hall. rewrite forallb_forall in Hall.
  exact (bool_decide_eq_true_1 _ (Hall b Hb)).
Qed.

Lemma possible_capped a : a ∈ possible -> f32_min (score_of a.1 a.2) f32_one = score_of a.1 a.2.
Proof.
  assert (Hall : forallb (fun a => match SFcompare (f32_min (score_of a.1 a.2) f32_one) (score_of a.1 a.2),
      f32_min (score_of a.1 a.2) f32_one, score_of a.1 a.2 with
    | Some Eq, S754_finite s1 m1 e1, S754_finite s2 m2 e2 =>
        Bool.eqb s1 s2 && Pos.eqb m1 m2 && Z.eqb e1 e2
    | _, _, _ => false end) possible = true) by (vm_compute; reflexivity).
  intros Ha. rewrite forallb_forall in Hall. rewrite list_elem_of_In in Ha.
  specialize (Hall a Ha). cbv beta in Hall.
  destruct (SFcompare _ _) as [[]|]; try done. destruct (f32_min _ _); try done.
  destruct (score_of _ _); try done. bools. apply eqb_prop in H. apply Pos.eqb_eq in H1. by subst.
Qed.

Section RecommenderFacts.
Context `{UnicodeTables} `{Lowercase}.

(** The rules that match, with their matches. *)
Definition matching_rules (tokens : list str) (rs : list Rule) : list (Rule * nat) :=
  List.filter (fun m => 0 <? snd m) (map (fun r => (r, count_matches tokens r)) rs).

Lemma put_score_new r x n scores :
  (forall s, s ∈ scores -> ru_template (sc_rule s) ≠ ru_template r) ->
  put_score r x n scores = scores ++ [(r, x, n)].
Proof.
  induction scores as [|[[r0 s0] m0] rest IH]; intros Hs; [done|]. cbn [put_score].
  rewrite (proj2 (String.eqb_neq _ _)) by (apply (Hs (r0, s0, m0)); by left).
  rewrite IH; [done|]. intros s Hin. apply Hs. by right.
Qed.

(** No two rules have the same template, so none is merged into another. *)
Lemma match_keywords_map tokens :
  match_keywords tokens = map scored (matching_rules tokens rules).
Proof.
  assert (Hn : NoDup (map ru_template rules)) by (apply (bool_decide_unpack _); vm_compute; exact I).
  unfold match_keywords. set (step := fun scores r => _).
  enough (Hgen : forall rs acc, NoDup (map ru_template rs) ->
    (forall s r, s ∈ acc -> r ∈ rs -> ru_template (sc_rule s) ≠ ru_template r) ->
    fold_left step rs acc = acc ++ map scored (matching_rules tokens rs)).
  { apply (Hgen rules []); [exact Hn|]. by intros s r Hs%elem_of_nil. }
  clear Hn. intros rs. induction rs as [|r rs IH]; intros acc Hn Hacc.
  - by rewrite app_nil_r.
  - cbn [fold_left map] in *. apply NoDup_cons in Hn as [Hr Hn].
    unfold step at 2. unfold matching_rules. cbn [map List.filter snd].
    destruct (0 <? count_matches tokens r).
    + rewrite put_score_new by (intros s Hs; apply Hacc; [done|by left]). rewrite IH; [|done|].
      * rewrite <- app_assoc. reflexivity.
      * intros s r' [Hs|Hs%list_elem_of_singleton]%elem_of_app Hr'; [apply Hacc; [done|by right]|].
        subst s. cbn [sc_rule fst]. intros E. apply Hr. rewrite E. by apply list_elem_of_fmap_2.
    + apply IH; [done|]. intros s r' Hs Hr'. apply Hacc; [done|by right].
Qed.

Lemma matching_possible tokens m : m ∈ matching_rules tokens rules -> m ∈ possible.
Proof.
  intros Hm. unfold matching_rules in Hm. rewrite list_elem_of_In, filter_In in Hm.
  destruct Hm as [Hm Hp]. apply in_map_iff in Hm as (r & <- & Hr). cbn [snd] in Hp.
  apply Nat.ltb_lt in Hp. unfold possible. apply list_elem_of_In, in_flat_map. exists r.
  split; [done|]. apply in_map, in_seq. split; [lia|]. unfold count_matches.
  pose proof (List.filter_length_le (hit tokens) (ru_keywords r)). lia.
Qed.

(** On rules that match, the comparison of [max_by] is that of the weights. *)
Lemma max_scored_weight ms m :
  (forall x, x ∈ m :: ms -> x ∈ possible) ->
  fold_left (fun a b => match compare_scored a b with Gt => a | _ => b end) (map scored ms) (scored m) =
    scored (fold_left (max_step_by weight) ms m).
Proof.
  revert m. induction ms as [|x ms IH]; intros m Hp; [done|]. cbn [map fold_left].
  rewrite possible_compare by (apply Hp; by repeat constructor).
  unfold max_step_by at 2. destruct (weight m ?= weight x)%Z; apply IH; intros y [->|Hy]%elem_of_cons;
    apply Hp; by repeat constructor.
Qed.
(** The recommendation is the fallback when no rule has a keyword in the
    task; otherwise it is that of a rule of greatest score, of most matches among
    those, and of those the last in the table. *)
Theorem recommend_spec (task : str) :
  let ms := matching_rules (tokenize task) rules in
  match ms with
  | [] => recommend task = fallback
  | _ => exists r n, last_greatest weight ms (r, n) /\
      recommend task = mkTemplate (lit (ru_template r)) (score_of r n) (lit (ru_alternative r))
        (lit (ru_reasoning r))
  end.
Proof.
  cbv zeta. unfold recommend. destruct (tokenize task) as [|t ts] eqn:Et.
  { assert (matching_rules [] rules = []) as -> by (vm_compute; reflexivity). done. }
  rewrite match_keywords_map, <- Et. destruct (matching_rules (tokenize task) rules) as [|m ms] eqn:Em; [done|].
  cbn [map max_scored].
  assert (Hp : forall x, x ∈ m :: ms -> x ∈ possible)
    by (intros x Hx; rewrite <- Em in Hx; by eapply matching_possible).
  pose proof (max_by_last weight m ms) as Hg. rewrite max_scored_weight by done.
  set (best := fold_left _ ms m) in *. exists best.1, best.2. rewrite <- surjective_pairing.
  split; [done|]. unfold of_scored, scored. cbn [sc_rule sc_score fst snd].
  rewrite possible_capped; [done|]. apply Hp. destruct Hg as (l1 & l2 & -> & _).
  apply elem_of_app. right. by left.
Qed.

(** Tokens are made of letters and digits. *)
Lemma split_by_pieces p s w : w ∈ split_by p s -> Forall (fun c => p c = false) w.
Proof.
  revert w. induction s as [|c s IH]; intros w; cbn [split_by].
  - intros ->%list_elem_of_singleton. constructor.
  - destruct (p c) eqn:E.
    + intros [->|Hw]%elem_of_cons; [constructor|by apply IH].
    + destruct (split_by p s) as [|v vs].
      * intros ->%list_elem_of_singleton. by repeat constructor.
      * intros [->|Hw]%elem_of_cons; [constructor; [done|apply IH; by left]|apply IH; by right].
Qed.

Lemma hit_alphanumeric task kw :
  Exists (fun c => is_alphanumeric c = false) (lit kw) -> hit (tokenize task) kw = false.
Proof.
  intros Hkw. apply not_true_iff_false. unfold hit. rewrite existsb_exists. intros (t & Ht & Hc).
  unfold tokenize in Ht. apply filter_In in Ht as [Ht _]. apply list_elem_of_In, split_by_pieces in Ht.
  apply str_contains_spec in Hc as (a & b & ->).
  apply Forall_app in Ht as [_ [Ht _]%Forall_app].
  apply Exists_exists in Hkw as (c & Hc & E). rewrite Forall_forall in Ht. specialize (Ht c Hc).
  simpl in Ht. by rewrite E in Ht.
Qed.

(** The keywords with a blank or a hyphen can never match, whatever the task
    says, for tasks are cut at them. *)
Theorem dead_keywords (task : str) :
  Forall (fun kw => hit (tokenize task) kw = false)
    ["node-gyp"; "cargo-watch"; "rust-analyzer"; "go build"; "go mod"; "apt-get"]%string.
Proof.
  repeat constructor; apply hit_alphanumeric, Exists_exists;
    first [solve [exists (chr "-"); split; [vm_compute; repeat constructor|reflexivity]]
          |solve [exists (chr " "); split; [vm_compute; repeat constructor|reflexivity]]].
Qed.
End RecommenderFacts.

(** Keywords are looked for inside the words. *)
Example django_is_go :
  rec_template (@recommend (fun _ => false) ascii_lowercase (lit "Deploy a Django site")) =
    lit "golang:1.22-alpine".
Proof. vm_compute. reflexivity. Qed.

(** ** The tools *)

(** With a pool there is "capacity" exactly for as many sandboxes as stand
    idle - the pool's own limit is not looked at - and without one there always is. *)
Theorem capacity_spec (pool : option PoolCounts) (count : Z) :
  (0 <= count <= u32_max)%Z ->
  match pool with
  | Some st => (0 <= pc_active st /\ 0 <= pc_idle st /\ pc_active st + pc_idle st <= u32_max /\
                pc_active st + count <= u32_max)%Z
  | None => True
  end ->
  cap_available (capacity_check pool count) =
    match pool with Some st => (count <=? pc_idle st)%Z | None => true end.
Proof.
  intros Hc Hp. unfold capacity_check, as_u32, u32_max in *. destruct pool as [st|]; cbn [cap_available].
  - rewrite !Z.mod_small by (rewrite ?Z.mod_small; lia).
    destruct (Z.leb_spec count (pc_idle st)), (Z.leb_spec (pc_active st + count) (pc_active st + pc_idle st));
      (done || lia).
  - rewrite Z.add_0_l, Z.mod_small by lia. apply Z.leb_le. lia.
Qed.

(** A pool that may grow by another sandbox has no capacity for it. *)
Lemma capacity_spec_witness :
  (0 <= 1 <= u32_max)%Z /\ cap_available (capacity_check (Some (mkPoolCounts 3 0)) 1) = false.
Proof.
  split; [done|]. rewrite (capacity_spec (Some (mkPoolCounts 3 0)) 1); [reflexivity|done|].
  repeat split; done.
Defined.

Definition update_op (u : Update) : set_op :=
  mkSetOp (up_now u) (up_db u) (up_key u) None (up_value u) (lit "sandbox_set_config").

Lemma apply_updates_spec us h r :
  let ok := List.filter (fun u => accepted (update_op u)) us in
  let bad := List.filter (fun u => negb (accepted (update_op u))) us in
  let '(r', h') := apply_updates us h r in
  sr_applied r' = sr_applied r ++ map up_key ok /\
  sr_failed r' = sr_failed r ++ map up_key bad /\
  sr_requires_restart r' = sr_requires_restart r || existsb restart_needed (map up_key ok) /\
  h' = fold_left (fun h u => run_set (update_op u) h) us h.
Proof.
  cbv zeta. revert h r. induction us as [|u us IH]; intros h r; cbn [apply_updates].
  - by rewrite !app_nil_r, orb_false_r.
  - cbn [List.filter fold_left]. rewrite run_set_eq. unfold set_config. unfold accepted, update_op.
    cbn [so_key so_db so_now so_old so_new so_by].
    destruct (existsb (str_eqb (up_key u)) RESTRICTED_CONFIG_KEYS), (up_db u); cbn [negb andb sc_applied sc_requires_restart sc_restart_hint];
      match goal with |- context [apply_updates us ?h ?r] =>
        specialize (IH h r); destruct (apply_updates us h r) as [r' h'] end;
      cbn [sr_applied sr_failed sr_requires_restart map existsb] in *;
      destruct IH as (-> & -> & -> & ->); rewrite <- ?app_assoc, <- ?orb_assoc; done.
Qed.

(** Setting several values applies, in order, exactly those whose key is not
    restricted and whose insertion succeeds, reports the others as failed, asks
    for a restart when one of the applied keys needs it, and records in the hub
    exactly the applied ones; without a hub everything fails. *)
Theorem sandbox_set_config_spec (us : list Update) (hub : option MetricsHub) :
  let ok := match hub with
            | Some _ => List.filter (fun u => accepted (update_op u)) us
            | None => []
            end in
  let '(r, hub') := sandbox_set_config hub (Some us) in
  sr_applied r = map up_key ok /\
  Permutation (sr_applied r ++ sr_failed r) (map up_key us) /\
  sr_requires_restart r = existsb restart_needed (map up_key ok) /\
  match hub, hub' with
  | Some h, Some h' => hub_rows h' = hub_rows h ++ map (fun u => change_of (update_op u)) ok
  | None, None => True
  | _, _ => False
  end.
Proof.
  cbv zeta. destruct hub as [h|]; cbn [sandbox_set_config]; [|by repeat split].
  pose proof (apply_updates_spec us h (mkSetResponse [] [] false None)) as Hs. cbv zeta in Hs.
  destruct (apply_updates us h _) as [r h']. cbn [sr_applied sr_failed sr_requires_restart] in Hs.
  destruct Hs as (-> & -> & -> & ->). cbn [app orb].
  split; [done|]. split; [|split; [done|]].
  - rewrite <- map_app. apply Permutation_map. clear.
    induction us as [|u us IH]; [done|]. cbn [List.filter]. destruct (accepted _); cbn [negb app].
    + by constructor.
    + by rewrite <- Permutation_middle, IH.
  - revert h. induction us as [|u us IH]; intros h; cbn [fold_left List.filter map].
    + by rewrite app_nil_r.
    + rewrite IH, run_set_eq. destruct (accepted (update_op u)); [|done]. cbn [hub_rows map].
      by rewrite <- app_assoc.
Qed.

(** Nothing but the history follows a change that is "applied". *)
Example applied_is_recorded_only :
  let '(r, hub') := sandbox_set_config (Some (MetricsHub_new []))
    (Some [mkUpdate (lit "pool.max_total") (lit "50") 7 None; mkUpdate (lit "gateway.port") (lit "1") 8 None]) in
  sr_applied r = [lit "pool.max_total"] /\ sr_failed r = [lit "gateway.port"] /\
  option_map hub_history hub' =
    Some [mkChange 7 (lit "pool.max_total") None (lit "50") (lit "sandbox_set_config")].
Proof. vm_compute. repeat split. Qed.
