(* ===== verification/ProviderTypes.v ===== *)
(** * Provider types and configuration

    Models the value types of [bastion-domain/src/provider]: capabilities
    ([capabilities.rs]), provider types and their registry ([provider_type.rs],
    [type_registry.rs]), constraints ([instance_constraints.rs]), the
    configuration of an instance ([instance_config.rs]) with the references it
    is made of ([image_reference.rs], [socket_ref.rs], [mount_ref.rs],
    [worker_binary_source.rs]) and locations ([location.rs] and the older
    [artifact_location.rs], [binary_ref.rs]).  Paths are texts; an accessor of a
    field is the field of the record. *)

From S2P Require Import Prelude Sandbox.

(** ** Capabilities *)

Record ProviderCapabilities := mkCapabilities {
  supports_snapshots : bool; supports_streaming : bool; supports_pause_resume : bool;
  max_timeout_ms : Z; max_memory_mb : Z; max_cpu_count : Z; supports_networking : bool;
  requires_kvm : bool; avg_startup_ms : Z
}.

Definition ProviderCapabilities_default : ProviderCapabilities :=
  mkCapabilities false true false 86400000 16384 16 true false 1500.

Inductive ValidationError := ZeroValue (field : str).

Definition show_validation_error (e : ValidationError) : str :=
  match e with ZeroValue f => f ++ lit " must be greater than zero" end.

(** [ProviderCapabilities::try_new]: the fields are checked in this order. *)
Definition try_new (snapshots streaming pause : bool) (timeout memory cpus : Z) (net kvm : bool)
    (startup : Z) : result ValidationError ProviderCapabilities :=
  if (timeout =? 0)%Z then Err (ZeroValue (lit "max_timeout_ms"))
  else if (memory =? 0)%Z then Err (ZeroValue (lit "max_memory_mb"))
  else if (cpus =? 0)%Z then Err (ZeroValue (lit "max_cpu_count"))
  else if (startup =? 0)%Z then Err (ZeroValue (lit "avg_startup_ms"))
  else Ok (mkCapabilities snapshots streaming pause timeout memory cpus net kvm startup).

(** [implb r s] is [!r || s]. *)
Definition supports_all (self required : ProviderCapabilities) : bool :=
  implb (supports_snapshots required) (supports_snapshots self)
  && implb (supports_streaming required) (supports_streaming self)
  && implb (supports_pause_resume required) (supports_pause_resume self)
  && (max_timeout_ms required <=? max_timeout_ms self)%Z
  && (max_memory_mb required <=? max_memory_mb self)%Z
  && (max_cpu_count required <=? max_cpu_count self)%Z
  && implb (supports_networking required) (supports_networking self)
  && implb (requires_kvm required) (requires_kvm self)
  && (avg_startup_ms self <=? avg_startup_ms required)%Z.

(** ** Provider types *)

Inductive LifecycleModel := Container | VirtualMachine | Wasm | Serverless | LocalModel.

Definition show_lifecycle (m : LifecycleModel) : str :=
  match m with
  | Container => lit "container" | VirtualMachine => lit "virtual_machine" | Wasm => lit "wasm"
  | Serverless => lit "serverless" | LocalModel => lit "local"
  end.

Record ProviderType := mkType {
  pt_id : str; pt_capabilities : ProviderCapabilities; pt_lifecycle_model : LifecycleModel;
  pt_avg_startup_ms : Z; pt_requires_kvm : bool; pt_supports_snapshots : bool
}.

Abbreviation ProviderTypeRegistry := (gmap str ProviderType).

Definition register_type (t : ProviderType) (r : ProviderTypeRegistry) : ProviderTypeRegistry :=
  <[pt_id t := t]> r.
Definition get_type (r : ProviderTypeRegistry) (id : str) : option ProviderType := r !! id.

(** [expect]: the panic of invalid capabilities is [None]. *)
Definition expect_ok {E A} (r : result E A) : option A := match r with Ok a => Some a | Err _ => None end.

Definition container_capabilities := expect_ok (try_new true true true 86400000 16384 16 true false 1500).
Definition vm_capabilities := expect_ok (try_new true true true 86400000 65536 32 true true 500).
Definition wasm_capabilities := expect_ok (try_new false true false 300000 512 4 false false 50).
Definition local_capabilities := expect_ok (try_new false true false 86400000 65536 64 true false 1).
Definition serverless_capabilities := expect_ok (try_new false true false 900000 3008 2 true false 5000).

Definition builtin (id : string) (caps : option ProviderCapabilities) (m : LifecycleModel)
    (startup : Z) (kvm snapshots : bool) : option ProviderType :=
  option_map (fun c => mkType (lit id) c m startup kvm snapshots) caps.

Definition podman_type := builtin "podman" container_capabilities Container 1500 false true.
Definition docker_type := builtin "docker" container_capabilities Container 2000 false true.
Definition gvisor_type := builtin "gvisor" container_capabilities Container 800 true false.
Definition firecracker_type := builtin "firecracker" vm_capabilities VirtualMachine 500 true true.
Definition wasm_type := builtin "wasm" wasm_capabilities Wasm 50 false false.
Definition local_type := builtin "local" local_capabilities LocalModel 0 false false.
Definition kubernetes_type := builtin "kubernetes" serverless_capabilities Serverless 5000 false false.
Definition lambda_type := builtin "lambda" serverless_capabilities Serverless 1000 false false.

Definition builtin_types : list (option ProviderType) :=
  [podman_type; docker_type; gvisor_type; firecracker_type; wasm_type; local_type;
   kubernetes_type; lambda_type].

(** [with_builtin_types]; [None] is a panic of one of the constructors. *)
Definition with_builtin_types : option ProviderTypeRegistry :=
  fold_left (fun r t =>
    match r, t with
    | Some r, Some t => Some (register_type t r)
    | _, _ => None
    end) builtin_types (Some ∅).

(** ** Constraints *)

Record InstanceConstraints := mkConstraints {
  max_sandboxes : option Z; ic_max_memory_mb : option Z; ic_max_cpu_count : option Z
}.

Definition InstanceConstraints_new : InstanceConstraints := mkConstraints None None None.

Definition at_least_one (field : string) : DomainError := Validation (lit field ++ lit " must be at least 1").

Definition is_zero (o : option Z) : bool := match o with Some v => (v =? 0)%Z | None => false end.

Definition constraints_create (sandboxes memory cpus : option Z) : result DomainError InstanceConstraints :=
  if is_zero sandboxes then Err (at_least_one "max_sandboxes")
  else if is_zero memory then Err (at_least_one "max_memory_mb")
  else if is_zero cpus then Err (at_least_one "max_cpu_count")
  else Ok (mkConstraints sandboxes memory cpus).

Definition with_max_sandboxes (max : Z) : result DomainError InstanceConstraints :=
  if (max =? 0)%Z then Err (at_least_one "max_sandboxes") else Ok (mkConstraints (Some max) None None).
Definition with_max_memory_mb (max : Z) : result DomainError InstanceConstraints :=
  if (max =? 0)%Z then Err (at_least_one "max_memory_mb") else Ok (mkConstraints None (Some max) None).
Definition with_max_cpu_count (max : Z) : result DomainError InstanceConstraints :=
  if (max =? 0)%Z then Err (at_least_one "max_cpu_count") else Ok (mkConstraints None None (Some max)).

Definition none_or (p : Z -> bool) (o : option Z) : bool := match o with Some v => p v | None => true end.

Definition is_valid_max_sandboxes (c : InstanceConstraints) : bool := none_or (fun v => 1 <=? v)%Z (max_sandboxes c).
Definition is_valid_max_memory_mb (c : InstanceConstraints) : bool := none_or (fun v => 1 <=? v)%Z (ic_max_memory_mb c).
Definition is_valid_max_cpu_count (c : InstanceConstraints) : bool := none_or (fun v => 1 <=? v)%Z (ic_max_cpu_count c).
Definition constraints_valid (c : InstanceConstraints) : bool :=
  is_valid_max_sandboxes c && is_valid_max_memory_mb c && is_valid_max_cpu_count c.

Definition has_capacity (c : InstanceConstraints) (current_count : Z) : bool :=
  none_or (fun max => current_count <? max)%Z (max_sandboxes c).

(** ** References *)

Inductive ImagePullPolicy := Always | IfNotPresent | Never.
Definition show_pull_policy (p : ImagePullPolicy) : str :=
  match p with
  | Always => lit "always" | IfNotPresent => lit "if_not_present" | Never => lit "never"
  end.

Inductive SecretValueKind := PlainText | Base64 | SecretFile.
Record SecretValue := mkSecret { sv_kind : SecretValueKind; sv_value : str }.
Definition plain_text : str -> SecretValue := mkSecret PlainText.
Definition base64 : str -> SecretValue := mkSecret Base64.
Definition secret_file : str -> SecretValue := mkSecret SecretFile.

Record Platform := mkPlatform { pf_os : str; pf_arch : str; pf_variant : option str }.
Definition Platform_new (os arch : str) : Platform := mkPlatform os arch None.
Definition linux_amd64 : Platform := Platform_new (lit "linux") (lit "amd64").
Definition linux_arm64 : Platform := Platform_new (lit "linux") (lit "arm64").
Definition with_variant (v : option str) (p : Platform) : Platform := mkPlatform (pf_os p) (pf_arch p) v.

Record RegistryCredentials := mkRegistryCredentials {
  rc_username : str; rc_password : SecretValue; rc_registry : option str
}.
Definition RegistryCredentials_new (u : str) (p : SecretValue) : RegistryCredentials :=
  mkRegistryCredentials u p None.
Definition with_registry (u : str) (p : SecretValue) (r : str) : RegistryCredentials :=
  mkRegistryCredentials u p (Some r).

Record ImageReference := mkImageReference {
  ir_reference : str; ir_pull_policy : ImagePullPolicy; ir_credentials : option RegistryCredentials;
  ir_platform : option Platform
}.
Definition ImageReference_new (r : str) : ImageReference := mkImageReference r IfNotPresent None None.
Definition with_pull_policy (p : ImagePullPolicy) (i : ImageReference) : ImageReference :=
  mkImageReference (ir_reference i) p (ir_credentials i) (ir_platform i).
Definition with_credentials (c : RegistryCredentials) (i : ImageReference) : ImageReference :=
  mkImageReference (ir_reference i) (ir_pull_policy i) (Some c) (ir_platform i).
Definition with_platform (p : Platform) (i : ImageReference) : ImageReference :=
  mkImageReference (ir_reference i) (ir_pull_policy i) (ir_credentials i) (Some p).

Inductive SocketRef :=
| SockUnix (address : str)
| SockTcp (address : str)
| SockSsh (address : str) (ssh_key ssh_user : option str).

Definition socket_address (s : SocketRef) : str :=
  match s with SockUnix a | SockTcp a | SockSsh a _ _ => a end.

Record MountRef := mkMount { mo_source : str; mo_target : str; mo_read_only : bool; mo_type : str }.
Definition mount_rw (s t : str) : MountRef := mkMount s t false (lit "bind").
Definition mount_ro (s t : str) : MountRef := mkMount s t true (lit "bind").

Inductive ContainerNetworkMode := NetBridge | NetNone | NetHost | NetContainer.
Definition show_network_mode (m : ContainerNetworkMode) : str :=
  match m with
  | NetBridge => lit "bridge" | NetNone => lit "none" | NetHost => lit "host"
  | NetContainer => lit "container"
  end.

Inductive ModuleRef :=
| ModuleLocal (path : str)
| ModuleRemote (url : str) (checksum : option str)
| ModuleOci (image : ImageReference) (path : str).

Inductive WorkerBinarySource :=
| BindMount (path : str)
| PreBaked (path : option str)
| Download (url : str) (version_constraint checksum cache_dir : option str)
| CompiledToWasm (module : ModuleRef)
| Sidecar (image : ImageReference) (mount_path : option str)
| LambdaLayer (arn : str) (version : option str).

Definition wb_download (url : str) : WorkerBinarySource := Download url None None None.

(** ** The configuration of an instance *)

Inductive WasmRuntimeKind := Wasmtime | WasmEdge | Wamr | Wasmer.
Record WasmRuntime := mkWasmRuntime { wa_kind : WasmRuntimeKind; wa_binary_path : option str }.
Definition WasmRuntime_new (k : WasmRuntimeKind) : WasmRuntime := mkWasmRuntime k None.
Definition with_binary_path (p : str) (w : WasmRuntime) : WasmRuntime := mkWasmRuntime (wa_kind w) (Some p).

Definition is_some {A} (o : option A) : bool := match o with Some _ => true | None => false end.
Definition has_custom_binary (w : WasmRuntime) : bool := is_some (wa_binary_path w).

Inductive AwsCredentialsKind := AwsStatic | AwsProfile | AwsIamRole | AwsWebIdentity.
Record AwsCredentials := mkAws {
  aws_kind : AwsCredentialsKind; access_key_id : option str; secret_access_key : option str;
  aws_profile : option str; role_arn : option str; session_name : option str
}.
Definition iam_role (arn : str) : AwsCredentials := mkAws AwsIamRole None None None (Some arn) None.

Definition blank (s : str) : bool := str_eqb (trim s) [].

Definition static_creds (key secret : str) : result DomainError AwsCredentials :=
  if blank key then Err (Validation (lit "AWS access key ID cannot be empty"))
  else if blank secret then Err (Validation (lit "AWS secret access key cannot be empty"))
  else Ok (mkAws AwsStatic (Some key) (Some secret) None None None).

Definition aws_is_valid (c : AwsCredentials) : bool :=
  match aws_kind c with
  | AwsStatic => is_some (access_key_id c) && is_some (secret_access_key c)
  | AwsProfile => is_some (aws_profile c)
  | AwsIamRole | AwsWebIdentity => is_some (role_arn c)
  end.

Inductive K8sCredentialsKind := InCluster | Kubeconfig | TokenFile.
Record KubernetesCredentials := mkK8s {
  k8s_kind : K8sCredentialsKind; kubeconfig_path : option str; token_file_path : option str;
  k8s_cred_namespace : option str
}.
Definition in_cluster : KubernetesCredentials := mkK8s InCluster None None None.
Definition kubeconfig (p : str) : KubernetesCredentials := mkK8s Kubeconfig (Some p) None None.
Definition token_file (p : str) : KubernetesCredentials := mkK8s TokenFile None (Some p) None.
Definition k8s_is_valid (c : KubernetesCredentials) : bool :=
  match k8s_kind c with
  | InCluster => true
  | Kubeconfig => is_some (kubeconfig_path c)
  | TokenFile => is_some (token_file_path c)
  end.

Record FirecrackerConfig := mkFirecracker {
  fc_binary : option str; fc_kernel : option str; fc_rootfs : option str;
  fc_worker_binary : option WorkerBinarySource; fc_boot_args : option str
}.
Definition FirecrackerConfig_new : FirecrackerConfig := mkFirecracker None None None None None.

Record KubernetesConfig := mkKubernetes {
  kc_cluster_endpoint : option str; kc_namespace : option str;
  kc_credentials : option KubernetesCredentials; kc_default_volume_snapshot_class : option str
}.
Definition KubernetesConfig_new : KubernetesConfig := mkKubernetes None None None None.

Record LambdaConfig := mkLambda { lc_region : str; lc_credentials : option AwsCredentials }.
Definition LambdaConfig_new (region : str) : result DomainError LambdaConfig :=
  if blank region then Err (Validation (lit "Lambda region cannot be empty"))
  else Ok (mkLambda region None).

Record LocalConfig := mkLocal { workspace_dir : str }.
Definition LocalConfig_new (dir : str) : result DomainError LocalConfig :=
  if blank dir then Err (Validation (lit "Local workspace_dir cannot be empty")) else Ok (mkLocal dir).

Record ProviderInstanceConfig := mkInstanceConfig {
  pc_provider_type : str; pc_socket : option SocketRef; pc_image : option ImageReference;
  pc_worker_binary : option WorkerBinarySource; pc_mounts : list MountRef;
  pc_network_mode : option ContainerNetworkMode; pc_runsc_binary : option str;
  pc_rootfs_dir : option str; firecracker_config : option FirecrackerConfig;
  wasm_runtime : option WasmRuntime; kubernetes_config : option KubernetesConfig;
  lambda_config : option LambdaConfig; local_config : option LocalConfig
}.

(** Configurations can be compared. *)

#[export] Instance ImagePullPolicy_eq_dec : EqDecision ImagePullPolicy.
Proof. solve_decision. Defined.
#[export] Instance SecretValueKind_eq_dec : EqDecision SecretValueKind.
Proof. solve_decision. Defined.
#[export] Instance SecretValue_eq_dec : EqDecision SecretValue.
Proof. solve_decision. Defined.
#[export] Instance Platform_eq_dec : EqDecision Platform.
Proof. solve_decision. Defined.
#[export] Instance RegistryCredentials_eq_dec : EqDecision RegistryCredentials.
Proof. solve_decision. Defined.
#[export] Instance ImageReference_eq_dec : EqDecision ImageReference.
Proof. solve_decision. Defined.
#[export] Instance SocketRef_eq_dec : EqDecision SocketRef.
Proof. solve_decision. Defined.
#[export] Instance MountRef_eq_dec : EqDecision MountRef.
Proof. solve_decision. Defined.
#[export] Instance ContainerNetworkMode_eq_dec : EqDecision ContainerNetworkMode.
Proof. solve_decision. Defined.
#[export] Instance ModuleRef_eq_dec : EqDecision ModuleRef.
Proof. solve_decision. Defined.
#[export] Instance WorkerBinarySource_eq_dec : EqDecision WorkerBinarySource.
Proof. solve_decision. Defined.
#[export] Instance WasmRuntimeKind_eq_dec : EqDecision WasmRuntimeKind.
Proof. solve_decision. Defined.
#[export] Instance WasmRuntime_eq_dec : EqDecision WasmRuntime.
Proof. solve_decision. Defined.
#[export] Instance AwsCredentialsKind_eq_dec : EqDecision AwsCredentialsKind.
Proof. solve_decision. Defined.
#[export] Instance AwsCredentials_eq_dec : EqDecision AwsCredentials.
Proof. solve_decision. Defined.
#[export] Instance K8sCredentialsKind_eq_dec : EqDecision K8sCredentialsKind.
Proof. solve_decision. Defined.
#[export] Instance KubernetesCredentials_eq_dec : EqDecision KubernetesCredentials.
Proof. solve_decision. Defined.
#[export] Instance FirecrackerConfig_eq_dec : EqDecision FirecrackerConfig.
Proof. solve_decision. Defined.
#[export] Instance KubernetesConfig_eq_dec : EqDecision KubernetesConfig.
Proof. solve_decision. Defined.
#[export] Instance LambdaConfig_eq_dec : EqDecision LambdaConfig.
Proof. solve_decision. Defined.
#[export] Instance LocalConfig_eq_dec : EqDecision LocalConfig.
Proof. solve_decision. Defined.
#[export] Instance ProviderInstanceConfig_eq_dec : EqDecision ProviderInstanceConfig.
Proof. solve_decision. Defined.
#[export] Instance InstanceConstraints_eq_dec : EqDecision InstanceConstraints.
Proof. solve_decision. Defined.

(** What the constructors share: everything absent but one section. *)
Definition bare (type : string) (fc : option FirecrackerConfig) (wasm : option WasmRuntime)
    (k8s : option KubernetesConfig) (lam : option LambdaConfig) (loc : option LocalConfig) :
    ProviderInstanceConfig :=
  mkInstanceConfig (lit type) None None None [] None None None fc wasm k8s lam loc.

Definition config_podman := bare "podman" None None None None None.
Definition config_docker := bare "docker" None None None None None.
Definition config_gvisor := bare "gvisor" None None None None None.
Definition config_firecracker := bare "firecracker" (Some FirecrackerConfig_new) None None None None.
Definition config_wasm := bare "wasm" None (Some (WasmRuntime_new Wasmtime)) None None None.
Definition config_kubernetes := bare "kubernetes" None None (Some KubernetesConfig_new) None None.
Definition config_local (dir : str) : result DomainError ProviderInstanceConfig :=
  match LocalConfig_new dir with
  | Ok c => Ok (bare "local" None None None None (Some c))
  | Err e => Err e
  end.
Definition config_lambda (region : str) : result DomainError ProviderInstanceConfig :=
  match LambdaConfig_new region with
  | Ok c => Ok (bare "lambda" None None None (Some c) None)
  | Err e => Err e
  end.

Definition config_is (type : string) (c : ProviderInstanceConfig) : bool :=
  str_eqb (pc_provider_type c) (lit type).

(** The accessors through a section. *)
Definition firecracker_get {A} (f : FirecrackerConfig -> option A) (c : ProviderInstanceConfig) : option A :=
  match firecracker_config c with Some s => f s | None => None end.
Definition kubernetes_get {A} (f : KubernetesConfig -> option A) (c : ProviderInstanceConfig) : option A :=
  match kubernetes_config c with Some s => f s | None => None end.
Definition lambda_region (c : ProviderInstanceConfig) : option str := option_map lc_region (lambda_config c).
Definition lambda_credentials (c : ProviderInstanceConfig) : option AwsCredentials :=
  match lambda_config c with Some s => lc_credentials s | None => None end.
Definition local_workspace_dir (c : ProviderInstanceConfig) : option str := option_map workspace_dir (local_config c).

Definition is_valid_local (c : ProviderInstanceConfig) : bool :=
  match local_config c with Some s => negb (blank (workspace_dir s)) | None => false end.
Definition is_valid_lambda (c : ProviderInstanceConfig) : bool :=
  match lambda_config c with Some s => negb (blank (lc_region s)) | None => false end.

(** ** Locations *)

Inductive Location :=
| Local (path : str)
| Remote (url : str) (checksum : option str)
| PreBakedAt (path : str).

Definition location_path (l : Location) : option str :=
  match l with Local p | PreBakedAt p => Some p | Remote _ _ => None end.
Definition location_url (l : Location) : option str :=
  match l with Remote u _ => Some u | _ => None end.
Definition location_checksum (l : Location) : option str :=
  match l with Remote _ c => c | _ => None end.

Inductive ArtifactLocation :=
| ArtifactLocal (path : str)
| ArtifactRemote (url : str) (checksum : option str)
| PreBakedInImage (path : str).

Inductive BinaryRef :=
| BinaryLocal (path : str)
| BinaryRemote (url : str) (checksum : option str).

Definition binary_local_path (b : BinaryRef) : option str :=
  match b with BinaryLocal p => Some p | _ => None end.
Definition binary_remote_url (b : BinaryRef) : option str :=
  match b with BinaryRemote u _ => Some u | _ => None end.

Definition location_of_artifact (a : ArtifactLocation) : Location :=
  match a with
  | ArtifactLocal p => Local p
  | ArtifactRemote u c => Remote u c
  | PreBakedInImage p => PreBakedAt p
  end.
Definition artifact_of_location (l : Location) : ArtifactLocation :=
  match l with
  | Local p => ArtifactLocal p
  | Remote u c => ArtifactRemote u c
  | PreBakedAt p => PreBakedInImage p
  end.
Definition location_of_binary (b : BinaryRef) : Location :=
  match b with BinaryLocal p => Local p | BinaryRemote u c => Remote u c end.

(** A pre-baked binary becomes a local one. *)
Definition binary_of_location (l : Location) : BinaryRef :=
  match l with
  | Local p => BinaryLocal p
  | Remote u c => BinaryRemote u c
  | PreBakedAt p => BinaryLocal p
  end.

(** ** Laws *)

Lemma implb_trans a b c : implb b a = true -> implb c b = true -> implb c a = true.
Proof. by destruct a, b, c. Qed.

(** Support is a preorder, and validated capabilities are exactly those
    without a zero: the choice of a provider by what it supports is consistent
    along chains of requirements. *)
Theorem capabilities_preorder :
  (forall a, supports_all a a = true) /\
  (forall a b c, supports_all a b = true -> supports_all b c = true -> supports_all a c = true) /\
  forall sn st pa t m c n k u,
    (exists caps, try_new sn st pa t m c n k u = Ok caps) <->
    (t ≠ 0 /\ m ≠ 0 /\ c ≠ 0 /\ u ≠ 0)%Z.
Proof.
  split; [|split].
  - intros a. unfold supports_all. rewrite !Z.leb_refl. by destruct a as [[] [] [] ? ? ? [] [] ?].
  - intros a b c Hab Hbc. unfold supports_all in *.
    repeat match goal with H : _ && _ = true |- _ => apply andb_true_iff in H as [? ?] end.
    rewrite !andb_true_iff. repeat split; try (by eapply implb_trans); apply Z.leb_le;
      repeat match goal with H : (_ <=? _)%Z = true |- _ => apply Z.leb_le in H end; lia.
  - intros sn st pa t m c n k u. unfold try_new.
    destruct (Z.eqb_spec t 0), (Z.eqb_spec m 0), (Z.eqb_spec c 0), (Z.eqb_spec u 0); split;
      (try by intros [? ?]); (try by intros (? & ? & ? & ?)); by eauto.
Qed.

(** The types known at startup: eight, and registering them does not panic. *)
Example builtin_types_register :
  option_map (fun r => map (fun id => option_map pt_lifecycle_model (get_type r (lit id)))
    ["podman"; "docker"; "gvisor"; "firecracker"; "wasm"; "local"; "kubernetes"; "lambda"]%string)
    with_builtin_types =
  Some [Some Container; Some Container; Some Container; Some VirtualMachine; Some Wasm;
        Some LocalModel; Some Serverless; Some Serverless].
Proof. vm_compute. reflexivity. Qed.

(** Three facts of a type are kept twice, and do not agree for all of them. *)
Definition consistent (t : ProviderType) : bool :=
  Bool.eqb (pt_requires_kvm t) (requires_kvm (pt_capabilities t)) &&
  Bool.eqb (pt_supports_snapshots t) (supports_snapshots (pt_capabilities t)) &&
  (pt_avg_startup_ms t =? avg_startup_ms (pt_capabilities t))%Z.

Example inconsistent_types :
  map (fun t => (pt_id t, consistent t)) (omap id builtin_types) =
    [(lit "podman", true); (lit "docker", false); (lit "gvisor", false); (lit "firecracker", true);
     (lit "wasm", true); (lit "local", false); (lit "kubernetes", true); (lit "lambda", false)].
Proof. vm_compute. reflexivity. Qed.

Lemma constraints_create_valid s m c k :
  (0 <= default 0 s)%Z -> (0 <= default 0 m)%Z -> (0 <= default 0 c)%Z ->
  constraints_create s m c = Ok k -> constraints_valid k = true.
Proof.
  unfold constraints_create. intros Hs Hm Hc.
  destruct (is_zero s) eqn:Es, (is_zero m) eqn:Em, (is_zero c) eqn:Ec; try done. intros [= <-].
  unfold constraints_valid, is_valid_max_sandboxes, is_valid_max_memory_mb, is_valid_max_cpu_count.
  rewrite !andb_true_iff. simpl.
  destruct s, m, c; simpl in *; bools; repeat split; try done; apply Z.leb_le; lia.
Qed.

Lemma artifact_location_roundtrip a : artifact_of_location (location_of_artifact a) = a.
Proof. by destruct a. Qed.
Lemma binary_location_roundtrip b : binary_of_location (location_of_binary b) = b.
Proof. by destruct b. Qed.
