(* ===== verification/ProviderInstances.v ===== *)
(** * Provider instances

    Models the instance entity ([bastion-domain/src/provider/instance.rs]), its
    repository over a directory of TOML files ([bastion-infrastructure/src/
    provider/toml_repository.rs]) and the providers known to a process
    ([factory.rs], [registry.rs], [config.rs] of the same directory).  The TOML
    library is an argument with its round trip; a directory maps file names to
    contents, [None] for one that cannot be read, and every file operation may
    fail; a provider is whatever its constructor gives. *)

From S2P Require Import Prelude Normalizer Sandbox ProviderTypes.

(** ** The entity *)

Definition INVALID_NAME_CHARS : list char := [chr "/"; chr "\"; chr ":"; 0%N].

(** The [Debug] form of one of those characters. *)
Definition debug_name_char (c : char) : str :=
  if (c =? chr "\")%N then lit "'\\'" else if (c =? 0)%N then lit "'\0'" else lit "'" ++ [c] ++ lit "'".

Fixpoint invalid_char (cs : list char) (name : str) : option char :=
  match cs with
  | [] => None
  | c :: cs' => if existsb (N.eqb c) name then Some c else invalid_char cs' name
  end.

Definition is_valid_name (name : str) : result DomainError unit :=
  match name with
  | [] => Err (Validation (lit "Provider instance name cannot be empty"))
  | _ =>
      if str_contains name (lit "..") then
        Err (Validation (lit "Provider instance name cannot contain '..'"))
      else match invalid_char INVALID_NAME_CHARS name with
           | Some c => Err (Validation (lit "Provider instance name contains invalid character: " ++
                                        debug_name_char c))
           | None => Ok tt
           end
  end.

Inductive ProviderInstanceStatus := Loading | Active | Degraded | Offline.

#[export] Instance ProviderInstanceStatus_eq_dec : EqDecision ProviderInstanceStatus.
Proof. solve_decision. Defined.

Definition show_instance_status (s : ProviderInstanceStatus) : str :=
  match s with
  | Loading => lit "loading" | Active => lit "active" | Degraded => lit "degraded"
  | Offline => lit "offline"
  end.
Definition debug_instance_status (s : ProviderInstanceStatus) : str :=
  match s with
  | Loading => lit "Loading" | Active => lit "Active" | Degraded => lit "Degraded"
  | Offline => lit "Offline"
  end.

Definition status_can_accept (s : ProviderInstanceStatus) : bool :=
  match s with Active => true | _ => false end.
Definition status_is_terminal (s : ProviderInstanceStatus) : bool :=
  match s with Offline => true | _ => false end.
Definition status_is_operational (s : ProviderInstanceStatus) : bool :=
  match s with Active | Degraded => true | _ => false end.

Definition is_valid_transition (s target : ProviderInstanceStatus) : bool :=
  match s, target with
  | Loading, (Active | Degraded | Offline) => true
  | Active, (Degraded | Offline) => true
  | Degraded, (Active | Offline) => true
  | _, _ => false
  end.

Record ProviderInstance := mkInstance {
  pi_id : str; pi_type_id : str; pi_name : str; pi_display_name : str; pi_description : option str;
  pi_status : ProviderInstanceStatus; pi_config : ProviderInstanceConfig;
  pi_constraints : InstanceConstraints; pi_created_at : Z; pi_updated_at : Z
}.

Definition ProviderInstance_new (now : Z) (id type name display : str) (description : option str)
    (config : ProviderInstanceConfig) (constraints : InstanceConstraints) :
    result DomainError ProviderInstance :=
  match is_valid_name name with
  | Err e => Err e
  | Ok _ => Ok (mkInstance id type name display description Loading config constraints now now)
  end.

Definition set_status (now : Z) (s : ProviderInstanceStatus) (i : ProviderInstance) : ProviderInstance :=
  mkInstance (pi_id i) (pi_type_id i) (pi_name i) (pi_display_name i) (pi_description i) s
    (pi_config i) (pi_constraints i) (pi_created_at i) now.

Definition transition_to (now : Z) (target : ProviderInstanceStatus) (i : ProviderInstance) :
    result DomainError unit * ProviderInstance :=
  if is_valid_transition (pi_status i) target then (Ok tt, set_status now target i)
  else (Err (Validation (lit "Invalid transition from " ++ debug_instance_status (pi_status i) ++
                         lit " to " ++ debug_instance_status target)), i).

Definition mark_active (now : Z) := transition_to now Active.
Definition mark_degraded (now : Z) := transition_to now Degraded.
Definition mark_offline (now : Z) := transition_to now Offline.
Definition mark_failed (now : Z) (i : ProviderInstance) : ProviderInstance := set_status now Offline i.

Definition can_accept_sandboxes (i : ProviderInstance) : bool := status_can_accept (pi_status i).

(** ** The repository *)

(** The TOML of an instance: writing may fail, reading inverts writing. *)
Class InstanceToml := {
  to_toml : ProviderInstance -> result str str;
  from_toml : str -> result str ProviderInstance;
  toml_roundtrip : forall i s, to_toml i = Ok s -> from_toml s = Ok i
}.

Inductive RepoError := RepoIo (e : str) | RepoSerialize (e : str) | RepoParse (e : str).

Inductive file_op := OpWrite | OpRead | OpReadDir | OpNextEntry | OpRemove.

(** The error of a file operation that fails. *)
Definition FileErrors : Type := file_op -> option str.
Definition files_ok : FileErrors := fun _ => None.

Abbreviation Directory := (gmap str (option str)).

(** [Path::extension] of a file name. *)
Definition extension (file : str) : option str :=
  match split_once (chr ".") (rev file) with
  | Some (_, []) | None => None
  | Some (ext, _) => Some (rev ext)
  end.

Definition is_toml (file : str) : bool :=
  match extension file with Some e => str_eqb e (lit "toml") | None => false end.

Definition instance_path (name : str) : str := name ++ lit ".toml".

Section Repository.
Context `{InstanceToml} `{HashOrder}.

Definition save (io : FileErrors) (d : Directory) (i : ProviderInstance) : result RepoError unit * Directory :=
  match to_toml i with
  | Err e => (Err (RepoSerialize e), d)
  | Ok content =>
      match io OpWrite with
      | Some e => (Err (RepoIo e), d)
      | None => (Ok tt, <[instance_path (pi_name i) := Some content]> d)
      end
  end.

Definition find_by_name (io : FileErrors) (d : Directory) (name : str) :
    result RepoError (option ProviderInstance) :=
  match d !! instance_path name with
  | None => Ok None
  | Some content =>
      match io OpRead, content with
      | Some e, _ => Err (RepoIo e)
      | None, None => Err (RepoIo (lit "unreadable"))
      | None, Some s =>
          match from_toml s with
          | Ok i => Ok (Some i)
          | Err e => Err (RepoParse e)
          end
      end
  end.

(** An entry of the directory that is a readable instance. *)
Definition instance_of_entry (io : FileErrors) (entry : str * option str) : option ProviderInstance :=
  if is_toml entry.1 then
    match io OpRead, entry.2 with
    | None, Some s => match from_toml s with Ok i => Some i | Err _ => None end
    | _, _ => None
    end
  else None.

Definition list_all (io : FileErrors) (d : Directory) : result RepoError (list ProviderInstance) :=
  match io OpReadDir, io OpNextEntry with
  | Some e, _ | None, Some e => Err (RepoIo e)
  | None, None => Ok (omap (instance_of_entry io) (hash_iter _ d))
  end.

Definition find_by_id (io : FileErrors) (d : Directory) (id : str) :
    result RepoError (option ProviderInstance) :=
  match list_all io d with
  | Err e => Err e
  | Ok all => Ok (List.find (fun i => str_eqb (pi_id i) id) all)
  end.

Definition list_by_type (io : FileErrors) (d : Directory) (type : str) :
    result RepoError (list ProviderInstance) :=
  match list_all io d with
  | Err e => Err e
  | Ok all => Ok (List.filter (fun i => str_eqb (pi_type_id i) type) all)
  end.

(** The file removed is the one the instance's own name says; a file that is not
    there is an error of the removal. *)
Definition repo_delete (io : FileErrors) (d : Directory) (id : str) : result RepoError unit * Directory :=
  match list_all io d with
  | Err e => (Err e, d)
  | Ok all =>
      match List.find (fun i => str_eqb (pi_id i) id) all with
      | None => (Ok tt, d)
      | Some i =>
          match io OpRemove, d !! instance_path (pi_name i) with
          | Some e, _ => (Err (RepoIo e), d)
          | None, None => (Err (RepoIo (lit "No such file or directory")), d)
          | None, Some _ => (Ok tt, delete (instance_path (pi_name i)) d)
          end
      end
  end.
End Repository.

(** ** Providers of a process *)

(** [ProviderConfig] of a TOML file. *)
Record CapabilitiesConfig := mkCapabilitiesConfig {
  cf_snapshots : option bool; cf_streaming : option bool; cf_startup_ms : option Z;
  cf_memory_mb : option Z; cf_cpu_count : option Z; cf_kvm : option bool
}.

(** [into_domain]; a configured zero is a panic. *)
Definition into_domain (c : CapabilitiesConfig) : option ProviderCapabilities :=
  expect_ok (try_new (default false (cf_snapshots c)) (default true (cf_streaming c)) false 86400000
    (default 16384%Z (cf_memory_mb c)) (default 16%Z (cf_cpu_count c)) true (default false (cf_kvm c))
    (default 1500%Z (cf_startup_ms c))).

Record ProviderConfig := mkProviderConfig {
  cfg_name : str; cfg_kind : str; cfg_plugin : str; cfg_default : option bool; cfg_socket : option str;
  cfg_image : option str; cfg_worker_binary : option str; cfg_capabilities : CapabilitiesConfig
}.

(** What a provider is constructed with. *)
Inductive construction :=
| NewPodman (socket image worker_binary : str)
| NewGVisor (runsc image rootfs_dir worker_binary gateway : str)
| NewFirecracker (binary kernel rootfs vm_dir worker_binary gateway : str)
| NewLocal (base_dir : str)
| NewWasm.

(** The host and the constructors of the providers. *)
Class Host := {
  provider : Type;
  construct : construction -> result str provider;
  capabilities_of : provider -> ProviderCapabilities;
  path_exists : str -> bool;
  temp_dir : str;
  wasm_sandbox : bool   (** the feature *)
}.

Section Providers.
Context `{Host}.

Record ProviderFactory := mkFactory { pf_providers : gmap str provider; pf_default : str }.

Definition ProviderFactory_new (default_provider : str) : ProviderFactory := mkFactory ∅ default_provider.
Definition factory_register (name : str) (p : provider) (f : ProviderFactory) : ProviderFactory :=
  mkFactory (<[name := p]> (pf_providers f)) (pf_default f).
Definition factory_get (f : ProviderFactory) (name : str) : option provider := pf_providers f !! name.
(** [None] is the panic of an unregistered default. *)
Definition factory_default (f : ProviderFactory) : option provider := factory_get f (pf_default f).
Definition factory_contains (f : ProviderFactory) (name : str) : bool := is_some (factory_get f name).
Definition list_providers `{HashOrder} (f : ProviderFactory) : list (str * ProviderCapabilities) :=
  map (fun '(n, p) => (n, capabilities_of p)) (hash_iter _ (pf_providers f)).

Record ProviderRegistry := mkProviderRegistry {
  pr_factory : ProviderFactory; pr_configs : gmap str ProviderConfig
}.

Definition ProviderRegistry_new (f : ProviderFactory) : ProviderRegistry := mkProviderRegistry f ∅.

Definition firecracker_binary_of (c : ProviderConfig) : str :=
  match cfg_socket c with
  | Some sock => sock
  | None =>
      default (lit "/home/rubentxu/.local/bin/firecracker")
        (List.find path_exists [lit "/usr/bin/firecracker"; lit "/usr/local/bin/firecracker"])
  end.

Definition gateway_addr : str := lit "127.0.0.1:50052".
Definition release_worker (c : ProviderConfig) : str :=
  default (lit "target/release/bastion-worker") (cfg_worker_binary c).

(** [instantiate_provider]; the error is the text of [RegistryError::Watcher]. *)
Definition instantiate_provider (c : ProviderConfig) : result str provider :=
  if str_eqb (cfg_kind c) (lit "podman") then
    construct (NewPodman (default (lit "/run/user/1000/podman/podman.sock") (cfg_socket c))
      (default (lit "debian:bookworm-slim") (cfg_image c))
      (default (lit "target/debug/bastion-worker") (cfg_worker_binary c)))
  else if str_eqb (cfg_kind c) (lit "gvisor") then
    construct (NewGVisor (lit "/usr/local/bin/runsc") (default (lit "debian") (cfg_image c))
      (lit "/tmp/bastion-gvisor-rootfs") (release_worker c) gateway_addr)
  else if str_eqb (cfg_kind c) (lit "firecracker") then
    construct (NewFirecracker (firecracker_binary_of c) (lit "/boot/vmlinuz")
      (lit "/var/lib/bastion/firecracker/rootfs.ext4") (lit "/tmp/bastion-firecracker-vms")
      (release_worker c) gateway_addr)
  else if str_eqb (cfg_kind c) (lit "local") then
    construct (NewLocal (default (temp_dir ++ lit "/bastion-local") (cfg_socket c)))
  else if str_eqb (cfg_kind c) (lit "wasm") then
    if wasm_sandbox then construct NewWasm
    else Err (lit "wasm-sandbox feature not enabled. Rebuild with --features wasm-sandbox")
  else Err (lit "Unknown provider kind: " ++ cfg_kind c).

(** One configuration registered, or skipped when it cannot be instantiated. *)
Definition register_config (f : ProviderFactory) (e : str * ProviderConfig) : ProviderFactory :=
  match instantiate_provider e.2 with
  | Ok p => factory_register e.1 p f
  | Err _ => f
  end.

Definition register_configs `{HashOrder} (r : ProviderRegistry) : ProviderRegistry :=
  mkProviderRegistry (fold_left register_config (hash_iter _ (pr_configs r)) (pr_factory r)) (pr_configs r).

(** One entry of the directory: it cannot be listed, is not TOML, or is a file that
    decodes or does not. *)
Inductive dir_entry := EntryError (e : str) | OtherFile | TomlFile (config : result str ProviderConfig).

Inductive listing := NoDir | DirError (e : str) | DirEntries (es : list dir_entry).

(** The loop: an entry that cannot be listed ends it with what was loaded so far. *)
Fixpoint load_entries (es : list dir_entry) (configs : gmap str ProviderConfig) (loaded : N) :
    result str N * gmap str ProviderConfig :=
  match es with
  | [] => (Ok loaded, configs)
  | EntryError e :: _ => (Err e, configs)
  | OtherFile :: es' | TomlFile (Err _) :: es' => load_entries es' configs loaded
  | TomlFile (Ok c) :: es' => load_entries es' (<[cfg_name c := c]> configs) (loaded + 1)%N
  end.

Definition load_from_dir `{HashOrder} (d : listing) (r : ProviderRegistry) : result str N * ProviderRegistry :=
  match d with
  | NoDir => (Ok 0%N, r)
  | DirError e => (Err e, r)
  | DirEntries es =>
      let '(res, configs) := load_entries es (pr_configs r) 0 in
      let r' := mkProviderRegistry (pr_factory r) configs in
      match res with
      | Err e => (Err e, r')
      | Ok loaded => (Ok loaded, register_configs r')
      end
  end.

(** [reload] does not look at the disk. *)
Definition reload `{HashOrder} (r : ProviderRegistry) : nat * ProviderRegistry :=
  (size (pr_configs r), register_configs r).
End Providers.

(** ** The life of an instance *)

Inductive instance_op := MarkActive | MarkDegraded | MarkOffline | MarkFailed.

Definition op_target (op : instance_op) : ProviderInstanceStatus :=
  match op with MarkActive => Active | MarkDegraded => Degraded | _ => Offline end.

Definition apply_op (now : Z) (op : instance_op) (i : ProviderInstance) : result DomainError unit * ProviderInstance :=
  match op with
  | MarkActive => mark_active now i
  | MarkDegraded => mark_degraded now i
  | MarkOffline => mark_offline now i
  | MarkFailed => (Ok tt, mark_failed now i)
  end.

Definition run_ops (ops : list (Z * instance_op)) (i : ProviderInstance) : ProviderInstance :=
  fold_left (fun i '(now, op) => snd (apply_op now op i)) ops i.

Definition identity_of (i : ProviderInstance) :=
  (pi_id i, pi_type_id i, pi_name i, pi_display_name i, pi_description i, pi_config i,
   pi_constraints i, pi_created_at i).

Lemma apply_op_spec now op i :
  let '(r, i') := apply_op now op i in
  identity_of i' = identity_of i /\
  match r with
  | Ok _ => pi_status i' = op_target op /\ pi_updated_at i' = now /\
            (op = MarkFailed \/ is_valid_transition (pi_status i) (op_target op) = true)
  | Err _ => i' = i /\ op ≠ MarkFailed /\ is_valid_transition (pi_status i) (op_target op) = false
  end.
Proof.
  destruct op; cbn [apply_op op_target]; unfold mark_active, mark_degraded, mark_offline, transition_to;
    try (destruct (is_valid_transition _ _) eqn:E); split; auto.
Qed.

(** An instance keeps its identity through every operation; each succeeds
    exactly when the transition is allowed (marking it failed always is), changes
    the status to its target and stamps the time, or changes nothing; and one that
    is offline stays offline whatever follows, so it never accepts a sandbox
    again. *)
Theorem instance_lifecycle :
  (forall now op i,
     let '(r, i') := apply_op now op i in
     identity_of i' = identity_of i /\
     match r with
     | Ok _ => pi_status i' = op_target op /\ pi_updated_at i' = now /\
               (op = MarkFailed \/ is_valid_transition (pi_status i) (op_target op) = true)
     | Err _ => i' = i /\ op ≠ MarkFailed /\ is_valid_transition (pi_status i) (op_target op) = false
     end) /\
  forall ops i, identity_of (run_ops ops i) = identity_of i /\
    (pi_status i = Offline ->
       pi_status (run_ops ops i) = Offline /\ can_accept_sandboxes (run_ops ops i) = false).
Proof.
  split; [exact apply_op_spec|]. unfold can_accept_sandboxes.
  intros ops. induction ops as [|[now op] ops IH]; intros i.
  { split; [done|]. intros Ho. cbn. by rewrite Ho. }
  change (run_ops ((now, op) :: ops) i) with (run_ops ops (snd (apply_op now op i))). pose proof (apply_op_spec now op i) as Hop.
  destruct (apply_op now op i) as [r i']. cbn [snd]. destruct Hop as [Hid Hr].
  destruct (IH i') as [Hid' Hoff]. split; [by rewrite Hid'|]. intros Ho. apply Hoff.
  destruct r as [u|e]; [|by destruct Hr as [-> _]].
  destruct Hr as (Hs & _ & [->|Hv]); [done|]. by rewrite Ho in Hv.
Qed.

(** Degrading what is degraded is refused. *)
Example degraded_twice : is_valid_transition Degraded Degraded = false.
Proof. reflexivity. Qed.

(** ** What the repository remembers *)

Section RepositoryFacts.
Context `{InstanceToml} `{HashOrder}.

(** Every file that reads as an instance bears its name. *)
Definition well_named (d : Directory) : Prop :=
  forall file s i, d !! file = Some (Some s) -> is_toml file = true -> from_toml s = Ok i ->
    file = instance_path (pi_name i).

Lemma is_toml_path name : name ≠ [] -> is_toml (instance_path name) = true.
Proof.
  intros Hn. unfold is_toml, extension, instance_path. rewrite rev_app_distr.
  change (rev (lit ".toml") ++ rev name) with (rev (lit "toml") ++ chr "." :: rev name).
  assert (E : split_once (chr ".") (rev (lit "toml") ++ chr "." :: rev name) =
    Some (rev (lit "toml"), rev name)) by reflexivity.
  rewrite E. destruct (rev name) as [|c r] eqn:Er; [|reflexivity].
  by destruct Hn; apply (f_equal (@rev N)) in Er; rewrite rev_involutive in Er.
Qed.

Lemma instance_path_inj a b : instance_path a = instance_path b -> a = b.
Proof. unfold instance_path. apply app_inv_tail. Qed.

Lemma elem_of_list_all d i :
  (exists all, list_all files_ok d = Ok all /\ i ∈ all) <->
  exists file s, d !! file = Some (Some s) /\ is_toml file = true /\ from_toml s = Ok i.
Proof.
  unfold list_all. simpl. split.
  - intros (all & [= <-] & ([file c] & Hin%elem_of_hash_iter & He)%list_elem_of_omap).
    unfold instance_of_entry in He. simpl in He. destruct (is_toml file) eqn:Et; [|done].
    destruct c as [s|]; [|done]. destruct (from_toml s) as [j|] eqn:Ef; [|done].
    injection He as <-. by exists file, s.
  - intros (file & s & Hd & Ht & Hf). eexists. split; [done|]. apply list_elem_of_omap.
    exists (file, Some s). split; [by apply elem_of_hash_iter|].
    unfold instance_of_entry. simpl. by rewrite Ht, Hf.
Qed.

Lemma valid_name_nonempty name : is_valid_name name = Ok tt -> name ≠ [].
Proof. by destruct name. Qed.

(** A directory in which files are named after their instances stays so; an
    instance saved is found by its name, is listed, and takes the place of any
    other instance of that name - whatever its id - and of nothing else. *)
Theorem save_spec (d d' : Directory) (i : ProviderInstance) :
  well_named d -> is_valid_name (pi_name i) = Ok tt -> save files_ok d i = (Ok tt, d') ->
  well_named d' /\ find_by_name files_ok d' (pi_name i) = Ok (Some i) /\
  (forall name, name ≠ pi_name i -> find_by_name files_ok d' name = find_by_name files_ok d name) /\
  forall j, (exists all, list_all files_ok d' = Ok all /\ j ∈ all) <->
    j = i \/ (pi_name j ≠ pi_name i /\ exists all, list_all files_ok d = Ok all /\ j ∈ all).
Proof.
  intros Hd Hv%valid_name_nonempty. unfold save.
  destruct (to_toml i) as [content|] eqn:Et; [|done]. simpl. intros [= <-].
  pose proof (toml_roundtrip i content Et) as Hr.
  split; [|split; [|split]].
  - intros file s j. destruct (decide (file = instance_path (pi_name i))) as [->|Hne].
    + rewrite lookup_insert_eq. intros [= <-] _ Hj. congruence.
    + rewrite lookup_insert_ne by done. apply Hd.
  - unfold find_by_name. rewrite lookup_insert_eq. simpl. by rewrite Hr.
  - intros name Hne. unfold find_by_name.
    by rewrite lookup_insert_ne by (intros E%instance_path_inj; by destruct Hne).
  - intros j. rewrite !elem_of_list_all. split.
    + intros (file & s & Hf & Ht & Hj). destruct (decide (file = instance_path (pi_name i))) as [->|Hne].
      * rewrite lookup_insert_eq in Hf. injection Hf as <-. left. congruence.
      * rewrite lookup_insert_ne in Hf by done. right. split; [|by exists file, s].
        intros E. apply Hne. rewrite <- E. by eapply Hd.
    + intros [->|[Hne (file & s & Hf & Ht & Hj)]].
      * exists (instance_path (pi_name i)), content. rewrite lookup_insert_eq.
        split; [done|]. split; [by apply is_toml_path|done].
      * exists file, s. split; [|done]. rewrite lookup_insert_ne; [done|]. intros <-.
        apply Hne. symmetry. by eapply instance_path_inj, Hd.
Qed.

(** Deleting an id removes one instance that bears it, with every other left
    as it was, and succeeds without effect when none does. *)
Theorem delete_spec (d : Directory) (id : str) :
  well_named d ->
  let '(r, d') := repo_delete files_ok d id in
  r = Ok tt /\ well_named d' /\
  ((d' = d /\ forall all j, list_all files_ok d = Ok all -> j ∈ all -> pi_id j ≠ id) \/
   exists i, pi_id i = id /\ find_by_name files_ok d (pi_name i) = Ok (Some i) /\
     find_by_name files_ok d' (pi_name i) = Ok None /\
     forall j, (exists all, list_all files_ok d' = Ok all /\ j ∈ all) <->
       pi_name j ≠ pi_name i /\ exists all, list_all files_ok d = Ok all /\ j ∈ all).
Proof.
  intros Hd. unfold repo_delete. destruct (list_all files_ok d) as [all|] eqn:El; [|done].
  destruct (List.find _ all) as [i|] eqn:Ef.
  - apply find_some in Ef as [Hin Hid%str_eqb_eq]. apply list_elem_of_In in Hin.
    destruct (proj1 (elem_of_list_all d i)) as (file & s & Hf & Ht & Hi); [by exists all|].
    assert (file = instance_path (pi_name i)) as -> by by eapply Hd. rewrite Hf. simpl.
    split; [done|]. split.
    { intros file' s' j. rewrite lookup_delete_Some. intros [_ ?]. by apply Hd. }
    right. exists i. split; [done|]. split; [unfold find_by_name; rewrite Hf; simpl; by rewrite Hi|].
    split; [unfold find_by_name; by rewrite lookup_delete_eq|].
    intros j. rewrite elem_of_list_all, <- El, elem_of_list_all. split.
    + intros (file & s' & Hf' & Ht' & Hj). apply lookup_delete_Some in Hf' as [Hne Hf'].
      split; [|by exists file, s']. intros E. apply Hne. rewrite <- E. symmetry. by eapply Hd.
    + intros [Hne (file & s' & Hf' & Ht' & Hj)]. exists file, s'. split; [|done].
      apply lookup_delete_Some. split; [|done]. intros <-. apply Hne.
      symmetry. by eapply instance_path_inj, Hd.
  - split; [done|]. split; [done|]. left. split; [done|]. intros all' j [= <-] Hj Hid.
    pose proof (find_none _ _ Ef j) as Hn. cbv beta in Hn.
    rewrite Hid, str_eqb_refl in Hn. by apply list_elem_of_In in Hj; apply Hn in Hj.
Qed.
End RepositoryFacts.

(** ** What the registry holds after loading *)

(** The configurations decoded before an entry that cannot be listed. *)
Fixpoint decoded (es : list dir_entry) : list ProviderConfig :=
  match es with
  | [] | EntryError _ :: _ => []
  | TomlFile (Ok c) :: es' => c :: decoded es'
  | _ :: es' => decoded es'
  end.

Definition first_error (es : list dir_entry) : option str :=
  head (omap (fun e => match e with EntryError m => Some m | _ => None end) es).

(** The last configuration of a name. *)
Definition last_config (cs : list ProviderConfig) (name : str) : option ProviderConfig :=
  List.find (fun c => str_eqb (cfg_name c) name) (rev cs).

Section RegistryFacts.
Context `{Host} `{HashOrder}.

Lemma fold_register_other l f name : name ∉ map fst l ->
  pf_providers (fold_left register_config l f) !! name = pf_providers f !! name.
Proof.
  revert f. induction l as [|[n c] l IH]; intros f Hn; [done|]. cbn [fold_left].
  apply not_elem_of_cons in Hn as [Hne Hn]. rewrite IH by done. unfold register_config. simpl.
  destruct (instantiate_provider c); [|done]. by apply lookup_insert_ne.
Qed.

Lemma register_configs_lookup r name :
  pf_providers (pr_factory (register_configs r)) !! name =
  match pr_configs r !! name with
  | Some c => match instantiate_provider c with
              | Ok p => Some p
              | Err _ => pf_providers (pr_factory r) !! name
              end
  | None => pf_providers (pr_factory r) !! name
  end.
Proof.
  unfold register_configs. cbn [pr_factory].
  pose proof (hash_iter_nodup (pr_configs r)) as Hnd.
  assert (Hin : forall c, (name, c) ∈ hash_iter _ (pr_configs r) <-> pr_configs r !! name = Some c)
    by (intros c; apply elem_of_hash_iter).
  destruct (pr_configs r !! name) as [c|] eqn:Hc.
  - assert (Hl : (name, c) ∈ hash_iter _ (pr_configs r)) by by apply Hin.
    clear Hin Hc. revert Hnd Hl. generalize (pr_factory r).
    generalize (hash_iter _ (pr_configs r)). intros l. induction l as [|[n c'] l IH]; intros f Hnd Hl.
    { by apply elem_of_nil in Hl. }
    apply NoDup_cons in Hnd as [Hn Hnd]. cbn [fold_left].
    apply elem_of_cons in Hl as [[= <- <-]|Hl].
    + rewrite fold_register_other by done. unfold register_config. simpl.
      destruct (instantiate_provider c); [|done]. apply lookup_insert_eq.
    + rewrite (IH _ Hnd Hl). destruct (instantiate_provider c); [done|].
      unfold register_config. simpl. destruct (instantiate_provider c'); [|done].
      apply lookup_insert_ne. intros ->. apply Hn, list_elem_of_fmap. by exists (name, c).
  - apply fold_register_other. intros ([n c] & -> & Hl)%list_elem_of_fmap. simpl in *.
    apply Hin in Hl. done.
Qed.
Lemma load_entries_spec es configs k :
  let '(res, configs') := load_entries es configs k in
  res = match first_error es with Some e => Err e | None => Ok (k + N.of_nat (length (decoded es)))%N end /\
  forall name, configs' !! name = match last_config (decoded es) name with
                                 | Some c => Some c | None => configs !! name end.
Proof.
  revert configs k. induction es as [|[e| |[c|e]] es IH]; intros configs k; cbn [load_entries decoded];
    [split; [cbn; by rewrite N.add_0_r|done]|done|exact (IH configs k)| |exact (IH configs k)].
  specialize (IH (<[cfg_name c:=c]> configs) (k + 1)%N).
  destruct (load_entries es _ _) as [res configs']. destruct IH as [-> IH]. split.
  - change (first_error (TomlFile (Ok c) :: es)) with (first_error es).
    destruct (first_error es); [done|]. f_equal. cbn [length]. lia.
  - intros name. rewrite IH. unfold last_config. cbn [rev]. rewrite find_app. simpl.
    destruct (List.find _ (rev (decoded es))); [done|].
    destruct (str_eqb (cfg_name c) name) eqn:E.
    + apply str_eqb_eq in E as <-. apply lookup_insert_eq.
    + apply lookup_insert_ne. intros <-. by rewrite str_eqb_refl in E.
Qed.

(** Loading a directory counts the files that decode and keeps, of each name,
    the last one decoded; a listing that fails leaves the providers as they were; a
    complete one then gives every configured name the provider its configuration
    constructs, unless that fails, in which case the name keeps the one it had. *)
Theorem registry_load (d : listing) (r : ProviderRegistry) :
  let '(res, r') := load_from_dir d r in
  match d with
  | NoDir => res = Ok 0%N /\ r' = r
  | DirError e => res = Err e /\ r' = r
  | DirEntries es =>
      (forall name, pr_configs r' !! name = match last_config (decoded es) name with
                                          | Some c => Some c | None => pr_configs r !! name end) /\
      match first_error es with
      | Some e => res = Err e /\ pr_factory r' = pr_factory r
      | None =>
          res = Ok (N.of_nat (length (decoded es))) /\
          forall name, factory_get (pr_factory r') name =
            match pr_configs r' !! name with
            | Some c => match instantiate_provider c with
                        | Ok p => Some p | Err _ => factory_get (pr_factory r) name end
            | None => factory_get (pr_factory r) name
            end
      end
  end.
Proof.
  destruct d as [|e|es]; [done|done|]. cbn [load_from_dir].
  pose proof (load_entries_spec es (pr_configs r) 0) as Hl.
  destruct (load_entries es (pr_configs r) 0) as [res configs]. destruct Hl as [-> Hl].
  destruct (first_error es); (split; [exact Hl|]); (split; [done|]); [done|].
  intros name. exact (register_configs_lookup (mkProviderRegistry (pr_factory r) configs) name).
Qed.
End RegistryFacts.

(** ** Concrete inputs *)

#[export] Instance ProviderInstance_eq_dec : EqDecision ProviderInstance.
Proof. solve_decision. Defined.

Definition sample_instance (id name : str) : ProviderInstance :=
  mkInstance id (lit "podman") name name None Active config_podman InstanceConstraints_new 0 0.

(** A text form that keeps the id and the name, of the instances that differ in
    nothing else. *)
Definition id_and_name (s : str) : ProviderInstance :=
  let '(id, name) := span (fun c => negb (c =? 0)%N) s in sample_instance id (List.tl name).

Definition sample_toml : InstanceToml.
Proof.
  refine {| to_toml := fun i =>
              let s := pi_id i ++ 0%N :: pi_name i in
              if decide (id_and_name s = i) then Ok s else Err (lit "unsupported");
            from_toml := fun s => Ok (id_and_name s) |}.
  intros i s. simpl. case_decide as E; [|done]. intros [= <-]. by f_equal.
Defined.

Lemma save_spec_witness :
  let d : Directory := <[lit "a.toml" := Some (lit "1" ++ 0%N :: lit "a")]> ∅ in
  let i := sample_instance (lit "2") (lit "b") in
  find_by_name (H:=sample_toml) files_ok (snd (save (H:=sample_toml) files_ok d i)) (lit "b") = Ok (Some i).
Proof.
  intros d i. assert (Hd : well_named (H:=sample_toml) d).
  { intros file s j. subst d. rewrite lookup_insert_Some, lookup_empty. intros [[<- [= <-]]|[_ ?]]; [|done].
    by intros _ [= <-]. }
  destruct (save (H:=sample_toml) files_ok d i) as [r d'] eqn:E.
  assert (r = Ok tt) as -> by (vm_compute in E; congruence).
  exact (proj1 (proj2 (@save_spec sample_toml some_order d d' i Hd eq_refl E))).
Defined.

Lemma delete_spec_witness :
  @well_named sample_toml ∅ /\ fst (repo_delete (H:=sample_toml) (H0:=some_order) files_ok ∅ (lit "1")) = Ok tt.
Proof.
  assert (Hd : @well_named sample_toml ∅) by (intros file s i; by rewrite lookup_empty).
  split; [exact Hd|]. pose proof (@delete_spec sample_toml some_order ∅ (lit "1") Hd) as Hs.
  destruct (repo_delete _ _ _) as [r d']. exact (proj1 Hs).
Defined.

(** Saving an instance under the name of another loses the other. *)
Example save_replaces :
  let d1 := snd (save (H:=sample_toml) files_ok ∅ (sample_instance (lit "1") (lit "a"))) in
  let d2 := snd (save (H:=sample_toml) files_ok d1 (sample_instance (lit "2") (lit "a"))) in
  find_by_id (H:=sample_toml) (H0:=some_order) files_ok d1 (lit "1")
    = Ok (Some (sample_instance (lit "1") (lit "a"))) /\
  find_by_id (H:=sample_toml) (H0:=some_order) files_ok d2 (lit "1") = Ok None.
Proof. by vm_compute. Qed.
