(* ===== verification/SandboxDb.v ===== *)
(** * The database of sandboxes

    Models [bastion-infrastructure/src/persistence/sqlite_repository.rs]: the
    repository of sandboxes over one SQLite table, with the reconciliation of
    the table with a provider.  The table is a finite map from the primary key
    to the row; its columns [project_id] and [purpose] are never written and are
    left out.  A statement may fail ([SandboxSql]); the rows of a [SELECT] come
    out in any order ([HashOrder]).  The texts of JSON and of times are those of
    third-party code ([SandboxText]). *)

From S2P Require Import Prelude Sandbox SandboxRepo Normalizer RunStore ProviderTypes.

(** ** Texts *)

(** Serialization: it may fail, but what it produces is read back.  RFC 3339
    has years of four digits: the text of such a time is read back, and two such
    times are ordered like their texts, which end in the same offset.  The text
    of a time of another year starts with the sign of the year, which comes
    before every digit, and is refused. *)
Class SandboxText `{CH : Chrono} := {
  resources_to_json : ResourcesSpec -> result str str;
  resources_from_json : str -> result str ResourcesSpec;
  network_to_json : NetworkSpec -> result str str;
  network_from_json : str -> result str NetworkSpec;
  metadata_to_json : gmap str str -> result str str;
  metadata_from_json : str -> result str (gmap str str);
  status_from_json : str -> result str SandboxStatus;
  to_rfc3339 : DateTime -> str;
  from_rfc3339 : str -> result str DateTime;
  four_digit_year : DateTime -> bool
}.

Class SandboxTextLaws `{CH : Chrono} `{TXT : !@SandboxText CH} := {
  resources_roundtrip : forall x s, resources_to_json x = Ok s -> resources_from_json s = Ok x;
  network_roundtrip : forall x s, network_to_json x = Ok s -> network_from_json s = Ok x;
  metadata_roundtrip : forall x s, metadata_to_json x = Ok s -> metadata_from_json s = Ok x;
  status_roundtrip : forall x, status_from_json (34%N :: status_display x ++ [34%N]) = Ok x;
  rfc3339_roundtrip : forall x, four_digit_year x = true -> from_rfc3339 (to_rfc3339 x) = Ok x;
  rfc3339_refused : forall x, four_digit_year x = false -> is_ok (from_rfc3339 (to_rfc3339 x)) = false;
  rfc3339_order : forall x y, four_digit_year x = true -> four_digit_year y = true ->
    str_ltb (to_rfc3339 x) (to_rfc3339 y) = dt_gt y x;
  rfc3339_sign : forall x y, four_digit_year x = false -> four_digit_year y = true ->
    str_ltb (to_rfc3339 x) (to_rfc3339 y) = true
}.

(** ** The table *)

Record SandboxRow := mkSandboxRow {
  sr_id : str; sr_template_id : str; sr_provider_id : str; sr_status : str; sr_created_at : str;
  sr_expires_at : option str; sr_resources : str; sr_network : str; sr_metadata : str
}.

Abbreviation SandboxTable := (gmap str SandboxRow).

Inductive sandbox_sql :=
| SqlExists | SqlInsert | SqlFind | SqlUpdate | SqlDelete
| SqlPrepareActive | SqlQueryActive | SqlPrepareExpired | SqlQueryExpired | SqlRow
| SqlPrepareList | SqlQueryList | SqlPrepareStop | SqlStop.

(** The text of the error of a statement that fails, and that of an insertion
    whose key is there. *)
Record SandboxSql := mkSandboxSql { sql_error : sandbox_sql -> option str; key_exists : str }.
Definition sql_ok : SandboxSql := mkSandboxSql (fun _ => None) (lit "UNIQUE constraint failed").

Section SandboxDb.
Context `{CH : Chrono} `{TXT : !@SandboxText CH} `{ORDER : HashOrder}.
Variable db : SandboxSql.

Definition internal {A} (what : string) (e : str) : result DomainError A := Err (Internal (lit what ++ e)).

(** [?] after [map_err]. *)
Definition or_internal {A} (what : string) (r : result str A) : result DomainError A :=
  match r with Ok a => Ok a | Err e => internal what e end.

Definition statement {A} (s : sandbox_sql) (what : string) (r : result DomainError A) : result DomainError A :=
  match sql_error db s with Some e => internal what e | None => r end.

(** ** Rows *)

(** The columns of a sandbox; the three serializations in this order. *)
Definition row_of_sandbox (sb : Sandbox) : result DomainError SandboxRow :=
  r ← or_internal "Failed to serialize resources: " (resources_to_json (resources sb));
  n ← or_internal "Failed to serialize network: " (network_to_json (network sb));
  m ← or_internal "Failed to serialize metadata: " (metadata_to_json (metadata sb));
  Ok (mkSandboxRow (sb_id sb) (template_id sb) (provider_id sb) (status_display (status sb))
        (to_rfc3339 (created_at sb)) (option_map to_rfc3339 (expires_at sb)) r n m).

Definition read_expiry (s : option str) : result DomainError (option DateTime) :=
  match s with
  | None => Ok None
  | Some s => t ← or_internal "Failed to parse expires_at: " (from_rfc3339 s); Ok (Some t)
  end.

(** A sandbox that is read has no instance, project or purpose. *)
Definition row_to_sandbox (row : SandboxRow) : result DomainError Sandbox :=
  st ← match status_from_json (34%N :: sr_status row ++ [34%N]) with
       | Ok s => Ok s
       | Err e => Err (Internal (lit "Failed to parse status '" ++ sr_status row ++ lit "': " ++ e))
       end;
  r ← or_internal "Failed to deserialize resources: " (resources_from_json (sr_resources row));
  n ← or_internal "Failed to deserialize network: " (network_from_json (sr_network row));
  m ← or_internal "Failed to deserialize metadata: " (metadata_from_json (sr_metadata row));
  created ← or_internal "Failed to parse created_at: " (from_rfc3339 (sr_created_at row));
  expires ← read_expiry (sr_expires_at row);
  Ok (mkSandbox (sr_id row) (sr_template_id row) (sr_provider_id row) None st created expires r n m None None).

Fixpoint rows_to_sandboxes (rows : list SandboxRow) : result DomainError (list Sandbox) :=
  match rows with
  | [] => Ok []
  | row :: rows' =>
      statement SqlRow "Failed to read row: " (
        sb ← row_to_sandbox row; rest ← rows_to_sandboxes rows'; Ok (sb :: rest))
  end.

(** ** Operations of the port *)

Definition row_exists (id : str) (t : SandboxTable) : bool :=
  match sql_error db SqlExists with
  | Some _ => false
  | None => match t !! id with Some _ => true | None => false end
  end.

Definition insert_sandbox (sb : Sandbox) (t : SandboxTable) : result DomainError unit * SandboxTable :=
  match row_of_sandbox sb with
  | Err e => (Err e, t)
  | Ok row =>
      match sql_error db SqlInsert, t !! sb_id sb with
      | Some e, _ => (internal "Failed to insert sandbox: " e, t)
      | None, Some _ => (internal "Failed to insert sandbox: " (key_exists db), t)
      | None, None => (Ok tt, <[sb_id sb := row]> t)
      end
  end.

Definition db_save (sb : Sandbox) (t : SandboxTable) : result DomainError unit * SandboxTable :=
  if row_exists (sb_id sb) t then (Err (AlreadyExists (sb_id sb)), t) else insert_sandbox sb t.

Definition db_find_by_id (id : str) (t : SandboxTable) : result DomainError (option Sandbox) * SandboxTable :=
  (statement SqlFind "Failed to query sandbox: " (
     match t !! id with
     | None => Ok None
     | Some row => sb ← row_to_sandbox row; Ok (Some sb)
     end), t).

Definition db_update (sb : Sandbox) (t : SandboxTable) : result DomainError unit * SandboxTable :=
  match row_of_sandbox sb with
  | Err e => (Err e, t)
  | Ok row =>
      match sql_error db SqlUpdate, t !! sb_id sb with
      | Some e, _ => (internal "Failed to update sandbox: " e, t)
      | None, None => (Err (NotFound (sb_id sb)), t)
      | None, Some _ => (Ok tt, <[sb_id sb := row]> t)
      end
  end.

Definition db_delete (id : str) (t : SandboxTable) : result DomainError unit * SandboxTable :=
  match sql_error db SqlDelete, t !! id with
  | Some e, _ => (internal "Failed to delete sandbox: " e, t)
  | None, None => (Err (NotFound id), t)
  | None, Some _ => (Ok tt, delete id t)
  end.

(** [status IN ('running', 'pending')]. *)
Definition row_active (r : SandboxRow) : bool :=
  str_eqb (sr_status r) (lit "running") || str_eqb (sr_status r) (lit "pending").

Definition db_find_active (t : SandboxTable) : result DomainError (list Sandbox) * SandboxTable :=
  (statement SqlPrepareActive "Failed to prepare statement: " (
   statement SqlQueryActive "Failed to query sandboxes: " (
     rows_to_sandboxes (List.filter row_active (map snd (hash_iter _ t))))), t).

(** The times are compared as texts. *)
Definition row_expired (now : str) (r : SandboxRow) : bool :=
  match sr_expires_at r with Some e => str_ltb e now | None => false end.

Definition db_find_expired (now : DateTime) (t : SandboxTable) :
    result DomainError (list Sandbox) * SandboxTable :=
  (statement SqlPrepareExpired "Failed to prepare statement: " (
   statement SqlQueryExpired "Failed to query expired sandboxes: " (
     rows_to_sandboxes (List.filter (fun r => row_active r && row_expired (to_rfc3339 now) r)
       (map snd (hash_iter _ t))))), t).

(** ** Reconciliation with a provider *)

(** The ids of the running rows that the provider does not list. *)
Definition gone_ids (provider_ids : list str) (t : SandboxTable) : list str :=
  map fst (List.filter (fun kr => negb (existsb (str_eqb (fst kr)) provider_ids) &&
                                  str_eqb (sr_status (snd kr)) (lit "running")) (hash_iter _ t)).

Definition stop_row (r : SandboxRow) : SandboxRow :=
  mkSandboxRow (sr_id r) (sr_template_id r) (sr_provider_id r) (lit "stopped") (sr_created_at r)
    (sr_expires_at r) (sr_resources r) (sr_network r) (sr_metadata r).

Fixpoint stop_rows (ids : list str) (t : SandboxTable) : result DomainError unit * SandboxTable :=
  match ids with
  | [] => (Ok tt, t)
  | id :: ids' =>
      match sql_error db SqlPrepareStop, sql_error db SqlStop with
      | Some e, _ => (internal "Failed to prepare update: " e, t)
      | None, Some e => (internal "Failed to update sandbox: " e, t)
      | None, None => stop_rows ids' (alter stop_row id t)
      end
  end.

Fixpoint insert_missing (sbs : list Sandbox) (t : SandboxTable) : result DomainError unit * SandboxTable :=
  match sbs with
  | [] => (Ok tt, t)
  | sb :: sbs' =>
      if row_exists (sb_id sb) t then insert_missing sbs' t
      else
        match insert_sandbox sb t with
        | (Ok _, t) => insert_missing sbs' t
        | (Err e, t) => (Err e, t)
        end
  end.

(** [listed] is what the provider answers. *)
Definition sync_from_provider (listed : result DomainError (list Sandbox)) (t : SandboxTable) :
    result DomainError unit * SandboxTable :=
  match listed with
  | Err e => (internal "Provider list_sandboxes failed: " (show_error e), t)
  | Ok provider_sandboxes =>
      match statement SqlPrepareList "Failed to prepare statement: " (
            statement SqlQueryList "Failed to query sandboxes: " (
            if bool_decide (t = ∅) then Ok tt
            else statement SqlRow "Failed to read row: " (Ok tt))) with
      | Err e => (Err e, t)
      | Ok _ =>
          match stop_rows (gone_ids (map sb_id provider_sandboxes) t) t with
          | (Err e, t) => (Err e, t)
          | (Ok _, t) => insert_missing provider_sandboxes t
          end
      end
  end.

(** The port over the table; [now] is the reading of the clock. *)
Definition db_repository (now : DateTime) : SandboxRepository SandboxTable := {|
  repo_save := db_save;
  repo_find_by_id := db_find_by_id;
  repo_update := db_update;
  repo_delete := db_delete;
  repo_find_active := db_find_active;
  repo_find_expired := db_find_expired now
|}.
End SandboxDb.

(** ** What the table holds *)

Section View.
Context `{CH : Chrono} `{TXT : !@SandboxText CH} `{ORDER : HashOrder} `{LAWS : !@SandboxTextLaws CH TXT}.

(** What the table can keep of a sandbox. *)
Definition legacy (sb : Sandbox) : Sandbox :=
  mkSandbox (sb_id sb) (template_id sb) (provider_id sb) None (status sb) (created_at sb) (expires_at sb)
    (resources sb) (network sb) (metadata sb) None None.

Definition writable (sb : Sandbox) : bool := is_ok (row_of_sandbox sb).

(** The times of the sandbox have years of four digits. *)
Definition readable (sb : Sandbox) : bool :=
  four_digit_year (created_at sb) &&
  match expires_at sb with Some e => four_digit_year e | None => true end.

(** The row is that of the sandbox, and can be read back. *)
Definition written (sb : Sandbox) (row : SandboxRow) : Prop :=
  row_of_sandbox sb = Ok row /\ readable sb = true.

Definition decode_row (r : SandboxRow) : option Sandbox :=
  match row_to_sandbox r with Ok sb => Some sb | Err _ => None end.

Definition view (t : SandboxTable) : gmap str Sandbox := omap decode_row t.

(** Every row was written for a sandbox with times that can be read, under its id. *)
Definition wf (t : SandboxTable) : Prop :=
  forall id r, t !! id = Some r -> exists sb, written sb r /\ sb_id sb = id.

Lemma row_of_sandbox_inv (sb : Sandbox) (row : SandboxRow) : row_of_sandbox sb = Ok row ->
  exists r n m, resources_to_json (resources sb) = Ok r /\ network_to_json (network sb) = Ok n /\
    metadata_to_json (metadata sb) = Ok m /\
    row = mkSandboxRow (sb_id sb) (template_id sb) (provider_id sb) (status_display (status sb))
      (to_rfc3339 (created_at sb)) (option_map to_rfc3339 (expires_at sb)) r n m.
Proof.
  unfold row_of_sandbox, or_internal.
  destruct (resources_to_json (resources sb)) as [r|e]; [|done].
  destruct (network_to_json (network sb)) as [n|e]; [|done].
  destruct (metadata_to_json (metadata sb)) as [m|e]; [|done].
  intros [= <-]. by exists r, n, m.
Qed.

Lemma written_inv (sb : Sandbox) (row : SandboxRow) : written sb row ->
  exists r n m, resources_to_json (resources sb) = Ok r /\ network_to_json (network sb) = Ok n /\
    metadata_to_json (metadata sb) = Ok m /\
    row = mkSandboxRow (sb_id sb) (template_id sb) (provider_id sb) (status_display (status sb))
      (to_rfc3339 (created_at sb)) (option_map to_rfc3339 (expires_at sb)) r n m.
Proof. intros [E _]. by apply row_of_sandbox_inv. Qed.

(** Reading inverts writing, up to the three fields without a column. *)
Lemma sandbox_row_roundtrip (sb : Sandbox) (row : SandboxRow) :
  written sb row -> row_to_sandbox row = Ok (legacy sb).
Proof.
  intros Hw. pose proof Hw as [_ Hy]. revert Hw. intros (r & n & m & Hr & Hn & Hm & ->)%written_inv.
  unfold readable in Hy. apply andb_true_iff in Hy as [Hc He].
  unfold row_to_sandbox. cbn [sr_status sr_resources sr_network sr_metadata sr_created_at sr_expires_at].
  rewrite status_roundtrip, (resources_roundtrip _ _ Hr), (network_roundtrip _ _ Hn), (metadata_roundtrip _ _ Hm),
    rfc3339_roundtrip by done. cbn. unfold read_expiry.
  destruct (expires_at sb) as [e|] eqn:Ee; cbn; [rewrite rfc3339_roundtrip by done; cbn|];
    unfold legacy; by rewrite Ee.
Qed.

Lemma unreadable_row (sb : Sandbox) (row : SandboxRow) :
  row_of_sandbox sb = Ok row -> readable sb = false -> is_ok (row_to_sandbox row) = false.
Proof.
  intros (r & n & m & Hr & Hn & Hm & ->)%row_of_sandbox_inv. unfold readable, row_to_sandbox.
  cbn [sr_status sr_resources sr_network sr_metadata sr_created_at sr_expires_at].
  rewrite status_roundtrip, (resources_roundtrip _ _ Hr), (network_roundtrip _ _ Hn), (metadata_roundtrip _ _ Hm).
  cbn. destruct (four_digit_year (created_at sb)) eqn:Ec.
  - rewrite rfc3339_roundtrip by done. cbn. destruct (expires_at sb) as [e|]; [|done]. cbn. intros He.
    apply rfc3339_refused in He. by destruct (from_rfc3339 (to_rfc3339 e)).
  - intros _. apply rfc3339_refused in Ec. by destruct (from_rfc3339 (to_rfc3339 (created_at sb))).
Qed.

(** One row that cannot be read is the end of a listing. *)
Lemma rows_unreadable (rows : list SandboxRow) (r : SandboxRow) :
  r ∈ rows -> is_ok (row_to_sandbox r) = false -> is_ok (rows_to_sandboxes sql_ok rows) = false.
Proof.
  intros Hin Hr. induction Hin as [r rows|r r' rows Hin IH]; cbn [rows_to_sandboxes]; unfold statement;
    cbn [sql_error sql_ok]; [by destruct (row_to_sandbox r)|].
  destruct (row_to_sandbox r') as [sb|e]; [|done]. cbn. specialize (IH Hr).
  by destruct (rows_to_sandboxes sql_ok rows).
Qed.

Lemma decode_written (sb : Sandbox) (row : SandboxRow) :
  written sb row -> decode_row row = Some (legacy sb).
Proof. intros E. unfold decode_row. by rewrite (sandbox_row_roundtrip _ _ E). Qed.

Lemma view_lookup (t : SandboxTable) (id : str) : view t !! id = t !! id ≫= decode_row.
Proof. unfold view. by rewrite lookup_omap. Qed.

Lemma view_insert (t : SandboxTable) (sb : Sandbox) (row : SandboxRow) :
  written sb row -> view (<[sb_id sb := row]> t) = <[sb_id sb := legacy sb]> (view t).
Proof. intros E. unfold view. by erewrite omap_insert_Some by (by apply decode_written). Qed.

Lemma view_none (t : SandboxTable) (id : str) : wf t -> view t !! id = None <-> t !! id = None.
Proof.
  intros Hwf. rewrite view_lookup. destruct (t !! id) as [r|] eqn:E; [|done].
  destruct (Hwf id r E) as (sb & Hr & _). cbn. by rewrite (decode_written _ _ Hr).
Qed.

Lemma wf_insert (t : SandboxTable) (sb : Sandbox) (row : SandboxRow) :
  wf t -> written sb row -> wf (<[sb_id sb := row]> t).
Proof.
  intros Hwf E id r [[<- <-]|[Hne Hl]]%lookup_insert_Some; [by exists sb|by apply Hwf].
Qed.

Lemma wf_delete (t : SandboxTable) (id : str) : wf t -> wf (delete id t).
Proof. intros Hwf id' r [_ Hl]%lookup_delete_Some. by apply Hwf. Qed.

(** ** The port *)

(** What a call does to the sandboxes of the table. *)
Definition spec_step (op : InMemory.repo_op) (m : gmap str Sandbox) : gmap str Sandbox :=
  match op with
  | InMemory.OpSave sb =>
      if writable sb && bool_decide (m !! sb_id sb = None) then <[sb_id sb := legacy sb]> m else m
  | InMemory.OpUpdate sb =>
      if writable sb && negb (bool_decide (m !! sb_id sb = None)) then <[sb_id sb := legacy sb]> m else m
  | InMemory.OpDelete id => delete id m
  end.

Definition db_step (db : SandboxSql) (op : InMemory.repo_op) (t : SandboxTable) : result DomainError unit * SandboxTable :=
  match op with
  | InMemory.OpSave sb => db_save db sb t
  | InMemory.OpUpdate sb => db_update db sb t
  | InMemory.OpDelete id => db_delete db id t
  end.

(** The sandbox that a call writes can be read back. *)
Definition op_readable (op : InMemory.repo_op) : Prop :=
  match op with
  | InMemory.OpSave sb | InMemory.OpUpdate sb => readable sb = true
  | InMemory.OpDelete _ => True
  end.

(** A call that answers with an error has not changed the table. *)
Lemma db_error_keeps (db : SandboxSql) (op : InMemory.repo_op) (t : SandboxTable) :
  is_ok (fst (db_step db op t)) = false -> snd (db_step db op t) = t.
Proof.
  destruct op as [sb|sb|id]; cbn; unfold db_save, insert_sandbox, db_update, db_delete;
    repeat case_match; done.
Qed.

Lemma row_exists_ok (id : str) (t : SandboxTable) :
  wf t -> row_exists sql_ok id t = negb (bool_decide (view t !! id = None)).
Proof.
  intros Hwf. unfold row_exists. cbn. destruct (t !! id) eqn:E.
  - rewrite bool_decide_eq_false_2; [done|]. rewrite view_none by done. by rewrite E.
  - by rewrite bool_decide_eq_true_2 by (by apply view_none).
Qed.

Lemma insert_step (sb : Sandbox) (t : SandboxTable) : wf t -> readable sb = true -> view t !! sb_id sb = None ->
  wf (snd (insert_sandbox sql_ok sb t)) /\ is_ok (fst (insert_sandbox sql_ok sb t)) = writable sb /\
  view (snd (insert_sandbox sql_ok sb t)) = if writable sb then <[sb_id sb := legacy sb]> (view t) else view t.
Proof.
  intros Hwf Hy Hn. pose proof (proj1 (view_none t _ Hwf) Hn) as Ht. unfold insert_sandbox, writable.
  destruct (row_of_sandbox sb) as [row|e] eqn:E; [|done]. cbn. rewrite Ht. cbn.
  split; [by apply wf_insert|]. split; [done|]. by apply view_insert.
Qed.

Lemma db_step_ok (op : InMemory.repo_op) (t : SandboxTable) : wf t -> op_readable op ->
  wf (snd (db_step sql_ok op t)) /\ view (snd (db_step sql_ok op t)) = spec_step op (view t).
Proof.
  intros Hwf Hy. destruct op as [sb|sb|id]; cbn [db_step spec_step op_readable] in *.
  - unfold db_save. rewrite row_exists_ok by done.
    destruct (bool_decide _) eqn:Eb; cbn [negb]; [|by rewrite andb_false_r].
    apply bool_decide_eq_true in Eb. destruct (insert_step sb t Hwf Hy Eb) as (H1 & _ & H2).
    split; [done|]. by rewrite H2, andb_true_r.
  - unfold db_update, writable. destruct (row_of_sandbox sb) as [row|e] eqn:E; [|done].
    cbn [is_ok sql_error sql_ok]. destruct (t !! sb_id sb) as [r|] eqn:Et; cbn [snd].
    + rewrite bool_decide_eq_false_2 by (rewrite view_none by done; by rewrite Et).
      split; [by apply wf_insert|by apply view_insert].
    + by rewrite bool_decide_eq_true_2 by (by apply view_none).
  - unfold db_delete. cbn [sql_error sql_ok]. destruct (t !! id) as [r|] eqn:Et; cbn [snd].
    + split; [by apply wf_delete|]. unfold view. by rewrite omap_delete.
    + split; [done|]. symmetry. apply delete_id. by apply view_none.
Qed.

(** Reading the rows that a condition selects. *)
Lemma rows_decoded (rows : list SandboxRow) :
  Forall (fun r => exists sb, written sb r) rows ->
  rows_to_sandboxes sql_ok rows = Ok (omap decode_row rows).
Proof.
  induction 1 as [|r rows (sb & Hr) Hrows IH]; [done|].
  cbn [rows_to_sandboxes]. unfold statement. cbn [sql_error sql_ok].
  rewrite (sandbox_row_roundtrip _ _ Hr), IH. cbn. by rewrite (decode_written _ _ Hr).
Qed.

Lemma selected (t : SandboxTable) (keep : SandboxRow -> bool) : wf t ->
  exists l, rows_to_sandboxes sql_ok (List.filter keep (map snd (hash_iter _ t))) = Ok l /\
    forall sb, sb ∈ l <-> exists id r, t !! id = Some r /\ keep r = true /\ decode_row r = Some sb.
Proof.
  intros Hwf.
  assert (Hin : forall r, r ∈ List.filter keep (map snd (hash_iter _ t)) <->
    exists id, t !! id = Some r /\ keep r = true).
  { intros r. rewrite list_elem_of_In, filter_In, in_map_iff. split.
    - intros [([id r'] & Heq & Hi) Hk]. cbn in Heq. subst r'. exists id. split; [|done].
      rewrite <- list_elem_of_In, (hash_iter_perm _ t) in Hi. by apply elem_of_map_to_list in Hi.
    - intros (id & Ht & Hk). split; [|done]. exists (id, r). split; [done|].
      rewrite <- list_elem_of_In, (hash_iter_perm _ t). by apply elem_of_map_to_list. }
  eexists. split.
  - apply rows_decoded, Forall_forall. intros r (id & Ht & _)%Hin.
    destruct (Hwf id r Ht) as (sb & Hr & _). by exists sb.
  - intros sb. rewrite list_elem_of_omap. split.
    + intros (r & (id & Ht & Hk)%Hin & Hd). by exists id, r.
    + intros (id & r & Ht & Hk & Hd). exists r. split; [|done]. apply Hin. by exists id.
Qed.

(** When the condition on rows is one on the sandboxes they hold. *)
Lemma selected_view (t : SandboxTable) (keep : SandboxRow -> bool) (p : Sandbox -> bool) : wf t ->
  (forall k sb row, t !! k = Some row -> written sb row -> keep row = p (legacy sb)) ->
  exists l, rows_to_sandboxes sql_ok (List.filter keep (map snd (hash_iter _ t))) = Ok l /\
    forall sb, sb ∈ l <-> p sb = true /\ exists k, view t !! k = Some sb.
Proof.
  intros Hwf Hp. destruct (selected t keep Hwf) as (l & -> & Hl). exists l. split; [done|].
  intros sb. rewrite Hl. split.
  - intros (k & r & Ht & Hk & Hd). destruct (Hwf k r Ht) as (sb0 & Hr & _).
    rewrite (decode_written _ _ Hr) in Hd. injection Hd as <-. rewrite <- (Hp k sb0 r Ht Hr).
    split; [done|]. exists k. rewrite view_lookup, Ht. by apply decode_written.
  - intros (Ha & k & Hv). rewrite view_lookup in Hv. destruct (t !! k) as [r|] eqn:Ht; [|done].
    destruct (Hwf k r Ht) as (sb0 & Hr & _). cbn in Hv. exists k, r. split; [done|]. split; [|done].
    rewrite (decode_written _ _ Hr) in Hv. injection Hv as <-. by rewrite (Hp k sb0 r Ht Hr).
Qed.

Lemma row_active_written (sb : Sandbox) (row : SandboxRow) :
  written sb row -> row_active row = is_active (legacy sb).
Proof.
  intros (r & n & m & _ & _ & _ & ->)%written_inv. unfold row_active, is_active. cbn.
  by destruct (status sb).
Qed.

Lemma row_expired_written (sb : Sandbox) (row : SandboxRow) (now : DateTime) :
  written sb row -> four_digit_year now = true ->
  row_expired (to_rfc3339 now) row = is_expired now (legacy sb).
Proof.
  intros Hw Hnow. pose proof Hw as [_ [_ He]%andb_true_iff]. revert Hw.
  intros (r & n & m & _ & _ & _ & ->)%written_inv.
  unfold row_expired, is_expired. cbn. destruct (expires_at sb) as [e|]; [|done]. cbn.
  by apply rfc3339_order.
Qed.

(** A history of writes. *)
Lemma db_run_ok (ops : list InMemory.repo_op) (t : SandboxTable) : wf t -> Forall op_readable ops ->
  let t' := fold_left (fun t op => snd (db_step sql_ok op t)) ops t in
  wf t' /\ view t' = fold_left (fun m op => spec_step op m) ops (view t).
Proof.
  cbv zeta. intros Hwf Hops. revert t Hwf. induction Hops as [|op ops Hop Hops IH]; intros t Hwf; [done|].
  cbn [fold_left]. destruct (db_step_ok op t Hwf Hop) as [H1 <-]. by apply IH.
Qed.

(** A row among those selected that cannot be read. *)
Lemma listing_fails (t : SandboxTable) (keep : SandboxRow -> bool) (id : str) (sb : Sandbox) (row : SandboxRow) :
  t !! id = Some row -> row_of_sandbox sb = Ok row -> readable sb = false -> keep row = true ->
  is_ok (rows_to_sandboxes sql_ok (List.filter keep (map snd (hash_iter _ t)))) = false.
Proof.
  intros Ht Hr Hy Hk. apply (rows_unreadable _ row); [|by apply (unreadable_row sb)].
  apply list_elem_of_In, filter_In. split; [|done]. apply in_map_iff. exists (id, row). split; [done|].
  rewrite <- list_elem_of_In, (hash_iter_perm _ t). by apply elem_of_map_to_list.
Qed.

Lemma active_row (sb : Sandbox) (row : SandboxRow) :
  row_of_sandbox sb = Ok row -> row_active row = is_active sb.
Proof.
  intros (r & n & m & _ & _ & _ & ->)%row_of_sandbox_inv. unfold row_active, is_active. cbn.
  by destruct (status sb).
Qed.

(** C34. The repository over the database, when its statements do not fail.  After
    any history of writes of sandboxes whose times have years of four digits it
    is a map from ids to sandboxes without their instance, project and purpose:
    saving an id that is there and updating one that is not change nothing (the
    in-memory repository overwrites and inserts), like a sandbox that cannot be
    serialized; [find_by_id] looks the map up, [find_active] answers with the
    running and pending sandboxes (not with all of them, like the in-memory one)
    and [find_expired] with those of them whose expiry is past.  A new sandbox
    with a creation or an expiry in a year of five digits is saved all the same,
    but its row cannot be read: [find_by_id] fails for it, and, while it is
    pending or running, [find_active] fails for all of them. *)
Theorem sandbox_db_spec (ops : list InMemory.repo_op) (t : SandboxTable) (id : str) (now : DateTime) :
  wf t -> Forall op_readable ops ->
  let t' := fold_left (fun t op => snd (db_step sql_ok op t)) ops t in
  let m := fold_left (fun m op => spec_step op m) ops (view t) in
  wf t' /\ fst (db_find_by_id sql_ok id t') = Ok (m !! id) /\
  (exists l, fst (db_find_active sql_ok t') = Ok l /\
     forall sb, sb ∈ l <-> is_active sb = true /\ exists k, m !! k = Some sb) /\
  (four_digit_year now = true ->
   exists l, fst (db_find_expired sql_ok now t') = Ok l /\
     forall sb, sb ∈ l <-> is_active sb && is_expired now sb = true /\ exists k, m !! k = Some sb) /\
  (forall sb, writable sb = true -> readable sb = false -> m !! sb_id sb = None ->
   fst (db_save sql_ok sb t') = Ok tt /\
   is_ok (fst (db_find_by_id sql_ok (sb_id sb) (snd (db_save sql_ok sb t')))) = false /\
   (is_active sb = true -> is_ok (fst (db_find_active sql_ok (snd (db_save sql_ok sb t')))) = false)).
Proof.
  intros Hwf Hops. cbv zeta. destruct (db_run_ok ops t Hwf Hops) as [Hwf' <-].
  set (t' := fold_left _ ops t) in *. split; [done|]. split; [|split; [|split]].
  - unfold db_find_by_id, statement. cbn [sql_error sql_ok fst]. rewrite view_lookup.
    destruct (t' !! id) as [r|] eqn:E; [|done]. destruct (Hwf' id r E) as (sb & Hr & _).
    rewrite (sandbox_row_roundtrip _ _ Hr). cbn. by rewrite (decode_written _ _ Hr).
  - apply selected_view; [done|]. intros k sb r _ Hr. by apply row_active_written.
  - intros Hnow. apply (selected_view t' _ (fun sb => is_active sb && is_expired now sb) Hwf').
    intros k sb r Ht Hr. by rewrite (row_active_written _ _ Hr), (row_expired_written _ _ now Hr).
  - intros sb Hw Hy Hn. unfold db_save. rewrite row_exists_ok, bool_decide_eq_true_2 by done. cbn [negb].
    unfold insert_sandbox, writable in *. destruct (row_of_sandbox sb) as [row|e] eqn:Er; [|done].
    apply view_none in Hn; [|done]. cbn [sql_error sql_ok]. rewrite Hn. cbn [fst snd]. split; [done|]. split.
    + unfold db_find_by_id, statement. cbn [sql_error sql_ok fst]. rewrite lookup_insert_eq.
      pose proof (unreadable_row sb row Er Hy) as Hf. by destruct (row_to_sandbox row).
    + intros Ha. apply (listing_fails _ _ (sb_id sb) sb row); [apply lookup_insert_eq|done|done|].
      by rewrite (active_row sb).
Qed.

(** ** Reconciliation *)

Lemma stop_row_written (sb : Sandbox) (row : SandboxRow) :
  written sb row -> written (set_status Stopped sb) (stop_row row).
Proof.
  intros Hw. split; [|by destruct Hw]. revert Hw.
  intros (r & n & m & Hr & Hn & Hm & ->)%written_inv. unfold row_of_sandbox. cbn.
  by rewrite Hr, Hn, Hm.
Qed.

Lemma view_stop (t : SandboxTable) (id : str) : wf t ->
  wf (alter stop_row id t) /\ view (alter stop_row id t) = alter (set_status Stopped) id (view t).
Proof.
  intros Hwf. split.
  - intros k r Hk. destruct (decide (k = id)) as [->|Hne].
    + rewrite lookup_alter_eq in Hk. destruct (t !! id) as [r0|] eqn:E; [|done]. injection Hk as <-.
      destruct (Hwf id r0 E) as (sb & Hr & Hid). exists (set_status Stopped sb).
      split; [by apply stop_row_written|done].
    + rewrite lookup_alter_ne in Hk by done. by apply Hwf.
  - apply map_eq. intros k. rewrite view_lookup. destruct (decide (k = id)) as [->|Hne].
    + rewrite !lookup_alter_eq, view_lookup. destruct (t !! id) as [r0|] eqn:E; [|done].
      destruct (Hwf id r0 E) as (sb & Hr & _). cbn.
      by rewrite (decode_written _ _ Hr), (decode_written _ _ (stop_row_written _ _ Hr)).
    + rewrite !lookup_alter_ne by done. by rewrite view_lookup.
Qed.

Lemma stop_rows_ok (ids : list str) (t : SandboxTable) : wf t ->
  exists t', stop_rows sql_ok ids t = (Ok tt, t') /\ wf t' /\
    forall id, view t' !! id = if decide (id ∈ ids) then set_status Stopped <$> view t !! id else view t !! id.
Proof.
  revert t. induction ids as [|i ids IH]; intros t Hwf.
  - exists t. split; [done|]. split; [done|]. intros id. by rewrite decide_False by apply not_elem_of_nil.
  - cbn [stop_rows sql_error sql_ok]. destruct (view_stop t i Hwf) as [Hw Hv].
    destruct (IH _ Hw) as (t' & E & Hwf' & H). exists t'. split; [done|]. split; [done|].
    intros id. rewrite H, Hv. destruct (decide (id = i)) as [->|Hne].
    + rewrite lookup_alter_eq, (decide_True (P := i ∈ i :: ids)) by apply list_elem_of_here.
      case_decide; [|done]. by destruct (view t !! i).
    + rewrite lookup_alter_ne by done.
      destruct (decide (id ∈ ids)); [rewrite decide_True by (by apply list_elem_of_further)|
        rewrite decide_False by (by rewrite elem_of_cons; intros [?|?])]; done.
Qed.

Lemma insert_missing_ok (sbs : list Sandbox) (t : SandboxTable) : wf t -> Forall (fun sb => writable sb = true /\ readable sb = true) sbs ->
  exists t', insert_missing sql_ok sbs t = (Ok tt, t') /\ wf t' /\
    forall id, view t' !! id =
      match view t !! id with
      | Some sb => Some sb
      | None => legacy <$> List.find (fun sb => str_eqb (sb_id sb) id) sbs
      end.
Proof.
  intros Hwf Hw. revert t Hwf. induction Hw as [|sb sbs [Hsb Hy] Hw IH]; intros t Hwf.
  - exists t. split; [done|]. split; [done|]. intros id. by destruct (view t !! id).
  - cbn [insert_missing]. rewrite row_exists_ok by done.
    destruct (bool_decide_reflect (view t !! sb_id sb = None)) as [Hn|Hn]; cbn [negb].
    + destruct (insert_step sb t Hwf Hy Hn) as (H1 & H2 & H3). rewrite Hsb in H2, H3.
      destruct (insert_sandbox sql_ok sb t) as [[[]|e] t1]; [|done]. cbn [snd] in *.
      destruct (IH t1 H1) as (t' & E & Hwf' & H). exists t'. split; [done|]. split; [done|].
      intros id. rewrite H, H3. cbn [List.find]. destruct (str_eqb (sb_id sb) id) eqn:Ei.
      * apply str_eqb_eq in Ei. subst id. by rewrite lookup_insert_eq, Hn.
      * rewrite lookup_insert_ne; [done|]. intros Heq. by rewrite Heq, str_eqb_refl in Ei.
    + destruct (IH t Hwf) as (t' & E & Hwf' & H). exists t'. split; [done|]. split; [done|].
      intros id. rewrite H. cbn [List.find]. destruct (str_eqb (sb_id sb) id) eqn:Ei; [|done].
      apply str_eqb_eq in Ei. subst id. by destruct (view t !! sb_id sb).
Qed.

Lemma elem_of_gone (ids : list str) (t : SandboxTable) (id : str) : wf t ->
  id ∈ gone_ids ids t <-> id ∉ ids /\ exists sb, view t !! id = Some sb /\ status sb = Running.
Proof.
  intros Hwf. unfold gone_ids. rewrite list_elem_of_In, in_map_iff.
  assert (Hex : existsb (str_eqb id) ids = true <-> id ∈ ids).
  { rewrite existsb_exists, list_elem_of_In. split; [intros (x & Hx & ->%str_eqb_eq); done|].
    intros Hx. exists id. by rewrite str_eqb_refl. }
  assert (Hst : forall sb row, written sb row ->
    str_eqb (sr_status row) (lit "running") = true <-> status (legacy sb) = Running).
  { intros sb row (r & n & m & _ & _ & _ & ->)%written_inv. cbn. by destruct (status sb). }
  split.
  - intros ([k r] & <- & Hi%filter_In). destruct Hi as [Hi [Hn Hrun]%andb_prop]. cbn in *.
    rewrite <- list_elem_of_In, (hash_iter_perm _ t) in Hi. apply elem_of_map_to_list in Hi.
    destruct (Hwf k r Hi) as (sb & Hr & _). split; [rewrite <- Hex; by destruct (existsb _ _)|].
    exists (legacy sb). rewrite view_lookup, Hi. cbn. rewrite (decode_written _ _ Hr).
    split; [done|]. by apply (Hst sb r Hr).
  - intros (Hn & sb & Hv & Hs). rewrite view_lookup in Hv. destruct (t !! id) as [r|] eqn:Ht; [|done].
    destruct (Hwf id r Ht) as (sb0 & Hr & _). cbn in Hv. rewrite (decode_written _ _ Hr) in Hv.
    injection Hv as <-. exists (id, r). split; [done|]. apply filter_In.
    rewrite <- list_elem_of_In, (hash_iter_perm _ t). split; [by apply elem_of_map_to_list|]. cbn.
    rewrite (proj2 (Hst sb0 r Hr) Hs). rewrite <- Hex in Hn. by destruct (existsb _ _).
Qed.

(** Reconciliation with a provider that answers, when the statements do not
    fail and what it lists can be serialized and read back.  A sandbox of the table that is
    running and not listed is stopped, and this is all that happens to the
    sandboxes of the table - a pending or a paused one that the provider does
    not know stays as it is, a stopped or failed one that it does run, too; a
    listed sandbox that is not in the table is added as the provider describes
    it (the first of that id).  Doing it twice does no more than doing it
    once. *)
Theorem sync_from_provider_spec (sbs : list Sandbox) (t : SandboxTable) :
  wf t -> Forall (fun sb => writable sb = true /\ readable sb = true) sbs ->
  exists t', sync_from_provider sql_ok (Ok sbs) t = (Ok tt, t') /\ wf t' /\
    (forall id, view t' !! id =
      match view t !! id with
      | Some sb =>
          Some (if decide (status sb = Running /\ id ∉ map sb_id sbs) then set_status Stopped sb else sb)
      | None => legacy <$> List.find (fun sb => str_eqb (sb_id sb) id) sbs
      end) /\
    exists t'', sync_from_provider sql_ok (Ok sbs) t' = (Ok tt, t'') /\ view t'' = view t'.
Proof.
  intros Hwf Hw.
  assert (Hstep : forall t, wf t -> exists t', sync_from_provider sql_ok (Ok sbs) t = (Ok tt, t') /\ wf t' /\
    forall id, view t' !! id =
      match view t !! id with
      | Some sb => Some (if decide (status sb = Running /\ id ∉ map sb_id sbs) then set_status Stopped sb else sb)
      | None => legacy <$> List.find (fun sb => str_eqb (sb_id sb) id) sbs
      end).
  { clear t Hwf. intros t Hwf. unfold sync_from_provider, statement. cbn [sql_error sql_ok].
    replace (if bool_decide (t = ∅) then Ok tt else Ok tt) with (@Ok DomainError _ tt) by (by case_match).
    destruct (stop_rows_ok (gone_ids (map sb_id sbs) t) t Hwf) as (t1 & -> & Hwf1 & H1).
    destruct (insert_missing_ok sbs t1 Hwf1 Hw) as (t' & -> & Hwf' & H2).
    exists t'. split; [done|]. split; [done|]. intros id. rewrite H2, H1.
    destruct (view t !! id) as [sb|] eqn:Ev; [|by destruct (decide _)].
    destruct (decide (id ∈ gone_ids _ _)) as [Hg|Hg]; rewrite elem_of_gone in Hg by done.
    - destruct Hg as (Hn & sb' & Hv & Hs). rewrite Ev in Hv. injection Hv as <-. cbn. by rewrite decide_True.
    - rewrite decide_False; [done|]. intros [Hs Hn]. apply Hg. split; [done|]. by exists sb. }
  destruct (Hstep t Hwf) as (t' & E & Hwf' & H'). exists t'. split; [done|]. split; [done|]. split; [done|].
  destruct (Hstep t' Hwf') as (t'' & E' & _ & H''). exists t''. split; [done|]. apply map_eq. intros id.
  rewrite H''. destruct (view t' !! id) as [sb|] eqn:Ev.
  - f_equal. case_decide as Hd; [|done]. destruct Hd as [Hs Hn]. rewrite H' in Ev.
    destruct (view t !! id) as [sb0|].
    + case_decide as Hd; injection Ev as <-; [done|]. by destruct Hd.
    + destruct (List.find _ sbs) as [sb1|] eqn:Ef; [|done]. destruct Hn.
      apply find_some in Ef as [Hin <-%str_eqb_eq]. apply list_elem_of_In, in_map_iff. by exists sb1.
  - rewrite H' in Ev. destruct (view t !! id); [done|]. exact Ev.
Qed.
End View.

(** ** A demonstration *)

Module Demo.
#[local] Existing Instances Z_chrono some_order.

(** Texts of one character that codes the value. *)
Definition code {A} `{Countable A} (a : A) : str := [Npos (encode a)].
Definition uncode {A} `{Countable A} (s : str) : result str A :=
  match s with
  | [Npos p] => match decode p with Some a => Ok a | None => Err (lit "?") end
  | _ => Err (lit "?")
  end.

Lemma uncode_code {A} `{Countable A} (a : A) : uncode (code a) = Ok a.
Proof. unfold uncode, code. by rewrite decode_encode. Qed.

Definition resources_tuple (r : ResourcesSpec) : Z * Z * Z := (cpu_count r, memory_mb r, disk_mb r).
Definition network_tuple (n : NetworkSpec) : bool * list str * list str * bool * list Z :=
  (allow_internet n, allowed_hosts n, denied_hosts n, expose_ports n, exposed_ports n).

Definition statuses : list SandboxStatus := [Pending; Running; Paused; Stopped; Failed].

Definition quoted_status (s : str) : result str SandboxStatus :=
  match List.find (fun x => str_eqb s (34%N :: status_display x ++ [34%N])) statuses with
  | Some x => Ok x
  | None => Err (lit "unknown variant")
  end.

(** Times from the epoch on are in order; the years of the earlier ones do not
    have four digits, and their text comes before and is refused. *)
Definition time_text (t : Z) : str := if (0 <=? t)%Z then [Z.to_N t + 1]%N else [0%N; Z.to_N (- t)].
Definition text_time (s : str) : result str Z :=
  match s with
  | [n] => Ok (Z.of_N n - 1)%Z
  | _ => Err (lit "premature end of input")
  end.

#[export] Instance demo_text : @SandboxText Z_chrono := {|
  resources_to_json := fun r => Ok (code (resources_tuple r));
  resources_from_json := fun s => match uncode s with Ok (c, m, d) => Ok (mkResources c m d) | Err e => Err e end;
  network_to_json := fun n => Ok (code (network_tuple n));
  network_from_json := fun s => match uncode s with Ok (a, h, d, e, p) => Ok (mkNetwork a h d e p) | Err e => Err e end;
  metadata_to_json := fun m => Ok (code m);
  metadata_from_json := uncode;
  status_from_json := quoted_status;
  to_rfc3339 := time_text;
  from_rfc3339 := text_time;
  four_digit_year := fun t => (0 <=? t)%Z
|}.

#[export] Instance demo_text_laws : SandboxTextLaws.
Proof.
  split.
  - intros [c m d] s [= <-]. cbn [resources_from_json demo_text resources_tuple cpu_count memory_mb disk_mb].
    by rewrite uncode_code.
  - intros [a h d e p] s [= <-]. cbn [network_from_json demo_text network_tuple]. by rewrite uncode_code.
  - intros m s [= <-]. cbn [metadata_from_json demo_text]. apply uncode_code.
  - by intros [].
  - intros t. cbn. unfold time_text. intros Ht. rewrite Ht. apply Z.leb_le in Ht. cbn. f_equal. lia.
  - intros t. cbn. unfold time_text. by intros ->.
  - intros x y. cbn. unfold time_text. intros Hx Hy. rewrite Hx, Hy. bools. cbn. rewrite andb_false_r, orb_false_r.
    apply eq_true_iff_eq. rewrite N.ltb_lt, Z.ltb_lt. intros. lia.
  - intros x y. cbn. unfold time_text. intros Hx Hy. rewrite Hx, Hy. cbn.
    by rewrite (proj2 (N.ltb_lt 0 _)) by lia.
Defined.

(** A running sandbox of a project, and one that is still being created. *)
Definition running : @Sandbox Z_chrono :=
  set_expires_at (Some 5%Z) (set_status Running (new_with_project (lit "s1") (lit "rust") (lit "podman") None
    ResourcesSpec_default NetworkSpec_default (lit "p1") Job 0%Z)).
Definition pending : @Sandbox Z_chrono :=
  Sandbox_new (lit "s2") (lit "rust") (lit "podman") None ResourcesSpec_default NetworkSpec_default 0%Z.

Definition history : list InMemory.repo_op := [InMemory.OpSave running; InMemory.OpSave (set_status Stopped running);
  InMemory.OpUpdate (set_status Paused pending); InMemory.OpSave pending].
Definition table : SandboxTable := fold_left (fun t op => snd (db_step sql_ok op t)) history ∅.

Lemma wf_empty : wf ∅.
Proof. intros id r Hl. by rewrite lookup_empty in Hl. Qed.

(** A sandbox that is never to expire, in a time whose year has no four digits. *)
Definition endless : @Sandbox Z_chrono := set_expires_at (Some (-9)%Z)
  (Sandbox_new (lit "s9") (lit "rust") (lit "podman") None ResourcesSpec_default NetworkSpec_default 0%Z).

Lemma history_readable : Forall op_readable history.
Proof. by repeat constructor. Qed.

(** The second save changes nothing, nor does the update of [s2]; the project
    of [s1] is lost; at time 7 only [s1] has expired; saving [endless] makes the
    listing fail. *)
Lemma sandbox_db_spec_witness :
  wf table /\ fst (db_find_by_id sql_ok (lit "s1") table) = Ok (Some (legacy running)) /\
  project_id running = Some (lit "p1") /\ project_id (legacy running) = None /\
  (exists l, fst (db_find_expired sql_ok 7%Z table) = Ok l /\ legacy running ∈ l) /\
  is_ok (fst (db_find_active sql_ok (snd (db_save sql_ok endless table)))) = false.
Proof.
  destruct (sandbox_db_spec history ∅ (lit "s1") 7%Z wf_empty history_readable) as (Hwf & Hfind & _ & Hexp & Hfar).
  split; [exact Hwf|]. split; [etransitivity; [exact Hfind|vm_compute; reflexivity]|].
  split; [reflexivity|]. split; [reflexivity|]. split.
  - destruct Hexp as (l & E & Hl); [reflexivity|].
    exists l. split; [exact E|]. apply Hl. split; [reflexivity|]. exists (lit "s1"). vm_compute. reflexivity.
  - apply Hfar; [reflexivity|reflexivity|vm_compute; reflexivity|reflexivity].
Defined.

(** The provider knows neither sandbox, but a third one. *)
Definition unknown : @Sandbox Z_chrono := set_status Paused (Sandbox_new (lit "s3") (lit "go") (lit "podman") None
  ResourcesSpec_default NetworkSpec_default 1%Z).

Lemma sync_from_provider_spec_witness :
  exists t', sync_from_provider sql_ok (Ok [unknown]) table = (Ok tt, t') /\
    (status <$> view t' !! lit "s1") = Some Stopped /\ (status <$> view t' !! lit "s2") = Some Pending /\
    view t' !! lit "s3" = Some (legacy unknown).
Proof.
  destruct (sync_from_provider_spec [unknown] table) as (t' & E & _ & Hv & _).
  - apply (db_run_ok history ∅ wf_empty history_readable).
  - repeat constructor.
  - exists t'. split; [exact E|]. rewrite !Hv. split; [vm_compute; reflexivity|]. split; vm_compute; reflexivity.
Defined.
End Demo.
