(* ===== verification/CatalogStore.v ===== *)
(** * The store of enricher descriptors

    Models [bastion-infrastructure/src/enrichment/sqlite_repo.rs]: the catalog
    of enrichers and rules in three SQLite tables, which is the engine's
    [CatalogRepository] and repository of rules, and the importer that fills it
    from YAML and TOML files.

    A table is a finite map from its primary key to its rows.  A statement may
    fail ([CatalogSql]), which rolls its transaction back.  Where foreign keys
    are enforced, which SQLite decides per connection, replacing an enricher
    deletes the rows that refer to it, and a row must refer to an enricher.
    Rows come out in any order, or in any order of increasing priority
    ([SqlRows]).  The texts of JSON columns and the decoding of files are those
    of third-party code ([CatalogText]). *)

From Stdlib Require Import Sorted SpecFloat.
From stdpp Require Import sorting.
From S2P Require Import Prelude RuleParser RuleEval Sandbox Normalizer Pipeline ProviderInstances SandboxDb.

(** ** Rows *)

Record EnricherRow := mkEnricherRow {
  er_name : str; er_version : str; er_match_patterns_json : str; er_template : str; er_enabled : bool;
  er_schema_version : str; er_description : option str; er_category : option str;
  er_command_pattern : option str; er_advice_scope_json : str; er_pre_checks_json : str;
  er_assertions_json : str
}.

Record ExtractorRow := mkExtractorRow {
  xr_type : str; xr_pattern : str; xr_fact_key : str; xr_priority : Z; xr_merge_mode : str;
  xr_output_key : option str; xr_shape : option str; xr_fact_type : option str;
  xr_confidence : option float; xr_source : option str; xr_single : bool
}.

Record RuleRow := mkRuleRow {
  rr_condition : str; rr_priority : Z; rr_enabled : bool; rr_actions_json : str
}.

(** The rows of the extractors and of the rules under the id of their enricher
    and their own. *)
Record Tables := mkTables {
  t_enrichers : gmap str EnricherRow;
  t_extractors : gmap (str * str) ExtractorRow;
  t_rules : gmap (str * str) RuleRow
}.

Definition empty_tables : Tables := mkTables ∅ ∅ ∅.

Inductive catalog_sql :=
| SqlBegin | SqlInsertEnricher | SqlDeleteExtractors | SqlInsertExtractor | SqlCommit
| SqlDeleteRules | SqlInsertRule | SqlPrepareEnrichers | SqlQueryEnrichers | SqlPrepareRules | SqlQueryRules.

(** The text of the error of a statement that fails; whether foreign keys are
    enforced, and the text of a violated constraint. *)
Record CatalogSql := mkCatalogSql {
  cat_error : catalog_sql -> option str; foreign_keys : bool; constraint_failed : str
}.

Class SqlRows := {
  any_order : forall A, list A -> list A;
  any_order_perm : forall A (l : list A), Permutation (any_order A l) l;
  by_priority : list RuleConfig -> list RuleConfig;
  by_priority_perm : forall l, Permutation (by_priority l) l;
  by_priority_sorted : forall l, StronglySorted (fun a b => (RuleEval.priority a <= RuleEval.priority b)%Z) (by_priority l)
}.

(** ** Files *)

(** What a file holds, before the defaults of the fields it leaves out. *)
Inductive DocAction :=
| DocDeriveFact (key value : str) (conf : option float)
| DocSetVerdict (v : str)
| DocRecommend (r : str).

Record DocExtractor := mkDocExtractor {
  dx_id : str; dx_type : str; dx_pattern : str; dx_fact_key : str; dx_priority : option Z;
  dx_merge_mode : option str; dx_output_key : option str; dx_shape : option str;
  dx_fact_type : option str; dx_confidence : option float; dx_source : option str; dx_single : option bool
}.

Record DocRule := mkDocRule {
  dr_id : str; dr_condition : str; dr_priority : option Z; dr_enabled : option bool;
  dr_actions : option (list DocAction)
}.

Record DocEnricher := mkDocEnricher {
  de_id : str; de_name : str; de_version : str; de_match_patterns : list str; de_template : str;
  de_enabled : option bool; de_extractors : list DocExtractor; de_rules : option (list DocRule);
  de_schema_version : option str; de_description : option str; de_category : option str;
  de_command_pattern : option str; de_advice_scope : option (list str);
  de_pre_checks : option (list str); de_assertions : option (list str)
}.

(** Serialization of lists of strings and of actions; reading and decoding a
    file.  A confidence that is not finite has no text in JSON. *)
Class CatalogText := {
  strings_to_json : list str -> result str str;
  strings_from_json : str -> result str (list str);
  actions_to_json : list RuleAction -> result str str;
  actions_from_json : str -> result str (list RuleAction);
  yaml_enricher : str -> result str DocEnricher;
  toml_enricher : str -> result str DocEnricher
}.

Definition finite_float (x : float) : bool :=
  match x with S754_zero _ | S754_finite _ _ _ => true | _ => false end.
Definition finite_action (a : RuleAction) : bool :=
  match a with DeriveFact _ _ c => finite_float c | _ => true end.

Class CatalogTextLaws `{TXT : CatalogText} := {
  strings_written : forall l, exists s, strings_to_json l = Ok s /\ strings_from_json s = Ok l;
  actions_written : forall l, forallb finite_action l = true ->
    exists s, actions_to_json l = Ok s /\ actions_from_json s = Ok l
}.

Section CatalogStore.
Context `{TXT : CatalogText} `{ROWS : SqlRows} `{ORDER : HashOrder} `{RE : RegexEngine} `{UNI : UnicodeTables}.
Variable db : CatalogSql.

(** [serde_json::to_string(..).unwrap_or_else(|_| "[]")]. *)
Definition json_or_empty (r : result str str) : str := match r with Ok s => s | Err _ => lit "[]" end.
(** [serde_json::from_str(..).unwrap_or_default()]. *)
Definition or_nil {A} (r : result str (list A)) : list A := match r with Ok l => l | Err _ => [] end.

(** A transaction: when a step fails, everything is as it was. *)
Definition run_sql {A} (s : catalog_sql) (what : string) (k : result DomainError A) : result DomainError A :=
  match cat_error db s with
  | Some e => Err (Internal (lit what ++ e))
  | None => k
  end.

Definition transaction (body : result DomainError Tables) (t : Tables) : result DomainError unit * Tables :=
  match run_sql SqlBegin "Transaction error: " (t' ← body; run_sql SqlCommit "Commit failed: " (Ok t')) with
  | Ok t' => (Ok tt, t')
  | Err e => (Err e, t)
  end.

(** ** Writing *)

Definition enricher_row (e : EnricherDescriptor) : EnricherRow :=
  mkEnricherRow (en_name e) (en_version e) (json_or_empty (strings_to_json (en_match_patterns e)))
    (en_template e) (en_enabled e) (en_schema_version e) (en_description e) (en_category e)
    (en_command_pattern e) (json_or_empty (strings_to_json (en_advice_scope e)))
    (json_or_empty (strings_to_json (en_pre_checks e))) (json_or_empty (strings_to_json (en_assertions e))).

(** A confidence that is NaN is stored as NULL. *)
Definition bind_real (c : option float) : option float :=
  match c with Some S754_nan => None | _ => c end.

Definition extractor_row (x : ExtractorConfig) : ExtractorRow :=
  mkExtractorRow (ec_type x) (ec_pattern x) (ec_fact_key x) (ec_priority x) (ec_merge_mode x)
    (ec_output_key x) (ec_shape x) (ec_fact_type x) (bind_real (ec_confidence x)) (ec_source x) (ec_single x).

(** The rows that do not belong to an enricher. *)
Definition without {A} (id : str) (m : gmap (str * str) A) : gmap (str * str) A :=
  filter (fun kv => fst (fst kv) <> id) m.

(** [INSERT OR REPLACE] of an enricher: replacing deletes the row that is there
    and, where foreign keys are enforced, what refers to it. *)
Definition replace_enricher (e : EnricherDescriptor) (t : Tables) : Tables :=
  let cascade := foreign_keys db && bool_decide (is_Some (t_enrichers t !! en_id e)) in
  mkTables (<[en_id e := enricher_row e]> (t_enrichers t))
    (if cascade then without (en_id e) (t_extractors t) else t_extractors t)
    (if cascade then without (en_id e) (t_rules t) else t_rules t).

Definition delete_extractors (id : str) (t : Tables) : Tables :=
  mkTables (t_enrichers t) (without id (t_extractors t)) (t_rules t).
Definition delete_rules (id : str) (t : Tables) : Tables :=
  mkTables (t_enrichers t) (t_extractors t) (without id (t_rules t)).

Fixpoint insert_extractors (id : str) (xs : list ExtractorConfig) (t : Tables) : result DomainError Tables :=
  match xs with
  | [] => Ok t
  | x :: xs' =>
      run_sql SqlInsertExtractor "Insert extractor failed: " (
        insert_extractors id xs'
          (mkTables (t_enrichers t) (<[(id, ec_id x) := extractor_row x]> (t_extractors t)) (t_rules t)))
  end.

Definition upsert_enricher (e : EnricherDescriptor) (t : Tables) : result DomainError unit * Tables :=
  transaction (
    run_sql SqlInsertEnricher "Insert enricher failed: " (
    run_sql SqlDeleteExtractors "Delete extractors failed: " (
      insert_extractors (en_id e) (en_extractors e) (delete_extractors (en_id e) (replace_enricher e t))))) t.

(** A plain [INSERT]: the key must be new and the enricher must be there. *)
Definition insert_rule (id : str) (r : RuleConfig) (t : Tables) : result DomainError Tables :=
  run_sql SqlInsertRule "Insert rule failed: " (
    if bool_decide (is_Some (t_rules t !! (id, rule_id r))) ||
       (foreign_keys db && bool_decide (t_enrichers t !! id = None))
    then Err (Internal (lit "Insert rule failed: " ++ constraint_failed db))
    else Ok (mkTables (t_enrichers t) (t_extractors t)
               (<[(id, rule_id r) := mkRuleRow (RuleEval.condition r) (RuleEval.priority r) (RuleEval.enabled r)
                    (json_or_empty (actions_to_json (RuleEval.actions r)))]> (t_rules t)))).

Fixpoint insert_rules (id : str) (rs : list RuleConfig) (t : Tables) : result DomainError Tables :=
  match rs with
  | [] => Ok t
  | r :: rs' => t ← insert_rule id r t; insert_rules id rs' t
  end.

Definition upsert_rules (id : str) (rs : list RuleConfig) (t : Tables) : result DomainError unit * Tables :=
  transaction (run_sql SqlDeleteRules "Delete rules failed: " (insert_rules id rs (delete_rules id t))) t.

(** ** Reading *)

(** The extractor of a row; its policy and static value have no column. *)
Definition extractor_of (id : str) (x : ExtractorRow) : ExtractorConfig :=
  mkExtractorConfig id (xr_type x) (xr_pattern x) (xr_fact_key x) (xr_priority x) (xr_merge_mode x)
    None None (xr_output_key x) (xr_shape x) (xr_fact_type x) (xr_confidence x) (xr_source x) (xr_single x).

(** The rows of [enrichers LEFT JOIN extractors]. *)
Definition extractors_of (id : str) (t : Tables) : list (str * ExtractorRow) :=
  omap (fun '((e, x), r) => if str_eqb e id then Some (x, r) else None) (map_to_list (t_extractors t)).

Definition join_rows (id : str) (e : EnricherRow) (t : Tables) :
    list (str * EnricherRow * option (str * ExtractorRow)) :=
  match extractors_of id t with
  | [] => [(id, e, None)]
  | xs => map (fun x => (id, e, Some x)) xs
  end.

Definition joined (t : Tables) : list (str * EnricherRow * option (str * ExtractorRow)) :=
  any_order _ (flat_map (fun '(id, e) => join_rows id e t) (map_to_list (t_enrichers t))).

(** Grouping by enricher: the data is that of the last row, the extractors are
    collected. *)
Definition group_row (m : gmap str (EnricherRow * list ExtractorConfig))
    (row : str * EnricherRow * option (str * ExtractorRow)) : gmap str (EnricherRow * list ExtractorConfig) :=
  let '(id, e, x) := row in
  let collected := match m !! id with Some (_, l) => l | None => [] end in
  <[id := (e, collected ++ match x with Some (xid, r) => [extractor_of xid r] | None => [] end)]> m.

Definition descriptor_of (kv : str * (EnricherRow * list ExtractorConfig)) : EnricherDescriptor :=
  let '(id, (e, xs)) := kv in
  mkEnricher id (er_name e) (er_version e) (or_nil (strings_from_json (er_match_patterns_json e)))
    (er_template e) (er_enabled e) xs (er_schema_version e) (er_description e) (er_category e)
    (er_command_pattern e) (or_nil (strings_from_json (er_advice_scope_json e)))
    (or_nil (strings_from_json (er_pre_checks_json e))) (or_nil (strings_from_json (er_assertions_json e))).

Definition pattern_matches (command p : str) : bool :=
  match regex_new p with Ok r => regex_is_match r command | Err _ => false end.

Definition read_enrichers (keep : EnricherRow -> bool) (t : Tables) : list EnricherDescriptor :=
  match cat_error db SqlPrepareEnrichers, cat_error db SqlQueryEnrichers with
  | None, None =>
      map descriptor_of (hash_iter _
        (fold_left group_row (List.filter (fun row => keep (snd (fst row))) (joined t)) ∅))
  | _, _ => []
  end.

Definition store_find_enrichers (t : Tables) (command : str) : list EnricherDescriptor :=
  List.filter (fun e => existsb (pattern_matches command) (en_match_patterns e)) (read_enrichers er_enabled t).

Definition store_list_all (t : Tables) : list EnricherDescriptor := read_enrichers (fun _ => true) t.

(** The store as the catalog of the engine. *)
Definition store_catalog (t : Tables) : CatalogRepository := mkCatalog (store_find_enrichers t) (store_list_all t).

Definition rule_of (kv : (str * str) * RuleRow) : RuleConfig :=
  let '((e, id), r) := kv in
  mkRule id e (rr_condition r) (rr_priority r) (rr_enabled r) (or_nil (actions_from_json (rr_actions_json r))).

Definition read_rules (keep : (str * str) * RuleRow -> bool) (t : Tables) : list RuleConfig :=
  match cat_error db SqlPrepareRules, cat_error db SqlQueryRules with
  | None, None => by_priority (map rule_of (List.filter keep (map_to_list (t_rules t))))
  | _, _ => []
  end.

Definition find_rules (t : Tables) (id : str) : list RuleConfig :=
  read_rules (fun kv => str_eqb (fst (fst kv)) id && rr_enabled (snd kv)) t.
Definition list_all_rules (t : Tables) : list RuleConfig := read_rules (fun _ => true) t.

(** ** Importing *)

Definition default_enabled : bool := true.
Definition default_merge_mode : str := lit "single".
Definition default_schema_version : str := lit "1.0".

(** The alias of the pattern of commands. *)
Definition all_patterns (d : DocEnricher) : list str :=
  match de_command_pattern d with
  | Some p => if existsb (str_eqb p) (de_match_patterns d) then de_match_patterns d else p :: de_match_patterns d
  | None => de_match_patterns d
  end.

Definition effective_merge_mode (single : bool) (mode : str) : str := if single then lit "single" else mode.

Definition doc_extractor (d : DocExtractor) : ExtractorConfig :=
  let single := default false (dx_single d) in
  mkExtractorConfig (dx_id d) (dx_type d) (dx_pattern d) (dx_fact_key d) (default 0%Z (dx_priority d))
    (effective_merge_mode single (default default_merge_mode (dx_merge_mode d))) None None (dx_output_key d)
    (dx_shape d) (dx_fact_type d) (dx_confidence d) (dx_source d) single.

Definition doc_action (a : DocAction) : RuleAction :=
  match a with
  | DocDeriveFact key value conf => DeriveFact key value (default (S754_zero false) conf)
  | DocSetVerdict v => SetVerdict v
  | DocRecommend r => Recommend r
  end.

Definition doc_rule (id : str) (d : DocRule) : RuleConfig :=
  mkRule (dr_id d) id (dr_condition d) (default 0%Z (dr_priority d)) (default default_enabled (dr_enabled d))
    (map doc_action (default [] (dr_actions d))).

Definition doc_descriptor (d : DocEnricher) : EnricherDescriptor * list RuleConfig :=
  (mkEnricher (de_id d) (de_name d) (de_version d) (all_patterns d) (de_template d)
     (default default_enabled (de_enabled d)) (map doc_extractor (de_extractors d))
     (default default_schema_version (de_schema_version d)) (de_description d) (de_category d)
     (de_command_pattern d) (default [] (de_advice_scope d)) (default [] (de_pre_checks d))
     (default [] (de_assertions d)),
   map (doc_rule (de_id d)) (default [] (de_rules d))).

(** The errors of an import; those of a pattern and of a condition carry what
    their text is made of. *)
Inductive ImportError :=
| ImportDomain (e : DomainError)
| InvalidRegex (enricher extractor error : str)
| InvalidCondition (enricher rule : str) (error : ParseError).

(** The two formats hold the same fields. *)
Definition parse_yaml (content : str) : result str (EnricherDescriptor * list RuleConfig) :=
  match yaml_enricher content with
  | Ok d => Ok (doc_descriptor d)
  | Err e => Err (lit "YAML parse error: " ++ e)
  end.
Definition parse_toml (content : str) : result str (EnricherDescriptor * list RuleConfig) :=
  match toml_enricher content with
  | Ok d => Ok (doc_descriptor d)
  | Err e => Err (lit "TOML parse error: " ++ e)
  end.

Definition parse_file (path content : str) : result ImportError (EnricherDescriptor * list RuleConfig) :=
  let ext := default [] (extension path) in
  if str_eqb ext (lit "yaml") || str_eqb ext (lit "yml") then
    map_err (fun e => ImportDomain (Internal (lit "YAML parse error: " ++ e))) (parse_yaml content)
  else map_err (fun e => ImportDomain (Internal (lit "TOML parse error: " ++ e))) (parse_toml content).

Fixpoint check_extractors (id : str) (xs : list ExtractorConfig) : result ImportError unit :=
  match xs with
  | [] => Ok tt
  | x :: xs' =>
      if str_eqb (ec_type x) (lit "regex") then
        match regex_new (ec_pattern x) with
        | Err e => Err (InvalidRegex id (ec_id x) e)
        | Ok _ => check_extractors id xs'
        end
      else check_extractors id xs'
  end.

(** [None]: the parser does not return, which [parse_total] excludes. *)
Fixpoint check_rules (id : str) (rs : list RuleConfig) : option (result ImportError unit) :=
  match rs with
  | [] => Some (Ok tt)
  | r :: rs' =>
      match parse (RuleEval.condition r) with
      | None => None
      | Some (Err e) => Some (Err (InvalidCondition id (rule_id r) e))
      | Some (Ok _) => check_rules id rs'
      end
  end.

(** Two transactions, the second only when there are rules. *)
Definition store_import (e : EnricherDescriptor) (rs : list RuleConfig) (t : Tables) :
    result ImportError unit * Tables :=
  match upsert_enricher e t with
  | (Err err, t) => (Err (ImportDomain err), t)
  | (Ok _, t) =>
      match rs with
      | [] => (Ok tt, t)
      | _ =>
          match upsert_rules (en_id e) rs t with
          | (Err err, t) => (Err (ImportDomain err), t)
          | (Ok _, t) => (Ok tt, t)
          end
      end
  end.

Definition import_content (path content : str) (t : Tables) : option (result ImportError unit * Tables) :=
  match parse_file path content with
  | Err e => Some (Err e, t)
  | Ok (e, rs) =>
      match check_extractors (en_id e) (en_extractors e) with
      | Err err => Some (Err err, t)
      | Ok _ =>
          match check_rules (en_id e) rs with
          | None => None
          | Some (Err err) => Some (Err err, t)
          | Some (Ok _) => Some (store_import e rs t)
          end
      end
  end.

(** [read] is what reading the file answers. *)
Definition import_file (path : str) (read : result str str) (t : Tables) :
    option (result ImportError unit * Tables) :=
  match read with
  | Err e => Some (Err (ImportDomain (Internal (lit "Failed to read file: " ++ e))), t)
  | Ok content => import_content path content t
  end.

(** An entry of a directory. *)
Record DirEntry := mkDirEntry { de_path : str; de_is_file : bool; de_content : result str str }.

Definition importable (d : DirEntry) : bool :=
  de_is_file d &&
  let ext := default [] (extension (de_path d)) in
  str_eqb ext (lit "yaml") || str_eqb ext (lit "yml") || str_eqb ext (lit "toml").

Fixpoint import_entries (l : list DirEntry) (n : Z) (t : Tables) : option (Z * Tables) :=
  match l with
  | [] => Some (n, t)
  | d :: l' =>
      if importable d then
        match import_file (de_path d) (de_content d) t with
        | None => None
        | Some (Ok _, t) => import_entries l' (n + 1) t
        | Some (Err _, t) => import_entries l' n t
        end
      else import_entries l' n t
  end.

(** [None] as the directory: it does not exist.  [Err]: listing it fails, with
    the text of the message. *)
Definition import_dir (dir : option (result str (list DirEntry))) (t : Tables) :
    option (result DomainError Z * Tables) :=
  match dir with
  | None => Some (Ok 0%Z, t)
  | Some (Err e) => Some (Err (Internal e), t)
  | Some (Ok l) =>
      match import_entries l 0 t with
      | Some (n, t) => Some (Ok n, t)
      | None => None
      end
  end.
End CatalogStore.

(** ** Transactions *)

Section Facts.
Context `{TXT : CatalogText} `{ROWS : SqlRows} `{ORDER : HashOrder} `{RE : RegexEngine} `{UNI : UnicodeTables}.
Context `{LAWS : !@CatalogTextLaws TXT}.
Variable db : CatalogSql.

Lemma transaction_cases (body : result DomainError Tables) (t : Tables) :
  (exists t', body = Ok t' /\ transaction db body t = (Ok tt, t')) \/
  (exists e, transaction db body t = (Err e, t)).
Proof.
  unfold transaction, run_sql. destruct (cat_error db SqlBegin) as [e|]; [right; by eexists|].
  destruct body as [t'|e]; [|right; by eexists]. cbn.
  destruct (cat_error db SqlCommit) as [e|]; [right; by eexists|]. left. by exists t'.
Qed.

Lemma run_sql_ok {A} (s : catalog_sql) (what : string) (k : result DomainError A) (a : A) :
  run_sql db s what k = Ok a -> k = Ok a.
Proof. unfold run_sql. by destruct (cat_error db s). Qed.

Lemma lookup_without {A} (id e x : str) (m : gmap (str * str) A) :
  without id m !! (e, x) = if decide (e = id) then None else m !! (e, x).
Proof.
  unfold without. destruct (decide (e = id)) as [->|Hne].
  - apply map_lookup_filter_None. right. intros a _. cbn. tauto.
  - destruct (m !! (e, x)) as [a|] eqn:E.
    + by apply map_lookup_filter_Some.
    + apply map_lookup_filter_None. by left.
Qed.

(** ** Tables after a write *)

(** The last extractor of a list under an id. *)
Definition last_with (id : str) (xs : list ExtractorConfig) : option ExtractorConfig :=
  List.find (fun x => str_eqb (ec_id x) id) (rev xs).

Lemma last_with_cons (id : str) (x : ExtractorConfig) (xs : list ExtractorConfig) :
  last_with id (x :: xs) =
    match last_with id xs with Some y => Some y | None => if str_eqb (ec_id x) id then Some x else None end.
Proof.
  unfold last_with. cbn [rev]. generalize (rev xs) as l. induction l as [|y l IH]; [done|].
  cbn. by destruct (str_eqb (ec_id y) id).
Qed.

Lemma insert_extractors_ok (id : str) (xs : list ExtractorConfig) (t t' : Tables) :
  insert_extractors db id xs t = Ok t' ->
  t_enrichers t' = t_enrichers t /\ t_rules t' = t_rules t /\
  forall e x, t_extractors t' !! (e, x) =
    if decide (e = id) then
      match last_with x xs with Some c => Some (extractor_row c) | None => t_extractors t !! (e, x) end
    else t_extractors t !! (e, x).
Proof.
  revert t. induction xs as [|c xs IH]; intros t; cbn [insert_extractors].
  - intros [= <-]. split; [done|]. split; [done|]. intros e x. by case_decide.
  - intros E%run_sql_ok%IH. destruct E as (-> & -> & H). split; [done|]. split; [done|].
    intros e x. rewrite H. cbn [t_extractors]. rewrite last_with_cons. case_decide as He; [subst e|].
    + destruct (last_with x xs); [done|]. destruct (str_eqb (ec_id c) x) eqn:Ex.
      * apply str_eqb_eq in Ex. subst x. by rewrite lookup_insert_eq.
      * rewrite lookup_insert_ne; [done|]. intros [= Heq]. by rewrite Heq, str_eqb_refl in Ex.
    + rewrite lookup_insert_ne; [done|]. congruence.
Qed.

(** What the tables are after an enricher was stored. *)
Lemma upsert_enricher_ok (e : EnricherDescriptor) (t t' : Tables) :
  upsert_enricher db e t = (Ok tt, t') ->
  t_enrichers t' = <[en_id e := enricher_row e]> (t_enrichers t) /\
  (forall i x, t_extractors t' !! (i, x) =
     if decide (i = en_id e) then extractor_row <$> last_with x (en_extractors e) else t_extractors t !! (i, x)) /\
  (forall i x, t_rules t' !! (i, x) =
     if decide (i = en_id e /\ foreign_keys db = true /\ is_Some (t_enrichers t !! en_id e)) then None
     else t_rules t !! (i, x)).
Proof.
  unfold upsert_enricher. destruct (transaction_cases (run_sql db SqlInsertEnricher "Insert enricher failed: "
    (run_sql db SqlDeleteExtractors "Delete extractors failed: "
      (insert_extractors db (en_id e) (en_extractors e) (delete_extractors (en_id e) (replace_enricher db e t))))) t)
    as [(t1 & E & ->)|(err & ->)]; [|done].
  intros [= <-]. apply run_sql_ok, run_sql_ok, insert_extractors_ok in E as (H1 & H2 & H3).
  split; [by rewrite H1|]. split.
  - intros i x. rewrite H3. unfold delete_extractors, replace_enricher. cbn [t_extractors].
    rewrite lookup_without. case_decide as Hi; [by destruct (last_with x _)|].
    destruct (_ && _); [|done]. rewrite lookup_without. by rewrite decide_False.
  - intros i x. rewrite H2. unfold delete_extractors, replace_enricher. cbn [t_rules].
    destruct (foreign_keys db) eqn:Ef; cbn [andb].
    + destruct (bool_decide_reflect (is_Some (t_enrichers t !! en_id e))) as [Hs|Hs].
      * rewrite lookup_without. destruct (decide (i = en_id e)); [rewrite decide_True by done|rewrite decide_False by tauto]; done.
      * by rewrite decide_False by tauto.
    + rewrite decide_False; [done|]. by intros (_ & ? & _).
Qed.

Lemma insert_rules_ok (id : str) (rs : list RuleConfig) (t t' : Tables) :
  insert_rules db id rs t = Ok t' ->
  t_enrichers t' = t_enrichers t /\ t_extractors t' = t_extractors t /\
  (foreign_keys db = true -> rs <> [] -> is_Some (t_enrichers t !! id)) /\
  NoDup (map rule_id rs) /\ (forall r, r ∈ rs -> t_rules t !! (id, rule_id r) = None) /\
  forall e x, t_rules t' !! (e, x) =
    if decide (e = id) then
      match List.find (fun r => str_eqb (rule_id r) x) rs with
      | Some r => Some (mkRuleRow (RuleEval.condition r) (RuleEval.priority r) (RuleEval.enabled r)
                          (json_or_empty (actions_to_json (RuleEval.actions r))))
      | None => t_rules t !! (e, x)
      end
    else t_rules t !! (e, x).
Proof.
  revert t. induction rs as [|r rs IH]; intros t; cbn [insert_rules].
  - intros [= <-]. split_and!; try done; [constructor|by intros r ?%elem_of_nil|]. intros e x. by case_decide.
  - unfold insert_rule. destruct (run_sql _ _ _ _) as [t1|err] eqn:E1; [|done]. cbn [mbind result_bind].
    apply run_sql_ok in E1. destruct (bool_decide_reflect (is_Some (t_rules t !! (id, rule_id r)))) as [Hs|Hs]; [done|].
    cbn [orb] in E1. destruct (foreign_keys db && bool_decide (t_enrichers t !! id = None)) eqn:Ef; [done|].
    injection E1 as <-. intros E%IH. cbn [t_enrichers t_extractors t_rules] in E.
    destruct E as (-> & -> & _ & Hnd & Hnew & H).
    apply eq_None_not_Some in Hs. split_and!; try done.
    + intros Hfk _. rewrite Hfk in Ef. cbn in Ef. apply bool_decide_eq_false in Ef. by apply not_eq_None_Some.
    + cbn [map]. constructor; [|done]. intros Hin. apply list_elem_of_In, in_map_iff in Hin as (r' & Hr & Hin).
      apply list_elem_of_In in Hin. specialize (Hnew r' Hin). by rewrite Hr, lookup_insert_eq in Hnew.
    + intros r' [->|Hin]%elem_of_cons; [done|]. specialize (Hnew r' Hin).
      by apply lookup_insert_None in Hnew as [? _].
    + intros e x. rewrite H. cbn [List.find]. case_decide as He; [subst e|].
      * destruct (str_eqb (rule_id r) x) eqn:Ex.
        { apply str_eqb_eq in Ex. subst x. destruct (List.find _ rs) as [r'|] eqn:Ef'.
          - apply find_some in Ef' as [Hin Heq%str_eqb_eq]. apply list_elem_of_In in Hin.
            specialize (Hnew r' Hin). by rewrite Heq, lookup_insert_eq in Hnew.
          - by rewrite lookup_insert_eq. }
        { destruct (List.find _ rs); [done|]. rewrite lookup_insert_ne; [done|]. intros [= Heq].
          by rewrite Heq, str_eqb_refl in Ex. }
      * rewrite lookup_insert_ne; [done|]. congruence.
Qed.

(** ** Reading the catalog *)

Abbreviation joined_row := (str * EnricherRow * option (str * ExtractorRow))%type.

Definition row_id (row : joined_row) : str := fst (fst row).
Definition row_extractor (row : joined_row) : list ExtractorConfig :=
  match snd row with Some (xid, r) => [extractor_of xid r] | None => [] end.

(** Grouping, seen at one id. *)
Lemma group_lookup (rows : list joined_row) (id : str) :
  let mine := List.filter (fun row => str_eqb (row_id row) id) rows in
  fold_left group_row rows ∅ !! id =
    match last mine with
    | Some (_, e, _) => Some (e, flat_map row_extractor mine)
    | None => None
    end.
Proof.
  cbv zeta. induction rows as [|row rows IH] using rev_ind; [done|].
  rewrite fold_left_app, List.filter_app. cbn [fold_left List.filter].
  destruct row as [[i e] x]. unfold group_row at 1. cbn [row_id fst].
  destruct (str_eqb i id) eqn:E.
  - apply str_eqb_eq in E. subst i. rewrite lookup_insert_eq, last_snoc, flat_map_app, IH.
    cbn [flat_map row_extractor snd]. rewrite app_nil_r.
    destruct (last (List.filter _ rows)) as [[[? ?] ?]|] eqn:El; [done|].
    apply last_None in El. rewrite El. done.
  - rewrite app_nil_r, lookup_insert_ne; [exact IH|]. intros ->. by rewrite str_eqb_refl in E.
Qed.

Lemma join_rows_id (id : str) (e : EnricherRow) (t : Tables) (row : joined_row) :
  row ∈ join_rows id e t -> row_id row = id /\ snd (fst row) = e.
Proof.
  unfold join_rows. destruct (extractors_of id t) as [|x xs].
  - by intros ->%list_elem_of_singleton.
  - intros Hin. rewrite list_elem_of_In in Hin. by apply in_map_iff in Hin as (y & <- & _).
Qed.

Lemma filter_none {A} (f : A -> bool) (l : list A) : (forall a, a ∈ l -> f a = false) -> List.filter f l = [].
Proof.
  induction l as [|a l IH]; intros Hf; [done|]. cbn. rewrite (Hf a) by apply list_elem_of_here.
  apply IH. intros b Hb. apply Hf. by apply list_elem_of_further.
Qed.

Lemma filter_all {A} (f : A -> bool) (l : list A) : (forall a, a ∈ l -> f a = true) -> List.filter f l = l.
Proof.
  induction l as [|a l IH]; intros Hf; [done|]. cbn. rewrite (Hf a) by apply list_elem_of_here.
  f_equal. apply IH. intros b Hb. apply Hf. by apply list_elem_of_further.
Qed.

(** The rows of one enricher among those of all. *)
Lemma join_filter (l : list (str * EnricherRow)) (t : Tables) (id : str) : NoDup (map fst l) ->
  List.filter (fun row => str_eqb (row_id row) id) (flat_map (fun '(i, e) => join_rows i e t) l) =
    match List.find (fun ie => str_eqb (fst ie) id) l with Some (_, e) => join_rows id e t | None => [] end.
Proof.
  induction l as [|[i e] l IH]; [done|]. cbn [map fst]. intros [Hn Hnd]%NoDup_cons.
  cbn [flat_map List.find fst]. rewrite List.filter_app, (IH Hnd). destruct (str_eqb i id) eqn:E.
  - apply str_eqb_eq in E. subst i. rewrite filter_all.
    + destruct (List.find _ l) as [[j e']|] eqn:Ef; [|by rewrite app_nil_r].
      apply find_some in Ef as [Hin Heq%str_eqb_eq]. cbn in Heq. subst j. destruct Hn.
      apply list_elem_of_In, in_map_iff. by exists (id, e').
    + intros row [-> _]%join_rows_id. apply str_eqb_refl.
  - rewrite filter_none; [done|]. intros row [-> _]%join_rows_id. exact E.
Qed.

Lemma find_entry {A} (m : gmap str A) (id : str) :
  List.find (fun ie => str_eqb (fst ie) id) (map_to_list m) = (fun a => (id, a)) <$> m !! id.
Proof.
  destruct (List.find _ (map_to_list m)) as [[j a]|] eqn:Ef.
  - apply find_some in Ef as [Hin Heq%str_eqb_eq]. cbn in Heq. subst j.
    apply list_elem_of_In, elem_of_map_to_list in Hin. by rewrite Hin.
  - destruct (m !! id) as [a|] eqn:E; [|done]. apply elem_of_map_to_list, list_elem_of_In in E.
    apply (find_none _ _ Ef) in E. cbn in E. by rewrite str_eqb_refl in E.
Qed.

Lemma list_filter_comm {A} (f g : A -> bool) (l : list A) :
  List.filter f (List.filter g l) = List.filter g (List.filter f l).
Proof.
  induction l as [|a l IH]; [done|]. cbn. destruct (f a) eqn:Ef, (g a) eqn:Eg; cbn; rewrite ?Ef, ?Eg, IH; done.
Qed.

Lemma flat_map_perm {A B} (f : A -> list B) (l l' : list A) : l ≡ₚ l' -> flat_map f l ≡ₚ flat_map f l'.
Proof.
  induction 1 as [|a l l' _ IH|a b l|l l' l'' _ IH1 _ IH2]; cbn; [done|by rewrite IH| |by etransitivity].
  rewrite !app_assoc. apply Permutation_app_tail, Permutation_app_comm.
Qed.

(** What the tables say about an enricher. *)
Definition stored_enricher (keep : EnricherRow -> bool) (t : Tables) (id : str)
    (v : EnricherRow * list ExtractorConfig) : Prop :=
  t_enrichers t !! id = Some (fst v) /\ keep (fst v) = true /\
  snd v ≡ₚ map (fun '(x, r) => extractor_of x r) (extractors_of id t).

Lemma join_extractors (id : str) (e : EnricherRow) (t : Tables) :
  flat_map row_extractor (join_rows id e t) = map (fun '(x, r) => extractor_of x r) (extractors_of id t).
Proof.
  unfold join_rows. destruct (extractors_of id t) as [|x xs] eqn:E; [done|]. rewrite <- E. clear E.
  induction (extractors_of id t) as [|[y r] l IH]; [done|]. cbn. by rewrite IH.
Qed.

Lemma grouped_lookup (keep : EnricherRow -> bool) (t : Tables) (id : str) :
  match fold_left group_row (List.filter (fun row => keep (snd (fst row))) (joined t)) ∅ !! id with
  | Some v => stored_enricher keep t id v
  | None => forall e, t_enrichers t !! id = Some e -> keep e = false
  end.
Proof.
  rewrite group_lookup. set (mine := List.filter _ (List.filter _ (joined t))).
  assert (Hperm : mine ≡ₚ match t_enrichers t !! id with
    | Some e => if keep e then join_rows id e t else [] | None => [] end).
  { unfold mine, joined.
    rewrite (filter_perm _ _ _ (filter_perm _ _ _ (any_order_perm _ _))).
    rewrite list_filter_comm, join_filter, find_entry by apply NoDup_fst_map_to_list.
    destruct (t_enrichers t !! id) as [e|]; [|done]. cbn. destruct (keep e) eqn:Hk.
    - rewrite filter_all; [done|]. intros row [_ ->]%join_rows_id. exact Hk.
    - rewrite filter_none; [done|]. intros row [_ ->]%join_rows_id. exact Hk. }
  destruct (last mine) as [[[j e] x]|] eqn:El.
  - assert (Hin : (j, e, x) ∈ mine) by (by apply last_Some_elem_of).
    rewrite Hperm in Hin. destruct (t_enrichers t !! id) as [e'|] eqn:Et; [|by apply elem_of_nil in Hin].
    destruct (keep e') eqn:Hk; [|by apply elem_of_nil in Hin].
    apply join_rows_id in Hin as Hid. destruct Hid as [_ He]. cbn in He. subst e'.
    split; [done|]. split; [done|]. cbn [snd]. by rewrite (flat_map_perm _ _ _ Hperm), join_extractors.
  - apply last_None in El. rewrite El in Hperm. apply Permutation_nil in Hperm.
    intros e Ht. rewrite Ht in Hperm. destruct (keep e); [|done]. unfold join_rows in Hperm.
    by destruct (extractors_of id t).
Qed.

(** The queries do not fail. *)
Definition readable : Prop :=
  cat_error db SqlPrepareEnrichers = None /\ cat_error db SqlQueryEnrichers = None /\
  cat_error db SqlPrepareRules = None /\ cat_error db SqlQueryRules = None.

Lemma read_ok (keep : EnricherRow -> bool) (t : Tables) : readable ->
  (forall d, d ∈ read_enrichers db keep t ->
     exists v, stored_enricher keep t (en_id d) v /\ d = descriptor_of (en_id d, v)) /\
  (forall id e, t_enrichers t !! id = Some e -> keep e = true ->
     exists d, d ∈ read_enrichers db keep t /\ en_id d = id) /\
  NoDup (map en_id (read_enrichers db keep t)).
Proof.
  intros (E1 & E2 & _). unfold read_enrichers. rewrite E1, E2.
  pose proof (grouped_lookup keep t) as Hg. set (m := fold_left group_row _ ∅) in *.
  assert (Hin : forall id v, (id, v) ∈ hash_iter _ m <-> m !! id = Some v).
  { intros id v. by rewrite (hash_iter_perm _ m), elem_of_map_to_list. }
  assert (Hid : forall id v, en_id (descriptor_of (id, v)) = id) by (by intros id []).
  split; [|split].
  - intros d Hd. rewrite list_elem_of_In, in_map_iff in Hd. destruct Hd as ([id v] & <- & Hv).
    apply list_elem_of_In, Hin in Hv. rewrite Hid. exists v. split; [|done]. specialize (Hg id). by rewrite Hv in Hg.
  - intros id e He Hk. specialize (Hg id). destruct (m !! id) as [v|] eqn:Hv; [|by rewrite (Hg e He) in Hk].
    exists (descriptor_of (id, v)). split; [|done]. apply list_elem_of_In, in_map_iff. exists (id, v).
    split; [done|]. by apply list_elem_of_In, Hin.
  - rewrite map_map, (map_ext _ fst) by (intros [id v]; apply Hid). apply hash_iter_nodup.
Qed.

(** What a column keeps of an extractor. *)
Definition kept_extractor (x : ExtractorConfig) : ExtractorConfig :=
  mkExtractorConfig (ec_id x) (ec_type x) (ec_pattern x) (ec_fact_key x) (ec_priority x) (ec_merge_mode x)
    None None (ec_output_key x) (ec_shape x) (ec_fact_type x) (bind_real (ec_confidence x)) (ec_source x) (ec_single x).

Definition with_extractors (xs : list ExtractorConfig) (e : EnricherDescriptor) : EnricherDescriptor :=
  mkEnricher (en_id e) (en_name e) (en_version e) (en_match_patterns e) (en_template e) (en_enabled e) xs
    (en_schema_version e) (en_description e) (en_category e) (en_command_pattern e) (en_advice_scope e)
    (en_pre_checks e) (en_assertions e).

Lemma elem_of_extractors (id x : str) (r : ExtractorRow) (t : Tables) :
  (x, r) ∈ extractors_of id t <-> t_extractors t !! (id, x) = Some r.
Proof.
  unfold extractors_of. rewrite list_elem_of_omap. split.
  - intros ([[e y] r'] & Hin & Hs). destruct (str_eqb e id) eqn:E; [|done]. apply str_eqb_eq in E. subst e.
    injection Hs as <- <-. by apply elem_of_map_to_list in Hin.
  - intros Ht. exists ((id, x), r). split; [by apply elem_of_map_to_list|]. by rewrite str_eqb_refl.
Qed.

Lemma nodup_extractors (id : str) (t : Tables) : NoDup (extractors_of id t).
Proof.
  unfold extractors_of. pose proof (NoDup_map_to_list (t_extractors t)) as Hnd.
  induction Hnd as [|[[e x] r] l Hn Hnd IH]; [constructor|]. cbn.
  destruct (str_eqb e id) eqn:E; [|exact IH]. constructor; [|exact IH].
  rewrite list_elem_of_omap. intros ([[e' x'] r'] & Hin & Hs). destruct (str_eqb e' id) eqn:E'; [|done].
  apply str_eqb_eq in E, E'. injection Hs as -> ->. congruence.
Qed.

Lemma last_with_nodup (xs : list ExtractorConfig) (x : ExtractorConfig) (id : str) : NoDup (map ec_id xs) ->
  last_with id xs = Some x <-> x ∈ xs /\ ec_id x = id.
Proof.
  induction xs as [|y xs IH]; cbn [map].
  { intros _. split; [done|]. by intros [?%elem_of_nil _]. }
  intros [Hn Hnd]%NoDup_cons. specialize (IH Hnd). rewrite last_with_cons, elem_of_cons.
  assert (Hmem : forall z, z ∈ xs -> ec_id z = ec_id y -> False).
  { intros z Hz Heq. apply Hn. rewrite <- Heq. apply list_elem_of_In, in_map. by apply list_elem_of_In. }
  destruct (last_with id xs) as [z|] eqn:Ez.
  - assert (Hz : z ∈ xs /\ ec_id z = id).
    { clear IH. unfold last_with in Ez. apply find_some in Ez as [Hin Heq%str_eqb_eq]. split; [|done].
      by apply in_rev, list_elem_of_In in Hin. }
    split; [intros [= <-]; tauto|]. intros [[->|Hin] Hid]; [|by apply IH].
    destruct Hz as [Hz Hzid]. destruct (Hmem z Hz). congruence.
  - destruct (str_eqb (ec_id y) id) eqn:E; split.
    + intros [= <-]. apply str_eqb_eq in E. tauto.
    + intros [[->|Hin] Hid]; [done|]. apply str_eqb_eq in E. destruct (Hmem x Hin). congruence.
    + done.
    + intros [[->|Hin] Hid]; [by rewrite Hid, str_eqb_refl in E|]. by assert (None = Some x) by (by apply IH).
Qed.

Lemma extractors_stored (id : str) (xs : list ExtractorConfig) (t : Tables) : NoDup (map ec_id xs) ->
  (forall x, t_extractors t !! (id, x) = extractor_row <$> last_with x xs) ->
  map (fun '(x, r) => extractor_of x r) (extractors_of id t) ≡ₚ map kept_extractor xs.
Proof.
  intros Hnd H.
  assert (Hp : extractors_of id t ≡ₚ map (fun x => (ec_id x, extractor_row x)) xs).
  { apply NoDup_Permutation; [apply nodup_extractors| |].
    - apply (NoDup_fmap_1 fst). rewrite <- list_fmap_compose. exact Hnd.
    - intros [x r]. rewrite elem_of_extractors, H, list_elem_of_In, in_map_iff. split.
      + destruct (last_with x xs) as [c|] eqn:E; [|done]. intros [= <-].
        apply last_with_nodup in E as [Hin <-]; [|done]. exists c. split; [done|]. by apply list_elem_of_In.
      + intros (c & [= <- <-] & Hin). apply list_elem_of_In in Hin.
        rewrite (proj2 (last_with_nodup xs c (ec_id c) Hnd)) by done. done. }
  rewrite (Permutation_map _ Hp), map_map. done.
Qed.

Lemma strings_kept (l : list str) : or_nil (strings_from_json (json_or_empty (strings_to_json l))) = l.
Proof. destruct (strings_written l) as (s & -> & E). cbn. by rewrite E. Qed.

(** What is read of an enricher that was stored. *)
Lemma own_descriptor (e : EnricherDescriptor) (t' : Tables) (keep : EnricherRow -> bool)
    (v : EnricherRow * list ExtractorConfig) :
  NoDup (map ec_id (en_extractors e)) -> t_enrichers t' !! en_id e = Some (enricher_row e) ->
  (forall x, t_extractors t' !! (en_id e, x) = extractor_row <$> last_with x (en_extractors e)) ->
  stored_enricher keep t' (en_id e) v ->
  exists xs, xs ≡ₚ map kept_extractor (en_extractors e) /\ descriptor_of (en_id e, v) = with_extractors xs e.
Proof.
  intros Hnd He Hx. destruct v as [r xs]. intros (H1 & _ & H3). cbn [fst snd] in *.
  rewrite He in H1. injection H1 as <-. exists xs. split.
  - rewrite H3. by apply extractors_stored.
  - unfold descriptor_of, enricher_row. cbn. by rewrite !strings_kept.
Qed.

(** The same enricher, up to the order of its extractors. *)
Definition same_enricher (d d0 : EnricherDescriptor) : Prop :=
  exists xs, xs ≡ₚ en_extractors d0 /\ d = with_extractors xs d0.

(** Where two tables agree on an enricher, it is listed in the one as in the other. *)
Lemma listed_alike (t t' : Tables) (d : EnricherDescriptor) : readable ->
  t_enrichers t' !! en_id d = t_enrichers t !! en_id d ->
  (forall x, t_extractors t' !! (en_id d, x) = t_extractors t !! (en_id d, x)) ->
  d ∈ store_list_all db t -> exists d', d' ∈ store_list_all db t' /\ same_enricher d d' /\ same_enricher d' d.
Proof.
  intros Hr He Hx Hd. destruct (read_ok (fun _ => true) t Hr) as (H1 & _ & _).
  destruct (H1 d Hd) as ([r xs] & (Hl & _ & Hp) & Heq). cbn [fst snd] in *.
  destruct (read_ok (fun _ => true) t' Hr) as (H1' & H2' & _). rewrite <- He in Hl.
  destruct (H2' _ _ Hl eq_refl) as (d' & Hd' & Hid). destruct (H1' d' Hd') as ([r' xs'] & (Hl' & _ & Hp') & Heq').
  rewrite Hid in *. cbn [fst snd] in *. rewrite Hl in Hl'. injection Hl' as <-.
  assert (Hxs : xs ≡ₚ xs').
  { rewrite Hp, Hp'. apply Permutation_map, NoDup_Permutation; [apply nodup_extractors|apply nodup_extractors|].
    intros [x rx]. by rewrite !elem_of_extractors, Hx. }
  exists d'. split; [done|]. rewrite Heq, Heq'. split; [by exists xs|]. by exists xs'.
Qed.

(** C29. Storing an enricher whose extractors have different ids, and listing
    the catalog.  An enricher that could be stored is listed once, with all its
    fields and its extractors in some order, each without its policy, its static
    value and a confidence that is not a number; it is found for exactly the
    commands that one of its patterns matches, if it is enabled; the other
    enrichers listed before are listed afterwards, up to the order of their
    extractors, and no others are; and the rules of the other enrichers are
    what they were. *)
Theorem catalog_roundtrip (e : EnricherDescriptor) (t t' : Tables) (command : str) :
  readable -> NoDup (map ec_id (en_extractors e)) -> upsert_enricher db e t = (Ok tt, t') ->
  NoDup (map en_id (store_list_all db t')) /\
  (exists xs, xs ≡ₚ map kept_extractor (en_extractors e) /\ with_extractors xs e ∈ store_list_all db t') /\
  ((exists d, d ∈ store_find_enrichers db t' command /\ en_id d = en_id e) <->
   en_enabled e = true /\ existsb (pattern_matches command) (en_match_patterns e) = true) /\
  (forall d, d ∈ store_list_all db t' -> en_id d <> en_id e ->
   exists d0, d0 ∈ store_list_all db t /\ same_enricher d d0) /\
  (forall d0, d0 ∈ store_list_all db t -> en_id d0 <> en_id e ->
   exists d, d ∈ store_list_all db t' /\ same_enricher d d0) /\
  (forall id x, id <> en_id e -> t_rules t' !! (id, x) = t_rules t !! (id, x)).
Proof.
  intros Hr Hnd Hup. pose proof (upsert_enricher_ok e t t' Hup) as (He & Hx & Hru).
  assert (Hown : forall keep v, stored_enricher keep t' (en_id e) v ->
    exists xs, xs ≡ₚ map kept_extractor (en_extractors e) /\ descriptor_of (en_id e, v) = with_extractors xs e).
  { intros keep v. apply own_descriptor; [done|by rewrite He, lookup_insert_eq|].
    intros x. by rewrite Hx, decide_True. }
  assert (Hrow : t_enrichers t' !! en_id e = Some (enricher_row e)) by (by rewrite He, lookup_insert_eq).
  assert (He' : forall i, i <> en_id e -> t_enrichers t' !! i = t_enrichers t !! i)
    by (intros i Hi; by rewrite He, lookup_insert_ne).
  assert (Hx' : forall i x, i <> en_id e -> t_extractors t' !! (i, x) = t_extractors t !! (i, x))
    by (intros i x Hi; by rewrite Hx, decide_False).
  split; [by apply (read_ok (fun _ => true) t' Hr)|]. split; [|split; [|split; [|split]]].
  - destruct (read_ok (fun _ => true) t' Hr) as (H1 & H2 & _).
    destruct (H2 _ _ Hrow eq_refl) as (d & Hd & Hid). destruct (H1 d Hd) as (v & Hv & Heq).
    rewrite Hid in Hv, Heq. destruct (Hown _ v Hv) as (xs & Hxs & Hdesc). exists xs. split; [done|].
    by rewrite <- Hdesc, <- Heq.
  - destruct (read_ok er_enabled t' Hr) as (H1 & H2 & _). unfold store_find_enrichers. split.
    + intros (d & Hd & Hid). rewrite list_elem_of_In, filter_In, <- list_elem_of_In in Hd. destruct Hd as [Hd Hm].
      destruct (H1 d Hd) as (v & Hv & Heq). rewrite Hid in Hv, Heq. pose proof (proj1 (proj2 Hv)) as Hk.
      pose proof (proj1 Hv) as Hv1. rewrite Hrow in Hv1. injection Hv1 as Hv1. rewrite <- Hv1 in Hk.
      destruct (Hown _ v Hv) as (xs & _ & Hdesc). rewrite Heq, Hdesc in Hm. by split.
    + intros [Hen Hm]. destruct (H2 _ _ Hrow Hen) as (d & Hd & Hid). exists d. split; [|done].
      rewrite list_elem_of_In, filter_In, <- list_elem_of_In. split; [done|].
      destruct (H1 d Hd) as (v & Hv & Heq). rewrite Hid in Hv, Heq.
      destruct (Hown _ v Hv) as (xs & _ & Hdesc). by rewrite Heq, Hdesc.
  - intros d Hd Hne. destruct (listed_alike t' t d Hr) as (d0 & Hd0 & Hs & _);
      [by rewrite He'|intros x; by rewrite Hx'|done|]. by exists d0.
  - intros d0 Hd0 Hne. destruct (listed_alike t t' d0 Hr) as (d & Hd & _ & Hs);
      [by apply He'|intros x; by apply Hx'|done|]. by exists d.
  - intros id x Hne. rewrite Hru, decide_False by tauto. done.
Qed.
End Facts.

(** ** Integrity and rules *)

Section Imports.
Context `{TXT : CatalogText} `{ROWS : SqlRows} `{ORDER : HashOrder} `{RE : RegexEngine} `{UNI : UnicodeTables}.
Context `{LAWS : !@CatalogTextLaws TXT}.
Variable db : CatalogSql.

(** Every extractor and every rule belongs to an enricher. *)
Definition refs_ok (t : Tables) : Prop :=
  (forall e x, is_Some (t_extractors t !! (e, x)) -> is_Some (t_enrichers t !! e)) /\
  (forall e x, is_Some (t_rules t !! (e, x)) -> is_Some (t_enrichers t !! e)).

Lemma refs_enricher (e : EnricherDescriptor) (t : Tables) : refs_ok t -> refs_ok (snd (upsert_enricher db e t)).
Proof.
  intros [Hx Hr]. destruct (upsert_enricher db e t) as [[[]|err] t'] eqn:E.
  - destruct (upsert_enricher_ok db e t t' E) as (He & Hx' & Hr'). cbn [snd]. unfold refs_ok. rewrite He.
    split; intros i x; rewrite ?Hx', ?Hr'; (destruct (decide (i = en_id e)) as [->|Hne];
      [intros _; by rewrite lookup_insert_eq|rewrite lookup_insert_ne by done]).
    + apply Hx.
    + rewrite decide_False by tauto. apply Hr.
  - unfold upsert_enricher in E. destruct (transaction_cases db (run_sql db SqlInsertEnricher "Insert enricher failed: "
      (run_sql db SqlDeleteExtractors "Delete extractors failed: "
      (insert_extractors db (en_id e) (en_extractors e) (delete_extractors (en_id e) (replace_enricher db e t))))) t)
      as [(t1 & _ & E')|(err' & E')]; rewrite E' in E; [done|]. injection E as _ <-. by split.
Qed.

(** What the tables are after the rules of an enricher were stored. *)
Lemma upsert_rules_ok (id : str) (rs : list RuleConfig) (t t' : Tables) :
  upsert_rules db id rs t = (Ok tt, t') ->
  t_enrichers t' = t_enrichers t /\ t_extractors t' = t_extractors t /\ NoDup (map rule_id rs) /\
  (foreign_keys db = true -> rs <> [] -> is_Some (t_enrichers t !! id)) /\
  forall e x, t_rules t' !! (e, x) =
    if decide (e = id) then
      (fun r => mkRuleRow (RuleEval.condition r) (RuleEval.priority r) (RuleEval.enabled r)
                  (json_or_empty (actions_to_json (RuleEval.actions r)))) <$>
        List.find (fun r => str_eqb (rule_id r) x) rs
    else t_rules t !! (e, x).
Proof.
  unfold upsert_rules. destruct (transaction_cases db (run_sql db SqlDeleteRules "Delete rules failed: "
    (insert_rules db id rs (delete_rules id t))) t) as [(t1 & E & ->)|(err & ->)]; [|done].
  intros [= <-]. apply run_sql_ok, insert_rules_ok in E as (H1 & H2 & H3 & H4 & _ & H5).
  split_and!; try done. intros e x. rewrite H5. cbn [delete_rules t_rules]. rewrite lookup_without.
  case_decide as He; [|done]. by destruct (List.find _ rs).
Qed.

Lemma upsert_rules_err (id : str) (rs : list RuleConfig) (t t' : Tables) (e : DomainError) :
  upsert_rules db id rs t = (Err e, t') -> t' = t.
Proof.
  unfold upsert_rules. destruct (transaction_cases db (run_sql db SqlDeleteRules "Delete rules failed: "
    (insert_rules db id rs (delete_rules id t))) t) as [(t1 & E & ->)|(err & ->)]; [done|congruence].
Qed.

Lemma upsert_enricher_err (e : EnricherDescriptor) (t t' : Tables) (err : DomainError) :
  upsert_enricher db e t = (Err err, t') -> t' = t.
Proof.
  unfold upsert_enricher, transaction. destruct (run_sql _ _ _ _); [done|congruence].
Qed.

Lemma refs_rules (id : str) (rs : list RuleConfig) (t : Tables) : foreign_keys db = true ->
  refs_ok t -> refs_ok (snd (upsert_rules db id rs t)).
Proof.
  intros Hfk [Hx Hr]. destruct (upsert_rules db id rs t) as [[[]|err] t'] eqn:E.
  - destruct (upsert_rules_ok id rs t t' E) as (He & Hx' & _ & Hin & Hr'). cbn [snd]. unfold refs_ok. rewrite He, Hx'.
    split; [done|]. intros e x. rewrite Hr'. destruct (decide (e = id)) as [->|Hne]; [|apply Hr].
    destruct rs as [|r rs]; [by intros [? ?]|]. intros _. by apply Hin.
  - by apply upsert_rules_err in E as ->.
Qed.

(** Where foreign keys are enforced, no history of writes ever leaves an
    extractor or a rule without its enricher. *)
Theorem catalog_integrity (ops : list (EnricherDescriptor + str * list RuleConfig)) (t : Tables) :
  foreign_keys db = true -> refs_ok t ->
  refs_ok (fold_left (fun t op => match op with
    | inl e => snd (upsert_enricher db e t)
    | inr (id, rs) => snd (upsert_rules db id rs t)
    end) ops t).
Proof.
  intros Hfk. revert t. induction ops as [|[e|[id rs]] ops IH]; intros t Ht; [done| |]; cbn [fold_left]; apply IH.
  - by apply refs_enricher.
  - by apply refs_rules.
Qed.

(** ** Imports *)

Lemma check_extractors_ok (id : str) (xs : list ExtractorConfig) : check_extractors id xs = Ok tt ->
  forall x, x ∈ xs -> ec_type x = lit "regex" -> exists r, regex_new (ec_pattern x) = Ok r.
Proof.
  induction xs as [|y xs IH]; cbn [check_extractors].
  - by intros _ x ?%elem_of_nil.
  - intros Hc x [->|Hin]%elem_of_cons Ht.
    + rewrite Ht, str_eqb_refl in Hc. destruct (regex_new (ec_pattern y)) as [r|e]; [by exists r|done].
    + apply IH; [|done|done]. destruct (str_eqb (ec_type y) (lit "regex")); [|done].
      by destruct (regex_new (ec_pattern y)).
Qed.

Lemma check_rules_total (id : str) (rs : list RuleConfig) : exists r, check_rules id rs = Some r /\
  (r = Ok tt -> forall rule, rule ∈ rs -> exists e, parse (RuleEval.condition rule) = Some (Ok e)).
Proof.
  induction rs as [|r rs IH]; cbn [check_rules].
  - exists (Ok tt). split; [done|]. by intros _ r ?%elem_of_nil.
  - destruct (parse_returns (RuleEval.condition r)) as [[e|e] E]; rewrite E; [|by eexists].
    destruct IH as (o & -> & Ho). exists o. split; [done|]. intros -> rule [->|Hin]%elem_of_cons.
    + by exists e.
    + by apply Ho.
Qed.

Lemma find_nodup (rs : list RuleConfig) (r : RuleConfig) (x : str) : NoDup (map rule_id rs) ->
  List.find (fun r => str_eqb (rule_id r) x) rs = Some r <-> r ∈ rs /\ rule_id r = x.
Proof.
  intros Hnd. split.
  - intros [Hin Heq%str_eqb_eq]%find_some. split; [by apply list_elem_of_In|done].
  - intros [Hin <-]. induction rs as [|y rs IH]; [by apply elem_of_nil in Hin|].
    cbn [map] in Hnd. apply NoDup_cons in Hnd as [Hn Hnd]. cbn [List.find].
    apply elem_of_cons in Hin as [->|Hin]; [by rewrite str_eqb_refl|].
    destruct (str_eqb (rule_id y) (rule_id r)) eqn:E; [|by apply IH]. apply str_eqb_eq in E.
    destruct Hn. rewrite E. apply list_elem_of_In, in_map. by apply list_elem_of_In.
Qed.

(** The rules of an enricher in the tables. *)
Lemma find_rules_spec (t : Tables) (id : str) : readable db ->
  StronglySorted (fun a b => (RuleEval.priority a <= RuleEval.priority b)%Z) (find_rules db t id) /\
  NoDup (map rule_id (find_rules db t id)) /\
  forall r, r ∈ find_rules db t id <->
    exists x row, t_rules t !! (id, x) = Some row /\ rr_enabled row = true /\ r = rule_of ((id, x), row).
Proof.
  intros (_ & _ & E1 & E2). unfold find_rules, read_rules. rewrite E1, E2. split; [apply by_priority_sorted|].
  set (l := List.filter _ (map_to_list (t_rules t))).
  assert (Hin : forall e x row, ((e, x), row) ∈ l <-> t_rules t !! (e, x) = Some row /\ e = id /\ rr_enabled row = true).
  { intros e x row. unfold l. rewrite list_elem_of_In, filter_In, <- list_elem_of_In, elem_of_map_to_list. cbn.
    rewrite andb_true_iff, str_eqb_eq. done. }
  split.
  - rewrite (Permutation_map _ (by_priority_perm _)), map_map.
    assert (Hnd : NoDup l) by (apply NoDup_ListNoDup, List.NoDup_filter, NoDup_ListNoDup, NoDup_map_to_list).
    clear -Hin Hnd. assert (H : forall kv, kv ∈ l -> fst (fst kv) = id) by (intros [[e x] row]; rewrite Hin; tauto).
    assert (Hm : forall kv kv', kv ∈ l -> kv' ∈ l -> rule_id (rule_of kv) = rule_id (rule_of kv') -> kv = kv').
    { intros [[e x] row] [[e' x'] row'] H1 H2 Heq. cbn in Heq. subst x'. pose proof (H _ H1). pose proof (H _ H2).
      cbn in *. subst. apply Hin in H1 as [H1 _], H2 as [H2 _]. congruence. }
    clear -Hm Hnd. induction Hnd as [|kv l Hn Hnd IH]; [constructor|]. cbn. constructor.
    + intros Hin. rewrite list_elem_of_In, in_map_iff in Hin. destruct Hin as (kv' & Heq & Hin).
      apply list_elem_of_In in Hin. destruct Hn.
      rewrite (Hm kv kv'); [done|apply list_elem_of_here|by apply list_elem_of_further|done].
    + apply IH. intros a b Ha Hb. apply Hm; by apply list_elem_of_further.
  - intros r. rewrite (by_priority_perm _), list_elem_of_In, in_map_iff. split.
    + intros ([[e x] row] & <- & Hi). apply list_elem_of_In, Hin in Hi as (H1 & -> & H2). by exists x, row.
    + intros (x & row & H1 & H2 & ->). exists ((id, x), row). split; [done|]. by apply list_elem_of_In, Hin.
Qed.

Lemma parse_file_rules (path content : str) (e : EnricherDescriptor) (rs : list RuleConfig) :
  parse_file path content = Ok (e, rs) -> forall r, r ∈ rs -> RuleEval.enricher_id r = en_id e.
Proof.
  assert (Hd : forall d, doc_descriptor d = (e, rs) -> forall r, r ∈ rs -> RuleEval.enricher_id r = en_id e).
  { intros d [= <- <-] r Hr. rewrite list_elem_of_In, in_map_iff in Hr. by destruct Hr as (x & <- & _). }
  unfold parse_file, parse_yaml, parse_toml. destruct (_ || _).
  - destruct (yaml_enricher content) as [d|err]; [|done]. intros E. apply (Hd d). cbn [map_err] in E. congruence.
  - destruct (toml_enricher content) as [d|err]; [|done]. intros E. apply (Hd d). cbn [map_err] in E. congruence.
Qed.

(** A stored enricher has no rules until they are stored, too. *)
Lemma rules_gone (e : EnricherDescriptor) (t t' : Tables) (x : str) :
  foreign_keys db = true -> refs_ok t -> upsert_enricher db e t = (Ok tt, t') -> t_rules t' !! (en_id e, x) = None.
Proof.
  intros Hfk [_ Hr] Hup. destruct (upsert_enricher_ok db e t t' Hup) as (_ & _ & Hrules). rewrite Hrules.
  destruct (decide _) as [Hd|Hd]; [reflexivity|]. apply eq_None_not_Some. intros Hs. apply Hd. split_and!; try done. by apply (Hr _ x).
Qed.

Lemma no_rules (t : Tables) (id : str) : readable db -> (forall x, t_rules t !! (id, x) = None) -> find_rules db t id = [].
Proof.
  intros Hread Hn. destruct (find_rules_spec t id Hread) as (_ & _ & Hin).
  destruct (find_rules db t id) as [|r l]; [done|]. destruct (proj1 (Hin r) (list_elem_of_here _ _)) as (x & row & Hrow & _).
  by rewrite Hn in Hrow.
Qed.

Lemma rules_stored (id : str) (rs : list RuleConfig) (t : Tables) : readable db -> NoDup (map rule_id rs) ->
  (forall r, r ∈ rs -> RuleEval.enricher_id r = id) ->
  Forall (fun r => forallb finite_action (RuleEval.actions r) = true) rs ->
  (forall x, t_rules t !! (id, x) =
     (fun r => mkRuleRow (RuleEval.condition r) (RuleEval.priority r) (RuleEval.enabled r)
                 (json_or_empty (actions_to_json (RuleEval.actions r)))) <$>
       List.find (fun r => str_eqb (rule_id r) x) rs) ->
  find_rules db t id ≡ₚ List.filter RuleEval.enabled rs.
Proof.
  intros Hread Hnd Hid Hfin H. destruct (find_rules_spec t id Hread) as (_ & Hnd' & Hin).
  apply NoDup_Permutation.
  - by apply (NoDup_fmap_1 rule_id).
  - apply NoDup_ListNoDup, List.NoDup_filter, NoDup_ListNoDup. by apply (NoDup_fmap_1 rule_id).
  - assert (Hrow : forall r, r ∈ rs -> rule_of ((id, rule_id r), mkRuleRow (RuleEval.condition r) (RuleEval.priority r)
      (RuleEval.enabled r) (json_or_empty (actions_to_json (RuleEval.actions r)))) = r).
    { intros r Hr. rewrite Forall_forall in Hfin. destruct (actions_written _ (Hfin r Hr)) as (s & -> & Es).
      cbn. rewrite Es. cbn. rewrite <- (Hid r Hr). by destruct r. }
    intros r. rewrite Hin, (list_elem_of_In (List.filter _ _)), filter_In, <- list_elem_of_In. split.
    + intros (x & row & Ht & He & ->). rewrite H in Ht. destruct (List.find _ rs) as [r|] eqn:Ef; [|done].
      injection Ht as <-. apply find_nodup in Ef as [Hr <-]; [|done]. by rewrite Hrow.
    + intros [Hr He]. eexists (rule_id r), _. rewrite H, (proj2 (find_nodup rs r _ Hnd)) by done.
      split; [reflexivity|]. split; [exact He|]. by rewrite Hrow.
Qed.

(** Importing a file, where foreign keys are enforced and the tables are sound.
    When it succeeds, every pattern of a [regex] extractor compiles, every
    condition parses, the enricher is stored and its rules are now exactly the
    enabled ones of the file, by priority - those it had before are gone.  When
    it fails, nothing has changed; or else storing the rules failed, and the
    enricher is the one of the file, without any rules, its old ones included. *)
Theorem import_spec (path content : str) (t t' : Tables) (r : result ImportError unit) :
  foreign_keys db = true -> readable db -> refs_ok t -> import_content db path content t = Some (r, t') ->
  refs_ok t' /\
  match r with
  | Ok _ => exists e rs, parse_file path content = Ok (e, rs) /\
      (forall x, x ∈ en_extractors e -> ec_type x = lit "regex" -> exists re, regex_new (ec_pattern x) = Ok re) /\
      (forall rule, rule ∈ rs -> exists ex, parse (RuleEval.condition rule) = Some (Ok ex)) /\
      t_enrichers t' !! en_id e = Some (enricher_row e) /\
      StronglySorted (fun a b => (RuleEval.priority a <= RuleEval.priority b)%Z) (find_rules db t' (en_id e)) /\
      (Forall (fun r => forallb finite_action (RuleEval.actions r) = true) rs ->
       find_rules db t' (en_id e) ≡ₚ List.filter RuleEval.enabled rs)
  | Err _ => t' = t \/ exists e rs, parse_file path content = Ok (e, rs) /\ rs <> [] /\
      t_enrichers t' !! en_id e = Some (enricher_row e) /\ find_rules db t' (en_id e) = []
  end.
Proof.
  intros Hfk Hread Ht. unfold import_content.
  destruct (parse_file path content) as [[e rs]|err] eqn:Ep; [|intros [= <- <-]; tauto].
  destruct (check_extractors (en_id e) (en_extractors e)) as [[]|err] eqn:Ex; [|intros [= <- <-]; tauto].
  destruct (check_rules_total (en_id e) rs) as (o & -> & Ho). destruct o as [[]|err]; [|intros [= <- <-]; tauto].
  unfold store_import. pose proof (refs_enricher e t Ht) as Ht1.
  destruct (upsert_enricher db e t) as [[[]|err] t1] eqn:E1;
    [|intros [= <- <-]; apply upsert_enricher_err in E1 as ->; tauto].
  cbn [snd] in Ht1. pose proof (rules_gone e t t1) as Hgone.
  assert (He1 : t_enrichers t1 !! en_id e = Some (enricher_row e)).
  { destruct (upsert_enricher_ok db e t t1 E1) as (-> & _). apply lookup_insert_eq. }
  assert (Hsort : forall t, StronglySorted (fun a b => (RuleEval.priority a <= RuleEval.priority b)%Z)
    (find_rules db t (en_id e))) by (intros t0; by apply find_rules_spec).
  pose proof (check_extractors_ok _ _ Ex) as Hre. specialize (Ho eq_refl).
  destruct rs as [|r0 rs0] eqn:Ers.
  - intros [= <- <-]. split; [done|]. exists e, []. split_and!; try done.
    intros _. rewrite no_rules; [done|done|]. intros x. by apply Hgone.
  - rewrite <- Ers in *. pose proof (refs_rules (en_id e) rs t1 Hfk Ht1) as Ht2.
    destruct (upsert_rules db (en_id e) rs t1) as [[[]|err] t2] eqn:E2; intros [= <- <-]; cbn [snd] in Ht2.
    + destruct (upsert_rules_ok _ _ _ _ E2) as (He2 & _ & Hnd & _ & Hrules).
      split; [done|]. exists e, rs. split_and!; try done; [by rewrite He2|]. intros Hfin.
      apply rules_stored; [done|done|by apply (parse_file_rules path content)|done|].
      intros x. by rewrite Hrules, decide_True.
    + split; [done|]. apply upsert_rules_err in E2 as ->. right. exists e, rs.
      split_and!; try done; [by rewrite Ers|]. apply no_rules; [done|]. intros x. by apply Hgone.
Qed.

(** Importing a directory always ends; it answers with a count between zero and
    the number of importable files, however many of them are broken, and leaves
    the tables sound. *)
Lemma import_entries_total (l : list DirEntry) (n : Z) (t : Tables) :
  foreign_keys db = true -> refs_ok t ->
  exists m t', import_entries db l n t = Some (m, t') /\ refs_ok t' /\
    (n <= m <= n + Z.of_nat (length (List.filter importable l)))%Z.
Proof.
  intros Hfk. revert n t. induction l as [|d l IH]; intros n t Ht.
  - exists n, t. cbn. split; [done|]. split; [done|]. lia.
  - cbn [import_entries List.filter]. destruct (importable d); [|by apply IH].
    assert (H : exists r t1, import_file db (de_path d) (de_content d) t = Some (r, t1) /\ refs_ok t1).
    { unfold import_file, import_content. destruct (de_content d) as [c|e]; [|by eexists _, _].
      destruct (parse_file _ c) as [[e rs]|err]; [|by eexists _, _].
      destruct (check_extractors _ _); [|by eexists _, _].
      destruct (check_rules_total (en_id e) rs) as (o & -> & _). destruct o as [[]|err]; [|by eexists _, _].
      destruct (store_import db e rs t) as [r t1] eqn:E. exists r, t1. split; [done|]. unfold store_import in E.
      pose proof (refs_enricher e t Ht) as H1. destruct (upsert_enricher db e t) as [[[]|err] t2]; [|by injection E as _ <-].
      destruct rs as [|r0 rs0]; [by injection E as _ <-|]. pose proof (refs_rules (en_id e) (r0 :: rs0) t2 Hfk H1) as H2.
      by destruct (upsert_rules db (en_id e) (r0 :: rs0) t2) as [[[]|err] t3]; injection E as _ <-. }
    destruct H as (r & t1 & -> & Ht1). cbn [length].
    destruct r as [[]|err]; [destruct (IH (n + 1)%Z t1 Ht1) as (m & t' & E & Hr & Hb)|
      destruct (IH n t1 Ht1) as (m & t' & E & Hr & Hb)]; exists m, t'; (split; [done|]); (split; [done|lia]).
Qed.
End Imports.

(** ** A demonstration *)

Module Demo.
Import SandboxDb.Demo.
#[local] Existing Instances some_order substring_engine.

#[local] Instance ascii : UnicodeTables := fun _ => false.

(** A confidence as a code. *)
Definition float_tuple (x : float) : bool + (bool * positive * Z) :=
  match x with S754_finite s m e => inr (s, m, e) | S754_zero s => inl s | _ => inl true end.
Definition tuple_float (x : bool + (bool * positive * Z)) : float :=
  match x with inr (s, m, e) => S754_finite s m e | inl s => S754_zero s end.

Definition action_tuple (a : RuleAction) : (str * str * (bool + (bool * positive * Z))) + (str + str) :=
  match a with
  | DeriveFact k v c => inl (k, v, float_tuple c)
  | SetVerdict v => inr (inl v)
  | Recommend r => inr (inr r)
  end.
Definition tuple_action (t : (str * str * (bool + (bool * positive * Z))) + (str + str)) : RuleAction :=
  match t with
  | inl (k, v, c) => DeriveFact k v (tuple_float c)
  | inr (inl v) => SetVerdict v
  | inr (inr r) => Recommend r
  end.

Lemma tuples_actions (l : list RuleAction) : forallb finite_action l = true ->
  map tuple_action (map action_tuple l) = l.
Proof.
  induction l as [|a l IH]; [done|]. cbn [forallb]. intros [Ha Hl]%andb_prop. cbn [map]. rewrite (IH Hl). f_equal.
  destruct a as [k v c| |]; [|done|done]. by destruct c.
Qed.

(** A file whose text is [a] holds one enricher with a rule and a disabled one,
    the text [b] the same enricher with two rules of one id. *)
Definition doc (rules : list DocRule) : DocEnricher :=
  mkDocEnricher (lit "maven") (lit "Maven") (lit "1") [lit "mvn"] (lit "Build") None
    [mkDocExtractor (lit "tests") (lit "regex") (lit "Tests run") (lit "tests_run") None (Some (lit "multi")) None None None
       None None (Some true)] (Some rules) None None None (Some (lit "mvnw")) None None None.

Definition rule (id condition : string) (on : option bool) : DocRule :=
  mkDocRule (lit id) (lit condition) None on (Some [DocSetVerdict (lit "success")]).

#[export] Instance demo_catalog_text : CatalogText := {|
  strings_to_json := fun l => Ok (code l);
  strings_from_json := uncode;
  actions_to_json := fun l => Ok (code (map action_tuple l));
  actions_from_json := fun s => match uncode s with Ok l => Ok (map tuple_action l) | Err e => Err e end;
  yaml_enricher := fun s =>
    if str_eqb s (lit "a") then Ok (doc [rule "ok" "exit_code == 0" None; rule "off" "exit_code == 1" (Some false)])
    else if str_eqb s (lit "b") then Ok (doc [rule "ok" "exit_code == 0" None; rule "ok" "exit_code == 1" None])
    else Err (lit "invalid type");
  toml_enricher := fun _ => Err (lit "expected an equals")
|}.

#[export] Instance demo_catalog_laws : CatalogTextLaws.
Proof.
  split.
  - intros l. exists (code l). split; [done|]. apply uncode_code.
  - intros l Hl. exists (code (map action_tuple l)). split; [done|]. cbn [actions_from_json demo_catalog_text].
    rewrite uncode_code. by rewrite tuples_actions.
Defined.

Definition priority_le (a b : RuleConfig) : Prop := (RuleEval.priority a <= RuleEval.priority b)%Z.
#[local] Instance priority_le_dec : RelDecision priority_le.
Proof. intros a b. unfold priority_le. apply _. Defined.
#[local] Instance priority_le_total : Total priority_le.
Proof. intros a b. unfold priority_le. lia. Qed.
#[local] Instance priority_le_trans : Transitive priority_le.
Proof. intros a b c. unfold priority_le. lia. Qed.

#[export] Instance merge_rows : SqlRows := {|
  any_order := fun A l => l;
  any_order_perm := fun A l => Permutation_refl l;
  by_priority := merge_sort priority_le;
  by_priority_perm := merge_sort_Permutation priority_le;
  by_priority_sorted := fun l => StronglySorted_merge_sort priority_le l
|}.

Definition sql : CatalogSql := mkCatalogSql (fun _ => None) true (lit "UNIQUE constraint failed").

Definition after (o : option (result ImportError unit * Tables)) : Tables :=
  match o with Some (_, t) => t | None => empty_tables end.

Definition imported : Tables := after (import_content sql (lit "maven.yaml") (lit "a") empty_tables).

Lemma empty_refs : refs_ok empty_tables.
Proof. split; intros e x; cbn; rewrite lookup_empty; by intros []. Qed.

Lemma sql_readable : readable sql.
Proof. done. Qed.

(** The enabled rule of the file is the one that is found. *)
Lemma import_spec_witness :
  refs_ok imported /\ find_rules sql imported (lit "maven") =
    [mkRule (lit "ok") (lit "maven") (lit "exit_code == 0") 0 true [SetVerdict (lit "success")]].
Proof.
  assert (E : import_content sql (lit "maven.yaml") (lit "a") empty_tables = Some (Ok tt, imported))
    by (vm_compute; reflexivity).
  destruct (import_spec sql _ _ _ _ _ eq_refl sql_readable empty_refs E) as (H & _).
  split; [exact H|]. vm_compute. reflexivity.
Defined.

(** The second import fails, and the rule of the first one is gone. *)
Example failed_import_loses_rules :
  exists e, import_content sql (lit "maven.yaml") (lit "b") imported =
    Some (Err e, after (import_content sql (lit "maven.yaml") (lit "b") imported)) /\
  find_rules sql (after (import_content sql (lit "maven.yaml") (lit "b") imported)) (lit "maven") = [].
Proof. eexists. split; [vm_compute; reflexivity|vm_compute; reflexivity]. Qed.

Lemma catalog_integrity_witness : refs_ok (fold_left (fun t op => match op with
    | inl e => snd (upsert_enricher sql e t)
    | inr (id, rs) => snd (upsert_rules sql id rs t)
    end) [inl (enricher (lit "npm") [] []); inr (lit "gone", [])] empty_tables).
Proof. apply (catalog_integrity sql); [reflexivity|exact empty_refs]. Defined.

Definition npm : EnricherDescriptor :=
  enricher (lit "npm") [lit "npm"] [extractor_config (lit "x") (lit "regex") (lit "ok") (lit "k") (lit "multi")].

Lemma catalog_roundtrip_witness :
  exists xs, xs ≡ₚ map kept_extractor (en_extractors npm) /\
    with_extractors xs npm ∈
    store_list_all sql (snd (upsert_enricher sql npm imported)).
Proof.
  destruct (catalog_roundtrip sql npm imported (snd (upsert_enricher sql npm imported)) (lit "npm test"))
    as (_ & H & _).
  - exact sql_readable.
  - apply NoDup_singleton.
  - transitivity (fst (upsert_enricher sql npm imported), snd (upsert_enricher sql npm imported));
      [apply surjective_pairing|]. reflexivity.
  - exact H.
Defined.
End Demo.
