(* ===== verification/Schema.v ===== *)
(** * The schemas of the enrichment databases

    Models the opening of the two SQLite databases of the enrichment engine in
    [bastion-infrastructure/src/enrichment]: the catalog
    ([SqliteCatalogRepository::new] in [sqlite_repo.rs], which adds the columns
    that are missing) and the runs ([SchemaMigration] in [schema_migration.rs]
    and [SqliteRunRecorder::new] in [sqlite_recorder.rs], which goes through
    numbered versions).

    Of a database only the columns of its tables and the recorded versions
    matter here.  What a [CREATE], an [ALTER] or an [INSERT] does to them is
    SQLite's documented behaviour: a table that is there is not created again,
    and a column can only be added to a table that is there and has none of that
    name.  Any statement may fail besides ([SchemaSql]). *)

From S2P Require Import Prelude Sandbox.

Record Database := mkDatabase {
  db_tables : gmap str (list str);  (** the columns of each table *)
  db_versions : list Z              (** the rows of [schema_version] *)
}.

Definition fresh : Database := mkDatabase ∅ [].

Inductive schema_sql :=
| SqlMkdir | SqlOpen | SqlSchema | SqlTableInfo | SqlAlter
| SqlVersionTable | SqlVersionQuery | SqlBeginImmediate | SqlRecheck | SqlInsertVersion
| SqlCommitMigration | SqlWorker.

(** The text of the error of a statement that fails, and the texts of the two
    constraints. *)
Record SchemaSql := mkSchemaSql {
  schema_error : schema_sql -> option str; no_such_table : str; duplicate_column : str; duplicate_key : str
}.

Section Schema.
Variable sql : SchemaSql.

Definition schema_step {A} (s : schema_sql) (what : string) (k : result DomainError A) : result DomainError A :=
  match schema_error sql s with
  | Some e => Err (Internal (lit what ++ e))
  | None => k
  end.

(** [CREATE TABLE IF NOT EXISTS]. *)
Definition create_table (table : str) (columns : list str) (d : Database) : Database :=
  match db_tables d !! table with
  | Some _ => d
  | None => mkDatabase (<[table := columns]> (db_tables d)) (db_versions d)
  end.

(** [ALTER TABLE ... ADD COLUMN]. *)
Definition add_column (table column : str) (d : Database) : result str Database :=
  match schema_error sql SqlAlter with
  | Some e => Err e
  | None =>
      match db_tables d !! table with
      | None => Err (no_such_table sql)
      | Some columns =>
          if existsb (str_eqb column) columns then Err (duplicate_column sql)
          else Ok (mkDatabase (<[table := columns ++ [column]]> (db_tables d)) (db_versions d))
      end
  end.

(** [SELECT COUNT(...) FROM pragma_table_info]: false when it fails. *)
Definition has_column (table column : str) (d : Database) : bool :=
  match schema_error sql SqlTableInfo with
  | Some _ => false
  | None => match db_tables d !! table with Some columns => existsb (str_eqb column) columns | None => false end
  end.

(** ** The catalog *)

Definition enrichers_columns : list str := map lit
  ["id"; "name"; "version"; "match_patterns_json"; "template"; "enabled"; "schema_version"; "description";
   "category"; "command_pattern"; "advice_scope_json"; "pre_checks_json"; "assertions_json"]%string.
Definition extractors_columns : list str := map lit
  ["id"; "enricher_id"; "type"; "pattern"; "fact_key"; "priority"; "merge_mode"; "output_key"; "shape";
   "fact_type"; "confidence"; "source"; "single"]%string.
Definition rules_columns : list str := map lit
  ["id"; "enricher_id"; "condition"; "priority"; "enabled"; "actions_json"]%string.

Definition t_enrichers_name : str := lit "enrichers".
Definition t_extractors_name : str := lit "extractors".
Definition t_rules_name : str := lit "rules".

(** [None]: the panic when a column cannot be added. *)
Definition add_column_if_not_exists (table column : str) (d : Database) : option Database :=
  if has_column table column d then Some d
  else match add_column table column d with Ok d => Some d | Err _ => None end.

(** The columns that are added to older databases, in this order; the first one
    has its own code, which does the same. *)
Definition catalog_migrations : list (str * str) :=
  (t_extractors_name, lit "merge_mode") ::
  map (fun c => (t_enrichers_name, lit c))
    ["schema_version"; "description"; "category"; "command_pattern"; "advice_scope_json"; "pre_checks_json";
     "assertions_json"]%string ++
  map (fun c => (t_extractors_name, lit c))
    ["output_key"; "shape"; "fact_type"; "confidence"; "source"; "single"]%string.

Fixpoint migrate_all (l : list (str * str)) (d : Database) : option Database :=
  match l with
  | [] => Some d
  | (table, column) :: l' =>
      match add_column_if_not_exists table column d with
      | Some d => migrate_all l' d
      | None => None
      end
  end.

Definition catalog_schema (d : Database) : Database :=
  create_table t_rules_name rules_columns
    (create_table t_extractors_name extractors_columns
       (create_table t_enrichers_name enrichers_columns d)).

(** [None] is a panic. *)
Definition SqliteCatalogRepository_new (d : Database) : option (result DomainError unit * Database) :=
  match schema_step SqlMkdir "Failed to create DB directory: " (
        schema_step SqlOpen "Failed to open SQLite DB: " (
        schema_step SqlSchema "Failed to create schema: " (Ok tt))) with
  | Err e => Some (Err e, d)
  | Ok _ =>
      match migrate_all catalog_migrations (catalog_schema d) with
      | Some d => Some (Ok tt, d)
      | None => None
      end
  end.

(** ** The runs *)

Definition CURRENT_VERSION : Z := 2.

Definition t_runs : str := lit "enrichment_runs".
Definition t_version : str := lit "schema_version".
Definition version_columns : list str := map lit ["version"; "applied_at"; "description"]%string.
Definition sandbox_id_column : str := lit "sandbox_id".

(** The columns that the recorder creates the table with. *)
Definition runs_columns : list str := map lit
  ["id"; "timestamp"; "command"; "enricher_id"; "exit_code"; "duration_ms"; "output_summary_stdout";
   "output_summary_stderr"; "facts_count"; "derived_facts_count"; "rule_hits_count"; "diagnostics_count";
   "artifact_count"; "confidence_avg"; "verdict"; "recommendation_count"; "error"]%string.

(** [MAX(version)], or zero. *)
Definition max_version (d : Database) : Z :=
  match db_versions d with [] => 0%Z | v :: vs => fold_left Z.max vs v end.

Definition get_version (d : Database) : result DomainError Z * Database :=
  match schema_error sql SqlVersionTable with
  | Some e => (Err (Internal (lit "Failed to ensure schema_version table: " ++ e)), d)
  | None =>
      let d := create_table t_version version_columns d in
      (schema_step SqlVersionQuery "Failed to query schema version: " (Ok (max_version d)), d)
  end.

Definition record_version (v : Z) (d : Database) : result str Database :=
  match schema_error sql SqlInsertVersion with
  | Some e => Err e
  | None =>
      if existsb (Z.eqb v) (db_versions d) then Err (duplicate_key sql)
      else Ok (mkDatabase (db_tables d) (db_versions d ++ [v]))
  end.

(** The steps inside the transaction. *)
Definition migration_body (d : Database) : result DomainError Database :=
  schema_step SqlRecheck "Failed to re-check version: " (
    if (2 <=? max_version d)%Z then Ok d
    else
      match add_column t_runs sandbox_id_column d with
      | Err e => Err (Internal (lit "Failed to add sandbox_id column: " ++ e))
      | Ok d =>
          match record_version 2 d with
          | Err e => Err (Internal (lit "Failed to record v2 migration: " ++ e))
          | Ok d => Ok d
          end
      end).

(** A failed step or a failed commit rolls back (the connection of a failed
    commit is closed with its transaction open). *)
Definition migrate_v1_to_v2 (d : Database) : result DomainError unit * Database :=
  match schema_step SqlBeginImmediate "Failed to begin migration transaction: " (
        d' ← migration_body d; schema_step SqlCommitMigration "Failed to commit migration: " (Ok d')) with
  | Ok d' => (Ok tt, d')
  | Err e => (Err e, d)
  end.

Definition SchemaMigration_run (d : Database) : result DomainError unit * Database :=
  match get_version d with
  | (Err e, d) => (Err e, d)
  | (Ok current, d) =>
      if (CURRENT_VERSION <=? current)%Z then (Ok tt, d)
      else if (current <? 2)%Z then migrate_v1_to_v2 d
      else (Ok tt, d)
  end.

(** The migrations come before the table they migrate is created. *)
Definition SqliteRunRecorder_new (d : Database) : result DomainError unit * Database :=
  match schema_step SqlMkdir "Failed to create DB directory: " (
        schema_step SqlOpen "Failed to open SQLite DB: " (Ok tt)) with
  | Err e => (Err e, d)
  | Ok _ =>
      match SchemaMigration_run d with
      | (Err e, d) => (Err e, d)
      | (Ok _, d) =>
          match schema_error sql SqlSchema with
          | Some e => (Err (Internal (lit "Failed to create schema: " ++ e)), d)
          | None =>
              (schema_step SqlWorker "Failed to start SQLite worker: " (Ok tt), create_table t_runs runs_columns d)
          end
      end
  end.
End Schema.

(** ** Sound databases *)

Definition sound_sql (sql : SchemaSql) : Prop := forall s, schema_error sql s = None.

Definition columns_of (table : str) (d : Database) : list str := default [] (db_tables d !! table).

Section Facts.
Variable sql : SchemaSql.
Hypothesis SOUND : sound_sql sql.

Lemma has_column_spec (table column : str) (d : Database) :
  has_column sql table column d = true <-> column ∈ columns_of table d.
Proof.
  unfold has_column, columns_of. rewrite SOUND. destruct (db_tables d !! table) as [cs|]; cbn.
  - rewrite existsb_exists, list_elem_of_In. split; [intros (x & Hx & ->%str_eqb_eq); done|].
    intros Hx. exists column. by rewrite str_eqb_refl.
  - split; [done|]. by intros ?%elem_of_nil.
Qed.

(** Columns are only ever added. *)
Definition extends (d d' : Database) : Prop :=
  db_versions d' = db_versions d /\
  forall table, is_Some (db_tables d !! table) -> exists l, db_tables d' !! table = Some (columns_of table d ++ l).

Lemma extends_refl d : extends d d.
Proof.
  split; [done|]. intros table [cs Hs]. exists []. unfold columns_of. by rewrite Hs, app_nil_r.
Qed.

Lemma extends_trans d1 d2 d3 : extends d1 d2 -> extends d2 d3 -> extends d1 d3.
Proof.
  intros [V1 H1] [V2 H2]. split; [congruence|]. intros table Hs. destruct (H1 table Hs) as [l1 E1].
  destruct (H2 table) as [l2 E2]; [by rewrite E1|]. exists (l1 ++ l2). rewrite E2. unfold columns_of at 1.
  by rewrite E1, app_assoc.
Qed.

Lemma create_extends (table : str) (columns : list str) (d : Database) :
  extends d (create_table table columns d) /\ is_Some (db_tables (create_table table columns d) !! table).
Proof.
  unfold create_table. destruct (db_tables d !! table) as [cs|] eqn:E.
  - split; [apply extends_refl|by rewrite E].
  - split; [|cbn; rewrite lookup_insert_eq; by eexists]. split; [done|]. intros tb [cs Hs]. exists [].
    cbn. unfold columns_of. rewrite Hs, app_nil_r, lookup_insert_ne; [done|]. congruence.
Qed.

Lemma extends_some d d' table : extends d d' -> is_Some (db_tables d !! table) -> is_Some (db_tables d' !! table).
Proof. intros [_ H] Hs. destruct (H table Hs) as [l E]. by rewrite E. Qed.

Lemma extends_columns d d' table c : extends d d' -> c ∈ columns_of table d -> c ∈ columns_of table d'.
Proof.
  intros [_ H] Hc. unfold columns_of in Hc |- *. destruct (db_tables d !! table) as [cs|] eqn:E;
    [|by apply elem_of_nil in Hc].
  destruct (H table) as [l ->]; [by rewrite E|]. cbn. apply elem_of_app. left. unfold columns_of. by rewrite E.
Qed.

Lemma add_missing (table column : str) (d : Database) : is_Some (db_tables d !! table) ->
  exists d', add_column_if_not_exists sql table column d = Some d' /\ extends d d' /\
    column ∈ columns_of table d' /\ (column ∈ columns_of table d -> d' = d).
Proof.
  intros [cs Hs]. unfold add_column_if_not_exists. destruct (has_column sql table column d) eqn:Eh.
  - apply has_column_spec in Eh. exists d. split_and!; try done. apply extends_refl.
  - assert (Hn : column ∉ columns_of table d) by (rewrite <- has_column_spec; by rewrite Eh).
    unfold add_column. rewrite SOUND, Hs. unfold columns_of in Hn. rewrite Hs in Hn. cbn in Hn.
    destruct (existsb (str_eqb column) cs) eqn:Ex.
    { destruct Hn. apply existsb_exists in Ex as (x & Hx & ->%str_eqb_eq). by apply list_elem_of_In. }
    eexists. split; [reflexivity|]. split; [|split].
    + split; [done|]. intros tb Htb. cbn. destruct (decide (tb = table)) as [->|Hne].
      * exists [column]. unfold columns_of. by rewrite lookup_insert_eq, Hs.
      * exists []. destruct Htb as [cs' Ht]. unfold columns_of. by rewrite lookup_insert_ne, Ht, app_nil_r by done.
    + unfold columns_of. cbn. rewrite lookup_insert_eq. cbn. apply elem_of_app. right. by apply list_elem_of_singleton.
    + unfold columns_of. rewrite Hs. done.
Qed.

Lemma migrate_ok (l : list (str * str)) (d : Database) :
  (forall table column, (table, column) ∈ l -> is_Some (db_tables d !! table)) ->
  exists d', migrate_all sql l d = Some d' /\ extends d d' /\
    (forall table column, (table, column) ∈ l -> column ∈ columns_of table d') /\
    ((forall table column, (table, column) ∈ l -> column ∈ columns_of table d) -> d' = d).
Proof.
  revert d. induction l as [|[tb c] l IH]; intros d Ht.
  - exists d. split_and!; try done; [apply extends_refl|]. by intros tb c ?%elem_of_nil.
  - destruct (add_missing tb c d) as (d1 & E1 & X1 & C1 & K1); [apply (Ht tb c), list_elem_of_here|].
    destruct (IH d1) as (d2 & E2 & X2 & C2 & K2).
    { intros tb' c' Hin. apply (extends_some d d1 tb' X1), (Ht tb' c'). by apply list_elem_of_further. }
    exists d2. cbn [migrate_all]. rewrite E1. split; [done|]. split; [by eapply extends_trans|]. split.
    + intros tb' c' [[= -> ->]|Hin]%elem_of_cons; [by eapply extends_columns|by apply C2].
    + intros Hc. assert (d1 = d) as -> by (apply K1, Hc, list_elem_of_here).
      apply K2. intros tb' c' Hin. apply Hc. by apply list_elem_of_further.
Qed.

Lemma create_existing (table : str) (columns : list str) (d : Database) :
  is_Some (db_tables d !! table) -> create_table table columns d = d.
Proof. intros [cs Hs]. unfold create_table. by rewrite Hs. Qed.

Definition catalog_tables : list str := [t_enrichers_name; t_extractors_name; t_rules_name].

(** Opening the catalog brings every older database up to date, when no
    statement fails: it never panics, keeps every table, column and row of
    before, and afterwards the three tables are there with all the columns that
    are ever added; opening it again changes nothing. *)
Theorem catalog_open_spec (d : Database) :
  exists d', SqliteCatalogRepository_new sql d = Some (Ok tt, d') /\ extends d d' /\
    (forall table, table ∈ catalog_tables -> is_Some (db_tables d' !! table)) /\
    (forall table column, (table, column) ∈ catalog_migrations -> column ∈ columns_of table d') /\
    SqliteCatalogRepository_new sql d' = Some (Ok tt, d').
Proof.
  assert (Hnew : forall d, SqliteCatalogRepository_new sql d =
    match migrate_all sql catalog_migrations (catalog_schema d) with Some d => Some (Ok tt, d) | None => None end).
  { intros d0. unfold SqliteCatalogRepository_new, schema_step. by rewrite !SOUND. }
  assert (Hschema : extends d (catalog_schema d) /\
    forall table, table ∈ catalog_tables -> is_Some (db_tables (catalog_schema d) !! table)).
  { unfold catalog_schema. destruct (create_extends t_enrichers_name enrichers_columns d) as [X1 T1].
    set (d1 := create_table _ _ d) in *. destruct (create_extends t_extractors_name extractors_columns d1) as [X2 T2].
    set (d2 := create_table _ _ d1) in *. destruct (create_extends t_rules_name rules_columns d2) as [X3 T3].
    split; [by eapply extends_trans; [|eapply extends_trans]|].
    intros table [->|[->|[->|[]%elem_of_nil]%elem_of_cons]%elem_of_cons]%elem_of_cons; [| |done].
    - by apply (extends_some d2), (extends_some d1).
    - by apply (extends_some d2). }
  destruct Hschema as [X0 T0].
  assert (Htab : forall table column, (table, column) ∈ catalog_migrations -> table ∈ catalog_tables).
  { intros tb c Hin. assert (Forall (fun tc => fst tc ∈ catalog_tables) catalog_migrations) as Hf
      by (apply (bool_decide_unpack _); vm_compute; exact I).
    rewrite Forall_forall in Hf. exact (Hf _ Hin). }
  destruct (migrate_ok catalog_migrations (catalog_schema d)) as (d' & E & X & C & _);
    [intros tb c Hin; by apply T0, (Htab tb c)|].
  assert (T : forall table, table ∈ catalog_tables -> is_Some (db_tables d' !! table))
    by (intros tb Hin; by apply (extends_some (catalog_schema d)), T0).
  exists d'. split; [by rewrite Hnew, E|]. split; [by eapply extends_trans|]. split; [done|]. split; [done|].
  rewrite Hnew. assert (catalog_schema d' = d') as ->.
  { unfold catalog_schema. rewrite (create_existing t_enrichers_name), (create_existing t_extractors_name),
      (create_existing t_rules_name); try done; apply T; by repeat constructor. }
  destruct (migrate_ok catalog_migrations d') as (d'' & E' & _ & _ & K);
    [intros tb c Hin; by apply T, (Htab tb c)|]. by rewrite E', (K C).
Qed.

Lemma fold_max (l : list Z) (v : Z) : fold_left Z.max l v = Z.max v (fold_left Z.max l v).
Proof.
  revert v. induction l as [|x l IH]; intros v; cbn; [lia|]. pose proof (IH (Z.max v x)). lia.
Qed.

Lemma max_version_snoc (d : Database) (v : Z) : (0 <= v)%Z ->
  max_version (mkDatabase (db_tables d) (db_versions d ++ [v])) =
    match db_versions d with [] => v | _ => Z.max (max_version d) v end.
Proof.
  intros Hv. unfold max_version. cbn. destruct (db_versions d) as [|x l]; [done|]. cbn.
  by rewrite fold_left_app.
Qed.

Lemma max_version_bound (d : Database) (v : Z) : v ∈ db_versions d -> (v <= max_version d)%Z.
Proof.
  unfold max_version. destruct (db_versions d) as [|x l]; [by intros ?%elem_of_nil|].
  revert x. induction l as [|y l IH]; intros x Hin.
  - apply list_elem_of_singleton in Hin as ->. cbn. lia.
  - cbn. apply elem_of_cons in Hin as [->|[->|Hin]%elem_of_cons].
    + rewrite fold_max. lia.
    + rewrite fold_max. lia.
    + apply IH. by apply list_elem_of_further.
Qed.

Lemma get_version_ok (d : Database) :
  get_version sql d = (Ok (max_version d), create_table t_version version_columns d) /\
  max_version (create_table t_version version_columns d) = max_version d /\
  db_versions (create_table t_version version_columns d) = db_versions d.
Proof.
  unfold get_version, schema_step. rewrite !SOUND. unfold create_table.
  by destruct (db_tables d !! t_version).
Qed.

Lemma recorder_ok (d : Database) : SqliteRunRecorder_new sql d =
  match SchemaMigration_run sql d with
  | (Err e, d) => (Err e, d)
  | (Ok _, d) => (Ok tt, create_table t_runs runs_columns d)
  end.
Proof.
  unfold SqliteRunRecorder_new, schema_step. rewrite !SOUND.
  by destruct (SchemaMigration_run sql d) as [[[]|e] d'].
Qed.

(** What remains of an attempt to open a new database. *)
Definition attempted : Database := mkDatabase {[t_version := version_columns]} [].

Lemma fresh_rejected (d : Database) : d = fresh \/ d = attempted ->
  SqliteRunRecorder_new sql d =
    (Err (Internal (lit "Failed to add sandbox_id column: " ++ no_such_table sql)), attempted).
Proof.
  intros Hd. rewrite recorder_ok. unfold SchemaMigration_run. destruct (get_version_ok d) as (-> & Hm & Hv).
  assert (max_version d = 0%Z) as -> by (by destruct Hd as [->| ->]).
  assert (create_table t_version version_columns d = attempted) as -> by (by destruct Hd as [->| ->]).
  unfold migrate_v1_to_v2, migration_body, schema_step, add_column. by rewrite !SOUND.
Qed.

(** Opening the database of runs, when no statement fails.  One of version 2 or
    later is opened, and its table created if need be; one of an earlier version
    whose table has no column [sandbox_id] is migrated, keeps all its columns
    and is recorded as version 2; but a new one, in which there is no table to
    migrate, is rejected - and rejected again at every later start, since all
    that remains of an attempt is the empty table of versions. *)
Theorem recorder_open_spec :
  (forall d, (2 <= max_version d)%Z ->
     exists d', SqliteRunRecorder_new sql d = (Ok tt, d') /\ max_version d' = max_version d /\
       is_Some (db_tables d' !! t_runs)) /\
  (forall d columns, (max_version d < 2)%Z -> db_tables d !! t_runs = Some columns -> sandbox_id_column ∉ columns ->
     exists d', SqliteRunRecorder_new sql d = (Ok tt, d') /\ max_version d' = 2%Z /\
       db_tables d' !! t_runs = Some (columns ++ [sandbox_id_column])) /\
  forall n, let d := Nat.iter n (fun d => snd (SqliteRunRecorder_new sql d)) fresh in
    is_ok (fst (SqliteRunRecorder_new sql d)) = false /\ db_tables d !! t_runs = None.
Proof.
  split; [|split].
  - intros d Hv. rewrite recorder_ok. unfold SchemaMigration_run. destruct (get_version_ok d) as (-> & Hm & _).
    unfold CURRENT_VERSION. rewrite (proj2 (Z.leb_le _ _) Hv). eexists. split; [reflexivity|].
    destruct (create_extends t_runs runs_columns (create_table t_version version_columns d)) as [[Hvs _] Hs].
    split; [|done]. unfold max_version in *. by rewrite Hvs, <- Hm.
  - intros d columns Hv Ht Hn. rewrite recorder_ok. unfold SchemaMigration_run.
    destruct (get_version_ok d) as (-> & Hm & Hvs). set (d1 := create_table t_version version_columns d) in *.
    unfold CURRENT_VERSION. rewrite (proj2 (Z.leb_gt _ _) Hv), (proj2 (Z.ltb_lt _ _) Hv).
    assert (Ht1 : db_tables d1 !! t_runs = Some columns).
    { unfold d1, create_table. destruct (db_tables d !! t_version); [done|]. cbn. by rewrite lookup_insert_ne. }
    unfold migrate_v1_to_v2, migration_body, schema_step, add_column, record_version.
    rewrite !SOUND, Hm, (proj2 (Z.leb_gt _ _) Hv), Ht1.
    destruct (existsb (str_eqb sandbox_id_column) columns) eqn:Ec.
    { destruct Hn. apply existsb_exists in Ec as (x & Hx & ->%str_eqb_eq). by apply list_elem_of_In. }
    cbn [db_versions]. destruct (existsb (Z.eqb 2) (db_versions d1)) eqn:E2.
    { apply existsb_exists in E2 as (x & Hx & <-%Z.eqb_eq). rewrite <- list_elem_of_In, Hvs in Hx.
      apply max_version_bound in Hx. lia. }
    cbn [mbind result_bind]. eexists. split; [reflexivity|]. rewrite create_existing; cbn [db_tables];
      rewrite lookup_insert_eq; [|by eexists]. split; [|done].
    pose proof (max_version_snoc d1 2 ltac:(lia)) as Hs. unfold max_version in Hs |- *. cbn [db_versions] in *.
    rewrite Hs. unfold max_version in Hm. destruct (db_versions d1); [done|]. unfold max_version in Hv. lia.
  - intros n.
    assert (H : Nat.iter n (fun d => snd (SqliteRunRecorder_new sql d)) fresh = fresh \/
                Nat.iter n (fun d => snd (SqliteRunRecorder_new sql d)) fresh = attempted).
    { induction n as [|n IH]; [by left|]. right. rewrite Nat.iter_succ. by rewrite (fresh_rejected _ IH). }
    cbv zeta. rewrite (fresh_rejected _ H). split; [done|]. by destruct H as [-> | ->].
Qed.
End Facts.

(** ** A demonstration *)

Module Demo.
Definition sql : SchemaSql := mkSchemaSql (fun _ => None) (lit "no such table: enrichment_runs")
  (lit "duplicate column name") (lit "UNIQUE constraint failed").

Lemma sql_sound : sound_sql sql.
Proof. done. Qed.

(** A catalog from before the first of the added columns. *)
Definition old : Database :=
  mkDatabase (<[t_enrichers_name := take 6 enrichers_columns]> {[t_extractors_name := take 6 extractors_columns]}) [].

Lemma catalog_open_spec_witness :
  exists d', SqliteCatalogRepository_new sql old = Some (Ok tt, d') /\ lit "merge_mode" ∈ columns_of t_extractors_name d'.
Proof.
  destruct (catalog_open_spec sql sql_sound old) as (d' & E & _ & _ & C & _).
  exists d'. split; [exact E|]. apply C. apply list_elem_of_here.
Defined.

Lemma recorder_open_spec_witness :
  is_ok (fst (SqliteRunRecorder_new sql fresh)) = false /\
  is_ok (fst (SqliteRunRecorder_new sql (mkDatabase {[t_runs := runs_columns]} [1%Z]))) = true.
Proof.
  destruct (recorder_open_spec sql sql_sound) as (_ & H2 & H3). split; [exact (proj1 (H3 0))|].
  destruct (H2 (mkDatabase {[t_runs := runs_columns]} [1%Z]) runs_columns) as (d' & E & _).
  - reflexivity.
  - vm_compute. reflexivity.
  - apply (bool_decide_unpack _). vm_compute. exact I.
  - rewrite E. reflexivity.
Defined.

(** The text of the error at the first start. *)
Example first_start : SqliteRunRecorder_new sql fresh =
  (Err (Internal (lit "Failed to add sandbox_id column: no such table: enrichment_runs")), attempted).
Proof. reflexivity. Qed.
End Demo.
