(* ===== verification/UseCases.v ===== *)
(** * The use cases of the application layer

    Models [bastion-application/src]: [sandbox/create.rs], [terminate.rs],
    [info.rs], [list.rs], [execution/run_command.rs], [run_command_stream.rs]
    and [file_ops/*.rs], which put the repository and a provider together.  A
    provider ([bastion-domain/src/provider/port.rs]) is a record of operations
    over the external world, because the gateway holds several of them; the
    repository is the class of [SandboxRepo].  A stream of output is the list of
    what it delivers. *)

From S2P Require Import Prelude Sandbox Command SandboxRepo Pool ProviderTypes.

Section UseCases.
Context `{CH : Chrono} {W : Type} `{REPO : !@SandboxRepository CH W} `{ENV : !Environment W}.

(** ** The port of a provider *)

Record SnapshotInfo := mkSnapshotInfo {
  sn_snapshot_id : str; sn_sandbox_id : str; sn_name : str; sn_created_at : DateTime;
  sn_size_bytes : Z
}.

Record Provider := mkProvider {
  pv_name : str;
  pv_capabilities : ProviderCapabilities;
  pv_create : str -> str -> ResourcesSpec -> NetworkSpec -> gmap str str -> Z -> W ->
    result DomainError Sandbox * W;
  pv_terminate : str -> W -> result DomainError unit * W;
  pv_is_alive : str -> W -> result DomainError bool * W;
  pv_run_command : str -> CommandSpec -> W -> result DomainError CommandResult * W;
  pv_run_command_stream : str -> CommandSpec -> W ->
    result DomainError (list (result DomainError CommandChunk)) * W;
  pv_cancel_command : str -> Z -> W -> result DomainError bool * W;
  pv_write_file : str -> str -> bytes -> W -> result DomainError unit * W;
  pv_read_file : str -> str -> W -> result DomainError bytes * W;
  pv_list_files : str -> str -> W -> result DomainError (list (FileEntry DateTime)) * W;
  pv_copy_to : str -> str -> str -> W -> result DomainError unit * W;
  pv_create_snapshot : str -> str -> W -> result DomainError SnapshotInfo * W;
  pv_restore_snapshot : str -> W -> result DomainError Sandbox * W;
  pv_delete_snapshot : str -> W -> result DomainError unit * W;
  pv_list_snapshots : W -> result DomainError (list SnapshotInfo) * W;
  pv_list_sandboxes : SandboxFilter -> W -> result DomainError (list Sandbox) * W
}.

(** What the pool sees of its provider. *)
Definition pool_port (p : Provider) : SandboxProvider W := {|
  prov_list_sandboxes := pv_list_sandboxes p;
  prov_create := pv_create p;
  prov_terminate := pv_terminate p
|}.

(** ** Creation and termination *)

Record CreateSandboxInput := mkCreateInput {
  ci_template_id : str; ci_provider_id : option str; ci_resources : ResourcesSpec;
  ci_network : NetworkSpec; ci_env_vars : gmap str str; ci_timeout_ms : Z
}.

(** The provider of the input is computed and not used. *)
Definition create_execute (input : CreateSandboxInput) (p : Provider) (w : W) :
    result DomainError Sandbox * W :=
  let '(sandbox_id, w) := generate_id w in
  let '(created, w) :=
    pv_create p sandbox_id (ci_template_id input) (ci_resources input) (ci_network input)
      (ci_env_vars input) (ci_timeout_ms input) w in
  match created with
  | Err e => (Err e, w)
  | Ok sandbox =>
      let '(saved, w) := repo_save sandbox w in
      match saved with
      | Err e => (Err e, w)
      | Ok _ => (Ok sandbox, w)
      end
  end.

(** [find_by_id(id).await?.ok_or_else(..)?]. *)
Definition find_existing (id : str) (w : W) : result DomainError Sandbox * W :=
  let '(found, w) := repo_find_by_id id w in
  match found with
  | Err e => (Err e, w)
  | Ok None => (Err (NotFound id), w)
  | Ok (Some sb) => (Ok sb, w)
  end.

Definition terminate_execute (id : str) (p : Provider) (w : W) : result DomainError unit * W :=
  let '(found, w) := find_existing id w in
  match found with
  | Err e => (Err e, w)
  | Ok sandbox =>
      let '(stopped, w) := pv_terminate p id w in
      match stopped with
      | Err e => (Err e, w)
      | Ok _ =>
          match fst (terminate sandbox) with
          | Err e => (Err e, w)
          | Ok _ => repo_delete id w
          end
      end
  end.

Definition info_execute (id : str) (w : W) : result DomainError Sandbox * W := find_existing id w.

Definition list_execute (w : W) : result DomainError (list Sandbox) * W := repo_find_active w.

(** ** Commands and files *)

(** What the five use cases share: the sandbox must exist and be active. *)
Definition on_active {A} (id : str) (inactive : Sandbox -> str)
    (op : W -> result DomainError A * W) (w : W) : result DomainError A * W :=
  let '(found, w) := find_existing id w in
  match found with
  | Err e => (Err e, w)
  | Ok sandbox => if is_active sandbox then op w else (Err (Validation (inactive sandbox)), w)
  end.

Definition not_active_status (id : str) (sb : Sandbox) : str :=
  lit "Sandbox " ++ id ++ lit " is not active (status: " ++ status_display (status sb) ++ lit ")".
Definition not_active (id : str) (sb : Sandbox) : str :=
  lit "Sandbox " ++ id ++ lit " is not active".

Definition run_execute (id : str) (command : CommandSpec) (p : Provider) :
    W -> result DomainError CommandResult * W :=
  on_active id (not_active_status id) (pv_run_command p id command).
Definition run_stream_execute (id : str) (command : CommandSpec) (p : Provider) :
    W -> result DomainError (list (result DomainError CommandChunk)) * W :=
  on_active id (not_active_status id) (pv_run_command_stream p id command).
Definition write_execute (id path : str) (content : bytes) (p : Provider) :
    W -> result DomainError unit * W :=
  on_active id (not_active id) (pv_write_file p id path content).
Definition read_execute (id path : str) (p : Provider) : W -> result DomainError bytes * W :=
  on_active id (not_active id) (pv_read_file p id path).
Definition list_files_execute (id dir : str) (p : Provider) :
    W -> result DomainError (list (FileEntry DateTime)) * W :=
  on_active id (not_active id) (pv_list_files p id dir).

(** ** Properties *)

(** Neither the provider nor the generator of identifiers touches the
    repository. *)
Class Separate `{!@RepositoryLaws CH W REPO} (p : Provider) := {
  sep_create : forall id t r n e ms w, stored (snd (pv_create p id t r n e ms w)) = stored w;
  sep_terminate : forall id w, stored (snd (pv_terminate p id w)) = stored w;
  sep_generate : forall w, stored (snd (generate_id w)) = stored w
}.

Context `{LAWS : !@RepositoryLaws CH W REPO}.

(** [find_existing] against the laws: a failed look-up apart, it answers with
    what is stored. *)
Lemma find_existing_ok (id : str) (w : W) (sb : Sandbox) :
  fst (find_existing id w) = Ok sb ->
  stored w !! id = Some sb /\ stored (snd (find_existing id w)) = stored w.
Proof.
  unfold find_existing. destruct (repo_find_by_id id w) as [found w'] eqn:E.
  pose proof (law_find id w) as Hl. rewrite E in Hl. simpl in Hl.
  destruct found as [[sb'|]|e]; simpl; [|done|done]. intros [= ->].
  destruct (Hl _ eq_refl) as [E1 E2]. by rewrite <- E1, E2.
Qed.

Lemma find_existing_step (id : str) (w : W) (found : option Sandbox) :
  fst (repo_find_by_id id w) = Ok found ->
  find_existing id w =
    (match stored w !! id with Some sb => Ok sb | None => Err (NotFound id) end,
     snd (repo_find_by_id id w)) /\
  stored (snd (repo_find_by_id id w)) = stored w.
Proof.
  intros E. unfold find_existing. destruct (repo_find_by_id id w) as [r w'] eqn:Er.
  pose proof (law_find id w found) as Hl. rewrite Er in Hl. simpl in *. subst r.
  destruct (Hl eq_refl) as [-> Hs]. split; [by destruct (stored w !! id)|done].
Qed.

Lemma on_active_spec {A} (id : str) inactive (op : W -> result DomainError A * W) (w : W) found :
  fst (repo_find_by_id id w) = Ok found ->
  let w1 := snd (repo_find_by_id id w) in
  on_active id inactive op w =
    match stored w !! id with
    | None => (Err (NotFound id), w1)
    | Some sb =>
        if decide (status sb = Running \/ status sb = Pending) then op w1
        else (Err (Validation (inactive sb)), w1)
    end.
Proof.
  intros Hf. cbv zeta. destruct (find_existing_step id w found Hf) as [E _]. unfold on_active. rewrite E.
  destruct (stored w !! id) as [sb|]; [|done]. unfold is_active.
  case_decide as Hd; destruct (status sb); try done;
    (try by destruct Hd); (exfalso; apply Hd; by (left + right)).
Qed.

(** C18. Commands and file operations reach the provider exactly when the sandbox is
    stored and running or pending, after nothing but the look-up, and then the
    answer and the effect are the provider's; otherwise the answer is
    [NotFound] or the refusal that names the status. *)
Theorem commands_only_active (id path : str) (content : bytes) (command : CommandSpec) (p : Provider)
    (w : W) (found : option Sandbox) :
  fst (repo_find_by_id id w) = Ok found ->
  let w1 := snd (repo_find_by_id id w) in
  match stored w !! id with
  | None =>
      run_execute id command p w = (Err (NotFound id), w1) /\
      run_stream_execute id command p w = (Err (NotFound id), w1) /\
      write_execute id path content p w = (Err (NotFound id), w1) /\
      read_execute id path p w = (Err (NotFound id), w1) /\
      list_files_execute id path p w = (Err (NotFound id), w1)
  | Some sb =>
      if decide (status sb = Running \/ status sb = Pending) then
        run_execute id command p w = pv_run_command p id command w1 /\
        run_stream_execute id command p w = pv_run_command_stream p id command w1 /\
        write_execute id path content p w = pv_write_file p id path content w1 /\
        read_execute id path p w = pv_read_file p id path w1 /\
        list_files_execute id path p w = pv_list_files p id path w1
      else
        run_execute id command p w = (Err (Validation (not_active_status id sb)), w1) /\
        run_stream_execute id command p w = (Err (Validation (not_active_status id sb)), w1) /\
        write_execute id path content p w = (Err (Validation (not_active id sb)), w1) /\
        read_execute id path p w = (Err (Validation (not_active id sb)), w1) /\
        list_files_execute id path p w = (Err (Validation (not_active id sb)), w1)
  end.
Proof.
  intros Hf. cbv zeta.
  unfold run_execute, run_stream_execute, write_execute, read_execute, list_files_execute.
  rewrite !(on_active_spec _ _ _ _ found Hf).
  destruct (stored w !! id) as [sb|]; [|done]. by case_decide.
Qed.

(** Termination deletes the record exactly when the provider terminated the
    sandbox and the aggregate allows the transition; in particular a sandbox
    that is stored as stopped or failed is terminated at the provider, answered
    with an error, and stays in the repository however often it is tried. *)
Theorem terminate_execute_spec (p : Provider) `{!Separate p} (id : str) (w : W) :
  let '(r, w') := terminate_execute id p w in
  match r with
  | Ok _ =>
      (exists sb, stored w !! id = Some sb /\
        (status sb = Running \/ status sb = Pending \/ status sb = Paused)) /\
      stored w' = delete id (stored w)
  | Err _ =>
      forall sb, stored w !! id = Some sb -> is_terminal (status sb) = true ->
      (exists found, fst (repo_find_by_id id w) = Ok found) ->
      stored w' = stored w /\
      (is_ok (fst (pv_terminate p id (snd (repo_find_by_id id w)))) = true ->
       w' = snd (pv_terminate p id (snd (repo_find_by_id id w))))
  end.
Proof.
  unfold terminate_execute.
  pose proof (find_existing_ok id w) as Hok. pose proof (find_existing_step id w) as Hst.
  destruct (find_existing id w) as [[sb|e] w1] eqn:Ef; simpl in Hok.
  2:{ intros sb Hs _ [found Hf]. destruct (Hst found Hf) as [E _]. rewrite Hs in E. done. }
  destruct (Hok sb eq_refl) as [Hs Hw1].
  assert (Hw1' : forall found, fst (repo_find_by_id id w) = Ok found -> w1 = snd (repo_find_by_id id w)).
  { intros found Hf. by destruct (Hst found Hf) as [[= _ ->] _]. }
  pose proof (sep_terminate id w1) as Hp.
  destruct (pv_terminate p id w1) as [[[]|e] w2] eqn:Ep; simpl in Hp.
  2:{ intros sb' Hs' _ [found Hf]. rewrite <- (Hw1' found Hf), Ep. split; [congruence|done]. }
  unfold terminate. destruct (status sb) eqn:Est; cbn [fst].
  4,5: intros sb' Hs' _ [found Hf]; rewrite <- (Hw1' found Hf), Ep; split; [congruence|done].
  all: pose proof (law_delete id w2) as Hd; destruct (repo_delete id w2) as [[[]|e] w3]; simpl in Hd.
  1,3,5: split; [exists sb; split; [done|]; rewrite Est; tauto|]; rewrite Hd by done; congruence.
  all: intros sb' Hs' Ht; rewrite Hs in Hs'; injection Hs' as <-; by rewrite Est in Ht.
Qed.

(** Creation stores what it answers; when the provider created the sandbox and
    the save failed, the error leaves a sandbox that the repository does not
    know. *)
Theorem create_execute_spec (input : CreateSandboxInput) (p : Provider) `{!Separate p} (w : W) :
  let '(id, w1) := generate_id w in
  let '(created, w2) :=
    pv_create p id (ci_template_id input) (ci_resources input) (ci_network input) (ci_env_vars input)
      (ci_timeout_ms input) w1 in
  let '(r, w') := create_execute input p w in
  match r, created with
  | Ok sb, _ => created = Ok sb /\ stored w' = <[sb_id sb := sb]> (stored w)
  | Err e, Err e' => e = e' /\ stored w' = stored w /\ w' = w2
  | Err e, Ok sb => repo_save sb w2 = (Err e, w')
  end.
Proof.
  unfold create_execute. pose proof (sep_generate w) as Hg. destruct (generate_id w) as [id w1]. simpl in Hg.
  pose proof (sep_create id (ci_template_id input) (ci_resources input) (ci_network input)
    (ci_env_vars input) (ci_timeout_ms input) w1) as Hc.
  destruct (pv_create p id _ _ _ _ _ w1) as [[sb|e] w2]; simpl in Hc; [|by rewrite Hc].
  pose proof (law_save sb w2) as Hs. destruct (repo_save sb w2) as [[[]|e] w3]; simpl in Hs; [|done].
  split; [done|]. rewrite Hs by done. by rewrite Hc, Hg.
Qed.
End UseCases.

(** ** A demonstration provider

    Over the simulated world of the pool: creation and termination are the
    simulated ones, a command echoes itself, files are a constant. *)
Module Demo.
Import Pool.Sim.
#[local] Existing Instance Z_chrono.

Definition unsupported {A W : Type} (op : string) (w : W) : result DomainError A * W :=
  (Err (UnsupportedOperation (lit op)), w).

Definition demo (name : str) : @Provider Z_chrono SimWorld := {|
  pv_name := name;
  pv_capabilities := ProviderCapabilities_default;
  pv_create := prov_create;
  pv_terminate := prov_terminate;
  pv_is_alive := fun id w => (Ok (sim_alive w id), w);
  pv_run_command := fun id c w => (Ok (mkCommandResult 0 (utf8 (cs_command c)) [] 5 false), w);
  pv_run_command_stream := fun id c w =>
    (Ok [Ok (chunk_stdout (utf8 (cs_command c))); Ok (chunk_exit_code 0)], w);
  pv_cancel_command := fun _ _ w => (Ok true, w);
  pv_write_file := fun _ _ _ w => (Ok tt, w);
  pv_read_file := fun _ path w => (Ok (utf8 path), w);
  pv_list_files := fun _ _ w => (Ok [], w);
  pv_copy_to := fun _ _ _ => unsupported "copy_to";
  pv_create_snapshot := fun _ _ => unsupported "snapshots";
  pv_restore_snapshot := fun _ => unsupported "snapshots";
  pv_delete_snapshot := fun _ => unsupported "snapshots";
  pv_list_snapshots := unsupported "snapshots";
  pv_list_sandboxes := prov_list_sandboxes
|}.

#[export] Instance sim_repository_laws : @RepositoryLaws Z_chrono SimWorld sim_repository.
Proof.
  refine {| stored := sw_store |}; simpl; unfold on_store; simpl.
  - done.
  - done.
  - intros id w. unfold InMemory.im_delete. by destruct (sw_store w !! id).
  - intros id w r [= <-]. done.
Defined.

#[export] Instance demo_separate (name : str) : Separate (demo name).
Proof. split; done. Qed.

(** A stopped sandbox [s1] that still runs at the provider. *)
Definition stopped : @Sandbox Z_chrono := set_status Stopped warm.
Definition world_stopped : SimWorld := mkWorld {[lit "s1" := stopped]} [lit "s1"] 0 0.

Lemma commands_only_active_witness :
  run_execute (lit "s1") (CommandSpec_new (lit "ls")) (demo (lit "podman")) world_stopped =
    (Err (Validation (lit "Sandbox s1 is not active (status: stopped)")), world_stopped).
Proof.
  pose proof (commands_only_active (lit "s1") (lit "/x") [] (CommandSpec_new (lit "ls"))
    (demo (lit "podman")) world_stopped (Some stopped) eq_refl) as H.
  exact (proj1 H).
Defined.

Lemma terminate_execute_spec_witness :
  stored (snd (terminate_execute (lit "s1") (demo (lit "podman")) world_stopped)) = stored world_stopped.
Proof.
  pose proof (terminate_execute_spec (demo (lit "podman")) (lit "s1") world_stopped) as H.
  exact (proj1 (H stopped eq_refl eq_refl (ex_intro _ (Some stopped) eq_refl))).
Defined.

Lemma create_execute_spec_witness :
  exists w', create_execute (mkCreateInput (lit "rust") None ResourcesSpec_default NetworkSpec_default ∅ 1000)
      (demo (lit "podman")) world0 =
    (Ok (set_status Running (Sandbox_new (lit "sandbox-0") (lit "rust") (lit "sim") None
       ResourcesSpec_default NetworkSpec_default 0%Z)), w') /\
    stored w' !! lit "sandbox-0" <> None.
Proof.
  pose proof (create_execute_spec
    (mkCreateInput (lit "rust") None ResourcesSpec_default NetworkSpec_default ∅ 1000)
    (demo (lit "podman")) world0) as H.
  eexists. split; [reflexivity|]. destruct H as [_ H]. vm_compute. done.
Defined.
End Demo.
