(* ===== verification/Readiness.v ===== *)
(** * Readiness of a provider

    Models the check the gateway runs before it creates a sandbox
    ([bastion-gateway/src/sandbox_tools.rs], [run_provider_readiness_check] and
    the [eval_*] methods) with the rich results of [bastion-domain/src/catalog/
    doctor.rs].  What is asked of the machine - files, sockets, [which],
    [uname] - is the class [Probe]; a value of [serde_json] is a [json_value].
    Fresh trace identifiers and time stamps are left out of the results. *)

From S2P Require Import Prelude Utf8 Sandbox ProviderTypes SandboxRepo Orientation Experience Fmt Catalog UseCases.

(** ** Rich results *)

#[warnings="-register-all"]
Inductive json_value :=
| JNull
| JBool (b : bool)
| JNum (z : Z)
| JStr (s : str)
| JArr (vs : list json_value)
| JObj (fields : list (str * json_value)).

(** An object written out in the source. *)
Definition obj (fields : list (string * json_value)) : json_value :=
  JObj (map (fun f => (lit (fst f), snd f)) fields).

Definition json_opt (o : option str) : json_value := match o with Some s => JStr s | None => JNull end.
Definition json_opt_num (o : option Z) : json_value := match o with Some z => JNum z | None => JNull end.

Inductive CheckStatus := CPass | CFail | CWarning | CSkip.

#[export] Instance CheckStatus_eq_dec : EqDecision CheckStatus.
Proof. solve_decision. Defined.

Definition debug_status (s : CheckStatus) : str :=
  match s with CPass => lit "Pass" | CFail => lit "Fail" | CWarning => lit "Warning" | CSkip => lit "Skip" end.

Record DeltaItem := mkDelta {
  di_item : str; di_expected : str; di_actual : option str; di_severity : Severity
}.

Record InstallSource := mkInstallSource { is_name : str; is_url : str; is_method : str }.

Record Remediation := mkRemediation {
  rm_confidence : str; rm_auto_fixable : bool; rm_commands : list str; rm_manual_steps : list str;
  rm_verify_after : str; rm_install_sources : list InstallSource
}.

Record BinaryInfo := mkBinary { bi_name : str; bi_path : option str; bi_version : option str }.

Record ProviderInfo := mkProviderInfo {
  pinf_name : str; pinf_version : option str; pinf_available : bool
}.

Record SystemContext := mkContext {
  sc_os : str; sc_os_version : str; sc_architecture : str; sc_kernel : str; sc_has_kvm : bool;
  sc_has_nested_virt : option bool; sc_relevant_binaries : gmap str BinaryInfo;
  sc_installed_providers : gmap str ProviderInfo
}.

Record RichCheckResult := mkRich {
  rc_check_id : str; rc_check_type : str; rc_status : CheckStatus; rc_current_state : json_value;
  rc_expected_state : json_value; rc_delta : list DeltaItem; rc_remediation : option Remediation;
  rc_system_context : SystemContext
}.

(** What the run adds to a [DoctorResult]. *)
Record ReadinessResult := mkReadiness {
  rr_doctor_id : str; rr_status : DoctorStatus; rr_severity : Severity; rr_check_results : list CheckResult;
  rr_rationale : str; rr_rich : list RichCheckResult; rr_summary : str; rr_requires_ai_attention : bool;
  rr_potential_self_remediation : bool
}.

(** The derived [Serialize] of the parts that the gateway puts into an answer. *)
Definition severity_json (s : Severity) : json_value :=
  JStr (match s with Critical => lit "critical" | Warning => lit "warning" | Info => lit "info" end).
Definition delta_json (d : DeltaItem) : json_value :=
  obj [("item", JStr (di_item d)); ("expected", JStr (di_expected d)); ("actual", json_opt (di_actual d));
        ("severity", severity_json (di_severity d))]%string.
Definition source_json (i : InstallSource) : json_value :=
  obj [("name", JStr (is_name i)); ("url", JStr (is_url i)); ("method", JStr (is_method i))]%string.
Definition remediation_json (r : Remediation) : json_value :=
  obj [("confidence", JStr (rm_confidence r)); ("auto_fixable", JBool (rm_auto_fixable r));
        ("commands", JArr (map JStr (rm_commands r))); ("manual_steps", JArr (map JStr (rm_manual_steps r)));
        ("verify_after", JStr (rm_verify_after r));
        ("install_sources", JArr (map source_json (rm_install_sources r)))]%string.

(** ** The machine *)

Class Probe := {
  probe_exists : str -> bool;
  probe_connect : str -> bool;
  (** The output of [which]: its success and its standard output, if it ran. *)
  probe_which : str -> option (bool * bytes);
  probe_mode : str -> option N;
  probe_uname : str -> option bytes
}.

Section Readiness.
Context `{CH : Chrono} {W : Type} `{PROBE : Probe} `{LOWER : Lowercase}.

(** [BastionGateway::provider] and [providers]. *)
Record Providers := mkProviders {
  ps_default : @Provider CH W; ps_named : gmap str (@Provider CH W)
}.

Definition resolve_provider (ps : Providers) (name : str) : Provider :=
  default (ps_default ps) (ps_named ps !! to_lowercase name).

Definition which (name : str) : option str :=
  match probe_which name with
  | Some (true, out) => Some (trim (from_utf8_lossy out))
  | _ => None
  end.

Definition uname (flag : string) : str :=
  match probe_uname (lit flag) with
  | Some out => trim (from_utf8_lossy out)
  | None => lit "unknown"
  end.

Definition relevant_binaries : list str :=
  map lit ["podman"; "docker"; "firecracker"; "containerd-shim"]%string.

Definition get_system_context : SystemContext :=
  mkContext (uname "-s") (uname "-r") (uname "-m") (uname "-r") (probe_exists (lit "/dev/kvm")) None
    (fold_left (fun m b => match which b with
                           | Some p => <[b := mkBinary b (Some p) None]> m
                           | None => m
                           end) relevant_binaries ∅) ∅.

Definition rich (id type : str) (status : CheckStatus) (current expected : list (string * json_value))
    (delta : list DeltaItem) (remediation : option Remediation) : RichCheckResult :=
  mkRich id type status (obj current) (obj expected) delta remediation get_system_context.

Definition pass_if (b : bool) : CheckStatus := if b then CPass else CFail.

Definition socket_path (provider : str) : str :=
  if str_eqb provider (lit "podman") then lit "/run/user/1000/podman/podman.sock"
  else if str_eqb provider (lit "docker") then lit "/var/run/docker.sock"
  else lit "/var/run/unknown.sock".

Definition eval_provider_alive (provider : str) : RichCheckResult :=
  let path := socket_path provider in
  let is_alive := probe_exists path && probe_connect path in
  rich (lit "provider_alive." ++ provider) (lit "provider_alive") (pass_if is_alive)
    [("provider", JStr provider); ("alive", JBool is_alive); ("socket_path", JStr path)]%string
    [("provider", JStr provider); ("alive", JBool true)]%string
    (if negb is_alive then
       [mkDelta (provider ++ lit " provider") (lit "alive and responsive") (Some (lit "not responding")) Critical]
     else []) None.

Definition eval_binary_available (name : str) (expected_path : option str) : RichCheckResult :=
  let found_path := which name in
  let found := match found_path with Some _ => true | None => false end in
  let path_match := match expected_path with
                    | Some ep => bool_decide (found_path = Some ep)
                    | None => true
                    end in
  let status := if found && path_match then CPass else if found then CWarning else CFail in
  rich (lit "binary_available." ++ name) (lit "binary_available") status
    [("binary", JStr name); ("found", JBool found); ("path", json_opt found_path);
     ("expected_path", json_opt expected_path)]%string
    [("binary", JStr name); ("found", JBool true); ("expected_path", json_opt expected_path)]%string
    (if negb found then
       [mkDelta (lit "binary '" ++ name ++ lit "'") (default (lit "in PATH") expected_path) None Critical]
     else [])
    (if negb found then
       Some (mkRemediation (lit "high") true
         [lit "sudo apt-get install -y " ++ name; lit "cargo install " ++ name]
         [lit "Install " ++ name ++ lit " manually"] (lit "which " ++ name)
         [mkInstallSource name (lit "https://packages.debian.org/" ++ name) (lit "package_manager")])
     else None).

Definition dev_kvm : str := lit "/dev/kvm".

Definition eval_kvm_available : RichCheckResult :=
  let exists_ := probe_exists dev_kvm in
  let accessible :=
    if exists_ then match probe_mode dev_kvm with
                    | Some m => negb (N.land m 0x1FF =? 0)%N
                    | None => false
                    end
    else false in
  let status := if exists_ && accessible then CPass else if exists_ then CFail else CFail in
  rich (lit "kvm_available") (lit "kvm_available") status
    [("kvm_device", JStr dev_kvm); ("exists", JBool exists_); ("accessible", JBool accessible)]%string
    [("kvm_device", JStr dev_kvm); ("exists", JBool true); ("accessible", JBool true)]%string
    (if negb exists_ then [mkDelta (lit "KVM device") (lit "/dev/kvm exists") None Critical]
     else if negb accessible then
       [mkDelta (lit "KVM access") (lit "User in kvm group") (Some (lit "NOT in kvm group")) Critical]
     else [])
    (if negb accessible then
       Some (mkRemediation (lit "high") true [lit "sudo usermod -aG kvm $USER"; lit "newgrp kvm"]
         [lit "Run: sudo usermod -aG kvm $USER";
          lit "Log out and log back in for group membership to take effect"] (lit "groups | grep kvm") [])
     else if negb exists_ then
       Some (mkRemediation (lit "medium") false []
         [lit "Enable KVM virtualization in BIOS/UEFI"; lit "Load KVM kernel modules: sudo modprobe kvm"]
         (lit "ls -la /dev/kvm") [])
     else None).

Definition eval_image_available (ps : Providers) (provider_name : str) (_image : option str) (w : W) :
    RichCheckResult * W :=
  let provider := resolve_provider ps provider_name in
  let '(listed, w) := pv_list_sandboxes provider SandboxFilter_default w in
  let can_list := is_ok listed in
  let error := match listed with Err e => Some (show_error e) | Ok _ => None end in
  (rich (lit "image_available." ++ provider_name) (lit "image_available") (pass_if can_list)
     [("provider", JStr (pv_name provider)); ("can_list_images", JBool can_list); ("error", json_opt error)]%string
     [("provider", JStr (pv_name provider)); ("can_list_images", JBool true)]%string
     (if negb can_list then
        [mkDelta (provider_name ++ lit " image availability") (lit "Provider can list images") error Critical]
      else []) None, w).

Definition worker_paths : list str :=
  map lit ["target/debug/bastion-worker"; "target/release/bastion-worker";
           "/usr/local/bin/bastion-worker"]%string.

Definition eval_worker_binary_valid (provider_name : str) : RichCheckResult :=
  let found_path := find probe_exists worker_paths in
  let in_path := which (lit "bastion-worker") in
  let location := match found_path with Some p => Some p | None => in_path end in
  let valid := match location with Some _ => true | None => false end in
  rich (lit "worker_binary_valid." ++ provider_name) (lit "worker_binary_valid") (pass_if valid)
    [("binary", JStr (lit "bastion-worker")); ("found", JBool valid);
     ("paths_checked", JArr (map JStr worker_paths)); ("found_path", json_opt location)]%string
    [("binary", JStr (lit "bastion-worker")); ("found", JBool true)]%string
    (if negb valid then
       [mkDelta (lit "bastion-worker binary") (lit "bastion-worker exists") None Critical]
     else [])
    (if negb valid then
       Some (mkRemediation (lit "high") true [lit "cargo build --bin bastion-worker"]
         [lit "Run: cargo build --bin bastion-worker";
          lit "Or install via: cargo install bastion-worker"]
         (lit "which bastion-worker || ls -la target/debug/bastion-worker")
         [mkInstallSource (lit "bastion-worker") (lit "https://github.com/example/bastion") (lit "source")])
     else None).

Definition at_least (min : option Z) (have : Z) : bool :=
  match min with Some m => (m <=? have)%Z | None => true end.

Definition eval_capabilities_met (ps : Providers) (provider_name : str) (min_memory_mb min_cpu_count : option Z) :
    RichCheckResult :=
  let provider := resolve_provider ps provider_name in
  let caps := pv_capabilities provider in
  let memory_ok := at_least min_memory_mb (max_memory_mb caps) in
  let cpu_ok := at_least min_cpu_count (max_cpu_count caps) in
  rich (lit "capabilities_met." ++ provider_name) (lit "capabilities_met") (pass_if (memory_ok && cpu_ok))
    [("provider", JStr (pv_name provider)); ("memory_mb", JNum (max_memory_mb caps));
     ("cpu_count", JNum (max_cpu_count caps))]%string
    [("provider", JStr (pv_name provider)); ("min_memory_mb", json_opt_num min_memory_mb);
     ("min_cpu_count", json_opt_num min_cpu_count)]%string
    ((if negb memory_ok then
        [mkDelta (lit "Memory") (show_Z (default 0%Z min_memory_mb) ++ lit " MB")
           (Some (show_Z (max_memory_mb caps) ++ lit " MB")) Critical]
      else []) ++
     (if negb cpu_ok then
        [mkDelta (lit "CPU count") (show_Z (default 0%Z min_cpu_count))
           (Some (show_Z (max_cpu_count caps))) Critical]
      else [])) None.

Definition eval_config_valid (ps : Providers) (provider_name : str) : RichCheckResult :=
  let provider := resolve_provider ps provider_name in
  let state := [("provider", JStr (pv_name provider)); ("config_valid", JBool true)]%string in
  rich (lit "config_valid." ++ provider_name) (lit "config_valid") CPass state state [] None.

Definition evaluate_check (ps : Providers) (provider : str) (c : DoctorCheck) (w : W) : RichCheckResult * W :=
  match c with
  | ProviderAlive p => (eval_provider_alive p, w)
  | BinaryAvailable name expected_path => (eval_binary_available name expected_path, w)
  | KvmAvailable => (eval_kvm_available, w)
  | ImageAvailable p image => eval_image_available ps p image w
  | WorkerBinaryValid p => (eval_worker_binary_valid p, w)
  | CapabilitiesMet p m c => (eval_capabilities_met ps p m c, w)
  | ConfigValid p => (eval_config_valid ps p, w)
  | Aliveness _ | Resources _ _ | AssertionDriven _ =>
      (rich (lit "unknown." ++ provider) (lit "unknown") CSkip [] [] [] None, w)
  end.

(** ** The run *)

Definition next_status (overall : DoctorStatus) (r : RichCheckResult) : DoctorStatus :=
  match rc_status r with
  | CFail => DFail
  | CWarning => if decide (overall = DPass) then DError else overall
  | _ => overall
  end.

(** The texts of [{:?}] of a JSON value are the argument. *)
Context (debug_json : json_value -> str).

Definition simple_result (r : RichCheckResult) : CheckResult :=
  mkCheck (rc_check_type r) (bool_decide (rc_status r = CPass))
    (if bool_decide (rc_status r = CPass) then None
     else Some (debug_status (rc_status r) ++ lit ": " ++ debug_json (rc_current_state r))).

Fixpoint run_checks (ps : Providers) (provider : str) (cs : list DoctorCheck) (w : W) :
    list RichCheckResult * W :=
  match cs with
  | [] => ([], w)
  | c :: cs' =>
      let '(r, w) := evaluate_check ps provider c w in
      let '(rs, w) := run_checks ps provider cs' w in (r :: rs, w)
  end.

Definition fixable (r : RichCheckResult) : bool :=
  match rc_remediation r with
  | Some rem => rm_auto_fixable rem && match rm_commands rem with [] => false | _ => true end
  | None => false
  end.

Definition count_status (s : CheckStatus) (rs : list RichCheckResult) : nat :=
  length (List.filter (fun r => bool_decide (rc_status r = s)) rs).

Definition summary_of (provider : str) (overall : DoctorStatus) (rs : list RichCheckResult) : str :=
  match overall with
  | DPass => provider ++ lit " provider is ready"
  | DFail => provider ++ lit " provider has " ++ show_nat (count_status CFail rs) ++ lit " missing requirements"
  | DSkip => provider ++ lit " provider readiness check skipped"
  | DError => provider ++ lit " provider has " ++ show_nat (count_status CWarning rs) ++ lit " warnings"
  end.

Definition run_provider_readiness_check (registry : option DoctorRegistry) (ps : Providers)
    (doctor_id provider : str) (w : W) : ReadinessResult * W :=
  match registry with
  | None =>
      (mkReadiness doctor_id DPass Warning [] (lit "Doctor context not configured") []
         (lit "Doctor context not configured, skipping check") false false, w)
  | Some reg =>
      match drg_doctors reg !! doctor_id with
      | None =>
          let text := lit "Doctor " ++ doctor_id ++ lit " not found, skipping check" in
          (mkReadiness doctor_id DPass Warning [] text [] text false false, w)
      | Some doctor =>
          let '(rs, w) := run_checks ps provider (dd_checks doctor) w in
          let overall := fold_left next_status rs DPass in
          let summary := summary_of provider overall rs in
          (mkReadiness doctor_id overall (dd_severity doctor) (map simple_result rs) summary rs summary
             (negb (bool_decide (overall = DPass))) (existsb fixable rs), w)
      end
  end.

(** ** What the answers mean *)

(** The requirement a check stands for, read off the machine. *)
Definition requirement (ps : Providers) (c : DoctorCheck) (w : W) : Prop :=
  match c with
  | ProviderAlive p => probe_exists (socket_path p) = true /\ probe_connect (socket_path p) = true
  | BinaryAvailable name None => is_Some (which name)
  | BinaryAvailable name (Some path) => which name = Some path
  | KvmAvailable =>
      probe_exists dev_kvm = true /\ exists m, probe_mode dev_kvm = Some m /\ (N.land m 0x1FF <> 0)%N
  | ImageAvailable p _ => exists l, fst (pv_list_sandboxes (resolve_provider ps p) SandboxFilter_default w) = Ok l
  | WorkerBinaryValid _ =>
      (exists p, p ∈ worker_paths /\ probe_exists p = true) \/ is_Some (which (lit "bastion-worker"))
  | CapabilitiesMet p m c =>
      (forall b, m = Some b -> (b <= max_memory_mb (pv_capabilities (resolve_provider ps p)))%Z) /\
      (forall b, c = Some b -> (b <= max_cpu_count (pv_capabilities (resolve_provider ps p)))%Z)
  | ConfigValid _ => True
  | Aliveness _ | Resources _ _ | AssertionDriven _ => False
  end.

Lemma pass_if_pass (b : bool) : pass_if b = CPass <-> b = true.
Proof. by destruct b. Qed.

Lemma at_least_iff (m : option Z) (have : Z) :
  at_least m have = true <-> (forall b, m = Some b -> (b <= have)%Z).
Proof.
  destruct m as [b|]; simpl; [rewrite Z.leb_le|]; split; try done.
  - by intros H ? [= <-].
  - intros H. by apply H.
Qed.

Lemma evaluate_check_pass (ps : Providers) (provider : str) (c : DoctorCheck) (w : W) :
  rc_status (fst (evaluate_check ps provider c w)) = CPass <-> requirement ps c w.
Proof.
  destruct c as [o| | |p|name path|p image| |p m c|p|p]; cbn [evaluate_check requirement fst]; try done.
  - cbn. by rewrite pass_if_pass, andb_true_iff.
  - cbn. destruct (which name) as [found|], path as [path|]; cbn.
    + case_bool_decide as H; split; congruence.
    + by split; [eexists|].
    + by split.
    + by split; [|intros [? ?]].
  - unfold eval_image_available. destruct (pv_list_sandboxes _ _ w) as [[l|e] w']; cbn; split; try done.
    + by eexists.
    + by intros [? ?].
  - cbn. destruct (probe_exists dev_kvm); cbn; [|by split; [|intros [? _]]].
    destruct (probe_mode dev_kvm) as [m|]; [|split; [done|by intros (_ & m & ? & _)]].
    destruct (N.eqb_spec (N.land m 0x1FF) 0) as [E|E]; cbn; split; try done.
    + by intros (_ & m' & [= <-] & ?).
    + intros _. split; [done|]. by exists m.
  - cbn. by rewrite pass_if_pass, andb_true_iff, !at_least_iff.
  - unfold eval_worker_binary_valid, rich. cbn [rc_status]. rewrite pass_if_pass.
    destruct (find probe_exists worker_paths) as [found|] eqn:E.
    + apply find_some in E as [Hin Hex]. split; [intros _; left|done].
      exists found. by rewrite list_elem_of_In.
    + destruct (which (lit "bastion-worker")); split; try done.
      * intros _. right. by eexists.
      * intros [(p' & Hin & Hex)|[? ?]]; [|done].
        pose proof (find_none _ _ E p' (proj1 (list_elem_of_In _ _) Hin)). congruence.
Qed.

(** Whether the checks passed, failed or warned decides the verdict. *)
Definition verdict (rs : list RichCheckResult) : DoctorStatus :=
  if existsb (fun r => bool_decide (rc_status r = CFail)) rs then DFail
  else if existsb (fun r => bool_decide (rc_status r = CWarning)) rs then DError
  else DPass.

Definition worst (a b : DoctorStatus) : DoctorStatus :=
  match a, b with
  | DFail, _ | _, DFail => DFail
  | DError, _ | _, DError => DError
  | _, _ => DPass
  end.

Lemma fold_next_status (rs : list RichCheckResult) (s : DoctorStatus) :
  s <> DSkip -> fold_left next_status rs s = worst s (verdict rs).
Proof.
  unfold verdict. revert s. induction rs as [|r rs IH]; intros s Hs; simpl; [by destruct s|].
  assert (Hn : next_status s r <> DSkip).
  { unfold next_status. destruct (rc_status r); try done. case_decide; [done|exact Hs]. }
  rewrite (IH _ Hn). unfold next_status.
  destruct (rc_status r), s; cbn; try done;
    do 2 (destruct (existsb _ rs)); done.
Qed.

Lemma verdict_pass (rs : list RichCheckResult) :
  verdict rs = DPass <-> Forall (fun r => rc_status r = CPass \/ rc_status r = CSkip) rs.
Proof.
  unfold verdict. induction rs as [|r rs IH]; simpl; [done|].
  rewrite Forall_cons, <- IH. destruct (rc_status r); cbn.
  - destruct (existsb _ rs); [naive_solver|]. destruct (existsb _ rs); naive_solver.
  - naive_solver.
  - destruct (existsb _ rs); naive_solver.
  - destruct (existsb _ rs); [naive_solver|]. destruct (existsb _ rs); naive_solver.
Qed.

(** The result of a check at the place it has among the checks of a doctor:
    [ImageAvailable] runs a provider, so each starts in the world the ones
    before it left. *)
Fixpoint requirements (ps : Providers) (provider : str) (cs : list DoctorCheck) (w : W) : list Prop :=
  match cs with
  | [] => []
  | c :: cs' =>
      let r := evaluate_check ps provider c w in
      (rc_status (fst r) = CSkip \/ requirement ps c w) :: requirements ps provider cs' (snd r)
  end.

Lemma run_checks_pass (ps : Providers) (provider : str) (cs : list DoctorCheck) (w : W) :
  Forall (fun r => rc_status r = CPass \/ rc_status r = CSkip) (fst (run_checks ps provider cs w)) <->
  Forall id (requirements ps provider cs w).
Proof.
  revert w. induction cs as [|c cs IH]; intros w; cbn [run_checks requirements]; [by split|].
  pose proof (evaluate_check_pass ps provider c w) as Hc.
  destruct (evaluate_check ps provider c w) as [r w'] eqn:E. cbn [fst snd] in *.
  specialize (IH w'). destruct (run_checks ps provider cs w') as [rs w''] eqn:E'. cbn [fst] in *.
  rewrite !Forall_cons, IH. unfold id at 2. rewrite <- Hc. naive_solver.
Qed.

Lemma run_checks_length (ps : Providers) (provider : str) (cs : list DoctorCheck) (w : W) :
  length (fst (run_checks ps provider cs w)) = length cs.
Proof.
  revert w. induction cs as [|c cs IH]; intros w; cbn [run_checks]; [done|].
  destruct (evaluate_check ps provider c w) as [r w']. specialize (IH w').
  destruct (run_checks ps provider cs w') as [rs w'']. cbn in *. by rewrite IH.
Qed.

Lemma count_status_existsb (s : CheckStatus) (rs : list RichCheckResult) :
  existsb (fun r => bool_decide (rc_status r = s)) rs = true <-> 0 < count_status s rs.
Proof.
  unfold count_status. induction rs as [|r rs IH]; simpl; [split; [done|lia]|].
  destruct (bool_decide (rc_status r = s)); simpl; [split; [lia|done]|exact IH].
Qed.

Lemma verdict_fail (rs : list RichCheckResult) : verdict rs = DFail <-> 0 < count_status CFail rs.
Proof.
  rewrite <- count_status_existsb. unfold verdict. destruct (existsb _ rs); [done|].
  by destruct (existsb _ rs).
Qed.

Lemma verdict_error (rs : list RichCheckResult) :
  verdict rs = DError <-> count_status CFail rs = 0 /\ 0 < count_status CWarning rs.
Proof.
  rewrite <- count_status_existsb. unfold verdict.
  pose proof (count_status_existsb CFail rs) as HF.
  destruct (existsb _ rs); [naive_solver lia|].
  destruct (existsb _ rs); [|by split; [|intros [_ ?]]].
  split; [|done]. intros _. split; [|done].
  destruct (count_status CFail rs); [done|]. destruct HF as [_ HF]. discriminate HF. lia.
Qed.

Lemma worst_pass (rs : list RichCheckResult) : worst DPass (verdict rs) = verdict rs.
Proof. unfold verdict. by repeat case_match. Qed.

(** [run_provider_readiness_check], for a gateway that has the doctor: the
    provider is ready exactly if every check that is not skipped finds its
    requirement met on the machine; otherwise the status is [Fail] if some
    check failed and [Error] - never [Skip] - if some only warned, and the
    summary counts them.  The caller's attention is asked for exactly if the
    provider is not ready.  A gateway with no doctor registry, or without a
    doctor of that name, reports [Pass]: readiness is then not checked. *)
Theorem readiness_spec (registry : option DoctorRegistry) (ps : Providers) (doctor_id provider : str) (w : W) :
  let res := fst (run_provider_readiness_check registry ps doctor_id provider w) in
  match registry ≫= (fun reg => drg_doctors reg !! doctor_id) with
  | None =>
      rr_status res = DPass /\ rr_check_results res = [] /\
      snd (run_provider_readiness_check registry ps doctor_id provider w) = w
  | Some doctor =>
      (rr_status res = DPass <-> Forall id (requirements ps provider (dd_checks doctor) w)) /\
      (rr_status res = DFail <-> 0 < count_status CFail (rr_rich res)) /\
      (rr_status res = DError <-> count_status CFail (rr_rich res) = 0 /\ 0 < count_status CWarning (rr_rich res)) /\
      rr_status res <> DSkip /\
      rr_check_results res = map simple_result (rr_rich res) /\
      length (rr_rich res) = length (dd_checks doctor) /\
      rr_requires_ai_attention res = negb (bool_decide (rr_status res = DPass))
  end.
Proof.
  unfold run_provider_readiness_check. destruct registry as [reg|]; cbn [mbind option_bind]; [|done].
  destruct (drg_doctors reg !! doctor_id) as [doctor|]; cbn; [|done].
  pose proof (run_checks_pass ps provider (dd_checks doctor) w) as Hp.
  pose proof (run_checks_length ps provider (dd_checks doctor) w) as Hl.
  destruct (run_checks ps provider (dd_checks doctor) w) as [rs w'] eqn:E. cbn in *.
  rewrite fold_next_status, worst_pass by done. split_and!; try done.
  - by rewrite <- Hp, verdict_pass.
  - by rewrite verdict_fail.
  - by rewrite verdict_error.
  - unfold verdict. by repeat case_match.
Qed.

(** The advice of the check of [/dev/kvm]: it is given exactly if the check
    does not pass, and it is always to join the group [kvm] - also where the
    device does not exist, where the delta says so; the branch that asks to
    enable virtualisation in the BIOS is never taken.  It is marked as one the
    caller can apply by itself. *)
Theorem kvm_remediation_spec :
  let r := eval_kvm_available in
  (rc_remediation r = None <-> rc_status r = CPass) /\
  (rc_status r <> CPass -> exists rem, rc_remediation r = Some rem /\
    rm_commands rem = [lit "sudo usermod -aG kvm $USER"; lit "newgrp kvm"] /\ fixable r = true /\
    (probe_exists dev_kvm = false -> map di_item (rc_delta r) = [lit "KVM device"])).
Proof.
  unfold eval_kvm_available, rich. cbn [rc_remediation rc_status rc_delta fixable].
  destruct (probe_exists dev_kvm); cbn -[lit].
  2:{ split; [by split|]. intros _. by eexists. }
  destruct (probe_mode dev_kvm) as [m|]; [destruct (N.land m 0x1FF =? 0)%N|]; cbn -[lit].
  - split; [by split|]. intros _. by eexists.
  - by split.
  - split; [by split|]. intros _. by eexists.
Qed.
End Readiness.

(** A machine without KVM. *)
Module NoKvm.
#[local] Instance no_kvm : Probe := {|
  probe_exists := fun p => str_eqb p (lit "/usr/local/bin/bastion-worker");
  probe_connect := fun _ => false;
  probe_which := fun b => if str_eqb b (lit "podman") then Some (true, utf8 (lit "/usr/bin/podman")) else None;
  probe_mode := fun _ => None;
  probe_uname := fun _ => None
|}.

Lemma kvm_remediation_spec_witness :
  exists rem, rc_remediation eval_kvm_available = Some rem /\ rm_confidence rem = lit "high".
Proof.
  destruct kvm_remediation_spec as [_ H].
  destruct H as (rem & Hr & _); [by vm_compute|].
  exists rem. split; [exact Hr|]. vm_compute in Hr. injection Hr as <-. reflexivity.
Defined.
End NoKvm.
