(* ===== verification/Toolchain.v ===== *)
(** * Toolchains and template artifacts

    Models how a capability such as [jvm-build] is turned into a plan: the types
    of [bastion-domain/src/template] ([toolchain.rs], [artifact.rs],
    [catalog.rs], [materializer.rs]), the resolver of [toolchain.rs], the
    capabilities defined by files ([bastion-infrastructure/src/template/
    capability_config.rs], [capability_registry.rs]), the adapters
    ([adapters/*.rs]) and the choice of a materializer
    ([bastion-application/src/template/materialization_resolver.rs]).
    [str::to_lowercase] is the argument [Lowercase]; decoding TOML is left to the
    caller, who hands over what each file decodes to. *)

From S2P Require Import Prelude Sandbox Normalizer Orientation Fmt.

(** ** Toolchains *)

Inductive ToolchainStrategy := Auto | SystemPackage | VersionManager | ContentAddressed.
Inductive ManagerType := CaStore | Apt | Asdf | Sdkman | Brew | Nix.
Inductive SupportLevel := NoSupport | Partial | Full.

#[export] Instance SupportLevel_eq_dec : EqDecision SupportLevel.
Proof. solve_decision. Defined.
#[export] Instance ManagerType_eq_dec : EqDecision ManagerType.
Proof. solve_decision. Defined.
#[export] Instance ToolchainStrategy_eq_dec : EqDecision ToolchainStrategy.
Proof. solve_decision. Defined.

(** The derived [Debug]. *)
Definition debug_strategy (s : ToolchainStrategy) : str :=
  match s with
  | Auto => lit "Auto" | SystemPackage => lit "SystemPackage" | VersionManager => lit "VersionManager"
  | ContentAddressed => lit "ContentAddressed"
  end.

Definition accepts (s : ToolchainStrategy) (mt : ManagerType) : bool :=
  match s with
  | Auto => true
  | SystemPackage => match mt with Apt | Brew => true | _ => false end
  | VersionManager => match mt with Asdf | Sdkman => true | _ => false end
  | ContentAddressed => match mt with CaStore => true | _ => false end
  end.

Record ToolchainRequest := mkRequest {
  rq_sandbox_id : str; rq_capability : str; rq_constraints : gmap str str;
  rq_strategy : ToolchainStrategy
}.

Record ToolchainStep := mkStep {
  ts_description : str; ts_command : str; ts_env : gmap str str; ts_timeout_ms : Z;
  ts_expected_exit_code : Z
}.

Record ToolVerifyStep := mkVerify {
  tv_label : str; tv_command : str; tv_expected_output_contains : option str;
  tv_expected_exit_code : Z
}.

Record ToolchainPlan := mkPlan {
  pl_capability : str; pl_adapter_used : str; pl_steps : list ToolchainStep;
  pl_verification : list ToolVerifyStep; pl_env : gmap str str; pl_path_prefix : list str
}.

(** The trait [ToolManagerAdapter]. *)
Record ToolManagerAdapter := mkAdapter {
  ad_id : str;
  ad_name : str;
  ad_manager_type : ManagerType;
  ad_supports : ToolchainRequest -> SupportLevel;
  ad_plan : ToolchainRequest -> result DomainError ToolchainPlan
}.

Abbreviation ToolResolver := (list ToolManagerAdapter).

Definition register_adapter (r : ToolResolver) (a : ToolManagerAdapter) : ToolResolver := r ++ [a].

Definition list_adapters (r : ToolResolver) : list str := map ad_id r.

Definition offers (req : ToolchainRequest) (level : SupportLevel) (a : ToolManagerAdapter) : bool :=
  accepts (rq_strategy req) (ad_manager_type a) && bool_decide (ad_supports a req = level).

(** The two loops, each returning at the first adapter that fits. *)
Definition resolve (r : ToolResolver) (req : ToolchainRequest) : result DomainError ToolchainPlan :=
  match find (offers req Full) r with
  | Some a => ad_plan a req
  | None =>
      match find (offers req Partial) r with
      | Some a => ad_plan a req
      | None =>
          Err (NotFound (lit "No tool manager available for capability '" ++ rq_capability req ++
            lit "' with strategy " ++ debug_strategy (rq_strategy req)))
      end
  end.

(** ** The adapters *)

Definition is_one_of (s : str) (names : list string) : bool := existsb (fun n => str_eqb s (lit n)) names.
Definition step (description : string) (command : str) (timeout_ms : Z) : ToolchainStep :=
  mkStep (lit description) command ∅ timeout_ms 0.
Definition verify (label : string) (command : str) (expected : option string) : ToolVerifyStep :=
  mkVerify (lit label) command (option_map lit expected) 0.

Definition apt_supports (req : ToolchainRequest) : SupportLevel :=
  if is_one_of (rq_capability req) ["jvm-build"; "node-build"; "python-build"]%string then Full
  else if is_one_of (rq_capability req) ["rust-build"; "go-build"]%string then Partial
  else NoSupport.

Definition base_packages : str := lit "git curl ca-certificates".

(** What the three arms of the match bind: packages, home of Java, checks. *)
Definition apt_selection (capability : str) : option (str * option str * list (string * string * option string)) :=
  if str_eqb capability (lit "jvm-build") then
    Some (lit "default-jdk maven " ++ base_packages, Some (lit "/usr/lib/jvm/default-java"),
      [("Java version", "java -version", Some "openjdk");
       ("Maven version", "mvn -version", Some "Apache Maven");
       ("Git version", "git --version", Some "git version")]%string)
  else if str_eqb capability (lit "node-build") then
    Some (lit "nodejs npm " ++ base_packages, None,
      [("Node version", "node --version", None); ("NPM version", "npm --version", None)]%string)
  else if str_eqb capability (lit "python-build") then
    Some (lit "python3 python3-pip python3-venv " ++ base_packages, None,
      [("Python version", "python3 --version", None); ("Pip version", "pip3 --version", None)]%string)
  else None.

Definition apt_plan (req : ToolchainRequest) : result DomainError ToolchainPlan :=
  match apt_selection (rq_capability req) with
  | None => Err (UnsupportedOperation (lit "apt doesn't know how to install " ++ rq_capability req))
  | Some (packages, java_home, verifications) =>
      Ok (mkPlan (rq_capability req) (lit "apt")
        [step "Update package lists and install tools"
           (lit "apt-get update && apt-get install -y --no-install-recommends " ++ packages) 300000]
        (map (fun '(label, cmd, expected) => verify label (lit cmd) expected) verifications)
        (match java_home with Some jh => {[lit "JAVA_HOME" := jh]} | None => ∅ end)
        (match java_home with Some jh => [jh ++ lit "/bin"] | None => [] end))
  end.

Definition AptAdapter : ToolManagerAdapter :=
  mkAdapter (lit "apt") (lit "APT Package Manager") Apt apt_supports apt_plan.

Definition ASDF_SETUP : str :=
  lit "git clone https://github.com/asdf-vm/asdf.git ~/.asdf --branch v0.14.0".
Definition quoted (s : string) : str := double_quote :: lit s ++ [double_quote].
Definition ASDF_SOURCE : str :=
  lit "export ASDF_DIR=" ++ quoted "$HOME/.asdf" ++ lit " && . " ++ quoted "$ASDF_DIR/asdf.sh".
Definition PREREQ_INSTALL : str := lit "apt-get update && apt-get install -y git curl unzip".

Definition asdf_supports (req : ToolchainRequest) : SupportLevel :=
  if is_one_of (rq_capability req)
       ["jvm-build"; "node-build"; "python-build"; "ruby-build"; "go-build"; "rust-build"]%string
  then Full else NoSupport.

Definition asdf (rest : string) : str := ASDF_SOURCE ++ lit rest.

Definition asdf_selection (capability : str) : option (list ToolchainStep * list ToolVerifyStep) :=
  if str_eqb capability (lit "jvm-build") then
    Some ([step "Add asdf-java plugin"
             (asdf " && asdf plugin add java https://github.com/halcyon/asdf-java.git") 60000;
           step "Install Java 17 via asdf"
             (asdf " && asdf install java adoptopenjdk-17.0.8+7 && asdf global java adoptopenjdk-17.0.8+7")
             600000;
           step "Install Maven via asdf"
             (asdf " && asdf plugin add maven && asdf install maven 3.9.5 && asdf global maven 3.9.5")
             300000],
          [verify "Java version" (asdf " && java -version") (Some "openjdk"%string);
           verify "Maven version" (asdf " && mvn -version") (Some "Apache Maven"%string)])
  else if str_eqb capability (lit "node-build") then
    Some ([step "Install Node.js via asdf"
             (asdf " && asdf plugin add nodejs && asdf install nodejs 20.0.0 && asdf global nodejs 20.0.0")
             300000],
          [verify "Node version" (asdf " && node --version") None])
  else None.

Definition asdf_plan (req : ToolchainRequest) : result DomainError ToolchainPlan :=
  match asdf_selection (rq_capability req) with
  | None => Err (UnsupportedOperation (lit "asdf doesn't know how to install " ++ rq_capability req))
  | Some (steps, verification) =>
      Ok (mkPlan (rq_capability req) (lit "asdf")
        ([step "Install prerequisites for asdf (git, curl)" PREREQ_INSTALL 120000;
          step "Clone asdf-vm" ASDF_SETUP 120000;
          step "Setup asdf in shell" (lit "echo '. ~/.asdf/asdf.sh' >> ~/.bashrc") 5000] ++ steps)
        verification ∅ [lit "~/.asdf/shims"])
  end.

Definition AsdfAdapter : ToolManagerAdapter :=
  mkAdapter (lit "asdf") (lit "asdf Version Manager") Asdf asdf_supports asdf_plan.

Definition SDKMAN_INSTALL : str := lit "curl -s " ++ quoted "https://get.sdkman.io" ++ lit " | bash".
Definition SDKMAN_SOURCE : str := lit "source ~/.sdkman/bin/sdkman-init.sh".

Definition sdkman_supports (req : ToolchainRequest) : SupportLevel :=
  if is_one_of (rq_capability req) ["jvm-build"; "java-build"]%string then Full else NoSupport.

Definition sdk_install (what candidate : string) (version : str) (timeout_ms : Z) : ToolchainStep :=
  mkStep (lit "Install " ++ lit what ++ lit " " ++ version)
    (SDKMAN_SOURCE ++ lit " && sdk install " ++ lit candidate ++ lit " " ++ version) ∅ timeout_ms 0.

Definition sdkman_plan (req : ToolchainRequest) : result DomainError ToolchainPlan :=
  let java_version := default (lit "17.0.8-tem") (rq_constraints req !! lit "java") in
  let maven_version := default (lit "3.9.5") (rq_constraints req !! lit "maven") in
  let java_home := lit "/root/.sdkman/candidates/java/" ++ java_version in
  Ok (mkPlan (rq_capability req) (lit "sdkman")
    ([step "Install SDKMAN!" SDKMAN_INSTALL 120000; sdk_install "Java" "java" java_version 600000;
      sdk_install "Maven" "maven" maven_version 300000] ++
     match rq_constraints req !! lit "gradle" with
     | Some gv => [sdk_install "Gradle" "gradle" gv 300000]
     | None => []
     end)
    [verify "Java version" (SDKMAN_SOURCE ++ lit " && java -version") (Some "openjdk"%string);
     verify "Maven version" (SDKMAN_SOURCE ++ lit " && mvn -version") (Some "Apache Maven"%string)]
    (<[lit "SDKMAN_DIR" := lit "/root/.sdkman"]> {[lit "JAVA_HOME" := java_home]})
    [java_home ++ lit "/bin"]).

Definition SdkmanAdapter : ToolManagerAdapter :=
  mkAdapter (lit "sdkman") (lit "SDKMAN! Java Version Manager") Sdkman sdkman_supports sdkman_plan.

(** ** Capabilities defined by files *)

Record ToolchainStepDef := mkStepDef {
  sd_description : str; sd_command : str; sd_timeout_ms : Z; sd_expected_exit_code : Z;
  sd_env : option (gmap str str)
}.
Definition default_step_timeout : Z := 300000.
Definition default_exit_code : Z := 0.

Record ToolVerifyStepDef := mkVerifyDef {
  vd_label : str; vd_command : str; vd_expected_output_contains : option str;
  vd_expected_exit_code : Z
}.

Record ToolchainDef := mkToolchainDef {
  td_manager : str; td_priority : Z; td_packages : option (list str);
  td_steps : option (list ToolchainStepDef); td_verification : option (list ToolVerifyStepDef);
  td_env : option (gmap str str); td_path_prefix : option (list str)
}.
Definition default_priority : Z := 100.

Record CapabilityConfig := mkCapability {
  cc_name : str; cc_description : option str; cc_toolchains : list ToolchainDef
}.

Section Registry.
Context `{ORDER : HashOrder} `{LOWER : Lowercase}.

Definition manager_to_type (manager : str) : ManagerType :=
  let m := to_lowercase manager in
  if str_eqb m (lit "apt") then Apt
  else if str_eqb m (lit "asdf") then Asdf
  else if str_eqb m (lit "sdkman") then Sdkman
  else if str_eqb m (lit "brew") then Brew
  else if str_eqb m (lit "nix") then Nix
  else CaStore.

(** [for (k, v) in &env { step_env.entry(k).or_insert(v) }]. *)
Definition merge_env (step_env env : gmap str str) : gmap str str :=
  fold_left (fun m '(k, v) => match m !! k with Some _ => m | None => <[k := v]> m end)
    (hash_iter _ env) step_env.

Definition steps_of (td : ToolchainDef) : list ToolchainStep :=
  let env := default ∅ (td_env td) in
  if str_eqb (td_manager td) (lit "apt") then
    match td_packages td with
    | Some (p :: ps) =>
        let packages_str := join (lit " ") (p :: ps) in
        [mkStep (lit "Update apt package index") (lit "apt-get update") ∅ 120000 0;
         mkStep (lit "Install packages: " ++ packages_str) (lit "apt-get install -y " ++ packages_str)
           ∅ 300000 0]
    | _ => []
    end
  else if str_eqb (td_manager td) (lit "brew") then
    match td_packages td with
    | Some ps =>
        map (fun pkg => mkStep (lit "Install " ++ pkg ++ lit " via brew") (lit "brew install " ++ pkg)
               ∅ 300000 0) ps
    | None => []
    end
  else
    match td_steps td with
    | Some ss =>
        map (fun s => mkStep (sd_description s) (sd_command s)
               (merge_env (default ∅ (sd_env s)) env) (sd_timeout_ms s) (sd_expected_exit_code s)) ss
    | None => []
    end.

Definition plan_of (td : ToolchainDef) (capability : str) : ToolchainPlan :=
  mkPlan capability (td_manager td) (steps_of td)
    (map (fun v => mkVerify (vd_label v) (vd_command v) (vd_expected_output_contains v)
            (vd_expected_exit_code v)) (default [] (td_verification td)))
    (default ∅ (td_env td)) (default [] (td_path_prefix td)).

Definition into_toolchain_plan (c : CapabilityConfig) (capability : str) : option ToolchainPlan :=
  match cc_toolchains c with
  | [] => None
  | td :: _ => Some (plan_of td capability)
  end.

Abbreviation CapabilityRegistry := (gmap str CapabilityConfig).

(** One file with the extension [toml]: what it decodes to, or the error that is
    logged; other entries are skipped. *)
Definition registry_insert (r : CapabilityRegistry) (n : nat) (file : result str CapabilityConfig) :
    CapabilityRegistry * nat :=
  match file with
  | Ok config => (<[cc_name config := config]> r, S n)
  | Err _ => (r, n)
  end.

(** [load_from_dir] of a directory that could be listed. *)
Fixpoint load_files (files : list (result str CapabilityConfig)) (r : CapabilityRegistry) (n : nat) :
    CapabilityRegistry * nat :=
  match files with
  | [] => (r, n)
  | f :: fs => let '(r, n) := registry_insert r n f in load_files fs r n
  end.

Definition candidates (c : CapabilityConfig) (strategy : ToolchainStrategy) : list ToolchainDef :=
  match List.filter (fun t => accepts strategy (manager_to_type (td_manager t))) (cc_toolchains c) with
  | [] => cc_toolchains c
  | filtered => filtered
  end.

Definition registry_resolve (r : CapabilityRegistry) (capability : str) (strategy : ToolchainStrategy) :
    option ToolchainPlan :=
  match r !! capability with
  | Some config =>
      into_toolchain_plan
        (mkCapability (cc_name config) (cc_description config)
           (sort_by_key td_priority (candidates config strategy))) capability
  | None => None
  end.

Definition registry_contains (r : CapabilityRegistry) (capability : str) : bool :=
  match r !! capability with Some _ => true | None => false end.
Definition list_capabilities (r : CapabilityRegistry) : list str := map fst (hash_iter _ r).
Definition get_config (r : CapabilityRegistry) (capability : str) : option CapabilityConfig := r !! capability.
End Registry.

(** ** Artifacts *)

Inductive ArtifactMediaType :=
| OciImage | OciLayer | OciArtifact | RootfsTar | VmDisk | MicroVmSnapshot | LambdaLayerZip | WasmModule
| CustomMedia (name : str).

Inductive Category := Generic | Java | Node | Python | Ruby | Go | Rust | System.

Record ToolDescriptor := mkTool {
  td_name : str; td_version : str; td_category : Category; td_preference : list ManagerType
}.

Record VerificationStep := mkVerification {
  vs_label : str; vs_command : str; vs_expected_exit_code : Z; vs_expected_output_contains : option str
}.

Record CapabilityDescriptor := mkCapabilityDescriptor {
  cd_name : str; cd_tools : list ToolDescriptor; cd_verification : list VerificationStep
}.

Record PreparedEnvironmentSpec := mkEnvSpec { es_env : gmap str str; es_path_prefix : list str }.

Record ArtifactSecurityMetadata := mkSecurity {
  as_digest : option str; as_signature : option str; as_sbom_ref : option str;
  as_provenance_ref : option str; as_readonly : bool; as_allowed_network : list str;
  as_allowed_writes : list str; as_contains_secrets : bool
}.
Definition Security_default : ArtifactSecurityMetadata := mkSecurity None None None None false [] [] false.

Record TemplateArtifact := mkArtifact {
  ta_id : str; ta_name : str; ta_version : str; ta_digest : str; ta_media_type : ArtifactMediaType;
  ta_capabilities : list CapabilityDescriptor; ta_env : PreparedEnvironmentSpec;
  ta_security : ArtifactSecurityMetadata; ta_provider_hints : gmap str str
}.

(** The builder is the artifact being built, with the identifier still open. *)
Record TemplateArtifactBuilder := mkBuilder { tb_id : option str; tb_artifact : TemplateArtifact }.

Definition dashed (s : str) : str := replace_char (chr "/") (lit "-") s.

Definition Builder_new (name version : str) : TemplateArtifactBuilder :=
  mkBuilder None (mkArtifact [] name version (lit "sha256:" ++ version) RootfsTar [] (mkEnvSpec ∅ [])
    Security_default ∅).
Definition builder_id (id : str) (b : TemplateArtifactBuilder) : TemplateArtifactBuilder :=
  mkBuilder (Some id) (tb_artifact b).
Definition builder_digest (digest : str) (b : TemplateArtifactBuilder) : TemplateArtifactBuilder :=
  let a := tb_artifact b in
  mkBuilder (tb_id b) (mkArtifact (ta_id a) (ta_name a) (ta_version a) digest (ta_media_type a)
    (ta_capabilities a) (ta_env a) (ta_security a) (ta_provider_hints a)).
Definition builder_add_capability (c : CapabilityDescriptor) (b : TemplateArtifactBuilder) :
    TemplateArtifactBuilder :=
  let a := tb_artifact b in
  mkBuilder (tb_id b) (mkArtifact (ta_id a) (ta_name a) (ta_version a) (ta_digest a) (ta_media_type a)
    (ta_capabilities a ++ [c]) (ta_env a) (ta_security a) (ta_provider_hints a)).
Definition build (b : TemplateArtifactBuilder) : TemplateArtifact :=
  let a := tb_artifact b in
  mkArtifact (default (dashed (ta_name a) ++ lit "-" ++ ta_version a) (tb_id b)) (ta_name a)
    (ta_version a) (ta_digest a) (ta_media_type a) (ta_capabilities a) (ta_env a) (ta_security a)
    (ta_provider_hints a).

(** ** The catalog of artifacts *)

Record CatalogEntry := mkEntry { en_artifact : TemplateArtifact; en_enabled : bool }.
Abbreviation ArtifactCatalog := (gmap (list N) CatalogEntry).

Section Catalog.
Context `{ORDER : HashOrder}.

Definition register (a : TemplateArtifact) (c : ArtifactCatalog) : ArtifactCatalog :=
  <[ta_id a := mkEntry a true]> c.
Definition remove_artifact (id : str) (c : ArtifactCatalog) : option CatalogEntry * ArtifactCatalog :=
  (c !! id, delete id c).
Definition get_artifact (id : str) (c : ArtifactCatalog) : option CatalogEntry := c !! id.

Definition provides (capability : str) (e : CatalogEntry) : bool :=
  existsb (fun c => str_eqb (cd_name c) capability) (ta_capabilities (en_artifact e)).

Definition entries (c : ArtifactCatalog) : list CatalogEntry := map snd (hash_iter _ c).
Definition find_by_capability (capability : str) (c : ArtifactCatalog) : list CatalogEntry :=
  List.filter (provides capability) (entries c).
Definition list_all (c : ArtifactCatalog) : list CatalogEntry := entries c.
Definition list_enabled (c : ArtifactCatalog) : list CatalogEntry := List.filter en_enabled (entries c).

Definition catalog_resolve (capability : str) (c : ArtifactCatalog) : result DomainError TemplateArtifact :=
  match List.filter (fun e => en_enabled e && provides capability e) (entries c) with
  | [] => Err (NotFound (lit "No artifact found for capability '" ++ capability ++ lit "'"))
  | e :: _ => Ok (en_artifact e)
  end.

(** ** The choice of a materializer *)

Inductive MaterializationMode :=
| ModeAuto | MountReadonly | Extract | BakeIntoImage | RestoreSnapshot | AttachLayer | LazyRemote.
Inductive ProviderKind :=
| KPodman | KDocker | KContainerd | KKubernetes | KGVisor | KFirecracker | KVirtualMachine | KFaaS
| KCustom | KWasm | KLocal.

Definition show_kind (k : ProviderKind) : str :=
  match k with
  | KPodman => lit "podman" | KDocker => lit "docker" | KContainerd => lit "containerd"
  | KKubernetes => lit "kubernetes" | KGVisor => lit "gvisor" | KFirecracker => lit "firecracker"
  | KVirtualMachine => lit "vm" | KFaaS => lit "faas" | KCustom => lit "custom" | KWasm => lit "wasm"
  | KLocal => lit "local"
  end.

Record StrategyResolution := mkResolution {
  re_materializer_name : str; re_mode : MaterializationMode; re_use_tool_resolver_fallback : bool
}.

Definition materialization_resolve (capability : str) (kind : ProviderKind) (c : ArtifactCatalog) :
    StrategyResolution :=
  match catalog_resolve capability c with
  | Ok _ =>
      mkResolution (lit "PodmanOptimizedMaterializer")
        (match kind with
         | KPodman | KDocker => MountReadonly
         | KKubernetes | KFirecracker => Extract
         | _ => ModeAuto
         end) false
  | Err _ =>
      mkResolution (lit "ToolResolver")
        (match kind with KKubernetes => Extract | _ => ModeAuto end) true
  end.

Definition is_local_provider (k : ProviderKind) : bool :=
  match k with KPodman | KDocker | KLocal => true | _ => false end.
Definition preferred_sync_backend (k : ProviderKind) : str :=
  if is_local_provider k then lit "rsync" else lit "tar_stream".
End Catalog.

(** ** Properties of the registry *)

Section Properties.
Context `{ORDER : HashOrder}.

(** The head of a stable sort: a least element, and the first of those. *)
Lemma sort_by_key_head {A} (key : A -> Z) (l : list A) :
  match sort_by_key key l with
  | [] => l = []
  | x :: _ => exists l1 l2, l = l1 ++ x :: l2 /\ Forall (fun y => (key x < key y)%Z) l1 /\
      Forall (fun y => (key x <= key y)%Z) l2
  end.
Proof.
  induction l as [|y l IH]; [done|]. cbn [sort_by_key foldr]. fold (sort_by_key key l).
  destruct (sort_by_key key l) as [|x xs]; cbn [insert_by_key].
  - subst l. by exists [], [].
  - destruct IH as (l1 & l2 & -> & H1 & H2). destruct (key y <=? key x)%Z eqn:E; bools.
    + exists [], (l1 ++ x :: l2). split; [done|]. split; [constructor|].
      apply Forall_app. split; [|constructor; [done|]]; (eapply Forall_impl; [done|]); simpl; lia.
    + exists (y :: l1), l2. split; [done|]. split; [|done]. by constructor.
Qed.

Lemma fold_or_insert (l : list (str * str)) (m : gmap str str) :
  NoDup (map fst l) ->
  fold_left (fun m '(k, v) => match m !! k with Some _ => m | None => <[k := v]> m end) l m =
    m ∪ list_to_map l.
Proof.
  revert m. induction l as [|[k v] l IH]; intros m Hn.
  - symmetry. apply map_union_empty.
  - cbn [map] in Hn. apply NoDup_cons in Hn as [Hk Hn]. cbn [fold_left]. rewrite IH by done.
    assert (Hl : (list_to_map l : gmap str str) !! k = None) by by apply not_elem_of_list_to_map_1.
    apply map_eq. intros i. rewrite list_to_map_cons, !lookup_union.
    destruct (m !! k) as [x|] eqn:E; destruct (decide (i = k)) as [->|Hi];
      rewrite ?lookup_insert_eq, ?lookup_insert_ne, ?E, ?Hl by done; done.
Qed.

(** In whatever order the map is walked, the variables of a step win over those
    of its toolchain. *)
Lemma merge_env_union (step_env env : gmap str str) : merge_env step_env env = step_env ∪ env.
Proof.
  unfold merge_env. rewrite fold_or_insert.
  - f_equal. rewrite <- (list_to_map_to_list env) at 2.
    apply list_to_map_proper; [apply hash_iter_nodup|apply hash_iter_perm].
  - apply hash_iter_nodup.
Qed.
(** A capability resolves exactly when a file defines it with a toolchain.  The
    plan is that of one toolchain of the definition: among those whose manager
    the strategy accepts, or among all of them when it accepts none, one of the
    least priority number, and of several the one written first; and each step
    with explicit commands runs with its own variables over the toolchain's. *)
Theorem registry_resolve_spec `{LOWER : Lowercase} (r : gmap str CapabilityConfig) (capability : str)
    (strategy : ToolchainStrategy) :
  match registry_resolve r capability strategy with
  | None => forall config, r !! capability = Some config -> cc_toolchains config = []
  | Some plan =>
      exists config td l1 l2, r !! capability = Some config /\
        candidates config strategy = l1 ++ td :: l2 /\
        Forall (fun t => td_priority td < td_priority t)%Z l1 /\
        Forall (fun t => td_priority td <= td_priority t)%Z l2 /\
        td ∈ cc_toolchains config /\
        (accepts strategy (manager_to_type (td_manager td)) = true \/
         forall t, t ∈ cc_toolchains config -> accepts strategy (manager_to_type (td_manager t)) = false) /\
        plan = plan_of td capability /\
        (td_manager td <> lit "apt" -> td_manager td <> lit "brew" ->
         map ts_env (pl_steps plan) =
           map (fun s => default ∅ (sd_env s) ∪ default ∅ (td_env td)) (default [] (td_steps td)))
  end.
Proof.
  unfold registry_resolve, into_toolchain_plan. destruct (r !! capability) as [config|] eqn:E; [|done].
  cbn [cc_toolchains]. pose proof (sort_by_key_head td_priority (candidates config strategy)) as Hh.
  assert (Hc : forall t, t ∈ candidates config strategy -> t ∈ cc_toolchains config /\
    (accepts strategy (manager_to_type (td_manager t)) = true \/
     forall t, t ∈ cc_toolchains config -> accepts strategy (manager_to_type (td_manager t)) = false)).
  { unfold candidates. intros t. destruct (List.filter _ (cc_toolchains config)) as [|t0 ts] eqn:Ef.
    - intros Hin. split; [done|]. right. intros t' Ht'. apply not_true_is_false. intros Ha.
      assert (Hx : In t' (List.filter (fun t => accepts strategy (manager_to_type (td_manager t)))
        (cc_toolchains config))) by (apply filter_In; split; [by apply list_elem_of_In|done]).
      by rewrite Ef in Hx.
    - rewrite <- Ef, list_elem_of_In, filter_In, <- list_elem_of_In. intros [? ?]. by split; [|left]. }
  destruct (sort_by_key td_priority (candidates config strategy)) as [|td tds].
  - intros config' [= <-]. unfold candidates in Hh. by destruct (List.filter _ (cc_toolchains config)).
  - destruct Hh as (l1 & l2 & El & H1 & H2). exists config, td, l1, l2.
    destruct (Hc td) as [Hin Ha]; [rewrite El; set_solver|].
    do 4 (split; [done|]). split; [done|]. split; [done|]. split; [done|]. intros Hn1 Hn2.
    unfold plan_of, steps_of. cbn [pl_steps]. rewrite !str_eqb_neq by done.
    destruct (td_steps td) as [ss|]; [|done]. cbn [default]. rewrite map_map. apply map_ext.
    intros sd. cbn [ts_env]. apply merge_env_union.
Qed.

(** ** Properties of the catalog *)

Lemma elem_of_entries (c : gmap str CatalogEntry) (e : CatalogEntry) :
  e ∈ entries c <-> exists id, c !! id = Some e.
Proof.
  unfold entries. rewrite (list_elem_of_fmap snd). split.
  - intros ([k v] & -> & Hk%elem_of_hash_iter). by exists k.
  - intros [k Hk]. exists (k, e). split; [done|]. by apply elem_of_hash_iter.
Qed.

(** The artifact last registered under each identifier of a history. *)
Definition survives (arts : list TemplateArtifact) (a : TemplateArtifact) : Prop :=
  exists l1 l2, arts = l1 ++ a :: l2 /\ forall b, b ∈ l2 -> ta_id b <> ta_id a.

Lemma registered_lookup (arts : list TemplateArtifact) (id : str) (e : CatalogEntry) :
  fold_left (fun c a => register a c) arts (∅ : gmap str CatalogEntry) !! id = Some e <->
  exists a, survives arts a /\ ta_id a = id /\ e = mkEntry a true.
Proof.
  induction arts as [|a arts IH] using rev_ind.
  - simpl. rewrite lookup_empty. split; [done|]. intros (a & (l1 & l2 & E & _) & _). by destruct l1.
  - rewrite fold_left_app. cbn [fold_left]. unfold register at 1.
    destruct (decide (ta_id a = id)) as [<-|Hne].
    + rewrite lookup_insert_eq. split.
      * intros [= <-]. exists a. split; [|done]. exists arts, []. split; [done|]. set_solver.
      * intros (b & (l1 & l2 & E & Hl) & Hb & ->). destruct l2 as [|x l2 _] using rev_ind.
        -- apply app_inj_tail in E as [_ <-]. done.
        -- rewrite app_comm_cons, app_assoc in E. apply app_inj_tail in E as [_ <-].
           exfalso. apply (Hl a); [set_solver|done].
    + rewrite lookup_insert_ne, IH by done. split; intros (b & (l1 & l2 & E & Hl) & Hb & ->).
      * exists b. split; [|done]. exists l1, (l2 ++ [a]). split; [by rewrite E, <- app_assoc|].
        intros x Hx. apply elem_of_app in Hx as [Hx|Hx]; [by apply Hl|]. apply list_elem_of_singleton in Hx. congruence.
      * exists b. split; [|done]. destruct l2 as [|x l2 _] using rev_ind.
        -- apply app_inj_tail in E as [_ <-]. congruence.
        -- rewrite app_comm_cons, app_assoc in E. apply app_inj_tail in E as [-> _].
           exists l1, l2. split; [done|]. intros y Hy. apply Hl. set_solver.
Qed.

(** Resolving against a catalog that was filled by registrations: whatever the
    order of the hash map, the answer is an artifact that was registered, was
    not replaced by a later one of the same identifier, and provides the
    capability; and there is an answer whenever there is such an artifact. *)
Theorem catalog_resolve_spec (arts : list TemplateArtifact) (capability : str) :
  match catalog_resolve capability (fold_left (fun c a => register a c) arts ∅) with
  | Ok a => survives arts a /\ provides capability (mkEntry a true) = true
  | Err e =>
      e = NotFound (lit "No artifact found for capability '" ++ capability ++ lit "'") /\
      forall a, survives arts a -> provides capability (mkEntry a true) = false
  end.
Proof.
  unfold catalog_resolve. set (c := fold_left _ arts ∅).
  destruct (List.filter (fun e => en_enabled e && provides capability e) (entries c)) as [|e es] eqn:Ef.
  - split; [done|]. intros a Ha. apply not_true_is_false. intros Hp.
    assert (Hx : In (mkEntry a true) (List.filter (fun e => en_enabled e && provides capability e) (entries c))).
    { apply filter_In. split; [|done]. apply list_elem_of_In, elem_of_entries. exists (ta_id a).
      apply registered_lookup. by exists a. }
    by rewrite Ef in Hx.
  - assert (Hx : In e (List.filter (fun e => en_enabled e && provides capability e) (entries c)))
      by (rewrite Ef; by left).
    apply filter_In in Hx as [Hin Hp]. apply list_elem_of_In, elem_of_entries in Hin as [id Hid].
    apply registered_lookup in Hid as (a & Ha & _ & ->). split; [done|]. by apply andb_true_iff in Hp as [_ ?].
Qed.
End Properties.

(** ** The resolver of the gateway *)

Definition gateway_resolver : ToolResolver :=
  register_adapter (register_adapter (register_adapter [] AptAdapter) AsdfAdapter) SdkmanAdapter.

(** Which adapter installs which capability under which strategy. *)
Definition installer (strategy : ToolchainStrategy) (capability : str) : option str :=
  match strategy with
  | Auto =>
      if is_one_of capability ["jvm-build"; "node-build"; "python-build"]%string then Some (lit "apt")
      else if str_eqb capability (lit "java-build") then Some (lit "sdkman") else None
  | SystemPackage =>
      if is_one_of capability ["jvm-build"; "node-build"; "python-build"]%string then Some (lit "apt") else None
  | VersionManager =>
      if is_one_of capability ["jvm-build"; "node-build"]%string then Some (lit "asdf")
      else if str_eqb capability (lit "java-build") then Some (lit "sdkman") else None
  | ContentAddressed => None
  end.

(** Capabilities that an adapter says it supports and then refuses to plan. *)
Definition claimed_not_planned (strategy : ToolchainStrategy) (capability : str) : bool :=
  match strategy with
  | Auto => is_one_of capability ["rust-build"; "go-build"; "ruby-build"]%string
  | SystemPackage => is_one_of capability ["rust-build"; "go-build"]%string
  | VersionManager => is_one_of capability ["python-build"; "rust-build"; "go-build"; "ruby-build"]%string
  | ContentAddressed => false
  end.

Lemma str_eqb_cases (s : str) (names : list string) :
  (exists n, In n names /\ s = lit n) \/ (forall n, In n names -> str_eqb s (lit n) = false).
Proof.
  induction names as [|n names IH]; [by right|]. destruct (str_eqb s (lit n)) eqn:E.
  - left. exists n. split; [by left|]. by apply str_eqb_eq.
  - destruct IH as [(m & Hm & ->)|Hf].
    + left. exists m. split; [by right|done].
    + right. intros m [<-|Hm]; [done|]. by apply Hf.
Qed.

Lemma sdkman_case (req : ToolchainRequest) :
  installer (rq_strategy req) (rq_capability req) = Some (lit "sdkman") ->
  exists plan, ad_plan SdkmanAdapter req = Ok plan /\
    installer (rq_strategy req) (rq_capability req) = Some (pl_adapter_used plan) /\
    pl_capability plan = rq_capability req /\ pl_steps plan <> [] /\
    Forall (fun s => ts_expected_exit_code s = 0%Z) (pl_steps plan).
Proof.
  intros E. cbn [ad_plan SdkmanAdapter]. unfold sdkman_plan. eexists. split; [reflexivity|].
  cbn [pl_capability pl_steps pl_adapter_used]. split; [done|]. split; [done|]. split; [done|].
  apply Forall_app. split; [by repeat constructor|]. case_match; by repeat constructor.
Qed.

(** What the three adapters of the gateway install, for every capability and
    strategy: a plan exists exactly where the table says, and is that adapter's,
    for that capability, with steps that must all exit with 0.  Elsewhere the
    answer is an error: [UnsupportedOperation] where an adapter claims the
    capability without a plan for it, although another strategy would have
    installed it, and [NotFound] in all other cases. *)
Theorem gateway_resolver_table (req : ToolchainRequest) :
  match resolve gateway_resolver req with
  | Ok plan =>
      installer (rq_strategy req) (rq_capability req) = Some (pl_adapter_used plan) /\
      pl_capability plan = rq_capability req /\ pl_steps plan <> [] /\
      Forall (fun s => ts_expected_exit_code s = 0%Z) (pl_steps plan)
  | Err e =>
      installer (rq_strategy req) (rq_capability req) = None /\
      if claimed_not_planned (rq_strategy req) (rq_capability req) then
        exists m, e = UnsupportedOperation m
      else exists m, e = NotFound m
  end.
Proof.
  destruct req as [sid cap constraints strategy]. cbn [rq_strategy rq_capability].
  destruct (str_eqb_cases cap ["jvm-build"; "node-build"; "python-build"; "rust-build"; "go-build";
    "ruby-build"; "java-build"]%string) as [(n & Hn & ->)|Hf].
  - repeat destruct Hn as [<-|Hn]; [..|done]; destruct strategy; unfold resolve;
      let pick a := (replace (find _ gateway_resolver) with a by (vm_compute; reflexivity); cbv iota) in
      first [pick (Some AptAdapter) | pick (Some AsdfAdapter) | pick (Some SdkmanAdapter)
            | pick (@None ToolManagerAdapter);
              first [pick (Some AptAdapter) | pick (@None ToolManagerAdapter)]].
    all: first [match goal with |- context [ad_plan SdkmanAdapter ?r] =>
      destruct (sdkman_case r eq_refl) as (plan & -> & Hp); exact Hp end | vm_compute; split; [reflexivity|]; split; [reflexivity|];
      split; [discriminate|repeat constructor] | split; [reflexivity|]; eexists; reflexivity].
  - assert (Hg : forall names, (forall n, In n names -> In n ["jvm-build"; "node-build"; "python-build"; "rust-build";
      "go-build"; "ruby-build"; "java-build"]%string) -> is_one_of cap names = false).
    { intros names. induction names as [|n names IH]; intros Hi; [done|]. cbn [is_one_of existsb].
      rewrite (Hf n) by (apply Hi; by left). apply IH. intros m Hm. apply Hi. by right. }
    assert (Hl : forall a, In a gateway_resolver -> ad_supports a (mkRequest sid cap constraints strategy) = NoSupport).
    { intros a [<-|[<-|[<-|[]]]]; cbn [ad_supports AptAdapter AsdfAdapter SdkmanAdapter];
        unfold apt_supports, asdf_supports, sdkman_supports; cbn [rq_capability]; rewrite !Hg; try done;
        simpl; intros n; tauto. }
    assert (Hfind : forall level, level <> NoSupport -> find (offers (mkRequest sid cap constraints strategy) level)
      gateway_resolver = None).
    { intros level Hlv. destruct (find _ gateway_resolver) as [a|] eqn:E; [|done].
      apply find_some in E as [Ha Ho]. unfold offers in Ho. rewrite (Hl a Ha) in Ho.
      apply andb_true_iff in Ho as [_ Ho]. apply bool_decide_eq_true in Ho. by subst. }
    unfold resolve. rewrite !Hfind by done. split.
    + unfold installer. rewrite !Hg, (Hf "java-build"%string) by (simpl; intros; tauto). by destruct strategy.
    + unfold claimed_not_planned. rewrite !Hg by (simpl; intros; tauto). destruct strategy; by eexists.
Qed.

(** Three of the capabilities the gateway advertises can be installed under no
    strategy. *)
Example advertised_never_installed :
  Forall (fun s => Forall (fun c => installer s (lit c) = None) ["rust-build"; "go-build"; "ruby-build"]%string)
    [Auto; SystemPackage; VersionManager; ContentAddressed].
Proof. by repeat constructor. Qed.

(** Two artifacts whose names and versions differ get the same identifier, so
    that the second replaces the first in the catalog. *)
Example identifiers_collide :
  ta_id (build (Builder_new (lit "bastion/jvm") (lit "1"))) =
  ta_id (build (Builder_new (lit "bastion") (lit "jvm-1"))).
Proof. reflexivity. Qed.
