(* ===== verification/Materialize.v ===== *)
(** * Materializing artifacts

    Models how a template artifact gets into a sandbox:
    [bastion-infrastructure/src/template] ([store.rs], [podman.rs],
    [universal.rs], [layer.rs], [ca_store.rs]) and the layers of
    [bastion-domain/src/template/layer.rs].  The host - its files and the [tar]
    program - is the class [HostFs] over the external world; the sandbox is
    reached through a [Provider] of [UseCases].  Repackaging a tar as a zip and
    SHA-256 are arguments.  Instants are left out; a panic is an outer [None]. *)

From S2P Require Import Prelude Utf8 Sandbox Command Normalizer Orientation UseCases Toolchain.

(** ** The host *)

Class HostFs (W : Type) := {
  path_exists : str -> W -> bool;
  host_read : str -> W -> result str bytes;
  host_write : str -> bytes -> W -> result str unit * W;
  host_mkdirs : str -> W -> result str unit * W;
  host_remove : str -> W -> W;
  host_link : str -> str -> W -> result str unit * W;
  (** A run of [tar]: whether it succeeded, and its error output. *)
  host_tar : list str -> W -> result str (bool * bytes) * W
}.

(** What the file system promises about single files. *)
Class HostLaws (W : Type) `{HostFs W} := {
  law_write_read : forall p c w, fst (host_write p c w) = Ok tt ->
    host_read p (snd (host_write p c w)) = Ok c /\ path_exists p (snd (host_write p c w)) = true;
  law_write_other : forall p q c w, p <> q -> host_read q (snd (host_write p c w)) = host_read q w;
  law_mkdirs : forall p q w, host_read q (snd (host_mkdirs p w)) = host_read q w
}.

(** [Path::join]: an absolute path replaces the base; a separator is put between
    the two unless the base is empty or ends in one. *)
Definition path_join (base p : str) : str :=
  if starts_with [chr "/"] p then p
  else match rev base with
       | [] => p
       | c :: _ => if (c =? chr "/")%N then base ++ p else base ++ chr "/" :: p
       end.

(** [Path::parent] of a joined path. *)
Definition parent_of (p : str) : str :=
  match span (fun c => negb (c =? chr "/")%N) (rev p) with
  | (_, _ :: before) => rev before
  | (_, []) => []
  end.

(** ** The store of artifacts *)

Section Store.
Context {W : Type} `{HOST : !HostFs W}.

Definition artifact_file (artifact_id digest16 : str) : str :=
  dashed artifact_id ++ lit "-" ++ digest16 ++ lit ".tar.gz".

(** The first sixteen bytes of the digest name the file. *)
Definition artifact_path (root artifact_id digest : str) : option str :=
  match slice digest 0 (N.min (str_len digest) 16) with
  | Some d => Some (path_join root (artifact_file artifact_id d))
  | None => None
  end.

Definition store_fetch (root artifact_id digest : str) (w : W) : option (result DomainError bytes) :=
  match artifact_path root artifact_id digest with
  | None => None
  | Some path =>
      Some (map_err (fun e => NotFound (lit "Artifact " ++ artifact_id ++ lit " not found at " ++ path ++
              lit ": " ++ e)) (host_read path w))
  end.

Definition store_is_cached (root artifact_id digest : str) (w : W) : option bool :=
  option_map (fun path => path_exists path w) (artifact_path root artifact_id digest).

Definition store_store (root artifact_id digest : str) (content : bytes) (w : W) :
    option (result DomainError unit * W) :=
  match artifact_path root artifact_id digest with
  | None => None
  | Some path =>
      Some (match host_mkdirs (parent_of path) w with
            | (Err e, w) => (Err (Internal (lit "Failed to create store dir: " ++ e)), w)
            | (Ok _, w) =>
                let '(r, w) := host_write path content w in
                (map_err (fun e => Internal (lit "Failed to write artifact: " ++ e)) r, w)
            end)
  end.
End Store.

(** ** Layers *)

Definition MAX_LAYERS_PER_FUNCTION : nat := 5.
Definition LAYER_MOUNT_PREFIX : str := lit "/opt/bastion/layers".

Record LayerArtifact := mkLayer {
  la_id : str; la_name : str; la_version : Z; la_arn : str; la_template : TemplateArtifact;
  la_description : option str; la_compatible_runtimes : list str; la_license : option str
}.

Definition LayerArtifact_new (t : TemplateArtifact) (description : option str) : LayerArtifact :=
  mkLayer (lit "layer:" ++ dashed (ta_name t)) (ta_name t) 1
    (lit "arn:bastion:layer:" ++ dashed (ta_name t) ++ lit ":" ++ show_Z 1) t description [] None.

Definition layer_mount_path (l : LayerArtifact) : str :=
  LAYER_MOUNT_PREFIX ++ lit "/" ++ ta_digest (la_template l).

Inductive LayerStackError := TooManyLayers | DuplicateLayer (name : str).

Abbreviation LayerStack := (list LayerArtifact).

Definition stack_add (layer : LayerArtifact) (s : LayerStack) : result LayerStackError unit * LayerStack :=
  if (MAX_LAYERS_PER_FUNCTION <=? length s)%nat then (Err TooManyLayers, s)
  else if existsb (fun l => str_eqb (la_name l) (la_name layer)) s then
    (Err (DuplicateLayer (la_name layer)), s)
  else (Ok tt, s ++ [layer]).

(** [position] and [Vec::remove]. *)
Fixpoint stack_remove (name : str) (s : LayerStack) : option LayerArtifact * LayerStack :=
  match s with
  | [] => (None, [])
  | l :: s' =>
      if str_eqb (la_name l) name then (Some l, s')
      else let '(r, s'') := stack_remove name s' in (r, l :: s'')
  end.

Definition combined_path_prefix (s : LayerStack) : list str :=
  flat_map (fun l => es_path_prefix (ta_env (la_template l))) s.

Definition combined_env `{HashOrder} (s : LayerStack) : gmap str str :=
  fold_left (fun env l =>
    fold_left (fun env '(k, v) => <[k := v]> env) (hash_iter _ (es_env (ta_env (la_template l)))) env) s ∅.

Inductive stack_op := AddLayer (l : LayerArtifact) | RemoveLayer (name : str).
Definition stack_step (op : stack_op) (s : LayerStack) : LayerStack :=
  match op with AddLayer l => snd (stack_add l s) | RemoveLayer n => snd (stack_remove n s) end.

(** ** Verification inside the sandbox *)

Section Materializers.
Context `{CH : Chrono} {W : Type} `{HOST : !HostFs W} `{ORDER : HashOrder} `{LOWER : Lowercase}.
Variable provider : @Provider CH W.

(** [for (k, v) in env { cmd = cmd.with_env(k, v) }]. *)
Definition with_envs (env : gmap str str) (cmd : CommandSpec) : CommandSpec :=
  fold_left (fun c '(k, v) => with_env k v c) (hash_iter _ env) cmd.

Definition verification_command (a : TemplateArtifact) (s : VerificationStep) : CommandSpec :=
  let cmd := with_envs (es_env (ta_env a)) (CommandSpec_new (vs_command s)) in
  match es_path_prefix (ta_env a) with
  | p :: _ => with_env (lit "PATH") (p ++ lit ":$PATH") cmd
  | [] => cmd
  end.

Definition combined_output (r : CommandResult) : str :=
  from_utf8_lossy (cr_stdout r) ++ from_utf8_lossy (cr_stderr r).
Definition output_ok (s : VerificationStep) (r : CommandResult) : bool :=
  match vs_expected_output_contains s with
  | Some expected => str_contains (to_lowercase (combined_output r)) (to_lowercase expected)
  | None => true
  end.
Definition exit_mismatch (s : VerificationStep) (r : CommandResult) : DomainError :=
  Validation (lit "Verification '" ++ vs_label s ++ lit "' failed: exit code " ++ show_Z (cr_exit_code r)
    ++ lit " (expected " ++ show_Z (vs_expected_exit_code s) ++ lit ")").

(** The steps of all capabilities in turn; [mismatch] words the error of a wrong
    output, and panics in the universal materializer. *)
Fixpoint verify_steps (mismatch : VerificationStep -> CommandResult -> option DomainError) (id : str)
    (a : TemplateArtifact) (steps : list VerificationStep) (w : W) : option (result DomainError unit * W) :=
  match steps with
  | [] => Some (Ok tt, w)
  | s :: steps' =>
      let '(r, w) := pv_run_command provider id (verification_command a s) w in
      match r with
      | Err e => Some (Err e, w)
      | Ok result =>
          if negb (cr_exit_code result =? vs_expected_exit_code s)%Z then
            Some (Err (exit_mismatch s result), w)
          else if output_ok s result then verify_steps mismatch id a steps' w
          else match mismatch s result with Some e => Some (Err e, w) | None => None end
      end
  end.

Definition all_steps (a : TemplateArtifact) : list VerificationStep :=
  flat_map cd_verification (ta_capabilities a).

(** ** The materializer for Podman *)

Definition podman_mismatch (s : VerificationStep) (_ : CommandResult) : option DomainError :=
  Some (Validation (lit "Verification '" ++ vs_label s ++ lit "' failed: expected '" ++
    default [] (vs_expected_output_contains s) ++ lit "' in output")).

Definition tar_args (flag tar_path target : str) : list str := [flag; tar_path; lit "-C"; target].

(** The host directory of the artifact, and whether it was there already. *)
Definition ensure_host_cache (store_root cache_root : str) (a : TemplateArtifact) (w : W) :
    option (result DomainError (str * bool) * W) :=
  let target := path_join (path_join cache_root (lit "artifacts")) (ta_digest a) in
  if path_exists (path_join target (lit ".extracted")) w then Some (Ok (target, true), w)
  else
    match store_fetch store_root (ta_id a) (ta_digest a) w with
    | None => None
    | Some (Err e) => Some (Err e, w)
    | Some (Ok content) =>
        Some (
          match host_mkdirs target w with
          | (Err e, w) => (Err (Internal (lit "mkdir: " ++ e)), w)
          | (Ok _, w) =>
              let tar_path := path_join target (lit "artifact.tar") in
              match host_write tar_path content w with
              | (Err e, w) => (Err (Internal (lit "write tar: " ++ e)), w)
              | (Ok _, w) =>
                  let finish w :=
                    let w := host_remove tar_path w in
                    let w := snd (host_write (path_join target (lit ".extracted")) (utf8 (lit "ok")) w) in
                    (Ok (target, false), w) in
                  match host_tar (tar_args (lit "xf") tar_path target) w with
                  | (Err e, w) => (Err (Internal (lit "host tar: " ++ e)), w)
                  | (Ok (true, _), w) => finish w
                  | (Ok (false, _), w) =>
                      match host_tar (tar_args (lit "xzf") tar_path target) w with
                      | (Err e, w) => (Err (Internal (lit "host tar xzf: " ++ e)), w)
                      | (Ok (true, _), w) => finish w
                      | (Ok (false, stderr), w) =>
                          (Err (Internal (lit "Failed to extract artifact on host: " ++
                             from_utf8_lossy stderr)), w)
                      end
                  end
              end
          end)
    end.

Definition copy_to_sandbox (id host_dir target : str) (w : W) : result DomainError unit * W :=
  let w := snd (pv_run_command provider id (CommandSpec_new (lit "mkdir -p " ++ target)) w) in
  pv_copy_to provider id host_dir target w.

Record MaterializationResult := mkMaterialized {
  mr_sandbox_id : str; mr_artifact_id : str; mr_mode : MaterializationMode; mr_cache_hit : bool;
  mr_mount_path : str; mr_env_ref : option str
}.

Definition debug_mode (m : MaterializationMode) : str :=
  match m with
  | ModeAuto => lit "Auto" | MountReadonly => lit "MountReadonly" | Extract => lit "Extract"
  | BakeIntoImage => lit "BakeIntoImage" | RestoreSnapshot => lit "RestoreSnapshot"
  | AttachLayer => lit "AttachLayer" | LazyRemote => lit "LazyRemote"
  end.

Definition artifact_mount (a : TemplateArtifact) : str := lit "/opt/bastion/artifacts/" ++ ta_digest a.
Definition materialized_ref (a : TemplateArtifact) : str :=
  lit "materialized:" ++ ta_name a ++ lit ":" ++ ta_digest a.

Definition podman_materialize (store_root cache_root id : str) (a : TemplateArtifact)
    (mode : MaterializationMode) (w : W) : option (result DomainError MaterializationResult * W) :=
  if as_contains_secrets (ta_security a) then
    Some (Err (PermissionDenied (lit "Artifact contains secrets")), w)
  else
    match mode with
    | MountReadonly | ModeAuto | Extract =>
        match ensure_host_cache store_root cache_root a w with
        | None => None
        | Some (Err e, w) => Some (Err e, w)
        | Some (Ok (host_dir, _), w) =>
            match copy_to_sandbox id host_dir (artifact_mount a) w with
            | (Err e, w) => Some (Err e, w)
            | (Ok _, w) =>
                match verify_steps podman_mismatch id a (all_steps a) w with
                | None => None
                | Some (Err e, w) => Some (Err e, w)
                | Some (Ok _, w) =>
                    Some (Ok (mkMaterialized id (ta_id a) MountReadonly true (artifact_mount a)
                      (Some (materialized_ref a))), w)
                end
            end
        end
    | _ =>
        Some (Err (UnsupportedOperation (lit "Podman optimized does not support mode " ++ debug_mode mode)), w)
    end.

(** ** The universal materializer *)

(** The message quotes the first 200 bytes of the output. *)
Definition universal_mismatch (s : VerificationStep) (r : CommandResult) : option DomainError :=
  let combined := combined_output r in
  match slice combined 0 (N.min (str_len combined) 200) with
  | Some quoted =>
      Some (Validation (lit "Verification '" ++ vs_label s ++ lit "' failed: expected '" ++
        default [] (vs_expected_output_contains s) ++ lit "' in output, got: " ++ quoted))
  | None => None
  end.

Definition extract_command (tar_path target : str) : CommandSpec :=
  with_timeout 120000 (CommandSpec_new (lit "tar xzf " ++ tar_path ++ lit " -C " ++ target ++
    lit " 2>/dev/null || tar xf " ++ tar_path ++ lit " -C " ++ target)).

Definition extract_to (store_root id : str) (a : TemplateArtifact) (target : str) (w : W) :
    option (result DomainError unit * W) :=
  match store_fetch store_root (ta_id a) (ta_digest a) w with
  | None => None
  | Some (Err e) => Some (Err e, w)
  | Some (Ok content) =>
      let tar_path := target ++ lit "/artifact.tar.gz" in
      let w := snd (pv_run_command provider id (CommandSpec_new (lit "mkdir -p " ++ target)) w) in
      Some (
        let? (_u, w) := pv_write_file provider id tar_path content w in
        let? (r, w) := pv_run_command provider id (extract_command tar_path target) w in
        if is_success r then
          (Ok tt, snd (pv_run_command provider id (CommandSpec_new (lit "rm -f " ++ tar_path)) w))
        else (Err (CommandFailed (cr_exit_code r) (from_utf8_lossy (cr_stderr r))), w))
  end.

Definition universal_materialize (store_root id : str) (a : TemplateArtifact)
    (mode : MaterializationMode) (w : W) : option (result DomainError MaterializationResult * W) :=
  if as_contains_secrets (ta_security a) then
    Some (Err (PermissionDenied
      (lit "Artifact contains secrets and cannot be materialized as template")), w)
  else
    match store_is_cached store_root (ta_id a) (ta_digest a) w with
    | None => None
    | Some cache_hit =>
        match mode with
        | Extract | ModeAuto =>
            match extract_to store_root id a (artifact_mount a) w with
            | None => None
            | Some (Err e, w) => Some (Err e, w)
            | Some (Ok _, w) =>
                match verify_steps universal_mismatch id a (all_steps a) w with
                | None => None
                | Some (Err e, w) => Some (Err e, w)
                | Some (Ok _, w) =>
                    Some (Ok (mkMaterialized id (ta_id a) Extract cache_hit (artifact_mount a)
                      (Some (materialized_ref a))), w)
                end
            end
        | _ =>
            Some (Err (UnsupportedOperation
              (lit "Universal materializer does not support mode " ++ debug_mode mode)), w)
        end
    end.

(** ** The layer materializer *)

Variable tar_to_zip : bytes -> result DomainError bytes.

Definition build_zip_layer (store_root cache_root : str) (a : TemplateArtifact) (w : W) :
    option (result DomainError bytes * W) :=
  let layers := path_join cache_root (lit "layers") in
  let zip_path := path_join layers (ta_digest a ++ lit ".zip") in
  if path_exists zip_path w then
    Some (map_err (fun e => Internal (lit "read cached zip: " ++ e)) (host_read zip_path w), w)
  else
    match store_fetch store_root (ta_id a) (ta_digest a) w with
    | None => None
    | Some (Err e) => Some (Err e, w)
    | Some (Ok tar_bytes) =>
        match tar_to_zip tar_bytes with
        | Err e => Some (Err e, w)
        | Ok zip_bytes =>
            let w := snd (host_mkdirs layers w) in
            let '(r, w) := host_write zip_path zip_bytes w in
            Some (match r with
                  | Err e => Err (Internal (lit "write zip cache: " ++ e))
                  | Ok _ => Ok zip_bytes
                  end, w)
        end
    end.

Definition unzip_command (zip_path target : str) : CommandSpec :=
  let dq := [34%N] in
  with_timeout 60000 (CommandSpec_new (lit "unzip -o " ++ zip_path ++ lit " -d " ++ target ++
    lit " 2>/dev/null || python3 -c " ++ dq ++ lit "import zipfile; zipfile.ZipFile('" ++ zip_path ++
    lit "').extractall('" ++ target ++ lit "')" ++ dq ++ lit " 2>/dev/null || true")).

Definition deploy_to_sandbox (id : str) (zip_bytes : bytes) (target : str) (w : W) :
    result DomainError str * W :=
  let w := snd (pv_run_command provider id (CommandSpec_new (lit "mkdir -p " ++ target)) w) in
  let zip_path := target ++ lit "/layer.zip" in
  let? (_u, w) := pv_write_file provider id zip_path zip_bytes w in
  let w := snd (pv_run_command provider id (unzip_command zip_path target) w) in
  let w := snd (pv_run_command provider id (CommandSpec_new (lit "rm -f " ++ zip_path)) w) in
  (Ok target, w).

Definition to_layer (a : TemplateArtifact) : LayerArtifact :=
  LayerArtifact_new a (Some (lit "Layer for capability: " ++
    match ta_capabilities a with c :: _ => cd_name c | [] => lit "unknown" end)).

Definition zip_materialize (store_root cache_root id : str) (a : TemplateArtifact)
    (mode : MaterializationMode) (w : W) : option (result DomainError MaterializationResult * W) :=
  if as_contains_secrets (ta_security a) then
    Some (Err (PermissionDenied (lit "Artifact contains secrets")), w)
  else
    match build_zip_layer store_root cache_root a w with
    | None => None
    | Some (Err e, w) => Some (Err e, w)
    | Some (Ok zip_bytes, w) =>
        let mount_path := LAYER_MOUNT_PREFIX ++ lit "/" ++ ta_digest a in
        match mode with
        | AttachLayer | ModeAuto =>
            match deploy_to_sandbox id zip_bytes mount_path w with
            | (Err e, w) => Some (Err e, w)
            | (Ok _, w) =>
                Some (Ok (mkMaterialized id (ta_id a) AttachLayer true mount_path
                  (Some (lit "layer:" ++ la_arn (to_layer a) ++ lit ":" ++ ta_digest a))), w)
            end
        | _ =>
            Some (Err (UnsupportedOperation
              (lit "ZipLayer only supports AttachLayer mode, got " ++ debug_mode mode)), w)
        end
    end.
End Materializers.

(** ** The content-addressed store *)

Section CaStore.
Context {W : Type} `{HOST : !HostFs W}.
(** The lower-case hexadecimal SHA-256 of some bytes. *)
Variable sha256_hex : bytes -> str.
Variables store_root provision_root : str.

Definition ca_lookup (hash : str) (w : W) : option str :=
  let p := path_join store_root hash in if path_exists p w then Some p else None.

Definition ca_verify (path expected_hash : str) (w : W) : result DomainError unit :=
  match host_read path w with
  | Err e => Err (Internal (lit "Failed to read tool file: " ++ e))
  | Ok data =>
      let computed := lit "sha256:" ++ sha256_hex data in
      if str_eqb computed expected_hash then Ok tt
      else Err (Internal (lit "checksum mismatch: expected " ++ expected_hash ++ lit ", got " ++ computed))
  end.

Definition create_hardlink (hash tool_name : str) (w : W) : result DomainError str * W :=
  let store_path := path_join store_root hash in
  let provision_path := path_join provision_root tool_name in
  match host_mkdirs (parent_of provision_path) w with
  | (Err e, w) => (Err (Internal (lit "Failed to create provision dir: " ++ e)), w)
  | (Ok _, w) =>
      match host_link store_path provision_path w with
      | (Err e, w) => (Err (Internal (lit "Failed to create hardlink: " ++ e)), w)
      | (Ok _, w) => (Ok provision_path, w)
      end
  end.

Definition ca_supports (req : ToolchainRequest) : SupportLevel :=
  if decide (rq_strategy req = ContentAddressed) then Full else NoSupport.

Definition ca_plan (req : ToolchainRequest) (w : W) : result DomainError ToolchainPlan * W :=
  match rq_constraints req !! lit "tool_hash" with
  | None => (Err (Validation (lit "Missing tool_hash constraint")), w)
  | Some tool_hash =>
      let tool_name := default (rq_capability req) (rq_constraints req !! lit "tool_name") in
      match ca_lookup tool_hash w with
      | None => (Err (NotFound (lit "Tool " ++ tool_hash ++ lit " not found in CA store")), w)
      | Some store_path =>
          let? (provision_path, w) := create_hardlink tool_hash tool_name w in
          match host_read store_path w with
          | Err e => (Err (Internal (lit "Failed to read store file: " ++ e)), w)
          | Ok data =>
              let computed := lit "sha256:" ++ sha256_hex data in
              (Ok (mkPlan (rq_capability req) (lit "ca-store")
                [mkStep (lit "Provision tool from CA store via hardlink to " ++ provision_path)
                   (lit "ln " ++ store_path ++ lit " " ++ provision_path) ∅ 10000 0]
                [mkVerify (lit "Verify " ++ tool_name ++ lit " checksum")
                   (lit "sha256sum " ++ provision_path) (Some computed) 0]
                ∅ [parent_of provision_path]), w)
          end
      end
  end.
End CaStore.

(** ** Properties of layers *)

Section LayerProperties.
Context `{ORDER : HashOrder}.

Lemma fold_insert_union (l : list (str * str)) (m : gmap str str) :
  NoDup (map fst l) ->
  fold_left (fun m '(k, v) => <[k := v]> m) l m = list_to_map l ∪ m.
Proof.
  revert m. induction l as [|[k v] l IH]; intros m Hn.
  - symmetry. apply map_empty_union.
  - cbn [map] in Hn. apply NoDup_cons in Hn as [Hk Hn]. cbn [fold_left]. rewrite IH by done.
    assert (Hl : (list_to_map l : gmap str str) !! k = None) by by apply not_elem_of_list_to_map_1.
    apply map_eq. intros i. rewrite list_to_map_cons, !lookup_union.
    destruct (decide (i = k)) as [->|Hi];
      rewrite ?lookup_insert_eq, ?lookup_insert_ne, ?Hl by done; [by destruct (m !! k)|done].
Qed.

Lemma fold_insert_hash (env m : gmap str str) :
  fold_left (fun m '(k, v) => <[k := v]> m) (hash_iter _ env) m = env ∪ m.
Proof.
  rewrite fold_insert_union by apply hash_iter_nodup. f_equal.
  rewrite <- (list_to_map_to_list env) at 2.
  apply list_to_map_proper; [apply hash_iter_nodup|apply hash_iter_perm].
Qed.

(** The value a variable has in the last layer that sets it. *)
Fixpoint last_setting (k : str) (s : list LayerArtifact) (acc : option str) : option str :=
  match s with
  | [] => acc
  | l :: s' => last_setting k s' (match es_env (ta_env (la_template l)) !! k with Some v => Some v | None => acc end)
  end.

Lemma combined_env_from (k : str) (s : list LayerArtifact) (m : gmap str str) :
  fold_left (fun env l =>
    fold_left (fun env '(k, v) => <[k := v]> env) (hash_iter _ (es_env (ta_env (la_template l)))) env) s m !! k =
  last_setting k s (m !! k).
Proof.
  revert m. induction s as [|l s IH]; intros m; [done|]. cbn [fold_left last_setting].
  rewrite IH, fold_insert_hash, lookup_union. f_equal. by destruct (_ !! k), (m !! k).
Qed.

Lemma stack_remove_sub name s : sublist (snd (stack_remove name s)) s.
Proof.
  induction s as [|l s IH]; [constructor|]. cbn [stack_remove].
  destruct (str_eqb (la_name l) name); [by constructor|].
  destruct (stack_remove name s) as [r s'']. by constructor.
Qed.

(** After any history of additions and removals a stack holds at most five
    layers, no two of one name; and in the combined environment each variable
    has the value of the last layer that sets it, whatever the hash order. *)
Theorem layer_stack_invariant (ops : list stack_op) (k : str) :
  let s := fold_left (fun s op => stack_step op s) ops [] in
  length s <= 5 /\ NoDup (map la_name s) /\ combined_env s !! k = last_setting k s None.
Proof.
  cbv zeta. cut (length (fold_left (fun s op => stack_step op s) ops []) <= 5 /\
    NoDup (map la_name (fold_left (fun s op => stack_step op s) ops []))).
  { intros [H1 H2]. split; [done|]. split; [done|]. unfold combined_env.
    rewrite combined_env_from. by rewrite lookup_empty. }
  induction ops as [|op ops IH] using rev_ind; [split; [simpl; lia|constructor]|].
  rewrite fold_left_app. cbn [fold_left]. set (s := fold_left _ ops []) in *. destruct IH as [Hl Hn].
  destruct op as [l|name]; cbn [stack_step].
  - unfold stack_add, MAX_LAYERS_PER_FUNCTION.
    destruct (5 <=? length s)%nat eqn:E5; [done|]. apply Nat.leb_gt in E5.
    destruct (existsb _ s) eqn:Ee; [done|]. cbn [snd]. rewrite length_app, map_app. split; [simpl; lia|].
    apply NoDup_app. split; [done|]. split; [|by apply NoDup_singleton].
    intros x Hx Hx'. apply list_elem_of_singleton in Hx' as ->.
    apply (list_elem_of_fmap la_name) in Hx as (l' & El & Hin).
    apply not_true_iff_false in Ee. apply Ee. apply existsb_exists. exists l'.
    split; [by apply list_elem_of_In|]. rewrite El. apply str_eqb_refl.
  - pose proof (stack_remove_sub name s) as Hs. split.
    + apply sublist_length in Hs. lia.
    + eapply sublist_NoDup; [exact Hn|]. by apply (fmap_sublist la_name).
Qed.
End LayerProperties.

(** ** Properties of the store *)

Section StoreProperties.
Context {W : Type} `{HOST : !HostFs W} `{LAWS : !@HostLaws W HOST}.

(** What is stored is fetched back under its identifier and digest.  Under any
    other pair the store is unchanged, unless the pair names the same file,
    which it does when the identifiers agree up to slashes and the digests in
    their first sixteen bytes: then it is answered with these bytes too. *)
Theorem store_roundtrip (root id digest : str) (content : bytes) (w w' : W) (id' digest' : str) :
  store_store root id digest content w = Some (Ok tt, w') ->
  store_fetch root id digest w' = Some (Ok content) /\
  store_is_cached root id digest w' = Some true /\
  store_fetch root id' digest' w' =
    (if decide (artifact_path root id' digest' = artifact_path root id digest) then Some (Ok content)
     else store_fetch root id' digest' w).
Proof.
  unfold store_store, store_fetch, store_is_cached.
  destruct (artifact_path root id digest) as [p|] eqn:Ep; [|done].
  pose proof (law_mkdirs (parent_of p)) as Hm. specialize (fun q => Hm q w).
  destruct (host_mkdirs (parent_of p) w) as [[[]|e] w1]; [|done]. cbn [snd] in Hm.
  pose proof (law_write_read p content w1) as Hr. pose proof (fun q => law_write_other p q content w1) as Ho.
  destruct (host_write p content w1) as [[[]|e] w2]; cbn [fst snd map_err] in *; [|done].
  intros [= <-]. destruct (Hr eq_refl) as [E1 E2]. rewrite E1. cbn [option_map map_err].
  split; [done|]. split; [by rewrite E2|]. case_decide as Hd.
  - rewrite Hd, E1. done.
  - destruct (artifact_path root id' digest') as [p'|]; [|done].
    rewrite Ho by congruence. by rewrite Hm.
Qed.
End StoreProperties.

(** Two different contents, 36 bits of whose hashes agree, share a file. *)
Example digests_collide (root id : str) :
  artifact_path root id (lit "sha256:0123456789abcdef") =
  artifact_path root id (lit "sha256:0123456780000000").
Proof. reflexivity. Qed.

(** ** Properties of the materializers *)

Section MaterializerProperties.
Context `{CH : Chrono} {W : Type} `{HOST : !HostFs W} `{ORDER : HashOrder} `{LOWER : Lowercase}.
Variable provider : @Provider CH W.

Lemma with_envs_env (env : gmap str str) (cmd : CommandSpec) :
  with_envs env cmd =
    mkCommandSpec (cs_command cmd) (cs_args cmd) (cs_working_dir cmd) (env ∪ cs_env_vars cmd)
      (cs_timeout_ms cmd) (cs_secrets cmd).
Proof.
  rewrite <- fold_insert_hash. unfold with_envs. generalize (hash_iter _ env). intros l. revert cmd.
  induction l as [|[k v] l IH]; intros cmd; [by destruct cmd|]. cbn [fold_left]. by rewrite IH.
Qed.

(** The verification steps run one after the other, each with the exit code and
    the output it asks for. *)
Inductive verified (id : str) (a : TemplateArtifact) : list VerificationStep -> W -> W -> Prop :=
| verified_nil w : verified id a [] w w
| verified_cons s ss r w w1 w2 :
    pv_run_command provider id (verification_command a s) w = (Ok r, w1) ->
    cr_exit_code r = vs_expected_exit_code s -> output_ok s r = true ->
    verified id a ss w1 w2 -> verified id a (s :: ss) w w2.

Lemma verify_steps_ok mismatch id a steps w w' :
  verify_steps provider mismatch id a steps w = Some (Ok tt, w') -> verified id a steps w w'.
Proof.
  revert w. induction steps as [|s ss IH]; intros w; cbn [verify_steps]; [intros [= <-]; constructor|].
  destruct (pv_run_command provider id (verification_command a s) w) as [[r|e] w1] eqn:E; [|done].
  destruct (cr_exit_code r =? vs_expected_exit_code s)%Z eqn:Ec; cbn [negb]; [|done].
  destruct (output_ok s r) eqn:Eo; [|by destruct (mismatch s r)].
  intros H. apply Z.eqb_eq in Ec. eapply verified_cons; eauto.
Qed.

(** An artifact with secrets is refused by all three materializers before
    anything of the host or the sandbox is touched. *)
Theorem secrets_refused (zip : bytes -> result DomainError bytes) (store cache id : str)
    (a : TemplateArtifact) (mode : MaterializationMode) (w : W) :
  as_contains_secrets (ta_security a) = true ->
  (exists m, podman_materialize provider store cache id a mode w = Some (Err (PermissionDenied m), w)) /\
  (exists m, universal_materialize provider store id a mode w = Some (Err (PermissionDenied m), w)) /\
  (exists m, zip_materialize provider zip store cache id a mode w = Some (Err (PermissionDenied m), w)).
Proof.
  intros E. unfold podman_materialize, universal_materialize, zip_materialize. rewrite E.
  split; [|split]; eexists; reflexivity.
Qed.

(** C23. What a successful materialization has done: the artifact carries no secrets,
    and every verification step of every capability ran in the sandbox, in
    order, after the copy, with the artifact's variables and the first entry of
    its path prefix, and passed.  The Podman materializer always reports a cache
    hit and a read-only mount. *)
Theorem materialized_means_verified (store cache id : str) (a : TemplateArtifact)
    (mode : MaterializationMode) (w w' : W) (r : MaterializationResult) :
  (podman_materialize provider store cache id a mode w = Some (Ok r, w') ->
   as_contains_secrets (ta_security a) = false /\
   (mode = MountReadonly \/ mode = ModeAuto \/ mode = Extract) /\
   mr_mode r = MountReadonly /\ mr_cache_hit r = true /\ mr_env_ref r = Some (materialized_ref a) /\
   exists host_dir hit w1 w2,
     ensure_host_cache store cache a w = Some (Ok (host_dir, hit), w1) /\
     copy_to_sandbox provider id host_dir (artifact_mount a) w1 = (Ok tt, w2) /\
     verified id a (all_steps a) w2 w') /\
  (universal_materialize provider store id a mode w = Some (Ok r, w') ->
   as_contains_secrets (ta_security a) = false /\ (mode = ModeAuto \/ mode = Extract) /\
   mr_mode r = Extract /\ store_is_cached store (ta_id a) (ta_digest a) w = Some (mr_cache_hit r) /\
   mr_env_ref r = Some (materialized_ref a) /\
   exists w1, extract_to provider store id a (artifact_mount a) w = Some (Ok tt, w1) /\
     verified id a (all_steps a) w1 w') /\
  (forall s, cs_env_vars (verification_command a s) =
     match es_path_prefix (ta_env a) with
     | p :: _ => <[lit "PATH" := p ++ lit ":$PATH"]> (es_env (ta_env a))
     | [] => es_env (ta_env a)
     end).
Proof.
  split; [|split].
  - unfold podman_materialize. destruct (as_contains_secrets (ta_security a)); [done|].
    destruct (ensure_host_cache store cache a w) as [[[[h hit]|e] w1]|] eqn:Ee.
    2,3: by destruct mode.
    destruct (copy_to_sandbox provider id h (artifact_mount a) w1) as [[[]|e] w2] eqn:Ec; [|by destruct mode].
    destruct (verify_steps provider podman_mismatch id a (all_steps a) w2) as [[[[]|e] w3]|] eqn:Ev.
    2,3: by destruct mode.
    apply verify_steps_ok in Ev.
    destruct mode; try done; intros [= <- <-]; (split; [done|]; split; [tauto|]; split; [done|]; split; [done|];
      split; [done|]; by eexists h, hit, w1, w2).
  - unfold universal_materialize. destruct (as_contains_secrets (ta_security a)); [done|].
    destruct (store_is_cached store (ta_id a) (ta_digest a) w) as [hit|] eqn:Ei; [|done].
    destruct (extract_to provider store id a (artifact_mount a) w) as [[[[]|e] w1]|] eqn:Ee.
    2,3: by destruct mode.
    destruct (verify_steps provider universal_mismatch id a (all_steps a) w1) as [[[[]|e] w3]|] eqn:Ev.
    2,3: by destruct mode.
    apply verify_steps_ok in Ev.
    destruct mode; try done; intros [= <- <-]; (split; [done|]; split; [tauto|]; split; [done|]; split; [done|];
      split; [done|]; by exists w1).
  - intros s. unfold verification_command. rewrite with_envs_env. cbn [CommandSpec_new cs_env_vars].
    rewrite map_union_empty. by destruct (es_path_prefix (ta_env a)).
Qed.
End MaterializerProperties.

(** A mismatching output whose byte 200 lies inside a character: quoting it
    panics. *)
Example universal_panics :
  universal_mismatch (mkVerification (lit "v") (lit "c") 0 (Some (lit "x")))
    (mkCommandResult 0 (utf8 (repeat 97%N 199 ++ [0xE9%N])) [] 0 false) = None.
Proof. vm_compute. reflexivity. Qed.

(** [sha256sum] prints the bare digest, so the check of a plan of the
    content-addressed store looks for a prefix that is not in its output. *)
Example checksum_never_found :
  str_contains (lit "abc123  /tools/mvn") (lit "sha256:" ++ lit "abc123") = false.
Proof. reflexivity. Qed.

(** ** A host in memory *)

Module MemHost.
#[local] Existing Instance Z_chrono.
#[local] Existing Instance some_order.
#[local] Existing Instance ascii_lowercase.

Abbreviation files := (gmap (list N) bytes).

#[export] Instance mem_host : HostFs files := {|
  path_exists := fun p m => match m !! p with Some _ => true | None => false end;
  host_read := fun p m => ok_or (m !! p) (lit "no such file");
  host_write := fun p c m => (Ok tt, <[p := c]> m);
  host_mkdirs := fun _ m => (Ok tt, m);
  host_remove := fun p m => delete p m;
  host_link := fun a b m =>
    match m !! a, m !! b with
    | Some c, None => (Ok tt, <[b := c]> m)
    | _, _ => (Err (lit "cannot link"), m)
    end;
  host_tar := fun _ m => (Ok (true, []), m)
|}.

#[export] Instance mem_host_laws : HostLaws files.
Proof.
  split; simpl.
  - intros p c m _. by rewrite lookup_insert_eq.
  - intros p q c m Hpq. by rewrite lookup_insert_ne.
  - done.
Qed.

(** A sandbox in which every command prints a version. *)
Definition mem_provider : @Provider Z_chrono files := {|
  pv_name := lit "podman";
  pv_capabilities := ProviderTypes.ProviderCapabilities_default;
  pv_create := fun _ _ _ _ _ _ => Demo.unsupported "create";
  pv_terminate := fun _ => Demo.unsupported "terminate";
  pv_is_alive := fun _ m => (Ok true, m);
  pv_run_command := fun _ _ m => (Ok (mkCommandResult 0 (utf8 (lit "openjdk 17")) [] 1 false), m);
  pv_run_command_stream := fun _ _ => Demo.unsupported "stream";
  pv_cancel_command := fun _ _ => Demo.unsupported "cancel";
  pv_write_file := fun _ p c m => (Ok tt, <[p := c]> m);
  pv_read_file := fun _ _ => Demo.unsupported "read";
  pv_list_files := fun _ _ => Demo.unsupported "list";
  pv_copy_to := fun _ _ _ m => (Ok tt, m);
  pv_create_snapshot := fun _ _ => Demo.unsupported "snapshots";
  pv_restore_snapshot := fun _ => Demo.unsupported "snapshots";
  pv_delete_snapshot := fun _ => Demo.unsupported "snapshots";
  pv_list_snapshots := Demo.unsupported "snapshots";
  pv_list_sandboxes := fun _ => Demo.unsupported "list"
|}.

Definition jvm (secrets : bool) : TemplateArtifact :=
  mkArtifact (lit "jvm-1") (lit "jvm") (lit "1") (lit "sha256:0123456789") RootfsTar
    [mkCapabilityDescriptor (lit "jvm-build") []
       [mkVerification (lit "java") (lit "java -version") 0 (Some (lit "OpenJDK"))]]
    (mkEnvSpec ∅ [lit "/opt/jvm/bin"])
    (mkSecurity None None None None false [] [] secrets) ∅.

Definition stocked : files :=
  match store_store (lit "/store") (lit "jvm-1") (lit "sha256:0123456789") [1%N; 2%N] (∅ : files) with
  | Some (_, m) => m
  | None => ∅
  end.

Lemma store_roundtrip_witness :
  store_fetch (lit "/store") (lit "jvm-1") (lit "sha256:012345678X") stocked = Some (Ok [1%N; 2%N]).
Proof.
  destruct (store_roundtrip (lit "/store") (lit "jvm-1") (lit "sha256:0123456789") [1%N; 2%N] (∅ : files)
    stocked (lit "jvm-1") (lit "sha256:012345678X")) as (_ & _ & E).
  - vm_compute. reflexivity.
  - rewrite E. vm_compute. reflexivity.
Defined.

Lemma secrets_refused_witness :
  exists m, podman_materialize mem_provider (lit "/store") (lit "/cache") (lit "s1") (jvm true) ModeAuto stocked =
    Some (Err (PermissionDenied m), stocked).
Proof.
  exact (proj1 (secrets_refused mem_provider (fun b => Ok b) (lit "/store") (lit "/cache") (lit "s1")
    (jvm true) ModeAuto stocked eq_refl)).
Defined.

Definition podman_run : result DomainError MaterializationResult * files :=
  default (Err (Internal []), ∅)
    (podman_materialize mem_provider (lit "/store") (lit "/cache") (lit "s1") (jvm false) ModeAuto stocked).

Definition podman_answer : MaterializationResult :=
  mkMaterialized (lit "s1") (lit "jvm-1") MountReadonly true (lit "/opt/bastion/artifacts/sha256:0123456789")
    (Some (lit "materialized:jvm:sha256:0123456789")).

Lemma materialized_means_verified_witness :
  exists m, verified mem_provider (lit "s1") (jvm false) (all_steps (jvm false)) m (snd podman_run).
Proof.
  destruct (materialized_means_verified mem_provider (lit "/store") (lit "/cache") (lit "s1") (jvm false)
    ModeAuto stocked (snd podman_run) podman_answer) as (H & _ & _).
  destruct H as (_ & _ & _ & _ & _ & h & hit & w1 & w2 & _ & _ & Hv).
  - vm_compute. reflexivity.
  - by exists w2.
Defined.
(** The content-addressed store provisions a tool once: the second plan for it
    fails, because the link is there already. *)
Example ca_plan_once :
  let tool : files := {[lit "/ca/h1" := [7%N]]} in
  let req := mkRequest (lit "s1") (lit "mvn") {[lit "tool_hash" := lit "h1"]} ContentAddressed in
  let plan := ca_plan (fun _ => lit "abc123") (lit "/ca") (lit "/tools") req in
  let '(first, m) := plan tool in
  is_ok first = true /\ fst (plan m) = Err (Internal (lit "Failed to create hardlink: cannot link")).
Proof. vm_compute. split; reflexivity. Qed.
End MemHost.
