(* ===== verification/Container.v ===== *)
(** * The container providers

    Models [bastion-infrastructure/src/provider/podman.rs], of which [docker.rs]
    is a copy up to a capability and the cancellation, and the snapshots they
    share ([template/snapshot_ops.rs]).  The Docker API client (bollard), the
    packing of a host directory, the clock and the generation of names are the
    class [Docker] over the external world; its errors are their texts.  The
    methods that go through a worker are in [Session]. *)

From S2P Require Import Prelude Utf8 Sandbox Command SandboxRepo ProviderTypes Normalizer UseCases Toolchain.

(** ** The Docker API *)

Record ContainerConfig := mkContainerConfig {
  cfg_image : str; cfg_cmd : list str; cfg_env : list str; cfg_binds : list str;
  cfg_extra_hosts : list str
}.

(** [state] with its status and running flag, and the image of the
    configuration. *)
Record ContainerInfo := mkInfo {
  in_state : option (option str * option bool); in_image : option str
}.

Record ContainerSummary := mkSummary {
  cs_names : option (list str); cs_id : option str; cs_image : option str; cs_state : option str
}.

Record ImageSummary := mkImage { im_repo_tags : list str; im_size : Z }.

Inductive ImageError := ImageMissing (e : str) | ImageFailed (e : str).
Definition image_error (e : ImageError) : str := match e with ImageMissing e | ImageFailed e => e end.

Inductive Signal := SIGTERM | SIGKILL.

Class Docker `{CH : Chrono} (W : Type) := {
  dk_now : W -> DateTime;
  dk_timestamp : DateTime -> Z;
  dk_uuid : W -> str * W;
  dk_sleep : Z -> W -> W;
  dk_canonicalize : str -> W -> str;
  dk_create_container : str -> ContainerConfig -> W -> result str unit * W;
  dk_start_container : str -> W -> result str unit * W;
  dk_stop_container : str -> W -> result str unit * W;
  dk_remove_container : str -> W -> result str unit * W;
  dk_inspect_container : str -> W -> result str ContainerInfo;
  dk_list_containers : W -> result str (list ContainerSummary);
  dk_kill_container : str -> Signal -> W -> result str unit * W;
  dk_create_exec : str -> list str -> W -> result str str * W;
  dk_start_exec : str -> W -> result str unit * W;
  dk_tar_dir : str -> W -> result str bytes;
  dk_upload : str -> str -> bytes -> W -> result str unit * W;
  dk_commit : str -> str -> W -> result str unit * W;
  dk_inspect_image : str -> W -> result ImageError unit;
  dk_remove_image : str -> W -> result str unit * W;
  dk_list_images : W -> result str (list ImageSummary)
}.

(** The containers of the host and whether they run, and what the operations do
    to them. *)
Class DockerLaws `{CH : Chrono} (W : Type) `{DK : !@Docker CH W} := {
  containers : W -> gmap str bool;
  law_uuid : forall w, containers (snd (dk_uuid w)) = containers w;
  law_create : forall n c w, containers (snd (dk_create_container n c w)) =
    if is_ok (fst (dk_create_container n c w)) then <[n := false]> (containers w) else containers w;
  law_start : forall n w, containers (snd (dk_start_container n w)) =
    if is_ok (fst (dk_start_container n w)) then <[n := true]> (containers w) else containers w;
  law_stop_keeps : forall n m w, n <> m ->
    containers (snd (dk_stop_container n w)) !! m = containers w !! m;
  law_remove : forall n w, is_ok (fst (dk_remove_container n w)) = true ->
    containers (snd (dk_remove_container n w)) = delete n (containers w);
  law_create_exec : forall n c w, containers (snd (dk_create_exec n c w)) = containers w;
  law_start_exec : forall e w, containers (snd (dk_start_exec e w)) = containers w;
  law_kill : forall n w, is_ok (fst (dk_kill_container n SIGKILL w)) = true ->
    containers (snd (dk_kill_container n SIGKILL w)) = <[n := false]> (containers w);
  law_inspect : forall n w info, dk_inspect_container n w = Ok info ->
    exists status, in_state info = Some (status, containers w !! n) /\ is_Some (containers w !! n)
}.

(** ** The provider *)

Record ContainerProvider := mkContainerProvider {
  cp_default_image : str; cp_worker_binary : str; cp_source_mount : option str
}.

Definition with_source_mount (path : str) (p : ContainerProvider) : ContainerProvider :=
  mkContainerProvider (cp_default_image p) (cp_worker_binary p) (Some path).

Section Provider.
Context `{CH : Chrono} {W : Type} `{DK : !@Docker CH W} `{ORDER : HashOrder}.
Variable provider : ContainerProvider.

Definition internal (what e : str) : DomainError := Internal (what ++ e).

(** A call of the API whose error is reported as internal. *)
Definition docker_call {A} (what : string) (r : result str A * W) : result DomainError A * W :=
  (map_err (internal (lit what)) (fst r), snd r).

Definition worker_command (sandbox_id secret : str) : list str :=
  [lit "/usr/local/bin/bastion-worker"; lit "--gateway-addr";
   lit "http://host.containers.internal:50052"; lit "--sandbox-id"; sandbox_id; lit "--secret"; secret;
   lit "--workdir"; lit "/workspace"].

Definition start_worker_in_container (container sandbox_id secret : str) (w : W) :
    result DomainError unit * W :=
  let? (exec, w) := docker_call "Failed to create exec for worker: "
    (dk_create_exec container (worker_command sandbox_id secret) w) in
  docker_call "Failed to start worker: " (dk_start_exec exec w).

Definition binds (w : W) : list str :=
  (dk_canonicalize (cp_worker_binary provider) w ++ lit ":/usr/local/bin/bastion-worker:ro") ::
  match cp_source_mount provider with
  | Some p => [dk_canonicalize p w ++ lit ":/workspace/code:ro"]
  | None => []
  end.

Definition container_config (template : str) (env_vars : gmap str str) (w : W) : ContainerConfig :=
  mkContainerConfig (match template with [] => cp_default_image provider | _ => template end)
    [lit "sleep"; lit "infinity"]
    (map (fun '(k, v) => k ++ lit "=" ++ v) (hash_iter _ env_vars))
    (binds w) [lit "host.containers.internal:host-gateway"].

(** The entity of a started container; [None] is the panic of the addition of
    the timeout. *)
Definition new_entity (id template : str) (resources : ResourcesSpec) (network : NetworkSpec)
    (timeout_ms : Z) (w : W) : option (result DomainError Sandbox) :=
  match set_timeout timeout_ms
          (Sandbox_new id template (lit "podman") None resources network (dk_now w)) with
  | Some sb =>
      let '(r, sb) := mark_running sb in
      Some (match r with Ok _ => Ok sb | Err e => Err e end)
  | None => None
  end.

(** The limits of the resources and the rules of the network are not passed on. *)
Definition container_create (id template : str) (resources : ResourcesSpec) (network : NetworkSpec)
    (env_vars : gmap str str) (timeout_ms : Z) (w : W) : option (result DomainError Sandbox * W) :=
  let '(uuid, w) := dk_uuid w in
  let secret := lit "secret-" ++ uuid in
  let started :=
    let? (_c, w) := docker_call "Failed to create container: "
      (dk_create_container id (container_config template env_vars w) w) in
    let? (_s, w) := docker_call "Failed to start container: " (dk_start_container id w) in
    start_worker_in_container id id secret w in
  match started with
  | (Err e, w) => Some (Err e, w)
  | (Ok _, w) => option_map (fun r => (r, w)) (new_entity id template resources network timeout_ms w)
  end.

Definition container_terminate (id : str) (w : W) : result DomainError unit * W :=
  let w := snd (dk_stop_container id w) in
  docker_call "Failed to remove container: " (dk_remove_container id w).

Definition not_found_text (e : str) : bool :=
  str_contains e (lit "404") || str_contains e (lit "No such container").

Definition container_is_alive (id : str) (w : W) : result DomainError bool :=
  match dk_inspect_container id w with
  | Ok info =>
      Ok (match in_state info with Some (_, Some running) => running | _ => false end)
  | Err e =>
      if not_found_text e then Ok false else Err (internal (lit "Failed to inspect container: ") e)
  end.

Definition podman_capabilities : result ValidationError ProviderCapabilities :=
  try_new false true false 86400000 16384 16 true false 1500.
Definition docker_capabilities : result ValidationError ProviderCapabilities :=
  try_new true true false 86400000 16384 16 true false 1500.

(** [name] of both providers. *)
Definition container_name : str := lit "podman".

Definition listed_status (state : option str) : option SandboxStatus :=
  match state with
  | Some s =>
      if str_eqb s (lit "running") then Some Running
      else if str_eqb s (lit "exited") || str_eqb s (lit "dead") then Some Stopped
      else if str_eqb s (lit "paused") then Some Paused
      else if str_eqb s (lit "created") then Some Pending
      else None
  | None => None
  end.

Definition listed_id (c : ContainerSummary) : str :=
  match cs_names c with
  | Some (name :: _) =>
      match strip_prefix [chr "/"] name with
      | Some s => s
      | None => default [] (cs_id c)
      end
  | _ => default [] (cs_id c)
  end.

(** One turn of the loop of [list_sandboxes]. *)
Definition listed (filter : SandboxFilter) (now : DateTime) (c : ContainerSummary) : option Sandbox :=
  match listed_status (cs_state c) with
  | None => None
  | Some status =>
      if match f_status filter with Some s => negb (bool_decide (status = s)) | None => false end then None
      else Some (Sandbox_new (listed_id c) (default [] (cs_image c)) (lit "podman") None
             ResourcesSpec_default NetworkSpec_default now)
  end.

Definition container_list_sandboxes (filter : SandboxFilter) (w : W) : result DomainError (list Sandbox) :=
  match dk_list_containers w with
  | Err e => Err (internal (lit "Failed to list containers: ") e)
  | Ok cs =>
      let limit := Z.to_nat (default u32_max (f_limit filter)) in
      Ok (omap (listed filter (dk_now w)) (take limit cs))
  end.

Definition info_status (status : option str) : SandboxStatus :=
  match status with
  | Some s =>
      if str_eqb s (lit "running") then Running
      else if str_eqb s (lit "exited") || str_eqb s (lit "dead") then Stopped
      else if str_eqb s (lit "paused") then Paused
      else if str_eqb s (lit "created") || str_eqb s (lit "restarting") then Pending
      else Failed
  | None => Failed
  end.

Definition inspect_error (id e : str) : DomainError :=
  if not_found_text e then NotFound id else internal (lit "Failed to inspect container: ") e.

Definition container_get_info (id : str) (w : W) : result DomainError Sandbox :=
  match dk_inspect_container id w with
  | Err e => Err (inspect_error id e)
  | Ok info =>
      match in_state info with
      | None => Err (Internal (lit "Container has no state"))
      | Some (state_status, _) =>
          let status := info_status state_status in
          let sandbox := Sandbox_new id (default [] (in_image info)) (lit "podman") None
            ResourcesSpec_default NetworkSpec_default (dk_now w) in
          match status with
          | Running =>
              let '(r, sandbox) := mark_running sandbox in
              match r with Ok _ => Ok sandbox | Err e => Err e end
          | Stopped => Ok (snd (terminate sandbox))
          | Failed => Ok (mark_failed sandbox)
          | _ => Ok sandbox
          end
      end
  end.

Definition container_set_timeout (id : str) (_timeout_ms : Z) (w : W) : result DomainError unit :=
  match dk_inspect_container id w with
  | Err e => Err (inspect_error id e)
  | Ok _ => Ok tt
  end.

Definition container_copy_to (id host_dir target : str) (w : W) : result DomainError unit * W :=
  match dk_tar_dir host_dir w with
  | Err e => (Err (internal (lit "Failed to create tar: ") e), w)
  | Ok tar_bytes => docker_call "Failed to copy files to container: " (dk_upload id target tar_bytes w)
  end.

(** Podman only; Docker keeps the refusal of the port. *)
Definition podman_cancel_command (id : str) (grace_period_ms : Z) (w : W) : result DomainError bool * W :=
  match dk_kill_container id SIGTERM w with
  | (Err _, w) => (Ok false, w)
  | (Ok _, w) =>
      let w := dk_sleep grace_period_ms w in
      match container_is_alive id w with
      | Ok true =>
          let? (_k, w) := docker_call "Failed to SIGKILL container: " (dk_kill_container id SIGKILL w) in
          (Ok true, w)
      | Ok false => (Ok true, w)
      | Err _ => (Ok true, w)
      end
  end.
End Provider.

(** ** Snapshots *)

Definition SNAPSHOT_PREFIX : str := lit "bastion-snap-".
Definition SNAPSHOT_TAG : str := lit "latest".

Definition image_tag (name : str) : str := SNAPSHOT_PREFIX ++ dashed name ++ chr ":" :: SNAPSHOT_TAG.

(** [str::rsplit_once] of a character. *)
Definition rsplit_once (sep : char) (s : str) : option (str * str) :=
  match span (fun c => negb (c =? sep)%N) (rev s) with
  | (_, []) => None
  | (after, _ :: before) => Some (rev before, rev after)
  end.

(** [repo_tag.rsplit('/').next().unwrap_or(repo_tag)]. *)
Definition last_segment (s : str) : str :=
  match rsplit_once (chr "/") s with Some (_, b) => b | None => s end.

Definition snapshot_name_from_id (snapshot_id : str) : str :=
  let id := default snapshot_id (strip_prefix (lit "snap:") snapshot_id) in
  match rsplit_once (chr "-") id with
  | Some (name, suffix) =>
      if forallb is_ascii_digit suffix && (10 <=? str_len suffix)%N then name else id
  | None => id
  end.

Definition is_snapshot_image (repo_tag : str) : bool := starts_with SNAPSHOT_PREFIX (last_segment repo_tag).

(** [trim_end_matches]: the suffix is removed as often as it is there; each time
    the text gets shorter. *)
Fixpoint trim_end_matches (fuel : nat) (suf s : str) : str :=
  match fuel with
  | O => s
  | S f => if ends_with suf s then trim_end_matches f suf (take (length s - length suf) s) else s
  end.

Definition parse_snapshot_name (repo_tag : str) : option str :=
  option_map (trim_end_matches (length repo_tag) (chr ":" :: SNAPSHOT_TAG))
    (strip_prefix SNAPSHOT_PREFIX (last_segment repo_tag)).

Definition snapshot_id (name : str) (timestamp : Z) : str :=
  lit "snap:" ++ dashed name ++ lit "-" ++ show_Z timestamp.

Section Snapshots.
Context `{CH : Chrono} {W : Type} `{ENV : !Environment W} `{DK : !@Docker CH W}.

Definition create_snapshot (container name : str) (w : W) : result DomainError SnapshotInfo * W :=
  let? (_c, w) := docker_call "Failed to commit snapshot: " (dk_commit container (image_tag name) w) in
  let now := dk_now w in
  (Ok (mkSnapshotInfo (snapshot_id name (dk_timestamp now)) [] name now 0), w).

Definition snapshot_exists (name : str) (w : W) : result DomainError bool :=
  match dk_inspect_image (image_tag name) w with
  | Ok _ => Ok true
  | Err (ImageMissing _) => Ok false
  | Err (ImageFailed e) => Err (internal (lit "Failed to inspect snapshot image: ") e)
  end.

Definition restore_config (tag : str) : ContainerConfig :=
  mkContainerConfig tag [lit "sleep"; lit "infinity"] [] [] [].

Definition restore_snapshot (snapshot_id : str) (w : W) : result DomainError Sandbox * W :=
  let tag := image_tag (snapshot_name_from_id snapshot_id) in
  match dk_inspect_image tag w with
  | Err e =>
      (Err (NotFound (lit "Snapshot image '" ++ tag ++ lit "' not found: " ++ image_error e)), w)
  | Ok _ =>
      let '(new_id, w) := generate_id w in
      let? (_c, w) := docker_call "Failed to create container from snapshot: "
        (dk_create_container new_id (restore_config tag) w) in
      let? (_s, w) := docker_call "Failed to start snapshot container: " (dk_start_container new_id w) in
      let '(r, sandbox) := mark_running
        (Sandbox_new new_id (lit "podman-snapshot") (lit "podman") None ResourcesSpec_default
           NetworkSpec_default (dk_now w)) in
      (match r with Ok _ => Ok sandbox | Err e => Err e end, w)
  end.

Definition delete_snapshot (snapshot_id : str) (w : W) : result DomainError unit * W :=
  docker_call "Failed to delete snapshot image: "
    (dk_remove_image (image_tag (snapshot_name_from_id snapshot_id)) w).

Definition listed_snapshots (now : DateTime) (image : ImageSummary) : list SnapshotInfo :=
  omap (fun repo_tag =>
    if is_snapshot_image repo_tag then
      option_map (fun name => mkSnapshotInfo (lit "snap:" ++ name) [] name now (as_u64 (im_size image)))
        (parse_snapshot_name repo_tag)
    else None) (im_repo_tags image).

Definition list_snapshots (w : W) : result DomainError (list SnapshotInfo) :=
  match dk_list_images w with
  | Err e => Err (internal (lit "Failed to list images: ") e)
  | Ok images => Ok (flat_map (listed_snapshots (dk_now w)) images)
  end.
End Snapshots.

(** ** Properties of snapshot names *)

Lemma rsplit_once_app (sep : N) (a b : str) : sep ∉ b -> rsplit_once sep (a ++ sep :: b) = Some (a, b).
Proof.
  intros Hb. unfold rsplit_once. rewrite rev_app_distr. cbn [rev]. rewrite <- app_assoc. cbn [app].
  rewrite span_block.
  - by rewrite !rev_involutive.
  - apply Forall_forall. intros c Hc. apply negb_true_iff, N.eqb_neq. intros ->.
    apply Hb. by apply list_elem_of_In, in_rev, list_elem_of_In.
  - by rewrite N.eqb_refl.
Qed.

Lemma rsplit_once_none (sep : N) (s : str) : sep ∉ s -> rsplit_once sep s = None.
Proof.
  intros Hs. unfold rsplit_once. rewrite <- (app_nil_r (rev s)), span_block; [done| |done].
  apply Forall_forall. intros c Hc. apply negb_true_iff, N.eqb_neq. intros ->.
  apply Hs. by apply list_elem_of_In, in_rev, list_elem_of_In.
Qed.

Lemma dashed_no_slash (s : str) : chr "/" ∉ dashed s.
Proof.
  unfold dashed, replace_char. intros H. apply list_elem_of_In, in_flat_map in H as (c & _ & Hc).
  destruct (c =? chr "/")%N eqn:E; simpl in Hc; destruct Hc as [Hc|[]].
  - done.
  - subst. by rewrite N.eqb_refl in E.
Qed.

Lemma read_digits_bound (s : str) (acc v : Z) :
  (0 <= acc)%Z -> read_digits acc s = Some v -> (v < (acc + 1) * 10 ^ Z.of_nat (length s))%Z.
Proof.
  revert acc. induction s as [|c s IH]; intros acc Ha; cbn [read_digits length].
  - intros [= <-]. lia.
  - destruct (is_ascii_digit c) eqn:E; [|done]. unfold is_ascii_digit, in_range in E. bools.
    intros Hv. apply IH in Hv; [|lia]. rewrite Nat2Z.inj_succ, Z.pow_succ_r by lia.
    assert ((acc * 10 + Z.of_N (c - 48) + 1) * 10 ^ Z.of_nat (length s) <=
      (acc + 1) * 10 * 10 ^ Z.of_nat (length s))%Z; [|lia].
    apply Z.mul_le_mono_nonneg_r; lia.
Qed.

Lemma show_timestamp (t : Z) :
  (10 ^ 9 <= t)%Z ->
  Forall (fun c => is_ascii_digit c = true) (show_Z t) /\ (10 <= str_len (show_Z t))%N.
Proof.
  intros Ht. destruct t as [|p|p]; [lia| |lia]. cbn [show_Z]. pose proof (show_N_digits (Npos p)) as Hd.
  split; [done|]. rewrite str_len_digits by done.
  pose proof (read_digits_bound _ 0 _ ltac:(lia) (show_N_read (Npos p))) as Hb.
  destruct (Nat.lt_ge_cases (length (show_N (Npos p))) 10) as [Hl|]; [|lia].
  assert (10 ^ Z.of_nat (length (show_N (Npos p))) <= 10 ^ 9)%Z by (apply Z.pow_le_mono_r; lia).
  change (Z.of_N (Npos p)) with (Zpos p) in Hb. lia.
Qed.

Lemma dashed_id (s : str) : chr "/" ∉ s -> dashed s = s.
Proof.
  unfold dashed, replace_char. induction s as [|c s IH]; intros Hs; [done|].
  apply not_elem_of_cons in Hs as [Hc Hs]. cbn [flat_map]. rewrite IH by done.
  rewrite (proj2 (N.eqb_neq c (chr "/"))) by congruence. done.
Qed.

Lemma digits_no_dash (s : str) : Forall (fun c => is_ascii_digit c = true) s -> chr "-" ∉ s.
Proof. intros Hs Hin. rewrite Forall_forall in Hs. by specialize (Hs _ Hin). Qed.

Lemma strip_prefix_app (pre s : str) : strip_prefix pre (pre ++ s) = Some s.
Proof. unfold strip_prefix. by rewrite starts_with_app, drop_app_length. Qed.

(** A name that ends like an identifier: in a dash and ten or more digits. *)
Definition dated (s : str) : bool :=
  match rsplit_once (chr "-") s with
  | Some (_, suffix) => forallb is_ascii_digit suffix && (10 <=? str_len suffix)%N
  | None => false
  end.

(** C36. Names of snapshots: the identifier given out at creation, at any time from
    2001 on, leads back to the image of its name, and the image's tag is
    recognized and gives the name, up to slashes, unless the name ends in the
    tag.  The identifier given out by the listing leads back to the name exactly
    when the name does not itself end in a dash and ten digits. *)
Theorem snapshot_roundtrip (name : str) (t : Z) :
  (10 ^ 9 <= t)%Z -> ends_with (chr ":" :: SNAPSHOT_TAG) (dashed name) = false ->
  snapshot_name_from_id (snapshot_id name t) = dashed name /\
  image_tag (snapshot_name_from_id (snapshot_id name t)) = image_tag name /\
  is_snapshot_image (image_tag name) = true /\
  parse_snapshot_name (image_tag name) = Some (dashed name) /\
  (snapshot_name_from_id (lit "snap:" ++ dashed name) = dashed name <-> dated (dashed name) = false).
Proof.
  intros Ht He. destruct (show_timestamp t Ht) as [Hd Hl].
  assert (E1 : snapshot_name_from_id (snapshot_id name t) = dashed name).
  { unfold snapshot_name_from_id, snapshot_id. rewrite strip_prefix_app. cbn [from_option Datatypes.id].
    change (lit "-" ++ show_Z t) with (chr "-" :: show_Z t).
    rewrite rsplit_once_app by by apply digits_no_dash.
    rewrite (proj2 (forallb_forall _ _)), (proj2 (N.leb_le _ _)) by (done || (intros c Hc;
      rewrite Forall_forall in Hd; by apply Hd, list_elem_of_In)). done. }
  split; [done|]. split.
  { rewrite E1. unfold image_tag. by rewrite (dashed_id (dashed name) (dashed_no_slash name)). }
  assert (E2 : last_segment (image_tag name) = image_tag name).
  { unfold last_segment. rewrite rsplit_once_none; [done|]. unfold image_tag. intros Hin.
    apply elem_of_app in Hin as [Hin|Hin]; [by vm_compute in Hin; repeat (apply elem_of_cons in Hin as [Hin|Hin]; [done|]); apply elem_of_nil in Hin|].
    apply elem_of_app in Hin as [Hin|Hin]; [by apply dashed_no_slash in Hin|].
    vm_compute in Hin. repeat (apply elem_of_cons in Hin as [Hin|Hin]; [done|]). by apply elem_of_nil in Hin. }
  split; [unfold is_snapshot_image; rewrite E2; apply starts_with_app|]. split.
  - unfold parse_snapshot_name. rewrite E2. unfold image_tag at 2. rewrite strip_prefix_app. cbn [option_map].
    f_equal. destruct (length (image_tag name)) as [|[|n]] eqn:El; [by vm_compute in El..|].
    cbn [trim_end_matches].
    assert (Hx : ends_with (chr ":" :: SNAPSHOT_TAG) (dashed name ++ chr ":" :: SNAPSHOT_TAG) = true).
    { unfold ends_with. rewrite rev_app_distr. apply starts_with_app. }
    rewrite Hx, length_app, Nat.add_sub, take_app_length, He. done.
  - unfold snapshot_name_from_id, dated. rewrite strip_prefix_app. cbn [from_option Datatypes.id].
    destruct (rsplit_once (chr "-") (dashed name)) as [[a b]|] eqn:Er; [|done].
    destruct (forallb is_ascii_digit b && (10 <=? str_len b)%N); [|done]. split; [|done].
    intros ->. exfalso. unfold rsplit_once in Er.
    destruct (span _ (rev (dashed name))) as [x [|c y]] eqn:Es; [done|]. injection Er as E _.
    pose proof (span_app (fun c => negb (c =? chr "-")%N) (rev (dashed name))) as Ha. rewrite Es in Ha.
    apply (f_equal length) in Ha. cbn [fst snd] in Ha. apply (f_equal length) in E.
    rewrite length_app, length_rev in *. cbn [length] in Ha. lia.
Qed.

Lemma snapshot_roundtrip_witness :
  snapshot_name_from_id (snapshot_id (lit "team/build") 1712345678) = lit "team-build".
Proof. apply (snapshot_roundtrip (lit "team/build") 1712345678); reflexivity || lia. Defined.

(** Deleting by the listed identifier of one snapshot names another. *)
Example listed_id_names_another :
  snapshot_name_from_id (lit "snap:" ++ lit "build-1712345678") = lit "build".
Proof. reflexivity. Qed.

(** ** Properties of the provider *)

Section ProviderProperties.
Context `{CH : Chrono} {W : Type} `{DK : !@Docker CH W} `{LAWS : !@DockerLaws CH W DK} `{ORDER : HashOrder}.
Variable provider : ContainerProvider.

Lemma docker_call_fst {A} what (r : result str A * W) : is_ok (fst (docker_call what r)) = is_ok (fst r).
Proof. by destruct r as [[a|e] w]. Qed.

Lemma worker_keeps_containers c id secret w :
  containers (snd (start_worker_in_container c id secret w)) = containers w.
Proof.
  unfold start_worker_in_container, docker_call.
  pose proof (law_create_exec c (worker_command id secret) w) as H1.
  destruct (dk_create_exec c (worker_command id secret) w) as [[e|e] w1]; cbn in *; [|done].
  pose proof (law_start_exec e w1) as H2. destruct (dk_start_exec e w1) as [[r|r] w2]; cbn in *; congruence.
Qed.

(** Creating a sandbox, on every branch: a success answers with a running
    entity of the identifier and the template, for the provider [podman], whose
    container runs.  A failure leaves the host as it was only if the container
    was not created; if it did not start it stays there stopped, and if its
    worker could not be started it stays there running, and nobody knows it.
    The only panic is a timeout that no date can hold. *)
Theorem container_create_spec (id template : str) (res : ResourcesSpec) (net : NetworkSpec)
    (env_vars : gmap str str) (timeout_ms : Z) (w : W) :
  let w1 := snd (dk_uuid w) in
  let c := dk_create_container id (container_config provider template env_vars w1) w1 in
  let s := dk_start_container id (snd c) in
  match container_create provider id template res net env_vars timeout_ms w with
  | None => exists now, add_millis now (as_i64 timeout_ms) = None
  | Some (Ok sb, w') =>
      status sb = Running /\ sb_id sb = id /\ template_id sb = template /\
      provider_id sb = lit "podman" /\ resources sb = res /\ network sb = net /\
      containers w' = <[id := true]> (containers w)
  | Some (Err e, w') =>
      containers w' =
        (if is_ok (fst c) then <[id := is_ok (fst s)]> (containers w) else containers w)
  end.
Proof.
  cbv zeta. unfold container_create. pose proof (law_uuid w) as Hu. destruct (dk_uuid w) as [uuid w1].
  cbn [fst snd] in *. unfold docker_call at 1 2.
  pose proof (law_create id (container_config provider template env_vars w1) w1) as Hc.
  destruct (dk_create_container id _ w1) as [[[]|e] w2]; cbn [fst snd map_err and_then is_ok] in *; [|congruence].
  pose proof (law_start id w2) as Hs.
  destruct (dk_start_container id w2) as [[[]|e] w3]; cbn [fst snd map_err and_then is_ok] in *; [|congruence].
  pose proof (worker_keeps_containers id id (lit "secret-" ++ uuid) w3) as Hw.
  assert (Hall : containers w3 = <[id := true]> (containers w)) by (rewrite Hs, Hc, Hu; apply insert_insert_eq).
  destruct (start_worker_in_container id id (lit "secret-" ++ uuid) w3) as [[[]|e] w4]; cbn [fst snd] in *;
    [|congruence].
  unfold new_entity, set_timeout. cbn [created_at Sandbox_new].
  destruct (add_millis (dk_now w4) (as_i64 timeout_ms)) as [d|] eqn:Ea; [|by exists (dk_now w4)].
  cbn -[lit]. split; [done|]. do 5 (split; [done|]). congruence.
Qed.

(** Cancelling the command of a sandbox ends the sandbox: whenever the provider
    reports the command as cancelled and can tell afterwards whether the
    container runs, it does not run any more. *)
Theorem cancel_ends_sandbox (id : str) (grace_period_ms : Z) (w w' : W) :
  podman_cancel_command id grace_period_ms w = (Ok true, w') ->
  is_ok (container_is_alive id (dk_sleep grace_period_ms (snd (dk_kill_container id SIGTERM w)))) = true ->
  forall info status, dk_inspect_container id w' = Ok info -> in_state info = Some (status, Some true) -> False.
Proof.
  unfold podman_cancel_command. destruct (dk_kill_container id SIGTERM w) as [[[]|e] w1]; [|done]. cbn [snd].
  set (w2 := dk_sleep grace_period_ms w1).
  destruct (container_is_alive id w2) as [[]|e] eqn:Ea; [| |done].
  - unfold docker_call. pose proof (law_kill id w2) as Hk.
    destruct (dk_kill_container id SIGKILL w2) as [[[]|e] w3]; cbn [fst snd map_err and_then is_ok] in *; [|done].
    intros [= <-] _ info status Hi Hs. apply law_inspect in Hi as (st' & E & _).
    rewrite E, Hk in Hs by done. by rewrite lookup_insert_eq in Hs.
  - intros [= <-] _ info status Hi Hs. unfold container_is_alive in Ea. rewrite Hi, Hs in Ea. done.
Qed.

(** What a listing says: one entry for each of the first [limit] containers
    whose state is known and is the one asked for, under the name without its
    slash; but whatever the state, the entry is pending, of the provider
    [podman], and without its resources. *)
Theorem container_list_spec (filter : SandboxFilter) (w : W) (l : list Sandbox) (cs : list ContainerSummary) :
  dk_list_containers w = Ok cs ->
  container_list_sandboxes filter w = Ok l ->
  let shown := take (Z.to_nat (default u32_max (f_limit filter))) cs in
  map sb_id l = map listed_id (List.filter (fun c =>
    match listed_status (cs_state c), f_status filter with
    | Some s, Some s' => bool_decide (s = s')
    | Some _, None => true
    | None, _ => false
    end) shown) /\
  Forall (fun sb => status sb = Pending /\ provider_id sb = lit "podman" /\
                    resources sb = ResourcesSpec_default) l.
Proof.
  intros Hl. unfold container_list_sandboxes. rewrite Hl. intros [= <-]. cbv zeta.
  induction (take _ cs) as [|c cs' IH]; [by split|]. destruct IH as [E F].
  change (omap ?f (c :: cs')) with (match f c with Some y => y :: omap f cs' | None => omap f cs' end).
  cbn [List.filter].
  assert (Hc : listed filter (dk_now w) c =
    if match listed_status (cs_state c), f_status filter with
       | Some s, Some s' => bool_decide (s = s') | Some _, None => true | None, _ => false end
    then Some (Sandbox_new (listed_id c) (default [] (cs_image c)) (lit "podman") None ResourcesSpec_default
           NetworkSpec_default (dk_now w))
    else None).
  { unfold listed. destruct (listed_status (cs_state c)), (f_status filter); try done. by case_bool_decide. }
  rewrite Hc. case_match; [|by split]. split; [cbn [map]; by f_equal|by constructor].
Qed.
End ProviderProperties.

(** ** A container host in memory

    [wh_exec] says whether processes can be started in containers. *)
Module MemDocker.
#[local] Existing Instance Z_chrono.
#[local] Existing Instance some_order.

Record host := mkHost { wh_containers : gmap str bool; wh_exec : bool; wh_images : list str; wh_next : N }.
Definition set_containers (m : gmap str bool) (h : host) : host :=
  mkHost m (wh_exec h) (wh_images h) (wh_next h).

Definition on_container (n : str) (f : gmap str bool -> gmap str bool) (h : host) : result str unit * host :=
  match wh_containers h !! n with
  | Some _ => (Ok tt, set_containers (f (wh_containers h)) h)
  | None => (Err (lit "404 No such container"), h)
  end.

#[export] Instance mem_docker : Docker host := {|
  dk_now := fun _ => 0%Z;
  dk_timestamp := fun _ => 1712345678%Z;
  dk_uuid := fun h =>
    (show_N (wh_next h), mkHost (wh_containers h) (wh_exec h) (wh_images h) (wh_next h + 1));
  dk_sleep := fun _ h => h;
  dk_canonicalize := fun p _ => p;
  dk_create_container := fun n _ h => (Ok tt, set_containers (<[n := false]> (wh_containers h)) h);
  dk_start_container := fun n h => on_container n (fun m => <[n := true]> m) h;
  dk_stop_container := fun n h => on_container n (fun m => <[n := false]> m) h;
  dk_remove_container := fun n h => on_container n (fun m => delete n m) h;
  dk_inspect_container := fun n h =>
    match wh_containers h !! n with
    | Some b => Ok (mkInfo (Some (None, Some b)) None)
    | None => Err (lit "404 No such container")
    end;
  dk_list_containers := fun h =>
    Ok (map (fun '((n, b) : str * bool) => mkSummary (Some [chr "/" :: n]) None (Some (lit "rust"))
              (Some (if b then lit "running" else lit "exited"))) (map_to_list (wh_containers h)));
  dk_kill_container := fun n s h =>
    on_container n (fun m => match s with SIGKILL => <[n := false]> m | SIGTERM => m end) h;
  dk_create_exec := fun _ _ h => (if wh_exec h then Ok (lit "exec") else Err (lit "exec failed"), h);
  dk_start_exec := fun _ h => (Ok tt, h);
  dk_tar_dir := fun _ _ => Ok [];
  dk_upload := fun _ _ _ h => (Ok tt, h);
  dk_commit := fun _ t h => (Ok tt, mkHost (wh_containers h) (wh_exec h) (t :: wh_images h) (wh_next h));
  dk_inspect_image := fun t h =>
    if bool_decide (t ∈ wh_images h) then Ok tt else Err (ImageMissing (lit "404"));
  dk_remove_image := fun t h =>
    (Ok tt, mkHost (wh_containers h) (wh_exec h) (List.filter (fun i => negb (str_eqb i t)) (wh_images h))
              (wh_next h));
  dk_list_images := fun h => Ok [mkImage (wh_images h) 0]
|}.

#[export] Instance mem_docker_laws : DockerLaws host.
Proof.
  refine {| containers := wh_containers |}; simpl; unfold on_container; intros; try done.
  - by case_match.
  - case_match; [|done]. simpl. by rewrite lookup_insert_ne.
  - by case_match.
  - by case_match.
  - destruct (wh_containers w !! n); simplify_eq. by eexists.
Defined.

Definition podman : ContainerProvider := mkContainerProvider (lit "debian") (lit "/bin/worker") None.
Definition fresh (exec : bool) : host := mkHost ∅ exec [] 0.

(** The worker cannot be started: the answer is an error, the container runs. *)
Definition leaky : host := mkHost {[lit "s1" := true]} false [] 1.

Lemma container_create_spec_witness :
  container_create podman (lit "s1") (lit "rust") ResourcesSpec_default NetworkSpec_default ∅ 1000
    (fresh false) = Some (Err (Internal (lit "Failed to create exec for worker: exec failed")), leaky) /\
  containers leaky !! lit "s1" = Some true.
Proof.
  pose proof (container_create_spec podman (lit "s1") (lit "rust") ResourcesSpec_default NetworkSpec_default ∅
    1000 (fresh false)) as H.
  assert (E : container_create podman (lit "s1") (lit "rust") ResourcesSpec_default NetworkSpec_default ∅ 1000
    (fresh false) = Some (Err (Internal (lit "Failed to create exec for worker: exec failed")), leaky))
    by (vm_compute; reflexivity).
  cbv zeta in H. rewrite E in H. split; [exact E|]. rewrite H. vm_compute. reflexivity.
Defined.

Definition running_host : host := mkHost {[lit "s1" := true]} true [] 0.

Lemma cancel_ends_sandbox_witness :
  podman_cancel_command (lit "s1") 5000 running_host = (Ok true, mkHost {[lit "s1" := false]} true [] 0) /\
  forall info status, dk_inspect_container (lit "s1") (mkHost {[lit "s1" := false]} true [] 0) = Ok info ->
    in_state info = Some (status, Some true) -> False.
Proof.
  split; [vm_compute; reflexivity|].
  apply (cancel_ends_sandbox (lit "s1") 5000 running_host); vm_compute; reflexivity.
Defined.

Definition listing : list ContainerSummary :=
  [mkSummary (Some [chr "/" :: lit "s1"]) None (Some (lit "rust")) (Some (lit "running"))].

Lemma container_list_spec_witness :
  exists l, container_list_sandboxes SandboxFilter_default running_host = Ok l /\
    Forall (fun sb => status sb = Pending /\ provider_id sb = lit "podman" /\
                      resources sb = ResourcesSpec_default) l.
Proof.
  assert (E : dk_list_containers running_host = Ok listing) by (vm_compute; reflexivity).
  eexists. split; [unfold container_list_sandboxes; rewrite E; reflexivity|].
  refine (proj2 (container_list_spec SandboxFilter_default running_host _ listing E _)).
  unfold container_list_sandboxes. rewrite E. reflexivity.
Defined.
End MemDocker.
