(* ===== verification/Worker.v ===== *)
(** * The worker process

    Models [bastion-worker/src/main.rs], the process inside a sandbox: the
    validation of paths, the handlers of the gateway's commands, the health
    report, the delay between sessions and the proof of the handshake.  The
    operating system - files, processes - is the class [Os]; texts the process
    logs are left out; failed sends on the channel to the gateway are ignored by
    the code, so a handler is the list of the messages it sends, with the world
    it leaves.  The table of running processes, which tasks share, is in
    [WorkerProc]. *)

From S2P Require Import Prelude WorkerAuth.

(** ** Messages *)

Inductive AckState := Received | Executing | Queued.

Record DirEntry := mkDirEntry {
  de_path : str; de_is_directory : bool; de_size_bytes : Z; de_permissions : str;
  de_modified_epoch_ms : Z; de_file_type : str
}.

Record HealthReport := mkHealth {
  hr_cpu_usage_percent : float; hr_memory_used_bytes : Z; hr_memory_total_bytes : Z;
  hr_disk_free_bytes : Z; hr_uptime_seconds : Z; hr_active_commands : Z; hr_pending_commands : Z;
  hr_load_average_1m : float
}.

Inductive Payload :=
| Ready (session_token working_dir : str)
| Ack (state : AckState)
| Stdout (data : bytes) (sequence : Z)
| Stderr (data : bytes) (sequence : Z)
| Exit (exit_code duration_ms : Z) (timed_out : bool) (signal : str)
| FileChunk (content : bytes) (offset : Z) (is_last : bool) (chunk_index total_chunks : Z)
| FileList (entries : list DirEntry)
| Error (error error_kind : str) (errno : Z)
| Pong (ping_timestamp worker_timestamp : Z) (health : HealthReport)
| ShutdownAck (pending_commands : Z) (will_drain : bool)
| CancelAck (cancelled : bool) (error : str).

Record RunCommandRequest := mkRun {
  run_command : str; run_args : list str; run_working_dir : str; run_env : gmap str str;
  run_timeout_ms : Z
}.
Record WriteFileRequest := mkWrite {
  wq_path : str; wq_mode : Z; wq_total_size : Z; wq_chunk_index : Z; wq_total_chunks : Z;
  wq_content : bytes
}.

(** ** The operating system *)

Record io_error := mkIoError { io_text : str; io_errno : option Z }.

Record dirent := mkDirent {
  ent_name : str; ent_is_dir : bool; ent_len : Z; ent_mode : Z; ent_modified_ms : option Z
}.

(** What a process is started with. *)
Record process := mkProcess { ps_command : str; ps_dir : option str; ps_env : gmap str str }.

Class Os (S : Type) := {
  canonicalize : str -> S -> result str str;
  file_len : str -> S -> result io_error Z;
  open_read : str -> S -> option io_error;
  (** What the reads of an open file return, up to the first empty one, and the
      error that ends them instead. *)
  file_reads : str -> S -> list bytes * option io_error;
  fs_write : str -> bytes -> S -> option io_error * S;
  create_dir_all : str -> S -> option io_error * S;
  open_append : str -> S -> option io_error * S;
  write_all : str -> bytes -> S -> option io_error * S;
  set_permissions : str -> Z -> S -> S;
  read_dir : str -> S -> result str (list (result str dirent));
  (** Output, error output and exit code of a process, if it could be started and
      waited for. *)
  spawn : process -> S -> option str;
  wait_with_output : process -> S -> result str (bytes * bytes * option Z) * S
}.

(** ** Paths *)

Definition ALLOWED_PREFIXES : list str :=
  map lit ["/workspace"; "/tmp"; "/home"; "/opt"; "/var/tmp"]%string.

(** [PENDING_WRITES]. *)
Abbreviation Pending := (gmap str bytes).

Section Worker.
Context {S : Type} `{OS : !Os S}.

Definition validate_path (path : str) (s : S) : result str str :=
  if negb (starts_with [chr "/"] path) then
    Err (lit "Relative paths not allowed: '" ++ path ++ lit "'")
  else
    match canonicalize path s with
    | Err e => Err (lit "Failed to canonicalize path '" ++ path ++ lit "': " ++ e)
    | Ok canonical =>
        if existsb (fun prefix => starts_with prefix canonical) ALLOWED_PREFIXES then Ok canonical
        else Err (lit "Path '" ++ path ++ lit "' (canonical: '" ++ canonical ++
                  lit "') is outside allowed directories")
    end.

Definition error_of (kind : string) (e : io_error) : Payload :=
  Error (io_text e) (lit kind) (default 0%Z (io_errno e)).
Definition refused (e : str) : Payload := Error e (lit "permission") 0.

(** ** Reading a file *)

Definition CHUNK_SIZE : Z := (4 * 1024 * 1024)%Z.

Definition div_ceil (a b : Z) : Z := ((a + b - 1) / b)%Z.

Fixpoint read_loop (reads : list bytes) (err : option io_error) (file_size offset chunk_index total : Z) :
    list Payload :=
  match reads with
  | [] => match err with None => [] | Some e => [error_of "internal" e] end
  | [] :: _ => []
  | buf :: reads' =>
      let next := (offset + Z.of_nat (length buf))%Z in
      FileChunk buf offset (file_size <=? next)%Z chunk_index total
        :: read_loop reads' err file_size next (as_i32 (chunk_index + 1)) total
  end.

Definition handle_read (path : str) (s : S) : list Payload :=
  match validate_path path s with
  | Err e => [refused e]
  | Ok safe_path =>
      match file_len safe_path s with
      | Err e => [error_of "not_found" e]
      | Ok len =>
          let file_size := as_i64 len in
          let total_chunks := as_i32 (div_ceil (as_u64 file_size) CHUNK_SIZE) in
          match open_read safe_path s with
          | Some e => [error_of "not_found" e]
          | None =>
              let '(reads, err) := file_reads safe_path s in
              read_loop reads err file_size 0 0 total_chunks
          end
      end
  end.

(** ** Writing a file *)

Definition apply_file_mode (path : str) (mode : Z) (s : S) : S :=
  if (mode =? 0)%Z then s else set_permissions path (as_u32 mode) s.

(** Replace the file's content; then its mode. *)
Definition write_now (path : str) (mode : Z) (data : bytes) (s : S) : Payload * S :=
  match fs_write path data s with
  | (None, s) => (Ack Received, apply_file_mode path mode s)
  | (Some e, s) => (error_of "permission" e, s)
  end.

(** [Path::parent] of an absolute canonical path. *)
Definition parent (path : str) : option str :=
  match split_once (chr "/") (rev path) with
  | Some (_, []) => if str_eqb path [chr "/"] then None else Some [chr "/"]
  | Some (_, dir) => Some (rev dir)
  | None => None
  end.

Definition append_now (path : str) (mode : Z) (data : bytes) (s : S) : Payload * S :=
  let '(made, s) :=
    match parent path with Some dir => create_dir_all dir s | None => (None, s) end in
  match made with
  | Some _ => (Error (lit "Failed to create parent directory") (lit "permission") 0, s)
  | None =>
      match open_append path s with
      | (Some e, s) => (error_of "permission" e, s)
      | (None, s) =>
          match write_all path data s with
          | (Some e, s) => (error_of "internal" e, s)
          | (None, s) => (Ack Received, apply_file_mode path mode s)
          end
      end
  end.

Definition is_last_chunk (req : WriteFileRequest) : bool :=
  (as_i32 (wq_chunk_index req + 1) =? wq_total_chunks req)%Z.

Definition handle_write (req : WriteFileRequest) (command_id : str) (pending : Pending) (s : S) :
    Payload * Pending * S :=
  match validate_path (wq_path req) s with
  | Err e => (refused e, pending, s)
  | Ok safe_path =>
      if (wq_total_chunks req =? 1)%Z then
        let '(p, s) := write_now safe_path (wq_mode req) (wq_content req) s in (p, pending, s)
      else if (1 <? wq_total_chunks req)%Z then
        let all_data := default [] (pending !! command_id) ++ wq_content req in
        if is_last_chunk req then
          let '(p, s) := write_now safe_path (wq_mode req) all_data s in
          (p, delete command_id pending, s)
        else (Ack Received, <[command_id := all_data]> pending, s)
      else
        let '(p, s) := append_now safe_path (wq_mode req) (wq_content req) s in (p, pending, s)
  end.

(** ** Listing a directory *)

(** [format!("{:o}", mode & 0o777)]. *)
Definition show_mode (mode : Z) : str :=
  let m := Z.to_N (Z.land mode 511) in
  let d k := (48 + N.shiftr m k mod 8)%N in
  if (m <? 8)%N then [d 0%N] else if (m <? 64)%N then [d 3%N; d 0%N] else [d 6%N; d 3%N; d 0%N].

Definition entry_of (e : dirent) : DirEntry :=
  mkDirEntry (ent_name e) (ent_is_dir e) (as_i64 (ent_len e)) (show_mode (ent_mode e))
    (match ent_modified_ms e with Some ms => as_i64 ms | None => 0%Z end)
    (if ent_is_dir e then lit "dir" else lit "file").

Fixpoint entries_of (es : list (result str dirent)) : result str (list DirEntry) :=
  match es with
  | [] => Ok []
  | Err e :: _ => Err e
  | Ok e :: es' => match entries_of es' with Ok l => Ok (entry_of e :: l) | Err e => Err e end
  end.

Definition list_directory (dir : str) (s : S) : result str (list DirEntry) :=
  match read_dir dir s with
  | Err e => Err (lit "Cannot read dir: " ++ e)
  | Ok es => entries_of es
  end.

Definition handle_list (directory : str) (s : S) : list Payload :=
  match validate_path directory s with
  | Err e => [refused e]
  | Ok safe_dir =>
      match list_directory safe_dir s with
      | Ok entries => [FileList entries]
      | Err e => [Error e (lit "not_found") 0]
      end
  end.

(** ** Running a command *)

(** A working directory that is given. *)
Definition given_dir (d : str) : option str := match d with [] => None | _ => Some d end.

Definition process_of (req : RunCommandRequest) : process :=
  mkProcess (run_command req) (given_dir (run_working_dir req)) (run_env req).

(** [stolen]: a cancel took the process between the two accesses to the table. *)
Definition execute_command (req : RunCommandRequest) (stolen : bool) (s : S) :
    result str (bytes * bytes * Z) * S :=
  match spawn (process_of req) s with
  | Some e => (Err (lit "Failed to spawn: " ++ e), s)
  | None =>
      if stolen then (Err (lit "Process state corrupted"), s)
      else
        match wait_with_output (process_of req) s with
        | (Err e, s) => (Err (lit "Failed to execute: " ++ e), s)
        | (Ok (out, err, code), s) => (Ok (out, err, default (-1)%Z code), s)
        end
  end.

Definition nonempty_chunk (f : bytes -> Z -> Payload) (d : bytes) : list Payload :=
  match d with [] => [] | _ => [f d 0%Z] end.

(** The task of a command; [duration_ms] is what the clock says it took. *)
Definition handle_run (req : RunCommandRequest) (stolen : bool) (duration_ms : Z) (s : S) :
    list Payload * S :=
  let '(output, s) := execute_command req stolen s in
  (Ack Executing ::
   match output with
   | Ok (out, err, code) =>
       nonempty_chunk Stdout out ++ nonempty_chunk Stderr err ++
       [Exit code (as_i64 duration_ms) false []]
   | Err e => [Error e (lit "internal") 0]
   end, s).
End Worker.

(** ** Health *)

Section Health.
(** [str::parse::<f64>]. *)
Context (parse_f64 : str -> option float).

(** The first word of a line. *)
Definition first_word (s : str) : option str :=
  match fst (span (fun c => negb (is_whitespace c)) (trim_start s)) with [] => None | w => Some w end.

Definition parse_kb (s : str) : Z :=
  match first_word s with Some w => default 0%Z (parse_i64 w) | None => 0%Z end.

(** [i64::saturating_sub]. *)
Definition i64_saturating_sub (a b : Z) : Z := Z.max i64_min (Z.min i64_max (a - b)).

(** One line of [/proc/meminfo]: total and used. *)
Definition meminfo_line (acc : Z * Z) (line : str) : Z * Z :=
  let '(total, used) := acc in
  match strip_prefix (lit "MemTotal:") line with
  | Some val => (as_i64 (parse_kb val * 1024), used)
  | None =>
      match strip_prefix (lit "MemAvailable:") line with
      | Some val => (total, i64_saturating_sub total (as_i64 (parse_kb val * 1024)))
      | None => acc
      end
  end.

(** The lines of a text: the last is dropped when it is empty. *)
Definition text_lines (s : str) : list str :=
  match rev (split_on 10%N s) with [] :: r => rev r | l => rev l end.

(** [collect_health] with the contents of the three files that can be read; the
    active commands are those the process counts. *)
Definition collect_health (active : Z) (meminfo loadavg uptime : option str) : HealthReport :=
  let '(total, used) :=
    match meminfo with Some t => fold_left meminfo_line (text_lines t) (0, 0)%Z | None => (0, 0)%Z end in
  let word o := match o with Some t => first_word t | None => None end in
  mkHealth f_zero used total 0
    (match word uptime with Some w => default 0%Z (parse_i64 w) | None => 0%Z end)
    active 0
    (match word loadavg with Some w => default f_zero (parse_f64 w) | None => f_zero end).
End Health.

(** ** The command loop *)

Inductive GraceLevel := Graceful | Draining | Forceful.
Inductive ExitReason := Shutdown | StreamEnded.

Inductive CommandPayload :=
| CRun (req : RunCommandRequest)
| CRead (path : str) (offset length : Z)
| CWrite (req : WriteFileRequest)
| CList (directory : str) (recursive : bool) (max_depth : Z)
| CPing (timestamp : Z)
| CShutdown (level : GraceLevel) (reason : str)
| CCancel (target reason : str).

Record Command := mkCommand { cmd_id : str; cmd_payload : option CommandPayload }.

(** What the loop does with a command: spawn a task, answer at once, end the
    session, or end the process. *)
Inductive loop_action :=
| ASpawn (p : CommandPayload)
| AReply (p : Payload)
| ACancel (target : str)
| AEnd (p : Payload) (r : ExitReason)
| AKill (p : Payload)
| AIgnore.

Definition on_command (active now_ms : Z) (health : HealthReport) (c : Command) : loop_action :=
  match cmd_payload c with
  | None => AIgnore
  | Some (CPing ts) => AReply (Pong ts (as_i64 now_ms) health)
  | Some (CShutdown (Graceful | Draining) _) => AEnd (ShutdownAck active true) Shutdown
  | Some (CShutdown Forceful _) => AKill (ShutdownAck active false)
  | Some (CCancel target _) => ACancel target
  | Some p => ASpawn p
  end.

(** ** Sessions *)

Definition pow2_saturating (n : Z) : Z := Z.min u64_max (2 ^ n).

(** [next_backoff] in milliseconds, with the base of one second and the most of
    sixty that [main] passes; [nanos] is the wall clock. *)
Definition next_backoff (attempt base_ms max_ms nanos : Z) : Z :=
  let exp_ms := as_u64 (as_u64 base_ms * pow2_saturating (Z.min attempt 6)) in
  let jitter := (as_u64 nanos mod 500)%Z in
  Z.min (as_u64 (exp_ms + jitter)) max_ms.

Definition base_delay : Z := 1000.
Definition max_delay : Z := 60000.

Inductive SessionEnd := Ended (r : ExitReason) | Failed.

(** The loop of [main]: how long it waits after each session, until one asks it to
    stop; [nanos] is the clock at the failures. *)
Fixpoint main_loop (sessions : list (SessionEnd * Z)) (attempt : Z) : list Z * bool :=
  match sessions with
  | [] => ([], false)
  | (Ended Shutdown, _) :: _ => ([], true)
  | (Ended StreamEnded, _) :: l => let '(ds, b) := main_loop l 0 in (0%Z :: ds, b)
  | (Failed, nanos) :: l =>
      let '(ds, b) := main_loop l (as_u32 (attempt + 1)) in
      (next_backoff attempt base_delay max_delay nanos :: ds, b)
  end.

Section Handshake.
Context `{HMAC : HmacSha256}.

(** [None] is the panic on a key the implementation refuses. *)
Definition compute_hmac_proof (secret : str) (worker_nonce gateway_nonce : bytes) : option bytes :=
  option_map (fun k => mac_tag k (worker_nonce ++ gateway_nonce)) (new_from_slice (utf8 secret)).

(** The nanoseconds of the clock and 24 random bytes. *)
Definition worker_generate_nonce (ts : N) (random : bytes) : bytes := le_bytes 16 ts ++ random.

Inductive handshake :=
| Token (token : str)
| Prove (proof : bytes)
| Bail (e : str)
| Panic.

(** The answer to a registration. *)
Definition on_register (secret : str) (nonce : bytes) (r : RegisterResponse) : handshake :=
  match rr_status r with
  | Accepted => Token (rr_session_token r)
  | Challenge =>
      match compute_hmac_proof secret nonce (rr_gateway_nonce r) with
      | Some proof => Prove proof
      | None => Panic
      end
  | Rejected => Bail (lit "Registration rejected by gateway")
  | VersionMismatch => Bail (lit "Protocol version mismatch")
  end.

Definition debug_status (s : RegisterStatus) : str :=
  match s with
  | Accepted => lit "Accepted" | Challenge => lit "Challenge" | Rejected => lit "Rejected"
  | VersionMismatch => lit "VersionMismatch"
  end.

(** The answer to the proof. *)
Definition on_challenge (r : RegisterResponse) : handshake :=
  match rr_status r with
  | Accepted => Token (rr_session_token r)
  | s => Bail (lit "Challenge response rejected: " ++ debug_status s)
  end.

(** The first message of the command stream. *)
Definition ready_signal (token workdir : str) : str * Payload := ([], Ready token workdir).
End Handshake.

(** ** What the handlers guarantee *)

Section WorkerFacts.
Context {S : Type} `{OS : !Os S}.

Lemma validate_path_ok path (s : S) c :
  validate_path path s = Ok c <->
  starts_with [chr "/"] path = true /\ canonicalize path s = Ok c /\
  exists prefix, prefix ∈ ALLOWED_PREFIXES /\ starts_with prefix c = true.
Proof.
  unfold validate_path. destruct (starts_with _ path); cbn [negb]; [|split; [done|by intros [? _]]].
  destruct (canonicalize path s) as [c'|e]; [|split; [done|by intros (_ & ? & _)]].
  destruct (existsb _ _) eqn:E.
  - split; [|by intros (_ & [= ->] & _)]. intros [= <-]. split; [done|]. split; [done|].
    apply existsb_exists in E as (p & Hp & Hs). exists p. by rewrite list_elem_of_In.
  - split; [done|]. intros (_ & [= <-] & p & Hp & Hs). exfalso.
    assert (existsb (fun prefix => starts_with prefix c') ALLOWED_PREFIXES = true) as Ht
      by (apply existsb_exists; exists p; by rewrite <- list_elem_of_In).
    congruence.
Qed.

(** The contents and offsets of the chunks of a file. *)
Definition chunk_content (p : Payload) : bytes := match p with FileChunk d _ _ _ _ => d | _ => [] end.
Definition chunk_last (p : Payload) : bool := match p with FileChunk _ _ l _ _ => l | _ => false end.
Definition chunk_offset (p : Payload) : Z := match p with FileChunk _ o _ _ _ => o | _ => 0%Z end.

Definition nonempty (b : bytes) : Prop := b ≠ [].

(** Chunks that start at [offset] each where the one before ends, and of which only
    the last is marked. *)
Inductive chunk_run : Z -> list Payload -> Prop :=
| run_last d o i t : chunk_run o [FileChunk d o true i t]
| run_more d o i t l : chunk_run (o + Z.of_nat (length d)) l -> chunk_run o (FileChunk d o false i t :: l).

Lemma read_loop_contents reads err size o i t :
  Forall nonempty reads -> err = None ->
  map chunk_content (read_loop reads err size o i t) = reads.
Proof.
  intros Hn ->. revert o i. induction Hn as [|b reads Hb Hn IH]; intros o i; [done|].
  destruct b as [|c b]; [done|]. cbn [read_loop map chunk_content]. by rewrite IH.
Qed.

Lemma read_loop_run reads size o i t :
  Forall nonempty reads -> reads ≠ [] -> size = (o + Z.of_nat (length (concat reads)))%Z ->
  chunk_run o (read_loop reads None size o i t).
Proof.
  intros Hn. revert o i. induction Hn as [|b reads Hb Hn IH]; intros o i Hne Hs; [done|].
  destruct b as [|c b]; [done|]. cbn [read_loop].
  cbn [concat] in Hs. rewrite length_app in Hs.
  destruct reads as [|b' reads].
  - cbn [concat length read_loop] in *. rewrite (proj2 (Z.leb_le _ _)) by (cbn [length]; lia). constructor.
  - rewrite (proj2 (Z.leb_gt _ _)).
    + constructor. apply IH; [done|]. lia.
    + apply Forall_cons in Hn as [Hb' _]. destruct b' as [|x b']; [done|].
      cbn [concat length app] in Hs. rewrite length_app in Hs. cbn [length] in *. lia.
Qed.

Lemma handle_read_loop path c len reads err (s : S) :
  validate_path path s = Ok c -> file_len c s = Ok len -> open_read c s = None ->
  file_reads c s = (reads, err) ->
  handle_read path s =
    read_loop reads err (as_i64 len) 0 0 (as_i32 (div_ceil (as_u64 (as_i64 len)) CHUNK_SIZE)).
Proof. intros Hv Hl Ho Hr. unfold handle_read. by rewrite Hv, Hl, Ho, Hr. Qed.

Lemma read_chunks_lemma (path c : str) (content : bytes) (reads : list bytes) (s : S) :
  validate_path path s = Ok c -> (Z.of_nat (length content) <= i64_max)%Z ->
  file_len c s = Ok (Z.of_nat (length content)) -> open_read c s = None ->
  file_reads c s = (reads, None) -> concat reads = content -> Forall nonempty reads ->
  concat (map chunk_content (handle_read path s)) = content /\
  match content with [] => handle_read path s = [] | _ => chunk_run 0 (handle_read path s) end.
Proof.
  intros Hv Hb Hl Ho Hr Hc Hn. rewrite (handle_read_loop _ _ _ _ _ _ Hv Hl Ho Hr).
  split; [by rewrite read_loop_contents|].
  assert (as_i64 (Z.of_nat (length content)) = Z.of_nat (length content)) as ->.
  { unfold as_i64, i64_max in *. rewrite Z.mod_small; lia. }
  destruct content as [|x content].
  - destruct reads as [|[|y b] reads]; [done|by apply Forall_cons in Hn as [? _]|done].
  - apply read_loop_run; [done|by intros ->|by rewrite Hc].
Qed.

(** Reading a file that does not change meanwhile sends its content in
    order, whatever pieces the reads return: the chunks put together are the
    content, each begins where the one before ends, and the last, and only the
    last, is marked as such.  An empty file sends nothing at all. *)
Theorem read_chunks (path c : str) (content : bytes) (reads : list bytes) (s : S) :
  validate_path path s = Ok c -> (Z.of_nat (length content) <= i64_max)%Z ->
  file_len c s = Ok (Z.of_nat (length content)) -> open_read c s = None ->
  file_reads c s = (reads, None) -> concat reads = content -> Forall nonempty reads ->
  concat (map chunk_content (handle_read path s)) = content /\
  match content with [] => handle_read path s = [] | _ => chunk_run 0 (handle_read path s) end.
Proof. intros. by eapply read_chunks_lemma. Qed.

(** The tasks of the chunks of one write, in the order in which they run. *)
Fixpoint run_writes (reqs : list WriteFileRequest) (id : str) (pending : Pending) (s : S) :
    list Payload * Pending * S :=
  match reqs with
  | [] => ([], pending, s)
  | r :: l =>
      let '(p, pending, s) := handle_write r id pending s in
      let '(ps, pending, s) := run_writes l id pending s in
      (p :: ps, pending, s)
  end.

(** A chunk of a write in several, that is not the last. *)
Definition is_part (path : str) (r : WriteFileRequest) : Prop :=
  wq_path r = path /\ (1 < wq_total_chunks r)%Z /\ is_last_chunk r = false.

Lemma handle_write_part path c r id pending (s : S) :
  validate_path path s = Ok c -> is_part path r ->
  handle_write r id pending s =
    (Ack Received, <[id := default [] (pending !! id) ++ wq_content r]> pending, s).
Proof.
  intros Hv (<- & Ht & Hl). unfold handle_write. rewrite Hv, Hl.
  destruct (Z.eqb_spec (wq_total_chunks r) 1); [lia|].
  by rewrite (proj2 (Z.ltb_lt _ _)) by lia.
Qed.

Lemma run_writes_parts path c reqs id pending (s : S) :
  validate_path path s = Ok c -> Forall (is_part path) reqs ->
  run_writes reqs id pending s =
    (map (fun _ => Ack Received) reqs,
     match reqs with
     | [] => pending
     | _ => <[id := default [] (pending !! id) ++ concat (map wq_content reqs)]> pending
     end, s).
Proof.
  intros Hv Hp. revert pending. induction Hp as [|r reqs Hr Hp IH]; intros pending; [done|].
  cbn [run_writes]. rewrite (handle_write_part path c) by done. rewrite IH.
  destruct reqs as [|r' reqs]; [cbn; by rewrite app_nil_r|].
  rewrite lookup_insert_eq, insert_insert_eq. cbn [from_option Datatypes.id map concat].
  by rewrite <- (app_assoc (default [] (pending !! id))).
Qed.

(** A write in several chunks puts them together in the order in which
    their tasks run: when the last chunk runs last the file gets all of them, in
    that order and not in that of their indices, and nothing stays behind; the
    chunks that run after the last one are never written and stay in memory. *)
Theorem chunked_write (path c id : str) (pre post : list WriteFileRequest) (r : WriteFileRequest)
    (pending : Pending) (s s' : S) :
  validate_path path s = Ok c -> validate_path path s' = Ok c -> pending !! id = None ->
  Forall (is_part path) pre -> Forall (is_part path) post ->
  wq_path r = path -> (1 < wq_total_chunks r)%Z -> is_last_chunk r = true ->
  write_now c (wq_mode r) (concat (map wq_content pre) ++ wq_content r) s = (Ack Received, s') ->
  run_writes (pre ++ r :: post) id pending s =
    (map (fun _ => Ack Received) (pre ++ r :: post),
     match post with [] => pending | _ => <[id := concat (map wq_content post)]> pending end, s').
Proof.
  intros Hv Hv' Hn Hpre Hpost Hp Ht Hl Hw.
  assert (Happ : forall l1 l2 p s0, run_writes (l1 ++ l2) id p s0 =
    let '(ps, p', s1) := run_writes l1 id p s0 in
    let '(qs, p'', s2) := run_writes l2 id p' s1 in (ps ++ qs, p'', s2)).
  { induction l1 as [|x l1 IH]; intros l2 p s0; cbn [app run_writes].
    - by destruct (run_writes l2 id p s0) as [[? ?] ?].
    - destruct (handle_write x id p s0) as [[y p1] s1]. rewrite IH.
      destruct (run_writes l1 id p1 s1) as [[? p2] s2]. by destruct (run_writes l2 id p2 s2) as [[? ?] ?]. }
  rewrite Happ, (run_writes_parts path c) by done. clear Happ. rewrite map_app. cbn [map].
  set (pend := match pre with [] => pending | _ => _ end).
  assert (Hd : default [] (pend !! id) = concat (map wq_content pre) /\ delete id pend = pending).
  { unfold pend. destruct pre; [by rewrite Hn, delete_id|].
    rewrite lookup_insert_eq, Hn, delete_insert_eq. by rewrite delete_id. }
  clearbody pend. destruct Hd as [Hd1 Hd2]. cbn [run_writes].
  unfold handle_write. rewrite Hp, Hv, Hd1, Hl.
  destruct (Z.eqb_spec (wq_total_chunks r) 1); [lia|].
  rewrite (proj2 (Z.ltb_lt _ _)) by lia. rewrite Hw, Hd2, (run_writes_parts path c) by done.
  destruct post; [done|]. by rewrite Hn.
Qed.

(** Nothing is written when the path cannot be made canonical. *)
Lemma handle_write_refused r id pending (s : S) e :
  validate_path (wq_path r) s = Err e -> handle_write r id pending s = (refused e, pending, s).
Proof. intros He. unfold handle_write. by rewrite He. Qed.
End WorkerFacts.

(** The delay after a failure is the base doubled up to six times, with
    less than half a second of jitter, and never more than a minute; from the
    seventh failure in a row on it is exactly a minute. *)
Theorem backoff_bounds (attempt nanos : Z) :
  (0 <= attempt)%Z ->
  let d := next_backoff attempt base_delay max_delay nanos in
  let e := (1000 * 2 ^ Z.min attempt 6)%Z in
  (Z.min e max_delay <= d <= Z.min (e + 499) max_delay /\ (6 <= attempt -> d = max_delay))%Z.
Proof.
  intros Ha d e.
  assert (Hd : d = Z.min (e + as_u64 nanos mod 500) 60000).
  { unfold d, e, next_backoff, base_delay, max_delay, pow2_saturating.
    assert (1 <= 2 ^ Z.min attempt 6 <= 64)%Z.
    { split; [pose proof (Z.pow_pos_nonneg 2 (Z.min attempt 6)); lia|].
      change 64%Z with (2 ^ 6)%Z. apply Z.pow_le_mono_r; lia. }
    pose proof (Z.mod_pos_bound (as_u64 nanos) 500) as Hj.
    revert Hj. generalize (as_u64 nanos mod 500)%Z. intros j Hj.
    revert H. generalize (2 ^ Z.min attempt 6)%Z. intros p Hp.
    rewrite (Z.min_r u64_max) by (unfold u64_max; lia).
    change (as_u64 1000) with 1000%Z. unfold as_u64.
    rewrite (Z.mod_small (1000 * p)) by lia. by rewrite Z.mod_small by lia. }
  pose proof (Z.mod_pos_bound (as_u64 nanos) 500). rewrite Hd. unfold max_delay.
  split; [lia|]. intros H6. unfold e. rewrite (Z.min_r attempt) by lia. lia.
Qed.

(** ** A system in memory *)

(** Files without links: a path is canonical when the file exists, a file is read
    in one piece, and every process says the same. *)
Definition mem_os : Os (gmap str bytes) := {|
  canonicalize := fun p s =>
    match s !! p with Some _ => Ok p | None => Err (lit "No such file or directory (os error 2)") end;
  file_len := fun p s =>
    match s !! p with
    | Some c => Ok (Z.of_nat (length c))
    | None => Err (mkIoError (lit "No such file or directory (os error 2)") (Some 2%Z))
    end;
  open_read := fun _ _ => None;
  file_reads := fun p s => (match s !! p with Some ((_ :: _) as c) => [c] | _ => [] end, None);
  fs_write := fun p c s => (None, <[p := c]> s);
  create_dir_all := fun _ s => (None, s);
  open_append := fun p s => (None, <[p := default [] (s !! p)]> s);
  write_all := fun p c s => (None, <[p := default [] (s !! p) ++ c]> s);
  set_permissions := fun _ _ s => s;
  read_dir := fun _ _ => Ok [];
  spawn := fun _ _ => None;
  wait_with_output := fun _ s => (Ok ([104; 105]%N, [], Some 0%Z), s)
|}.

Lemma read_chunks_witness :
  concat (map chunk_content (handle_read (OS:=mem_os) (lit "/tmp/a") {[lit "/tmp/a" := [1; 2]%N]})) = [1; 2]%N.
Proof.
  apply (read_chunks (OS:=mem_os) (lit "/tmp/a") (lit "/tmp/a") [1; 2]%N [[1; 2]%N] {[lit "/tmp/a" := [1; 2]%N]});
    try reflexivity; [by vm_compute|by constructor].
Defined.

(** The second part of three runs before the first. *)
Lemma chunked_write_witness :
  let part k d := mkWrite (lit "/tmp/a") 0 6 k 3 d in
  run_writes (OS:=mem_os) ([part 1%Z [3; 4]%N; part 0%Z [1; 2]%N] ++ part 2%Z [5; 6]%N :: []) (lit "c") ∅
    {[lit "/tmp/a" := []]} =
  ([Ack Received; Ack Received; Ack Received], ∅, <[lit "/tmp/a" := [3; 4; 1; 2; 5; 6]%N]> {[lit "/tmp/a" := []]}).
Proof.
  intros part.
  apply (chunked_write (OS:=mem_os) (lit "/tmp/a") (lit "/tmp/a") (lit "c")
    [part 1%Z [3; 4]%N; part 0%Z [1; 2]%N] [] (part 2%Z [5; 6]%N) ∅); try reflexivity; repeat constructor.
Defined.

Lemma backoff_bounds_witness : next_backoff 6 base_delay max_delay 123456789 = 60000%Z.
Proof. apply (backoff_bounds 6 123456789); lia. Defined.

(** A name that only begins like an allowed directory is let through. *)
Example prefix_is_textual :
  validate_path (S:=gmap str bytes) (OS:=mem_os) (lit "/tmp-private/key") {[lit "/tmp-private/key" := []]}
    = Ok (lit "/tmp-private/key").
Proof. reflexivity. Qed.

(** The uptime is written with a fraction, which is no integer. *)
Example uptime_is_zero parse_f64 :
  hr_uptime_seconds (collect_health parse_f64 0 None None (Some (lit "4711.23 9000.00"))) = 0%Z.
Proof. reflexivity. Qed.

(** Total and available memory, in kilobytes, in the order of the file. *)
Example memory_of_meminfo parse_f64 :
  let h := collect_health parse_f64 0
    (Some (lit "MemTotal:  2000 kB" ++ 10%N :: lit "MemFree: 7 kB" ++ 10%N :: lit "MemAvailable: 500 kB" ++ [10%N]))
    None None in
  (hr_memory_total_bytes h, hr_memory_used_bytes h) = (2048000, 1536000)%Z.
Proof. reflexivity. Qed.
