(* ===== verification/WorkerProc.v ===== *)
(** * Running processes and their cancellation

    Models what the concurrent tasks of the worker ([bastion-worker/src/main.rs])
    share: the table [RUNNING_PROCESSES], which [execute_command] and
    [cancel_running_process] access, and the permits of [run_command_loop].  Each
    access to the table and each taking of a process out of its cell is one atomic
    step of one task; the tasks interleave freely.  A process and the cell it is
    put in carry the same number, which is never used again. *)

From S2P Require Import Prelude.

(** ** Tasks *)

Inductive task :=
| RunStart (id : str)            (** before [spawn] *)
| RunInserted (id : str) (n : nat) (** the cell is in the table *)
| RunTaken (id : str) (n : nat)    (** the process is out of its cell *)
| RunWaiting (id : str) (n : nat)  (** the entry is removed: [wait_with_output] *)
| RunFinished (id : str) (n : nat)
| RunCorrupted (id : str) (n : nat) (** [Process state corrupted] *)
| RunNotSpawned (id : str)
| CancelStart (target : str)
| CancelHolding (target : str) (n : nat) (** the entry is removed *)
| CancelKilling (target : str) (n : nat)
| CancelDone (target : str) (cancelled : bool).

(** The table, the cells that hold their process, the processes killed and the
    tasks, by their numbers. *)
Record Procs := mkProcs {
  table : gmap str nat; full : gset nat; killed : gset nat; tasks : gmap nat task; next : nat
}.

Definition procs_new : Procs := mkProcs ∅ ∅ ∅ ∅ 0.

Definition set_task (i : nat) (t : task) (st : Procs) : Procs :=
  mkProcs (table st) (full st) (killed st) (<[i := t]> (tasks st)) (next st).

(** One step of task [i]. *)
Inductive proc_step (i : nat) : Procs -> Procs -> Prop :=
| s_new_run st id : tasks st !! i = None -> proc_step i st (set_task i (RunStart id) st)
| s_new_cancel st id : tasks st !! i = None -> proc_step i st (set_task i (CancelStart id) st)
| s_spawn_error st id : tasks st !! i = Some (RunStart id) ->
    proc_step i st (set_task i (RunNotSpawned id) st)
| s_insert st id : tasks st !! i = Some (RunStart id) ->
    proc_step i st (mkProcs (<[id := next st]> (table st)) ({[next st]} ∪ full st) (killed st)
      (<[i := RunInserted id (next st)]> (tasks st)) (S (next st)))
| s_take st id n : tasks st !! i = Some (RunInserted id n) -> n ∈ full st ->
    proc_step i st (mkProcs (table st) (full st ∖ {[n]}) (killed st)
      (<[i := RunTaken id n]> (tasks st)) (next st))
| s_corrupted st id n : tasks st !! i = Some (RunInserted id n) -> n ∉ full st ->
    proc_step i st (set_task i (RunCorrupted id n) st)
| s_remove st id n : tasks st !! i = Some (RunTaken id n) ->
    proc_step i st (mkProcs (delete id (table st)) (full st) (killed st)
      (<[i := RunWaiting id n]> (tasks st)) (next st))
| s_exit st id n : tasks st !! i = Some (RunWaiting id n) ->
    proc_step i st (set_task i (RunFinished id n) st)
| s_cancel_none st id : tasks st !! i = Some (CancelStart id) -> table st !! id = None ->
    proc_step i st (set_task i (CancelDone id false) st)
| s_cancel_remove st id n : tasks st !! i = Some (CancelStart id) -> table st !! id = Some n ->
    proc_step i st (mkProcs (delete id (table st)) (full st) (killed st)
      (<[i := CancelHolding id n]> (tasks st)) (next st))
| s_cancel_empty st id n : tasks st !! i = Some (CancelHolding id n) -> n ∉ full st ->
    proc_step i st (set_task i (CancelDone id false) st)
| s_cancel_take st id n : tasks st !! i = Some (CancelHolding id n) -> n ∈ full st ->
    proc_step i st (mkProcs (table st) (full st ∖ {[n]}) (killed st)
      (<[i := CancelKilling id n]> (tasks st)) (next st))
| s_kill st id n : tasks st !! i = Some (CancelKilling id n) ->
    proc_step i st (mkProcs (table st) (full st) ({[n]} ∪ killed st)
      (<[i := CancelDone id true]> (tasks st)) (next st))
| s_kill_error st id n : tasks st !! i = Some (CancelKilling id n) ->
    proc_step i st (set_task i (CancelDone id false) st).

Inductive reachable : Procs -> Prop :=
| reach_new : reachable procs_new
| reach_step st st' i : reachable st -> proc_step i st st' -> reachable st'.

(** ** Who holds what *)

(** The cell of a command that is still in the table's window. *)
Definition window (t : task) : option (str * nat) :=
  match t with RunInserted id n | RunTaken id n => Some (id, n) | _ => None end.

(** The process a task has, or had to the end. *)
Definition holds (t : task) : option nat :=
  match t with
  | RunTaken _ n | RunWaiting _ n | RunFinished _ n | CancelKilling _ n => Some n
  | _ => None
  end.

Definition mentions (t : task) : option nat :=
  match t with
  | RunInserted _ n | RunTaken _ n | RunWaiting _ n | RunFinished _ n | RunCorrupted _ n
  | CancelHolding _ n | CancelKilling _ n => Some n
  | _ => None
  end.

Record invariant (st : Procs) : Prop := mkInv {
  inv_fresh : forall i t n, tasks st !! i = Some t -> mentions t = Some n -> n < next st;
  inv_sets : forall n, n ∈ full st \/ n ∈ killed st -> n < next st;
  inv_window : forall i j t t' id id' n, tasks st !! i = Some t -> tasks st !! j = Some t' ->
    window t = Some (id, n) -> window t' = Some (id', n) -> i = j;
  inv_holder : forall i j t t' n, tasks st !! i = Some t -> tasks st !! j = Some t' ->
    holds t = Some n -> holds t' = Some n -> i = j;
  inv_alone : forall i t n, tasks st !! i = Some t -> holds t = Some n ->
    n ∉ full st /\ n ∉ killed st;
  inv_killed : forall n, n ∈ killed st -> n ∉ full st;
  inv_table : forall id n, table st !! id = Some n -> exists i t, tasks st !! i = Some t /\
    window t = Some (id, n) /\ (n ∈ full st \/ t = RunTaken id n);
  inv_cancel : forall i id n, tasks st !! i = Some (CancelHolding id n) ->
    forall id', table st !! id' ≠ Some n
}.

Lemma invariant_new : invariant procs_new.
Proof. split; intros; simpl in *; try (by rewrite lookup_empty in *); set_solver. Qed.

(** Split a lookup in an updated map. *)
Ltac look :=
  repeat match goal with
  | H : <[_ := _]> _ !! _ = Some _ |- _ => apply lookup_insert_Some in H as [[? ?]|[? ?]]; subst
  | H : delete _ _ !! _ = Some _ |- _ => apply lookup_delete_Some in H as [? ?]
  end; simplify_eq/=.

(** Membership in the updated sets. *)
Ltac members := rewrite ?elem_of_union, ?elem_of_difference, ?elem_of_singleton in *.

Lemma window_mentions t id n : window t = Some (id, n) -> mentions t = Some n.
Proof. by destruct t; intros [= <- <-]. Qed.
Lemma holds_mentions t n : holds t = Some n -> mentions t = Some n.
Proof. by destruct t; intros [= <-]. Qed.

Lemma table_fresh st id n : invariant st -> table st !! id = Some n -> n < next st.
Proof.
  intros Hi (j & t & Hj & Hw & _)%(inv_table st Hi).
  eapply (inv_fresh st Hi); [exact Hj|]. by eapply window_mentions.
Qed.

Lemma not_fresh st j t n : invariant st -> tasks st !! j = Some t -> mentions t = Some n -> n ≠ next st.
Proof. intros Hi Hj Hm ->. pose proof (inv_fresh st Hi j t _ Hj Hm). lia. Qed.

Lemma fresh_step i st st' : invariant st -> proc_step i st st' ->
  (forall j t n, tasks st' !! j = Some t -> mentions t = Some n -> n < next st') /\
  (forall n, n ∈ full st' \/ n ∈ killed st' -> n < next st').
Proof.
  intros Hi Hstep. pose proof (inv_fresh st Hi) as Hf. pose proof (inv_sets st Hi) as Hs.
  pose proof (fun id n => table_fresh st id n Hi) as Hcell.
  destruct Hstep; cbn [tasks full killed next set_task];
    (split; [intros j t m Hj Hm; look; eauto using Nat.lt_lt_succ_r|]);
    intros m Hm; members; (destruct_or?; try destruct_and?; subst; eauto using Nat.lt_lt_succ_r).
Qed.

Lemma window_step i st st' : invariant st -> proc_step i st st' ->
  forall j j' t t' id id' n, tasks st' !! j = Some t -> tasks st' !! j' = Some t' ->
    window t = Some (id, n) -> window t' = Some (id', n) -> j = j'.
Proof.
  intros Hi Hstep j j' t t' id id' n Hj Hj' Ht Ht'. pose proof (inv_window st Hi) as Hw.
  pose proof (fun k u m => not_fresh st k u m Hi) as Hn.
  destruct Hstep; cbn [tasks set_task] in *; look; try done; eauto;
    try (by eapply (Hw _ _ _ _ _ _ n); [eassumption|eassumption|..]; simpl; eauto);
    exfalso; eapply Hn; eauto using window_mentions.
Qed.

Lemma holder_step i st st' : invariant st -> proc_step i st st' ->
  forall j j' t t' n, tasks st' !! j = Some t -> tasks st' !! j' = Some t' ->
    holds t = Some n -> holds t' = Some n -> j = j'.
Proof.
  intros Hi Hstep j j' t t' n Hj Hj' Ht Ht'.
  pose proof (inv_holder st Hi) as Hh. pose proof (inv_alone st Hi) as Ha.
  destruct Hstep; cbn [tasks set_task] in *; look; try done; eauto;
    try (by eapply (Hh _ _ _ _ n); [eassumption|eassumption|..]; simpl; congruence);
    exfalso; match goal with
    | H : tasks _ !! _ = Some ?t, H' : holds ?t = Some _ |- _ => by destruct (Ha _ _ _ H H')
    end.
Qed.

Lemma alone_step i st st' : invariant st -> proc_step i st st' ->
  (forall j t n, tasks st' !! j = Some t -> holds t = Some n -> n ∉ full st' /\ n ∉ killed st') /\
  (forall n, n ∈ killed st' -> n ∉ full st').
Proof.
  intros Hi Hstep. pose proof (inv_alone st Hi) as Ha. pose proof (inv_killed st Hi) as Hk.
  pose proof (inv_sets st Hi) as Hs. pose proof (inv_holder st Hi) as Hh.
  assert (Hold : forall k u m, tasks st !! k = Some u -> holds u = Some m -> m ≠ next st)
    by (intros; eapply not_fresh; eauto using holds_mentions).
  split.
  - intros j t n Hj Ht.
    destruct Hstep; cbn [tasks full killed set_task] in *; look; try done; eauto; members.

    all: try match goal with
         | H : tasks _ !! _ = Some ?t, H' : holds ?t = Some _ |- _ =>
             pose proof (Ha _ _ _ H H') as [? ?]; pose proof (Hold _ _ _ H H')
         end.
    all: try tauto.
    all: try (by split; [intros [_ ?]|intros ?%Hk]).
    split; [done|]. intros [->|?]; [|done].
    match goal with Hij : i ≠ j |- _ => apply Hij end. by eapply Hh; eauto.
  - intros n Hn.
    destruct Hstep; cbn [full killed set_task] in *; members; eauto.
    + intros [->|Hf]; [|by apply (Hk n)]. specialize (Hs (next st)). lia || (assert (next st < next st) by auto; lia).
    + intros [Hf _]. by apply (Hk n).
    + intros [Hf _]. by apply (Hk n).
    + destruct Hn as [->|Hn]; [|by apply Hk]. by eapply Ha; eauto.
Qed.

Lemma table_step i st st' : invariant st -> proc_step i st st' ->
  forall id n, table st' !! id = Some n -> exists j t, tasks st' !! j = Some t /\
    window t = Some (id, n) /\ (n ∈ full st' \/ t = RunTaken id n).
Proof.
  intros Hi Hstep id n Hl. pose proof (inv_table st Hi) as Ht. pose proof (inv_window st Hi) as Hw.
  pose proof (inv_cancel st Hi) as Hc.
  destruct Hstep; cbn [tasks table full set_task] in *; look.

  all: try (pose proof Hl as Hl0; apply Ht in Hl as (j & t & Hj & Ht' & Hor)).
  all: try match goal with H : table _ !! _ = Some _ |- _ => apply Ht in H as (j & t & Hj & Ht' & Hor) end.
  all: try (destruct (decide (i = j)) as [<-|Hne];
    [|exists j, t; rewrite lookup_insert_ne by done; split; [done|]; split; [done|]; members]).
  all: simplify_eq/=; try (by destruct Hor); try tauto.
  - exists i, (RunInserted id (next st)). rewrite lookup_insert_eq. split; [done|]. split; [done|].
    left. set_solver.
  - exists i, (RunTaken id n). rewrite lookup_insert_eq. eauto.
  - destruct Hor as [Hf|]; [left|by right]. split; [done|]. intros ->. apply Hne. by eapply Hw; eauto.
  - destruct Hor as [Hf|]; [left|by right]. split; [done|]. intros ->. by eapply Hc.
Qed.

Lemma cancel_step i st st' : invariant st -> proc_step i st st' ->
  forall j id n, tasks st' !! j = Some (CancelHolding id n) -> forall id', table st' !! id' ≠ Some n.
Proof.
  intros Hi Hstep j id n Hj id' Hl. pose proof (inv_cancel st Hi) as Hc.
  pose proof (inv_table st Hi) as Ht. pose proof (inv_window st Hi) as Hw.
  pose proof (fun k u m => not_fresh st k u m Hi) as Hn.
  destruct Hstep; cbn [tasks table set_task] in *; look; try (by eapply Hc; eauto).
  - by eapply Hn.

  - match goal with H : table _ !! id = Some n, H' : table _ !! id' = Some n |- _ =>
      apply Ht in H as (k & t & Hk & Ht1 & _); apply Ht in H' as (k' & t' & Hk' & Ht2 & _) end.
    assert (k = k') as <- by (by eapply Hw; eauto). congruence.
Qed.

Lemma reachable_invariant st : reachable st -> invariant st.
Proof.
  induction 1 as [|st st' i _ IH Hstep]; [exact invariant_new|].
  destruct (fresh_step _ _ _ IH Hstep), (alone_step _ _ _ IH Hstep).
  split; eauto using window_step, holder_step, table_step, cancel_step.
Qed.

(** ** What cancelling can do *)

(** The answer of a cancel that finds nothing, in one step or two. *)
Definition in_window (st : Procs) (id : str) : Prop :=
  exists i t n, tasks st !! i = Some t /\ window t = Some (id, n).

(** C32. However the tasks interleave, a process that a command waits for, or
    waited for to its end, is never killed; one that was killed belongs to a command
    that fails as corrupted; and a cancel of a command that is not just being
    started removes nothing and answers that there is no such process. *)
Theorem cancel_only_while_starting (st st' : Procs) (i : nat) (target : str) :
  reachable st ->
  (forall j id n, tasks st !! j = Some (RunWaiting id n) \/ tasks st !! j = Some (RunFinished id n) ->
    n ∉ killed st) /\
  (forall j id n, n ∈ killed st -> tasks st !! j ≠ Some (RunTaken id n) /\
    forall st1, tasks st !! j = Some (RunInserted id n) -> proc_step j st st1 ->
      tasks st1 !! j = Some (RunCorrupted id n)) /\
  (tasks st !! i = Some (CancelStart target) -> ~ in_window st target -> proc_step i st st' ->
    st' = set_task i (CancelDone target false) st).
Proof.
  intros Hi%reachable_invariant. split; [|split].
  - intros j id n [Hj|Hj]; by apply (inv_alone st Hi) with (1:=Hj).
  - intros j id n Hn. split; [intros Hj; by destruct (inv_alone st Hi _ _ n Hj eq_refl)|].
    intros st1 Hj Hstep. pose proof (inv_killed st Hi n Hn) as Hf.
    destruct Hstep; simplify_eq; cbn [tasks set_task]; try congruence.
    apply lookup_insert_eq.
  - intros Ht Hw Hstep. destruct Hstep; simplify_eq; try congruence.
    match goal with H : table _ !! _ = Some _ |- _ =>
      apply (inv_table _ Hi) in H as (j & t & Hj & Hwt & _) end.
    destruct Hw. by exists j, t, n.
Qed.

(** A command that has begun to wait cannot be cancelled. *)
Lemma cancel_only_while_starting_witness :
  let st := mkProcs ∅ ∅ ∅ (<[1 := CancelStart (lit "c")]> (<[0 := RunWaiting (lit "c") 0]> ∅)) 1 in
  reachable st /\ forall st', proc_step 1 st st' ->
    st' = set_task 1 (CancelDone (lit "c") false) st.
Proof.
  intros st.
  pose proof (reach_step _ _ 0 reach_new (s_new_run 0 procs_new (lit "c") eq_refl)) as R1.
  let s := match type of R1 with reachable ?s => s end in
    pose proof (reach_step s _ 0 R1 (s_insert 0 s (lit "c") eq_refl)) as R2.
  let s := match type of R2 with reachable ?s => s end in
    pose proof (reach_step s _ 0 R2 (s_take 0 s (lit "c") 0 eq_refl (elem_of_union_l _ _ _ (elem_of_singleton_2 _ _ eq_refl)))) as R3.
  let s := match type of R3 with reachable ?s => s end in
    pose proof (reach_step s _ 0 R3 (s_remove 0 s (lit "c") 0 eq_refl)) as R4.
  let s := match type of R4 with reachable ?s => s end in
    pose proof (reach_step s _ 1 R4 (s_new_cancel 1 s (lit "c") eq_refl)) as Hr.
  change (reachable st) in Hr.
  split; [exact Hr|]. intros st' Hstep.
  apply (cancel_only_while_starting st st' 1 (lit "c") Hr); [reflexivity| |exact Hstep].
  intros (j & t & n & Hj & Hw). cbn [tasks st] in Hj. look.
Defined.

(** ** Permits *)

(** The permits that running commands have of the semaphore of each session, which
    [run_command_loop] makes anew, and [ACTIVE_COMMANDS], which the process keeps.
    File commands take permits too, which only leaves fewer. *)
Record Permits := mkPermits { taken : list nat; active : nat }.

Definition MAX_CONCURRENT_COMMANDS : nat := 4.

Definition permits_new : Permits := mkPermits [] 0.

Inductive permit_step : Permits -> Permits -> Prop :=
| p_session st : permit_step st (mkPermits (taken st ++ [0]) (active st))
| p_acquire st k n : taken st !! k = Some n -> n < MAX_CONCURRENT_COMMANDS ->
    permit_step st (mkPermits (<[k := S n]> (taken st)) (S (active st)))
| p_release st k n : taken st !! k = Some (S n) ->
    permit_step st (mkPermits (<[k := n]> (taken st)) (active st - 1)).

Lemma sum_insert (l : list nat) k n m : l !! k = Some n ->
  list_sum (<[k := m]> l) + n = list_sum l + m.
Proof.
  revert k. induction l as [|x l IH]; intros [|k] Hk; simplify_eq/=; [lia|].
  specialize (IH _ Hk). lia.
Qed.

Lemma permits_invariant : forall st, rtc permit_step permits_new st ->
  active st = list_sum (taken st) /\ Forall (fun n => n <= MAX_CONCURRENT_COMMANDS) (taken st).
Proof.
  refine (rtc_ind_r _ _ _ _); [done|]. intros st st' _ Hstep [Ha Hb]. destruct Hstep as [st|st k n Hk Hn|st k n Hk]; simpl.
  - rewrite list_sum_app. simpl. split; [lia|]. apply Forall_app. split; [done|].
    constructor; [unfold MAX_CONCURRENT_COMMANDS; lia|constructor].
  - pose proof (sum_insert (taken st) k n (S n) Hk). split; [lia|].
    by apply Forall_insert.
  - pose proof (sum_insert (taken st) k (S n) n Hk). split; [lia|].
    apply Forall_insert; [done|]. pose proof (Forall_lookup_1 _ _ _ _ Hb Hk) as Hle. simpl in Hle. lia.
Qed.

(** The limit holds within a session; over all of them the commands are at most
    four for each session there was, so a reconnection allows four more beside
    those that still run. *)
Theorem permits_bounded (st : Permits) :
  rtc permit_step permits_new st ->
  active st <= MAX_CONCURRENT_COMMANDS * length (taken st).
Proof.
  intros [Ha Hb]%permits_invariant. rewrite Ha. clear Ha. unfold MAX_CONCURRENT_COMMANDS in *.
  induction Hb as [|n l Hn _ IH]; [done|]. change (list_sum (n :: l)) with (n + list_sum l).
  cbn [length]. lia.
Qed.

Lemma permits_bounded_witness : active (mkPermits [1] 1) <= 4.
Proof.
  apply (permits_bounded (mkPermits [1] 1)).
  eapply rtc_l; [exact (p_session permits_new)|].
  eapply rtc_l; [exact (p_acquire (mkPermits [0] 0) 0 0 eq_refl ltac:(unfold MAX_CONCURRENT_COMMANDS; lia))|].
  constructor.
Defined.

Lemma acquire_many k n m l : n <= MAX_CONCURRENT_COMMANDS -> l !! k = Some 0 -> n = m ->
  rtc permit_step (mkPermits l (list_sum l)) (mkPermits (<[k := m]> l) (list_sum l + m)).
Proof.
  intros Hn Hk <-. induction n as [|n IH].
  - rewrite list_insert_id by done. rewrite Nat.add_0_r. constructor.
  - eapply rtc_r; [apply IH; lia|].
    pose proof (p_acquire (mkPermits (<[k := n]> l) (list_sum l + n)) k n) as Hs. simpl in Hs.
    rewrite list_insert_insert_eq in Hs. rewrite Nat.add_succ_r. apply Hs; [|lia].
    apply list_lookup_insert_eq. by eapply lookup_lt_Some.
Qed.

(** The bound is reached: eight commands at once after one reconnection. *)
Example eight_at_once : rtc permit_step permits_new (mkPermits [4; 4] 8).
Proof.
  eapply rtc_l; [exact (p_session permits_new)|].
  etransitivity; [exact (acquire_many 0 4 4 [0] ltac:(unfold MAX_CONCURRENT_COMMANDS; lia) eq_refl eq_refl)|].
  eapply rtc_l; [exact (p_session (mkPermits [4] 4))|].
  exact (acquire_many 1 4 4 [4; 0] ltac:(unfold MAX_CONCURRENT_COMMANDS; lia) eq_refl eq_refl).
Qed.
