(* ===== verification/Session.v ===== *)
(** * The gateway and its workers together

    Puts the worker's handlers ([Worker]) at the other end of the gateway's
    channels ([Registry]) and of its registration calls ([WorkerAuth]), and adds
    what is between: the task that takes in a worker's messages
    ([bastion-gateway/src/registry.rs], [pipeline_events.rs]) and the dispatch of
    the providers ([TaskExecutor] of [bastion-infrastructure/src/provider/
    podman.rs]; docker.rs, gvisor.rs and firecracker.rs repeat it). *)

From S2P Require Import Prelude Sandbox Command SandboxRepo WorkerLink Hub Registry WorkerAuth Worker.

(** ** Messages on the wire *)

(** What of a worker's message the gateway reads. *)
Definition wire (p : Payload) : WorkerPayload :=
  match p with
  | Ready token _ => PReady token
  | Stdout d _ => PStdout d
  | Stderr d _ => PStderr d
  | Exit c d t _ => PExit c d t
  | FileChunk d _ l _ _ => PFileChunk d l
  | FileList es =>
      PFileList (map (fun e => mkFileListEntry (de_path e) (de_is_directory e) (de_size_bytes e)
        (de_permissions e) (de_modified_epoch_ms e)) es)
  | Error e _ _ => PError e
  | Ack _ | Pong _ _ _ | ShutdownAck _ _ | CancelAck _ _ => POther
  end.

(** A command of the gateway as the worker decodes it: pipelines are not part of
    its protocol. *)
Definition received (p : GatewayPayload) : option CommandPayload :=
  match p with
  | GRun c args dir env t => Some (CRun (mkRun c args dir env t))
  | GRead path o l => Some (CRead path o l)
  | GWrite path mode size content => Some (CWrite (mkWrite path mode size 0 1 content))
  | GList dir r d => Some (CList dir r d)
  | GRunPipeline _ _ _ _ _ | GCancelPipeline _ _ => None
  end.

(** ** The providers *)

Section Providers.
Context {W : Type} `{ENV : !Environment W, LINK : !Registry.WorkerLink W}.

(** What every method of the [TaskExecutor] starts with: the router, when there
    is one and it knows a worker under the id of the sandbox. *)
Definition via_worker {A} (router : bool) (id : str)
    (route : RegistryService -> W -> result DomainError A * RegistryService * W)
    (st : RegistryService) (w : W) : result DomainError A * RegistryService * W :=
  if router && is_worker_connected id st then route st w else (Err (WorkerNotConnected id), st, w).

Definition exec_run_command (router : bool) (id : str) (spec : CommandSpec) :=
  via_worker router id
    (route_run_command id (cs_command spec) (cs_args spec) (default (lit "/workspace") (cs_working_dir spec))
       (cs_env_vars spec) (default 30000%Z (cs_timeout_ms spec))).
Definition exec_run_command_stream (router : bool) (id : str) (spec : CommandSpec) :=
  via_worker router id
    (route_run_command_stream id (cs_command spec) (cs_args spec)
       (default (lit "/workspace") (cs_working_dir spec)) (cs_env_vars spec)
       (default 30000%Z (cs_timeout_ms spec))).
Definition exec_write_file (router : bool) (id path : str) (content : bytes) :=
  via_worker router id (route_write_file id path content).
Definition exec_read_file (router : bool) (id path : str) :=
  via_worker router id (route_read_file id path).
Definition exec_list_files {DT} (from_timestamp_millis : Z -> option DT) (router : bool) (id dir : str) :=
  via_worker router id (route_list_files from_timestamp_millis id dir).
End Providers.

(** ** The messages of a connected worker *)

Record PipelineEvent := mkPipelineEvent {
  pe_run_id : str; pe_event_type : str; pe_stage_name : str; pe_step_name : str; pe_step_index : Z;
  pe_payload : bytes; pe_timestamp_ms : Z; pe_labels : gmap str str
}.

Abbreviation PipelineEventStore := (gmap str (list PipelineEvent)).

Definition events_push (e : PipelineEvent) (s : PipelineEventStore) : PipelineEventStore :=
  <[pe_run_id e := default [] (s !! pe_run_id e) ++ [e]]> s.
Definition get_events (s : PipelineEventStore) (run_id : str) : list PipelineEvent :=
  default [] (s !! run_id).

(** What the task does with a message besides forwarding it. *)
Inductive side_payload :=
| SideHealth (health : option HealthReport)
| SideEvent (e : PipelineEvent)
| SideNone.

Definition MB : float := f64_of_Z 1048576.

(** [update_heartbeat_bridge] with a bridge; [now] is [Utc::now().timestamp()]. *)
Definition resources_of_health (id : str) (health : HealthReport) (now : Z) : WorkerResources :=
  mkWorkerResources id (hr_cpu_usage_percent health)
    (f64_div (f64_of_Z (hr_memory_used_bytes health)) MB)
    (f64_div (f64_of_Z (hr_memory_total_bytes health)) MB)
    f_zero (hr_load_average_1m health) (as_u64 (hr_uptime_seconds health)) now.

(** What the task keeps up: the messages handed to the channels of pending
    commands, the bridge, when there is one, and the events. *)
Record Intake := mkIntake {
  in_forwarded : list (str * side_payload); in_bridge : option HeartbeatBridge;
  in_events : PipelineEventStore
}.

(** A message as it comes: its command, its payload, the clock, and the commands
    that wait at that moment. *)
Abbreviation Arrival := (str * side_payload * Z * gset str)%type.

(** One message. *)
Definition intake_step (id : str) (m : Arrival) (st : Intake) : Intake :=
  let '(command_id, p, now, pending) := m in
  let forwarded :=
    if negb (str_eqb command_id []) && bool_decide (command_id ∈ pending)
    then in_forwarded st ++ [(command_id, p)] else in_forwarded st in
  let bridge :=
    match p with
    | SideHealth (Some h) => option_map (update_resources (resources_of_health id h now)) (in_bridge st)
    | _ => in_bridge st
    end in
  let events := match p with SideEvent e => events_push e (in_events st) | _ => in_events st end in
  mkIntake forwarded bridge events.

(** The whole stream; when it ends the worker's resources are forgotten. *)
Definition intake (id : str) (ms : list Arrival) (st : Intake) : Intake :=
  let st := fold_left (fun st m => intake_step id m st) ms st in
  mkIntake (in_forwarded st) (option_map (fun b => snd (remove_resources id b)) (in_bridge st))
    (in_events st).

(** ** A command and its answers *)

Section Delivered.
Context {W : Type} `{ENV : !Environment W, LINK : !Registry.WorkerLink W}.

Definition message (cid : str) (p : Payload) : WorkerMessage := mkMessage cid (Some (wire p)).

(** The command gets through under the id [cid] and the worker answers it with
    [answers], after which it stays silent until the timeout. *)
Definition delivered (cid id : str) (payload : GatewayPayload) (timeout_ms : Z) (answers : list Payload)
    (st : RegistryService) (w : W) : Prop :=
  exists h st1 w1 w2 w3 w4,
    generate_id w = (cid, w1) /\
    acquire id st w1 = (inr h, st1, w2) /\
    link_send (cmd_tx h) (Registry.mkCommand cid [] payload) w2 = (true, w3) /\
    link_replies cid timeout_ms w3 = (map (fun p => Ok (message cid p)) answers, TimedOut, w4).

(** The answers up to the one that ends a command. *)
Fixpoint up_to_terminal (ps : list Payload) : option (list Payload) :=
  match ps with
  | [] => None
  | p :: l =>
      if is_terminal_message (message [] p) then Some [p] else option_map (cons p) (up_to_terminal l)
  end.

Lemma collect_answers cid ps acc :
  collect_loop (map (fun p => Ok (message cid p)) ps) TimedOut acc =
  option_map (fun l => Ok (acc ++ map (message cid) l)) (up_to_terminal ps).
Proof.
  revert acc. induction ps as [|p ps IH]; intros acc; [done|]. cbn [map collect_loop up_to_terminal].
  change (is_terminal_message (message cid p)) with (is_terminal_message (message [] p)).
  destruct (is_terminal_message (message [] p)); [done|]. rewrite IH.
  destruct (up_to_terminal ps); [|done]. cbn [option_map map]. by rewrite <- app_assoc.
Qed.

(** What a routed command comes to. *)
Lemma routed_delivered {A} cid id payload timeout_ms answers st w (k : list WorkerMessage -> result DomainError A) :
  delivered cid id payload timeout_ms answers st w ->
  exists w1, generate_id w = (cid, w1) /\
  fst (fst (routed id (Registry.mkCommand cid [] payload) timeout_ms k st w1)) =
    match up_to_terminal answers with
    | Some ps => k (map (message cid) ps)
    | None => Err (internal (CommandTimeout cid))
    end.
Proof.
  intros (h & st1 & w1 & w2 & w3 & w4 & Hid & Hacq & Hsend & Hrep). exists w1. split; [done|].
  unfold routed, collect_responses. cbn [gc_command_id]. rewrite Hacq, Hsend. cbn [negb].
  rewrite Hrep, collect_answers. destruct (up_to_terminal answers); [done|].
  simpl. by destruct (handle_failure _ _ _).
Qed.

(** C6. Running a command through the worker gives what its process gives, with
    the signals as -1: the arguments of the specification reach nobody, only the
    command text does, and the worker sets no limit to the time. *)
Theorem run_end_to_end {S} `{OS : !Os S} (cid id command : str) (args : list str) (dir : str)
    (env : gmap str str) (timeout_ms duration_ms : Z) (s : S) (st : RegistryService) (w : W) :
  let payload := GRun command args dir env (as_i64 timeout_ms) in
  let process := mkProcess command (given_dir dir) env in
  delivered cid id payload timeout_ms
    (fst (handle_run (mkRun command args dir env (as_i64 timeout_ms)) false duration_ms s)) st w ->
  fst (fst (route_run_command id command args dir env timeout_ms st w)) =
    match spawn process s with
    | Some e => Err (Internal (lit "Failed to spawn: " ++ e))
    | None =>
        match fst (wait_with_output process s) with
        | Err e => Err (Internal (lit "Failed to execute: " ++ e))
        | Ok (out, err, code) =>
            Ok (mkCommandResult (default (-1)%Z code) out err (as_u64 (as_i64 duration_ms)) false)
        end
    end.
Proof.
  intros payload process Hd. unfold route_run_command.
  destruct (routed_delivered _ _ _ _ _ _ _ (fun msgs => aggregate_run msgs run_start) Hd) as (w1 & Hw & Hrt).
  rewrite Hw. etransitivity; [exact Hrt|]. clear Hrt.
  clear Hd. unfold handle_run, execute_command.
  change (process_of (mkRun command args dir env (as_i64 timeout_ms))) with process.
  destruct (spawn process s); [done|]. destruct (wait_with_output process s) as [[[[out err] code]|e] s'];
    [|done].
  by destruct out, err; cbn; rewrite ?app_nil_r.
Qed.

(** Reading a file that does not change meanwhile gives its content; an empty
    file, which the worker answers with silence, is a timeout. *)
Theorem read_end_to_end {S} `{OS : !Os S} (cid id path c : str) (content : bytes)
    (reads : list bytes) (s : S) (st : RegistryService) (w : W) :
  delivered cid id (GRead path 0 (-1)) 30000 (handle_read path s) st w ->
  validate_path path s = Ok c -> (Z.of_nat (length content) <= i64_max)%Z ->
  file_len c s = Ok (Z.of_nat (length content)) -> open_read c s = None ->
  file_reads c s = (reads, None) -> concat reads = content -> Forall nonempty reads ->
  fst (fst (route_read_file id path st w)) =
    match content with [] => Err (internal (CommandTimeout cid)) | _ => Ok content end.
Proof.
  intros Hd Hv Hb Hl Ho Hr Hc Hn. unfold route_read_file.
  destruct (routed_delivered _ _ _ _ _ _ _ (fun msgs => aggregate_chunks msgs []) Hd) as (w1 & Hw & Hrt).
  rewrite Hw. etransitivity; [exact Hrt|]. clear Hrt.
  destruct (read_chunks_lemma path c content reads s Hv Hb Hl Ho Hr Hc Hn) as [Hcat Hrun].
  destruct content as [|x content]; [by rewrite Hrun|].
  rewrite <- Hcat. clear - Hrun. change (Ok ?l) with (Ok ([] ++ l) : result DomainError bytes).
  revert Hrun. generalize ([] : bytes), 0%Z. intros acc o Hrun. revert acc.
  induction Hrun as [d o i t|d o i t l Hrun IH]; intros acc; [cbn; by rewrite app_nil_r|].
  cbn [up_to_terminal]. simpl is_terminal_message. cbv iota.
  specialize (IH (acc ++ d)). destruct (up_to_terminal l) as [ps|]; [|done].
  cbn in IH |- *. rewrite IH. by rewrite <- app_assoc.
Qed.

(** C33. No write through the gateway succeeds: one that the worker carries out
    is answered by an acknowledgement, which does not end the command, so after
    thirty seconds it is reported as timed out; one that the worker refuses - every
    file that does not exist yet is, for its path has no canonical form - changes
    nothing, and one that fails is reported with its error. *)
Theorem write_end_to_end {S} `{OS : !Os S} (cid id path : str) (content : bytes) (s : S)
    (pending : Pending) (st : RegistryService) (w : W) :
  let req := mkWrite path 420 (Z.of_nat (length content)) 0 1 content in
  let '(answer, pending', s') := handle_write req cid pending s in
  delivered cid id (GWrite path 420 (Z.of_nat (length content)) content) 30000 [answer] st w ->
  pending' = pending /\
  match validate_path path s with
  | Err e => fst (fst (route_write_file id path content st w)) = Err (Internal e) /\ s' = s
  | Ok c =>
      match fs_write c content s with
      | (None, s1) =>
          fst (fst (route_write_file id path content st w)) = Err (internal (CommandTimeout cid)) /\
          s' = set_permissions c 420 s1
      | (Some e, s1) =>
          fst (fst (route_write_file id path content st w)) = Err (Internal (io_text e)) /\ s' = s1
      end
  end.
Proof.
  intros req. destruct (handle_write req cid pending s) as [[answer pending'] s'] eqn:Eh. intros Hd.
  unfold route_write_file.
  destruct (routed_delivered _ _ _ _ _ _ _ first_error Hd) as (w1 & Hw & Hrt). clear Hd.
  rewrite Hw.
  unfold handle_write, write_now in Eh. cbn [wq_path wq_total_chunks wq_mode wq_content req Z.eqb Pos.eqb] in Eh.
  destruct (validate_path path s) as [c|e]; [|by injection Eh as <- <- <-].
  destruct (fs_write c content s) as [[e|] s1]; by injection Eh as <- <- <-.
Qed.
End Delivered.

(** ** From the registration to the first command *)

Section Handshake.
Context `{HMAC : HmacSha256} (gateway_version : str).

(** A session of the worker of [id], started with [secret], up to the token; with
    the state it leaves in the gateway. *)
Definition open_session (id secret : str) (nonce : bytes) (ts : N) (uuid : str) (st : AuthState) :
    handshake * AuthState :=
  let '(r, st) := register gateway_version (mkRegister id nonce) ts st in
  match on_register secret nonce r with
  | Prove proof =>
      let '(r, st) := challenge_response gateway_version (mkProof id proof) uuid st in
      (on_challenge r, st)
  | h => (h, st)
  end.

(** The token of a session that is let in. *)
Definition session_token_of (id : str) (uuid : str) (st : AuthState) : str :=
  match default [] (get_secret id st) with [] => lit "token-" ++ id | _ => uuid end.

(** Whether the gateway lets in a worker with this secret. *)
Definition lets_in (id secret : str) (st : AuthState) : Prop :=
  match default [] (get_secret id st) with
  | [] => True
  | stored =>
      exists key k k', new_from_slice (utf8 secret) = Some k /\ new_from_slice (utf8 key) = Some k' /\
        (if pre_shared_key_enabled (auth_config st) then key ∈ pre_shared_keys (auth_config st)
         else key = stored) /\ forall m, mac_tag k m = mac_tag k' m
  end.

Lemma open_session_token id secret nonce ts uuid st :
  lets_in id secret st ->
  let '(h, st') := open_session id secret nonce ts uuid st in
  h = Token (session_token_of id uuid st) /\ secrets st' = secrets st.
Proof.
  intros Hin. unfold open_session, session_token_of, register. cbn [rq_sandbox_id rq_worker_nonce].
  unfold lets_in in Hin. destruct (default [] (get_secret id st)) as [|c stored] eqn:Es; [done|].
  destruct Hin as (key & k & k' & Hk & Hk' & Hkey & Htag).
  unfold on_register, compute_hmac_proof. cbn [rr_status rr_gateway_nonce response].
  rewrite Hk. cbn [option_map]. unfold challenge_response. cbn [cp_sandbox_id cp_proof pending_challenges auth_config].
  rewrite lookup_insert_eq. cbn [worker_nonce gateway_nonce].
  assert (Hv : forall kk kk' m, new_from_slice (utf8 kk) = Some kk' -> mac_tag k m = mac_tag kk' m ->
    bool_decide (mac_tag kk' m = mac_tag k m) = true) by (intros; by apply bool_decide_eq_true).
  destruct (pre_shared_key_enabled (auth_config st)).
  - destruct (pre_shared_keys (auth_config st)) as [|k0 keys] eqn:Ek; [by apply elem_of_nil in Hkey|].
    unfold verify_hmac_proof_against_keys.
    rewrite (proj2 (existsb_exists _ (k0 :: keys))); [done|].
    exists key. split; [by apply list_elem_of_In|]. unfold verify_hmac_proof. rewrite Hk'. by eapply Hv.
  - subst key. unfold get_secret in *. cbn [secrets]. destruct (secrets st !! id) as [sec|]; [|done].
    cbn in Es. subst sec. unfold verify_hmac_proof. rewrite Hk'. by rewrite (Hv _ _ _ Hk').
Qed.
End Handshake.

Section Unreachable.
Context `{HMAC : HmacSha256} (gateway_version : str).
Context {W : Type} `{ENV : !Environment W, LINK : !Registry.WorkerLink W}.

(** C25. A worker that the gateway lets in, whose session is complete, and that has
    sent its first message, is connected under its session token; under the id of
    its sandbox, by which every provider looks for it, it is not: the next command
    for the sandbox is answered with [WorkerNotConnected], unless a worker was
    connected under that id before.  Only a sandbox named like the token would be
    found. *)
Theorem session_unreachable (id secret uuid workdir : str) (nonce : bytes) (ts : N)
    (tx cell : nat) (now : Z) (auth : AuthState) (st : RegistryService) (spec : CommandSpec) (w : W) :
  lets_in id secret auth -> session_token_of id uuid auth ≠ id -> workers st !! id = None ->
  let '(h, _) := open_session gateway_version id secret nonce ts uuid auth in
  exists token, h = Token token /\
    let '(cid, ready) := ready_signal token workdir in
    let '(r, st') := command_stream (Some (Ok (message cid ready))) tx cell now st in
    r = Ok token /\ is_worker_connected token st' = true /\ is_worker_connected id st' = false /\
    exec_run_command true id spec st' w = (Err (WorkerNotConnected id), st', w).
Proof.
  intros Hin Hne Hw. pose proof (open_session_token gateway_version id secret nonce ts uuid auth Hin) as Ho.
  destruct (open_session gateway_version id secret nonce ts uuid auth) as [h auth'].
  destruct Ho as [-> _]. exists (session_token_of id uuid auth). split; [done|].
  revert Hne. generalize (session_token_of id uuid auth). intros token Hne. cbn.
  unfold is_worker_connected. cbn. rewrite lookup_insert_eq, lookup_insert_ne, Hw by done.
  repeat (split; [done|]). unfold exec_run_command, via_worker, is_worker_connected. cbn.
  by rewrite lookup_insert_ne, Hw by done.
Qed.
End Unreachable.

(** ** What the intake keeps *)

(** The last report of a stream, and when it came. *)
Fixpoint last_health (ms : list Arrival) (acc : option (HealthReport * Z)) :
    option (HealthReport * Z) :=
  match ms with
  | [] => acc
  | (_, SideHealth (Some h), now, _) :: ms' => last_health ms' (Some (h, now))
  | _ :: ms' => last_health ms' acc
  end.

Definition event_of (m : Arrival) : option PipelineEvent :=
  match m with (_, SideEvent e, _, _) => Some e | _ => None end.

(** The message of a command that waits when it comes. *)
Definition is_awaited (m : Arrival) : bool :=
  negb (str_eqb m.1.1.1 []) && bool_decide (m.1.1.1 ∈ m.2).

(** What of a message is handed over. *)
Definition handed_over (m : Arrival) : str * side_payload := m.1.1.

Lemma events_push_get e s run_id :
  get_events (events_push e s) run_id =
  get_events s run_id ++ if str_eqb (pe_run_id e) run_id then [e] else [].
Proof.
  unfold get_events, events_push. destruct (str_eqb (pe_run_id e) run_id) eqn:E.
  - apply str_eqb_eq in E as <-. by rewrite lookup_insert_eq.
  - rewrite lookup_insert_ne, app_nil_r; [done|]. intros Heq. by rewrite Heq, str_eqb_refl in E.
Qed.

(** C26. Through any stream of messages of a worker, and however the table of
    waiting commands changes between them, those that belong to a command that
    waits when they come are handed over in order, the bridge holds for the worker
    what its last report says, and the events of a run are kept in the order in
    which they came; other workers and other runs are not touched. *)
Theorem intake_spec (id : str) (ms : list Arrival) (b : HeartbeatBridge) (events : PipelineEventStore) :
  let st := fold_left (fun st m => intake_step id m st) ms (mkIntake [] (Some b) events) in
  in_forwarded st = map handed_over (List.filter is_awaited ms) /\
  (forall run_id, get_events (in_events st) run_id =
     get_events events run_id ++ List.filter (fun e => str_eqb (pe_run_id e) run_id) (omap event_of ms)) /\
  exists b', in_bridge st = Some b' /\
    get_resources b' id = match last_health ms None with
                          | Some (h, now) => Some (resources_of_health id h now)
                          | None => get_resources b id
                          end /\
    forall other, other ≠ id -> get_resources b' other = get_resources b other.
Proof.
  cbv zeta.
  assert (Hgen : forall fw acc b0 ev,
    get_resources b0 id = match acc with Some (h, now) => Some (resources_of_health id h now)
                                       | None => get_resources b id end ->
    (forall other, other ≠ id -> get_resources b0 other = get_resources b other) ->
    let st := fold_left (fun st m => intake_step id m st) ms (mkIntake fw (Some b0) ev) in
    in_forwarded st = fw ++ map handed_over (List.filter is_awaited ms) /\
    (forall run_id, get_events (in_events st) run_id =
       get_events ev run_id ++ List.filter (fun e => str_eqb (pe_run_id e) run_id) (omap event_of ms)) /\
    exists b', in_bridge st = Some b' /\
      get_resources b' id = match last_health ms acc with
                            | Some (h, now) => Some (resources_of_health id h now)
                            | None => get_resources b id
                            end /\
      forall other, other ≠ id -> get_resources b' other = get_resources b other).
  { induction ms as [|[[[cid p] now] pending] ms IH]; intros fw acc b0 ev Hb Ho.
    - simpl. rewrite app_nil_r. split; [done|]. split; [intros; by rewrite app_nil_r|]. by exists b0.
    - cbn [fold_left]. unfold intake_step at 2. cbn [in_forwarded in_bridge in_events].
      set (fw' := if _ : bool then fw ++ [(cid, p)] else fw).
      assert (Hfw : fw' ++ map handed_over (List.filter is_awaited ms) =
        fw ++ map handed_over (List.filter is_awaited ((cid, p, now, pending) :: ms))).
      { unfold fw'. cbn [List.filter]. unfold is_awaited at 2. cbn [fst].
        destruct (negb _ && _); [|done]. by rewrite <- app_assoc. }
      destruct p as [[h|]|e|].
      + specialize (IH fw' (Some (h, now)) (update_resources (resources_of_health id h now) b0) ev).
        rewrite Hfw in IH. apply IH.
        * unfold get_resources. cbn. apply lookup_insert_eq.
        * intros other Hne. unfold get_resources. cbn. rewrite lookup_insert_ne by done. by apply Ho.
      + specialize (IH fw' acc b0 ev Hb Ho). by rewrite Hfw in IH.
      + specialize (IH fw' acc b0 (events_push e ev) Hb Ho). rewrite Hfw in IH.
        destruct IH as (H1 & H2 & H3). split; [done|]. split; [|done].
        intros run_id. cbn in H2 |- *. rewrite H2, events_push_get, <- app_assoc.
        by destruct (str_eqb (pe_run_id e) run_id).
      + specialize (IH fw' acc b0 ev Hb Ho). by rewrite Hfw in IH. }
  exact (Hgen [] None b events eq_refl (fun _ _ => eq_refl)).
Qed.

(** ** Concrete inputs *)

#[local] Instance s_env : Environment unit := {|
  instant_now := fun w => (0%Z, w); generate_id := fun w => (lit "c1", w)
|}.

(** A link whose worker answers every command with the same messages. *)
Definition s_link (answers : list Payload) : Registry.WorkerLink unit := {|
  link_send := fun _ _ w => (true, w);
  link_replies := fun cid _ w => (map (fun p => Ok (message cid p)) answers, TimedOut, w);
  link_is_closed := fun _ _ => false
|}.

(** A gateway to which a worker named s1 is connected. *)
Definition s_registry : RegistryService :=
  snd (command_stream (Some (Ok (message [] (Ready (lit "s1") (lit "/workspace"))))) 0 0 0 registry_new).

Lemma s_delivered payload timeout_ms answers :
  delivered (LINK:=s_link answers) (lit "c1") (lit "s1") payload timeout_ms answers s_registry tt.
Proof. by exists (mkHandle 0 (lit "s1") 0), (snd (fst (acquire (lit "s1") s_registry tt))), tt, tt, tt, tt. Qed.

Lemma run_end_to_end_witness :
  let req := mkRun (lit "echo") [lit "hi"] [] ∅ 1000 in
  fst (fst (route_run_command (LINK:=s_link (fst (handle_run (OS:=mem_os) req false 7 ∅)))
    (lit "s1") (lit "echo") [lit "hi"] [] ∅ 1000 s_registry tt)) =
  Ok (mkCommandResult 0 [104; 105]%N [] 7 false).
Proof.
  intros req. apply (run_end_to_end (OS:=mem_os) (LINK:=s_link (fst (handle_run (OS:=mem_os) req false 7 ∅)))
    (lit "c1") (lit "s1") (lit "echo") [lit "hi"] [] ∅ 1000 7 ∅ s_registry tt).
  apply s_delivered.
Defined.

Lemma read_end_to_end_witness :
  let file : gmap str bytes := {[lit "/tmp/a" := [1; 2]%N]} in
  let empty : gmap str bytes := {[lit "/tmp/a" := []]} in
  fst (fst (route_read_file (LINK:=s_link (handle_read (OS:=mem_os) (lit "/tmp/a") file))
    (lit "s1") (lit "/tmp/a") s_registry tt)) = Ok [1; 2]%N /\
  fst (fst (route_read_file (LINK:=s_link (handle_read (OS:=mem_os) (lit "/tmp/a") empty))
    (lit "s1") (lit "/tmp/a") s_registry tt)) = Err (internal (CommandTimeout (lit "c1"))).
Proof.
  intros file empty. split.
  - apply (read_end_to_end (OS:=mem_os) (LINK:=s_link (handle_read (OS:=mem_os) (lit "/tmp/a") file))
      (lit "c1") (lit "s1") (lit "/tmp/a") (lit "/tmp/a") [1; 2]%N [[1; 2]%N] file s_registry tt);
      try reflexivity; [apply s_delivered|by vm_compute|by constructor].
  - apply (read_end_to_end (OS:=mem_os) (LINK:=s_link (handle_read (OS:=mem_os) (lit "/tmp/a") empty))
      (lit "c1") (lit "s1") (lit "/tmp/a") (lit "/tmp/a") [] [] empty s_registry tt);
      try reflexivity; [apply s_delivered|by vm_compute|by constructor].
Defined.

Lemma write_end_to_end_witness :
  let file : gmap str bytes := {[lit "/tmp/a" := []]} in
  fst (fst (route_write_file (LINK:=s_link [Ack Received]) (lit "s1") (lit "/tmp/a") [1; 2]%N s_registry tt))
    = Err (internal (CommandTimeout (lit "c1"))) /\
  fst (fst (route_write_file
    (LINK:=s_link [refused (lit "Failed to canonicalize path '/tmp/b': No such file or directory (os error 2)")])
    (lit "s1") (lit "/tmp/b") [1; 2]%N s_registry tt))
    = Err (Internal (lit "Failed to canonicalize path '/tmp/b': No such file or directory (os error 2)")).
Proof.
  intros file. split.
  - pose proof (write_end_to_end (OS:=mem_os) (LINK:=s_link [Ack Received]) (lit "c1") (lit "s1") (lit "/tmp/a")
      [1; 2]%N file ∅ s_registry tt) as Hw.
    exact (proj1 (proj2 (Hw (s_delivered _ _ _)))).
  - pose proof (write_end_to_end (OS:=mem_os) (LINK:=s_link
      [refused (lit "Failed to canonicalize path '/tmp/b': No such file or directory (os error 2)")])
      (lit "c1") (lit "s1") (lit "/tmp/b") [1; 2]%N file ∅ s_registry tt) as Hw.
    exact (proj1 (proj2 (Hw (s_delivered _ _ _)))).
Defined.

(** A gateway that stores the secret of the worker's sandbox. *)
Definition s_auth : AuthState := set_secret (lit "s9") (lit "key") (auth_new (mkAuthConfig false [])).

Lemma session_unreachable_witness :
  let '(h, _) := open_session (HMAC:=toy_hmac) (lit "0.1.0") (lit "s9") (lit "key") [1%N] 5 (lit "uuid") s_auth in
  h = Token (lit "uuid") /\
  exec_run_command (LINK:=s_link []) true (lit "s9") (CommandSpec_new (lit "ls"))
    (snd (command_stream (Some (Ok (message [] (Ready (lit "uuid") (lit "/workspace"))))) 1 1 0 s_registry)) tt
    = (Err (WorkerNotConnected (lit "s9")),
       snd (command_stream (Some (Ok (message [] (Ready (lit "uuid") (lit "/workspace"))))) 1 1 0 s_registry), tt).
Proof.
  assert (Hin : lets_in (HMAC:=toy_hmac) (lit "s9") (lit "key") s_auth).
  { unfold lets_in. vm_compute. by exists [107; 101; 121]%N, [107; 101; 121]%N, [107; 101; 121]%N. }
  pose proof (session_unreachable (HMAC:=toy_hmac) (LINK:=s_link []) (lit "0.1.0") (lit "s9") (lit "key") (lit "uuid")
    (lit "/workspace") [1%N] 5 1 1 0 s_auth s_registry (CommandSpec_new (lit "ls")) tt Hin) as Hs.
  specialize (Hs ltac:(by vm_compute) eq_refl).
  destruct (open_session _ _ _ _ _ _ _) as [h auth'] eqn:Eo.
  destruct Hs as (token & -> & Hs).
  assert (token = lit "uuid") as -> by (vm_compute in Eo |- *; congruence).
  split; [done|]. cbn [ready_signal] in Hs.
  destruct (command_stream _ _ _ _ _) as [r st']. apply Hs.
Defined.
