(* ===== verification/Gateway.v ===== *)
(** * The state of the gateway

    Models [bastion-gateway/src/server.rs] and [sandbox_tools_helpers.rs]: the
    maps a [BastionGateway] keeps between calls, its two rate limiters, the
    resolution of providers and secrets and the text of a progress message.

    A tool is an action over this state and the external world; [None] as its
    outcome is a call that panics or never returns.  The concurrency of calls
    is in [Streams]; here a call runs to its end.  The answer of a tool is the
    [serde_json] value whose text is returned.  The texts of [base64], of
    [chrono]'s RFC 3339 and of the serialized facts of an enrichment come from
    third-party code and are arguments. *)

From S2P Require Import Prelude Utf8 Sandbox Command SandboxRepo Pool ProviderTypes Normalizer WorkerLink Orientation Experience Fmt Catalog Pipeline Extractors RunStore Adapter Hub Toolchain UseCases Readiness.

(** ** Actions *)

Section Action.
Context {G W : Type}.

Definition act (A : Type) : Type := G -> W -> option (A * G * W).

Definition ret {A} (a : A) : act A := fun g w => Some (a, g, w).
Definition bind {A B} (m : act A) (k : A -> act B) : act B :=
  fun g w => match m g w with Some (a, g, w) => k a g w | None => None end.
Definition world {A} (f : W -> A * W) : act A := fun g w => let '(a, w) := f w in Some (a, g, w).
(** An operation that may panic. *)
Definition world_or_panic {A} (f : W -> option (A * W)) : act A :=
  fun g w => match f w with Some (a, w) => Some (a, g, w) | None => None end.
Definition or_panic {A} (o : option A) : act A :=
  fun g w => match o with Some a => Some (a, g, w) | None => None end.
Definition gets {A} (f : G -> A) : act A := fun g w => Some (f g, g, w).
Definition modify (f : G -> G) : act unit := fun g w => Some (tt, f g, w).
End Action.
Arguments act : clear implicits.

Notation "'let!' x := m 'in' k" := (bind m (fun x => k))
  (at level 10, x pattern, m at level 200, k at level 200, only parsing) : bastion_scope.
Notation "'do!' m ; k" := (bind m (fun _ => k))
  (at level 10, m at level 200, k at level 200, only parsing) : bastion_scope.

Lemma bind_ret {G W A B} (a : A) (k : A -> act G W B) : bind (ret a) k = k a.
Proof. reflexivity. Qed.

(** ** Rate limits *)

(** [RateLimiter]: a token bucket, the same computation as the worker's. *)
Abbreviation RateLimiter := TokenBucket.
Definition RateLimiter_new (max rate : float) (now : Z) : RateLimiter := mkBucket max max rate now.
Definition limiter_try_consume (now : Z) (l : RateLimiter) : bool * RateLimiter :=
  let elapsed := as_secs_f64 (instant_sub now (last_refill l)) in
  let t := f64_min (f64_add (tokens l) (f64_mul elapsed (refill_rate l))) (max_tokens l) in
  if f_ge t (f64_of_Z 1) then (true, mkBucket (f64_sub t (f64_of_Z 1)) (max_tokens l) (refill_rate l) now)
  else (false, mkBucket t (max_tokens l) (refill_rate l) now).

Record PerClientRateLimiter := mkPerClient {
  pc_buckets : gmap str RateLimiter; pc_max_tokens : float; pc_refill_rate : float; pc_max_clients : nat
}.

Definition PerClient_new (max rate : float) (max_clients : nat) : PerClientRateLimiter :=
  mkPerClient ∅ max rate max_clients.

Definition put_bucket (key : str) (l : RateLimiter) (p : PerClientRateLimiter) : PerClientRateLimiter :=
  mkPerClient (<[key := l]> (pc_buckets p)) (pc_max_tokens p) (pc_refill_rate p) (pc_max_clients p).

Section Limits.
Context {W : Type} `{ENV : !Environment W}.

(** When there are too many clients, an entry of the iterator is alive while
    [remove] asks for the lock of the same shard: the call waits for itself. *)
Definition client_try_consume (key : str) (p : PerClientRateLimiter) (w : W) :
    option (bool * PerClientRateLimiter * W) :=
  if (pc_max_clients p <=? size (pc_buckets p)) && negb (bool_decide (pc_buckets p = ∅)) then None
  else
    let '(bucket, w) :=
      match pc_buckets p !! key with
      | Some b => (b, w)
      | None => let '(now, w) := instant_now w in
                (RateLimiter_new (pc_max_tokens p) (pc_refill_rate p) now, w)
      end in
    let '(now, w) := instant_now w in
    let '(ok, bucket) := limiter_try_consume now bucket in
    Some (ok, put_bucket key bucket p, w).
End Limits.

(** ** State *)

Inductive SyncBackend := SyncTar | SyncRsync | SyncPodmanCp | SyncAuto.

#[export] Instance SyncBackend_eq_dec : EqDecision SyncBackend.
Proof. solve_decision. Defined.

#[export] Instance json_values : JsonValue :=
  {| json := json_value; json_null := JNull; json_empty_object := JObj [] |}.

Section Gateway.
Context `{CH : Chrono} {W : Type} `{RE : RegexCaptures} `{ORDER : HashOrder} `{LOWER : Lowercase}.
Context `{REPO : !@SandboxRepository CH W} `{ENV : !Environment W} `{SEC : !SecretResolver W}.

(** What a [BastionGateway] is built with and never changes. *)
Record Config := mkGwConfig {
  cf_providers : @Providers CH W;
  cf_pool_provider : @Provider CH W;  (** the provider the pool manager was given *)
  cf_capabilities : gmap str CapabilityConfig;
  cf_doctors : option DoctorRegistry;
  cf_sync_backend : SyncBackend;
  cf_enrichment_enabled : bool;
  cf_experience_store : option (ExperienceRecord -> W -> result DomainError unit * W)
}.

(** What changes.  [gw_metrics_hub] is the [HeartbeatBridge] of the hub. *)
Record Gateway := mkGateway {
  gw_pool : option (@PoolManager CH);
  gw_metrics : GatewayMetrics;
  gw_metrics_hub : option HeartbeatBridge;
  gw_artifact_catalog : gmap str CatalogEntry;
  gw_prepared_environments : gmap str (gmap str str);
  gw_last_env_ref : gmap str str;
  gw_rate_limiter : RateLimiter;
  gw_per_client : PerClientRateLimiter;
  gw_enrichment_adapter : option Adapter;
  gw_cancel_tokens : gmap str nat;  (** the cell of the flag *)
  gw_flags : list bool              (** the cells, one per streamed command *)
}.

Definition set_pool (p : @PoolManager CH) (g : Gateway) : Gateway :=
  mkGateway (Some p) (gw_metrics g) (gw_metrics_hub g) (gw_artifact_catalog g)
    (gw_prepared_environments g) (gw_last_env_ref g) (gw_rate_limiter g) (gw_per_client g)
    (gw_enrichment_adapter g) (gw_cancel_tokens g) (gw_flags g).
Definition on_metrics (f : GatewayMetrics -> GatewayMetrics) (g : Gateway) : Gateway :=
  mkGateway (gw_pool g) (f (gw_metrics g)) (gw_metrics_hub g) (gw_artifact_catalog g)
    (gw_prepared_environments g) (gw_last_env_ref g) (gw_rate_limiter g) (gw_per_client g)
    (gw_enrichment_adapter g) (gw_cancel_tokens g) (gw_flags g).
Definition set_hub (b : option HeartbeatBridge) (g : Gateway) : Gateway :=
  mkGateway (gw_pool g) (gw_metrics g) b (gw_artifact_catalog g)
    (gw_prepared_environments g) (gw_last_env_ref g) (gw_rate_limiter g) (gw_per_client g)
    (gw_enrichment_adapter g) (gw_cancel_tokens g) (gw_flags g).
Definition set_catalog (c : gmap str CatalogEntry) (g : Gateway) : Gateway :=
  mkGateway (gw_pool g) (gw_metrics g) (gw_metrics_hub g) c
    (gw_prepared_environments g) (gw_last_env_ref g) (gw_rate_limiter g) (gw_per_client g)
    (gw_enrichment_adapter g) (gw_cancel_tokens g) (gw_flags g).
Definition put_prepared (env_ref : str) (env : gmap str str) (g : Gateway) : Gateway :=
  mkGateway (gw_pool g) (gw_metrics g) (gw_metrics_hub g) (gw_artifact_catalog g)
    (<[env_ref := env]> (gw_prepared_environments g)) (gw_last_env_ref g) (gw_rate_limiter g)
    (gw_per_client g) (gw_enrichment_adapter g) (gw_cancel_tokens g) (gw_flags g).
Definition put_last_env_ref (id env_ref : str) (g : Gateway) : Gateway :=
  mkGateway (gw_pool g) (gw_metrics g) (gw_metrics_hub g) (gw_artifact_catalog g)
    (gw_prepared_environments g) (<[id := env_ref]> (gw_last_env_ref g)) (gw_rate_limiter g)
    (gw_per_client g) (gw_enrichment_adapter g) (gw_cancel_tokens g) (gw_flags g).
Definition set_limits (l : RateLimiter) (p : PerClientRateLimiter) (g : Gateway) : Gateway :=
  mkGateway (gw_pool g) (gw_metrics g) (gw_metrics_hub g) (gw_artifact_catalog g)
    (gw_prepared_environments g) (gw_last_env_ref g) l p (gw_enrichment_adapter g) (gw_cancel_tokens g) (gw_flags g).
Definition set_adapter (a : Adapter) (g : Gateway) : Gateway :=
  mkGateway (gw_pool g) (gw_metrics g) (gw_metrics_hub g) (gw_artifact_catalog g)
    (gw_prepared_environments g) (gw_last_env_ref g) (gw_rate_limiter g) (gw_per_client g) (Some a)
    (gw_cancel_tokens g) (gw_flags g).

Definition set_tokens (tokens : gmap str nat) (flags : list bool) (g : Gateway) : Gateway :=
  mkGateway (gw_pool g) (gw_metrics g) (gw_metrics_hub g) (gw_artifact_catalog g)
    (gw_prepared_environments g) (gw_last_env_ref g) (gw_rate_limiter g) (gw_per_client g)
    (gw_enrichment_adapter g) tokens flags.

(** [BastionGateway::new]: the clock is read for the global limiter. *)
Definition BastionGateway_new (pool : option PoolManager) (metrics : GatewayMetrics)
    (hub : option HeartbeatBridge) (adapter : option Adapter) (w : W) : Gateway * W :=
  let '(now, w) := instant_now w in
  (mkGateway pool metrics hub ∅ ∅ ∅ (RateLimiter_new (f64_of_Z 500) (f64_of_Z 100) now)
     (PerClient_new (f64_of_Z 100) (f64_of_Z 20) 1000) adapter ∅ [], w).

Abbreviation tool := (act Gateway W).

Definition error_answer (text : str) : json_value := obj [("error", JStr text)]%string.
Definition error_of (e : DomainError) : json_value := error_answer (show_error e).

Definition client_limited (client_key : str) : json_value :=
  obj [("error", JStr (lit "Per-client rate limit exceeded"));
       ("hint", JStr (lit "This client is sending requests too fast. Slow down."));
       ("client", JStr client_key)]%string.
Definition globally_limited : json_value :=
  obj [("error", JStr (lit "Global rate limit exceeded"));
       ("hint", JStr (lit "The gateway is receiving too many requests overall. Reduce request frequency."))]%string.

(** The lock of the global limiter is not poisoned: nothing panics under it. *)
Definition check_per_client_rate_limit (client_key : str) : tool (option json_value) := fun g w =>
  match client_try_consume client_key (gw_per_client g) w with
  | None => None
  | Some (false, p, w) => Some (Some (client_limited client_key), set_limits (gw_rate_limiter g) p g, w)
  | Some (true, p, w) =>
      let '(now, w) := instant_now w in
      let '(ok, l) := limiter_try_consume now (gw_rate_limiter g) in
      Some (if ok then None else Some globally_limited, set_limits l p g, w)
  end.

(** The key every tool passes. *)
Definition client_key : str := lit "mcp-client".

(** The body of a limited tool. *)
Definition limited (body : tool json_value) : tool json_value :=
  let! refused := check_per_client_rate_limit client_key in
  match refused with Some answer => ret answer | None => body end.

(** ** Providers, secrets and experiences *)

Definition resolve_sandbox_provider (cfg : Config) (id : str) (w : W) : Provider * W :=
  let '(found, w) := repo_find_by_id id w in
  (match found with
   | Ok (Some sb) => resolve_provider (cf_providers cfg) (provider_id sb)
   | _ => ps_default (cf_providers cfg)
   end, w).

(** [None] is the panic of [parse_secret_ref]. *)
Fixpoint resolve_entries (env_vars : list (str * str)) (acc : gmap str str) (w : W) :
    option (result DomainError (gmap str str) * W) :=
  match env_vars with
  | [] => Some (Ok acc, w)
  | (k, v) :: rest =>
      match parse_secret_ref v with
      | None => None
      | Some (Some secret_key) =>
          match resolve_secret secret_key w with
          | (Err e, w) => Some (Err e, w)
          | (Ok secret, w) => resolve_entries rest (<[k := Command.sv_value secret]> acc) w
          end
      | Some None => resolve_entries rest (<[k := v]> acc) w
      end
  end.

Definition resolve_secrets (env_vars : gmap str str) (w : W) :
    option (result DomainError (gmap str str) * W) :=
  resolve_entries (hash_iter _ env_vars) ∅ w.

Definition record_experience (cfg : Config) (r : ExperienceRecord) : tool unit :=
  match cf_experience_store cfg with
  | None => ret tt
  | Some save => world (fun w => (tt, snd (save r w)))
  end.

(** ** Progress *)

(** The last part, or its last 200 bytes; the outer [None] is the panic. *)
Definition stdout_preview (stdout_parts : list str) : option (option str) :=
  match last stdout_parts with
  | None => Some None
  | Some s =>
      if (200 <? str_len s)%N then
        option_map (fun t => Some (t ++ lit "...")) (slice s (str_len s - 200) (str_len s))
      else Some (match s with [] => None | _ => Some s end)
  end.

Definition progress_text (preview : option str) (stderr_parts : list str) (chunk_count : Z) : str :=
  let count := chr "[" :: show_Z chunk_count ++ lit " chunks] " in
  match preview, stderr_parts with
  | Some p, [] => count ++ p
  | Some p, _ => count ++ p ++ lit " (+stderr)"
  | None, _ :: _ => count ++ lit "(stderr: " ++ show_nat (length stderr_parts) ++ lit ")"
  | None, [] => count ++ lit "processing..."
  end.

Definition build_progress_message (stdout_parts stderr_parts : list str) (chunk_count : Z) : option str :=
  match stdout_preview stdout_parts with
  | None => None
  | Some preview =>
      let message := progress_text preview stderr_parts chunk_count in
      if (500 <? str_len message)%N then option_map (fun t => t ++ lit "...") (slice message 0 500)
      else Some message
  end.
End Gateway.

(** ** The limits *)

(** A bucket of the given capacity and rate that holds [k] tokens. *)
Definition bucket (cap rate k : nat) (t : Z) : RateLimiter :=
  mkBucket (f64_of_Z (Z.of_nat k)) (f64_of_Z (Z.of_nat cap)) (f64_of_Z (Z.of_nat rate)) t.

(** Taking a token without any time passing, computed for every filling that
    is met. *)
Definition take_token (k : float * float * float) : bool * (float * float * float) :=
  let '(ok, l) := limiter_try_consume 0 (mkBucket (fst (fst k)) (snd (fst k)) (snd k) 0) in
  (ok, (tokens l, max_tokens l, refill_rate l)).

Lemma take_token_bucket (cap rate k : nat) (t : Z) :
  limiter_try_consume t (bucket cap rate k t) =
    let '(ok, (x, y, z)) :=
      take_token (f64_of_Z (Z.of_nat k), f64_of_Z (Z.of_nat cap), f64_of_Z (Z.of_nat rate)) in
    (ok, mkBucket x y z t).
Proof.
  unfold take_token, limiter_try_consume, bucket.
  cbn [last_refill tokens refill_rate max_tokens fst snd]. rewrite !instant_sub_diag.
  by destruct (f_ge _ _).
Qed.

Definition taken (cap rate k : nat) : bool * (float * float * float) :=
  (match k with O => false | S _ => true end,
   (f64_of_Z (Z.of_nat (pred k)), f64_of_Z (Z.of_nat cap), f64_of_Z (Z.of_nat rate))).

#[export] Instance float_eq_dec : EqDecision float.
Proof. solve_decision. Defined.

Lemma client_tokens : Forall (fun k => take_token (f64_of_Z (Z.of_nat k), f64_of_Z 100, f64_of_Z 20) =
  taken 100 20 k) (seq 0 101).
Proof. apply (bool_decide_unpack _). vm_compute. exact I. Qed.

Lemma global_tokens : Forall (fun k => take_token (f64_of_Z (Z.of_nat k), f64_of_Z 500, f64_of_Z 100) =
  taken 500 100 k) (seq 401 100).
Proof. apply (bool_decide_unpack _). vm_compute. exact I. Qed.

Lemma client_bucket (k : nat) (t : Z) : k <= 100 ->
  limiter_try_consume t (bucket 100 20 k t) =
    (match k with O => false | S _ => true end, bucket 100 20 (pred k) t).
Proof.
  intros Hk. rewrite take_token_bucket.
  change (Z.of_nat 100) with 100%Z. change (Z.of_nat 20) with 20%Z.
  rewrite (proj1 (Forall_forall _ _) client_tokens k); [done|].
  apply list_elem_of_In, in_seq. lia.
Qed.

Lemma global_bucket (k : nat) (t : Z) : 401 <= k <= 500 ->
  limiter_try_consume t (bucket 500 100 k t) = (true, bucket 500 100 (pred k) t).
Proof.
  intros Hk. rewrite take_token_bucket.
  change (Z.of_nat 500) with 500%Z. change (Z.of_nat 100) with 100%Z.
  rewrite (proj1 (Forall_forall _ _) global_tokens k).
  - unfold taken. by destruct k; [lia|].
  - apply list_elem_of_In, in_seq. lia.
Qed.

Section LimitFacts.
Context `{CH : Chrono} {W : Type} `{RE : RegexCaptures} `{ENV : !Environment W}.

(** Any number of calls of limited tools, one after the other. *)
Fixpoint checks (n : nat) (g : Gateway) (w : W) : option (list (option json_value) * Gateway * W) :=
  match n with
  | O => Some ([], g, w)
  | S m =>
      match check_per_client_rate_limit client_key g w with
      | None => None
      | Some (r, g, w) =>
          match checks m g w with Some (rs, g, w) => Some (r :: rs, g, w) | None => None end
      end
  end.

Definition one_client (p : PerClientRateLimiter) : Prop :=
  pc_max_clients p = 1000 /\ (pc_buckets p = ∅ \/ exists l, pc_buckets p = {[client_key := l]}).

Lemma client_answers (p : PerClientRateLimiter) (w : W) : one_client p ->
  exists ok p' w', client_try_consume client_key p w = Some (ok, p', w') /\ one_client p'.
Proof.
  intros [Hm Hb]. unfold client_try_consume. rewrite Hm.
  assert (Hs : (1000 <=? size (pc_buckets p)) = false).
  { apply Nat.leb_gt. destruct Hb as [->|[l ->]].
    - rewrite map_size_empty. apply Nat.lt_0_succ.
    - rewrite map_size_singleton. apply Nat.ltb_lt. reflexivity. }
  rewrite Hs. cbn [andb].
  destruct (match pc_buckets p !! client_key with Some _ => _ | None => _ end) as [b w1].
  destruct (instant_now w1) as [now w2]. destruct (limiter_try_consume now b) as [ok b'].
  eexists _, _, _. split; [done|]. split; [done|]. right. exists b'. cbn [put_bucket pc_buckets].
  destruct Hb as [->|[l ->]]; [done|]. by rewrite insert_singleton_eq.
Qed.

Lemma checks_answer (n : nat) (g : Gateway) (w : W) : one_client (gw_per_client g) ->
  exists rs g' w', checks n g w = Some (rs, g', w') /\ length rs = n.
Proof.
  revert g w. induction n as [|n IH]; intros g w Hg; [by eexists [], _, _|]. cbn [checks].
  unfold check_per_client_rate_limit.
  destruct (client_answers (gw_per_client g) w Hg) as (ok & p & w1 & -> & Hp).
  destruct ok.
  - destruct (instant_now w1) as [now w2]. destruct (limiter_try_consume now (gw_rate_limiter g)) as [ok l].
    destruct (IH (set_limits l p g) w2 Hp) as (rs & g' & w' & -> & Hl).
    eexists _, _, _. split; [done|]. by cbn [length]; rewrite Hl.
  - destruct (IH (set_limits (gw_rate_limiter g) p g) w1 Hp) as (rs & g' & w' & -> & Hl).
    eexists _, _, _. split; [done|]. by cbn [length]; rewrite Hl.
Qed.

Lemma put_only (l l' : RateLimiter) (a b : float) (n : nat) :
  put_bucket client_key l' (mkPerClient {[client_key := l]} a b n) =
    mkPerClient {[client_key := l']} a b n.
Proof. unfold put_bucket. cbn. by rewrite insert_singleton_eq. Qed.

Ltac next_checks IH :=
  match goal with |- context [checks ?n ?g ?w] =>
    let g' := fresh "g" in let Hc := fresh "Hc" in
    destruct (IH g ltac:(lia) eq_refl eq_refl) as [g' Hc]; rewrite Hc; exists g'; cbn [seq map]
  end.

Lemma checks_frozen (t : Z) (n k : nat) (g : Gateway) (w : W) :
  (forall w : W, instant_now w = (t, w)) -> k <= 100 ->
  gw_per_client g = mkPerClient {[client_key := bucket 100 20 k t]} (f64_of_Z 100) (f64_of_Z 20) 1000 ->
  gw_rate_limiter g = bucket 500 100 (400 + k) t ->
  exists g', checks n g w =
    Some (map (fun i => if i <? k then None else Some (client_limited client_key)) (seq 0 n), g', w).
Proof.
  intros Ht. revert k g. induction n as [|n IH]; intros k g Hk Hp Hg; [by eexists|].
  cbn [checks]. unfold check_per_client_rate_limit, client_try_consume. rewrite Hp, Hg.
  cbn [pc_buckets pc_max_clients]. rewrite map_size_singleton, lookup_singleton_eq.
  change (1000 <=? 1) with false. cbn [andb]. rewrite Ht, (client_bucket k t Hk).
  cbv iota beta. rewrite put_only.
  destruct k as [|k]; cbn [pred]; [|rewrite Ht, global_bucket by lia; cbn [pred Nat.add]].
  - next_checks (IH 0). change (0 <? 0) with false. cbv iota.
    by rewrite <- seq_shift, map_map.
  - replace (pred (400 + S k)) with (400 + k) by lia. next_checks (IH k).
    by rewrite <- seq_shift, map_map.
Qed.

Lemma new_client (t : Z) (w : W) : (forall w : W, instant_now w = (t, w)) ->
  client_try_consume client_key (PerClient_new (f64_of_Z 100) (f64_of_Z 20) 1000) w =
    Some (true, mkPerClient {[client_key := bucket 100 20 99 t]} (f64_of_Z 100) (f64_of_Z 20) 1000, w).
Proof.
  intros Ht. unfold client_try_consume.
  change (pc_buckets (PerClient_new _ _ _)) with (∅ : gmap str RateLimiter). rewrite map_size_empty.
  change (_ <=? 0) with false. cbn [andb]. rewrite lookup_empty, !Ht.
  change (RateLimiter_new _ _ t) with (bucket 100 20 100 t). by rewrite client_bucket by lia.
Qed.

(** C40. The limits of the tools, whatever the clock does: a call is always
    answered - the eviction that would wait for itself needs a thousand clients
    and every call uses the one key - and while the clock stands still the
    first hundred calls of all clients together pass and every later one is
    refused as that client's, never by the global limit. *)
Theorem limits_spec (pool : option PoolManager) (metrics : GatewayMetrics) (hub : option HeartbeatBridge)
    (adapter : option Adapter) (n : nat) (w : W) :
  let '(g, w1) := BastionGateway_new pool metrics hub adapter w in
  (exists rs g' w', checks n g w1 = Some (rs, g', w') /\ length rs = n) /\
  (forall t, (forall w : W, instant_now w = (t, w)) ->
   exists g' w', checks n g w1 =
     Some (map (fun i => if i <? 100 then None else Some (client_limited client_key)) (seq 0 n), g', w')).
Proof.
  unfold BastionGateway_new. destruct (instant_now w) as [now w0] eqn:Ew.
  lazy beta iota. split; [apply checks_answer; split; [done|by left]|].
  intros t Ht. rewrite Ht in Ew. injection Ew as <- <-.
  destruct n as [|n]; [by eexists _, _|]. cbn [checks].
  unfold check_per_client_rate_limit. lazy beta iota delta [gw_per_client gw_rate_limiter].
  rewrite (new_client t), Ht by done.
  change (RateLimiter_new (f64_of_Z 500) (f64_of_Z 100) t) with (bucket 500 100 500 t).
  rewrite global_bucket by lia.
  destruct (checks_frozen t n 99 (set_limits (bucket 500 100 499 t)
    (mkPerClient {[client_key := bucket 100 20 99 t]} (f64_of_Z 100) (f64_of_Z 20) 1000)
    (mkGateway pool metrics hub ∅ ∅ ∅ (bucket 500 100 500 t)
      (PerClient_new (f64_of_Z 100) (f64_of_Z 20) 1000) adapter ∅ [])) w Ht) as [g' Hc]; [lia|done|done|].
  change (pred 500) with 499. rewrite Hc. eexists _, _. cbn [seq map]. change (0 <? 100) with true. cbv iota.
  rewrite <- seq_shift, map_map. reflexivity.
Qed.
End LimitFacts.

(** ** Progress *)

Lemma slice_suffix (s : str) (i : N) : (i <= str_len s)%N ->
  slice s i (str_len s) = option_map snd (split_at s i).
Proof.
  intros Hi. unfold slice. rewrite (proj2 (N.ltb_ge _ _)) by done.
  rewrite <- (app_nil_r s) at 1. rewrite split_at_app. by destruct (split_at s i) as [[a b]|].
Qed.

Lemma split_at_none (s : str) (i : N) : split_at s i = None <-> is_char_boundary s i = false.
Proof.
  destruct (split_at s i) as [[a b]|] eqn:E.
  - apply split_at_boundary in E as [-> <-]. split; [done|].
    rewrite (proj2 (is_char_boundary_iff _ _)); [done|]. by exists a, b.
  - split; [|done]. intros _. destruct (is_char_boundary s i) eqn:Eb; [|done].
    apply is_char_boundary_iff in Eb as (a & b & -> & <-). by rewrite split_at_app in E.
Qed.

(** When there is no preview, and how long one can be. *)
Lemma stdout_preview_spec (outs : list str) :
  match stdout_preview outs with
  | None => exists s, last outs = Some s /\ (200 < str_len s)%N /\
              is_char_boundary s (str_len s - 200) = false
  | Some preview =>
      (str_len (default [] preview) <= 203)%N /\
      forall s, last outs = Some s -> (200 < str_len s)%N -> is_char_boundary s (str_len s - 200) = true
  end.
Proof.
  unfold stdout_preview. destruct (last outs) as [s|]; [|simpl; split; [lia|done]].
  destruct (N.ltb_spec 200 (str_len s)) as [Hs|Hs].
  - rewrite slice_suffix by lia. pose proof (split_at_none s (str_len s - 200)) as Hn.
    destruct (split_at s (str_len s - 200)) as [[a b]|] eqn:E; cbn [option_map snd].
    + apply split_at_boundary in E as [E Ha].
      assert (Hb : str_len s = (str_len a + str_len b)%N) by (by rewrite E, str_len_app).
      split.
      * cbn [default from_option]. unfold id. rewrite str_len_app.
        change (str_len (lit "...")) with 3%N. lia.
      * intros s' [= <-] _. apply not_false_is_true. intros Hf. apply Hn in Hf. done.
    + exists s. split; [done|]. split; [done|]. by apply Hn.
  - split.
    + destruct s; [simpl; lia|]. cbn [default from_option]. unfold id. lia.
    + intros s' [= <-]. lia.
Qed.

Lemma progress_text_length (preview : option str) (errs : list str) (n : Z) :
  (0 <= n < 2 ^ 32)%Z -> (N.of_nat (length errs) < 2 ^ 64)%N -> (str_len (default [] preview) <= 203)%N ->
  (str_len (progress_text preview errs n) <= 257)%N.
Proof.
  intros Hn He Hp. unfold progress_text. set (count := chr "[" :: _).
  assert (Hc : (str_len count <= 43)%N).
  { unfold count. cbn [str_len]. rewrite str_len_app.
    change (str_len (lit " chunks] ")) with 9%N. change (len_utf8 (chr "[")) with 1%N.
    assert (str_len (show_Z n) <= 33)%N; [|lia].
    replace (show_Z n) with (show_N (Z.to_N n)) by (by destruct n; [..|lia]).
    apply (show_N_length _ 32). change (2 ^ 32)%N with (Z.to_N (2 ^ 32)). apply Z2N.inj_lt; lia. }
  destruct preview as [p|], errs as [|e errs']; cbn [default from_option Datatypes.id] in Hp;
    rewrite !str_len_app; unfold id in Hp.
  - lia.
  - change (str_len (lit " (+stderr)")) with 10%N. lia.
  - change (str_len (lit "processing...")) with 13%N. lia.
  - change (str_len (lit "(stderr: ")) with 9%N. change (str_len (lit ")")) with 1%N.
    pose proof (show_N_length (N.of_nat (length (e :: errs'))) 64 He). unfold show_nat. lia.
Qed.

(** A progress notification: building its text panics exactly if the last
    piece of output has more than 200 bytes and its 200th byte from the end is
    inside a character; otherwise the text is built, and it is never so long
    that it would be cut - for any number of chunks that a [u32] holds and any
    number of error parts that a [usize] holds. *)
Theorem progress_message_spec (outs errs : list str) (n : Z) :
  (0 <= n < 2 ^ 32)%Z -> (N.of_nat (length errs) < 2 ^ 64)%N ->
  (build_progress_message outs errs n = None <->
   exists s, last outs = Some s /\ (200 < str_len s)%N /\ is_char_boundary s (str_len s - 200) = false) /\
  (forall m, build_progress_message outs errs n = Some m -> (str_len m <= 257)%N).
Proof.
  intros Hn He. unfold build_progress_message. pose proof (stdout_preview_spec outs) as Hp.
  destruct (stdout_preview outs) as [preview|]; [|done]. destruct Hp as [Hl Hb].
  pose proof (progress_text_length preview errs n Hn He Hl) as Ht. cbv zeta.
  rewrite (proj2 (N.ltb_ge _ _)) by lia. split; [|by intros m [= <-]].
  split; [done|]. intros (s & Hs & H200 & Hf). by rewrite (Hb s Hs H200) in Hf.
Qed.

(** A long line of two-byte characters before a single ASCII one. *)
Definition accents : str := repeat 0xE9%N 100 ++ [97%N].

Lemma progress_message_spec_witness : build_progress_message [accents] [] 1 = None.
Proof.
  apply (proj1 (progress_message_spec [accents] [] 1 ltac:(lia) ltac:(simpl; lia))).
  exists accents. split; [reflexivity|]. split; [reflexivity|vm_compute; reflexivity].
Defined.

(** ** Secrets *)

Section SecretFacts.
Context `{ORDER : HashOrder} {W : Type} `{SEC : !SecretResolver W}.

(** What the value of a variable becomes. *)
Definition injected (answers : str -> result DomainError Command.SecretValue) (v : str) :
    result DomainError str :=
  match parse_secret_ref v with
  | Some (Some key) => match answers key with Ok s => Ok (Command.sv_value s) | Err e => Err e end
  | _ => Ok v
  end.

Lemma resolve_entries_spec (answers : str -> result DomainError Command.SecretValue)
    (env : list (str * str)) (acc : gmap str str) (w : W) :
  (forall key (w : W), resolve_secret key w = (answers key, w)) -> NoDup (map fst env) ->
  exists r, resolve_entries env acc w = Some (r, w) /\
    match r with
    | Ok m =>
        (forall k, k ∉ map fst env -> m !! k = acc !! k) /\
        (forall k v, (k, v) ∈ env -> exists s, injected answers v = Ok s /\ m !! k = Some s)
    | Err e => exists k v, (k, v) ∈ env /\ injected answers v = Err e
    end.
Proof.
  intros Ha. revert acc. induction env as [|[k v] env IH]; intros acc Hn; cbn [resolve_entries].
  { eexists. split; [done|]. split; [done|]. intros k v Hin. by apply elem_of_nil in Hin. }
  apply NoDup_cons in Hn as [Hk Hn].
  assert (Hput : forall s, injected answers v = Ok s ->
    exists r, resolve_entries env (<[k := s]> acc) w = Some (r, w) /\
      match r with
      | Ok m =>
          (forall k', k' ∉ map fst ((k, v) :: env) -> m !! k' = acc !! k') /\
          (forall k' v', (k', v') ∈ (k, v) :: env -> exists s, injected answers v' = Ok s /\ m !! k' = Some s)
      | Err e => exists k' v', (k', v') ∈ (k, v) :: env /\ injected answers v' = Err e
      end).
  { intros s Hs. destruct (IH (<[k := s]> acc) Hn) as (r & -> & Hr). exists r. split; [done|].
    destruct r as [m|e].
    - destruct Hr as [Hr1 Hr2]. split.
      + intros k' Hk'. cbn [map fst] in Hk'. rewrite not_elem_of_cons in Hk'. destruct Hk' as [Hne Hk'].
        rewrite Hr1 by done. by rewrite lookup_insert_ne.
      + intros k' v' [[= -> ->]|Hin]%elem_of_cons; [|by apply Hr2].
        exists s. split; [done|]. rewrite Hr1 by done. by rewrite lookup_insert_eq.
    - destruct Hr as (k' & v' & Hin & He). exists k', v'. split; [by right|done]. }
  destruct (parse_secret_ref_cases v) as [(key & Hv & E)|E]; rewrite E.
  - rewrite Ha. unfold injected in Hput. rewrite E in Hput.
    destruct (answers key) as [s|e] eqn:Es.
    + by apply Hput.
    + eexists. split; [done|]. exists k, v. split; [by left|]. unfold injected. by rewrite E, Es.
  - apply Hput. unfold injected. by rewrite E.
Qed.

(** Resolving the secrets of a map of variables, with a resolver that answers
    the same each time: it never panics; if every reference resolves, the
    variables are the same ones and exactly the references are replaced, in
    whatever order the map is iterated; if one does not, the answer is the error
    of one that does not. *)
Theorem resolve_secrets_spec (answers : str -> result DomainError Command.SecretValue)
    (env : gmap str str) (w : W) :
  (forall key (w : W), resolve_secret key w = (answers key, w)) ->
  exists r, resolve_secrets env w = Some (r, w) /\
    match r with
    | Ok m => forall k, match env !! k with
                        | Some v => exists s, injected answers v = Ok s /\ m !! k = Some s
                        | None => m !! k = None
                        end
    | Err e => exists k v, env !! k = Some v /\ injected answers v = Err e
    end.
Proof.
  intros Ha. destruct (resolve_entries_spec answers (hash_iter _ env) ∅ w Ha (hash_iter_nodup env))
    as (r & E & Hr). exists r. split; [exact E|]. destruct r as [m|e].
  - destruct Hr as [Hr1 Hr2]. intros k. destruct (env !! k) as [v|] eqn:Ek.
    + apply Hr2. by apply elem_of_hash_iter.
    + rewrite Hr1; [apply lookup_empty|]. intros ([k' v] & -> & Hin)%list_elem_of_fmap.
      apply elem_of_hash_iter in Hin. cbn [fst] in Ek. by rewrite Ek in Hin.
  - destruct Hr as (k & v & Hin & He). exists k, v. split; [|done]. by apply elem_of_hash_iter.
Qed.
End SecretFacts.

Section SecretWitness.
#[local] Instance noop_resolver : SecretResolver unit := {| resolve_secret := noop_resolve |}.
#[local] Existing Instance some_order.

Lemma resolve_secrets_spec_witness :
  exists m, resolve_secrets {[lit "TOKEN" := lit "${{secret:GITHUB}}"]} tt = Some (Ok m, tt) /\
    m !! lit "TOKEN" = Some (lit "GITHUB").
Proof.
  destruct (resolve_secrets_spec (fun key => Ok (Command.mkSecretValue key (lit "noop")))
    {[lit "TOKEN" := lit "${{secret:GITHUB}}"]} tt) as ([m|e] & E & Hr); [done| |].
  - exists m. split; [exact E|]. specialize (Hr (lit "TOKEN")). rewrite lookup_singleton_eq in Hr.
    destruct Hr as (s & Hs & ->). vm_compute in Hs. injection Hs as <-. reflexivity.
  - vm_compute in E. discriminate E.
Defined.
End SecretWitness.

(** ** Reading off what an action did *)

Section ActionFacts.
Context {G W : Type}.

Lemma bind_inv {A B} (m : act G W A) (k : A -> act G W B) g w r :
  bind m k g w = Some r -> exists a g1 w1, m g w = Some (a, g1, w1) /\ k a g1 w1 = Some r.
Proof. unfold bind. destruct (m g w) as [[[a g1] w1]|]; [|done]. intros E. by exists a, g1, w1. Qed.

(** An action that leaves the state of the gateway alone. *)
Definition stateless {A} (m : act G W A) : Prop := forall g w a g' w', m g w = Some (a, g', w') -> g' = g.

Lemma stateless_ret {A} (a : A) : stateless (ret a).
Proof. by intros g w b g' w' [= _ <- _]. Qed.

Lemma stateless_world {A} (f : W -> A * W) : stateless (world f).
Proof. intros g w b g' w'. unfold world. destruct (f w). by intros [= _ <- _]. Qed.

Lemma stateless_world_or_panic {A} (f : W -> option (A * W)) : stateless (world_or_panic f).
Proof. intros g w b g' w'. unfold world_or_panic. destruct (f w) as [[? ?]|]; [|done]. by intros [= _ <- _]. Qed.

Lemma stateless_gets {A} (f : G -> A) : stateless (gets f).
Proof. by intros g w b g' w' [= _ <- _]. Qed.

Lemma stateless_bind {A B} (m : act G W A) (k : A -> act G W B) :
  stateless m -> (forall a, stateless (k a)) -> stateless (bind m k).
Proof.
  intros Hm Hk g w b g' w' E. apply bind_inv in E as (a & g1 & w1 & E1 & E2).
  apply Hm in E1 as ->. by apply Hk in E2.
Qed.
End ActionFacts.

Create HintDb stateless.
#[export] Hint Resolve stateless_ret stateless_world stateless_world_or_panic stateless_gets stateless_bind : stateless.
