(* ===== verification/Tools.v ===== *)
(** * The tools of a sandbox

    Models the handlers of [bastion-gateway/src/sandbox_tools.rs] that create,
    use and terminate a sandbox, with the parameters of
    [sandbox_tools_types.rs]; [sandbox_prepare] and the artifacts are in
    [Prepare], the snapshots and the synchronisation in [Sync].  A handler is an action over the
    state of [Gateway].

    A streamed command is consumed in three actions - registering its cancel
    flag, one poll per chunk, removing the flag - which the handler runs in a
    row and other calls may interleave ([Streams] below). *)

From S2P Require Import Prelude Utf8 RuleEval Sandbox Command SandboxRepo Pool ProviderTypes Normalizer Extractors WorkerLink Pipeline RunStore Adapter SandboxFs Orientation Experience Fmt Catalog Hub Toolchain UseCases Materialize Readiness Gateway.

(** ** What the handlers ask of the outside *)

Class ToolPorts (W : Type) := {
  utc_now : W -> Z * W;
  new_uuid : W -> str * W;
  notify_progress : float -> str -> W -> W;
  podman_images : W -> option (bool * bytes) * W;
  (** The readings of one enrichment, the files it may look at and the task that
      stores its record. *)
  enrich_inputs : W -> CallInputs * W;
  sandbox_files : str -> W -> FileSystem;
  spawn_record : EnrichmentRunRecord -> W -> W
}.

(** Texts and derived serializations that third-party code makes. *)
Class AnswerTexts `{CH : Chrono} := {
  base64_encode : bytes -> str;
  rfc3339 : DateTime -> str;
  debug_json : json_value -> str;
  fact_json : Fact -> json_value;
  test_summary_json : option TestSummary -> json_value
}.

(** ** Parameters *)

Record SandboxCreateParams := mkCreateParams { cr_template : str; cr_timeout_ms : Z; cr_provider : str }.
Record SandboxRunParams := mkRunParams {
  rn_sandbox_id : str; rn_command : str; rn_env_ref : option str; rn_trace_id : option str
}.
Record SandboxWriteParams := mkWriteParams { wr_sandbox_id : str; wr_path : str; wr_content : str }.
Record SandboxReadParams := mkReadParams { rd_sandbox_id : str; rd_path : str }.
Record SandboxCancelParams := mkCancelParams {
  cn_sandbox_id : str; cn_grace_period_ms : Z; cn_trace_id : option str
}.

Definition default_timeout : Z := 3600000.
Definition default_provider_name : str := lit "podman".
Definition default_grace_period_ms : Z := 5000.

Section Tools.
Context `{CH : Chrono} {W : Type} `{RE : RegexCaptures} `{ORDER : HashOrder} `{LOWER : Lowercase}.
Context `{REPO : !@SandboxRepository CH W} `{ENV : !Environment W} `{SEC : !SecretResolver W}.
Context `{PORTS : !ToolPorts W} `{PROBE : Probe} `{TEXTS : !@AnswerTexts CH}.
Variable cfg : @Config CH W.

Abbreviation tool := (act Gateway W).
Abbreviation count_metric f := (modify (W := W) (on_metrics f)).

(** ** Creation *)

(** What the answer shows of a check that failed or warned. *)
Definition failed_check_json (r : RichCheckResult) : json_value :=
  obj [("check_type", JStr (rc_check_type r)); ("status", JStr (debug_status (rc_status r)));
       ("current_state", rc_current_state r); ("delta", JArr (map delta_json (rc_delta r)));
       ("remediation", match rc_remediation r with Some m => remediation_json m | None => JNull end)]%string.

Definition shown_check (r : RichCheckResult) : bool :=
  bool_decide (rc_status r = CFail) || bool_decide (rc_status r = CWarning).

Definition debug_doctor_status (s : DoctorStatus) : str :=
  match s with DPass => lit "Pass" | DFail => lit "Fail" | DSkip => lit "Skip" | DError => lit "Error" end.

Definition not_ready (provider doctor_id : str) (r : ReadinessResult) : json_value :=
  obj [("error", JStr (lit "Provider not ready")); ("provider", JStr provider);
       ("doctor_id", JStr doctor_id); ("status", JStr (debug_doctor_status (rr_status r)));
       ("summary", JStr (rr_summary r)); ("requires_attention", JBool (rr_requires_ai_attention r));
       ("can_self_remediate", JBool (rr_potential_self_remediation r));
       ("check_results", JArr (map failed_check_json (List.filter shown_check (rr_rich r))));
       ("hint", JStr (lit "Run doctor_run tool with doctor_id='" ++ doctor_id ++
          lit "' for detailed remediation steps"))]%string.

Definition created_answer (sb : Sandbox) (from_pool : bool) : json_value :=
  obj [("sandbox_id", JStr (sb_id sb)); ("status", JStr (status_display (status sb)));
       ("template", JStr (template_id sb)); ("from_pool", JBool from_pool)]%string.

Definition readiness_gate (provider : str) : tool (option json_value) :=
  match cf_doctors cfg with
  | None => ret None
  | Some reg =>
      let doctor_id := provider ++ lit ".readiness" in
      let! r := world (run_provider_readiness_check debug_json (Some reg) (cf_providers cfg) doctor_id provider) in
      ret (if bool_decide (rr_status r = DPass) then None else Some (not_ready provider doctor_id r))
  end.

(** [pool.checkout]: it may wait for a permit for ever. *)
Definition checkout_from_pool (template : str) (timeout_ms : Z) : tool (option Sandbox) := fun g w =>
  match gw_pool g with
  | None => Some (None, g, w)
  | Some pool =>
      match pool_checkout (PROV := pool_port (cf_pool_provider cfg)) template timeout_ms pool w with
      | None => None
      | Some (Ok sb, pool, w) => Some (Some sb, set_pool pool g, w)
      | Some (Err _, pool, w) => Some (None, set_pool pool g, w)
      end
  end.

Definition create_input (p : SandboxCreateParams) : CreateSandboxInput :=
  mkCreateInput (cr_template p) None ResourcesSpec_default NetworkSpec_default ∅ (cr_timeout_ms p).

Definition sandbox_create (p : SandboxCreateParams) : tool json_value :=
  limited (
    let selected_provider := resolve_provider (cf_providers cfg) (cr_provider p) in
    let! refused := readiness_gate (cr_provider p) in
    match refused with
    | Some answer => ret answer
    | None =>
        let! pooled := (if str_eqb (cr_provider p) (lit "podman")
                        then checkout_from_pool (cr_template p) (cr_timeout_ms p) else ret None) in
        match pooled with
        | Some sb => do! count_metric record_sandbox_created; ret (created_answer sb true)
        | None =>
            let! created := world (create_execute (create_input p) selected_provider) in
            match created with
            | Ok sb => do! count_metric record_sandbox_created; ret (created_answer sb false)
            | Err e => do! count_metric record_error; ret (error_of e)
            end
        end
    end).

(** ** Running a command *)

Definition resolve_env_ref (g : Gateway) (id : str) (env_ref : option str) : option str :=
  match env_ref with
  | Some r => Some r
  | None => gw_last_env_ref g !! id
  end.

Definition command_for (g : Gateway) (id command : str) (env_ref : option str) : CommandSpec :=
  match resolve_env_ref g id env_ref with
  | Some r =>
      match gw_prepared_environments g !! r with
      | Some env => with_envs env (CommandSpec_new command)
      | None => CommandSpec_new command
      end
  | None => CommandSpec_new command
  end.

Fixpoint collect_secrets (l : list (str * SecretSource)) (w : W) : result json_value (list (str * str)) * W :=
  match l with
  | [] => (Ok [], w)
  | (key, source) :: l' =>
      let '(v, w) :=
        match source with
        | SecretInline value => (Ok value, w)
        | SecretRef secret_key =>
            let '(r, w) := resolve_secret secret_key w in
            (match r with
             | Ok secret => Ok (Command.sv_value secret)
             | Err e => Err (error_answer (lit "Failed to resolve secret '" ++ secret_key ++ lit "': " ++ show_error e))
             end, w)
        end in
      match v with
      | Err answer => (Err answer, w)
      | Ok value =>
          let '(rest, w) := collect_secrets l' w in
          (match rest with Ok kvs => Ok ((key, value) :: kvs) | Err answer => Err answer end, w)
      end
  end.

Definition inject_secrets (spec : CommandSpec) (w : W) : result json_value CommandSpec * W :=
  let '(r, w) := collect_secrets (hash_iter _ (cs_secrets spec)) w in
  (match r with
   | Ok kvs => Ok (fold_left (fun s '(k, v) => with_env k v s) kvs spec)
   | Err answer => Err answer
   end, w).

Definition start_experience (tool_name : string) (id : str) (trace_id : option str) : tool ExperienceRecord :=
  let! uuid := world new_uuid in
  let! now := world utc_now in
  let e := with_sandbox_id id (ExperienceRecord_new uuid now (lit tool_name)) in
  ret (match trace_id with Some t => with_trace_id t e | None => e end).

Definition save_cancelled (e : ExperienceRecord) : tool unit :=
  let! now := world utc_now in record_experience cfg (ex_cancelled now e).
Definition save_completed (exit_code : Z) (e : ExperienceRecord) : tool unit :=
  let! now := world utc_now in record_experience cfg (completed now exit_code e).

(** [elapsed().as_micros() as u64]. *)
Definition elapsed_micros (t0 t1 : Z) : Z := as_u64 (instant_sub t1 t0 / 1000).

Definition save_run (r : CommandResult) (e : ExperienceRecord) : tool unit :=
  let! e := or_panic (with_stdout (cr_stdout r) e) in
  let! e := or_panic (with_stderr (cr_stderr r) e) in
  let! now := world utc_now in
  let e := completed now (cr_exit_code r) e in
  let! e := (if cr_timed_out r then let! now := world utc_now in ret (ex_timed_out now e) else ret e) in
  record_experience cfg e.

Definition run_answer (r : CommandResult) : list (string * json_value) :=
  [("exit_code", JNum (cr_exit_code r)); ("stdout", JStr (from_utf8_lossy (cr_stdout r)));
   ("stderr", JStr (from_utf8_lossy (cr_stderr r))); ("duration_ms", JNum (cr_duration_ms r));
   ("timed_out", JBool (cr_timed_out r))]%string.

Definition context_fields (ctx : AgentContext) : list (string * json_value) :=
  [("agent_context",
     obj [("facts", JArr (map fact_json (ac_facts ctx))); ("build_status", json_opt (ac_build_status ctx));
          ("artifacts", JArr (map fact_json (ac_artifacts ctx)));
          ("test_summary", test_summary_json (ac_test_summary ctx))]);
   ("enrichment_meta",
     obj [("source", JStr (em_source (ac_meta ctx))); ("timestamp", JStr (em_timestamp (ac_meta ctx)));
          ("enricher_id", JStr (em_enricher_id (ac_meta ctx)))])]%string.

Definition enrich_run (id : str) (spec : CommandSpec) (r : CommandResult) : tool (list (string * json_value)) :=
  let! adapter := gets gw_enrichment_adapter in
  match adapter with
  | None => ret []
  | Some a =>
      if cf_enrichment_enabled cfg then
        let! i := world enrich_inputs in
        let! fs := world (fun w => (sandbox_files id w, w)) in
        let '(ctx, spawned, a) := enrich i a fs spec r in
        do! modify (set_adapter a);
        do! world (fun w => (tt, match spawned with Some rec => spawn_record rec w | None => w end));
        ret (match ctx with Some ctx => context_fields ctx | None => [] end)
      else ret []
  end.

(** Answering a command that reached its provider. *)
Definition run_outcome (id : str) (spec : CommandSpec) (experience : ExperienceRecord) (t0 : Z)
    (outcome : result DomainError CommandResult) : tool json_value :=
  match outcome with
  | Ok r =>
      let! t1 := world instant_now in
      do! count_metric (record_command (elapsed_micros t0 t1));
      do! save_run r experience;
      let! enriched := enrich_run id spec r in
      ret (obj (run_answer r ++ enriched))
  | Err e =>
      do! count_metric record_error;
      do! save_cancelled experience;
      ret (error_of e)
  end.

Definition sandbox_run (p : SandboxRunParams) : tool json_value :=
  limited (
    let id := rn_sandbox_id p in
    let! experience := start_experience "sandbox_run" id (rn_trace_id p) in
    let! spec := gets (fun g => command_for g id (rn_command p) (rn_env_ref p)) in
    let! injected := world (inject_secrets spec) in
    match injected with
    | Err answer => ret answer
    | Ok spec =>
        let! t0 := world instant_now in
        let! provider := world (resolve_sandbox_provider cfg id) in
        let! outcome := world (run_execute id spec provider) in
        run_outcome id spec experience t0 outcome
    end).

(** ** Streaming a command *)

Record StreamOutput := mkStreamOutput {
  so_stdout : list str; so_stderr : list str; so_exit_code : Z; so_chunk_count : Z
}.
Definition no_output : StreamOutput := mkStreamOutput [] [] (-1) 0.

Definition cancelled_text : str := lit "[CANCELLED] Command was cancelled by user".

(** One item of the stream. *)
Definition absorb (item : result DomainError CommandChunk) (s : StreamOutput) : StreamOutput :=
  match item with
  | Ok c =>
      match chunk_type c with
      | CtStdout => mkStreamOutput (so_stdout s ++ [from_utf8_lossy (chunk_data c)]) (so_stderr s)
                      (so_exit_code s) (so_chunk_count s)
      | CtStderr => mkStreamOutput (so_stdout s) (so_stderr s ++ [from_utf8_lossy (chunk_data c)])
                      (so_exit_code s) (so_chunk_count s)
      | CtExitCode =>
          if 4 <=? length (chunk_data c) then
            mkStreamOutput (so_stdout s) (so_stderr s) (i32_from_le_bytes (take 4 (chunk_data c)))
              (so_chunk_count s)
          else s
      | _ => s
      end
  | Err e => mkStreamOutput (so_stdout s) (so_stderr s ++ [lit "Stream error: " ++ show_error e])
               (so_exit_code s) (so_chunk_count s)
  end.

(** [(chunk_count as f64 / 100.0).min(0.9)]. *)
Definition progress_of (chunk_count : Z) : float :=
  f64_min (f64_div (f64_of_Z chunk_count) (f64_of_Z 100)) (f64_div (f64_of_Z 9) (f64_of_Z 10)).

Definition show_progress (token : bool) (s : StreamOutput) : tool StreamOutput :=
  if token then
    let n := as_u32 (so_chunk_count s + 1) in
    let! msg := or_panic (build_progress_message (so_stdout s) (so_stderr s) n) in
    do! world (fun w => (tt, notify_progress (progress_of n) msg w));
    ret (mkStreamOutput (so_stdout s) (so_stderr s) (so_exit_code s) n)
  else ret s.

(** [cancel_tokens.insert] of a new flag; the cell it lives in is the answer. *)
Definition register_token (id : str) (g : Gateway) : Gateway :=
  set_tokens (<[id := length (gw_flags g)]> (gw_cancel_tokens g)) (gw_flags g ++ [false]) g.
Definition remove_token (id : str) (g : Gateway) : Gateway :=
  set_tokens (delete id (gw_cancel_tokens g)) (gw_flags g) g.
(** [if let Some(token) = cancel_tokens.get(id) { token.store(true) }]. *)
Definition signal_token (id : str) (g : Gateway) : Gateway :=
  match gw_cancel_tokens g !! id with
  | Some cell => set_tokens (gw_cancel_tokens g) (<[cell := true]> (gw_flags g)) g
  | None => g
  end.
Definition flag_of (cell : nat) (g : Gateway) : bool := nth cell (gw_flags g) false.

Fixpoint stream_loop (cell : nat) (token : bool) (items : list (result DomainError CommandChunk))
    (s : StreamOutput) : tool StreamOutput :=
  match items with
  | [] => ret s
  | item :: items' =>
      let! stop := gets (flag_of cell) in
      if (stop : bool) then
        ret (mkStreamOutput (so_stdout s) (so_stderr s ++ [cancelled_text]) (-1) (so_chunk_count s))
      else
        let! s := show_progress token s in
        stream_loop cell token items' (absorb item s)
  end.

Definition stream_answer (s : StreamOutput) (duration_us : Z) : json_value :=
  obj [("exit_code", JNum (so_exit_code s)); ("stdout", JStr (concat (so_stdout s)));
       ("stderr", JStr (concat (so_stderr s))); ("duration_ms", JNum (duration_us / 1000));
       ("chunk_count", JNum (so_chunk_count s))]%string.

Definition sandbox_run_stream (p : SandboxRunParams) (token : bool) : tool json_value :=
  limited (
    let id := rn_sandbox_id p in
    let! spec := gets (fun g => command_for g id (rn_command p) (rn_env_ref p)) in
    let! injected := world (inject_secrets spec) in
    match injected with
    | Err answer => ret answer
    | Ok spec =>
        let! t0 := world instant_now in
        let! provider := world (resolve_sandbox_provider cfg id) in
        let! cell := gets (fun g => length (gw_flags g)) in
        do! modify (register_token id);
        let! started := world (run_stream_execute id spec provider) in
        match started with
        | Ok items =>
            let! s := stream_loop cell token items no_output in
            do! modify (remove_token id);
            do! world (fun w => (tt, if token then notify_progress (f64_of_Z 1) (lit "Complete") w else w));
            let! t1 := world instant_now in
            do! count_metric (record_command (elapsed_micros t0 t1));
            let! e := start_experience "sandbox_run_stream" id (rn_trace_id p) in
            let! e := or_panic (with_stdout (utf8 (concat (so_stdout s))) e) in
            let! e := or_panic (with_stderr (utf8 (concat (so_stderr s))) e) in
            do! save_completed (so_exit_code s) e;
            ret (stream_answer s (elapsed_micros t0 t1))
        | Err e =>
            do! count_metric record_error;
            do! modify (remove_token id);
            let! x := start_experience "sandbox_run_stream" id (rn_trace_id p) in
            do! save_cancelled x;
            ret (error_of e)
        end
    end).

(** ** Files *)

Definition sandbox_write (p : SandboxWriteParams) : tool json_value :=
  let! provider := world (resolve_sandbox_provider cfg (wr_sandbox_id p)) in
  let! r := world (write_execute (wr_sandbox_id p) (wr_path p) (utf8 (wr_content p)) provider) in
  ret (match r with Ok _ => obj [("status", JStr (lit "ok"))]%string | Err e => error_of e end).

Definition sandbox_read (p : SandboxReadParams) : tool json_value :=
  let! provider := world (resolve_sandbox_provider cfg (rd_sandbox_id p)) in
  let! r := world (read_execute (rd_sandbox_id p) (rd_path p) provider) in
  ret (match r with
       | Ok content => obj [("content", JStr (base64_encode content)); ("encoding", JStr (lit "base64"));
                            ("size_bytes", JNum (Z.of_nat (length content)))]%string
       | Err e => error_of e
       end).

Definition entry_json (e : FileEntry DateTime) : json_value :=
  obj [("path", JStr (fe_path e)); ("is_directory", JBool (fe_is_directory e));
       ("size_bytes", JNum (fe_size_bytes e)); ("permissions", JStr (fe_permissions e))]%string.

Definition sandbox_list_files (p : SandboxReadParams) : tool json_value :=
  let! provider := world (resolve_sandbox_provider cfg (rd_sandbox_id p)) in
  let! r := world (list_files_execute (rd_sandbox_id p) (rd_path p) provider) in
  ret (match r with
       | Ok entries => obj [("count", JNum (Z.of_nat (length entries)));
                            ("entries", JArr (map entry_json entries))]%string
       | Err e => error_of e
       end).

(** ** Templates *)

(** [trim_start_matches]: as often as the prefix is there; each time takes at
    least one character, so the length is fuel enough. *)
Fixpoint trim_start_matches (fuel : nat) (pre s : str) : str :=
  match fuel with
  | O => s
  | S f => if starts_with pre s then trim_start_matches f pre (drop (length pre) s) else s
  end.

Definition image_json (image suggested : str) (note : option str) : json_value :=
  obj ([("image", JStr image); ("suggested_name", JStr suggested)]%string ++
       match note with Some n => [("note"%string, JStr n)] | None => [] end).

Definition suggested_name (image : str) : str :=
  let s := trim_start_matches (length image) (lit "localhost/") image in
  trim_start_matches (length s) (lit "docker.io/") s.

Definition listed_images (out : bytes) : list str :=
  List.filter (fun i => negb (str_eqb i []) && negb (str_eqb i (lit "<none>:<none>")))
    (map trim (SandboxFs.lines (from_utf8_lossy out))).

Definition default_templates : list str :=
  map lit ["debian:bookworm-slim"; "ubuntu:22.04"; "fedora:39"; "alpine:3.19"]%string.

Definition default_note : str := lit "default " ++ [0x2014%N] ++ lit " may need to be pulled first".

Definition add_default (templates : list (str * json_value)) (d : str) : list (str * json_value) :=
  if existsb (fun t => str_eqb (fst t) d) templates then templates
  else templates ++ [(d, image_json d d (Some default_note))].

Definition template_list (images : list str) : list (str * json_value) :=
  fold_left add_default default_templates (map (fun i => (i, image_json i (suggested_name i) None)) images).

Definition sandbox_list_templates : tool json_value :=
  let! output := world podman_images in
  let images := match output with Some (true, out) => listed_images out | _ => [] end in
  let templates := template_list images in
  ret (obj [("count", JNum (Z.of_nat (length templates))); ("templates", JArr (map snd templates))]%string).

(** ** Termination and cancellation *)

(** The hub's lock is not held by another call. *)
Definition remove_from_heartbeat (id : str) (g : Gateway) : Gateway :=
  match gw_metrics_hub g with
  | Some bridge => set_hub (Some (snd (remove_resources id bridge))) g
  | None => g
  end.

(** [None] in the answer: there is no pool, or it refused. *)
Definition checkin_to_pool (id : str) : tool bool := fun g w =>
  match gw_pool g with
  | None => Some (false, g, w)
  | Some pool =>
      let '(r, pool, w) := pool_checkin (PROV := pool_port (cf_pool_provider cfg)) id pool w in
      Some (is_ok r, set_pool pool g, w)
  end.

Definition pooled_answer (id : str) : json_value :=
  obj [("status", JStr (lit "pooled")); ("sandbox_id", JStr id)]%string.

Definition sandbox_terminate (id : str) : tool json_value :=
  let! pooled := checkin_to_pool id in
  if (pooled : bool) then
    do! count_metric record_sandbox_terminated;
    do! modify (remove_from_heartbeat id);
    ret (pooled_answer id)
  else
    let! provider := world (resolve_sandbox_provider cfg id) in
    let! r := world (terminate_execute id provider) in
    match r with
    | Ok _ =>
        do! count_metric record_sandbox_terminated;
        do! modify (remove_from_heartbeat id);
        ret (obj [("status", JStr (lit "terminated"))]%string)
    | Err e => do! count_metric record_error; ret (error_of e)
    end.

Definition sandbox_cancel (p : SandboxCancelParams) : tool json_value :=
  let id := cn_sandbox_id p in
  let! experience := start_experience "sandbox_cancel" id (cn_trace_id p) in
  do! modify (signal_token id);
  let! provider := world (resolve_sandbox_provider cfg id) in
  let! r := world (pv_cancel_command provider id (cn_grace_period_ms p)) in
  match r with
  | Ok cancelled =>
      do! save_cancelled experience;
      ret (obj [("status", JStr (if (cancelled : bool) then lit "cancelled" else lit "no_running_command"));
                ("sandbox_id", JStr id)]%string)
  | Err e =>
      do! count_metric record_error;
      do! save_cancelled experience;
      ret (error_of e)
  end.

(** ** Inspection *)

Definition sandbox_info (id : str) : tool json_value :=
  let! r := world (info_execute id) in
  ret (match r with
       | Ok sb => obj [("sandbox_id", JStr (sb_id sb)); ("status", JStr (status_display (status sb)));
                       ("template", JStr (template_id sb)); ("created_at", JStr (rfc3339 (created_at sb)));
                       ("expires_at", json_opt (option_map rfc3339 (expires_at sb)))]%string
       | Err e => error_of e
       end).

Definition listed_json (sb : Sandbox) : json_value :=
  obj [("sandbox_id", JStr (sb_id sb)); ("status", JStr (status_display (status sb)));
       ("template", JStr (template_id sb)); ("created_at", JStr (rfc3339 (created_at sb)))]%string.

Definition sandbox_list : tool json_value :=
  let! r := world list_execute in
  ret (match r with
       | Ok sbs => obj [("count", JNum (Z.of_nat (length sbs))); ("sandboxes", JArr (map listed_json sbs))]%string
       | Err e => error_of e
       end).

Definition template_stats_json (t : Pool.TemplateStats) : json_value :=
  obj [("template", JStr (Pool.ts_template t)); ("idle", JNum (Z.of_nat (Pool.ts_idle t)));
       ("min_idle", JNum (Z.of_nat (Pool.ts_min t))); ("max_idle", JNum (Z.of_nat (Pool.ts_max t)))]%string.

Definition sandbox_pool_stats : tool json_value :=
  gets (fun g =>
    match gw_pool g with
    | Some pool =>
        let s := Pool.stats pool in
        obj [("enabled", JBool true); ("active", JNum (Pool.st_active s)); ("idle", JNum (Z.of_nat (Pool.st_idle s)));
             ("total", JNum (Pool.st_total s)); ("templates", JArr (map template_stats_json (Pool.st_templates s)))]%string
    | None => obj [("enabled", JBool false); ("message", JStr (lit "Pool is not enabled"))]%string
    end).

(** The version is that of the crate. *)
Definition sandbox_health (version : str) : tool json_value :=
  gets (fun g =>
    let provider_check :=
      obj [("component", JStr (lit "provider")); ("provider", JStr (pv_name (ps_default (cf_providers cfg))));
           ("status", JStr (lit "ok"))]%string in
    let pool_check :=
      match gw_pool g with
      | Some pool =>
          let s := Pool.stats pool in
          obj [("component", JStr (lit "pool")); ("status", JStr (lit "ok")); ("enabled", JBool true);
               ("active", JNum (Pool.st_active s)); ("idle", JNum (Z.of_nat (Pool.st_idle s)))]%string
      | None => obj [("component", JStr (lit "pool")); ("status", JStr (lit "disabled"))]%string
      end in
    obj [("status", JStr (lit "healthy")); ("version", JStr version);
         ("checks", JArr [provider_check; pool_check])]%string).

Definition sandbox_metrics : tool str := gets (fun g => prometheus_export (gw_metrics g)).
End Tools.

(** ** Environments *)

Section RunFacts.
Context `{CH : Chrono} {W : Type} `{RE : RegexCaptures} `{ORDER : HashOrder}.
Context `{SEC : !SecretResolver W}.

(** The variables a reference stands for. *)
Definition env_of (g : Gateway) (id : str) (env_ref : option str) : gmap str str :=
  default ∅ (resolve_env_ref g id env_ref ≫= fun r => gw_prepared_environments g !! r).

Lemma command_for_spec (g : Gateway) (id command : str) (env_ref : option str) :
  command_for g id command env_ref = mkCommandSpec command [] None (env_of g id env_ref) None ∅.
Proof.
  unfold command_for, env_of. destruct (resolve_env_ref g id env_ref) as [r|]; [|done].
  cbn [mbind option_bind]. destruct (gw_prepared_environments g !! r) as [m|]; [|done].
  rewrite with_envs_env. cbn. by rewrite map_union_empty.
Qed.

(** What [sandbox_run] and [sandbox_run_stream] hand to the provider, whatever
    they are asked: the command as it was given, without arguments, working
    directory or timeout, and with the variables that were prepared under the
    reference - the one given, or else the last one prepared for the sandbox -
    and no others; an unknown reference is silently no variables.  The step that
    resolves secrets never has one to resolve: it changes neither the command
    nor the world and cannot fail. *)
Theorem run_environment (g : Gateway) (id command : str) (env_ref : option str) (w : W) :
  let spec := command_for g id command env_ref in
  inject_secrets spec w = (Ok spec, w) /\
  cs_command spec = command /\ cs_args spec = [] /\ cs_working_dir spec = None /\ cs_timeout_ms spec = None /\
  cs_env_vars spec = env_of g id env_ref.
Proof.
  rewrite command_for_spec. split; [|done]. unfold inject_secrets. cbn [cs_secrets].
  by rewrite hash_iter_empty.
Qed.
End RunFacts.

(** ** Streams *)

Section StreamFacts.
Context `{CH : Chrono} {W : Type} `{RE : RegexCaptures} `{PORTS : !ToolPorts W}.

(** The pieces of a stream, to standard output or to standard error. *)
Definition piece : Type := str + str.
Definition chunk_of (p : piece) : CommandChunk :=
  match p with inl s => chunk_stdout (utf8 s) | inr s => chunk_stderr (utf8 s) end.
Definition scalar_piece (p : piece) : Prop :=
  match p with inl s | inr s => Forall scalar_value s end.
Definition out_of (p : piece) : str := match p with inl s => s | inr _ => [] end.
Definition err_of (p : piece) : str := match p with inl _ => [] | inr s => s end.

Lemma absorb_piece (p : piece) (s : StreamOutput) : scalar_piece p ->
  let s' := absorb (Ok (chunk_of p)) s in
  concat (so_stdout s') = concat (so_stdout s) ++ out_of p /\
  concat (so_stderr s') = concat (so_stderr s) ++ err_of p /\
  so_exit_code s' = so_exit_code s /\ so_chunk_count s' = so_chunk_count s.
Proof.
  destruct p as [t|t]; intros Ht; unfold absorb; cbn [chunk_of chunk_stdout chunk_stderr chunk_type chunk_data];
    rewrite from_utf8_lossy_utf8 by done;
    cbn [so_stdout so_stderr so_exit_code so_chunk_count out_of err_of];
    rewrite concat_app; cbn [concat]; by rewrite !app_nil_r.
Qed.

(** A streamed command that nobody cancels and whose pieces of output are whole
    characters is answered like the same command run at once: both outputs are
    the pieces put together, in order, and the exit code is the one the last
    chunk encodes - whatever the order in which the two outputs arrive. *)
Theorem stream_output_exact (cell : nat) (ps : list piece) (code : Z) (g : Gateway) (w : W) :
  flag_of cell g = false -> Forall scalar_piece ps -> (i32_min <= code <= i32_max)%Z ->
  exists s,
    stream_loop cell false (map (fun p => Ok (chunk_of p)) ps ++ [Ok (chunk_exit_code code)]) no_output g w =
      Some (s, g, w) /\
    concat (so_stdout s) = from_utf8_lossy (utf8 (flat_map out_of ps)) /\
    concat (so_stderr s) = from_utf8_lossy (utf8 (flat_map err_of ps)) /\
    so_exit_code s = code /\ so_chunk_count s = 0%Z.
Proof.
  intros Hf Hps Hc.
  assert (Hu : forall f : piece -> str, (forall p, scalar_piece p -> Forall scalar_value (f p)) ->
    Forall scalar_value (flat_map f ps)).
  { intros f Hsc. induction Hps as [|p ps Hp Hps IH]; [constructor|]. cbn [flat_map].
    apply Forall_app. split; [by apply Hsc|done]. }
  rewrite !from_utf8_lossy_utf8 by (apply Hu; intros [t|t]; simpl; done || constructor).
  assert (G : forall ps s, Forall scalar_piece ps -> exists s',
    stream_loop cell false (map (fun p => Ok (chunk_of p)) ps ++ [Ok (chunk_exit_code code)]) s g w =
      Some (s', g, w) /\
    concat (so_stdout s') = concat (so_stdout s) ++ flat_map out_of ps /\
    concat (so_stderr s') = concat (so_stderr s) ++ flat_map err_of ps /\
    so_exit_code s' = code /\ so_chunk_count s' = so_chunk_count s).
  { clear ps Hps Hu. intros ps. induction ps as [|p ps IH]; intros s Hps.
    - cbn [map app stream_loop]. unfold bind, gets, show_progress, ret. rewrite Hf.
      eexists. split; [reflexivity|]. cbn [flat_map]. rewrite !app_nil_r.
      unfold absorb, chunk_exit_code. cbn [chunk_type chunk_data].
      change (4 <=? length (i32_to_le_bytes code)) with true. cbn [so_exit_code so_chunk_count so_stdout so_stderr].
      change (take 4 (i32_to_le_bytes code)) with (i32_to_le_bytes code).
      rewrite i32_le_roundtrip by done. done.
    - apply Forall_cons in Hps as [Hp Hps]. cbn [map app stream_loop].
      unfold bind, gets, show_progress, ret. rewrite Hf.
      destruct (IH (absorb (Ok (chunk_of p)) s) Hps) as (s' & E & H1 & H2 & H3 & H4).
      exists s'. split; [exact E|]. destruct (absorb_piece p s Hp) as (P1 & P2 & P3 & P4).
      cbn [flat_map]. rewrite H1, H2, P1, P2, H4, P4, <- !app_assoc. done. }
  destruct (G ps no_output Hps) as (s & E & H1 & H2 & H3 & H4). by exists s.
Qed.

End StreamFacts.

(** A character whose two bytes arrive in two chunks becomes two replacement
    characters. *)
Example split_character :
  let s := absorb (Ok (chunk_stdout [0xA9%N])) (absorb (Ok (chunk_stdout [0xC3%N])) no_output) in
  concat (so_stdout s) = [0xFFFD%N; 0xFFFD%N] /\ from_utf8_lossy [0xC3; 0xA9]%N = [0xE9%N].
Proof. vm_compute. done. Qed.

(** ** Termination *)

Section TerminateFacts.
Context `{CH : Chrono} {W : Type} `{RE : RegexCaptures} `{ORDER : HashOrder} `{LOWER : Lowercase}.
Context `{REPO : !@SandboxRepository CH W} `{ENV : !Environment W} `{LAWS : !@RepositoryLaws CH W REPO}.

(** Of the gateway only the pool, the counters and the bridge. *)
Lemma checkin_pool (cfg : Config) (id : str) (g : Gateway) (w : W) (pool : PoolManager) :
  gw_pool g = Some pool ->
  checkin_to_pool cfg id g w =
    (let '(r, pool, w) := pool_checkin (PROV := pool_port (cf_pool_provider cfg)) id pool w in
     Some (is_ok r, set_pool pool g, w)).
Proof. intros E. unfold checkin_to_pool. by rewrite E. Qed.

Lemma checkin_found (p : Provider) (id : str) (pool : PoolManager) (w : W) (found : option Sandbox) :
  Separate p -> (forall w, stored (snd (instant_now w)) = stored w) ->
  fst (repo_find_by_id id w) = Ok found ->
  let '(r, _, w') := pool_checkin (PROV := pool_port p) id pool w in
  found = stored w !! id /\ stored w' = stored w /\
  r = match found with Some _ => Ok tt | None => Err (NotFound id) end.
Proof.
  intros Hsep Hclock Hf. unfold pool_checkin.
  destruct (repo_find_by_id id w) as [res w1] eqn:E. cbn [fst] in Hf. subst res.
  pose proof (law_find id w found) as Hl. rewrite E in Hl. destruct (Hl eq_refl) as [-> Hs].
  cbn [snd] in Hs. destruct (stored w !! id) as [sb|] eqn:Esb; [|done].
  pose proof (sep_terminate id w1) as Ht. cbn [prov_terminate pool_port].
  destruct (pools pool !! template_id sb) as [q|]; [|cbn [snd]; by rewrite Ht].
  unfold queue_checkin. destruct (_ <=? _); [cbn; by rewrite Ht|].
  unfold PoolEntry_new. pose proof (Hclock (snd (pv_terminate p id w1))) as Hc.
  destruct (instant_now (snd (pv_terminate p id w1))) as [now w3]. cbn in *. by rewrite Hc, Ht.
Qed.

Lemma resolve_provider_step (cfg : Config) (id : str) (w : W) :
  resolve_sandbox_provider cfg id w =
    (fst (resolve_sandbox_provider cfg id w), snd (repo_find_by_id id w)).
Proof. unfold resolve_sandbox_provider. by destruct (repo_find_by_id id w). Qed.

Lemma terminate_missing (p : Provider) (id : str) (w : W) : stored w !! id = None ->
  exists e, terminate_execute id p w = (Err e, snd (repo_find_by_id id w)).
Proof.
  intros Hn. unfold terminate_execute, find_existing. pose proof (law_find id w) as Hl.
  destruct (repo_find_by_id id w) as [[f|e] w']; [|by eexists].
  destruct (Hl f eq_refl) as [-> _]. rewrite Hn. by eexists.
Qed.

(** C12. Termination while the pool is enabled, which is the default.  A sandbox that
    the repository knows - of whatever provider, in whatever state - is answered
    as pooled: it is the pool's own provider that is asked to terminate it, and
    whether it could is not looked at; the providers of the gateway, the
    sandbox's own among them, play no part, and the record stays in the
    repository as it was.  Direct termination is left for sandboxes that are not
    in the repository, where it can only fail: with a pool no sandbox is ever
    deleted. *)
Theorem terminate_with_pool (cfg : Config) (id : str) (g : Gateway) (w : W) (pool : PoolManager)
    (found : option Sandbox) :
  Separate (cf_pool_provider cfg) -> (forall w, stored (snd (instant_now w)) = stored w) ->
  (forall id w, stored (snd (repo_find_by_id id w)) = stored w) ->
  gw_pool g = Some pool -> fst (repo_find_by_id id w) = Ok found ->
  exists answer g' w', sandbox_terminate cfg id g w = Some (answer, g', w') /\
    stored w' = stored w /\
    match found with
    | Some _ =>
        answer = pooled_answer id /\
        gw_metrics g' = record_sandbox_terminated (gw_metrics g) /\
        (forall cfg', cf_pool_provider cfg' = cf_pool_provider cfg ->
         sandbox_terminate cfg' id g w = sandbox_terminate cfg id g w)
    | None => exists e, answer = error_of e
    end.
Proof.
  intros Hsep Hclock Hfind Hp Hf. unfold sandbox_terminate, bind. rewrite (checkin_pool cfg id g w pool Hp).
  pose proof (checkin_found (cf_pool_provider cfg) id pool w found Hsep Hclock Hf) as Hc.
  destruct (pool_checkin (PROV := pool_port (cf_pool_provider cfg)) id pool w) as [[r pool'] w1] eqn:E.
  destruct Hc as (Hfound & Hs & ->). destruct found as [sb|].
  - eexists _, _, _. split; [reflexivity|]. split; [done|]. split; [done|].
    split; [unfold remove_from_heartbeat; by destruct (gw_metrics_hub _)|].
    intros cfg' Hcfg. by rewrite (checkin_pool cfg' id g w pool Hp), Hcfg, E.
  - cbn [is_ok]. unfold world. rewrite resolve_provider_step.
    pose proof (Hfind id w1) as Hs1. set (w2 := snd (repo_find_by_id id w1)) in *.
    destruct (terminate_missing (fst (resolve_sandbox_provider cfg id w1)) id w2) as [e He];
      [by rewrite Hs1, Hs|].
    rewrite He. eexists _, _, _. split; [reflexivity|].
    split; [by rewrite Hfind, Hs1|by eexists].
Qed.
End TerminateFacts.

(** ** Creation *)

Section CreateFacts.
Context `{CH : Chrono} {W : Type} `{RE : RegexCaptures} `{LOWER : Lowercase}.
Context `{REPO : !@SandboxRepository CH W} `{ENV : !Environment W}.
Context `{PROBE : Probe} `{TEXTS : !@AnswerTexts CH}.

(** The gateway with another pool, or none. *)
Definition with_pool (o : option PoolManager) (g : Gateway) : Gateway :=
  mkGateway o (gw_metrics g) (gw_metrics_hub g) (gw_artifact_catalog g)
    (gw_prepared_environments g) (gw_last_env_ref g) (gw_rate_limiter g) (gw_per_client g)
    (gw_enrichment_adapter g) (gw_cancel_tokens g) (gw_flags g).

(** An action that neither looks at the pool nor changes it. *)
Definition ignores_pool {A} (m : act Gateway W A) : Prop := forall o g w,
  m (with_pool o g) w = match m g w with Some (a, g', w') => Some (a, with_pool o g', w') | None => None end.

Lemma ignores_ret {A} (a : A) : ignores_pool (ret a).
Proof. done. Qed.

Lemma ignores_world {A} (f : W -> A * W) : ignores_pool (world f).
Proof. intros o g w. unfold world. by destruct (f w). Qed.

Lemma ignores_metrics f : ignores_pool (modify (on_metrics f)).
Proof. done. Qed.

Lemma ignores_bind {A B} (m : act Gateway W A) (k : A -> act Gateway W B) :
  ignores_pool m -> (forall a, ignores_pool (k a)) -> ignores_pool (bind m k).
Proof.
  intros Hm Hk o g w. unfold bind. rewrite Hm. destruct (m g w) as [[[a g'] w']|]; [|done]. apply Hk.
Qed.

Lemma ignores_limit key : ignores_pool (check_per_client_rate_limit key).
Proof.
  intros o g w. unfold check_per_client_rate_limit. cbn [with_pool gw_per_client gw_rate_limiter].
  destruct (client_try_consume key (gw_per_client g) w) as [[[[] p] w1]|]; [|done|done].
  destruct (instant_now w1) as [now w2]. by destruct (limiter_try_consume now (gw_rate_limiter g)) as [[] l].
Qed.

Lemma ignores_limited (m : act Gateway W json_value) : ignores_pool m -> ignores_pool (limited m).
Proof. intros Hm. apply ignores_bind; [apply ignores_limit|]. by intros [a|]. Qed.

(** Creating a sandbox.  A caller over the limit changes nothing but the
    limiter; so does one whose provider is not ready, who gets the refusal: no
    provider is asked to create anything and no counter moves.  A provider
    that is not named exactly [podman] - [Podman] names the same provider -
    is served without the pool: the pool is neither asked nor changed, whatever
    it holds. *)
Theorem create_gated (cfg : Config) (p : SandboxCreateParams) :
  (forall g w g1 w1 answer, check_per_client_rate_limit client_key g w = Some (Some answer, g1, w1) ->
   sandbox_create cfg p g w = Some (answer, g1, w1)) /\
  (forall g w g1 w1 reg, check_per_client_rate_limit client_key g w = Some (None, g1, w1) ->
   cf_doctors cfg = Some reg ->
   let doctor_id := cr_provider p ++ lit ".readiness" in
   let '(r, w2) := run_provider_readiness_check debug_json (Some reg) (cf_providers cfg) doctor_id
                     (cr_provider p) w1 in
   rr_status r <> DPass ->
   sandbox_create cfg p g w = Some (not_ready (cr_provider p) doctor_id r, g1, w2) /\
   exists l c, g1 = set_limits l c g) /\
  (cr_provider p <> lit "podman" -> ignores_pool (sandbox_create cfg p)).
Proof.
  split; [|split].
  - intros g w g1 w1 answer E. unfold sandbox_create, limited, bind. by rewrite E.
  - intros g w g1 w1 reg E Hd doctor_id.
    destruct (run_provider_readiness_check _ _ _ _ _ w1) as [r w2] eqn:Er. intros Hr. split.
    + unfold sandbox_create, limited, bind. rewrite E. unfold readiness_gate. rewrite Hd.
      unfold bind, world. fold doctor_id. rewrite Er. by rewrite bool_decide_eq_false_2.
    + unfold check_per_client_rate_limit in E.
      destruct (client_try_consume client_key (gw_per_client g) w) as [[[[] c] w0]|]; [|done|done].
      destruct (instant_now w0) as [now w0']. destruct (limiter_try_consume now (gw_rate_limiter g)) as [[] l];
        [|done]. injection E as <- _. by exists l, c.
  - intros Hp. unfold sandbox_create. apply ignores_limited.
    assert (Ep : str_eqb (cr_provider p) (lit "podman") = false) by (by apply str_eqb_neq).
    apply ignores_bind.
    { unfold readiness_gate. destruct (cf_doctors cfg); [|apply ignores_ret].
      apply ignores_bind; [apply ignores_world|intros r; apply ignores_ret]. }
    intros [a|]; [apply ignores_ret|]. rewrite Ep. apply ignores_bind; [apply ignores_ret|].
    intros [sb|]; [apply ignores_bind; [apply ignores_metrics|intros; apply ignores_ret]|].
    apply ignores_bind; [apply ignores_world|].
    intros [sb|e]; (apply ignores_bind; [apply ignores_metrics|intros; apply ignores_ret]).
Qed.
End CreateFacts.

(** ** Cancelling a stream, among concurrent calls

    The steps of streams and cancellations that touch the flags, in the order in
    which they happen; streams are numbered by the order in which they start. *)

Inductive token_op := Start (id : str) | Finish (id : str) | Cancel (id : str).

Section TokenFacts.
Context `{CH : Chrono} `{RE : RegexCaptures}.

Definition token_step (g : Gateway) (op : token_op) : Gateway :=
  match op with
  | Start id => register_token id g
  | Finish id => remove_token id g
  | Cancel id => signal_token id g
  end.

Definition starts (ops : list token_op) : nat :=
  length (List.filter (fun op => match op with Start _ => true | _ => false end) ops).

(** No stream of the sandbox starts or ends. *)
Definition undisturbed (id : str) (ops : list token_op) : Prop := Start id ∉ ops /\ Finish id ∉ ops.

Definition registered (ops : list token_op) (id : str) (k : nat) : Prop :=
  exists l1 l2, ops = l1 ++ Start id :: l2 /\ starts l1 = k /\ undisturbed id l2.

Definition reached (ops : list token_op) (k : nat) : Prop :=
  exists l1 l2 l3 id, ops = l1 ++ Start id :: l2 ++ Cancel id :: l3 /\ starts l1 = k /\ undisturbed id l2.

Lemma starts_app l1 l2 : starts (l1 ++ l2) = starts l1 + starts l2.
Proof. unfold starts. by rewrite List.filter_app, length_app. Qed.

Lemma snoc_cases {A} (l1 l2 : list A) (x y : A) (l : list A) :
  l ++ [x] = l1 ++ y :: l2 -> (l2 = [] /\ x = y /\ l = l1) \/ exists l2', l2 = l2' ++ [x] /\ l = l1 ++ y :: l2'.
Proof.
  destruct l2 as [|z l2' _] using rev_ind; intros E.
  - apply app_inj_tail in E as [-> ->]. by left.
  - right. exists l2'. rewrite app_comm_cons, app_assoc in E. apply app_inj_tail in E as [-> ->]. done.
Qed.

Lemma registered_snoc ops op id k :
  registered (ops ++ [op]) id k <->
  (op = Start id /\ k = starts ops) \/ (registered ops id k /\ op <> Start id /\ op <> Finish id).
Proof.
  split.
  - intros (l1 & l2 & E & Hk & Hs & Hf). apply snoc_cases in E as [(-> & -> & ->)|(l2' & -> & ->)]; [by left|].
    right. rewrite not_elem_of_app, list_elem_of_singleton in Hs, Hf. destruct Hs, Hf.
    split; [by exists l1, l2'|]. split; congruence.
  - intros [[-> ->]|[(l1 & l2 & -> & Hk & Hs & Hf) [H1 H2]]].
    + exists ops, []. split; [done|]. split; [done|]. split; apply not_elem_of_nil.
    + exists l1, (l2 ++ [op]). split; [by rewrite <- app_assoc|]. split; [done|].
      split; rewrite not_elem_of_app, list_elem_of_singleton; split; congruence.
Qed.

Lemma reached_snoc ops op k :
  reached (ops ++ [op]) k <-> reached ops k \/ exists id, op = Cancel id /\ registered ops id k.
Proof.
  split.
  - intros (l1 & l2 & l3 & id & E & Hk & Hu).
    apply snoc_cases in E as [(E & _)|(l' & E & ->)]; [by destruct l2|].
    symmetry in E. apply snoc_cases in E as [(-> & -> & ->)|(l3' & -> & ->)].
    + right. exists id. split; [done|]. by exists l1, l2.
    + left. by exists l1, l2, l3', id.
  - intros [(l1 & l2 & l3 & id & -> & Hk & Hu)|(id & -> & l1 & l2 & -> & Hk & Hu)].
    + exists l1, l2, (l3 ++ [op]), id. split; [|done].
      rewrite <- app_assoc. simpl. by rewrite <- app_assoc.
    + exists l1, l2, [], id. split; [|done]. by rewrite <- app_assoc.
Qed.

Lemma registered_bound ops id k : registered ops id k -> k < starts ops.
Proof. intros (l1 & l2 & -> & <- & _). rewrite starts_app. unfold starts at 3. simpl. lia. Qed.

(** What the flags and their table are after a history. *)
Definition tokens_ok (ops : list token_op) (g : Gateway) : Prop :=
  length (gw_flags g) = starts ops /\
  (forall id k, gw_cancel_tokens g !! id = Some k <-> registered ops id k) /\
  (forall k, flag_of k g = true <-> reached ops k).

(** A step that reaches no stream and registers none. *)
Lemma reached_other ops op k : (forall id, op <> Cancel id) -> reached (ops ++ [op]) k <-> reached ops k.
Proof.
  intros Hn. rewrite reached_snoc. split; [|by left]. intros [E|(id & E & _)]; [done|by destruct (Hn id)].
Qed.

Lemma registered_cancel ops id id' k : registered (ops ++ [Cancel id']) id k <-> registered ops id k.
Proof. rewrite registered_snoc. split; [by intros [[[=] _]|(Hr & _)]|intros Hr; by right]. Qed.

Lemma flag_of_app (k : nat) (l : list bool) : nth k (l ++ [false]) false = nth k l false.
Proof.
  destruct (Nat.lt_ge_cases k (length l)); [by rewrite app_nth1|].
  rewrite app_nth2, (nth_overflow l) by done. by destruct (k - _) as [|[|]].
Qed.

Lemma tokens_start ops g id : tokens_ok ops g -> tokens_ok (ops ++ [Start id]) (register_token id g).
Proof.
  intros (Hl & Hreg & Hflag). unfold register_token, tokens_ok, flag_of.
  cbn [set_tokens gw_flags gw_cancel_tokens]. split; [by rewrite length_app, starts_app, Hl|]. split.
  - intros id' k. rewrite registered_snoc. destruct (decide (id = id')) as [->|Hn].
    + rewrite lookup_insert_eq, Hl. split; [intros [= <-]; by left|].
      intros [[_ ->]|(_ & Hc & _)]; [done|]. by destruct Hc.
    + rewrite lookup_insert_ne by done. rewrite Hreg. split.
      * intros Hr. right. split; [done|]. split; congruence.
      * intros [[[= E] _]|(Hr & _)]; [by destruct Hn|done].
  - intros k. rewrite flag_of_app, reached_other by done. apply Hflag.
Qed.

Lemma tokens_finish ops g id : tokens_ok ops g -> tokens_ok (ops ++ [Finish id]) (remove_token id g).
Proof.
  intros (Hl & Hreg & Hflag). unfold remove_token, tokens_ok, flag_of.
  cbn [set_tokens gw_flags gw_cancel_tokens]. split; [rewrite starts_app, Hl; cbn; lia|]. split.
  - intros id' k. rewrite registered_snoc. destruct (decide (id = id')) as [->|Hn].
    + rewrite lookup_delete_eq. split; [done|]. intros [[[=] _]|(_ & _ & Hc)]. by destruct Hc.
    + rewrite lookup_delete_ne by done. rewrite Hreg. split.
      * intros Hr. right. split; [done|]. split; congruence.
      * by intros [[[=] _]|(Hr & _)].
  - intros k. rewrite reached_other by done. apply Hflag.
Qed.

Lemma tokens_cancel ops g id : tokens_ok ops g -> tokens_ok (ops ++ [Cancel id]) (signal_token id g).
Proof.
  intros (Hl & Hreg & Hflag). unfold signal_token, tokens_ok.
  destruct (gw_cancel_tokens g !! id) as [cell|] eqn:Ec; cbn [set_tokens gw_flags gw_cancel_tokens].
  - split; [rewrite length_insert, starts_app, Hl; cbn; lia|].
    split; [intros id' k; by rewrite registered_cancel|].
    intros k. rewrite reached_snoc, <- Hflag. unfold flag_of. cbn [set_tokens gw_flags].
    pose proof (registered_bound _ _ _ (proj1 (Hreg _ _) Ec)) as Hb. rewrite <- Hl in Hb.
    rewrite !nth_lookup. destruct (decide (k = cell)) as [->|Hn].
    + rewrite list_lookup_insert_eq by done. split; [|done]. intros _. right. exists id.
      split; [done|]. by apply Hreg.
    + rewrite list_lookup_insert_ne by done. split; [by left|].
      intros [E|(id' & [= <-] & Hr)]; [done|]. apply Hreg in Hr. congruence.
  - split; [rewrite starts_app, Hl; cbn; lia|].
    split; [intros id' k; by rewrite registered_cancel|].
    intros k. rewrite reached_snoc, <- Hflag. split; [by left|].
    intros [E|(id' & [= <-] & Hr)]; [done|]. apply Hreg in Hr. congruence.
Qed.

(** C13. A cancellation reaches exactly the streams it can: the flag of the [k]-th
    stream is set if and only if some cancellation of its sandbox came while it
    was the last stream started there, with no stream of that sandbox started
    or finished in between - not its own end, nor another's.  So of two
    streams in one sandbox the first cannot be cancelled at all, and the end of
    either takes the means to cancel the other away. *)
Theorem cancel_reaches (g : Gateway) (ops : list token_op) (k : nat) :
  gw_cancel_tokens g = ∅ -> gw_flags g = [] ->
  flag_of k (fold_left token_step ops g) = true <-> reached ops k.
Proof.
  intros Ht Hf. enough (I : tokens_ok ops (fold_left token_step ops g)) by apply I.
  induction ops as [|op ops IH] using rev_ind.
  - unfold tokens_ok, flag_of. cbn [fold_left]. rewrite Ht, Hf. split; [done|]. split.
    + intros id n. rewrite lookup_empty. split; [done|]. intros (l1 & l2 & E & _). by destruct l1.
    + intros n. split; [by destruct n|]. intros (l1 & l2 & l3 & id & E & _). by destruct l1.
  - rewrite fold_left_app. cbn [fold_left].
    destruct op; [by apply tokens_start|by apply tokens_finish|by apply tokens_cancel].
Qed.
End TokenFacts.

(** ** A demonstration gateway

    Over the simulated world of the pool, with two demonstration providers. *)
Module Demo.
Import Pool.Sim UseCases.Demo.
#[local] Existing Instances Z_chrono RuleParser.substring_engine Extractors.substring_captures some_order.
#[local] Existing Instance ascii_lowercase.
#[local] Existing Instances Readiness.NoKvm.no_kvm Pool.Sim.sim_environment.

#[export] Instance demo_ports : ToolPorts SimWorld := {|
  utc_now := fun w => (sw_clock w, w);
  new_uuid := fun w => (lit "uuid", w);
  notify_progress := fun _ _ w => w;
  podman_images := fun w => (Some (true, utf8 (lit "localhost/alpine:3.19" ++ [10%N] ++ lit "<none>:<none>")), w);
  enrich_inputs := fun w => (mkInputs [] 0 0 [] [] 0 0, w);
  sandbox_files := fun _ _ => no_files;
  spawn_record := fun _ w => w
|}.

#[export] Instance demo_texts : @AnswerTexts Z_chrono := {|
  base64_encode := fun _ => lit "?";
  rfc3339 := fun d => show_Z d;
  debug_json := fun _ => lit "?";
  fact_json := fun _ => JNull;
  test_summary_json := fun _ => JNull
|}.

#[export] Instance demo_secrets : SecretResolver SimWorld := {| resolve_secret := noop_resolve |}.

Definition providers : @Providers Z_chrono SimWorld :=
  mkProviders (demo (lit "podman"))
    (<[lit "podman" := demo (lit "podman")]> {[lit "firecracker" := demo (lit "firecracker")]}).

Definition config (doctors : option DoctorRegistry) : @Config Z_chrono SimWorld :=
  mkGwConfig providers (demo (lit "podman")) ∅ doctors SyncAuto false None.

Definition gateway (pool : option (@PoolManager Z_chrono)) : Gateway :=
  fst (BastionGateway_new pool GatewayMetrics_default None None world0).

Lemma clock_stored (w : SimWorld) : stored (snd (instant_now w)) = stored w.
Proof. done. Qed.

Lemma find_stored (id : str) (w : SimWorld) : stored (snd (repo_find_by_id id w)) = stored w.
Proof. done. Qed.

(** The sandbox [s1], stored and running, is terminated with a pool. *)
Lemma terminate_with_pool_witness :
  exists g' w', sandbox_terminate (config None) (lit "s1") (gateway (Some pool3)) world3 =
      Some (pooled_answer (lit "s1"), g', w') /\
    stored w' !! lit "s1" = Some warm.
Proof.
  destruct (terminate_with_pool (config None) (lit "s1") (gateway (Some pool3)) world3 pool3 (Some warm)
    (demo_separate (lit "podman")) clock_stored find_stored eq_refl eq_refl)
    as (answer & g' & w' & E & Hs & -> & _).
  exists g', w'. split; [exact E|]. rewrite Hs. vm_compute. reflexivity.
Defined.

(** Terminated twice, [s1] is twice in the queue: two callers get the same
    sandbox. *)
Example recycled_twice :
  match sandbox_terminate (config None) (lit "s1") (gateway (Some pool3)) world3 with
  | Some (_, g, w) =>
      match sandbox_terminate (config None) (lit "s1") g w with
      | Some (_, g, w) =>
          let create := sandbox_create (config None) (mkCreateParams (lit "rust") 1000 (lit "podman")) in
          match create g w with
          | Some (a, g, w) =>
              match create g w with
              | Some (b, _, _) => a = b /\ a = created_answer warm true
              | None => False
              end
          | None => False
          end
      | None => False
      end
  | None => False
  end.
Proof. vm_compute. done. Qed.

(** A doctor of the provider [firecracker] that asks for KVM. *)
Definition kvm_doctors : DoctorRegistry :=
  mkDoctorRegistry {[lit "firecracker.readiness" :=
    mkDoctor (lit "firecracker.readiness") [] [] [] Critical [KvmAvailable]]} ∅.

Definition firecracker_params : SandboxCreateParams :=
  mkCreateParams (lit "rust") 1000 (lit "firecracker").

Lemma create_gated_witness :
  exists answer g' w', sandbox_create (config (Some kvm_doctors)) firecracker_params (gateway (Some pool3)) world3 =
      Some (answer, g', w') /\
    gw_pool g' = Some pool3 /\ sw_alive w' = [lit "s1"].
Proof.
  destruct (create_gated (config (Some kvm_doctors)) firecracker_params) as (_ & H & _).
  destruct (check_per_client_rate_limit client_key (gateway (Some pool3)) world3) as [[[r g1] w1]|] eqn:E;
    [|vm_compute in E; discriminate E].
  assert (Hr : r = None) by (vm_compute in E; congruence). subst r.
  assert (Hw : sw_alive w1 = [lit "s1"]) by (vm_compute in E; injection E as _ <-; reflexivity).
  specialize (H _ _ g1 w1 kvm_doctors E eq_refl). cbv zeta in H.
  destruct (run_provider_readiness_check _ _ _ _ _ w1) as [res w2] eqn:Er.
  assert (Hs : rr_status res = DFail /\ w2 = w1).
  { unfold run_provider_readiness_check in Er. vm_compute in Er. injection Er as <- <-. split; reflexivity. }
  destruct Hs as [Hs ->].
  destruct H as [Hc (l & c & ->)]; [by rewrite Hs|].
  eexists _, _, w1. split; [exact Hc|]. split; [reflexivity|exact Hw].
Defined.

Lemma cancel_reaches_witness :
  flag_of 0 (fold_left token_step [Start (lit "s1"); Start (lit "s1"); Cancel (lit "s1")] (gateway None)) = false /\
  flag_of 1 (fold_left token_step [Start (lit "s1"); Start (lit "s1"); Cancel (lit "s1")] (gateway None)) = true.
Proof.
  split; [vm_compute; reflexivity|].
  apply (cancel_reaches (gateway None) [Start (lit "s1"); Start (lit "s1"); Cancel (lit "s1")] 1
    eq_refl eq_refl).
  exists [Start (lit "s1")], [], [], (lit "s1"). split; [reflexivity|]. split; [reflexivity|].
  split; apply not_elem_of_nil.
Defined.

Lemma stream_output_exact_witness :
  exists s, stream_loop (PORTS := demo_ports) 0 false [Ok (chunk_stdout (utf8 (lit "ok"))); Ok (chunk_exit_code 3)] no_output
      (gateway None) world0 = Some (s, gateway None, world0) /\ so_exit_code s = 3%Z.
Proof.
  destruct (stream_output_exact 0 [inl (lit "ok")] 3 (gateway None) world0 eq_refl) as (s & E & _ & _ & Hc & _).
  - constructor; [|constructor]. repeat constructor.
  - unfold i32_min, i32_max. lia.
  - exists s. split; [exact E|exact Hc].
Defined.

(** The images of the machine, then the defaults that are not among them. *)
Example templates_ex :
  map fst (template_list (listed_images (utf8 (lit "localhost/alpine:3.19" ++ [10%N] ++ lit "ubuntu:22.04")))) =
  map lit ["localhost/alpine:3.19"; "ubuntu:22.04"; "debian:bookworm-slim"; "fedora:39"; "alpine:3.19"]%string.
Proof. vm_compute. reflexivity. Qed.
End Demo.
