(* ===== verification/Prepare.v ===== *)
(** * Preparing a sandbox

    Models the handlers of [bastion-gateway/src/sandbox_tools.rs] that register
    artifacts and list what can be installed, and [sandbox_prepare], which
    installs a capability: from an artifact of the catalog, else by the plan of
    the capability registry, else by the plan of the built-in adapters.  The
    directories are those the gateway is built with. *)

From S2P Require Import Prelude Utf8 RuleEval Sandbox Command SandboxRepo Pool ProviderTypes Normalizer Extractors WorkerLink Pipeline RunStore Adapter Orientation Experience Fmt Catalog Hub Toolchain UseCases Materialize Readiness Gateway Tools.

Record RegisterArtifactParams := mkRegisterParams {
  rg_name : str; rg_version : str; rg_digest : str; rg_capability : str; rg_tools : option str
}.
Record SandboxPrepareParams := mkPrepareParams {
  pr_sandbox_id : str; pr_capability : str; pr_timeout_ms : Z; pr_strategy : ToolchainStrategy;
  pr_trace_id : option str
}.
Definition default_prepare_timeout : Z := 600000.

Definition artifact_store_root : str := lit "/tmp/bastion-artifacts".
Definition cache_root : str := lit "/tmp/bastion-cache".

Section Prepare.
Context `{CH : Chrono} {W : Type} `{RE : RegexCaptures} `{ORDER : HashOrder} `{LOWER : Lowercase}.
Context `{REPO : !@SandboxRepository CH W} `{ENV : !Environment W} `{SEC : !SecretResolver W}.
Context `{PORTS : !ToolPorts W} `{HOST : !HostFs W}.
Variable cfg : @Config CH W.

Abbreviation tool := (act Gateway W).

(** ** Artifacts *)

Definition parse_tool (s : str) : ToolDescriptor :=
  let parts := split_on (chr ":") (trim s) in
  mkTool (default [] (head parts)) (default (lit "any") (parts !! 1)) Generic [].

Definition parse_tools (tools : option str) : list ToolDescriptor :=
  map parse_tool
    (List.filter (fun s => negb (str_eqb s [])) (split_on (chr ",") (default [] tools))).

Definition artifact_of (p : RegisterArtifactParams) : TemplateArtifact :=
  build (builder_add_capability (mkCapabilityDescriptor (rg_capability p) (parse_tools (rg_tools p)) [])
    (builder_digest (rg_digest p) (Builder_new (rg_name p) (rg_version p)))).

Definition sandbox_register_artifact (p : RegisterArtifactParams) : tool json_value :=
  do! modify (fun g => set_catalog (register (artifact_of p) (gw_artifact_catalog g)) g);
  ret (obj [("status", JStr (lit "registered")); ("name", JStr (rg_name p));
            ("capability", JStr (rg_capability p))]%string).

Definition debug_category (c : Category) : str :=
  match c with
  | Generic => lit "Generic" | Java => lit "Java" | Node => lit "Node" | Python => lit "Python"
  | Ruby => lit "Ruby" | Go => lit "Go" | Rust => lit "Rust" | System => lit "System"
  end.

Definition tool_json (with_category : bool) (t : ToolDescriptor) : json_value :=
  obj ([("name", JStr (Toolchain.td_name t)); ("version", JStr (td_version t))]%string ++
       if with_category then [("category"%string, JStr (to_lowercase (debug_category (td_category t))))] else []).
Definition capability_json (with_category : bool) (c : CapabilityDescriptor) : json_value :=
  obj [("name", JStr (cd_name c)); ("tools", JArr (map (tool_json with_category) (cd_tools c)))]%string.

Definition sandbox_list_artifacts : tool json_value :=
  gets (fun g =>
    let artifacts :=
      map (fun e => obj [("name", JStr (ta_name (en_artifact e))); ("version", JStr (ta_version (en_artifact e)));
                         ("enabled", JBool (en_enabled e));
                         ("capabilities", JArr (map (capability_json true) (ta_capabilities (en_artifact e))))]%string)
          (list_all (gw_artifact_catalog g)) in
    obj [("count", JNum (Z.of_nat (length artifacts))); ("artifacts", JArr artifacts)]%string).

(** ** What can be installed *)

Definition strs_json (l : list str) : json_value := JArr (map JStr l).
Definition env_json (env : gmap str str) : json_value :=
  JObj (map (fun '((k, v) : str * str) => (k, JStr v)) (hash_iter _ env)).
Definition field {A} (name : string) (f : A -> json_value) (o : option A) : list (string * json_value) :=
  match o with Some a => [(name, f a)] | None => [] end.

Definition toolchain_json (t : ToolchainDef) : json_value :=
  obj ([("manager", JStr (td_manager t)); ("priority", JNum (td_priority t))]%string ++
       field "packages" strs_json (td_packages t) ++ field "env" env_json (td_env t) ++
       field "path_prefix" strs_json (td_path_prefix t) ++
       field "steps" (fun ss => JNum (Z.of_nat (length ss))) (td_steps t)).

Definition toml_capability (name : str) (c : CapabilityConfig) : str * json_value :=
  (name, obj [("name", JStr name); ("description", json_opt (cc_description c));
              ("source", JStr (lit "toml")); ("toolchains", JArr (map toolchain_json (cc_toolchains c)))]%string).

Definition hardcoded (name description : string) (managers : list string) : str * json_value :=
  (lit name, obj [("name", JStr (lit name)); ("description", JStr (lit description));
                  ("source", JStr (lit "adapter")); ("managers", strs_json (map lit managers))]%string).

Definition hardcoded_capabilities : list (str * json_value) :=
  [hardcoded "jvm-build" "Java build environment with JDK + Maven/Gradle" ["apt"; "asdf"; "sdkman"];
   hardcoded "node-build" "Node.js build environment with npm/yarn/pnpm" ["apt"; "asdf"];
   hardcoded "python-build" "Python build environment" ["apt"; "asdf"];
   hardcoded "rust-build" "Rust build environment with cargo" ["apt"; "asdf"];
   hardcoded "go-build" "Go build environment" ["apt"; "asdf"];
   hardcoded "ruby-build" "Ruby build environment" ["asdf"]]%string.

(** Each capability with its name, which is looked up again in the answer. *)
Definition listed_capabilities : list (str * json_value) :=
  let toml :=
    flat_map (fun name => match get_config (cf_capabilities cfg) name with
                          | Some c => [toml_capability name c]
                          | None => []
                          end) (list_capabilities (cf_capabilities cfg)) in
  toml ++ List.filter (fun hc => negb (existsb (str_eqb (fst hc)) (map fst toml))) hardcoded_capabilities.

Definition sandbox_list_capabilities : tool json_value :=
  gets (fun g =>
    let artifacts :=
      map (fun e => obj [("name", JStr (ta_name (en_artifact e))); ("version", JStr (ta_version (en_artifact e)));
                         ("capabilities", JArr (map (capability_json false) (ta_capabilities (en_artifact e))))]%string)
          (list_enabled (gw_artifact_catalog g)) in
    obj [("capabilities", JArr (map snd listed_capabilities));
         ("capabilities_count", JNum (Z.of_nat (length listed_capabilities)));
         ("artifacts", JArr artifacts); ("artifacts_count", JNum (Z.of_nat (length artifacts)));
         ("usage", JStr (lit "Call sandbox_prepare(sandbox_id, capability) to install one of these capabilities into a sandbox."))]%string).

(** ** The artifact route *)

Definition provider_kind_of (provider_name : str) : ProviderKind :=
  let named (n : string) := str_eqb provider_name (lit n) in
  if named "podman" then KPodman
  else if named "docker" then KDocker
  else if named "gvisor" || named "gvisor-sandbox" then KGVisor
  else if named "firecracker" then KFirecracker
  else if named "kubernetes" || named "k8s" then KKubernetes
  else if named "wasm" then KWasm
  else if named "local" then KLocal
  else KCustom.

Definition materialize (provider : Provider) (id capability : str) (a : TemplateArtifact)
    (catalog : gmap str CatalogEntry) (w : W) : option (result DomainError MaterializationResult * W) :=
  let resolution :=
    materialization_resolve capability (provider_kind_of (to_lowercase (pv_name provider))) catalog in
  if str_eqb (re_materializer_name resolution) (lit "PodmanOptimizedMaterializer") then
    podman_materialize provider artifact_store_root cache_root id a (re_mode resolution) w
  else universal_materialize provider artifact_store_root id a (re_mode resolution) w.

(** The artifact that was materialized, if there is one and it could be. *)
Definition prepare_artifact (provider : Provider) (id capability : str) : tool (option MaterializationResult) :=
  let! catalog := gets gw_artifact_catalog in
  match catalog_resolve capability catalog with
  | Err _ => ret None
  | Ok a =>
      let! r := world_or_panic (materialize provider id capability a catalog) in
      ret (match r with Ok m => Some m | Err _ => None end)
  end.

Definition artifact_answer (m : MaterializationResult) (duration_ms : Z) : json_value :=
  obj [("status", JStr (lit "ready")); ("method", JStr (lit "artifact")); ("env_ref", json_opt (mr_env_ref m));
       ("cache_hit", JBool (mr_cache_hit m)); ("duration_ms", JNum duration_ms)]%string.

(** ** The routes of a plan *)

(** The command of a step, with each variable's reference to a secret resolved;
    [None] is a panic. *)
Fixpoint step_command (env : list (str * str)) (cmd : CommandSpec) (w : W) :
    option (result DomainError CommandSpec * W) :=
  match env with
  | [] => Some (Ok cmd, w)
  | (k, v) :: env' =>
      match resolve_secrets {[k := v]} w with
      | None => None
      | Some (Err e, w) => Some (Err e, w)
      | Some (Ok resolved, w) => step_command env' (with_env k (default v (resolved !! k)) cmd) w
      end
  end.

Fixpoint run_steps (provider : Provider) (id : str) (steps : list ToolchainStep) (w : W) :
    option (result str unit * W) :=
  match steps with
  | [] => Some (Ok tt, w)
  | s :: steps' =>
      match step_command (hash_iter _ (ts_env s))
              (with_timeout (ts_timeout_ms s) (CommandSpec_new (ts_command s))) w with
      | None => None
      | Some (Err e, w) => Some (Err (lit "Failed to resolve secrets: " ++ show_error e), w)
      | Some (Ok cmd, w) =>
          let '(r, w) := pv_run_command provider id cmd w in
          match r with
          | Err e => Some (Err (lit "Step '" ++ ts_description s ++ lit "' error: " ++ show_error e), w)
          | Ok result =>
              if (cr_exit_code result =? ts_expected_exit_code s)%Z then run_steps provider id steps' w
              else Some (Err (lit "Step '" ++ ts_description s ++ lit "' failed: exit " ++
                     show_Z (cr_exit_code result) ++ lit " (expected " ++
                     show_Z (ts_expected_exit_code s) ++ lit ")"), w)
          end
      end
  end.

Definition output_mentions (v : ToolVerifyStep) (r : CommandResult) : bool :=
  match tv_expected_output_contains v with
  | Some expected => str_contains (from_utf8_lossy (cr_stdout r)) expected
  | None => true
  end.

Fixpoint run_verification (provider : Provider) (id : str) (vs : list ToolVerifyStep) (w : W) :
    result str unit * W :=
  match vs with
  | [] => (Ok tt, w)
  | v :: vs' =>
      let '(r, w) := pv_run_command provider id (with_timeout 60000 (CommandSpec_new (tv_command v))) w in
      match r with
      | Err e => (Err (lit "Verification '" ++ tv_label v ++ lit "' error: " ++ show_error e), w)
      | Ok result =>
          if negb (cr_exit_code result =? tv_expected_exit_code v)%Z then
            (Err (lit "Verification '" ++ tv_label v ++ lit "' failed: exit " ++
               show_Z (cr_exit_code result) ++ lit " (expected " ++ show_Z (tv_expected_exit_code v) ++ lit ")"), w)
          else if output_mentions v result then run_verification provider id vs' w
          else (Err (lit "Verification '" ++ tv_label v ++ lit "' output mismatch"), w)
      end
  end.

(** What [sandbox_run] will inject. *)
Definition prepared_env (plan : ToolchainPlan) : gmap str str :=
  match pl_path_prefix plan with
  | [] => pl_env plan
  | prefix => <[lit "PATH" := join (lit ":") prefix ++ lit ":$PATH"]> (pl_env plan)
  end.

Definition env_ref_of (route : string) (id capability : str) : str :=
  lit route ++ lit ":" ++ id ++ lit ":" ++ capability.

Definition plan_answer (route : string) (id capability : str) (plan : ToolchainPlan) (duration_ms : Z) : json_value :=
  obj [("status", JStr (lit "ready")); ("method", JStr (lit route));
       ("adapter_used", JStr (pl_adapter_used plan)); ("capability", JStr capability);
       ("env_ref", JStr (env_ref_of route id capability)); ("env", env_json (pl_env plan));
       ("path_prefix", strs_json (pl_path_prefix plan)); ("duration_ms", JNum duration_ms)]%string.

(** Carrying out a plan; only the registry's is verified. *)
Definition execute_plan (route : string) (verified : bool) (provider : Provider) (id capability : str)
    (plan : ToolchainPlan) (experience : ExperienceRecord) : tool json_value :=
  let! t0 := world instant_now in
  let! ran := world_or_panic (run_steps provider id (pl_steps plan)) in
  match ran with
  | Err text => ret (error_answer text)
  | Ok _ =>
      let! ok := (if verified then world (run_verification provider id (pl_verification plan)) else ret (Ok tt)) in
      match ok with
      | Err text => ret (error_answer text)
      | Ok _ =>
          let! t1 := world instant_now in
          let env_ref := env_ref_of route id capability in
          do! modify (put_prepared env_ref (prepared_env plan));
          do! modify (put_last_env_ref id env_ref);
          do! save_completed cfg 0 experience;
          ret (plan_answer route id capability plan (as_u64 (instant_sub t1 t0 / 1000000)))
      end
  end.

(** The duration of a materialization is the materializer's own. *)
Definition sandbox_prepare (p : SandboxPrepareParams) (materialize_ms : Z) : tool json_value :=
  let id := pr_sandbox_id p in
  let capability := pr_capability p in
  let! provider := world (resolve_sandbox_provider cfg id) in
  let! experience := start_experience "sandbox_prepare" id (pr_trace_id p) in
  let! materialized := prepare_artifact provider id capability in
  match materialized with
  | Some m =>
      do! (match mr_env_ref m with
           | Some env_ref => modify (put_last_env_ref id env_ref)
           | None => ret tt
           end);
      do! save_completed cfg 0 experience;
      ret (artifact_answer m materialize_ms)
  | None =>
      match registry_resolve (cf_capabilities cfg) capability (pr_strategy p) with
      | Some plan => execute_plan "registry" true provider id capability plan experience
      | None =>
          match resolve gateway_resolver (mkRequest id capability ∅ (pr_strategy p)) with
          | Ok plan => execute_plan "resolver" false provider id capability plan experience
          | Err e => ret (error_of e)
          end
      end
  end.
End Prepare.

(** ** Properties *)

Section PrepareFacts.
Context `{CH : Chrono} {W : Type} `{RE : RegexCaptures} `{ORDER : HashOrder} `{LOWER : Lowercase}.
Context `{REPO : !@SandboxRepository CH W} `{ENV : !Environment W} `{SEC : !SecretResolver W}.
Context `{PORTS : !ToolPorts W} `{HOST : !HostFs W}.

(** The artifact that resolves is always given to the Podman materializer, in a
    mode that it supports, whatever the provider: the universal materializer is
    never chosen. *)
Lemma materialize_podman (provider : Provider) (id capability : str) (a : TemplateArtifact)
    (catalog : gmap str CatalogEntry) (w : W) :
  catalog_resolve capability catalog = Ok a ->
  exists mode, (mode = MountReadonly \/ mode = Extract \/ mode = ModeAuto) /\
    materialize provider id capability a catalog w =
      podman_materialize provider artifact_store_root cache_root id a mode w.
Proof.
  intros E. unfold materialize, materialization_resolve. rewrite E. cbn [re_materializer_name re_mode].
  eexists. split; [|reflexivity]. destruct (provider_kind_of _); tauto.
Qed.

(** Every step of a plan ran in the sandbox, in order, with its variables after
    the references to secrets were resolved, and exited as it should. *)
Inductive steps_ran (provider : @Provider CH W) (id : str) : list ToolchainStep -> W -> W -> Prop :=
| ran_none w : steps_ran provider id [] w w
| ran_step s ss cmd r w w1 w2 w3 :
    step_command (hash_iter _ (ts_env s)) (with_timeout (ts_timeout_ms s) (CommandSpec_new (ts_command s))) w
      = Some (Ok cmd, w1) ->
    pv_run_command provider id cmd w1 = (Ok r, w2) -> cr_exit_code r = ts_expected_exit_code s ->
    steps_ran provider id ss w2 w3 -> steps_ran provider id (s :: ss) w w3.

Inductive checks_ran (provider : @Provider CH W) (id : str) : list ToolVerifyStep -> W -> W -> Prop :=
| checked_none w : checks_ran provider id [] w w
| checked_step v vs r w w1 w2 :
    pv_run_command provider id (with_timeout 60000 (CommandSpec_new (tv_command v))) w = (Ok r, w1) ->
    cr_exit_code r = tv_expected_exit_code v -> output_mentions v r = true ->
    checks_ran provider id vs w1 w2 -> checks_ran provider id (v :: vs) w w2.

Lemma run_steps_ok (provider : Provider) (id : str) (ss : list ToolchainStep) (w w' : W) :
  run_steps provider id ss w = Some (Ok tt, w') -> steps_ran provider id ss w w'.
Proof.
  revert w. induction ss as [|s ss IH]; intros w; cbn [run_steps]; [intros [= <-]; constructor|].
  destruct (step_command _ _ w) as [[[cmd|e] w1]|] eqn:Ec; [|done|done].
  destruct (pv_run_command provider id cmd w1) as [[r|e] w2] eqn:Er; [|done].
  destruct (Z.eqb_spec (cr_exit_code r) (ts_expected_exit_code s)); [|done].
  intros E. eapply ran_step; eauto.
Qed.

Lemma run_verification_ok (provider : Provider) (id : str) (vs : list ToolVerifyStep) (w w' : W) :
  run_verification provider id vs w = (Ok tt, w') -> checks_ran provider id vs w w'.
Proof.
  revert w. induction vs as [|v vs IH]; intros w; cbn [run_verification]; [intros [= <-]; constructor|].
  destruct (pv_run_command provider id _ w) as [[r|e] w1] eqn:Er; [|done].
  destruct (Z.eqb_spec (cr_exit_code r) (tv_expected_exit_code v)); cbn [negb]; [|done].
  destruct (output_mentions v r) eqn:Eo; [|done]. intros E. eapply checked_step; eauto.
Qed.

Lemma stateless_experience (cfg : Config) (e : ExperienceRecord): stateless (G := Gateway) (W := W) (record_experience cfg e).
Proof. unfold record_experience. destruct (cf_experience_store cfg); auto with stateless. Qed.

Lemma stateless_start (t : string) (id : str) (trace : option str) :
  stateless (G := Gateway) (W := W) (start_experience t id trace).
Proof. unfold start_experience. auto with stateless. Qed.

Lemma stateless_completed (cfg : Config) (code : Z) (e : ExperienceRecord) : stateless (G := Gateway) (W := W) (save_completed cfg code e).
Proof. unfold save_completed. auto using stateless_experience with stateless. Qed.

Lemma stateless_artifact (provider : Provider) (id capability : str) :
  stateless (G := Gateway) (W := W) (prepare_artifact provider id capability).
Proof.
  unfold prepare_artifact. apply stateless_bind; [apply stateless_gets|]. intros catalog.
  destruct (catalog_resolve capability catalog); auto with stateless.
Qed.

(** What a route did to the environments, and what it ran. *)
Inductive plan_carried_out (cfg : @Config CH W) (p : SandboxPrepareParams) (g g' : Gateway) (answer : json_value) : Prop :=
| carried_out route registry plan provider ms w1 w2 w3
    (Hsource : if registry : bool then route = "registry"%string /\
                 registry_resolve (cf_capabilities cfg) (pr_capability p) (pr_strategy p) = Some plan
               else route = "resolver"%string /\
                 registry_resolve (cf_capabilities cfg) (pr_capability p) (pr_strategy p) = None /\
                 resolve gateway_resolver (mkRequest (pr_sandbox_id p) (pr_capability p) ∅ (pr_strategy p)) = Ok plan)
    (Hsteps : steps_ran provider (pr_sandbox_id p) (pl_steps plan) w1 w2)
    (Hchecks : if registry then checks_ran provider (pr_sandbox_id p) (pl_verification plan) w2 w3 else w3 = w2)
    (Hanswer : answer = plan_answer route (pr_sandbox_id p) (pr_capability p) plan ms)
    (Hstate : g' = put_last_env_ref (pr_sandbox_id p) (env_ref_of route (pr_sandbox_id p) (pr_capability p))
       (put_prepared (env_ref_of route (pr_sandbox_id p) (pr_capability p)) (prepared_env plan) g)).

Lemma execute_plan_spec (cfg : Config) (p : SandboxPrepareParams) (route : string) (registry : bool)
    (provider : Provider) (plan : ToolchainPlan) (e : ExperienceRecord) (g g' : Gateway) (w w' : W) answer :
  (if registry then route = "registry"%string /\
     registry_resolve (cf_capabilities cfg) (pr_capability p) (pr_strategy p) = Some plan
   else route = "resolver"%string /\
     registry_resolve (cf_capabilities cfg) (pr_capability p) (pr_strategy p) = None /\
     resolve gateway_resolver (mkRequest (pr_sandbox_id p) (pr_capability p) ∅ (pr_strategy p)) = Ok plan) ->
  execute_plan cfg route registry provider (pr_sandbox_id p) (pr_capability p) plan e g w = Some (answer, g', w') ->
  (exists text, answer = error_answer text) /\ g' = g \/ plan_carried_out cfg p g g' answer.
Proof.
  intros Hsource E. unfold execute_plan in E.
  apply bind_inv in E as (t0 & g0 & w0 & E0 & E). apply stateless_world in E0 as ->.
  apply bind_inv in E as (ran & g1 & w1 & E1 & E). pose proof (stateless_world_or_panic _ _ _ _ _ _ E1) as ->.
  unfold world_or_panic in E1. destruct (run_steps _ _ _ w0) as [[[[]|text] w1']|] eqn:Er; [| |done];
    injection E1 as <- <-; [|injection E as <- <- _; left; by eauto].
  apply run_steps_ok in Er.
  apply bind_inv in E as (ok & g2 & w2 & E2 & E).
  assert (g2 = g /\ match ok with
    | Ok _ => if registry then checks_ran provider (pr_sandbox_id p) (pl_verification plan) w1' w2 else w2 = w1'
    | Err _ => True end) as [-> Hok].
  { destruct registry.
    - unfold world in E2. destruct (run_verification _ _ _ w1') as [[[]|text] w2'] eqn:Ev; injection E2 as <- <- <-;
        (split; [done|]); [by apply run_verification_ok|done].
    - by injection E2 as <- <- <-. }
  destruct ok as [_u|text]; [|injection E as <- <- _; left; by eauto].
  right. apply bind_inv in E as (t1 & g3 & w3 & E3 & E). apply stateless_world in E3 as ->.
  cbv zeta in E. apply bind_inv in E as (u1 & g4 & w4 & [= _ <- <-] & E).
  apply bind_inv in E as (u2 & g5 & w5 & [= _ <- <-] & E).
  apply bind_inv in E as (u3 & g6 & w6 & E6 & E). apply stateless_completed in E6 as ->.
  injection E as <- <- _. by eapply (carried_out _ _ _ _ _ route registry plan provider _ w0 w1' w2).
Qed.

(** What the artifact route did. *)
Definition artifact_used (p : SandboxPrepareParams) (ms : Z) (g g' : Gateway) (answer : json_value) : Prop :=
  exists a m, catalog_resolve (pr_capability p) (gw_artifact_catalog g) = Ok a /\
    mr_env_ref m = Some (materialized_ref a) /\ answer = artifact_answer m ms /\
    g' = put_last_env_ref (pr_sandbox_id p) (materialized_ref a) g.

Lemma prepare_artifact_ref (provider : Provider) (id capability : str) (g g' : Gateway) (w w' : W) m :
  prepare_artifact provider id capability g w = Some (Some m, g', w') ->
  exists a, catalog_resolve capability (gw_artifact_catalog g) = Ok a /\ mr_env_ref m = Some (materialized_ref a).
Proof.
  unfold prepare_artifact, bind, gets.
  destruct (catalog_resolve capability (gw_artifact_catalog g)) as [a|e] eqn:Ea; [|done].
  unfold world_or_panic. destruct (materialize_podman provider id capability a _ w Ea) as (mode & _ & ->).
  destruct (podman_materialize _ _ _ _ _ _ w) as [[[r|e] w1]|] eqn:Em; [|done|done].
  intros [= <- _ _]. exists a. split; [done|].
  unfold podman_materialize in Em. destruct (as_contains_secrets _); [done|].
  destruct (ensure_host_cache _ _ _ _) as [[[[h hit]|e] w2]|]; [|by destruct mode|by destruct mode].
  destruct (copy_to_sandbox _ _ _ _ _) as [[u|e] w3]; [|by destruct mode].
  destruct (verify_steps _ _ _ _ _ _) as [[[u'|e] w4]|]; [|by destruct mode|by destruct mode].
  by destruct mode; try done; injection Em as <- _.
Qed.

Lemma prepare_cases (cfg : Config) (p : SandboxPrepareParams) (ms : Z) (g g' : Gateway) (w w' : W)
    (answer : json_value) :
  sandbox_prepare cfg p ms g w = Some (answer, g', w') ->
  artifact_used p ms g g' answer \/ plan_carried_out cfg p g g' answer \/
  (exists text, answer = error_answer text) /\ g' = g.
Proof.
  intros E. unfold sandbox_prepare in E. cbv zeta in E.
  apply bind_inv in E as (provider & g1 & w1 & E1 & E). apply stateless_world in E1 as ->.
  apply bind_inv in E as (e & g2 & w2 & E2 & E). apply stateless_start in E2 as ->.
  apply bind_inv in E as ([m|] & g3 & w3 & E3 & E); pose proof (stateless_artifact _ _ _ _ _ _ _ _ E3) as ->.
  - destruct (prepare_artifact_ref _ _ _ _ _ _ _ _ E3) as (a & Ha & Hr). rewrite Hr in E.
    apply bind_inv in E as (u1 & g4 & w4 & [= _ <- <-] & E).
    apply bind_inv in E as (u2 & g5 & w5 & E5 & E). apply stateless_completed in E5 as ->.
    injection E as <- <- _. left. by exists a, m.
  - right. destruct (registry_resolve _ _ _) as [plan|] eqn:Er.
    + eapply (execute_plan_spec cfg p "registry" true) in E; [destruct E as [E|E]; [by right|by left]|done].
    + destruct (resolve _ _) as [plan|err] eqn:Eg.
      * eapply (execute_plan_spec cfg p "resolver" false) in E; [destruct E as [E|E]; [by right|by left]|done].
      * injection E as <- <- _. right. by split; [eexists|].
Qed.

(** [sandbox_prepare] when it returns.  Either an artifact of the catalog was
    materialized and is the sandbox's new default reference; or a plan of the
    registry, or else one of the built-in adapters, was carried out - every step
    in order, each with the exit code it should have, the registry's checked
    afterwards and the adapters' not - and its variables are stored under the
    new default reference; or the answer is an error and no reference and no
    variable changed, although steps may have run. *)
Theorem prepare_spec (cfg : Config) (p : SandboxPrepareParams) (ms : Z) (g g' : Gateway) (w w' : W)
    (answer : json_value) :
  sandbox_prepare cfg p ms g w = Some (answer, g', w') ->
  artifact_used p ms g g' answer \/ plan_carried_out cfg p g g' answer \/
  (exists text, answer = error_answer text) /\ g' = g.
Proof. apply prepare_cases. Qed.

(** ** Preparing, and then running *)

(** No variables are ever stored under the reference of an artifact. *)
Definition artifacts_bare (g : Gateway) : Prop :=
  forall a : TemplateArtifact, gw_prepared_environments g !! materialized_ref a = None.

Lemma materialized_not_route (route : string) (id capability : str) (a : TemplateArtifact) :
  route = "registry"%string \/ route = "resolver"%string ->
  materialized_ref a <> env_ref_of route id capability.
Proof. by intros [->| ->]. Qed.

(** C17. Running a command right after preparing its sandbox, without naming a
    reference.  After a plan the command gets exactly the plan's variables, with
    the directories of the plan before a literal [$PATH]; after an artifact it
    gets none at all - not the artifact's, and no longer those of a plan that was
    prepared before; after a failure it gets what it got before. *)
Theorem prepare_then_run (cfg : Config) (p : SandboxPrepareParams) (ms : Z) (g g' : Gateway) (w w' : W)
    (answer : json_value) (command : str) :
  artifacts_bare g -> sandbox_prepare cfg p ms g w = Some (answer, g', w') ->
  artifacts_bare g' /\
  let env := cs_env_vars (command_for g' (pr_sandbox_id p) command None) in
  match answer with
  | JObj ((_, JStr status) :: (_, JStr route) :: _) =>
      status = lit "ready" /\
      if str_eqb route (lit "artifact") then env = ∅
      else exists plan,
        env = match pl_path_prefix plan with
              | [] => pl_env plan
              | dirs => <[lit "PATH" := join (lit ":") dirs ++ lit ":$PATH"]> (pl_env plan)
              end /\
        (registry_resolve (cf_capabilities cfg) (pr_capability p) (pr_strategy p) = Some plan \/
         resolve gateway_resolver (mkRequest (pr_sandbox_id p) (pr_capability p) ∅ (pr_strategy p)) = Ok plan)
  | _ => env = cs_env_vars (command_for g (pr_sandbox_id p) command None)
  end.
Proof.
  intros Hb E. cbv zeta. rewrite !command_for_spec. cbn [cs_env_vars]. unfold env_of, resolve_env_ref.
  apply prepare_cases in E as [(a & m & _ & _ & -> & ->)|[[route registry plan provider d w1 w2 w3 Hsource _ _ -> ->]|
    [[text ->] ->]]].
  - split; [exact Hb|]. cbn [artifact_answer obj map fst snd]. split; [done|].
    change (str_eqb (lit "artifact") (lit "artifact")) with true. cbv iota.
    cbn [put_last_env_ref gw_last_env_ref gw_prepared_environments]. rewrite lookup_insert_eq.
    cbn [mbind option_bind]. by rewrite Hb.
  - assert (Hr : route = "registry"%string \/ route = "resolver"%string).
    { destruct registry; [left|right]; apply Hsource. }
    split.
    { intros a. cbn [put_last_env_ref put_prepared gw_prepared_environments].
      rewrite lookup_insert_ne; [apply Hb|]. intros Heq.
      by apply (materialized_not_route route (pr_sandbox_id p) (pr_capability p) a Hr). }
    cbn [plan_answer obj map fst snd]. split; [done|].
    replace (str_eqb (lit route) (lit "artifact")) with false by (by destruct Hr as [->| ->]).
    cbn [put_last_env_ref put_prepared gw_last_env_ref gw_prepared_environments]. rewrite lookup_insert_eq.
    cbn [mbind option_bind]. rewrite lookup_insert_eq. exists plan. split; [done|].
    destruct registry; [left|right]; apply Hsource.
  - by split.
Qed.

(** ** The variables outlive the sandbox *)

Definition same_env (g g' : Gateway) : Prop :=
  gw_prepared_environments g' = gw_prepared_environments g /\ gw_last_env_ref g' = gw_last_env_ref g.

Definition keeps_env {A} (m : act Gateway W A) : Prop :=
  forall g w a g' w', m g w = Some (a, g', w') -> same_env g g'.

Lemma keeps_stateless {A} (m : act Gateway W A) : stateless m -> keeps_env m.
Proof. intros Hm g w a g' w' E. by apply Hm in E as ->. Qed.

Lemma keeps_ret {A} (a : A) : keeps_env (ret a).
Proof. apply keeps_stateless, stateless_ret. Qed.

Lemma keeps_world {A} (f : W -> A * W) : keeps_env (world f).
Proof. apply keeps_stateless, stateless_world. Qed.

Lemma keeps_metrics f : keeps_env (modify (on_metrics f)).
Proof. by intros g w a g' w' [= _ <- _]. Qed.

Lemma keeps_heartbeat id : keeps_env (modify (remove_from_heartbeat id)).
Proof. intros g w a g' w' [= _ <- _]. unfold remove_from_heartbeat. by destruct (gw_metrics_hub g). Qed.

Lemma keeps_bind {A B} (m : act Gateway W A) (k : A -> act Gateway W B) :
  keeps_env m -> (forall a, keeps_env (k a)) -> keeps_env (bind m k).
Proof.
  intros Hm Hk g w b g' w' E. apply bind_inv in E as (a & g1 & w1 & E1 & E2).
  apply Hm in E1 as [H1 H2]. apply Hk in E2 as [H3 H4]. split; congruence.
Qed.

Hint Resolve keeps_ret keeps_world keeps_metrics keeps_heartbeat keeps_bind : stateless.

Lemma keeps_limited (m : act Gateway W json_value) : keeps_env m -> keeps_env (limited m).
Proof.
  intros Hm. apply keeps_bind; [|by intros [a|]; auto with stateless].
  intros g w a g' w'. unfold check_per_client_rate_limit.
  destruct (client_try_consume _ _ w) as [[[[] c] w0]|]; [|by intros [= _ <- _]|done].
  destruct (instant_now w0) as [now w1]. destruct (limiter_try_consume now _) as [[] l]; by intros [= _ <- _].
Qed.

Lemma keeps_terminate (cfg : Config) (id : str) : keeps_env (sandbox_terminate cfg id).
Proof.
  unfold sandbox_terminate. apply keeps_bind.
  - intros g w a g' w'. unfold checkin_to_pool. destruct (gw_pool g); [|by intros [= _ <- _]].
    destruct (pool_checkin _ _ _) as [[r pool] w1]. by intros [= _ <- _].
  - intros [|]; [by auto with stateless|].
    apply keeps_bind; [apply keeps_world|]. intros provider. apply keeps_bind; [apply keeps_world|].
    intros [u|e]; auto with stateless.
Qed.

Context `{PROBE : Probe} `{TEXTS : !@AnswerTexts CH}.

Lemma keeps_create (cfg : Config) (p : SandboxCreateParams) : keeps_env (sandbox_create cfg p).
Proof.
  unfold sandbox_create. apply keeps_limited, keeps_bind.
  { unfold readiness_gate. destruct (cf_doctors cfg); auto with stateless. }
  intros [a|]; [apply keeps_ret|]. apply keeps_bind.
  { destruct (str_eqb _ _); [|apply keeps_ret]. intros g w a g' w'. unfold checkout_from_pool.
    destruct (gw_pool g); [|by intros [= _ <- _]].
    destruct (pool_checkout _ _ _ _) as [[[[sb|e] pool] w1]|]; by intros [= _ <- _]. }
  intros [sb|]; [auto with stateless|].
  apply keeps_bind; [apply keeps_world|]. intros [sb|e]; auto with stateless.
Qed.

(** Terminating a sandbox and creating the next one forget nothing of what was
    prepared: whoever is then given a sandbox - one out of the pool keeps its
    identifier - runs commands with the variables that its previous user
    prepared. *)
Theorem environment_outlives (cfg : Config) (id : str) (p : SandboxCreateParams) (g g1 g2 : Gateway)
    (w w1 w1' w2 : W) (a b : json_value) (id' command : str) (env_ref : option str) :
  sandbox_terminate cfg id g w = Some (a, g1, w1) ->
  sandbox_create cfg p g1 w1' = Some (b, g2, w2) ->
  command_for g2 id' command env_ref = command_for g id' command env_ref.
Proof.
  intros Et Ec. apply keeps_terminate in Et as [H1 H2]. apply keeps_create in Ec as [H3 H4].
  rewrite !command_for_spec. unfold env_of, resolve_env_ref. by rewrite H3, H1, H4, H2.
Qed.
End PrepareFacts.

(** ** The list of capabilities *)

Section CapabilityFacts.
Context `{CH : Chrono} {W : Type} `{ORDER : HashOrder}.

Lemma listed_toml (cfg : @Config CH W) (l : list str) :
  (forall name, name ∈ l -> is_Some (cf_capabilities cfg !! name)) ->
  map fst (flat_map (fun name => match get_config (cf_capabilities cfg) name with
                                 | Some c => [toml_capability name c]
                                 | None => []
                                 end) l) = l.
Proof.
  induction l as [|name l IH]; intros Hl; [done|]. cbn [flat_map].
  destruct (Hl name) as [c Hc]; [by left|]. unfold get_config at 1. rewrite Hc.
  cbn [app map toml_capability fst]. f_equal. apply IH. intros n Hn. apply Hl. by right.
Qed.

Lemma hardcoded_nodup : NoDup (map fst hardcoded_capabilities).
Proof. apply (bool_decide_unpack _). vm_compute. exact I. Qed.

(** The capabilities that are listed have different names, and they are exactly
    those of the registry and the six built-in ones; one that the registry
    defines is shown as the registry's. *)
Theorem capabilities_listed (cfg : @Config CH W) :
  NoDup (map fst (listed_capabilities cfg)) /\
  (forall name, name ∈ map fst (listed_capabilities cfg) <->
     is_Some (cf_capabilities cfg !! name) \/ name ∈ map fst hardcoded_capabilities) /\
  (forall name c, cf_capabilities cfg !! name = Some c ->
     toml_capability name c ∈ listed_capabilities cfg).
Proof.
  unfold listed_capabilities. set (names := list_capabilities (cf_capabilities cfg)).
  assert (Hn : forall name, name ∈ names <-> is_Some (cf_capabilities cfg !! name)).
  { intros name. unfold names, list_capabilities. rewrite list_elem_of_fmap. split.
    - intros ([k c] & -> & Hin). apply elem_of_hash_iter in Hin. by eexists.
    - intros [c Hc]. exists (name, c). split; [done|]. by apply elem_of_hash_iter. }
  pose proof (listed_toml cfg names (fun name H => proj1 (Hn name) H)) as Ht.
  set (toml := flat_map _ names) in *. rewrite map_app, Ht.
  assert (Hx : forall name, name ∈ map fst (List.filter
      (fun hc => negb (existsb (str_eqb (fst hc)) names)) hardcoded_capabilities) <->
    name ∈ map fst hardcoded_capabilities /\ name ∉ names).
  { intros name. rewrite !list_elem_of_fmap. setoid_rewrite list_elem_of_In. setoid_rewrite filter_In.
    split.
    - intros (hc & -> & Hin & Hf). split; [by exists hc|]. intros Hbad.
      apply negb_true_iff, not_true_iff_false in Hf. apply Hf, existsb_exists.
      exists (fst hc). split; [done|apply str_eqb_refl].
    - intros [(hc & -> & Hin) Hf]. exists hc. split; [done|]. split; [done|].
      apply negb_true_iff, not_true_iff_false. intros (n & Hn' & E)%existsb_exists.
      apply str_eqb_eq in E. subst n. by apply Hf. }
  split; [|split].
  - apply NoDup_app. split; [apply hash_iter_nodup|]. split.
    + intros name Hin Hbad. apply Hx in Hbad. by destruct Hbad.
    + eapply sublist_NoDup; [apply hardcoded_nodup|]. apply fmap_sublist, filter_sublist.
  - intros name. rewrite elem_of_app, Hx, <- Hn. split; [intros [H|[H _]]; [by left|by right]|].
    intros [H|H]; [by left|]. destruct (decide (name ∈ names)); [by left|by right].
  - intros name c Hc. apply elem_of_app. left. unfold toml. rewrite list_elem_of_In, in_flat_map.
    exists name. split; [apply list_elem_of_In, Hn; by eexists|]. unfold get_config. rewrite Hc. by left.
Qed.
End CapabilityFacts.

(** ** A demonstration *)

Module Demo.
Import Pool.Sim UseCases.Demo Tools.Demo.
#[local] Existing Instances Z_chrono RuleParser.substring_engine Extractors.substring_captures some_order.
#[local] Existing Instance ascii_lowercase.
#[local] Existing Instances Readiness.NoKvm.no_kvm Pool.Sim.sim_environment.

(** A host without files. *)
#[export] Instance empty_host : HostFs SimWorld := {|
  path_exists := fun _ _ => false;
  host_read := fun _ _ => Err (lit "not found");
  host_write := fun _ _ w => (Err (lit "read-only"), w);
  host_mkdirs := fun _ w => (Ok tt, w);
  host_remove := fun _ w => w;
  host_link := fun _ _ w => (Err (lit "read-only"), w);
  host_tar := fun _ w => (Err (lit "no tar"), w)
|}.

Definition zig : CapabilityConfig :=
  mkCapability (lit "zig-build") None [mkToolchainDef (lit "asdf") 100 None
    (Some [mkStepDef (lit "install") (lit "asdf install zig") 300000 0 None]) None
    (Some {[lit "TOKEN" := lit "${{secret:GITHUB}}"]}) (Some [lit "/opt/zig"])].

Definition config : @Config Z_chrono SimWorld :=
  mkGwConfig providers (demo (lit "podman")) {[lit "zig-build" := zig]} None SyncAuto false None.

Definition params : SandboxPrepareParams :=
  mkPrepareParams (lit "s1") (lit "zig-build") default_prepare_timeout Auto None.

Definition prepared : option (json_value * Gateway * SimWorld) :=
  sandbox_prepare config params 0 (gateway (Some pool3)) world3.

(** The variables of the plan: the reference to the secret as it stands in the
    file, and the directories before a literal [$PATH]. *)
Definition zig_env : gmap str str :=
  <[lit "PATH" := lit "/opt/zig:$PATH"]> {[lit "TOKEN" := lit "${{secret:GITHUB}}"]}.

Lemma prepare_then_run_witness :
  match prepared with
  | Some (_, g', _) => cs_env_vars (command_for g' (lit "s1") (lit "zig build") None) = zig_env
  | None => False
  end.
Proof.
  destruct prepared as [[[answer g'] w']|] eqn:E; [|vm_compute in E; discriminate E].
  assert (Hb : artifacts_bare (gateway (Some pool3))) by (intros a; reflexivity).
  destruct (prepare_then_run config params 0 (gateway (Some pool3)) g' world3 w' answer (lit "zig build") Hb E)
    as [_ H]. cbv zeta in H.
  assert (Ha : answer = plan_answer "registry" (lit "s1") (lit "zig-build")
    (plan_of (default (mkToolchainDef [] 0 None None None None None) (head (cc_toolchains zig))) (lit "zig-build")) 0).
  { vm_compute in E. injection E as <- _ _. vm_compute. reflexivity. }
  rewrite Ha in H. cbn [plan_answer obj map fst snd] in H. destruct H as [_ H].
  change (str_eqb (lit "registry") (lit "artifact")) with false in H. cbv iota in H.
  destruct H as (plan & H & [Hr|Hr]); vm_compute in Hr; [injection Hr as <-; exact H|discriminate Hr].
Defined.

Lemma prepare_spec_witness :
  match prepared with
  | Some (answer, g', _) =>
      artifact_used params 0 (gateway (Some pool3)) g' answer \/
      plan_carried_out config params (gateway (Some pool3)) g' answer \/
      (exists text, answer = error_answer text) /\ g' = gateway (Some pool3)
  | None => False
  end.
Proof.
  destruct prepared as [[[answer g'] w']|] eqn:E; [|vm_compute in E; discriminate E].
  exact (prepare_spec config params 0 (gateway (Some pool3)) g' world3 w' answer E).
Defined.

(** The outcome of an action that returns. *)
Definition outcome (o : option (json_value * Gateway * SimWorld)) : json_value * Gateway * SimWorld :=
  default (JNull, gateway None, world0) o.
Definition state_of (o : option (json_value * Gateway * SimWorld)) : Gateway := snd (fst (outcome o)).
Definition world_of (o : option (json_value * Gateway * SimWorld)) : SimWorld := snd (outcome o).

Definition terminated : option (json_value * Gateway * SimWorld) :=
  sandbox_terminate config (lit "s1") (state_of prepared) (world_of prepared).
Definition create_params : SandboxCreateParams := mkCreateParams (lit "rust") 1000 (lit "podman").
Definition created : option (json_value * Gateway * SimWorld) :=
  sandbox_create config create_params (state_of terminated) (world_of terminated).

(** The next user of the pooled sandbox [s1] runs with the variables of the
    previous one. *)
Lemma environment_outlives_witness :
  fst (fst (outcome created)) = created_answer warm true /\
  command_for (state_of created) (lit "s1") (lit "env") None =
    command_for (state_of prepared) (lit "s1") (lit "env") None.
Proof.
  split; [vm_compute; reflexivity|].
  apply (environment_outlives config (lit "s1") create_params (state_of prepared) (state_of terminated)
    (state_of created) (world_of prepared) (world_of terminated) (world_of terminated) (world_of created)
    (fst (fst (outcome terminated))) (fst (fst (outcome created)))); vm_compute; reflexivity.
Defined.

(** An artifact registered with a digest whose 16th byte is inside a character:
    preparing its capability panics, each time. *)
Example odd_digest_panics :
  match sandbox_register_artifact (W := SimWorld)
          (mkRegisterParams (lit "jdk") (lit "1") (repeat 97%N 15 ++ [0xE9%N]) (lit "zig-build") None) (gateway None) world3 with
  | Some (_, g, w) => sandbox_prepare config params 0 g w = None
  | None => False
  end.
Proof. vm_compute. reflexivity. Qed.

(** The versions after a second colon are dropped, and a space is a name. *)
Example tools_ex :
  map (fun t => (Toolchain.td_name t, td_version t)) (parse_tools (Some (lit "mvn:3.9, javac:17:x,,go, "))) =
  [(lit "mvn", lit "3.9"); (lit "javac", lit "17"); (lit "go", lit "any"); ([], lit "any")].
Proof. vm_compute. reflexivity. Qed.
End Demo.
