(* ===== verification/DoctorChecks.v ===== *)
(** * The checks of the infrastructure's doctor

    Models [bastion-infrastructure/src/doctor]: the snapshot of the machine and the
    five checks of [checks/], which the gateway's own checks ([Readiness]) repeat
    with other conditions, and the older results of [mod.rs].  What is read of the
    machine is [Probe] of [Readiness], and [HostProbe] for files, programs and the
    constants of the build.  Trace identifiers and times are left out. *)

From S2P Require Import Prelude Utf8 Sandbox Normalizer CommandExtractor SandboxFs Tools ProviderInstances Catalog Readiness.

(** ** The machine *)

Class HostProbe := {
  hp_read : str -> option str;
  (** A program with its arguments: its success and its two outputs, or why it
      could not be run. *)
  hp_run : list str -> result str (bool * bytes * bytes);
  hp_connect : str -> result str unit;
  hp_os : str;
  hp_arch : str
}.

Definition quote_char : char := 34%N.

(** [trim_matches] of a character. *)
Definition trim_char (c : char) (s : str) : str :=
  rev (snd (span (N.eqb c) (rev (snd (span (N.eqb c) s))))).

(** [str::trim_start_matches], each removal of which takes at least a character. *)
Definition trim_prefix (pre s : str) : str := Tools.trim_start_matches (length s) pre s.

Section Checks.
Context `{PROBE : Probe} `{HP : HostProbe}.

Definition stdout_text (r : result str (bool * bytes * bytes)) : option str :=
  match r with Ok (_, out, _) => Some (trim (from_utf8_lossy out)) | Err _ => None end.

(** *** The snapshot *)

(** The value of the first line that names a version, not empty, in the order of the
    file. *)
Fixpoint release_name (lines : list str) : option str :=
  match lines with
  | [] => None
  | line :: lines =>
      if starts_with (lit "PRETTY_NAME=") line || starts_with (lit "VERSION=") line then
        match split_once (chr "=") line with
        | Some (_, value) =>
            let value := trim (trim_char quote_char value) in
            match value with [] => release_name lines | _ => Some value end
        | None => release_name lines
        end
      else release_name lines
  end.

Definition get_os_version : str :=
  match hp_read (lit "/etc/os-release") ≫= (fun content => release_name (SandboxFs.lines content)) with
  | Some v => v
  | None => default (lit "unknown") (stdout_text (hp_run [lit "uname"; lit "-v"]))
  end.

Definition says_y (content : str) : bool := str_eqb (trim content) (lit "Y").

Definition check_nested_virt : bool :=
  match hp_read (lit "/sys/module/kvm_intel/parameters/nested") with
  | Some content => says_y content
  | None =>
      match hp_read (lit "/sys/module/kvm_amd/parameters/nested") with
      | Some content => says_y content
      | None => false
      end
  end.

(** The first line of what the program says of its version. *)
Definition get_binary_version (binary : str) : option str :=
  let output := match hp_run [binary; lit "--version"] with
                | Ok o => Ok o
                | Err _ => hp_run [binary; lit "version"]
                end in
  match output with
  | Ok (true, out, _) =>
      let version := trim (from_utf8_lossy out) in Some (hd version (SandboxFs.lines version))
  | _ => None
  end.

Definition which_path (name : str) : option str :=
  match probe_which name with Some (true, out) => Some (trim (from_utf8_lossy out)) | _ => None end.

Definition checked_binaries : list str :=
  map lit ["podman"; "docker"; "firecracker"; "runsc"; "kubectl"; "helm"]%string.

Definition check_relevant_binaries : gmap str BinaryInfo :=
  fold_left (fun m name =>
    let path := which_path name in
    <[name := mkBinary name path (path ≫= fun _ => get_binary_version name)]> m) checked_binaries ∅.

Definition check_provider (name binary : str) : ProviderInfo :=
  let available := match probe_which binary with Some (ok, _) => ok | None => false end in
  mkProviderInfo name (if available then get_binary_version binary else None) available.

Definition check_installed_providers : gmap str ProviderInfo :=
  fold_left (fun m '(name, binary) => <[lit name := check_provider (lit name) (lit binary)]> m)
    [("podman", "podman"); ("docker", "docker"); ("firecracker", "firecracker"); ("gvisor", "runsc")]%string ∅.

Definition gather_context : SystemContext :=
  mkContext hp_os get_os_version hp_arch (default [] (stdout_text (hp_run [lit "uname"; lit "-r"])))
    (probe_exists dev_kvm) (Some check_nested_virt) check_relevant_binaries check_installed_providers.

(** *** The checks *)

Record DoctorContext := mkDoctorContext {
  dc_configs : gmap str ProviderConfig; dc_system_context : SystemContext
}.

(** Every check passes exactly when nothing differs from what is expected. *)
Definition outcome (ctx : DoctorContext) (id type : str) (current expected : list (string * json_value))
    (delta : list DeltaItem) (remediation : Remediation) : RichCheckResult :=
  mkRich id type (match delta with [] => CPass | _ => CFail end) (obj current) (obj expected) delta
    (match delta with [] => None | _ => Some remediation end) (dc_system_context ctx).

Definition lits (l : list string) : list str := map lit l.

(** **** A program *)

Definition install_url_for (binary : str) : str :=
  if str_eqb binary (lit "podman") then lit "https://podman.io/docs/installation"
  else if str_eqb binary (lit "docker") then lit "https://docs.docker.com/engine/install/"
  else if str_eqb binary (lit "firecracker") then lit "https://github.com/firecracker-microvm/firecracker"
  else if str_eqb binary (lit "runsc") then lit "https://gvisor.dev/docs/install/"
  else if str_eqb binary (lit "kubectl") then lit "https://kubernetes.io/docs/tasks/tools/install-kubectl/"
  else if str_eqb binary (lit "helm") then lit "https://helm.sh/docs/intro/install/"
  else lit "https://" ++ binary ++ lit ".io".

Definition check_binary_available (ctx : DoctorContext) (name : str) (expected_path : option str) : RichCheckResult :=
  let info := default (mkBinary name None None) (sc_relevant_binaries (dc_system_context ctx) !! name) in
  let is_available := match bi_path info with Some _ => true | None => false end in
  let path_matches := match expected_path with
                      | Some expected => match bi_path info with Some p => str_contains p expected | None => false end
                      | None => true
                      end in
  let delta :=
    if negb is_available then
      [mkDelta (lit "binary '" ++ name ++ lit "'") (lit "binary found in PATH") None Critical]
    else if negb path_matches then
      [mkDelta (lit "binary path for '" ++ name ++ lit "'") (default (lit "any path") expected_path) (bi_path info)
         Warning]
    else [] in
  let remediation :=
    if negb is_available then
      mkRemediation (lit "high") false []
        [lit "# Install " ++ name ++ lit " using your package manager:";
         lit "# Ubuntu/Debian: sudo apt-get install " ++ name; lit "# Fedora/RHEL: sudo dnf install " ++ name;
         lit "# Arch: sudo pacman -S " ++ name; lit "# macOS: brew install " ++ name]
        (lit "which " ++ name ++ lit " && " ++ name ++ lit " --version")
        [mkInstallSource name (install_url_for name) (lit "package_manager")]
    else
      mkRemediation (lit "medium") false []
        [lit "Binary found at " ++ default (lit "unknown") (bi_path info) ++ lit " but expected at " ++
         default (lit "default PATH") expected_path]
        (name ++ lit " --version") [] in
  outcome ctx (lit "binary_available." ++ name) (lit "binary_available")
    [("binary_name", JStr name); ("path", json_opt (bi_path info)); ("version", json_opt (bi_version info));
     ("is_available", JBool is_available)]%string
    [("binary_name", JStr name); ("expected_path", JStr (default (lit "any path") expected_path));
     ("required", JBool true)]%string
    delta remediation.

(** **** An image *)

Definition default_image_for (provider : str) : str :=
  if str_eqb provider (lit "firecracker") then lit "https://s3.amazonaws.com/spec.ccfc.min/img/hello/kernel-hello"
  else if str_eqb provider (lit "gvisor") then lit "gvisor-remote-image"
  else if str_eqb provider (lit "podman") || str_eqb provider (lit "docker") then lit "docker.io/library/alpine:latest"
  else lit "default-image".

Definition image_source_url_for (provider : str) : str :=
  if str_eqb provider (lit "firecracker") then lit "https://github.com/firecracker-microvm/firecracker#getting-started"
  else if str_eqb provider (lit "gvisor") then lit "https://gvisor.dev/docs/user_guide/"
  else if str_eqb provider (lit "podman") then lit "https://podman.io/getting-started/"
  else if str_eqb provider (lit "docker") then lit "https://docs.docker.com/get-docker/"
  else lit "https://" ++ provider ++ lit ".io/docs".

Definition download_instruction_for (provider : str) : str :=
  if str_eqb provider (lit "firecracker") then
    lit "curl -fsSL https://s3.amazonaws.com/spec.ccfc.min/img/hello/kernel-hello -o /var/lib/firecracker/hello-vmlinux"
  else if str_eqb provider (lit "gvisor") then lit "gvisor-ctl image pull docker.io/library/alpine:latest"
  else if str_eqb provider (lit "podman") then lit "podman pull docker.io/library/alpine:latest"
  else if str_eqb provider (lit "docker") then lit "docker pull docker.io/library/alpine:latest"
  else lit "# Download image for " ++ provider.

(** Where the image of a provider may be; [None] for those whose images are not
    files. *)
Definition image_paths (provider image : str) : option (list str) :=
  if str_eqb provider (lit "firecracker") then
    Some [lit "/var/lib/firecracker/images/" ++ image; lit "/var/lib/firecracker/" ++ image; image]
  else if str_eqb provider (lit "gvisor") then
    Some [lit "/usr/local/share/gvisor/images/" ++ image; lit "/var/lib/gvisor/images/" ++ image; image]
  else if str_eqb provider (lit "podman") || str_eqb provider (lit "docker") then None
  else Some [image].

Definition find_provider_image (provider : str) (image_name : option str) : option str * bool :=
  let image := default (default_image_for provider) image_name in
  match image_paths provider image with
  | None => (Some (lit "registry image: " ++ image), true)
  | Some paths =>
      match find probe_exists paths with Some p => (Some p, true) | None => (None, false) end
  end.

Definition check_image_available (ctx : DoctorContext) (provider : str) (image_name : option str) : RichCheckResult :=
  let '(image_path, image_found) := find_provider_image provider image_name in
  let expected := default (default_image_for provider) image_name in
  outcome ctx (lit "image_available." ++ provider) (lit "image_available")
    [("provider", JStr provider); ("image_name", json_opt image_name); ("image_path", json_opt image_path);
     ("image_found", JBool image_found)]%string
    [("provider", JStr provider); ("image_name", JStr expected); ("required", JBool true)]%string
    (if negb image_found then [mkDelta (provider ++ lit " image") expected image_path Critical] else [])
    (mkRemediation (lit "high") false []
       [lit "# Download " ++ provider ++ lit " image:"; download_instruction_for provider]
       (lit "ls -la " ++ default [] image_path)
       [mkInstallSource (provider ++ lit " image") (image_source_url_for provider) (lit "download")]).

(** **** Virtualization *)

Definition check_cpu_virtualization_extensions : bool :=
  match hp_read (lit "/proc/cpuinfo") with
  | Some content =>
      existsb (fun line => starts_with (lit "flags") line &&
                           (str_contains line (lit "vmx") || str_contains line (lit "svm")))
        (SandboxFs.lines content)
  | None => false
  end.

Definition check_kvm_available (ctx : DoctorContext) : RichCheckResult :=
  let kvm_exists := probe_exists dev_kvm in
  let nested_virt := default false (sc_has_nested_virt (dc_system_context ctx)) in
  let cpu_virt_ext := check_cpu_virtualization_extensions in
  let missing := negb kvm_exists || negb cpu_virt_ext in
  outcome ctx (lit "kvm_available") (lit "kvm_available")
    [("kvm_device_exists", JBool kvm_exists); ("kvm_path", JStr dev_kvm); ("has_nested_virt", JBool nested_virt);
     ("cpu_virtualization_extensions", JBool cpu_virt_ext)]%string
    [("kvm_required", JBool true); ("kvm_path", JStr dev_kvm); ("nested_virt_desirable", JBool true)]%string
    ((if negb kvm_exists then
        [mkDelta dev_kvm (lit "KVM device available") (Some (lit "KVM device not found")) Critical] else []) ++
     (if negb cpu_virt_ext then
        [mkDelta (lit "CPU virtualization extensions") (lit "VT-x (Intel) or AMD-V (AMD) enabled")
           (Some (lit "CPU virtualization not detected")) Critical] else []) ++
     (if negb nested_virt then
        [mkDelta (lit "Nested virtualization") (lit "Nested virtualization supported")
           (Some (lit "Nested virtualization not enabled")) Warning] else []))
    (mkRemediation (if missing then lit "high" else lit "medium") false
       (if negb nested_virt then
          lits ["# Enable nested virtualization for Intel CPUs:"; "sudo modprobe kvm_intel nested=1";
                "# Or persist across reboots:";
                "echo 'options kvm_intel nested=1' | sudo tee /etc/modprobe.d/kvm-intel.conf"]%string
        else [])
       (if missing then
          lits ["# Check if your CPU supports virtualization:"; "grep -E '(vmx|svm)' /proc/cpuinfo";
                "# If no output, your CPU doesn't support hardware virtualization";
                "# If yes, check if KVM module is loaded:"; "lsmod | grep kvm"; "# Load KVM modules if not loaded:";
                "sudo modprobe kvm"; "sudo modprobe kvm-intel  # for Intel CPUs";
                "sudo modprobe kvm-amd    # for AMD CPUs"]%string
        else [])
       (lit "ls -la /dev/kvm")
       [mkInstallSource (lit "KVM") (lit "https://www.linux-kvm.org/page/Main_Page") (lit "package_manager");
        mkInstallSource (lit "QEMU") (lit "https://www.qemu.org/download/") (lit "package_manager")]).

(** **** A daemon *)

Definition default_socket_for (provider : str) : str := socket_path provider.

Definition ping_socket (failed : str) (provider socket : str) : result str str :=
  if negb (probe_exists socket) then Err (lit "Socket not found at " ++ socket)
  else match hp_connect socket with
       | Err e => Err (failed ++ e)
       | Ok _ => Ok (provider ++ lit " daemon is responsive")
       end.

Definition ping_daemon (provider socket : str) : result str str :=
  if str_eqb provider (lit "podman") then ping_socket (lit "Failed to connect to socket: ") (lit "podman") socket
  else if str_eqb provider (lit "docker") then
    ping_socket (lit "Failed to connect to docker socket: ") (lit "docker") socket
  else Err (lit "Unknown provider: " ++ provider).

(** The derived [Serialize] of a [Result]. *)
Definition result_json (r : result str str) : json_value :=
  match r with Ok s => obj [("Ok", JStr s)]%string | Err e => obj [("Err", JStr e)]%string end.

Definition configured_socket (ctx : DoctorContext) (provider : str) : str :=
  match dc_configs ctx !! provider ≫= cfg_socket with
  | Some s => s
  | None => default_socket_for provider
  end.

Definition check_provider_alive (ctx : DoctorContext) (provider : str) : RichCheckResult :=
  let socket := configured_socket ctx provider in
  let ping_result := ping_daemon provider socket in
  outcome ctx (lit "provider_alive." ++ provider) (lit "provider_alive")
    [("provider", JStr provider); ("socket_path", JStr socket); ("ping_result", result_json ping_result)]%string
    [("provider", JStr provider); ("daemon_required", JBool true); ("ping_timeout_ms", JNum 5000)]%string
    (match ping_result with
     | Ok _ => []
     | Err e => [mkDelta (provider ++ lit " daemon") (lit "daemon responding to ping") (Some e) Critical]
     end)
    (mkRemediation (lit "high") true
       [lit "systemctl --user start " ++ provider ++ lit "socket"; lit "systemctl --user enable " ++ provider ++ lit "socket";
        lit "# Or for system-wide:"; lit "sudo systemctl start " ++ provider ++ lit "socket";
        lit "sudo systemctl enable " ++ provider ++ lit "socket"]
       [] (provider ++ lit " version")
       [mkInstallSource provider (lit "https://" ++ provider ++ lit ".io/docs/installation") (lit "package_manager")]).

(** **** The worker *)

Definition default_worker_binary_for (provider : str) : str := lit "/usr/local/bin/bastion-worker-" ++ provider.

(** The details are a map from labels to texts; a path is always given, see
    [worker_binary_path]. *)
Definition validate_worker_binary (path : option str) : bool * gmap str str :=
  match path with
  | None => (false, {[lit "error" := lit "No worker binary path configured"]})
  | Some path =>
      if negb (probe_exists path) then
        (false, <[lit "exists" := lit "false"]> {[lit "error" := lit "File not found at " ++ path]})
      else
        let details := {[lit "exists" := lit "true"]} in
        if negb (match probe_mode path with Some m => negb (N.land m 0x49 =? 0)%N | None => false end) then
          (false, <[lit "executable" := lit "false"]>
                    (<[lit "error" := lit "File at " ++ path ++ lit " is not executable"]> details))
        else
          let details := <[lit "executable" := lit "true"]> details in
          match hp_run [path; lit "--version"] with
          | Ok (true, out, _) =>
              (true, <[lit "valid" := lit "true"]> (<[lit "version" := trim (from_utf8_lossy out)]> details))
          | Ok (false, out, err) =>
              let stderr := trim (from_utf8_lossy err) in
              let stdout := trim (from_utf8_lossy out) in
              let details := if negb (str_eqb stdout []) || negb (str_eqb stderr [])
                             then <[lit "output" := lit "stdout: " ++ stdout ++ lit ", stderr: " ++ stderr]> details
                             else details in
              (true, <[lit "valid" := lit "true (no version flag)"]> details)
          | Err e =>
              (false, <[lit "valid" := lit "false"]> (<[lit "error" := lit "Failed to execute: " ++ e]> details))
          end
  end.

Definition worker_binary_path (ctx : DoctorContext) (provider : str) : option str :=
  match dc_configs ctx !! provider ≫= cfg_worker_binary with
  | Some p => Some p
  | None => Some (default_worker_binary_for provider)
  end.

Definition details_json (m : gmap str str) : json_value :=
  JObj (map (fun '(k, v) => (k, JStr v)) (map_to_list m)).

Definition check_worker_binary_valid (ctx : DoctorContext) (provider : str) : RichCheckResult :=
  let path := worker_binary_path ctx provider in
  let '(is_valid, details) := validate_worker_binary path in
  let shown := default (lit "unknown") path in
  outcome ctx (lit "worker_binary_valid." ++ provider) (lit "worker_binary_valid")
    [("provider", JStr provider); ("worker_binary_path", json_opt path); ("is_valid", JBool is_valid);
     ("validation_details", details_json details)]%string
    [("provider", JStr provider); ("worker_binary_required", JBool true);
     ("expected_path", json_opt (dc_configs ctx !! provider ≫= cfg_worker_binary))]%string
    (if negb is_valid then
       [mkDelta (lit "worker binary for '" ++ provider ++ lit "'") (lit "valid worker binary")
          (details !! lit "error") Critical]
     else [])
    (mkRemediation (lit "high") true
       [lit "cargo build -p bastion-worker --features " ++ provider;
        lit "# Or for release: cargo build -p bastion-worker --release --features " ++ provider]
       [lit "# Ensure Rust toolchain is installed:"; lit "curl --proto '=https' --tlsv1.2 -sSf https://sh.rustup.rs | sh";
        lit "# Then build the worker:"; lit "cargo build -p bastion-worker --features " ++ provider;
        lit "# Verify the binary:"; lit "ls -la " ++ shown ++ lit " || echo 'Binary not found at expected path'"]
       (shown ++ lit " --version 2>&1 || file " ++ shown)
       [mkInstallSource (lit "bastion-worker") (lit "https://github.com/rbentxu/bastion#building-from-source")
          (lit "source")]).
End Checks.

(** ** The older results, of [doctor/mod.rs] *)

Module Basic.

Inductive RichCheckStatus := BPass | BFail | BSkip | BError.

Record RemediationStep := mkStep {
  rs_step : nat; rs_command : str; rs_description : str; rs_verify_after : option str
}.
Record RichRemediation := mkRichRemediation {
  rr_summary : str; rr_steps : list RemediationStep; rr_estimated_time : option str; rr_docs_url : option str
}.
Record BasicContext := mkBasicContext {
  bc_os : option str; bc_os_version : option str; bc_architecture : option str; bc_kernel : option str;
  bc_kvm_exists : bool; bc_kvm_permissions : option str; bc_in_kvm_group : bool;
  bc_installed_binaries : gmap str (option str)
}.
Record BasicResult := mkBasic {
  br_check_id : str; br_check_type : str; br_status : RichCheckStatus; br_current_state : json_value;
  br_expected_state : json_value; br_delta : gmap str str; br_remediation : option RichRemediation;
  br_system_context : BasicContext
}.

Definition context_new : BasicContext := mkBasicContext None None None None false None false ∅.

Definition with_binary (name : str) (path : option str) (c : BasicContext) : BasicContext :=
  mkBasicContext (bc_os c) (bc_os_version c) (bc_architecture c) (bc_kernel c) (bc_kvm_exists c)
    (bc_kvm_permissions c) (bc_in_kvm_group c) (<[name := path]> (bc_installed_binaries c)).

Definition pass (id type : str) (current expected : json_value) (c : BasicContext) : BasicResult :=
  mkBasic id type BPass current expected ∅ None c.
Definition fail (id type : str) (current expected : json_value) (delta : gmap str str)
    (remediation : RichRemediation) (c : BasicContext) : BasicResult :=
  mkBasic id type BFail current expected delta (Some remediation) c.

Section Gather.
Context `{PROBE : Probe} `{HP : HostProbe}.

(** One line of the release file: a version replaces what is there, a name only
    fills a gap. *)
Definition release_line (version : option str) (line : str) : option str :=
  let version :=
    if starts_with (lit "VERSION=") line then Some (trim_char quote_char (trim_prefix (lit "VERSION=") line))
    else version in
  if starts_with (lit "PRETTY_NAME=") line then
    match version with
    | None => Some (trim_char quote_char (trim_prefix (lit "PRETTY_NAME=") line))
    | Some _ => version
    end
  else version.

Definition release_version : option str :=
  match hp_read (lit "/etc/os-release") with
  | Some content => fold_left release_line (SandboxFs.lines content) None
  | None => None
  end.

(** [{:o}] of the permission bits. *)
Definition octal3 (n : N) : str :=
  let digits := [(n / 64 mod 8)%N; (n / 8 mod 8)%N; (n mod 8)%N] in
  match snd (span (N.eqb 0) digits) with
  | [] => lit "0"
  | ds => map (fun d => (48 + d)%N) ds
  end.

Definition in_kvm_group : bool :=
  match hp_run [lit "id"; lit "-Gn"] with
  | Ok (_, out, _) =>
      existsb (fun g => str_eqb g (lit "kvm") || str_eqb g (lit "libvirt")) (words (from_utf8_lossy out) [])
  | Err _ => false
  end.

Definition installed_path (name : str) : option str :=
  match which_path name with Some [] => None | p => p end.

(** On Linux; the other system is [hp_os]. *)
Definition gather_basic_context : BasicContext :=
  let kvm_exists := probe_exists dev_kvm in
  mkBasicContext (Some (lit "Linux")) release_version (Some hp_arch) (stdout_text (hp_run [lit "uname"; lit "-r"]))
    kvm_exists
    (if kvm_exists then option_map (fun m => octal3 (N.land m 0x1FF)) (probe_mode dev_kvm) else None)
    (if kvm_exists then in_kvm_group else false)
    (fold_left (fun m b => <[b := installed_path b]> m)
       (map lit ["podman"; "docker"; "runsc"; "firecracker"; "which"]%string) ∅).
End Gather.
End Basic.

(** ** Properties *)

Section CheckFacts.
Context `{PROBE : Probe} `{HP : HostProbe}.
Implicit Types ctx : DoctorContext.

(** The five checks, and what each asks of the machine. *)
Inductive infra_check :=
| IcAlive (provider : str) | IcBinary (name : str) (expected : option str) | IcKvm
| IcImage (provider : str) (image : option str) | IcWorker (provider : str).

Definition run_check ctx (c : infra_check) : RichCheckResult :=
  match c with
  | IcAlive p => check_provider_alive ctx p
  | IcBinary n e => check_binary_available ctx n e
  | IcKvm => check_kvm_available ctx
  | IcImage p i => check_image_available ctx p i
  | IcWorker p => check_worker_binary_valid ctx p
  end.

Definition met ctx (c : infra_check) : Prop :=
  match c with
  | IcAlive p =>
      (p = lit "podman" \/ p = lit "docker") /\ probe_exists (configured_socket ctx p) = true /\
      is_ok (hp_connect (configured_socket ctx p)) = true
  | IcBinary n e =>
      exists path, (sc_relevant_binaries (dc_system_context ctx) !! n ≫= bi_path) = Some path /\
        forall expected, e = Some expected -> str_contains path expected = true
  | IcKvm =>
      probe_exists dev_kvm = true /\ check_cpu_virtualization_extensions = true /\
      sc_has_nested_virt (dc_system_context ctx) = Some true
  | IcImage p i =>
      forall paths, image_paths p (default (default_image_for p) i) = Some paths ->
        exists path, path ∈ paths /\ probe_exists path = true
  | IcWorker p =>
      exists path m, worker_binary_path ctx p = Some path /\ probe_exists path = true /\
        probe_mode path = Some m /\ N.land m 0x49 ≠ 0%N /\ is_ok (hp_run [path; lit "--version"]) = true
  end.

Lemma outcome_pass ctx id ty cur ex delta rem :
  rc_status (outcome ctx id ty cur ex delta rem) = CPass <-> delta = [].
Proof. by destruct delta. Qed.

Lemma if_nil {A} (b : bool) (x : A) l : (if b then x :: l else []) = [] <-> b = false.
Proof. by destruct b. Qed.

Lemma ping_ok failed p socket :
  is_ok (ping_socket failed p socket) = probe_exists socket && is_ok (hp_connect socket).
Proof. unfold ping_socket. destruct (probe_exists socket); [|done]. by destruct (hp_connect socket). Qed.

Lemma alive_met ctx p : is_ok (ping_daemon p (configured_socket ctx p)) = true <-> met ctx (IcAlive p).
Proof.
  unfold ping_daemon, met. destruct (str_eqb p (lit "podman")) eqn:E1.
  - apply str_eqb_eq in E1. rewrite ping_ok, andb_true_iff. tauto.
  - destruct (str_eqb p (lit "docker")) eqn:E2.
    + apply str_eqb_eq in E2. rewrite ping_ok, andb_true_iff. tauto.
    + split; [done|]. by intros [[->| ->] _].
Qed.

Lemma image_met ctx p i : snd (find_provider_image p i) = true <-> met ctx (IcImage p i).
Proof.
  unfold find_provider_image, met. destruct (image_paths _ _) as [paths|]; [|by split].
  destruct (find probe_exists paths) as [q|] eqn:E.
  - apply find_some in E as [Hin Hq]. split; [intros _ ? [= <-]; exists q; by rewrite list_elem_of_In|done].
  - split; [done|]. intros H. destruct (H paths eq_refl) as (q & Hin & Hq).
    pose proof (find_none _ _ E q (proj1 (list_elem_of_In _ _) Hin)). congruence.
Qed.

Lemma worker_met ctx p : fst (validate_worker_binary (worker_binary_path ctx p)) = true <-> met ctx (IcWorker p).
Proof.
  unfold met, worker_binary_path. set (o := match _ ≫= cfg_worker_binary with Some q => Some q | None => _ end).
  unfold validate_worker_binary. destruct o as [path|]; [|split; [done|by intros (? & ? & ? & _)]].
  destruct (probe_exists path) eqn:Ee; cbn [negb]; [|split; [done|intros (? & ? & [= <-] & ? & _); congruence]].
  destruct (probe_mode path) as [m|] eqn:Em; [|split; [done|intros (? & ? & [= <-] & _ & ? & _); congruence]].
  destruct (N.eqb_spec (N.land m 0x49) 0) as [Ez|Ez]; cbn [negb].
  - split; [done|]. intros (? & m' & [= <-] & _ & Hm & Hz & _). congruence.
  - destruct (hp_run [path; lit "--version"]) as [[[[] out] err]|e] eqn:Er; cbn [fst].
    + split; [intros _; exists path, m; by rewrite Er|done].
    + split; [intros _; exists path, m; by rewrite Er|done].
    + split; [done|]. intros (? & ? & [= <-] & _ & _ & _ & Hr). by rewrite Er in Hr.
Qed.

(** What the checks of the infrastructure mean.  Each passes exactly when the machine
    is as it asks; it then reports no difference and no remediation, and otherwise
    it fails with both: it never warns, also where all it misses is marked as a
    warning - a nested virtualization, an expected path. *)
Theorem infra_checks_spec ctx (c : infra_check) :
  let r := run_check ctx c in
  (rc_status r = CPass <-> met ctx c) /\
  (rc_status r = CPass /\ rc_delta r = [] /\ rc_remediation r = None \/
   rc_status r = CFail /\ rc_delta r ≠ [] /\ is_Some (rc_remediation r)).
Proof.
  cbv zeta. split.
  - destruct c as [p|n e| |p i|p]; cbn [run_check].
    + rewrite <- alive_met. unfold check_provider_alive. rewrite outcome_pass.
      by destruct (ping_daemon _ _).
    + unfold check_binary_available. rewrite outcome_pass. cbn [met].
      destruct (sc_relevant_binaries _ !! n) as [info|]; cbn [default from_option mbind option_bind bi_path id];
        [|split; [done|by intros (? & ? & _)]].
      destruct (bi_path info) as [path|]; cbn [negb]; [|split; [done|by intros (? & ? & _)]].
      destruct e as [ex|]; [|split; [intros _; by exists path|done]].
      destruct (str_contains path ex) eqn:Ec; cbn [negb]; split; try done.
      * intros _. exists path. split; [done|]. by intros ? [= <-].
      * intros (? & [= <-] & H). specialize (H ex eq_refl). congruence.
    + unfold check_kvm_available. rewrite outcome_pass, !app_nil, !if_nil, !negb_false_iff.
      cbn [met]. destruct (sc_has_nested_virt _) as [[]|]; cbn; naive_solver.
    + rewrite <- image_met. unfold check_image_available. destruct (find_provider_image p i) as [ip []]; cbn; by split.
    + rewrite <- worker_met. unfold check_worker_binary_valid.
      destruct (validate_worker_binary _) as [[] details]; cbn; by split.
  - assert (Ho : forall id ty cur ex delta rem, let r := outcome ctx id ty cur ex delta rem in
      rc_status r = CPass /\ rc_delta r = [] /\ rc_remediation r = None \/
      rc_status r = CFail /\ rc_delta r ≠ [] /\ is_Some (rc_remediation r)).
    { intros. unfold outcome, r. destruct delta; [left|right]; cbn; split_and!; try done; by eexists. }
    destruct c as [p|n e| |p i|p]; cbn [run_check]; try apply Ho.
    + unfold check_image_available. destruct (find_provider_image p i). apply Ho.
    + unfold check_worker_binary_valid. destruct (validate_worker_binary _). apply Ho.
Qed.

(** The snapshot holds an entry for each of the programs it looks for, and the
    version of none that was not found. *)
Theorem relevant_binaries_spec (name : str) :
  check_relevant_binaries !! name =
  if bool_decide (name ∈ checked_binaries)
  then Some (mkBinary name (which_path name) (which_path name ≫= fun _ => get_binary_version name)) else None.
Proof.
  unfold check_relevant_binaries.
  set (f := fun n => mkBinary n (which_path n) (which_path n ≫= fun _ => get_binary_version n)).
  assert (Hg : forall ns (m : gmap str BinaryInfo), fold_left (fun m n => <[n := f n]> m) ns m !! name =
    if bool_decide (name ∈ ns) then Some (f name) else m !! name).
  { induction ns as [|n ns IH]; intros m; [done|]. cbn [fold_left]. rewrite IH.
    destruct (decide (n = name)) as [->|Hn].
    - rewrite lookup_insert_eq. rewrite (bool_decide_true (name ∈ name :: ns)) by set_solver.
      by case_bool_decide.
    - rewrite lookup_insert_ne by done. do 2 case_bool_decide; set_solver. }
  apply Hg.
Qed.
End CheckFacts.

(** ** Examples *)

Module Demo.

(** A Fedora machine with KVM and an AMD processor whose module says 1. *)
#[export] Instance machine : Probe := {|
  probe_exists := fun p => str_eqb p (lit "/dev/kvm") || str_eqb p (lit "/usr/local/bin/bastion-worker-podman");
  probe_connect := fun _ => true;
  probe_which := fun n => if str_eqb n (lit "podman") then Some (true, lit "/usr/bin/podman") else Some (false, []);
  probe_mode := fun _ => Some 493%N;
  probe_uname := fun _ => Some (lit "6.1")
|}.

Definition nl : str := [10%N].
Definition release : str :=
  lit "NAME=Fedora" ++ nl ++ lit "VERSION=" ++ [34%N] ++ lit "41" ++ [34%N] ++ nl ++ lit "PRETTY_NAME=Fedora Linux 41".

#[export] Instance host : HostProbe := {|
  hp_read := fun p =>
    if str_eqb p (lit "/etc/os-release") then Some release
    else if str_eqb p (lit "/sys/module/kvm_amd/parameters/nested") then Some (lit "1")
    else if str_eqb p (lit "/proc/cpuinfo") then Some (lit "flags : fpu svm") else None;
  hp_run := fun argv => match argv with
    | [p; _] => if str_eqb p (lit "podman") then Ok (true, lit "podman version 5.0", [])
                else if str_eqb p (lit "/usr/local/bin/bastion-worker-podman") then Ok (false, [], lit "usage")
                else Err (lit "no such file")
    | _ => Err (lit "no such file") end;
  hp_connect := fun _ => Ok tt;
  hp_os := lit "linux"; hp_arch := lit "x86_64"
|}.

Definition here : DoctorContext := mkDoctorContext ∅ gather_context.

Example snapshot_ex :
  get_os_version = lit "41" /\ Basic.release_version = Some (lit "41") /\
  sc_has_nested_virt gather_context = Some false /\
  option_map bi_version (sc_relevant_binaries gather_context !! lit "podman") = Some (Some (lit "podman version 5.0")).
Proof. split_and!; vm_compute; reflexivity. Qed.

(** A machine that can run virtual machines fails the check of KVM, for its nesting,
    and a worker that fails to run passes. *)
Example checks_ex :
  map (fun c => rc_status (run_check here c))
    [IcKvm; IcWorker (lit "podman"); IcBinary (lit "podman") (Some (lit "/usr/bin"));
     IcBinary (lit "podman") (Some (lit "/opt")); IcImage (lit "podman") None; IcAlive (lit "podman")] =
  [CFail; CPass; CPass; CFail; CPass; CFail] /\
  map di_severity (rc_delta (run_check here IcKvm)) = [Warning].
Proof. split; vm_compute; reflexivity. Qed.

Example octal_ex : map Basic.octal3 [432; 438; 8; 0]%N = map lit ["660"; "666"; "10"; "0"]%string.
Proof. reflexivity. Qed.
End Demo.
