(* ===== verification/HostProviders.v ===== *)
(** * The providers without an isolated machine

    Models [bastion-infrastructure/src/provider/local.rs], which runs the
    commands of a sandbox on the host in a directory of its own, and
    [bastion-infrastructure/src/provider/wasm.rs], which keeps the files of a
    sandbox in memory and pretends to run its commands.  The files of the host
    are the class [HostFs] of [Materialize]; directories, processes and the
    clock are [LocalHost].  A panic is [None] in the place of the answer: the
    state it leaves behind is the state of the provider. *)

From S2P Require Import Prelude Sandbox Command SandboxFsm ProviderTypes Normalizer Materialize.

(** ** The host *)

(** The outcome of [Command::output]: the exit code ([None] after a signal), the
    two outputs, and the time it took in milliseconds. *)
Record RunOutput := mkRunOutput {
  ro_code : option Z; ro_stdout : bytes; ro_stderr : bytes; ro_elapsed : Z
}.

Class LocalHost `{CH : Chrono} (W : Type) := {
  lh_now : W -> DateTime;
  lh_instant : W -> Z;
  lh_rmdir : str -> W -> result str unit * W;
  (** Program and arguments, directory and additional environment. *)
  lh_output : list str -> str -> gmap str str -> W -> result str RunOutput * W;
  lh_is_dir : str -> W -> bool;
  (** The entries of a directory, each with its full path, whether it is a
      directory and its length, or the error of reading it. *)
  lh_read_dir : str -> W -> result str (list (result str (str * bool * Z)))
}.

(** ** Paths *)

Definition slash : char := chr "/".

(** [trim_start_matches('/')]. *)
Definition trim_slashes (p : str) : str := snd (span (N.eqb slash) p).

Definition ignored_segment (s : str) : bool := str_eqb s [] || str_eqb s (lit ".").

(** The trailing segments that [Path::components] skips; the first is kept. *)
Fixpoint drop_ignored (rev_segments : list str) : list str :=
  match rev_segments with
  | [] | [_] => rev_segments
  | s :: rest => if ignored_segment s then drop_ignored rest else rev_segments
  end.

(** [Path::parent]. *)
Definition path_parent (p : str) : option str :=
  match drop_ignored (rev (split_on slash p)) with
  | [] => None
  | [x] => match x with [] => None | _ => Some [] end
  | _ :: rest =>
      let kept := rev (drop_ignored rest) in
      Some (match kept with [[]] => [slash] | _ => join [slash] kept end)
  end.

(** The chunks a finished command is streamed as. *)
Definition chunks_of (r : CommandResult) : list CommandChunk :=
  match cr_stdout r with [] => [] | out => [chunk_stdout out] end ++
  match cr_stderr r with [] => [] | err => [chunk_stderr err] end ++
  [chunk_exit_code (cr_exit_code r)].

(** ** The local provider *)

Module Local.

(** The provider attaches no payload to an entry of its table. *)
Definition no_payload (t : Empty_set) : Type := match t with end.

Section Local.
Context `{CH : Chrono} {W : Type} `{HOST : !HostFs W} `{LOCAL : !@LocalHost CH W}.

Abbreviation States := (gmap str (@StateEntry Empty_set no_payload Z)).

Record LocalProvider := mkLocal {
  workspaces : gmap str str;
  sandboxes : gmap str Sandbox;
  base_dir : str;
  cleanup : bool;
  state_machine : States
}.

Definition with_workspaces (m : gmap str str) (p : LocalProvider) : LocalProvider :=
  mkLocal m (sandboxes p) (base_dir p) (cleanup p) (state_machine p).
Definition with_sandboxes (m : gmap str Sandbox) (p : LocalProvider) : LocalProvider :=
  mkLocal (workspaces p) m (base_dir p) (cleanup p) (state_machine p).
Definition with_states (m : States) (p : LocalProvider) : LocalProvider :=
  mkLocal (workspaces p) (sandboxes p) (base_dir p) (cleanup p) m.

(** [DANGEROUS_ALLOW_LOCAL] is the variable of the environment. *)
Definition LocalProvider_new (dangerous_allow_local : option str) (base : str) :
    result DomainError LocalProvider :=
  match dangerous_allow_local with
  | None => Err (PermissionDenied (lit "LocalProvider requires DANGEROUS_ALLOW_LOCAL=1 for security"))
  | Some _ => Ok (mkLocal ∅ ∅ base true (fsm_new no_payload))
  end.

Definition name : str := lit "local".

Definition capabilities : option ProviderCapabilities :=
  expect_ok (try_new false true false 86400000 u64_max u32_max true false 10).

Definition workspace_of (base id : str) : str := path_join base (lit "local-" ++ id).

(** [create] after the directory is there; [None] is the panic of the timeout. *)
Definition new_entity (id template : str) (resources : ResourcesSpec) (network : NetworkSpec)
    (timeout_ms : Z) (now : DateTime) : option (result DomainError Sandbox) :=
  let '(r, sandbox) := mark_running (Sandbox_new id template (lit "local") None resources network now) in
  match r with
  | Err e => Some (Err e)
  | Ok _ => option_map Ok (set_timeout timeout_ms sandbox)
  end.

(** The entry of the table of states. *)
Definition register_running (id : str) (now : Z) (p : LocalProvider) : result DomainError unit * LocalProvider :=
  let '(r, m) := register no_payload id now (state_machine p) in
  match r with
  | Err e => (Err e, with_states m p)
  | Ok _ =>
      let '(r, m) := transition no_payload id Running m in
      (match r with Err e => Err e | Ok _ => Ok tt end, with_states m p)
  end.

Definition create (id template : str) (resources : ResourcesSpec) (network : NetworkSpec)
    (_env_vars : gmap str str) (timeout_ms : Z) (p : LocalProvider) (w : W) :
    option (result DomainError Sandbox) * LocalProvider * W :=
  let workspace := workspace_of (base_dir p) id in
  match host_mkdirs workspace w with
  | (Err e, w) => (Some (Err (Internal (lit "Failed to create workspace: " ++ e))), p, w)
  | (Ok _, w) =>
      let p := with_workspaces (<[id := workspace]> (workspaces p)) p in
      match new_entity id template resources network timeout_ms (lh_now w) with
      | None => (None, p, w)
      | Some (Err e) => (Some (Err e), p, w)
      | Some (Ok sandbox) =>
          let p := with_sandboxes (<[id := sandbox]> (sandboxes p)) p in
          let '(r, p) := register_running id (lh_instant w) p in
          (Some (match r with Ok _ => Ok sandbox | Err e => Err e end), p, w)
      end
  end.

Definition terminate (id : str) (p : LocalProvider) (w : W) :
    result DomainError unit * LocalProvider * W :=
  let w := match workspaces p !! id with
           | Some ws => if cleanup p then snd (lh_rmdir ws w) else w
           | None => w
           end in
  (Ok tt,
   mkLocal (delete id (workspaces p)) (delete id (sandboxes p)) (base_dir p) (cleanup p)
     (snd (remove no_payload id (state_machine p))), w).

Definition is_alive (id : str) (p : LocalProvider) : result DomainError bool :=
  match get_state no_payload id (state_machine p) with
  | Some status => Ok (bool_decide (status = Running))
  | None => Ok (bool_decide (is_Some (sandboxes p !! id)))
  end.

Definition snapshots_unsupported {A} : result DomainError A :=
  Err (UnsupportedOperation (lit "snapshots not supported for local provider")).

Definition create_snapshot (_id _name : str) : result DomainError unit := snapshots_unsupported.
Definition restore_snapshot (_snapshot_id : str) : result DomainError Sandbox := snapshots_unsupported.

Definition sandbox_not_found {A} (id : str) : result DomainError A :=
  Err (NotFound (lit "Sandbox " ++ id ++ lit " not found")).

Definition get_info (id : str) (p : LocalProvider) : result DomainError Sandbox :=
  match get_state no_payload id (state_machine p) with
  | None => sandbox_not_found id
  | Some _ => match sandboxes p !! id with Some sb => Ok sb | None => sandbox_not_found id end
  end.

(** The filter is ignored. *)
Definition list_sandboxes (_filter : SandboxFilter) (p : LocalProvider) :
    result DomainError (list Sandbox) :=
  Ok (omap (fun id => match get_info id p with Ok sb => Some sb | Err _ => None end)
        (list_active no_payload (state_machine p))).

Definition local_set_timeout (_id : str) (_timeout_ms : Z) : result DomainError unit := Ok tt.

(** *** Commands and files *)

Definition cancel_command (_id : str) (_grace_period_ms : Z) : result DomainError bool := Ok false.

Definition with_workspace {A} (id : str) (p : LocalProvider) (w : W)
    (k : str -> W -> result DomainError A * W) : result DomainError A * W :=
  match workspaces p !! id with
  | Some ws => k ws w
  | None => (sandbox_not_found id, w)
  end.

Definition shell_cmd (spec : CommandSpec) : str :=
  match cs_args spec with
  | [] => cs_command spec
  | args => cs_command spec ++ lit " " ++ join (lit " ") args
  end.

Definition run_command (id : str) (spec : CommandSpec) (p : LocalProvider) (w : W) :
    result DomainError CommandResult * W :=
  with_workspace id p w (fun ws w =>
    match lh_output [lit "sh"; lit "-c"; shell_cmd spec] ws (cs_env_vars spec) w with
    | (Err e, w) => (Err (Internal (lit "Failed to execute command: " ++ e)), w)
    | (Ok out, w) =>
        (Ok (mkCommandResult (default (-1)%Z (ro_code out)) (ro_stdout out) (ro_stderr out)
               (as_u64 (ro_elapsed out)) false), w)
    end).

(** The chunks that the channel delivers. *)
Definition run_command_stream (id : str) (spec : CommandSpec) (p : LocalProvider) (w : W) :
    result DomainError (list CommandChunk) * W :=
  let? (r, w) := run_command id spec p w in (Ok (chunks_of r), w).

Definition full_path (ws path : str) : str := path_join ws (trim_slashes path).

Definition write_file (id path : str) (content : bytes) (p : LocalProvider) (w : W) :
    result DomainError unit * W :=
  with_workspace id p w (fun ws w =>
    let full := full_path ws path in
    let made :=
      match path_parent full with
      | Some parent =>
          let '(r, w) := host_mkdirs parent w in
          (map_err (fun e => Internal (lit "Failed to create directory: " ++ e)) r, w)
      | None => (Ok tt, w)
      end in
    let? (_u, w) := made in
    let '(r, w) := host_write full content w in
    (map_err (fun e => Internal (lit "Failed to write file: " ++ e)) r, w)).

Definition read_file (id path : str) (p : LocalProvider) (w : W) : result DomainError bytes * W :=
  with_workspace id p w (fun ws w =>
    (map_err (fun e => Internal (lit "Failed to read file: " ++ e)) (host_read (full_path ws path) w), w)).

Fixpoint local_entries (now : DateTime) (es : list (result str (str * bool * Z))) :
    result DomainError (list (FileEntry DateTime)) :=
  match es with
  | [] => Ok []
  | Err e :: _ => Err (Internal e)
  | Ok (path, dir, len) :: es =>
      match local_entries now es with
      | Ok l => Ok (mkFileEntry path dir len (Some now) [] :: l)
      | Err e => Err e
      end
  end.

(** Something that is not a directory has no entries. *)
Definition list_files (id dir : str) (p : LocalProvider) (w : W) :
    result DomainError (list (FileEntry DateTime)) * W :=
  with_workspace id p w (fun ws w =>
    let full := full_path ws dir in
    (if lh_is_dir full w then
       match lh_read_dir full w with
       | Err e => Err (Internal (lit "Failed to read directory: " ++ e))
       | Ok es => local_entries (lh_now w) es
       end
     else Ok [], w)).

(** *** Histories *)

Inductive local_op :=
| OpCreate (id template : str) (resources : ResourcesSpec) (network : NetworkSpec)
    (env_vars : gmap str str) (timeout_ms : Z)
| OpTerminate (id : str).

Definition local_step (op : local_op) (s : LocalProvider * W) : LocalProvider * W :=
  let '(p, w) := s in
  match op with
  | OpCreate id t r n e ms => let '(_, p, w) := create id t r n e ms p w in (p, w)
  | OpTerminate id => let '(_, p, w) := terminate id p w in (p, w)
  end.

Definition local_run (ops : list local_op) (s : LocalProvider * W) : LocalProvider * W :=
  fold_left (fun s op => local_step op s) ops s.
End Local.
End Local.

(** *** The local provider: its state *)

Module LocalFacts.
Import Local.
Section LocalFacts.
Context `{CH : Chrono} {W : Type} `{HOST : !HostFs W} `{LOCAL : !@LocalHost CH W}.
Implicit Types (p : LocalProvider) (w : W).

(** What holds of the provider whatever was created and terminated: the three
    tables know the same sandboxes, except that a directory may be left of a
    creation that did not come to its end. *)
Record local_ok p : Prop := mkLocalOk {
  ok_states : forall id, is_Some (state_machine p !! id) <-> is_Some (sandboxes p !! id);
  ok_workspaces : forall id ws, workspaces p !! id = Some ws -> ws = workspace_of (base_dir p) id;
  ok_covered : forall id, is_Some (sandboxes p !! id) -> is_Some (workspaces p !! id);
  ok_entities : forall id sb, sandboxes p !! id = Some sb -> sb_id sb = id /\ status sb = Running
}.

(** What [register_running] does: a second registration is refused after it has
    reset the entry. *)
Lemma register_running_spec id now p :
  register_running id now p =
  match state_machine p !! id with
  | Some _ => (Err (AlreadyExists (lit "Sandbox already registered")),
               with_states (<[id := mkEntry no_payload Pending None now]> (state_machine p)) p)
  | None => (Ok tt, with_states (<[id := mkEntry no_payload Running None now]> (state_machine p)) p)
  end.
Proof.
  unfold register_running, register. destruct (state_machine p !! id); [done|]. unfold transition.
  rewrite lookup_insert_eq. cbn. by rewrite insert_insert_eq.
Qed.

Lemma new_entity_spec id t r n ms now :
  new_entity id t r n ms now =
  option_map (fun e => Ok (mkSandbox id t (lit "local") None Running now (Some e) r n ∅ None None))
    (add_millis now (as_i64 ms)).
Proof. unfold new_entity, set_timeout. cbn. by destruct (add_millis _ _). Qed.

Lemma local_ok_new v base p : LocalProvider_new v base = Ok p -> local_ok p.
Proof.
  unfold LocalProvider_new. destruct v; [|done]. intros [= <-].
  split; cbn; unfold fsm_new; intros id; rewrite ?lookup_empty; done.
Qed.

Lemma is_Some_insert {A} (m : gmap str A) i x j :
  is_Some (<[i := x]> m !! j) <-> i = j \/ is_Some (m !! j).
Proof. by rewrite lookup_insert_is_Some'. Qed.

Lemma local_ok_create id t r n e ms p w : local_ok p -> local_ok (create id t r n e ms p w).1.2.
Proof.
  intros [Hs Hw Hc He]. unfold create. destruct (host_mkdirs _ w) as [[[]|err] w1]; [|by split].
  assert (Hw' : forall id' ws, (<[id := workspace_of (base_dir p) id]> (workspaces p)) !! id' = Some ws ->
    ws = workspace_of (base_dir p) id').
  { intros id' ws [[<- <-]|[_ Hl]]%lookup_insert_Some; eauto. }
  rewrite new_entity_spec. destruct (add_millis _ _) as [x|]; cbn.
  - rewrite register_running_spec. cbn.
    destruct (state_machine p !! id); cbn; (split; cbn; [| exact Hw' | |]).
    all: try (intros id'; rewrite !is_Some_insert; first [by rewrite Hs | by intros [?|?]; auto]).
    all: intros id' sb [[<- <-]|[_ Hl]]%lookup_insert_Some; [done|eauto].
  - split; cbn; try done. intros id' Hi. apply is_Some_insert. eauto.
Qed.

Lemma is_Some_delete {A} (m : gmap str A) i j : is_Some (delete i m !! j) <-> i ≠ j /\ is_Some (m !! j).
Proof. by rewrite lookup_delete_is_Some. Qed.

Lemma local_ok_terminate id p w : local_ok p -> local_ok (terminate id p w).1.2.
Proof.
  intros [Hs Hw Hc He]. split; cbn.
  - intros id'. by rewrite !is_Some_delete, Hs.
  - intros id' ws [_ Hl]%lookup_delete_Some. eauto.
  - intros id'. rewrite !is_Some_delete. intros [??]; auto.
  - intros id' sb [_ Hl]%lookup_delete_Some. eauto.
Qed.

Lemma local_ok_run ops p w : local_ok p -> local_ok (local_run ops (p, w)).1.
Proof.
  revert p w. induction ops as [|op ops IH]; intros p w Hp; [done|].
  change (local_run (op :: ops) (p, w)) with (local_run ops (local_step op (p, w))).
  destruct op as [id t r n e ms|id]; unfold local_step.
  - pose proof (local_ok_create id t r n e ms p w Hp) as Hc.
    destruct (create id t r n e ms p w) as [[? p'] w']. by apply IH.
  - by apply IH, (local_ok_terminate id p w).
Qed.

Lemma get_info_ok id p : local_ok p ->
  get_info id p = match sandboxes p !! id with Some sb => Ok sb | None => sandbox_not_found id end.
Proof.
  intros [Hs _ _ _]. unfold get_info, get_state. specialize (Hs id).
  destruct (state_machine p !! id), (sandboxes p !! id) as [sb|]; cbn; try done.
  exfalso. assert (Hn : is_Some (None (A := StateEntry no_payload))) by (apply Hs; eauto). by destruct Hn.
Qed.

(** Whatever is created and terminated, with failures in between: a sandbox is
    listed exactly when [get_info] finds it, once, under its own id; it has its
    own directory under the base; one of unknown id is not alive.  The status in
    the listing is always that of a running sandbox, also of one that the table of
    states has back at pending. *)
Theorem local_invariant (ops : list local_op) (v : option str) (base : str) (p0 : LocalProvider)
    (filter : SandboxFilter) (w : W) :
  LocalProvider_new v base = Ok p0 ->
  let p := (local_run ops (p0, w)).1 in
  exists l, list_sandboxes filter p = Ok l /\ NoDup (map sb_id l) /\
    (forall sb, sb ∈ l <-> get_info (sb_id sb) p = Ok sb) /\
    (forall sb, sb ∈ l -> status sb = Running /\ workspaces p !! sb_id sb = Some (workspace_of (base_dir p) (sb_id sb))) /\
    (forall id, get_info id p = sandbox_not_found id -> is_alive id p = Ok false).
Proof.
  intros Hnew p. assert (Hok : local_ok p) by (eapply local_ok_run, local_ok_new; exact Hnew).
  revert Hok. generalize p. clear. intros p Hok. unfold list_sandboxes. eexists. split; [reflexivity|].
  set (pick := fun id => match get_info id p with Ok sb => Some sb | Err _ => None end).
  assert (Hpick : forall id sb, pick id = Some sb -> sb_id sb = id /\ get_info id p = Ok sb).
  { intros id sb. unfold pick. rewrite (get_info_ok id p Hok).
    destruct (sandboxes p !! id) as [sb'|] eqn:E; [|done]. intros [= <-].
    by destruct (ok_entities p Hok id sb' E). }
  assert (Hmem : forall sb, sb ∈ omap pick (list_active no_payload (state_machine p)) <->
    get_info (sb_id sb) p = Ok sb).
  { intros sb. rewrite list_elem_of_omap. split.
    - intros (id & _ & Hp). by destruct (Hpick id sb Hp) as [-> ?].
    - intros Hg. exists (sb_id sb). split; [|unfold pick; by rewrite Hg].
      apply count_by_status_spec; [exact Running|]. unfold get_info in Hg.
      by destruct (get_state no_payload (sb_id sb) (state_machine p)). }
  split_and!; [|exact Hmem| |].
  - destruct (count_by_status_spec no_payload (state_machine p) Running) as (_ & Hnd & _).
    revert Hnd. generalize (list_active no_payload (state_machine p)) as ids.
    induction ids as [|id ids IH]; [by constructor|]. intros [Hni Hnd]%NoDup_cons.
    cbn. destruct (pick id) as [sb|] eqn:E; [|by apply IH]. cbn. apply NoDup_cons.
    split; [|by apply IH]. destruct (Hpick id sb E) as [-> _].
    intros (sb' & Heq & (id' & Hin & Hp')%list_elem_of_omap)%list_elem_of_fmap.
    destruct (Hpick id' sb' Hp') as [Hid _]. congruence.
  - intros sb Hin%Hmem. rewrite (get_info_ok _ p Hok) in Hin.
    destruct (sandboxes p !! sb_id sb) as [sb'|] eqn:E; [|done]. injection Hin as ->.
    split; [by eapply ok_entities|]. destruct (ok_covered p Hok (sb_id sb)) as [ws Hws]; [eauto|].
    by rewrite Hws, (ok_workspaces p Hok _ _ Hws).
  - intros id Hg. unfold is_alive. rewrite (get_info_ok id p Hok) in Hg.
    destruct (sandboxes p !! id) as [sb|] eqn:E; [done|].
    pose proof (ok_states p Hok id) as Hs. unfold get_state.
    destruct (state_machine p !! id) as [en|]; [|done].
    destruct (proj1 Hs) as [? ?]; [eauto|congruence].
Qed.

(** A creation, on every path.  A sandbox of a new id is running and alive; one of
    an id that exists is refused after its entity and directory were replaced,
    and the sandbox that was there is no longer alive, although it is still
    listed; and a timeout beyond the calendar panics after the directory was
    made and noted.  Other sandboxes are not touched. *)
Theorem local_create_spec (id t : str) (r : ResourcesSpec) (n : NetworkSpec) (e : gmap str str) (ms : Z)
    (p : LocalProvider) (w : W) :
  let '(res, p', w') := create id t r n e ms p w in
  let ws := workspace_of (base_dir p) id in
  w' = snd (host_mkdirs ws w) /\
  (forall id', id' ≠ id -> get_info id' p' = get_info id' p /\ is_alive id' p' = is_alive id' p /\
     workspaces p' !! id' = workspaces p !! id') /\
  match fst (host_mkdirs ws w) with
  | Err err => res = Some (Err (Internal (lit "Failed to create workspace: " ++ err))) /\ p' = p
  | Ok _ =>
      workspaces p' !! id = Some ws /\
      match add_millis (lh_now w') (as_i64 ms) with
      | None => res = None /\ p' = with_workspaces (<[id := ws]> (workspaces p)) p
      | Some expiry =>
          let sb := mkSandbox id t (lit "local") None Running (lh_now w') (Some expiry) r n ∅ None None in
          let known := bool_decide (is_Some (state_machine p !! id)) in
          res = Some (if known then Err (AlreadyExists (lit "Sandbox already registered")) else Ok sb) /\
          get_info id p' = Ok sb /\ is_alive id p' = Ok (negb known)
      end
  end.
Proof.
  unfold create. destruct (host_mkdirs _ w) as [[[]|err] w1]; [|by cbn].
  rewrite new_entity_spec. destruct (add_millis _ _) as [x|] eqn:Ea; cbn.
  - rewrite register_running_spec. cbn.
    destruct (state_machine p !! id) as [en|] eqn:Es; cbn; rewrite Ea; (split; [done|]);
      unfold get_info, is_alive, get_state; cbn; rewrite !lookup_insert_eq; cbn;
      (split; [intros id' Hn; by rewrite !lookup_insert_ne by done | done]).
  - rewrite Ea. split; [done|]. rewrite lookup_insert_eq. split; [|done].
    intros id' Hn. unfold get_info, is_alive. cbn. by rewrite lookup_insert_ne by done.
Qed.

(** A terminated sandbox is gone from every table, and nothing can be done with it:
    whatever it was asked, of any sandbox, an operation on files and commands of an
    unknown sandbox answers not found and touches nothing of the host. *)
Theorem local_terminate_spec (id : str) (p : LocalProvider) (w : W) :
  let '(res, p', w') := terminate id p w in
  res = Ok tt /\ get_info id p' = sandbox_not_found id /\ is_alive id p' = Ok false /\
  (forall spec w0, run_command id spec p' w0 = (sandbox_not_found id, w0)) /\
  (forall path content w0, write_file id path content p' w0 = (sandbox_not_found id, w0) /\
     read_file id path p' w0 = (sandbox_not_found id, w0) /\
     list_files id path p' w0 = (sandbox_not_found id, w0)) /\
  (forall id', id' ≠ id -> get_info id' p' = get_info id' p /\ is_alive id' p' = is_alive id' p /\
     workspaces p' !! id' = workspaces p !! id').
Proof.
  unfold terminate. cbn. split; [done|].
  unfold get_info, is_alive, get_state, run_command, write_file, read_file, list_files, with_workspace. cbn.
  rewrite !lookup_delete_eq. cbn. do 4 (split; [done|]).
  intros id' Hn. by rewrite !lookup_delete_ne by done.
Qed.
End LocalFacts.
End LocalFacts.

(** *** Where the paths of a sandbox lead *)

Module LocalPaths.
Import Local.

(** Where an absolute path leads, read segment by segment from the root and
    without symbolic links; the innermost directory comes first. *)
Fixpoint resolve (at_ : list str) (segments : list str) : list str :=
  match segments with
  | [] => at_
  | s :: rest =>
      if ignored_segment s then resolve at_ rest
      else if str_eqb s (lit "..") then resolve (tail at_) rest
      else resolve (s :: at_) rest
  end.

Definition leads_to (p : str) : list str := resolve [] (split_on slash p).

(** Whether the segments never climb above where they start, [depth] below it. *)
Fixpoint stays_below (depth : nat) (segments : list str) : bool :=
  match segments with
  | [] => true
  | s :: rest =>
      if ignored_segment s then stays_below depth rest
      else if str_eqb s (lit "..") then
        match depth with O => false | S d => stays_below d rest end
      else stays_below (S depth) rest
  end.

Lemma resolve_app at_ a b : resolve at_ (a ++ b) = resolve (resolve at_ a) b.
Proof.
  revert at_. induction a as [|s a IH]; intros at_; [done|]. cbn.
  destruct (ignored_segment s); [apply IH|]. destruct (str_eqb s _); apply IH.
Qed.

Lemma split_on_sep sep a b : split_on sep (a ++ sep :: b) = split_on sep a ++ split_on sep b.
Proof.
  induction a as [|c a IH]; cbn; [by rewrite N.eqb_refl|].
  destruct (c =? sep)%N; rewrite IH; [done|].
  by destruct (split_on sep a) eqn:E; [apply split_on_nonempty in E|].
Qed.

Lemma trim_slashes_relative p : starts_with [slash] (trim_slashes p) = false.
Proof.
  unfold trim_slashes. destruct (snd (span _ p)) as [|c r] eqn:E; [done|].
  apply span_stop in E. cbn [starts_with]. by rewrite E.
Qed.

(** [Path::join] of a relative path goes on from the base. *)
Lemma leads_to_join base p :
  starts_with [slash] p = false -> leads_to (path_join base p) = resolve (leads_to base) (split_on slash p).
Proof.
  intros Hp. unfold path_join, leads_to. change [chr "/"] with [slash]. rewrite Hp.
  destruct (rev base) as [|c r] eqn:Er;
    apply (f_equal (@rev N)) in Er; rewrite rev_involutive in Er; cbn in Er; [by subst|].
  change (chr "/") with slash. destruct (c =? slash)%N eqn:Ec.
  - apply N.eqb_eq in Ec as ->. rewrite Er, <- app_assoc. cbn. rewrite !split_on_sep, !resolve_app.
    change (split_on slash []) with [[] : str]. done.
  - by rewrite split_on_sep, resolve_app.
Qed.

Lemma split_trim_slashes at_ p : resolve at_ (split_on slash (trim_slashes p)) = resolve at_ (split_on slash p).
Proof.
  unfold trim_slashes. induction p as [|c p IH]; [done|]. cbn.
  destruct (slash =? c)%N eqn:E.
  - apply N.eqb_eq in E as <-. rewrite N.eqb_refl. by destruct (span _ p).
  - done.
Qed.

(** Where a path of the sandbox leads on the host. *)
Lemma full_path_leads ws p : leads_to (full_path ws p) = resolve (leads_to ws) (split_on slash p).
Proof. unfold full_path. by rewrite leads_to_join, split_trim_slashes by apply trim_slashes_relative. Qed.

Lemma stays_below_resolve segments below at_ :
  stays_below (length below) segments = true -> exists below', resolve (below ++ at_) segments = below' ++ at_.
Proof.
  revert below. induction segments as [|s rest IH]; intros below H; [by exists below|]. cbn in *.
  destruct (ignored_segment s); [by apply IH|]. destruct (str_eqb s _).
  - destruct below as [|x below]; [done|]. by apply IH.
  - by apply (IH (s :: below)).
Qed.

Lemma name_segment prefix id :
  slash ∉ prefix -> slash ∉ id -> prefix ≠ [] -> hd_error prefix ≠ Some (chr ".") ->
  forall at_, resolve at_ (split_on slash (prefix ++ id)) = (prefix ++ id) :: at_.
Proof.
  intros Hp Hi Hn Hd at_. rewrite split_on_none by (rewrite elem_of_app; tauto). cbn.
  destruct prefix as [|c prefix]; [done|]. cbn in Hd |- *.
  assert (Hneq : forall s, hd_error s <> Some c -> str_eqb (c :: prefix ++ id) s = false).
  { intros s Hs. apply str_eqb_neq. intros <-. by apply Hs. }
  unfold ignored_segment. rewrite !Hneq; try done; intros [= <-]; by apply Hd.
Qed.

Lemma local_segment id at_ :
  slash ∉ id -> resolve at_ (split_on slash (lit "local-" ++ id)) = (lit "local-" ++ id) :: at_.
Proof.
  intros Hi. apply name_segment; [|done..]. apply (bool_decide_unpack _). by vm_compute.
Qed.

(** C37. Where the paths of a local sandbox lead under an absolute base: one that never
    climbs above its start stays inside the sandbox's own directory, and leading
    slashes change nothing; but one that starts with [..] is not held back, and
    leads through any other sandbox's directory to every one of its files - and
    as far up as it likes. *)
Theorem local_paths_lead (base id : str) :
  slash ∉ id ->
  let ws := workspace_of base id in
  leads_to ws = (lit "local-" ++ id) :: leads_to base /\
  (forall path, stays_below 0 (split_on slash path) = true ->
     exists inside, leads_to (full_path ws path) = inside ++ leads_to ws) /\
  (forall other path, slash ∉ other ->
     leads_to (full_path ws (lit "../local-" ++ other ++ slash :: path)) =
     leads_to (full_path (workspace_of base other) path)) /\
  (forall path, leads_to (full_path ws (lit "../" ++ path)) = resolve (leads_to base) (split_on slash path)).
Proof.
  intros Hi ws.
  assert (Hws : forall i, slash ∉ i -> leads_to (workspace_of base i) = (lit "local-" ++ i) :: leads_to base).
  { intros i Hni. unfold workspace_of. rewrite leads_to_join by done. by apply local_segment. }
  assert (Hup : forall path, leads_to (full_path ws (lit "../" ++ path)) =
    resolve (leads_to base) (split_on slash path)).
  { intros path. rewrite full_path_leads. unfold ws. rewrite (Hws id Hi).
    change (lit "../" ++ path) with (lit ".." ++ slash :: path). by rewrite split_on_sep. }
  split_and!; [by apply Hws| | |exact Hup].
  - intros path Hs. rewrite full_path_leads. by apply (stays_below_resolve _ []).
  - intros other path Ho.
    change (lit "../local-" ++ other ++ slash :: path) with
      (lit "../" ++ (lit "local-" ++ other ++ slash :: path)).
    rewrite Hup, full_path_leads, (Hws other Ho), app_assoc, split_on_sep, resolve_app.
    by rewrite local_segment.
Qed.
End LocalPaths.

(** *** Files and streams of the local provider *)

Section LocalFiles.
Context `{CH : Chrono} {W : Type} `{HOST : !HostFs W} `{LAWS : !@HostLaws W HOST} `{LOCAL : !@LocalHost CH W}.

(** A file that was written is read back, under any path that differs in leading
    slashes only; the write touches no other file. *)
Theorem local_write_read (id path path' : str) (content : bytes) (p : Local.LocalProvider) (w : W) :
  trim_slashes path' = trim_slashes path ->
  let '(r, w') := Local.write_file id path content p w in
  r = Ok tt ->
  fst (Local.read_file id path' p w') = Ok content /\
  (forall ws q, Local.workspaces p !! id = Some ws -> q ≠ Local.full_path ws path -> host_read q w' = host_read q w).
Proof.
  intros Ht. unfold Local.write_file, Local.read_file, Local.with_workspace.
  destruct (Local.workspaces p !! id) as [ws|]; [|done].
  set (full := Local.full_path ws path). fold full.
  assert (Hf : Local.full_path ws path' = full) by (unfold full, Local.full_path; by rewrite Ht).
  rewrite Hf.
  assert (Hmk : exists r w1,
    match path_parent full with
    | Some parent => let '(r, w) := host_mkdirs parent w in
        (map_err (fun e => Internal (lit "Failed to create directory: " ++ e)) r, w)
    | None => (Ok tt, w) end = (r, w1) /\ forall q, host_read q w1 = host_read q w).
  { destruct (path_parent full) as [parent|]; [|by eauto].
    pose proof (fun q => law_mkdirs parent q w) as Hm. destruct (host_mkdirs parent w) as [r w1]. eauto. }
  destruct Hmk as (r & w1 & -> & Hsame). destruct r as [[]|e]; [|done]. cbn.
  pose proof (law_write_read full content w1) as Hrd.
  pose proof (fun q => law_write_other full q content w1) as Hother.
  destruct (host_write full content w1) as [[[]|e] w2]; [|done]. cbn in *. intros _.
  destruct (Hrd eq_refl) as [-> _]. split; [done|].
  intros ws' q Hws Hq. rewrite Hother; [apply Hsame|]. injection Hws as <-. by intros <-.
Qed.
End LocalFiles.

#[export] Instance chunk_type_dec : EqDecision ChunkType.
Proof. solve_decision. Defined.

(** A finished command, taken apart into chunks, can be put together again; and
    the chunks fit in the channel, so that the task that sends them ends even if
    nobody reads. *)
Theorem stream_reassembles (r : CommandResult) :
  (i32_min <= cr_exit_code r <= i32_max)%Z ->
  let data t := concat (map chunk_data (List.filter (fun c => bool_decide (chunk_type c = t)) (chunks_of r))) in
  data CtStdout = cr_stdout r /\ data CtStderr = cr_stderr r /\
  i32_from_le_bytes (data CtExitCode) = cr_exit_code r /\
  map is_final (chunks_of r) = repeat false (length (chunks_of r) - 1) ++ [true] /\
  length (chunks_of r) <= 4.
Proof.
  intros Hc. unfold chunks_of. destruct (cr_stdout r) as [|b out], (cr_stderr r) as [|b' err]; cbn;
    (split_and!; try done; try lia); repeat case_bool_decide; try done; cbn;
    rewrite ?app_nil_r; first [done | by apply i32_le_roundtrip].
Qed.

(** ** The wasm provider *)

Module WasmSandbox.
Section WasmSandbox.
Context `{CH : Chrono} `{ORDER : HashOrder}.

Record WasmSandboxProvider := mkWasm { vfs : gmap str (gmap str bytes); sandboxes : gmap str Sandbox }.

Definition wasm_new : WasmSandboxProvider := mkWasm ∅ ∅.

Definition sandbox_not_found {A} (id : str) : result DomainError A :=
  Err (NotFound (lit "Sandbox " ++ id ++ lit " not found")).

Definition get_vfs (id : str) (p : WasmSandboxProvider) : result DomainError (gmap str bytes) :=
  match vfs p !! id with Some m => Ok m | None => sandbox_not_found id end.

Definition name : str := lit "wasm".
Definition capabilities : option ProviderCapabilities :=
  expect_ok (try_new false true false 86400000 4096 4 false false 100).

Definition create (id template : str) (resources : ResourcesSpec) (network : NetworkSpec)
    (_env_vars : gmap str str) (_timeout_ms : Z) (now : DateTime) (p : WasmSandboxProvider) :
    result DomainError Sandbox * WasmSandboxProvider :=
  let sandbox := Sandbox_new id template (lit "wasm") None resources network now in
  (Ok sandbox, mkWasm (<[id := ∅]> (vfs p)) (<[id := sandbox]> (sandboxes p))).

Definition terminate (id : str) (p : WasmSandboxProvider) : result DomainError unit * WasmSandboxProvider :=
  (Ok tt, mkWasm (delete id (vfs p)) (delete id (sandboxes p))).

Definition is_alive (id : str) (p : WasmSandboxProvider) : result DomainError bool :=
  Ok (bool_decide (is_Some (sandboxes p !! id))).

Definition wasm_snapshots_unsupported {A} : result DomainError A :=
  Err (UnsupportedOperation (lit "snapshots not supported for wasm provider")).

Definition list_sandboxes (_filter : SandboxFilter) (p : WasmSandboxProvider) : result DomainError (list Sandbox) :=
  Ok (map snd (hash_iter _ (sandboxes p))).

Definition get_info (id : str) (p : WasmSandboxProvider) : result DomainError Sandbox :=
  match sandboxes p !! id with Some sb => Ok sb | None => sandbox_not_found id end.

Definition wasm_set_timeout (_id : str) (_timeout_ms : Z) : result DomainError unit := Ok tt.

Definition wasm_stdout (command id : str) : str :=
  lit "WASM: Executed '" ++ command ++ lit "' in sandbox " ++ id ++ [10%N].

(** Nothing is run; [elapsed] is the time it took. *)
Definition run_command (id : str) (spec : CommandSpec) (elapsed : Z) (p : WasmSandboxProvider) :
    result DomainError CommandResult :=
  match get_vfs id p with
  | Err e => Err e
  | Ok _ => Ok (mkCommandResult 0 (utf8 (wasm_stdout (cs_command spec) id)) [] (as_u64 elapsed) false)
  end.

Definition run_command_stream (id : str) (spec : CommandSpec) (elapsed : Z) (p : WasmSandboxProvider) :
    result DomainError (list CommandChunk) :=
  match run_command id spec elapsed p with Ok r => Ok (chunks_of r) | Err e => Err e end.

Definition normalized (path : str) : str := slash :: trim_slashes path.

Definition write_file (id path : str) (content : bytes) (p : WasmSandboxProvider) :
    result DomainError unit * WasmSandboxProvider :=
  match vfs p !! id with
  | None => (sandbox_not_found id, p)
  | Some m => (Ok tt, mkWasm (<[id := <[normalized path := content]> m]> (vfs p)) (sandboxes p))
  end.

Definition read_file (id path : str) (p : WasmSandboxProvider) : result DomainError bytes :=
  match get_vfs id p with
  | Err e => Err e
  | Ok m => ok_or (m !! normalized path) (NotFound (lit "File " ++ path ++ lit " not found"))
  end.

(** One turn of the loop of [list_files]. *)
Definition wasm_listed (dir : str) (f : str * bytes) : option (FileEntry DateTime) :=
  let '(path, content) := f in
  if starts_with dir path then
    let relative := trim_slashes (default path (strip_prefix dir path)) in
    match relative with
    | [] => None
    | _ =>
        if Nat.eqb (length (split_on slash relative)) 1
        then Some (mkFileEntry path false (Z.of_nat (length content)) None [])
        else None
    end
  else None.

Definition list_files (id dir : str) (p : WasmSandboxProvider) : result DomainError (list (FileEntry DateTime)) :=
  match get_vfs id p with
  | Err e => Err e
  | Ok m => Ok (omap (wasm_listed (normalized dir)) (hash_iter _ m))
  end.

(** *** The provider of a build without the feature: it refuses everything *)

Definition feature_error {A} : result DomainError A :=
  Err (UnsupportedOperation (lit "wasm-sandbox feature not enabled. Rebuild with --features wasm-sandbox")).
Definition stub_capabilities : option ProviderCapabilities :=
  expect_ok (try_new false true false 86400000 16384 16 true false 1500).

(** *** Histories *)

Inductive wasm_op :=
| WasmCreate (id template : str) (resources : ResourcesSpec) (network : NetworkSpec) (now : DateTime)
| WasmTerminate (id : str)
| WasmWrite (id path : str) (content : bytes).

Definition wasm_step (p : WasmSandboxProvider) (op : wasm_op) : WasmSandboxProvider :=
  match op with
  | WasmCreate id t r n now => snd (create id t r n ∅ 0 now p)
  | WasmTerminate id => snd (terminate id p)
  | WasmWrite id path c => snd (write_file id path c p)
  end.
Definition wasm_run (ops : list wasm_op) (p : WasmSandboxProvider) : WasmSandboxProvider :=
  fold_left wasm_step ops p.

(** What a sandbox holds after a history, from its end: the last write to the path
    since the sandbox was created. *)
Fixpoint last_written (id path : str) (rev_ops : list wasm_op) : option (option bytes) :=
  match rev_ops with
  | [] => None
  | WasmCreate id' _ _ _ _ :: ops => if str_eqb id' id then Some None else last_written id path ops
  | WasmTerminate id' :: ops => if str_eqb id' id then None else last_written id path ops
  | WasmWrite id' path' c :: ops =>
      match last_written id path ops with
      | None => None
      | Some old =>
          if str_eqb id' id && str_eqb (normalized path') (normalized path) then Some (Some c) else Some old
      end
  end.
End WasmSandbox.
End WasmSandbox.

Module WasmFacts.
Import WasmSandbox.
Section WasmFacts.
Context `{CH : Chrono} `{ORDER : HashOrder}.
Implicit Types p : WasmSandboxProvider.

Lemma wasm_run_snoc ops op p : wasm_run (ops ++ [op]) p = wasm_step (wasm_run ops p) op.
Proof. unfold wasm_run. by rewrite fold_left_app. Qed.

Lemma last_written_vfs id path ops :
  last_written id path (rev ops) =
  option_map (fun m => m !! normalized path) (vfs (wasm_run ops wasm_new) !! id).
Proof.
  induction ops as [|op ops IH] using rev_ind; [cbn; by rewrite lookup_empty|].
  rewrite rev_unit, wasm_run_snoc. destruct op as [id' t r n now|id'|id' path' c]; cbn [last_written wasm_step].
  - cbn. destruct (str_eqb id' id) eqn:E.
    + apply str_eqb_eq in E as ->. rewrite lookup_insert_eq. cbn. by rewrite lookup_empty.
    + rewrite lookup_insert_ne; [done|]. intros ->. by rewrite str_eqb_refl in E.
  - cbn. destruct (str_eqb id' id) eqn:E.
    + apply str_eqb_eq in E as ->. by rewrite lookup_delete_eq.
    + rewrite lookup_delete_ne; [done|]. intros ->. by rewrite str_eqb_refl in E.
  - rewrite IH. clear IH. unfold write_file. destruct (str_eqb id' id) eqn:E; cbn [andb].
    + apply str_eqb_eq in E as ->. destruct (vfs (wasm_run ops wasm_new) !! id) as [m|] eqn:Em; cbn; [|by rewrite Em].
      rewrite lookup_insert_eq. cbn. destruct (str_eqb (normalized path') (normalized path)) eqn:En.
      * apply str_eqb_eq in En as ->. by rewrite lookup_insert_eq.
      * rewrite lookup_insert_ne; [done|]. intros Hn. by rewrite Hn, str_eqb_refl in En.
    + assert (Hne : id' ≠ id) by (intros ->; by rewrite str_eqb_refl in E).
      destruct (vfs (wasm_run ops wasm_new) !! id') eqn:Em'; cbn;
        [rewrite lookup_insert_ne by done|]; by destruct (vfs (wasm_run ops wasm_new) !! id).
Qed.

(** After any history of creations, terminations and writes, what is read of a
    sandbox is what was last written under that path since its creation, up to
    leading slashes; a path never written, and a sandbox not there, is not found;
    a sandbox is alive exactly when it has files to read, and every command of it
    succeeds without having been run. *)
Theorem wasm_spec (ops : list wasm_op) (id path : str) (spec : CommandSpec) (elapsed : Z) :
  let p := wasm_run ops wasm_new in
  match last_written id path (rev ops) with
  | None => read_file id path p = sandbox_not_found id /\ is_alive id p = Ok false /\
            run_command id spec elapsed p = sandbox_not_found id
  | Some None => read_file id path p = Err (NotFound (lit "File " ++ path ++ lit " not found"))
  | Some (Some c) => read_file id path p = Ok c
  end /\
  (last_written id path (rev ops) ≠ None ->
   (exists sb, get_info id p = Ok sb /\ status sb = Pending) /\ is_alive id p = Ok true /\
   run_command id spec elapsed p =
     Ok (mkCommandResult 0 (utf8 (wasm_stdout (cs_command spec) id)) [] (as_u64 elapsed) false)).
Proof.
  intros p. assert (Hdom : forall i, match vfs p !! i with
     | Some _ => exists sb, sandboxes p !! i = Some sb /\ status sb = Pending
     | None => sandboxes p !! i = None end).
  { unfold p. clear. induction ops as [|op ops IH] using rev_ind; intros i; [done|].
    rewrite wasm_run_snoc. destruct op as [id' t r n now|id'|id' path' c]; cbn.
    - destruct (decide (id' = i)) as [->|Hn]; [rewrite !lookup_insert_eq; by eauto|].
      rewrite !lookup_insert_ne by done. apply IH.
    - destruct (decide (id' = i)) as [->|Hn]; [by rewrite !lookup_delete_eq|].
      rewrite !lookup_delete_ne by done. apply IH.
    - unfold write_file. destruct (vfs (wasm_run ops wasm_new) !! id') as [m|] eqn:Em; [|apply IH]. cbn.
      destruct (decide (id' = i)) as [->|Hn]; [|rewrite lookup_insert_ne by done; apply IH].
      rewrite lookup_insert_eq. specialize (IH i). by rewrite Em in IH. }
  rewrite last_written_vfs. fold p. specialize (Hdom id).
  unfold read_file, get_vfs, is_alive, run_command, get_vfs, get_info.
  destruct (vfs p !! id) as [m|] eqn:Em; cbn.
  - destruct Hdom as (sb & Hsb & Hst). rewrite Hsb. split.
    + by destruct (m !! normalized path).
    + intros _. split; [by eauto|]. by rewrite bool_decide_true by eauto.
  - rewrite Hdom. split; [|done]. split_and!; [done| |done]. rewrite bool_decide_false; [done|]. by intros [? ?].
Qed.

Lemma trim_slashes_repeat s : exists k, s = repeat slash k ++ trim_slashes s.
Proof.
  unfold trim_slashes. induction s as [|c s [k IH]]; [by exists 0|]. cbn. destruct (slash =? c)%N eqn:E.
  - apply N.eqb_eq in E as <-. exists (S k). cbn. destruct (span _ s). cbn in *. by rewrite <- IH.
  - by exists 0.
Qed.

Lemma trim_slashes_name k name : slash ∉ name -> trim_slashes (repeat slash k ++ name) = name.
Proof.
  intros Hn. unfold trim_slashes. induction k as [|k IH]; cbn [repeat app].
  - destruct name as [|c name]; [done|]. cbn. destruct (slash =? c)%N eqn:E; [|done].
    apply N.eqb_eq in E as <-. set_solver.
  - cbn. destruct (span _ (repeat slash k ++ name)). done.
Qed.

Lemma split_on_single sep s : length (split_on sep s) = 1 <-> sep ∉ s.
Proof.
  split; [|intros; by rewrite split_on_none]. intros Hl.
  destruct (split_on sep s) as [|x [|]] eqn:E; try done.
  pose proof (join_split sep s) as J. pose proof (split_on_pieces sep s) as F. rewrite E in J, F.
  cbn in J. subst. by inversion F.
Qed.

(** What [list_files] of a directory lists: the files whose path is that of the
    directory, then any number of slashes, then a name - also none at all, so that
    [/foo] lists the file [/foobar]; directories are never listed. *)
Theorem wasm_list_spec (id dir : str) (p : WasmSandboxProvider) (m : gmap str bytes) :
  vfs p !! id = Some m ->
  exists l, list_files id dir p = Ok l /\ NoDup (map fe_path l) /\
  forall e, e ∈ l <-> exists k name c, name ≠ [] /\ slash ∉ name /\
     m !! (normalized dir ++ repeat slash k ++ name) = Some c /\
     e = mkFileEntry (normalized dir ++ repeat slash k ++ name) false (Z.of_nat (length c)) None [].
Proof.
  intros Hm. unfold list_files, get_vfs. rewrite Hm. eexists. split; [reflexivity|].
  assert (Hpath : forall f e, wasm_listed (normalized dir) f = Some e -> fe_path e = fst f).
  { intros [path c] e. unfold wasm_listed. destruct (starts_with _ path); [|done].
    destruct (trim_slashes _); [done|]. destruct (Nat.eqb _ _); [|done]. by intros [= <-]. }
  split.
  - pose proof (hash_iter_nodup m) as Hnd. revert Hnd. generalize (hash_iter _ m) as l.
    induction l as [|f l IH]; [by constructor|]. cbn [map]. intros [Hni Hnd]%NoDup_cons. cbn.
    destruct (wasm_listed _ f) as [e|] eqn:E; [|by apply IH]. cbn. apply NoDup_cons. split; [|by apply IH].
    rewrite (Hpath f e E). intros (e' & Heq & (f' & Hin & Hf')%list_elem_of_omap)%list_elem_of_fmap.
    apply Hni. rewrite Heq, (Hpath f' e' Hf'). by apply list_elem_of_fmap_2.
  - intros e. rewrite list_elem_of_omap. split.
    + intros ([path c] & Hin%elem_of_hash_iter & He). unfold wasm_listed in He.
      destruct (starts_with _ path) eqn:Es; [|done]. apply starts_with_spec in Es as [rest ->].
      unfold strip_prefix in He. rewrite starts_with_app in He. cbn [default] in He.
      rewrite drop_app_length in He. cbn in He.
      destruct (trim_slashes rest) as [|c0 r] eqn:Er; [done|].
      destruct (Nat.eqb _ 1) eqn:El; [|done]. injection He as <-.
      apply Nat.eqb_eq in El. rewrite <- Er in El. apply split_on_single in El.
      destruct (trim_slashes_repeat rest) as [k Hk]. exists k, (trim_slashes rest), c.
      rewrite <- Hk. split_and!; [by rewrite Er|done|done|done].
    + intros (k & nm & c & Hn & Hs & Hl & ->). exists (normalized dir ++ repeat slash k ++ nm, c).
      split; [by apply elem_of_hash_iter|]. unfold wasm_listed, strip_prefix.
      rewrite starts_with_app. cbn [default]. rewrite drop_app_length. cbn.
      rewrite trim_slashes_name by done. destruct nm; [done|].
      by rewrite (proj2 (split_on_single _ _) Hs).
Qed.
End WasmFacts.
End WasmFacts.

(** ** Examples *)

Module Demo.
Import Materialize.MemHost.
#[local] Existing Instances Z_chrono some_order.

(** A host on which every program prints its directory. *)
#[export] Instance mem_local : @LocalHost Z_chrono files := {|
  lh_now := fun _ => 1000000000%Z; lh_instant := fun _ => 7%Z;
  lh_rmdir := fun p m => (Ok tt, m);
  lh_output := fun argv dir env m => (Ok (mkRunOutput (Some 0%Z) dir [] 3), m);
  lh_is_dir := fun _ _ => true;
  lh_read_dir := fun _ _ => Ok []
|}.

Definition empty_local : @Local.LocalProvider Z_chrono := Local.mkLocal ∅ ∅ (lit "/srv") true ∅.

Definition op_a : Local.local_op := Local.OpCreate (lit "a") (lit "t") ResourcesSpec_default NetworkSpec_default ∅ 60000.
Definition op_b : Local.local_op := Local.OpCreate (lit "b") (lit "t") ResourcesSpec_default NetworkSpec_default ∅ 60000.

Definition after (ops : list Local.local_op) : @Local.LocalProvider Z_chrono :=
  (Local.local_run ops (empty_local, ∅ : files)).1.

Lemma local_invariant_witness :
  exists l, Local.list_sandboxes SandboxFilter_default (after [op_a; op_b; op_a; Local.OpTerminate (lit "b")]) = Ok l /\
    NoDup (map sb_id l).
Proof.
  destruct (LocalFacts.local_invariant [op_a; op_b; op_a; Local.OpTerminate (lit "b")] (Some (lit "1")) (lit "/srv")
    empty_local SandboxFilter_default (∅ : files)) as (l & Hl & Hnd & _); [reflexivity|].
  exists l. split; [exact Hl|exact Hnd].
Defined.

(** The second creation of a sandbox fails, and the first is then listed but dead. *)
Example created_twice :
  let p := after [op_a; op_a] in
  Local.is_alive (lit "a") p = Ok false /\
  match Local.list_sandboxes SandboxFilter_default p with Ok l => map status l = [Running] | Err _ => False end.
Proof. split; vm_compute; reflexivity. Qed.


Lemma local_paths_lead_witness :
  LocalPaths.leads_to (Local.full_path (lit "/srv/local-a") (lit "../local-b" ++ slash :: lit "key")) =
  map lit ["key"; "local-b"; "srv"]%string.
Proof.
  destruct (LocalPaths.local_paths_lead (lit "/srv") (lit "a")) as (_ & _ & H & _);
    [by apply (bool_decide_unpack (slash ∉ lit "a")); vm_compute|].
  specialize (H (lit "b") (lit "key")).
  transitivity (LocalPaths.leads_to (Local.full_path (Local.workspace_of (lit "/srv") (lit "b")) (lit "key")));
    [apply H; by apply (bool_decide_unpack (slash ∉ lit "b")); vm_compute|vm_compute; reflexivity].
Defined.

Example climbs_to_the_root :
  LocalPaths.leads_to (Local.full_path (lit "/srv/local-a") (lit "/../../etc/passwd")) = map lit ["passwd"; "etc"]%string /\
  LocalPaths.stays_below 0 (split_on slash (lit "a/../b")) = true.
Proof. split; vm_compute; reflexivity. Qed.

Example parents :
  map path_parent [lit "/srv/a/b"; lit "/srv/a//"; lit "/a"; lit "/"; lit "a"; lit ""; lit "/a/./b/."] =
  [Some (lit "/srv/a"); Some (lit "/srv"); Some (lit "/"); None; Some []; None; Some (lit "/a")].
Proof. reflexivity. Qed.

Lemma local_write_read_witness :
  let '(r, w) := Local.write_file (lit "a") (lit "//src/main.rs") [1%N; 2%N] (after [op_a]) (∅ : files) in
  r = Ok tt /\ fst (Local.read_file (lit "a") (lit "src/main.rs") (after [op_a]) w) = Ok [1%N; 2%N].
Proof.
  pose proof (local_write_read (lit "a") (lit "//src/main.rs") (lit "src/main.rs") [1%N; 2%N] (after [op_a]) (∅ : files)
    eq_refl) as H.
  assert (Hr : (Local.write_file (lit "a") (lit "//src/main.rs") [1%N; 2%N] (after [op_a]) (∅ : files)).1 = Ok tt)
    by (vm_compute; reflexivity).
  destruct (Local.write_file _ _ _ _ _) as [r w]. cbn in Hr. split; [exact Hr|]. by apply H.
Defined.

Definition finished : CommandResult := mkCommandResult (-1) [104%N; 105%N] [] 3 false.

Lemma stream_reassembles_witness :
  i32_from_le_bytes (concat (map chunk_data
    (List.filter (fun c => bool_decide (chunk_type c = CtExitCode)) (chunks_of finished)))) = (-1)%Z.
Proof. apply (stream_reassembles finished). split; vm_compute; discriminate. Defined.

Definition wasm_files : gmap str bytes := <[lit "/foobar" := [1%N]]> (<[lit "/foo/a" := []]> (<[lit "/foo/b/c" := []]> ∅)).
Definition wasm_provider : @WasmSandbox.WasmSandboxProvider Z_chrono :=
  WasmSandbox.mkWasm (<[lit "s" := wasm_files]> ∅) ∅.

(** The files of [/foo]: among them one of the root. *)
Lemma wasm_list_spec_witness :
  exists l, WasmSandbox.list_files (lit "s") (lit "foo") wasm_provider = Ok l /\
    mkFileEntry (lit "/foobar") false 1 None [] ∈ l /\ mkFileEntry (lit "/foo/a") false 0 None [] ∈ l.
Proof.
  destruct (WasmFacts.wasm_list_spec (lit "s") (lit "foo") wasm_provider wasm_files) as (l & Hl & _ & He);
    [vm_compute; reflexivity|].
  exists l. split; [exact Hl|]. split; apply He.
  - exists 0, (lit "bar"), [1%N]. split; [discriminate|].
    split; [by apply (bool_decide_unpack (slash ∉ lit "bar")); vm_compute|]. split; vm_compute; reflexivity.
  - exists 1, (lit "a"), []. split; [discriminate|].
    split; [by apply (bool_decide_unpack (slash ∉ lit "a")); vm_compute|]. split; vm_compute; reflexivity.
Defined.
End Demo.
