(* ===== verification/Images.v ===== *)
(** * Images, bundles and networks of virtual machines

    Models what the providers of isolated machines are made of:
    [bastion-domain/src/provider/image_source.rs] (the three image formats),
    [bastion-infrastructure/src/provider/rootfs_manager.rs] (the bundle of a
    container) and [bastion-infrastructure/src/provider/network/tap_backend.rs]
    (the network device of a machine).  Files are the class [HostFs] of
    [Materialize], together with the listings, links and modes of [ImageFs];
    the program [ip] is the class [IpTool]; the text of a JSON value is
    [JsonText]. *)

From S2P Require Import Prelude Utf8 Sandbox Normalizer Orientation Materialize Fmt Experience Catalog Hub Toolchain Readiness HostProviders.

(** ** The host *)

Inductive FileKind := KindFile | KindDir | KindLink | KindOther.

(** What the reading of a directory yields: an error that ends it, an entry whose
    type cannot be read, or an entry. *)
Inductive DirItem :=
| ItemFails (e : str)
| ItemTypeFails (e : str)
| Item (name : str) (kind : FileKind).

Class ImageFs (W : Type) := {
  (** Follows links. *)
  im_metadata : str -> W -> result str FileKind;
  (** What a file holds, or the error of opening or reading it. *)
  im_open : str -> W -> result str bytes;
  im_read_dir : str -> W -> result str (list DirItem);
  im_read_link : str -> W -> result str str;
  im_copy : str -> str -> W -> result str unit * W;
  im_mode : str -> W -> result str Z;
  im_set_mode : str -> Z -> W -> result str unit * W
}.

Class JsonText := { json_pretty : json_value -> result str str; json_compact : json_value -> result str str;
                    json_read : str -> option json_value }.

(** ** Image sources *)

Inductive ImageKind := Oci | Squashfs | WasmModule.

Record ImageSourceConfig := mkImageSource { is_kind : ImageKind; is_path : str; is_read_only : bool }.

Definition OciImage_new (path : str) (read_only : bool) : ImageSourceConfig := mkImageSource Oci path read_only.
Definition SquashfsImage_new (path : str) : ImageSourceConfig := mkImageSource Squashfs path true.
Definition WasmBundle_new (path : str) : ImageSourceConfig := mkImageSource WasmModule path true.

Definition SQUASHFS_MAGIC : bytes := lit "hsqs".
Definition WASM_MAGIC : bytes := 0%N :: lit "asm".

(** [{:02x?}] of four bytes. *)
Definition hex2 (b : byte) : str := [hex_digit (b / 16); hex_digit (b mod 16)].
Definition hex_list (bs : bytes) : str := lit "[" ++ join (lit ", ") (map hex2 bs) ++ lit "]".

Section Images.
Context {W : Type} `{IMG : !ImageFs W}.

(** [read_exact] of four bytes. *)
Definition read_magic (path : str) (w : W) : result DomainError bytes :=
  match im_open path w with
  | Err e => Err (Internal e)
  | Ok content =>
      if Nat.ltb (length content) 4 then Err (Internal (lit "early eof")) else Ok (take 4 content)
  end.

(** The check of a file that starts with a magic number. *)
Definition validate_magic (path not_found not_a_file invalid : str) (magic : bytes) (w : W) :
    result DomainError unit :=
  match im_metadata path w with
  | Err e => Err (Config (not_found ++ e))
  | Ok kind =>
      match kind with
      | KindFile =>
          match read_magic path w with
          | Err e => Err e
          | Ok bs => if bool_decide (bs = magic) then Ok tt else Err (Config (invalid ++ hex_list bs))
          end
      | _ => Err (Config not_a_file)
      end
  end.

Definition validate (image : ImageSourceConfig) (w : W) : result DomainError unit :=
  match is_kind image with
  | Oci =>
      match im_metadata (is_path image) w with
      | Err e => Err (Config (lit "OCI rootfs not found: " ++ e))
      | Ok KindDir => Ok tt
      | Ok _ => Err (Config (lit "OCI rootfs is not a directory"))
      end
  | Squashfs =>
      validate_magic (is_path image) (lit "Squashfs image not found: ") (lit "Squashfs path is not a file")
        (lit "Not a valid squashfs image: magic bytes ") SQUASHFS_MAGIC w
  | WasmModule =>
      validate_magic (is_path image) (lit "WASM bundle not found: ") (lit "WASM bundle is not a file")
        (lit "Not a valid WASM binary: magic bytes ") WASM_MAGIC w
  end.
End Images.

(** ** The bundle of a container *)

Section Rootfs.
Context {W : Type} `{HOST : !HostFs W} `{IMG : !ImageFs W} `{ORDER : HashOrder} `{JSON : JsonText}.

Definition copy_file_async (src dst : str) (w : W) : result DomainError unit * W :=
  let '(r, w) := im_copy src dst w in
  (map_err (fun e => Internal (lit "Cannot copy " ++ src ++ lit " to " ++ dst ++ lit ": " ++ e)) r, w).

(** The entries of one directory: files are copied, links as the files their text
    names, and directories are made and put on the stack. *)
Fixpoint copy_entries (src dst : str) (items : list DirItem) (stack : list (str * str)) (w : W) :
    result DomainError (list (str * str)) * W :=
  match items with
  | [] => (Ok stack, w)
  | ItemFails e :: _ => (Err (Internal (lit "Cannot read dir entry: " ++ e)), w)
  | ItemTypeFails e :: _ => (Err (Internal (lit "Cannot get file type: " ++ e)), w)
  | Item name kind :: items =>
      let src_path := path_join src name in
      let dst_path := path_join dst name in
      match kind with
      | KindDir =>
          match host_mkdirs dst_path w with
          | (Err e, w) => (Err (Internal (lit "Cannot create dir " ++ dst_path ++ lit ": " ++ e)), w)
          | (Ok _, w) => copy_entries src dst items ((src_path, dst_path) :: stack) w
          end
      | KindLink =>
          match im_read_link src_path w with
          | Err e => (Err (Internal (lit "Cannot read symlink " ++ src_path ++ lit ": " ++ e)), w)
          | Ok target =>
              let? (_u, w) := copy_file_async target dst_path w in copy_entries src dst items stack w
          end
      | _ => let? (_u, w) := copy_file_async src_path dst_path w in copy_entries src dst items stack w
      end
  end.

(** The loop over the stack, whose top is the head; [None] when the fuel ran out. *)
Fixpoint copy_loop (fuel : nat) (stack : list (str * str)) (w : W) : option (result DomainError unit * W) :=
  match stack with
  | [] => Some (Ok tt, w)
  | (src, dst) :: stack =>
      match fuel with
      | O => None
      | S fuel =>
          match im_read_dir src w with
          | Err e => Some (Err (Internal (lit "Cannot read directory " ++ src ++ lit ": " ++ e)), w)
          | Ok items =>
              match copy_entries src dst items stack w with
              | (Err e, w) => Some (Err e, w)
              | (Ok stack, w) => copy_loop fuel stack w
              end
          end
      end
  end.

Definition copy_dir (fuel : nat) (src dst : str) (w : W) : option (result DomainError unit * W) :=
  copy_loop fuel [(src, dst)] w.

Definition inject_worker (bundle_dir worker_binary : str) (w : W) : result DomainError unit * W :=
  let rootfs := path_join bundle_dir (lit "rootfs") in
  let worker_dest := path_join rootfs (lit "usr/local/bin/bastion-worker") in
  let made :=
    match path_parent worker_dest with
    | Some parent =>
        let '(r, w) := host_mkdirs parent w in
        (map_err (fun e => Internal (lit "Cannot create directory " ++ parent ++ lit ": " ++ e)) r, w)
    | None => (Ok tt, w)
    end in
  let? (_m, w) := made in
  let? (_c, w) := (let '(r, w) := im_copy worker_binary worker_dest w in
                   (map_err (fun e => Internal (lit "Failed to copy worker binary to rootfs: " ++ e)) r, w)) in
  match im_mode worker_dest w with
  | Err e => (Err (Internal (lit "Failed to stat worker binary: " ++ e)), w)
  | Ok mode =>
      let? (_p, w) := (let '(r, w) := im_set_mode worker_dest (Z.lor mode 73) w in
                       (map_err (fun e => Internal (lit "Failed to set executable permissions: " ++ e)) r, w)) in
      (Ok tt, snd (host_mkdirs (path_join rootfs (lit "workspace")) w))
  end.

Definition jstrs (l : list string) : json_value := JArr (map (fun s => JStr (lit s)) l).

Definition oci_env (env_vars : gmap str str) : list str :=
  lit "PATH=/usr/local/sbin:/usr/local/bin:/usr/sbin:/usr/bin:/sbin:/bin" ::
  map (fun '(k, v) => k ++ lit "=" ++ v) (hash_iter _ env_vars).

Definition oci_capabilities : json_value :=
  jstrs ["CAP_CHOWN"; "CAP_DAC_OVERRIDE"; "CAP_FSETID"; "CAP_FOWNER"; "CAP_MKNOD"; "CAP_NET_RAW";
         "CAP_SETGID"; "CAP_SETUID"; "CAP_SETFCAP"; "CAP_SETPCAP"; "CAP_NET_BIND_SERVICE";
         "CAP_SYS_CHROOT"; "CAP_KILL"; "CAP_AUDIT_WRITE"]%string.

Definition oci_namespace (name : string) : json_value := obj [("type", JStr (lit name))]%string.

Definition generate_oci_config (sandbox_id : str) (env_vars : gmap str str) (entrypoint : list str) : json_value :=
  let process_args := match entrypoint with [] => [lit "sleep"; lit "999999"] | _ => entrypoint end in
  obj
    [("ociVersion", JStr (lit "1.0.2"));
     ("process", obj
       [("terminal", JBool false);
        ("user", obj [("uid", JNum 0); ("gid", JNum 0)]);
        ("args", JArr (map JStr process_args));
        ("env", JArr (map JStr (oci_env env_vars)));
        ("cwd", JStr (lit "/"));
        ("capabilities", obj
          [("bounding", oci_capabilities); ("effective", oci_capabilities); ("inheritable", JArr []);
           ("permitted", oci_capabilities)])]);
     ("root", obj [("path", JStr (lit "rootfs")); ("readonly", JBool false)]);
     ("hostname", JStr (lit "sandbox-" ++ sandbox_id));
     ("mounts", JArr
       [obj [("destination", JStr (lit "/proc")); ("type", JStr (lit "proc")); ("source", JStr (lit "proc"))];
        obj [("destination", JStr (lit "/dev")); ("type", JStr (lit "tmpfs")); ("source", JStr (lit "tmpfs"));
             ("options", jstrs ["nosuid"; "strictatime"; "mode=755"; "size=65536k"])];
        obj [("destination", JStr (lit "/sys")); ("type", JStr (lit "sysfs")); ("source", JStr (lit "sysfs"));
             ("options", jstrs ["nosuid"; "noexec"; "nodev"])]]);
     ("linux", obj
       [("namespaces", JArr (map oci_namespace ["pid"; "ipc"; "uts"; "mount"]));
        ("resources", obj
          [("devices", JArr [obj [("allow", JBool false); ("access", JStr (lit "rwm"))]])])])]%string.

(** [None] when the fuel of the copy ran out. *)
Definition prepare_oci_bundle (fuel : nat) (sandbox_id bundle_dir rootfs_src worker_binary : str)
    (env_vars : gmap str str) (entrypoint : list str) (w : W) : option (result DomainError str * W) :=
  let rootfs_dest := path_join bundle_dir (lit "rootfs") in
  match host_mkdirs rootfs_dest w with
  | (Err e, w) => Some (Err (Internal (lit "Cannot create bundle directory: " ++ e)), w)
  | (Ok _, w) =>
      match copy_dir fuel rootfs_src rootfs_dest w with
      | None => None
      | Some (Err e, w) => Some (Err e, w)
      | Some (Ok _, w) =>
          Some (let? (_i, w) := inject_worker bundle_dir worker_binary w in
                match json_pretty (generate_oci_config sandbox_id env_vars entrypoint) with
                | Err e => (Err (Internal (lit "Failed to serialize config.json: " ++ e)), w)
                | Ok text =>
                    let '(r, w) := host_write (path_join bundle_dir (lit "config.json")) (utf8 text) w in
                    match r with
                    | Err e => (Err (Internal (lit "Failed to write config.json: " ++ e)), w)
                    | Ok _ => (Ok bundle_dir, w)
                    end
                end)
      end
  end.
End Rootfs.

(** ** Network devices *)

(** A run of [ip]: whether it succeeded, and its error output. *)
Class IpTool (W : Type) := run_ip : list str -> W -> result str (bool * bytes) * W.

Record NetworkConfig := mkNetworkConfig {
  nc_interface_name : str; nc_guest_ip : str; nc_gateway_ip : str; nc_subnet_mask : Z
}.
Inductive NetworkKind := Tap | Bridge | HostNetwork.
Record TapBackend := mkTap { tap_gateway_ip : str; tap_subnet_mask : Z }.

Definition tap_name_for_sandbox (sandbox_id : str) : str :=
  lit "tap-" ++ take 12 (replace_char (chr "_") (lit "-") sandbox_id).

Definition tap_char (c : char) : bool := is_ascii_alphanumeric c || (c =? chr "-")%N || (c =? chr "_")%N.

Definition tap_name_valid (name : str) : bool := (str_len name <=? 15)%N && forallb tap_char name.

(** The text up to the last dot, the dot included; nothing without one. *)
Definition through_last_dot (s : str) : str := rev (snd (span (fun c => negb (c =? chr ".")%N) (rev s))).

Definition guest_ip (gateway_ip : str) : str := through_last_dot gateway_ip ++ lit ".2".

Section TapDevice.
Context {W : Type} `{IP : !IpTool W}.

Definition tap_configure (tap : TapBackend) (tap_name : str) (w : W) : NetworkConfig * W :=
  let w := snd (run_ip (map lit ["link"; "set"]%string ++ [tap_name; lit "up"]) w) in
  let w := snd (run_ip [lit "addr"; lit "add"; tap_gateway_ip tap ++ lit "/" ++ show_Z (tap_subnet_mask tap);
                        lit "dev"; tap_name] w) in
  (mkNetworkConfig tap_name (guest_ip (tap_gateway_ip tap)) (tap_gateway_ip tap) (tap_subnet_mask tap), w).

(** The rules of the network are ignored. *)
Definition tap_setup (tap : TapBackend) (sandbox_id : str) (_network : NetworkSpec) (w : W) :
    result DomainError NetworkConfig * W :=
  let tap_name := tap_name_for_sandbox sandbox_id in
  if negb (tap_name_valid tap_name) then
    (Err (Validation (lit "Invalid TAP device name: " ++ tap_name ++ lit " (must be " ++ [8804%N] ++
       lit "15 chars, alphanumeric/dash/underscore only)")), w)
  else
    match run_ip (map lit ["tuntap"; "add"; "dev"]%string ++ [tap_name; lit "mode"; lit "tap"]) w with
    | (Err e, w) => (Err (Internal (lit "Failed to create TAP device: " ++ e)), w)
    | (Ok (success, err), w) =>
        let stderr := from_utf8_lossy err in
        if negb success && negb (str_contains stderr (lit "File exists")) then
          (Err (Internal (lit "Failed to create TAP device '" ++ tap_name ++ lit "': " ++ stderr)), w)
        else let '(config, w) := tap_configure tap tap_name w in (Ok config, w)
    end.

Definition tap_teardown (sandbox_id : str) (w : W) : result DomainError unit * W :=
  let tap_name := tap_name_for_sandbox sandbox_id in
  let w := snd (run_ip [lit "link"; lit "set"; tap_name; lit "down"] w) in
  (Ok tt, snd (run_ip [lit "tuntap"; lit "del"; lit "dev"; tap_name; lit "mode"; lit "tap"] w)).

Lemma replace_char_length c d s : length (replace_char c [d] s) = length s.
Proof. unfold replace_char. induction s as [|x s IH]; [done|]. cbn. destruct (x =? c)%N; cbn; by rewrite IH. Qed.

Lemma str_len_ge s : (N.of_nat (length s) <= str_len s)%N.
Proof. induction s as [|c s IH]; [done|]. cbn. pose proof (len_utf8_pos c). lia. Qed.

Lemma tap_char_len c : tap_char c = true -> len_utf8 c = 1%N.
Proof.
  unfold tap_char, is_ascii_alphanumeric, is_ascii_alphabetic, is_ascii_lowercase, is_ascii_uppercase,
    is_ascii_digit, in_range, len_utf8.
  change (chr "-") with 45%N. change (chr "_") with 95%N.
  rewrite !orb_true_iff, !andb_true_iff, !N.leb_le, !N.eqb_eq. intros Hc.
  replace (c <? 128)%N with true by (symmetry; apply N.ltb_lt; lia). done.
Qed.

Lemma tap_chars_len s : forallb tap_char s = true -> str_len s = N.of_nat (length s).
Proof.
  induction s as [|c s IH]; [done|]. cbn [forallb]. intros [Hc Hs]%andb_true_iff. cbn.
  rewrite (IH Hs), (tap_char_len c Hc). lia.
Qed.

Lemma tap_chars_dashed id : forallb tap_char id = true -> forallb tap_char (replace_char (chr "_") (lit "-") id) = true.
Proof.
  unfold replace_char. induction id as [|c id IH]; [done|]. cbn. intros [Hc Hr]%andb_true_iff.
  destruct (c =? chr "_")%N; cbn; [by apply IH|]. by rewrite Hc, IH.
Qed.

Lemma tap_name_long id : 12 <= length id -> tap_name_valid (tap_name_for_sandbox id) = false.
Proof.
  intros Hl. apply andb_false_iff. left. apply N.leb_gt. unfold tap_name_for_sandbox. rewrite str_len_app.
  change (str_len (lit "tap-")) with 4%N.
  pose proof (str_len_ge (take 12 (replace_char (chr "_") (lit "-") id))) as Hg.
  rewrite length_take in Hg. change (lit "-") with [chr "-"] in Hg at 1.
  rewrite replace_char_length in Hg. change [chr "-"] with (lit "-") in Hg. lia.
Qed.

Lemma tap_name_short id :
  length id < 12 -> forallb tap_char id = true ->
  tap_name_for_sandbox id = lit "tap-" ++ replace_char (chr "_") (lit "-") id /\
  tap_name_valid (tap_name_for_sandbox id) = true.
Proof.
  intros Hl Hc. unfold tap_name_for_sandbox.
  assert (Hlen : length (replace_char (chr "_") (lit "-") id) = length id) by apply replace_char_length.
  rewrite take_ge by lia. split; [done|]. unfold tap_name_valid.
  apply tap_chars_dashed in Hc. rewrite forallb_app, Hc, str_len_app, (tap_chars_len _ Hc), Hlen.
  change (str_len (lit "tap-")) with 4%N. rewrite andb_true_iff. split; [apply N.leb_le; lia|done].
Qed.

(** The device of a sandbox whose id has twelve characters or more - every
    generated one - is refused, without anything having been run: the name is four
    characters and the first twelve of the id, one more than a name may have.  A
    shorter id of letters, digits, dashes and underscores gets the device that
    its name, with dashes for underscores, names. *)
Theorem tap_setup_spec (tap : TapBackend) (id : str) (net : NetworkSpec) (w : W) :
  let '(r, w') := tap_setup tap id net w in
  (12 <= length id -> exists e, r = Err (Validation e) /\ w' = w) /\
  (length id < 12 -> forallb tap_char id = true ->
   match run_ip (map lit ["tuntap"; "add"; "dev"]%string ++
           [lit "tap-" ++ replace_char (chr "_") (lit "-") id; lit "mode"; lit "tap"]) w with
   | (Err e, w1) => r = Err (Internal (lit "Failed to create TAP device: " ++ e)) /\ w' = w1
   | (Ok (success, err), w1) =>
       if success || str_contains (from_utf8_lossy err) (lit "File exists")
       then exists config, r = Ok config /\
              nc_interface_name config = lit "tap-" ++ replace_char (chr "_") (lit "-") id
       else is_ok r = false /\ w' = w1
   end).
Proof.
  destruct (decide (12 <= length id)) as [Hl|Hl].
  - unfold tap_setup. rewrite (tap_name_long id Hl). cbn [negb]. split; [eauto|lia].
  - destruct (forallb tap_char id) eqn:Hc; [|by destruct (tap_setup tap id net w); split; [lia|]].
    unfold tap_setup. destruct (tap_name_short id) as [Hn ->]; [lia|done|]. cbn [negb]. rewrite Hn.
    destruct (run_ip _ w) as [[[[] err]|e] w1]; cbn [fst snd negb andb orb].
    + cbn. split; [lia|]. intros _ _. eauto.
    + destruct (str_contains _ _); cbn [negb]; cbn; (split; [lia|]); intros _ _; eauto.
    + split; [lia|done].
Qed.
End TapDevice.

(** The address of the machine: the gateway's address up to its last dot, and then
    two dots, which is no address. *)
Theorem guest_ip_spec (network host : str) :
  chr "." ∉ host -> guest_ip (network ++ chr "." :: host) = network ++ lit "..2".
Proof.
  intros Hh. unfold guest_ip, through_last_dot. rewrite rev_app_distr. cbn [rev]. rewrite <- app_assoc. cbn [app].
  rewrite span_block.
  - cbn [snd rev]. by rewrite rev_involutive, <- app_assoc.
  - apply Forall_forall. intros c Hc. apply negb_true_iff, N.eqb_neq. intros ->. apply Hh.
    by apply list_elem_of_In, in_rev, list_elem_of_In.
  - done.
Qed.

(** ** Copying ends *)

Lemma sum_list_snoc a b : sum_list (a ++ b) = sum_list a + sum_list b.
Proof. induction a; cbn; lia. Qed.

Lemma sum_list_rev a : sum_list (rev a) = sum_list a.
Proof. induction a as [|x a IH]; [done|]. cbn. rewrite sum_list_snoc, IH. cbn. lia. Qed.

Lemma Forall2_rev_map {A B C} (P : B -> C -> Prop) (f : A -> B) l ns :
  Forall2 (fun x n => P (f x) n) l ns -> Forall2 P (rev (map f l)) (rev ns).
Proof. induction 1; [constructor|]. cbn. by apply Forall2_app; [|constructor]. Qed.

(** The paths below a directory. *)
Inductive below (base : str) : str -> Prop :=
| below_here : below base base
| below_in p name : below base p -> slash ∉ name -> below base (path_join p name).

Definition clean_item (i : DirItem) : Prop := match i with Item name _ => slash ∉ name | _ => True end.

Definition subdirs (items : list DirItem) : list str :=
  omap (fun i => match i with Item name KindDir => Some name | _ => None end) items.

(** [rd] gives the listings of a finite tree of [n] directories. *)
#[warnings="-register-all"]
Inductive has_dirs (rd : str -> list DirItem) : str -> nat -> Prop :=
| has_dirs_at p ns :
    Forall2 (fun name n => has_dirs rd (path_join p name) n) (subdirs (rd p)) ns ->
    has_dirs rd p (S (sum_list ns)).

Section CopyEnds.
Context {W : Type} `{HOST : !HostFs W} `{IMG : !ImageFs W}.
Variables (src dst : str) (rd : str -> list DirItem) (I : W -> Prop).

(** As long as [I] holds the source reads as [rd], if it can be read, and writing
    below the destination keeps [I]. *)
Hypothesis reads : forall p w, I w -> below src p ->
  match im_read_dir p w with Ok items => items = rd p | Err _ => True end.
Hypothesis names : forall p, Forall clean_item (rd p).
Hypothesis mkdirs_keeps : forall d w, I w -> below dst d -> I (snd (host_mkdirs d w)).
Hypothesis copy_keeps : forall s d w, I w -> below dst d -> I (snd (im_copy s d w)).

Lemma copy_entries_spec p d items stack w :
  below src p -> below dst d -> Forall clean_item items -> I w ->
  let '(r, w') := copy_entries p d items stack w in
  I w' /\ match r with
          | Ok stack' => stack' = rev (map (fun n => (path_join p n, path_join d n)) (subdirs items)) ++ stack
          | Err _ => True
          end.
Proof.
  intros Hp Hd Hi. revert stack w. induction Hi as [|item items Hitem Hi IH]; intros stack w Hw; [done|].
  assert (Hcopy : forall s name stack w, slash ∉ name -> I w ->
    let '(r, w') := (let? (_u, w) := copy_file_async s (path_join d name) w in copy_entries p d items stack w) in
    I w' /\ match r with
            | Ok stack' => stack' = rev (map (fun n => (path_join p n, path_join d n)) (subdirs items)) ++ stack
            | Err _ => True
            end).
  { intros s name stack0 w0 Hn Hw0. unfold copy_file_async.
    pose proof (copy_keeps s (path_join d name) w0 Hw0 (below_in _ _ _ Hd Hn)) as Hk.
    destruct (im_copy s _ w0) as [[[]|e] w1]; cbn in *; [by apply IH|done]. }
  destruct item as [e|e|name kind]; cbn [copy_entries]; [done|done|].
  destruct kind; try by apply Hcopy.
  - pose proof (mkdirs_keeps (path_join d name) w Hw (below_in _ _ _ Hd Hitem)) as Hk.
    destruct (host_mkdirs _ w) as [[[]|e] w1]; cbn in *; [|done].
    specialize (IH ((path_join p name, path_join d name) :: stack) w1 Hk).
    destruct (copy_entries _ _ _ _ w1) as [[stack'|e] w2]; [|tauto]. destruct IH as [Hw2 ->]. split; [done|].
    change (subdirs (Item name KindDir :: items)) with (name :: subdirs items).
    cbn [map rev]. by rewrite <- app_assoc.
  - destruct (im_read_link _ w); [|done]. by apply Hcopy.
Qed.

Lemma copy_loop_ends fuel stack ns w :
  I w -> Forall (fun sd => below src sd.1 /\ below dst sd.2) stack ->
  Forall2 (fun sd n => has_dirs rd sd.1 n) stack ns -> sum_list ns <= fuel ->
  exists r w', copy_loop fuel stack w = Some (r, w') /\ I w'.
Proof.
  revert stack ns w. induction fuel as [|fuel IH]; intros stack ns w Hw Hb Hd Hf.
  - destruct Hd as [|[s d] n stack ns Hn _]; [cbn; eauto|]. inversion Hn. subst. cbn in Hf. lia.
  - destruct Hd as [|[s d] n stack ns Hn Hd]; [cbn; eauto|]. cbn [copy_loop].
    apply Forall_cons in Hb as [[Hs Hdst] Hb]. cbn in Hs, Hdst, Hn.
    pose proof (reads s w Hw Hs) as Hr. destruct (im_read_dir s w) as [items|e]; [|eauto]. subst items.
    pose proof (copy_entries_spec s d (rd s) stack w Hs Hdst (names s) Hw) as He.
    destruct (copy_entries _ _ _ _ w) as [[stack'|e] w1]; [|destruct He; eauto]. destruct He as [Hw1 ->].
    inversion Hn as [p ms Hms Hp Heq]. subst p n. cbn in Hf.
    apply (IH _ (rev ms ++ ns)); [done| | |].
    + apply Forall_app. split; [|done]. apply Forall_rev, Forall_map, Forall_forall.
      intros name (i & Hi & Hname)%list_elem_of_omap. pose proof (names s) as Hns. rewrite Forall_forall in Hns.
      specialize (Hns i Hi). destruct i as [| |nm []]; try done. injection Hname as ->.
      split; by constructor.
    + apply Forall2_app; [|done]. by apply Forall2_rev_map.
    + rewrite sum_list_snoc, sum_list_rev. lia.
Qed.

(** Copying a finite tree of directories to a place whose writing does not show in
    it comes to an end, whatever fails on the way, and reads each directory once
    at most. *)
Theorem copy_dir_ends (n : nat) (w : W) :
  has_dirs rd src n -> I w -> exists r w', copy_dir n src dst w = Some (r, w') /\ I w'.
Proof.
  intros Hn Hw. unfold copy_dir. apply (copy_loop_ends n [(src, dst)] [n]); [done| | |cbn; lia].
  - constructor; [|done]. split; constructor.
  - by constructor.
Qed.
End CopyEnds.

(** ** Examples *)

Module Demo.
#[local] Existing Instance some_order.

(** A file system: directories hold nothing of their own, files their content. *)
Abbreviation tree := (gmap (list N) (option bytes)).

Definition child_of (p q : str) : option str :=
  match strip_prefix (p ++ [slash]) q with
  | Some name => if bool_decide (name = []) || negb (Nat.eqb (length (split_on slash name)) 1) then None else Some name
  | None => None
  end.

Definition listing (p : str) (t : tree) : list DirItem :=
  omap (fun '(q, c) => option_map (fun name => Item name (match c with Some _ => KindFile | None => KindDir end))
                         (child_of p q)) (map_to_list t).

#[export] Instance tree_host : HostFs tree := {|
  path_exists := fun p t => bool_decide (is_Some (t !! p));
  host_read := fun p t => match t !! p with Some (Some c) => Ok c | _ => Err (lit "no such file") end;
  host_write := fun p c t => (Ok tt, <[p := Some c]> t);
  host_mkdirs := fun p t => (Ok tt, if bool_decide (is_Some (t !! p)) then t else <[p := None]> t);
  host_remove := fun p t => delete p t;
  host_link := fun a b t => (Err (lit "not supported"), t);
  host_tar := fun _ t => (Err (lit "no tar"), t)
|}.

#[export] Instance tree_images : ImageFs tree := {|
  im_metadata := fun p t => match t !! p with
    | Some (Some _) => Ok KindFile | Some None => Ok KindDir | None => Err (lit "No such file or directory") end;
  im_open := fun p t => match t !! p with Some (Some c) => Ok c | _ => Err (lit "no such file") end;
  im_read_dir := fun p t => match t !! p with Some None => Ok (listing p t) | _ => Err (lit "not a directory") end;
  im_read_link := fun _ _ => Err (lit "not a link");
  im_copy := fun a b t => match t !! a with Some (Some c) => (Ok tt, <[b := Some c]> t) | _ => (Err (lit "no file"), t) end;
  im_mode := fun _ _ => Ok 420%Z;
  im_set_mode := fun _ _ t => (Ok tt, t)
|}.

Definition image : tree :=
  list_to_map (map (fun '(p, c) => (lit p, c))
    [("/img", None); ("/img/a", Some [1%N]); ("/img/bin", None); ("/img/bin/sh", Some [2%N]); ("/out", None)]%string).

Definition copied (fuel : nat) (src dst : string) : option (bool * bool * bool) :=
  option_map (fun '(r, t) => (is_ok r,
      bool_decide ((t : tree) !! lit "/out/a" = Some (Some [1%N])),
      bool_decide ((t : tree) !! lit "/out/bin/sh" = Some (Some [2%N]))))
    (copy_dir fuel (lit src) (lit dst) image).

(** Two directories take two turns; a directory that is copied into itself is
    copied for as long as there is fuel. *)
Example copies_tree : copied 2 "/img" "/out" = Some (true, true, true).
Proof. vm_compute. reflexivity. Qed.

Example copies_into_itself :
  copy_dir 30 (lit "/img") (lit "/img/rootfs") (snd (host_mkdirs (lit "/img/rootfs") image)) = None.
Proof. vm_compute. reflexivity. Qed.

(** A file system that only keeps a list of what was written. *)
Abbreviation log := (list (list N)).

Definition shelf (p : str) : list DirItem :=
  if str_eqb p (lit "/img") then [Item (lit "a") KindFile; Item (lit "bin") KindDir]
  else if str_eqb p (lit "/img/bin") then [Item (lit "sh") KindLink] else [].

Definition log_host : HostFs log := {|
  path_exists := fun _ _ => false; host_read := fun _ _ => Err []; host_write := fun p _ t => (Ok tt, p :: t);
  host_mkdirs := fun p t => (Ok tt, p :: t); host_remove := fun _ t => t;
  host_link := fun _ _ t => (Err [], t); host_tar := fun _ t => (Err [], t)
|}.

Definition log_images : ImageFs log := {|
  im_metadata := fun _ _ => Ok KindDir; im_open := fun _ _ => Err []; im_read_dir := fun p _ => Ok (shelf p);
  im_read_link := fun _ _ => Ok (lit "busybox"); im_copy := fun a b t => (Ok tt, b :: t);
  im_mode := fun _ _ => Ok 420%Z; im_set_mode := fun _ _ t => (Ok tt, t)
|}.

Lemma shelf_dirs : has_dirs shelf (lit "/img") 2.
Proof.
  apply (has_dirs_at shelf (lit "/img") [1]). vm_compute subdirs. constructor; [|constructor].
  apply (has_dirs_at shelf _ []). vm_compute subdirs. constructor.
Qed.

Lemma shelf_names p : Forall clean_item (shelf p).
Proof.
  unfold shelf. repeat case_match; repeat constructor; unfold clean_item;
    (apply (bool_decide_unpack _); by vm_compute).
Qed.

Lemma copy_dir_ends_witness : exists r w', @copy_dir log log_host log_images 2 (lit "/img") (lit "/out") [] = Some (r, w') /\ True.
Proof.
  apply (@copy_dir_ends log log_host log_images (lit "/img") (lit "/out") shelf (fun _ => True)); try done.
  - exact shelf_names.
  - exact shelf_dirs.
Defined.

Example listed_capabilities :
  map nc_guest_ip [fst (@tap_configure unit (fun _ u => (Ok (true, []), u)) (mkTap (lit "10.0.2.1") 24) (lit "tap-a") tt)] =
  [lit "10.0.2..2"].
Proof. reflexivity. Qed.

Lemma guest_ip_spec_witness : guest_ip (lit "10.0.2" ++ chr "." :: lit "1") = lit "10.0.2..2".
Proof.
  apply (guest_ip_spec (lit "10.0.2") (lit "1")).
  by apply (bool_decide_unpack (chr "." ∉ lit "1")); vm_compute.
Defined.

(** A generated identifier has 36 characters. *)
Example generated_is_refused :
  is_ok (fst (@tap_setup unit (fun _ u => (Ok (true, []), u)) (mkTap (lit "10.0.2.1") 24)
    (lit "550e8400-e29b-41d4-a716-446655440000") NetworkSpec_default tt)) = false.
Proof. reflexivity. Qed.
End Demo.
