(* ===== verification/Gvisor.v ===== *)
(** * The gVisor provider

    Models [bastion-infrastructure/src/provider/gvisor.rs]: containers that a
    [runsc] process keeps, their bundles, the start of the worker in them, and
    the listing.  Commands and files go through the worker, see [Session].
    Processes, the clock and the random ids are the class [Machines]; what the
    provider asks the command router is [Router].  The answer of an operation is
    [None] for a panic, and where fuel ran out. *)

From S2P Require Import Prelude Utf8 Sandbox Command SandboxFsm ProviderTypes Normalizer CommandExtractor SandboxFs Materialize Readiness HostProviders Images.

(** ** Processes and time *)

Record ProgOutput := mkProgOutput { po_success : bool; po_stdout : bytes; po_stderr : bytes }.

Class Machines `{CH : Chrono} (W : Type) := {
  mc_now : W -> DateTime;
  (** The monotonic clock, in milliseconds. *)
  mc_instant : W -> Z;
  mc_sleep : Z -> W -> W;
  mc_uuid : W -> str * W;
  (** A program that runs to its end, one that is left running, and one that is
      kept; whether a kept one has exited; its end. *)
  mc_run : list str -> W -> result str ProgOutput * W;
  mc_background : list str -> W -> W;
  mc_spawn : list str -> W -> result str nat * W;
  mc_try_wait : nat -> W -> result str bool;
  mc_kill : nat -> W -> W;
  mc_rmdir : str -> W -> W
}.

Class MachineLaws `{CH : Chrono} (W : Type) `{MACH : !@Machines CH W} :=
  law_sleep : forall d w, (mc_instant w + d <= mc_instant (mc_sleep d w))%Z.

Class Router (W : Type) := {
  rt_is_worker_connected : str -> W -> bool;
  rt_set_sandbox_secret : str -> str -> W -> W
}.

Section Polling.
Context `{CH : Chrono} {W : Type} `{MACH : !@Machines CH W}.

(** A loop that waits in steps of some milliseconds for a condition, until the
    clock says that it is too late. *)
Fixpoint poll (fuel : nat) (expired : Z -> bool) (step : Z) (check : W -> bool) (w : W) : option (bool * W) :=
  match fuel with
  | O => None
  | S fuel =>
      if expired (mc_instant w) then Some (false, w)
      else if check w then Some (true, w)
      else poll fuel expired step check (mc_sleep step w)
  end.

Lemma poll_result fuel expired step check w b w' :
  poll fuel expired step check w = Some (b, w') ->
  if b then check w' = true else expired (mc_instant w') = true.
Proof.
  revert w. induction fuel as [|fuel IH]; intros w; [done|]. cbn.
  destruct (expired (mc_instant w)) eqn:E; [intros Hp; by simplify_eq|].
  destruct (check w) eqn:C; [intros Hp; by simplify_eq|]. apply IH.
Qed.

(** With a clock that advances while the loop sleeps, it ends: after one turn for
    every step that fits into the time that is left, and two more. *)
Theorem poll_ends `{LAWS : !MachineLaws W} (fuel : nat) (expired : Z -> bool) (deadline step : Z)
    (check : W -> bool) (w : W) :
  (forall t, deadline < t -> expired t = true)%Z -> (0 < step)%Z ->
  (deadline - mc_instant w < (Z.of_nat fuel - 1) * step)%Z -> (0 < fuel)%nat ->
  exists b w', poll fuel expired step check w = Some (b, w') /\
    if b then check w' = true else expired (mc_instant w') = true.
Proof.
  intros Hex Hs. revert w. induction fuel as [|fuel IH]; intros w Hf Hp; [lia|].
  assert (He : exists b w', poll (S fuel) expired step check w = Some (b, w')); [|destruct He as (b & w' & He)].
  - cbn. destruct (expired (mc_instant w)) eqn:E; [eauto|]. destruct (check w); [eauto|].
    destruct (decide (fuel = 0)) as [->|Hn].
    + rewrite Hex in E; [done|]. lia.
    + destruct (IH (mc_sleep step w)) as (b & w' & Hb & _); [|lia|eauto].
      pose proof (law_sleep step w). nia.
  - exists b, w'. split; [done|]. by apply poll_result in He.
Qed.
End Polling.

(** ** The provider *)

Record ContainerState := mkContainerState { ct_child : nat; ct_bundle_dir : str }.

Section Gvisor.
Context `{CH : Chrono} {W : Type} `{MACH : !@Machines CH W} `{ROUTER : !Router W} `{HOST : !HostFs W}
  `{IMG : !ImageFs W} `{ORDER : HashOrder} `{JSON : JsonText}.

Abbreviation States := (gmap str (@StateEntry Empty_set Local.no_payload Z)).

Record GVisorProvider := mkGVisor {
  gv_runsc_binary : str; gv_default_image : str; gv_rootfs_dir : str; gv_worker_binary : str;
  gv_gateway_addr : str; gv_router : bool;
  gv_containers : gmap str ContainerState; gv_states : States
}.

Definition gv_with_containers (m : gmap str ContainerState) (p : GVisorProvider) : GVisorProvider :=
  mkGVisor (gv_runsc_binary p) (gv_default_image p) (gv_rootfs_dir p) (gv_worker_binary p) (gv_gateway_addr p)
    (gv_router p) m (gv_states p).
Definition gv_with_states (m : States) (p : GVisorProvider) : GVisorProvider :=
  mkGVisor (gv_runsc_binary p) (gv_default_image p) (gv_rootfs_dir p) (gv_worker_binary p) (gv_gateway_addr p)
    (gv_router p) (gv_containers p) m.

Definition gv_new (runsc_binary default_image rootfs_dir worker_binary gateway_addr : str) (w : W) :
    result DomainError GVisorProvider * W :=
  if negb (path_exists runsc_binary w) then (Err (Config (lit "runsc binary not found: " ++ runsc_binary)), w)
  else if negb (path_exists rootfs_dir w) then
    (Err (Config (lit "Rootfs directory not found: " ++ rootfs_dir)), w)
  else
    let '(r, w) := host_mkdirs rootfs_dir w in
    (match r with
     | Err e => Err (Config (lit "Cannot create rootfs directory: " ++ e))
     | Ok _ => Ok (mkGVisor runsc_binary default_image rootfs_dir worker_binary gateway_addr false ∅
                     (fsm_new Local.no_payload))
     end, w).

Definition gv_set_command_router (p : GVisorProvider) : GVisorProvider :=
  mkGVisor (gv_runsc_binary p) (gv_default_image p) (gv_rootfs_dir p) (gv_worker_binary p) (gv_gateway_addr p)
    true (gv_containers p) (gv_states p).

Definition runsc_cmd (p : GVisorProvider) (args : list str) : list str :=
  gv_runsc_binary p :: lit "-rootless" :: lit "-network=host" :: args.

Definition gv_start_worker (id secret : str) (p : GVisorProvider) (w : W) : W :=
  mc_background (runsc_cmd p
    [lit "exec"; id; lit "/usr/local/bin/bastion-worker"; lit "--gateway-addr"; lit "http://" ++ gv_gateway_addr p;
     lit "--sandbox-id"; id; lit "--secret"; secret; lit "--workdir"; lit "/workspace"]) w.

(** Thirty seconds in steps of a fifth of one. *)
Definition connection_fuel : nat := 152.

Definition wait_for_worker_connection (id : str) (timeout : Z) (p : GVisorProvider) (w : W) :
    option (result DomainError unit * W) :=
  if gv_router p then
    let deadline := (mc_instant w + timeout)%Z in
    match poll connection_fuel (fun t => deadline <? t)%Z 200 (rt_is_worker_connected id) w with
    | None => None
    | Some (true, w) => Some (Ok tt, w)
    | Some (false, w) =>
        Some (Err (Timeout (lit "Worker in sandbox " ++ id ++ lit " did not connect within timeout")), w)
    end
  else Some (Ok tt, w).

(** One line of the output of [runsc list]. *)
Definition line_is_running (id line : str) : bool :=
  let parts := words line [] in
  match parts with
  | first :: _ => str_eqb first id && match parts !! 2 with Some st => str_eqb st (lit "running") | None => false end
  | [] => false
  end.

Definition container_is_running (id : str) (p : GVisorProvider) (w : W) : result DomainError bool * W :=
  let '(r, w) := mc_run (runsc_cmd p [lit "list"]) w in
  (match r with
   | Err e => Err (Internal (lit "Failed to run runsc list: " ++ e))
   | Ok out => Ok (existsb (line_is_running id) (SandboxFs.lines (from_utf8_lossy (po_stdout out))))
   end, w).

(** The attempts that are left to find the container running. *)
Fixpoint await_running (attempts : nat) (id : str) (p : GVisorProvider) (w : W) : bool * W :=
  match attempts with
  | O => (false, w)
  | S n =>
      let '(r, w) := container_is_running id p w in
      match r with
      | Ok true => (true, w)
      | _ => match n with O => (false, w) | _ => await_running n id p (mc_sleep 200 w) end
      end
  end.

(** The image of a template: its name up to the first colon. *)
Definition gv_image (template : str) (p : GVisorProvider) : str :=
  match template with [] => gv_default_image p | _ => hd template (split_on (chr ":") template) end.

Definition gv_bundle_dir (id : str) (p : GVisorProvider) : str := path_join (gv_rootfs_dir p) id.

(** The bundle of a new container. *)
Definition gv_prepare (fuel : nat) (id template : str) (env_vars : gmap str str) (p : GVisorProvider) (w : W) :
    option (result DomainError str * W) :=
  let image_path := path_join (gv_rootfs_dir p) (gv_image template p) in
  if negb (path_exists image_path w) then
    Some (Err (Config (lit "Rootfs image not found: " ++ image_path ++
      lit ". Place a rootfs directory (e.g. debian:bookworm-slim) at this path, or set 'default_image' in your gvisor provider config to an existing image under '"
      ++ gv_rootfs_dir p ++ lit "'.")), w)
  else
    match validate (OciImage_new image_path false) w with
    | Err e => Some (Err e, w)
    | Ok _ =>
        prepare_oci_bundle fuel id (gv_bundle_dir id p) image_path (gv_worker_binary p) env_vars
          [lit "/bin/sleep"; lit "infinity"] w
    end.

(** Noting a container: the process of one that was noted under the same id is
    killed when its handle is dropped. *)
Definition gv_insert (id : str) (st : ContainerState) (p : GVisorProvider) (w : W) : GVisorProvider * W :=
  (gv_with_containers (<[id := st]> (gv_containers p)) p,
   match gv_containers p !! id with Some old => mc_kill (ct_child old) w | None => w end).

Definition gv_register (id : str) (now : Z) (p : GVisorProvider) : result DomainError unit * GVisorProvider :=
  let '(r, m) := register Local.no_payload id now (gv_states p) in
  match r with
  | Err e => (Err e, gv_with_states m p)
  | Ok _ =>
      let '(r, m) := transition Local.no_payload id Running m in
      (match r with Err e => Err e | Ok _ => Ok tt end, gv_with_states m p)
  end.

(** From the noted container to a connected worker. *)
Definition gv_start (id secret : str) (p : GVisorProvider) (w : W) : option (result DomainError unit * W) :=
  let '(running, w) := await_running 10 id p (mc_sleep 500 w) in
  if negb running then
    Some (Err (Timeout (lit "Container " ++ id ++ lit " did not start within timeout")), w)
  else
    let w := gv_start_worker id secret p w in
    let w := if gv_router p then rt_set_sandbox_secret id secret w else w in
    wait_for_worker_connection id 30000 p w.

(** The entity of a started machine; [None] is the panic of the timeout. *)
Definition started_entity (id template provider : str) (resources : ResourcesSpec) (network : NetworkSpec)
    (timeout_ms : Z) (now : DateTime) : option (result DomainError Sandbox) :=
  match set_timeout timeout_ms (Sandbox_new id template provider None resources network now) with
  | None => None
  | Some sandbox =>
      let '(r, sandbox) := mark_running sandbox in
      Some (match r with Err e => Err e | Ok _ => Ok sandbox end)
  end.

Definition gv_create (fuel : nat) (id template : str) (resources : ResourcesSpec) (network : NetworkSpec)
    (env_vars : gmap str str) (timeout_ms : Z) (p : GVisorProvider) (w : W) :
    option (result DomainError Sandbox) * GVisorProvider * W :=
  let '(uuid, w) := mc_uuid w in
  let secret := lit "secret-" ++ uuid in
  match gv_prepare fuel id template env_vars p w with
  | None => (None, p, w)
  | Some (Err e, w) => (Some (Err e), p, w)
  | Some (Ok bundle_dir, w) =>
      match mc_spawn (runsc_cmd p [lit "run"; lit "-bundle"; bundle_dir; id]) w with
      | (Err e, w) => (Some (Err (Internal (lit "Failed to spawn runsc: " ++ e))), p, w)
      | (Ok child, w) =>
          let '(p, w) := gv_insert id (mkContainerState child bundle_dir) p w in
          let '(r, p) := gv_register id (mc_instant w) p in
          match r with
          | Err e => (Some (Err e), p, w)
          | Ok _ =>
              match gv_start id secret p w with
              | None => (None, p, w)
              | Some (Err e, w) => (Some (Err e), p, w)
              | Some (Ok _, w) =>
                  (started_entity id template (lit "gvisor") resources network timeout_ms (mc_now w), p, w)
              end
          end
      end
  end.

Definition gv_terminate (id : str) (p : GVisorProvider) (w : W) : result DomainError unit * GVisorProvider * W :=
  let tracked := gv_containers p !! id in
  let w := match tracked with Some st => mc_kill (ct_child st) w | None => w end in
  let p := gv_with_states (snd (remove Local.no_payload id (gv_states p)))
             (gv_with_containers (delete id (gv_containers p)) p) in
  let w := snd (mc_run (runsc_cmd p [lit "delete"; lit "-force"; id]) w) in
  let w := match tracked with
           | Some st => if path_exists (ct_bundle_dir st) w then mc_rmdir (ct_bundle_dir st) w else w
           | None => w
           end in
  (Ok tt, p, w).

(** Whether a kept process runs: one that cannot be asked does not. *)
Definition child_runs (child : nat) (w : W) : bool :=
  match mc_try_wait child w with Ok exited => negb exited | Err _ => false end.

Definition gv_is_alive (id : str) (p : GVisorProvider) (w : W) : result DomainError bool * W :=
  let ended := match get_state Local.no_payload id (gv_states p) with
               | Some Stopped | Some Failed => true
               | _ => false
               end in
  if ended then (Ok false, w)
  else match gv_containers p !! id with
       | Some st => (Ok (child_runs (ct_child st) w), w)
       | None => container_is_running id p w
       end.

Definition gv_capabilities : option ProviderCapabilities :=
  expect_ok (try_new false true false 600000 4096 4 true false 2000).
Definition gv_name : str := lit "gvisor".

(** The entity a listing shows of a machine of the provider. *)
Definition listed_entity (provider id : str) (now : DateTime) : Sandbox :=
  Sandbox_new id provider provider None ResourcesSpec_default NetworkSpec_default now.

(** The loop over the registered ids, up to the limit; [child] finds the process of
    one. *)
Definition list_machines (provider : str) (filter : SandboxFilter) (child : str -> option nat) (ids : list str)
    (w : W) : list Sandbox :=
  omap (fun id =>
    match child id with
    | None => None
    | Some c =>
        let status := if child_runs c w then Running else Stopped in
        match f_status filter with
        | Some s => if bool_decide (status = s) then Some (listed_entity provider id (mc_now w)) else None
        | None => Some (listed_entity provider id (mc_now w))
        end
    end) (take (Z.to_nat (Z.min (default u32_max (f_limit filter)) (Z.of_nat (length ids)))) ids).

Definition gv_list_sandboxes (filter : SandboxFilter) (p : GVisorProvider) (w : W) : result DomainError (list Sandbox) :=
  Ok (list_machines (lit "gvisor") filter (fun id => option_map ct_child (gv_containers p !! id))
        (list_active Local.no_payload (gv_states p)) w).

(** The entity that [get_info] shows of a machine. *)
Definition machine_info (provider id : str) (child : option nat) (w : W) : result DomainError Sandbox :=
  match child with
  | None => Err (NotFound id)
  | Some c =>
      let sandbox := listed_entity provider id (mc_now w) in
      if child_runs c w then
        let '(r, sandbox) := mark_running sandbox in match r with Ok _ => Ok sandbox | Err e => Err e end
      else Ok (snd (terminate sandbox))
  end.

Definition gv_get_info (id : str) (p : GVisorProvider) (w : W) : result DomainError Sandbox :=
  machine_info (lit "gvisor") id (option_map ct_child (gv_containers p !! id)) w.

Definition gv_set_timeout (id : str) (_timeout_ms : Z) (p : GVisorProvider) : result DomainError unit :=
  match gv_containers p !! id with Some _ => Ok tt | None => Err (NotFound id) end.
End Gvisor.

(** ** Properties *)

Section GvisorFacts.
Context `{CH : Chrono} {W : Type} `{MACH : !@Machines CH W} `{ROUTER : !Router W} `{HOST : !HostFs W}
  `{IMG : !ImageFs W} `{ORDER : HashOrder} `{JSON : JsonText}.
Implicit Types (p : GVisorProvider) (w : W).

Lemma gv_register_spec id now p :
  gv_register id now p =
  match gv_states p !! id with
  | Some _ => (Err (AlreadyExists (lit "Sandbox already registered")),
               gv_with_states (<[id := mkEntry Local.no_payload Pending None now]> (gv_states p)) p)
  | None => (Ok tt, gv_with_states (<[id := mkEntry Local.no_payload Running None now]> (gv_states p)) p)
  end.
Proof.
  unfold gv_register, register. destruct (gv_states p !! id); [done|]. unfold transition.
  rewrite lookup_insert_eq. cbn. by rewrite insert_insert_eq.
Qed.

Lemma started_entity_running id t prov r n ms now sb :
  started_entity id t prov r n ms now = Some (Ok sb) -> sb_id sb = id /\ status sb = Running.
Proof. unfold started_entity, set_timeout. destruct (add_millis _ _); [|done]. cbn. by intros [= <-]. Qed.

(** Waiting for the worker ends within its fuel, if the clock goes on. *)
Lemma wait_connection_ends `{LAWS : !MachineLaws W} id p w :
  exists r w', wait_for_worker_connection id 30000 p w = Some (r, w') /\
    (r = Ok tt -> gv_router p = true -> rt_is_worker_connected id w' = true).
Proof.
  unfold wait_for_worker_connection. destruct (gv_router p) eqn:Er; [|by exists (Ok tt), w].
  destruct (poll_ends connection_fuel (fun t => mc_instant w + 30000 <? t)%Z (mc_instant w + 30000) 200
    (rt_is_worker_connected id) w) as (b & w' & -> & Hb); unfold connection_fuel; try lia.
  destruct b; eexists _, w'; (split; [reflexivity|done]).
Qed.

Lemma wait_connected id timeout p w w' :
  wait_for_worker_connection id timeout p w = Some (Ok tt, w') -> gv_router p = true ->
  rt_is_worker_connected id w' = true.
Proof.
  unfold wait_for_worker_connection. intros Hw Hr. rewrite Hr in Hw.
  destruct (poll _ _ _ _ w) as [[[] w1]|] eqn:E; try done. injection Hw as <-. by apply poll_result in E.
Qed.

Definition not_started (id : str) : DomainError :=
  Timeout (lit "Container " ++ id ++ lit " did not start within timeout").
Definition not_connected_error (id : str) : DomainError :=
  Timeout (lit "Worker in sandbox " ++ id ++ lit " did not connect within timeout").

(** A bundle that is prepared is at the place of the sandbox's name. *)
Lemma gv_prepare_dir fuel id template env p w b w' :
  gv_prepare fuel id template env p w = Some (Ok b, w') -> b = gv_bundle_dir id p.
Proof.
  unfold gv_prepare. destruct (negb _); [done|]. destruct (validate _ w); [|done].
  unfold prepare_oci_bundle. destruct (host_mkdirs _ w) as [[] w2]; [|done].
  destruct (copy_dir _ _ _ w2) as [[[] w3]|]; [|done..]. intros Ep. injection Ep as Ep.
  destruct (inject_worker _ _ w3) as [[] w4]; [|done]. cbn in Ep. destruct (json_pretty _); [|done].
  destruct (host_write _ _ w4) as [[] w5]; [|done]. by injection Ep as <-.
Qed.

(** The start of the worker: connected, or one of two timeouts. *)
Lemma gv_start_answers `{LAWS : !MachineLaws W} id secret p w :
  exists r w', gv_start id secret p w = Some (r, w') /\
    match r with
    | Ok _ => gv_router p = true -> rt_is_worker_connected id w' = true
    | Err e => e = not_started id \/ (gv_router p = true /\ e = not_connected_error id)
    end.
Proof.
  unfold gv_start. destruct (await_running 10 id p _) as [[] w4]; cbn [negb]; [|eexists _, w4; split; [reflexivity|by left]].
  set (w5 := if gv_router p then _ else _).
  destruct (wait_connection_ends id p w5) as (r & w6 & E & Hc). rewrite E. exists r, w6. split; [done|].
  destruct r as [[]|e]; [auto|]. right. revert E. unfold wait_for_worker_connection.
  destruct (gv_router p); [|done]. destruct (poll _ _ _ _ w5) as [[[] w7]|]; try done. by intros [= <- _].
Qed.

(** C35. A creation, branch by branch; with a clock that goes on.  When the bundle
    cannot be prepared or [runsc] cannot be started, the answer is that error and
    the provider is as it was.  From there on the new container is noted under the
    id, whatever the answer is, and nothing is taken back: one that was noted
    under the id is replaced and killed, and if the id was registered the answer
    is [AlreadyExists] and the id is pending.  Otherwise the id is registered as
    running, even when the answer is one of the two timeouts - the container did
    not start, or there is a router and the worker did not connect to it.  A
    sandbox that is answered has the id, is running, and its worker is connected
    if there is a router; without an answer the timeout was beyond the calendar.
    No other sandbox is touched. *)
Theorem gv_create_spec `{LAWS : !MachineLaws W} (fuel : nat) (id template : str) (res : ResourcesSpec)
    (net : NetworkSpec) (env : gmap str str) (ms : Z) (p : GVisorProvider) (w : W) :
  let '(r, p', w') := gv_create fuel id template res net env ms p w in
  (forall id', id' ≠ id -> gv_containers p' !! id' = gv_containers p !! id' /\ gv_states p' !! id' = gv_states p !! id') /\
  match gv_prepare fuel id template env p (snd (mc_uuid w)) with
  | None => r = None /\ p' = p
  | Some (Err e, w1) => r = Some (Err e) /\ p' = p /\ w' = w1
  | Some (Ok bundle_dir, w1) =>
      match mc_spawn (runsc_cmd p [lit "run"; lit "-bundle"; bundle_dir; id]) w1 with
      | (Err e, w2) => r = Some (Err (Internal (lit "Failed to spawn runsc: " ++ e))) /\ p' = p /\ w' = w2
      | (Ok child, w2) =>
          let w3 := match gv_containers p !! id with Some old => mc_kill (ct_child old) w2 | None => w2 end in
          gv_containers p' !! id = Some (mkContainerState child (gv_bundle_dir id p)) /\
          match gv_states p !! id with
          | Some _ =>
              r = Some (Err (AlreadyExists (lit "Sandbox already registered"))) /\ w' = w3 /\
              get_state Local.no_payload id (gv_states p') = Some Pending
          | None =>
              get_state Local.no_payload id (gv_states p') = Some Running /\
              (exists secret r0, gv_start id secret p' w3 = Some (r0, w')) /\
              match r with
              | Some (Ok sb) => sb_id sb = id /\ status sb = Running /\
                  (gv_router p = true -> rt_is_worker_connected id w' = true)
              | Some (Err e) => e = not_started id \/ (gv_router p = true /\ e = not_connected_error id)
              | None => exists t, add_millis t (as_i64 ms) = None
              end
          end
      end
  end.
Proof.
  unfold gv_create. destruct (mc_uuid w) as [uuid w0]. cbn [snd].
  destruct (gv_prepare fuel id template env p w0) as [[[b|e] w1]|] eqn:Ep; [|by auto..].
  apply gv_prepare_dir in Ep as ->. destruct (mc_spawn _ w1) as [[child|e] w2]; [|by auto].
  unfold gv_insert. rewrite gv_register_spec. cbn [gv_states gv_with_containers].
  set (st := mkContainerState child (gv_bundle_dir id p)).
  set (w3 := match gv_containers p !! id with Some old => _ | None => w2 end).
  destruct (gv_states p !! id) as [en|] eqn:Es.
  - cbn. split; [intros id' Hn; by rewrite !lookup_insert_ne by done|].
    unfold get_state. rewrite !lookup_insert_eq. by split_and!.
  - set (p1 := gv_with_states _ _). set (secret := lit "secret-" ++ uuid).
    assert (Hoth : forall id', id' ≠ id -> gv_containers p1 !! id' = gv_containers p !! id' /\
      gv_states p1 !! id' = gv_states p !! id').
    { intros id' Hn. unfold p1. cbn. by rewrite !lookup_insert_ne by done. }
    assert (Hk : gv_containers p1 !! id = Some st /\
      get_state Local.no_payload id (gv_states p1) = Some Running).
    { unfold p1, get_state. cbn. by rewrite !lookup_insert_eq. }
    assert (Hro : gv_router p1 = gv_router p) by done. destruct Hk as [Hk Hst].
    clearbody p1. destruct (gv_start_answers id secret p1 w3) as (r & w4 & E & Hr). rewrite E, Hro in *.
    destruct r as [[]|e]; cbn zeta iota beta.
    + split; [done|]. split; [done|]. split; [done|]. split; [by exists secret, (Ok tt)|].
      destruct (started_entity _ _ _ _ _ _ _) as [[sb|e]|] eqn:Ee.
      * destruct (started_entity_running _ _ _ _ _ _ _ _ Ee) as [Hid Hrun]. by split_and!.
      * unfold started_entity, set_timeout in Ee. by destruct (add_millis _ _).
      * unfold started_entity, set_timeout in Ee. cbn in Ee. destruct (add_millis _ _) eqn:Em; [done|]. by eexists.
    + split; [done|]. split; [done|]. split; [done|]. split; [by exists secret, (Err e)|done].
Qed.

(** Creating a container ends: unless the copy of the image ran out of fuel, or the
    timeout is beyond the calendar, there is an answer. *)
Theorem gv_create_ends `{LAWS : !MachineLaws W} (fuel : nat) (id template : str) (res : ResourcesSpec)
    (net : NetworkSpec) (env : gmap str str) (ms : Z) (p : GVisorProvider) (w : W) :
  gv_prepare fuel id template env p (snd (mc_uuid w)) ≠ None ->
  (forall t, is_Some (add_millis t (as_i64 ms))) ->
  exists r p' w', gv_create fuel id template res net env ms p w = (Some r, p', w').
Proof.
  unfold gv_create. destruct (mc_uuid w) as [uuid w0]. cbn [snd]. intros Hp Ht.
  destruct (gv_prepare fuel id template env p w0) as [[[b|e] w1]|]; [|eauto|done].
  destruct (mc_spawn _ w1) as [[child|e] w2]; [|eauto].
  destruct (gv_insert _ _ p w2) as [p1 w3]. destruct (gv_register _ _ p1) as [[[]|e] p2]; [|eauto].
  unfold gv_start. destruct (await_running 10 id p2 _) as [[] w4]; cbn [negb]; [|eauto].
  edestruct (wait_connection_ends id p2) as (r & w5 & -> & _). destruct r as [[]|e]; [|eauto].
  unfold started_entity, set_timeout. cbn. destruct (Ht (mc_now w5)) as [t ->]. eauto.
Qed.

(** The listing: each sandbox that is registered and noted, once, if it is in the
    state asked for - and every entry is pending, whatever that state was. *)
Theorem gv_list_spec (filter : SandboxFilter) (p : GVisorProvider) (w : W) :
  f_limit filter = None -> (Z.of_nat (size (gv_states p)) <= u32_max)%Z ->
  exists l, gv_list_sandboxes filter p w = Ok l /\ NoDup (map sb_id l) /\
    Forall (fun sb => status sb = Pending) l /\
    forall id, id ∈ map sb_id l <->
      is_Some (gv_states p !! id) /\ exists st, gv_containers p !! id = Some st /\
        match f_status filter with
        | Some s => s = if child_runs (ct_child st) w then Running else Stopped
        | None => True
        end.
Proof.
  intros Hlim Hsize. unfold gv_list_sandboxes. eexists. split; [reflexivity|].
  unfold list_machines. rewrite Hlim. cbn [default].
  assert (Hlen : length (list_active Local.no_payload (gv_states p)) = size (gv_states p)).
  { unfold list_active. by rewrite length_map, length_map_to_list. }
  rewrite take_ge by lia.
  destruct (count_by_status_spec Local.no_payload (gv_states p) Running) as (_ & Hnd & Hact).
  set (pick := fun id : str => _).
  assert (Hpick : forall id sb, pick id = Some sb <-> sb = listed_entity (lit "gvisor") id (mc_now w) /\
    exists st, gv_containers p !! id = Some st /\
      match f_status filter with
      | Some s => s = if child_runs (ct_child st) w then Running else Stopped
      | None => True end).
  { intros id sb. unfold pick. destruct (gv_containers p !! id) as [st|]; cbn; [|split; [done|by intros (_ & ? & ? & _)]].
    destruct (f_status filter) as [s|].
    - case_bool_decide as Hs; split; [intros [= <-]; eauto|by intros [-> _]|done|].
      intros (_ & st' & [= <-] & Hs'). congruence.
    - split; [intros [= <-]; eauto|by intros [-> _]]. }
  assert (Hids : forall ids, map sb_id (omap pick ids) = List.filter (fun id => bool_decide (is_Some (pick id))) ids).
  { induction ids as [|id ids IH]; [done|]. cbn. destruct (pick id) as [sb|] eqn:E.
    - rewrite bool_decide_true by eauto. cbn. rewrite IH. apply Hpick in E as [-> _]. done.
    - rewrite bool_decide_false by (by intros [? ?]). done. }
  split_and!.
  - rewrite Hids. eapply sublist_NoDup; [exact Hnd|]. apply filter_sublist.
  - apply Forall_forall. intros sb (id & _ & [-> _]%Hpick)%list_elem_of_omap. done.
  - intros id. rewrite Hids, list_elem_of_In, filter_In, <- list_elem_of_In, Hact.
    unfold get_state. split.
    + intros [Ha Hb%bool_decide_eq_true]. destruct Hb as [sb [_ Hst]%Hpick].
      split; [|done]. destruct (gv_states p !! id); [eauto|done].
    + intros [[en He] Hst]. rewrite He. split; [done|]. apply bool_decide_eq_true.
      eexists. apply Hpick. eauto.
Qed.

(** A terminated container is in no table, and neither found nor registered again;
    the others are as they were; ending one that is unknown succeeds. *)
Theorem gv_terminate_spec (id : str) (p : GVisorProvider) (w : W) :
  let '(r, p', w') := gv_terminate id p w in
  r = Ok tt /\ gv_containers p' = delete id (gv_containers p) /\ gv_states p' = delete id (gv_states p) /\
  (forall w0, gv_get_info id p' w0 = Err (NotFound id)) /\ gv_set_timeout id 0 p' = Err (NotFound id) /\
  (forall w0, gv_is_alive id p' w0 = container_is_running id p' w0).
Proof.
  unfold gv_terminate. cbn. do 3 (split; [done|]).
  unfold gv_get_info, gv_set_timeout, gv_is_alive, get_state. cbn.
  by rewrite !lookup_delete_eq.
Qed.
End GvisorFacts.

(** ** Examples *)

Module Demo.
Import Images.Demo.
#[local] Existing Instances Z_chrono some_order.

(** A host: its files, a clock, and whether the worker of a sandbox connects. *)
Record host := mkHost { h_files : tree; h_clock : Z; h_killed : list nat; h_connects : bool }.

Definition set_files (h : host) (t : tree) : host := mkHost t (h_clock h) (h_killed h) (h_connects h).
Definition lift {A} (h : host) (r : A * tree) : A * host := (fst r, set_files h (snd r)).

#[export] Instance host_files : HostFs host := {|
  path_exists := fun p h => path_exists p (h_files h);
  host_read := fun p h => host_read p (h_files h);
  host_write := fun p c h => lift h (host_write p c (h_files h));
  host_mkdirs := fun p h => lift h (host_mkdirs p (h_files h));
  host_remove := fun p h => set_files h (host_remove p (h_files h));
  host_link := fun a b h => lift h (host_link a b (h_files h));
  host_tar := fun a h => lift h (host_tar a (h_files h))
|}.

#[export] Instance host_images : ImageFs host := {|
  im_metadata := fun p h => im_metadata p (h_files h);
  im_open := fun p h => im_open p (h_files h);
  im_read_dir := fun p h => im_read_dir p (h_files h);
  im_read_link := fun p h => im_read_link p (h_files h);
  im_copy := fun a b h => lift h (im_copy a b (h_files h));
  im_mode := fun p h => im_mode p (h_files h);
  im_set_mode := fun p m h => lift h (im_set_mode p m (h_files h))
|}.

Definition running_line : bytes := lit "box 41 running /img/box now root".

#[export] Instance host_machines : @Machines Z_chrono host := {|
  mc_now := fun h => (h_clock h * 1000000)%Z; mc_instant := h_clock;
  mc_sleep := fun d h => mkHost (h_files h) (h_clock h + Z.max 0 d) (h_killed h) (h_connects h);
  mc_uuid := fun h => (lit "u", h);
  mc_run := fun _ h => (Ok (mkProgOutput true running_line []), h);
  mc_background := fun _ h => h;
  mc_spawn := fun _ h => (Ok 7, h);
  mc_try_wait := fun _ _ => Ok false;
  mc_kill := fun c h => mkHost (h_files h) (h_clock h) (c :: h_killed h) (h_connects h);
  mc_rmdir := fun p h => set_files h (delete p (h_files h))
|}.

#[export] Instance host_machine_laws : MachineLaws host.
Proof. intros d w. cbn. lia. Qed.

#[export] Instance host_router : Router host := {|
  rt_is_worker_connected := fun _ h => h_connects h; rt_set_sandbox_secret := fun _ _ h => h
|}.

#[export] Instance plain_json : JsonText := {|
  json_pretty := fun _ => Ok (lit "{}"); json_compact := fun _ => Ok (lit "{}"); json_read := fun _ => None
|}.

Definition fs0 : tree := <[lit "/worker" := Some [7%N]]> (<[lit "/bin/runsc" := Some []]> image).
Definition host0 (connects : bool) : host := mkHost fs0 0 [] connects.
Definition gvisor_at_root : GVisorProvider :=
  mkGVisor (lit "/bin/runsc") (lit "img") (lit "/") (lit "/worker") (lit "host:1") true ∅ ∅.

Definition make (connects : bool) : option (result DomainError Sandbox) * GVisorProvider * host :=
  gv_create 5 (lit "box") (lit "img:latest") ResourcesSpec_default NetworkSpec_default ∅ 60000 gvisor_at_root (host0 connects).

Example created : match make true with
  | (Some (Ok sb), p, h) => status sb = Running /\ h_files h !! lit "/box/rootfs/bin/sh" = Some (Some [2%N]) /\
      gv_is_alive (lit "box") p h = (Ok true, h)
  | _ => False
  end.
Proof. vm_compute. split_and!; reflexivity. Qed.

(** Without a worker the caller is told of a failure after half a minute, and the
    sandbox is alive and listed. *)
Definition alive_and_listed (id : str) (r : option (result DomainError Sandbox) * GVisorProvider * host) : bool :=
  match r with
  | (Some (Err (Timeout _)), p, h) =>
      match fst (gv_is_alive id p h), gv_list_sandboxes SandboxFilter_default p h with
      | Ok true, Ok [sb] => str_eqb (sb_id sb) id && (30000 <? h_clock h)%Z
      | _, _ => false
      end
  | _ => false
  end.

Example not_connected : alive_and_listed (lit "box") (make false) = true.
Proof. vm_compute. reflexivity. Qed.

Lemma poll_ends_witness :
  exists b w', poll 5 (fun t => 700 <? t)%Z 200 h_connects (host0 false) = Some (b, w') /\
    if b then h_connects w' = true else (700 <? mc_instant w')%Z = true.
Proof.
  apply (poll_ends 5 (fun t => 700 <? t)%Z 700 200 h_connects (host0 false)); cbn; try lia.
Defined.

(** The router is there, and the worker does not connect. *)
Lemma gv_create_spec_witness :
  let '(r, p', w') := make false in
  gv_containers p' !! lit "box" = Some (mkContainerState 7 (lit "/box")) /\
  get_state Local.no_payload (lit "box") (gv_states p') = Some Running.
Proof.
  pose proof (gv_create_spec 5 (lit "box") (lit "img:latest") ResourcesSpec_default NetworkSpec_default ∅ 60000
    gvisor_at_root (host0 false)) as Hs.
  unfold make. destruct (gv_create 5 (lit "box") (lit "img:latest") ResourcesSpec_default NetworkSpec_default ∅ 60000
    gvisor_at_root (host0 false)) as [[r p'] w'].
  destruct Hs as [_ Hs].
  destruct (gv_prepare 5 (lit "box") (lit "img:latest") ∅ gvisor_at_root (snd (mc_uuid (host0 false))))
    as [[[b|e] w1]|] eqn:E; [|by vm_compute in E..].
  destruct Hs as (H1 & H2 & _). split; [exact H1|exact H2].
Defined.

Lemma gv_create_ends_witness :
  exists r p' w', gv_create 5 (lit "box") (lit "img") ResourcesSpec_default NetworkSpec_default ∅ 60000
    gvisor_at_root (host0 true) = (Some r, p', w').
Proof.
  apply (gv_create_ends 5 (lit "box") (lit "img") ResourcesSpec_default NetworkSpec_default ∅ 60000
    gvisor_at_root (host0 true)).
  - vm_compute. discriminate.
  - intros t. eexists. reflexivity.
Defined.

Definition one_noted : GVisorProvider :=
  mkGVisor (lit "/bin/runsc") (lit "img") (lit "/") (lit "/worker") (lit "host:1") true
    {[lit "box" := mkContainerState 7 (lit "/box")]} {[lit "box" := mkEntry Local.no_payload Running None 0%Z]}.

Lemma gv_list_spec_witness :
  exists l, gv_list_sandboxes SandboxFilter_default one_noted (host0 true) = Ok l /\ lit "box" ∈ map sb_id l.
Proof.
  destruct (gv_list_spec SandboxFilter_default one_noted (host0 true)) as (l & Hl & _ & _ & Hin);
    [reflexivity|vm_compute; discriminate|].
  exists l. split; [exact Hl|]. apply Hin. split; [vm_compute; by eexists|].
  exists (mkContainerState 7 (lit "/box")). split; [vm_compute; reflexivity|exact I].
Defined.
End Demo.
