(* ===== verification/Firecracker.v ===== *)
(** * The Firecracker provider

    Models [bastion-infrastructure/src/provider/firecracker.rs]: a machine per
    sandbox, driven over HTTP on a socket; its image, its network device
    ([Images]), the creation, the end and the snapshots.  Commands and files go
    through the worker, see [Session].  Processes and time are [Machines], the
    socket is [Socket].  The answer of an operation is [None] for a panic, and
    where fuel ran out. *)

From S2P Require Import Prelude Utf8 Sandbox Command SandboxFsm ProviderTypes Normalizer CommandExtractor SandboxFs Orientation Materialize Readiness HostProviders Images Gvisor.

(** ** The socket *)

(** What a connection gives: it fails, the request cannot be written, or bytes come
    until the end, or until an error. *)
Inductive Exchange :=
| ConnectFails (e : str)
| WriteFails (e : str)
| Replied (data : bytes) (read_error : option str).

Class Socket (W : Type) := {
  sk_exchange : str -> bytes -> W -> Exchange * W;
  sk_connects : str -> W -> bool
}.

(** What comes of the console of a machine. *)
Class Console (W : Type) := serial_text : nat -> W -> bytes.

Definition crlf : str := [13; 10]%N.

Section Api.
Context {W : Type} `{SOCK : !Socket W} `{JSON : JsonText} `{LOWER : Lowercase}.

(** Whether the bytes, the last one first, end in an empty line. *)
Definition ends_headers (seen : bytes) : bool := starts_with [10; 13; 10; 13]%N seen.

(** The bytes up to the first empty line, that line included, and the rest;
    without one everything is read. *)
Fixpoint split_headers (data seen : bytes) : bytes * option bytes :=
  match data with
  | [] => (rev seen, None)
  | b :: data =>
      let seen := b :: seen in
      if ends_headers seen then (rev seen, Some data) else split_headers data seen
  end.

Definition status_code (headers : str) : Z :=
  let status_line := hd (lit "HTTP/1.1 500 ?") (SandboxFs.lines headers) in
  default 500%Z (words status_line [] !! 1 ≫= parse_int 0 65535).

Definition is_content_length (l : str) : bool := starts_with (lit "content-length:") (to_lowercase l).

Definition content_length (headers : str) : Z :=
  default 0%Z (List.find is_content_length (SandboxFs.lines headers) ≫=
    fun l => split_on (chr ":") l !! 1 ≫= fun s => parse_int 0 u64_max (trim s)).

(** The body: of the length announced; what does not come stays zero. *)
Definition padded_body (n : nat) (rest : bytes) : bytes := take n rest ++ repeat 0%N (n - length rest).

Definition api_error (code : Z) (reply : json_value) : DomainError :=
  let fault :=
    match reply with
    | JObj fields =>
        match List.find (fun f => str_eqb (fst f) (lit "fault_message")) fields with
        | Some (_, JStr s) => s
        | _ => lit "unknown error"
        end
    | _ => lit "unknown error"
    end in
  Internal (lit "Firecracker API error " ++ show_Z code ++ lit ": " ++ fault).

(** The answer to a request for which these bytes came; [None] is the panic of a
    length beyond the address space. *)
Definition read_reply (data : bytes) (read_error : option str) : option (result DomainError json_value) :=
  let '(header_buf, rest) := split_headers data [] in
  match rest, read_error with
  | None, Some e => Some (Err (Internal (lit "Failed to read headers: " ++ e)))
  | _, _ =>
      let headers := from_utf8_lossy header_buf in
      let n := content_length headers in
      let body := default [] rest in
      if (i64_max <? n)%Z then None
      else
        match read_error, (Z.of_nat (length body) <? n)%Z with
        | Some e, true => Some (Err (Internal (lit "Failed to read body: " ++ e)))
        | _, _ =>
            let text := if (0 <? n)%Z then from_utf8_lossy (padded_body (Z.to_nat n) body) else lit "{}" in
            let reply := default (JObj []) (json_read text) in
            let code := status_code headers in
            Some (if (400 <=? code)%Z then Err (api_error code reply) else Ok reply)
        end
  end.

Definition request_text (method path body : str) : str :=
  method ++ lit " " ++ path ++ lit " HTTP/1.1" ++ crlf ++ lit "Host: localhost" ++ crlf ++
  lit "Content-Type: application/json" ++ crlf ++
  lit "Content-Length: " ++ show_N (str_len body) ++ crlf ++ lit "Connection: close" ++ crlf ++ crlf ++ body.

Definition api_request (socket_path method path : str) (body : option json_value) (w : W) :
    option (result DomainError json_value) * W :=
  let body_str := match body with
                  | Some b => match json_compact b with Ok s => s | Err _ => [] end
                  | None => []
                  end in
  let '(x, w) := sk_exchange socket_path (utf8 (request_text method path body_str)) w in
  (match x with
   | ConnectFails e =>
       Some (Err (Internal (lit "Cannot connect to Firecracker socket " ++ socket_path ++ lit ": " ++ e)))
   | WriteFails e => Some (Err (Internal (lit "Failed to write to Firecracker socket: " ++ e)))
   | Replied data read_error => read_reply data read_error
   end, w).

Definition put (socket_path path : str) (fields : list (string * json_value)) (w : W) :
    option (result DomainError unit) * W :=
  let '(r, w) := api_request socket_path (lit "PUT") path (Some (obj fields)) w in
  (match r with Some (Ok _) => Some (Ok tt) | Some (Err e) => Some (Err e) | None => None end, w).

Definition put_action (socket_path : str) (action : string) (w : W) : option (result DomainError unit) * W :=
  put socket_path (lit "/actions") [("action_type"%string, JStr (lit action))] w.
End Api.

(** ** The provider *)

Section Firecracker.
Context `{CH : Chrono} {W : Type} `{MACH : !@Machines CH W} `{ROUTER : !Router W} `{HOST : !HostFs W}
  `{IMG : !ImageFs W} `{IP : !IpTool W} `{SOCK : !Socket W} `{CON : !Console W} `{JSON : JsonText}
  `{LOWER : Lowercase}.

Abbreviation States := (gmap str (@StateEntry Empty_set Local.no_payload Z)).

(** The network backend is the one the gateway makes, [TapBackend]. *)
Record FirecrackerProvider := mkFirecracker {
  fc_binary : str; fc_kernel_path : str; fc_rootfs_path : str; fc_vm_dir : str; fc_rootfs_readonly : bool;
  fc_worker_binary : str; fc_gateway_addr : str; fc_router : bool; fc_tap : TapBackend;
  fc_vms : gmap str nat; fc_states : States
}.

Definition fc_with (vms : gmap str nat) (states : States) (p : FirecrackerProvider) : FirecrackerProvider :=
  mkFirecracker (fc_binary p) (fc_kernel_path p) (fc_rootfs_path p) (fc_vm_dir p) (fc_rootfs_readonly p)
    (fc_worker_binary p) (fc_gateway_addr p) (fc_router p) (fc_tap p) vms states.

(** Whether the image starts with the magic number of a squashfs. *)
Definition detect_readonly (path : str) (w : W) : bool :=
  match im_open path w with
  | Ok content => bool_decide (take 4 content = [0x68; 0x73; 0x71; 0x73]%N)
  | Err _ => false
  end.

Definition fc_new (binary kernel_path rootfs_path vm_dir worker_binary gateway_addr : str) (tap : TapBackend)
    (w : W) : result DomainError FirecrackerProvider * W :=
  if negb (path_exists binary w) then (Err (Config (lit "Firecracker binary not found: " ++ binary)), w)
  else if negb (path_exists kernel_path w) then (Err (Config (lit "Kernel not found: " ++ kernel_path)), w)
  else if negb (path_exists rootfs_path w) then (Err (Config (lit "Rootfs not found: " ++ rootfs_path)), w)
  else
    match host_mkdirs vm_dir w with
    | (Err e, w) => (Err (Config (lit "Cannot create VM directory: " ++ e)), w)
    | (Ok _, w) =>
        (Ok (mkFirecracker binary kernel_path rootfs_path vm_dir (detect_readonly rootfs_path w) worker_binary
               gateway_addr false tap ∅ (fsm_new Local.no_payload)), w)
    end.

Definition fc_set_command_router (p : FirecrackerProvider) : FirecrackerProvider :=
  mkFirecracker (fc_binary p) (fc_kernel_path p) (fc_rootfs_path p) (fc_vm_dir p) (fc_rootfs_readonly p)
    (fc_worker_binary p) (fc_gateway_addr p) true (fc_tap p) (fc_vms p) (fc_states p).

Definition sandbox_dir (id : str) (p : FirecrackerProvider) : str := path_join (fc_vm_dir p) id.
Definition socket_path (id : str) (p : FirecrackerProvider) : str :=
  path_join (sandbox_dir id p) (lit "firecracker.sock").

(** Five seconds in steps of a twentieth of one. *)
Definition socket_fuel : nat := 102.
(** Thirty seconds in steps of a tenth of one. *)
Definition boot_fuel : nat := 302.

Definition wait_for_socket (socket : str) (timeout : Z) (w : W) : option (result DomainError unit * W) :=
  let start := mc_instant w in
  match poll socket_fuel (fun t => start + timeout <=? t)%Z 50
          (fun w => path_exists socket w && sk_connects socket w) w with
  | None => None
  | Some (true, w) => Some (Ok tt, w)
  | Some (false, w) =>
      Some (Err (Internal (lit "Firecracker socket did not appear within " ++ show_Z timeout ++ lit "ms: " ++ socket)), w)
  end.

Definition shows_prompt (serial : bytes) : bool :=
  let text := from_utf8_lossy serial in
  str_contains text (lit "root@") &&
  (str_contains text (lit ":~#") || str_contains text (lit ":~$") || str_contains text (lit "login:")).

Definition wait_for_boot (id : str) (timeout : Z) (p : FirecrackerProvider) (w : W) :
    option (result DomainError unit * W) :=
  match fc_vms p !! id with
  | None => Some (Err (NotFound id), w)
  | Some child =>
      let deadline := (mc_instant w + timeout)%Z in
      match poll boot_fuel (fun t => deadline <? t)%Z 100 (fun w => shows_prompt (serial_text child w)) w with
      | None => None
      | Some (true, w) => Some (Ok tt, w)
      | Some (false, w) => Some (Err (Timeout (lit "VM boot timed out")), w)
      end
  end.

(** A binary that is not static is only warned about. *)
Definition verify_worker_binary (p : FirecrackerProvider) (w : W) : result DomainError unit * W :=
  let '(r, w) := mc_run [lit "file"; fc_worker_binary p] w in
  (match r with Err e => Err (Internal (lit "file command failed: " ++ e)) | Ok _ => Ok tt end, w).

(** The image of a sandbox, with the worker copied into it if it can be mounted. *)
Definition prepare_rootfs (base_rootfs target : str) (p : FirecrackerProvider) (w : W) :
    result DomainError unit * W :=
  match im_copy base_rootfs target w with
  | (Err e, w) => (Err (Internal (lit "Failed to copy rootfs: " ++ e)), w)
  | (Ok _, w) =>
      if fc_rootfs_readonly p then (Ok tt, w)
      else
        match path_parent target with
        | None => (Ok tt, w)
        | Some parent =>
            let mount_point := path_join parent (lit "mnt") in
            match host_mkdirs mount_point w with
            | (Err _, w) => (Ok tt, w)
            | (Ok _, w) =>
                match mc_run [lit "mount"; lit "-o"; lit "loop"; target; mount_point] w with
                | (Err _, w) => (Ok tt, mc_rmdir mount_point w)
                | (Ok out, w) =>
                    if negb (po_success out) then (Ok tt, mc_rmdir mount_point w)
                    else
                      let worker_dest := path_join mount_point (lit "usr/local/bin/bastion-worker") in
                      let w := match path_parent worker_dest with
                               | Some parent => snd (host_mkdirs parent w)
                               | None => w
                               end in
                      let w := snd (im_copy (fc_worker_binary p) worker_dest w) in
                      let w := snd (host_mkdirs (path_join mount_point (lit "workspace")) w) in
                      let w := snd (mc_run [lit "umount"; mount_point] w) in
                      (Ok tt, mc_rmdir mount_point w)
                end
            end
        end
  end.

(** The disk of a sandbox: a checked image, and its copy. *)
Definition fc_prepare (id : str) (p : FirecrackerProvider) (w : W) : result DomainError str * W :=
  let? (_v, w) := verify_worker_binary p w in
  match validate (SquashfsImage_new (fc_rootfs_path p)) w with
  | Err e => (Err e, w)
  | Ok _ =>
      let sandbox_rootfs := path_join (sandbox_dir id p) (lit "rootfs.img") in
      match im_copy (fc_rootfs_path p) sandbox_rootfs w with
      | (Err e, w) => (Err (Internal (lit "Failed to copy rootfs: " ++ e)), w)
      | (Ok _, w) =>
          if fc_rootfs_readonly p then (Ok sandbox_rootfs, w)
          else let? (_r, w) := prepare_rootfs (fc_rootfs_path p) sandbox_rootfs p w in (Ok sandbox_rootfs, w)
      end
  end.

Definition fc_capabilities : option ProviderCapabilities :=
  expect_ok (try_new true false false 600000 512 4 true true 300).
Definition fc_name : str := lit "firecracker".

Definition clamp (lo hi z : Z) : Z := Z.max lo (Z.min hi z).
Definition vcpu_count (resources : ResourcesSpec) : Z := clamp 1 4 (cpu_count resources).
Definition mem_size_mib (resources : ResourcesSpec) : Z := clamp 128 512 (memory_mb resources).

Definition boot_args : str :=
  lit "console=ttyS0 reboot=k panic=1 ip=10.0.2.2::10.0.2.1:255.255.255.0::eth0:off".

(** The requests that configure a machine and start it, in order. *)
Definition machine_requests (rootfs tap_name : str) (resources : ResourcesSpec) (p : FirecrackerProvider) :
    list (str * list (string * json_value)) :=
  [(lit "/boot-source", [("kernel_image_path", JStr (fc_kernel_path p)); ("boot_args", JStr boot_args)]);
   (lit "/drives/rootfs", [("drive_id", JStr (lit "rootfs")); ("path_on_host", JStr rootfs);
      ("is_root_device", JBool true); ("is_read_only", JBool (fc_rootfs_readonly p))]);
   (lit "/machine-config", [("vcpu_count", JNum (vcpu_count resources)); ("mem_size_mib", JNum (mem_size_mib resources));
      ("smt", JBool false)]);
   (lit "/network-interfaces/eth0", [("iface_id", JStr (lit "eth0")); ("host_dev_name", JStr tap_name);
      ("guest_mac", JStr (lit "AA:FC:00:00:00:01"))]);
   (lit "/actions", [("action_type", JStr (lit "InstanceStart"))])]%string.

(** Requests one after the other, up to the first that fails. *)
Fixpoint put_all (socket : str) (requests : list (str * list (string * json_value))) (w : W) :
    option (result DomainError unit) * W :=
  match requests with
  | [] => (Some (Ok tt), w)
  | (path, fields) :: requests =>
      match put socket path fields w with
      | (Some (Ok _), w) => put_all socket requests w
      | (r, w) => (r, w)
      end
  end.

(** From the started process to a console that shows a prompt. *)
Definition fc_boot (id rootfs tap_name : str) (resources : ResourcesSpec) (p : FirecrackerProvider) (w : W) :
    option (result DomainError unit) * W :=
  let socket := socket_path id p in
  match wait_for_socket socket 5000 w with
  | None => (None, w)
  | Some (Err e, w) => (Some (Err e), w)
  | Some (Ok _, w) =>
      match put_all socket (machine_requests rootfs tap_name resources p) w with
      | (Some (Ok _), w) =>
          match wait_for_boot id 30000 p w with
          | None => (None, w)
          | Some (r, w) => (Some r, w)
          end
      | (r, w) => (r, w)
      end
  end.

(** [start_via_serial] calls [run_command], which only knows the worker: what it
    answers without one. *)
Definition start_via_serial (id : str) (p : FirecrackerProvider) (route : W -> result DomainError unit * W) (w : W) :
    result DomainError unit * W :=
  if fc_router p && rt_is_worker_connected id w then route w else (Err (WorkerNotConnected id), w).

Definition serial_command (id secret : str) (p : FirecrackerProvider) : str :=
  lit "nohup /usr/local/bin/bastion-worker --gateway-addr http://" ++ fc_gateway_addr p ++ lit " --sandbox-id " ++
  id ++ lit " --secret " ++ secret ++ lit " --workdir /workspace > /tmp/worker.log 2>&1 &".

Definition fc_register (id : str) (now : Z) (p : FirecrackerProvider) : result DomainError unit * FirecrackerProvider :=
  let '(r, m) := register Local.no_payload id now (fc_states p) in
  match r with
  | Err e => (Err e, fc_with (fc_vms p) m p)
  | Ok _ =>
      let '(r, m) := transition Local.no_payload id Running m in
      (match r with Err e => Err e | Ok _ => Ok tt end, fc_with (fc_vms p) m p)
  end.

(** Up to the world in which the worker is to be started: the machine runs and its
    console has settled.  The answer is the secret.  A machine that was noted
    under the same id is killed when its handle is dropped. *)
Definition fc_launch (id : str) (resources : ResourcesSpec) (network : NetworkSpec)
    (p : FirecrackerProvider) (w : W) : option (result DomainError str) * FirecrackerProvider * W :=
  match host_mkdirs (sandbox_dir id p) w with
  | (Err e, w) => (Some (Err (Internal (lit "Cannot create sandbox directory: " ++ e))), p, w)
  | (Ok _, w) =>
      let '(uuid, w) := mc_uuid w in
      match fc_prepare id p w with
      | (Err e, w) => (Some (Err e), p, w)
      | (Ok rootfs, w) =>
          match tap_setup (fc_tap p) id network w with
          | (Err e, w) => (Some (Err e), p, w)
          | (Ok config, w) =>
              match mc_spawn [fc_binary p; lit "--api-sock"; socket_path id p] w with
              | (Err e, w) => (Some (Err (Internal (lit "Failed to spawn Firecracker: " ++ e))), p, w)
              | (Ok child, w) =>
                  let w := match fc_vms p !! id with Some old => mc_kill old w | None => w end in
                  let p := fc_with (<[id := child]> (fc_vms p)) (fc_states p) p in
                  match fc_boot id rootfs (nc_interface_name config) resources p w with
                  | (None, w) => (None, p, w)
                  | (Some (Err e), w) => (Some (Err e), p, w)
                  | (Some (Ok _), w) => (Some (Ok (lit "secret-" ++ uuid)), p, mc_sleep 1000 w)
                  end
              end
          end
      end
  end.

(** From the running machine to a registered sandbox; [route] runs a command
    through the worker of the sandbox. *)
Definition fc_start (route : str -> W -> result DomainError unit * W) (id secret : str)
    (resources : ResourcesSpec) (network : NetworkSpec) (timeout_ms : Z) (p : FirecrackerProvider) (w : W) :
    option (result DomainError Sandbox) * FirecrackerProvider * W :=
  match start_via_serial id p (route (serial_command id secret p)) w with
  | (Err e, w) => (Some (Err e), p, w)
  | (Ok _, w) =>
      let w := if fc_router p then rt_set_sandbox_secret id secret w else w in
      match started_entity id (lit "firecracker") (lit "firecracker") resources network timeout_ms (mc_now w) with
      | Some (Ok sandbox) =>
          let '(r, p) := fc_register id (mc_instant w) p in
          (Some (match r with Ok _ => Ok sandbox | Err e => Err e end), p, w)
      | r => (r, p, w)
      end
  end.

Definition fc_create (route : str -> W -> result DomainError unit * W) (id : str) (resources : ResourcesSpec)
    (network : NetworkSpec) (timeout_ms : Z) (p : FirecrackerProvider) (w : W) :
    option (result DomainError Sandbox) * FirecrackerProvider * W :=
  match fc_launch id resources network p w with
  | (None, p, w) => (None, p, w)
  | (Some (Err e), p, w) => (Some (Err e), p, w)
  | (Some (Ok secret), p, w) => fc_start route id secret resources network timeout_ms p w
  end.

(** The answer of the polite request is ignored, a panic of it is not. *)
Definition fc_terminate (id : str) (p : FirecrackerProvider) (w : W) :
    option (result DomainError unit) * FirecrackerProvider * W :=
  let asked := if path_exists (socket_path id p) w then
                 let '(r, w) := put_action (socket_path id p) "SendCtrlAltDel" w in
                 match r with Some _ => Some (mc_sleep 200 w) | None => None end
               else Some w in
  match asked with
  | None => (None, p, w)
  | Some w =>
      let w := match fc_vms p !! id with Some child => mc_kill child w | None => w end in
      let p := fc_with (delete id (fc_vms p)) (snd (remove Local.no_payload id (fc_states p))) p in
      let '(r, w) := tap_teardown id w in
      match r with
      | Err e => (Some (Err e), p, w)
      | Ok _ =>
          let dir := sandbox_dir id p in
          (Some (Ok tt), p, if path_exists dir w then mc_rmdir dir w else w)
      end
  end.

Definition fc_is_alive (id : str) (p : FirecrackerProvider) (w : W) : result DomainError bool :=
  let ended := match get_state Local.no_payload id (fc_states p) with
               | Some Stopped | Some Failed => true
               | _ => false
               end in
  if ended then Ok false
  else if negb (path_exists (socket_path id p) w) then Ok false
  else match fc_vms p !! id with Some child => Ok (child_runs child w) | None => Ok false end.

Record FcSnapshot := mkFcSnapshot {
  fs_snapshot_id : str; fs_sandbox_id : str; fs_name : str; fs_created_at : DateTime; fs_size_bytes : Z
}.

Definition snapshot_dir (id name : str) (p : FirecrackerProvider) : str :=
  path_join (path_join (sandbox_dir id p) (lit "snapshots")) name.

(** The size of a file, and zero for one that cannot be read. *)
Definition file_size (path : str) (w : W) : Z :=
  match im_open path w with Ok content => Z.of_nat (length content) | Err _ => 0%Z end.

(** The three requests of a snapshot. *)
Definition snapshot_requests (state_file mem_file : str) : list (str * list (string * json_value)) :=
  [(lit "/actions", [("action_type", JStr (lit "Pause"))]);
   (lit "/snapshot/create", [("snapshot_type", JStr (lit "Full")); ("state_file_path", JStr state_file);
      ("mem_file_path", JStr mem_file)]);
   (lit "/actions", [("action_type", JStr (lit "Resume"))])]%string.

Definition fc_create_snapshot (id name : str) (p : FirecrackerProvider) (w : W) :
    option (result DomainError FcSnapshot) * W :=
  let dir := snapshot_dir id name p in
  match host_mkdirs dir w with
  | (Err e, w) => (Some (Err (Internal (lit "Cannot create snapshot directory: " ++ e))), w)
  | (Ok _, w) =>
      let state_file := path_join dir (lit "snapshot.state") in
      let mem_file := path_join dir (lit "snapshot.memory") in
      match put_all (socket_path id p) (snapshot_requests state_file mem_file) w with
      | (None, w) => (None, w)
      | (Some (Err e), w) => (Some (Err e), w)
      | (Some (Ok _), w) =>
          (Some (Ok (mkFcSnapshot (id ++ lit "-" ++ name) id name (mc_now w)
                       (as_u64 (file_size state_file w + file_size mem_file w)))), w)
      end
  end.

Definition fc_restore_snapshot (_snapshot_id : str) : result DomainError Sandbox :=
  Err (UnsupportedOperation (lit "restore_snapshot requires additional context (original sandbox_id). This is complex without storing the mapping during create_snapshot.")).

Definition fc_list_sandboxes (filter : SandboxFilter) (p : FirecrackerProvider) (w : W) :
    result DomainError (list Sandbox) :=
  Ok (list_machines (lit "firecracker") filter (fun id => fc_vms p !! id)
        (list_active Local.no_payload (fc_states p)) w).

Definition fc_get_info (id : str) (p : FirecrackerProvider) (w : W) : result DomainError Sandbox :=
  machine_info (lit "firecracker") id (fc_vms p !! id) w.

Definition fc_set_timeout (id : str) (_timeout_ms : Z) (p : FirecrackerProvider) : result DomainError unit :=
  match fc_vms p !! id with Some _ => Ok tt | None => Err (NotFound id) end.
End Firecracker.

(** ** Properties *)

(** Reading byte by byte up to the empty line loses nothing. *)
Lemma split_headers_lossless data seen :
  let '(h, rest) := split_headers data seen in h ++ default [] rest = rev seen ++ data.
Proof.
  revert seen. induction data as [|b data IH]; intros seen; [done|]. cbn [split_headers].
  specialize (IH (b :: seen)). cbn [rev] in IH. rewrite <- app_assoc in IH. cbn [app] in IH.
  destruct (ends_headers _); [|exact IH]. cbn [default rev]. by rewrite <- app_assoc.
Qed.

Section FirecrackerFacts.
Context `{CH : Chrono} {W : Type} `{MACH : !@Machines CH W} `{ROUTER : !Router W} `{HOST : !HostFs W}
  `{IMG : !ImageFs W} `{IP : !IpTool W} `{SOCK : !Socket W} `{CON : !Console W} `{JSON : JsonText}
  `{LOWER : Lowercase}.
Implicit Types (p : FirecrackerProvider) (w : W).

Lemma fc_register_spec id now p :
  fc_register id now p =
  match fc_states p !! id with
  | Some _ => (Err (AlreadyExists (lit "Sandbox already registered")),
               fc_with (fc_vms p) (<[id := mkEntry Local.no_payload Pending None now]> (fc_states p)) p)
  | None => (Ok tt, fc_with (fc_vms p) (<[id := mkEntry Local.no_payload Running None now]> (fc_states p)) p)
  end.
Proof.
  unfold fc_register, register. destruct (fc_states p !! id); [done|]. unfold transition.
  rewrite lookup_insert_eq. cbn. by rewrite insert_insert_eq.
Qed.

Lemma listed_registered prov filter child ids w id :
  id ∈ map sb_id (list_machines prov filter child ids w) -> id ∈ ids.
Proof.
  unfold list_machines. intros (sb & -> & (id' & Hin & Hp)%list_elem_of_omap)%list_elem_of_fmap.
  assert (sb_id sb = id') as ->.
  { revert Hp. repeat case_match; try done; by intros [= <-]. }
  by eapply elem_of_take in Hin as (i & Hi & _); apply list_elem_of_lookup_2 in Hi.
Qed.

Lemma fc_launch_short id res net p w :
  12 <= length id -> exists e w', fc_launch id res net p w = (Some (Err e), p, w').
Proof.
  intros Hl. unfold fc_launch. destruct (host_mkdirs _ w) as [[[]|e] w0]; [|by eauto].
  destruct (mc_uuid w0) as [uuid w1]. destruct (fc_prepare id p w1) as [[rootfs|e] w2]; [|by eauto].
  unfold tap_setup. rewrite (tap_name_long id Hl). cbn [negb]. by eauto.
Qed.

Lemma fc_launch_router id res net p w r p1 w1 :
  fc_launch id res net p w = (r, p1, w1) -> fc_router p1 = fc_router p.
Proof.
  unfold fc_launch. destruct (host_mkdirs _ w) as [[[]|e] w0]; [|by intros [= _ <- _]].
  destruct (mc_uuid w0) as [uuid w2]. destruct (fc_prepare id p w2) as [[rootfs|e] w3]; [|by intros [= _ <- _]].
  destruct (tap_setup _ id net w3) as [[config|e] w4]; [|by intros [= _ <- _]].
  destruct (mc_spawn _ w4) as [[child|e] w5]; [|by intros [= _ <- _]].
  by destruct (fc_boot _ _ _ _ _ _) as [[[[]|e]|] w6]; intros [= _ <- _].
Qed.

(** C38. The creation of a sandbox once its machine runs ([fc_launch]), in the very
    world in which its worker is to be started.  It succeeds only if there is a
    router and the worker is connected to it already in that world: the worker is
    to be started by a command, and every command goes through the worker.  If it
    is not, the answer is [WorkerNotConnected], nothing has been asked of the
    router or the machine since, and the machine is left running; if it is, the
    command is run, and decides.  A creation that does not get that far fails or
    does not answer.  A generated identifier, or any other of twelve characters
    and more, already fails at the network device, before anything was started. *)
Theorem fc_create_needs_worker (route : str -> W -> result DomainError unit * W) (id : str) (res : ResourcesSpec)
    (net : NetworkSpec) (ms : Z) (p : FirecrackerProvider) (w : W) :
  let '(r, p', w') := fc_create route id res net ms p w in
  (forall sb, r = Some (Ok sb) -> exists secret p1 w1, fc_launch id res net p w = (Some (Ok secret), p1, w1) /\
     fc_router p = true /\ rt_is_worker_connected id w1 = true /\ length id < 12) /\
  match fc_launch id res net p w with
  | (Some (Ok secret), p1, w1) =>
      if fc_router p && rt_is_worker_connected id w1 then
        match route (serial_command id secret p1) w1 with
        | (Err e, w2) => r = Some (Err e) /\ p' = p1 /\ w' = w2
        | (Ok _, w2) => w' = rt_set_sandbox_secret id secret w2
        end
      else r = Some (Err (WorkerNotConnected id)) /\ p' = p1 /\ w' = w1
  | (Some (Err e), p1, w1) => r = Some (Err e) /\ p' = p1 /\ w' = w1
  | (None, p1, w1) => r = None /\ p' = p1 /\ w' = w1
  end /\
  (12 <= length id -> p' = p /\ exists e, r = Some (Err e)).
Proof.
  unfold fc_create. destruct (decide (12 <= length id)) as [Hl|Hl].
  { destruct (fc_launch_short id res net p w Hl) as (e & w' & ->). split; [done|]. split; [done|]. by eauto. }
  destruct (fc_launch id res net p w) as [[[[secret|e]|] p1] w1] eqn:E; [|split; [done|split; [done|lia]]..].
  apply fc_launch_router in E. unfold fc_start, start_via_serial. rewrite E.
  destruct (fc_router p && rt_is_worker_connected id w1) eqn:Ec; [|split; [done|split; [done|lia]]].
  apply andb_true_iff in Ec as [Hro Hcon]. rewrite Hro.
  destruct (route _ w1) as [[[]|e] w2]; [|split; [done|split; [done|lia]]].
  assert (Hlen : length id < 12) by lia.
  destruct (started_entity _ _ _ _ _ _ _) as [[sb|e]|]; try (split; [done|split; [done|lia]]).
  destruct (fc_register id _ p1) as [r0 p2]. split_and!; [|done|lia].
  intros sb0 _. by exists secret, p1, w1.
Qed.

(** What a creation leaves.  When it fails after the machine was started, the
    machine runs on: it is noted and alive as long as its process is, but a
    sandbox that was not registered before is not registered, so no listing shows
    it. *)
Theorem fc_create_leaves (route : str -> W -> result DomainError unit * W) (id : str) (res : ResourcesSpec)
    (net : NetworkSpec) (ms : Z) (p : FirecrackerProvider) (w : W) :
  let '(r, p', w') := fc_create route id res net ms p w in
  (forall id', id' ≠ id -> fc_vms p' !! id' = fc_vms p !! id' /\ fc_states p' !! id' = fc_states p !! id') /\
  match r with
  | Some (Ok sb) => sb_id sb = id /\ status sb = Running /\ is_Some (fc_vms p' !! id) /\
      fc_states p !! id = None /\ get_state Local.no_payload id (fc_states p') = Some Running
  | _ => p' = p \/
      exists child, fc_vms p' !! id = Some child /\
        (fc_states p !! id = None ->
         (forall w0, fc_is_alive id p' w0 = Ok (path_exists (socket_path id p) w0 && child_runs child w0)) /\
         forall filter w0 l, fc_list_sandboxes filter p' w0 = Ok l -> id ∉ map sb_id l)
  end.
Proof.
  unfold fc_create, fc_launch. destruct (host_mkdirs _ w) as [[[]|e] w0]; [|by auto].
  destruct (mc_uuid w0) as [uuid w1]. destruct (fc_prepare id p w1) as [[rootfs|e] w2]; [|by auto].
  destruct (tap_setup (fc_tap p) id net w2) as [[config|e] w3]; [|by auto].
  destruct (mc_spawn _ w3) as [[child|e] w4]; [|by auto].
  set (p1 := fc_with _ _ p).
  assert (Hoth : forall id', id' ≠ id -> fc_vms p1 !! id' = fc_vms p !! id' /\ fc_states p1 !! id' = fc_states p !! id').
  { intros id' Hn. unfold p1. cbn. by rewrite lookup_insert_ne. }
  assert (Hch : fc_vms p1 !! id = Some child) by (unfold p1; cbn; by rewrite lookup_insert_eq).
  assert (Hst : fc_states p1 = fc_states p) by done.
  assert (Hkept : exists child, fc_vms p1 !! id = Some child /\
        (fc_states p !! id = None ->
         (forall w0, fc_is_alive id p1 w0 = Ok (path_exists (socket_path id p) w0 && child_runs child w0)) /\
         forall filter w0 l, fc_list_sandboxes filter p1 w0 = Ok l -> id ∉ map sb_id l)).
  { exists child. split; [done|]. intros Hnone. split.
    - intros w5. unfold fc_is_alive, get_state. rewrite Hst, Hnone, Hch. cbn.
      change (socket_path id p1) with (socket_path id p). by destruct (path_exists _ w5).
    - intros filter w5 l [= <-] Hin. apply listed_registered in Hin.
      apply (count_by_status_spec Local.no_payload (fc_states p) Running) in Hin.
      unfold get_state in Hin. by rewrite Hnone in Hin. }
  clearbody p1. destruct (fc_boot _ _ _ _ p1 _) as [[[[]|e]|] w5]; [|by auto..].
  unfold fc_start, start_via_serial. destruct (fc_router p1 && _); [|by auto].
  destruct (route _ _) as [[[]|e] w6]; [|by auto].
  set (w7 := if fc_router p1 then _ else w6).
  destruct (started_entity _ _ _ _ _ _ _) as [[sb|e]|] eqn:Ee; [|by auto..].
  rewrite fc_register_spec, Hst. destruct (started_entity_running _ _ _ _ _ _ _ _ Ee) as [Hid Hrun].
  destruct (fc_states p !! id) as [en|] eqn:Es; cbn [fc_vms fc_states fc_with].
  - split; [intros id' Hn; rewrite lookup_insert_ne by done; split; [by apply Hoth|done]|].
    right. exists child. split; [done|done].
  - split; [intros id' Hn; rewrite lookup_insert_ne by done; split; [by apply Hoth|done]|].
    split_and!; [done..|by eauto|done|]. unfold get_state. by rewrite lookup_insert_eq.
Qed.

(** Waiting for the socket and for the prompt end within their fuel, if the clock
    goes on. *)
Theorem fc_waits_end `{LAWS : !MachineLaws W} (id socket : str) (p : FirecrackerProvider) (w : W) :
  (exists r w', wait_for_socket socket 5000 w = Some (r, w') /\
     (r = Ok tt -> path_exists socket w' = true /\ sk_connects socket w' = true)) /\
  (exists r w', wait_for_boot id 30000 p w = Some (r, w') /\
     (r = Ok tt -> exists child, fc_vms p !! id = Some child /\ shows_prompt (serial_text child w') = true)).
Proof.
  split.
  - unfold wait_for_socket.
    destruct (poll_ends socket_fuel (fun t => mc_instant w + 5000 <=? t)%Z (mc_instant w + 5000) 50
      (fun w => path_exists socket w && sk_connects socket w) w) as (b & w' & -> & Hb); unfold socket_fuel; try lia.
    destruct b; eexists _, w'; (split; [reflexivity|]); [intros _; by apply andb_true_iff|done].
  - unfold wait_for_boot. destruct (fc_vms p !! id) as [child|]; [|eexists _, w; by split].
    destruct (poll_ends boot_fuel (fun t => mc_instant w + 30000 <? t)%Z (mc_instant w + 30000) 100
      (fun w => shows_prompt (serial_text child w)) w) as (b & w' & -> & Hb); unfold boot_fuel; try lia.
    destruct b; eexists _, w'; (split; [reflexivity|]); [by eauto|done].
Qed.

(** The size of a machine is within the bounds of the provider, and the one asked for
    where that is within them. *)
Theorem machine_size_bounds (r : ResourcesSpec) :
  (1 <= vcpu_count r <= 4 /\ 128 <= mem_size_mib r <= 512)%Z /\
  (1 <= cpu_count r <= 4 -> vcpu_count r = cpu_count r)%Z /\
  (128 <= memory_mb r <= 512 -> mem_size_mib r = memory_mb r)%Z.
Proof. unfold vcpu_count, mem_size_mib, clamp. lia. Qed.

(** An image that passes the check is read-only: the worker is never copied into
    it. *)
Lemma squashfs_is_readonly path w :
  validate (SquashfsImage_new path) w = Ok tt -> detect_readonly path w = true.
Proof.
  unfold validate, validate_magic, read_magic, detect_readonly. cbn [is_kind SquashfsImage_new is_path].
  destruct (im_metadata path w) as [[]|]; try done. destruct (im_open path w) as [content|]; [|done].
  destruct (Nat.ltb _ 4); [done|]. case_bool_decide as Hm; [|done]. intros _. by rewrite bool_decide_true.
Qed.

(** A snapshot that fails after the machine was paused leaves it paused: nothing is
    sent after the request that failed. *)
Theorem snapshot_stays_paused (id name : str) (p : FirecrackerProvider) (w w0 w1 w2 : W) (e : DomainError) :
  let dir := snapshot_dir id name p in
  let state_file := path_join dir (lit "snapshot.state") in
  let mem_file := path_join dir (lit "snapshot.memory") in
  host_mkdirs dir w = (Ok tt, w0) ->
  put_action (socket_path id p) "Pause" w0 = (Some (Ok tt), w1) ->
  put (socket_path id p) (lit "/snapshot/create")
    [("snapshot_type", JStr (lit "Full")); ("state_file_path", JStr state_file);
     ("mem_file_path", JStr mem_file)]%string w1 = (Some (Err e), w2) ->
  fc_create_snapshot id name p w = (Some (Err e), w2).
Proof.
  intros dir state_file mem_file Hm Hp Hc. unfold fc_create_snapshot. fold dir. rewrite Hm.
  fold state_file mem_file. unfold snapshot_requests. cbn [put_all].
  unfold put_action in Hp. rewrite Hp. cbn [put_all]. by rewrite Hc.
Qed.

(** A terminated machine is in no table, whatever the socket answered, and a
    machine that is unknown is terminated with success. *)
Theorem fc_terminate_spec (id : str) (p : FirecrackerProvider) (w : W) :
  let '(r, p', w') := fc_terminate id p w in
  match r with
  | None => p' = p
  | Some r => r = Ok tt /\ fc_vms p' = delete id (fc_vms p) /\ fc_states p' = delete id (fc_states p) /\
      (forall w0, fc_is_alive id p' w0 = Ok false) /\ (forall w0, fc_get_info id p' w0 = Err (NotFound id))
  end.
Proof.
  unfold fc_terminate.
  destruct (if path_exists (socket_path id p) w then _ else _) as [w1|]; [|done]. cbn.
  do 3 (split; [done|]). unfold fc_is_alive, fc_get_info, get_state. cbn. rewrite !lookup_delete_eq. cbn.
  split; [|done]. intros w0. by destruct (negb _).
Qed.
End FirecrackerFacts.

(** ** Examples *)

Module Demo.
Import Images.Demo Gvisor.Demo.
#[local] Existing Instances Z_chrono some_order.

#[export] Instance ascii_lower : Lowercase :=
  map (fun c => if is_ascii_uppercase c then (c + 32)%N else c).

(** The values that occur below, read and written by hand. *)
#[export] Instance demo_json : JsonText := {|
  json_pretty := fun _ => Ok (lit "{}"); json_compact := fun _ => Ok (lit "{}");
  json_read := fun s => if str_eqb s (lit "{}") then Some (JObj [])
                        else Some (obj [("fault_message", JStr s)]%string)
|}.

Definition reply (head body : string) : bytes := lit head ++ crlf ++ crlf ++ lit body.

Example no_content : read_reply (reply "HTTP/1.1 204 No Content" "") None = Some (Ok (JObj [])).
Proof. vm_compute. reflexivity. Qed.

Definition with_length (head length body : string) : bytes :=
  lit head ++ crlf ++ lit "Content-Length: " ++ lit length ++ crlf ++ crlf ++ lit body.

Example refused : read_reply (with_length "HTTP/1.1 400 Bad Request" "4" "busy") None =
  Some (Err (Internal (lit "Firecracker API error 400: busy"))).
Proof. vm_compute. reflexivity. Qed.

(** A body that breaks off is filled up with zeros, one without length not read. *)
Example broken_off : read_reply (with_length "HTTP/1.1 400 Bad Request" "6" "busy") None =
  Some (Err (Internal (lit "Firecracker API error 400: busy" ++ [0; 0]%N))).
Proof. vm_compute. reflexivity. Qed.

Example cut_in_headers : read_reply (lit "HTTP/1.1 200 OK") (Some (lit "reset")) =
  Some (Err (Internal (lit "Failed to read headers: reset"))) /\
  read_reply [] None = Some (Err (Internal (lit "Firecracker API error 500: unknown error"))).
Proof. split; vm_compute; reflexivity. Qed.

#[export] Instance host_ip : IpTool host := fun _ h => (Ok (true, []), h).
#[export] Instance host_socket : Socket host := {|
  sk_exchange := fun _ request h =>
    (Replied (if str_contains request (lit "snapshot/create")
              then with_length "HTTP/1.1 400 Bad Request" "4" "full"
              else reply "HTTP/1.1 204 No Content" "") None, h);
  sk_connects := fun _ _ => true
|}.
#[export] Instance host_console : Console host := fun _ _ => lit "root@vm:~# ".

Definition squashfs : tree :=
  <[lit "/vms/box/firecracker.sock" := Some []]> (<[lit "/rootfs" := Some (lit "hsqs and more")]> fs0).
Definition host1 (connects : bool) : host := mkHost squashfs 0 [] connects.

Definition firecracker : FirecrackerProvider :=
  mkFirecracker (lit "/bin/fc") (lit "/vmlinux") (lit "/rootfs") (lit "/vms") true (lit "/worker") (lit "host:1") true
    (mkTap (lit "10.0.2.1") 24) ∅ ∅.

Definition make (id : string) (connects : bool) : option (result DomainError Sandbox) * FirecrackerProvider * host :=
  fc_create (fun _ w => (Ok tt, w)) (lit id) ResourcesSpec_default NetworkSpec_default 60000 firecracker (host1 connects).

Definition answer (r : option (result DomainError Sandbox) * FirecrackerProvider * host) : option (result DomainError SandboxStatus) :=
  option_map (fun r => match r with Ok sb => Ok (status sb) | Err e => Err e end) (fst (fst r)).

(** The machine boots, and then its worker would have to be connected already. *)
Example creations :
  answer (make "box" true) = Some (Ok Running) /\
  answer (make "box" false) = Some (Err (WorkerNotConnected (lit "box"))) /\
  (let '(_, p, h) := make "box" false in fc_is_alive (lit "box") p h) = Ok true.
Proof. split_and!; vm_compute; reflexivity. Qed.

Lemma fc_waits_end_witness : exists r w', wait_for_socket (lit "/none") 5000 (host1 true) = Some (r, w').
Proof.
  destruct (fc_waits_end (lit "box") (lit "/none") firecracker (host1 true)) as [(r & w' & H & _) _].
  exists r, w'. exact H.
Defined.

Definition dir : str := snapshot_dir (lit "box") (lit "s1") firecracker.
Definition after_mkdir : host := snd (host_mkdirs dir (host1 true)).

Lemma snapshot_stays_paused_witness :
  fc_create_snapshot (lit "box") (lit "s1") firecracker (host1 true) =
  (Some (Err (Internal (lit "Firecracker API error 400: full"))), after_mkdir).
Proof.
  apply (snapshot_stays_paused (lit "box") (lit "s1") firecracker (host1 true) after_mkdir after_mkdir after_mkdir);
    vm_compute; reflexivity.
Defined.
End Demo.
