(* ===== verification/Drivers.v ===== *)
(** * The other container providers

    [bastion-infrastructure/src/provider/docker.rs] is the code of [podman.rs] with
    another capability and without the cancellation: its operations are those of
    [Container], and are named here one by one.  The commands and files of the
    three providers other than Podman's go through the worker in the same way,
    that of [Session]. *)

From S2P Require Import Prelude Sandbox Command SandboxRepo Registry ProviderTypes Normalizer Container Session.

(** ** Docker *)

Module Docker.
Section Docker.
Context `{CH : Chrono} {W : Type} `{ENV : !Environment W} `{DK : !@Docker CH W} `{ORDER : HashOrder}.
Variable provider : ContainerProvider.

Definition docker_with_source_mount (path : str) : ContainerProvider := with_source_mount path provider.
Definition docker_start_worker (container sandbox_id secret : str) (w : W) : result DomainError unit * W :=
  start_worker_in_container container sandbox_id secret w.
Definition docker_create (id template : str) (resources : ResourcesSpec) (network : NetworkSpec)
    (env_vars : gmap str str) (timeout_ms : Z) (w : W) : option (result DomainError Sandbox * W) :=
  container_create provider id template resources network env_vars timeout_ms w.
Definition docker_terminate (id : str) (w : W) : result DomainError unit * W := container_terminate id w.
Definition docker_is_alive (id : str) (w : W) : result DomainError bool := container_is_alive id w.
Definition docker_name : str := container_name.
Definition docker_list_sandboxes (filter : SandboxFilter) (w : W) : result DomainError (list Sandbox) :=
  container_list_sandboxes filter w.
Definition docker_get_info (id : str) (w : W) : result DomainError Sandbox := container_get_info id w.
Definition docker_set_timeout (id : str) (timeout_ms : Z) (w : W) : result DomainError unit :=
  container_set_timeout id timeout_ms w.
Definition docker_copy_to (id host_dir target : str) (w : W) : result DomainError unit * W :=
  container_copy_to id host_dir target w.

(** What the port answers when a provider does not implement it. *)
Definition docker_cancel_command (_id : str) (_grace_period_ms : Z) : result DomainError bool :=
  Err (UnsupportedOperation (lit "cancel_command")).

End Docker.
End Docker.

(** ** Commands and files through the worker *)

Section Executors.
Context {W : Type} `{ENV : !Environment W, LINK : !Registry.WorkerLink W}.

Definition docker_run_command (router : bool) (id : str) (spec : CommandSpec) :=
  exec_run_command router id spec.
Definition docker_run_command_stream (router : bool) (id : str) (spec : CommandSpec) :=
  exec_run_command_stream router id spec.
Definition docker_write_file (router : bool) (id path : str) (content : bytes) :=
  exec_write_file router id path content.
Definition docker_read_file (router : bool) (id path : str) := exec_read_file router id path.
Definition docker_list_files {DT} (from_timestamp_millis : Z -> option DT) (router : bool) (id dir : str) :=
  exec_list_files from_timestamp_millis router id dir.

Definition gvisor_run_command (router : bool) (id : str) (spec : CommandSpec) :=
  exec_run_command router id spec.
Definition gvisor_run_command_stream (router : bool) (id : str) (spec : CommandSpec) :=
  exec_run_command_stream router id spec.
Definition gvisor_write_file (router : bool) (id path : str) (content : bytes) :=
  exec_write_file router id path content.
Definition gvisor_read_file (router : bool) (id path : str) := exec_read_file router id path.
Definition gvisor_list_files {DT} (from_timestamp_millis : Z -> option DT) (router : bool) (id dir : str) :=
  exec_list_files from_timestamp_millis router id dir.

Definition firecracker_run_command (router : bool) (id : str) (spec : CommandSpec) :=
  exec_run_command router id spec.
Definition firecracker_run_command_stream (router : bool) (id : str) (spec : CommandSpec) :=
  exec_run_command_stream router id spec.
Definition firecracker_write_file (router : bool) (id path : str) (content : bytes) :=
  exec_write_file router id path content.
Definition firecracker_read_file (router : bool) (id path : str) := exec_read_file router id path.
Definition firecracker_list_files {DT} (from_timestamp_millis : Z -> option DT) (router : bool) (id dir : str) :=
  exec_list_files from_timestamp_millis router id dir.
End Executors.
