(* ===== verification/Projects.v ===== *)
(** * Projects

    Models the project aggregate of [bastion-domain/src/project] ([aggregate.rs],
    [types.rs]) and the manager of projects in directories of
    [bastion-dashboard/src/project] ([config.rs], [manager.rs], [types.rs]); the
    manager's calls of the gateway are in [Dashboard].  Files are the class
    [HostFs] of [Materialize] with the questions of [ProjectFs]; what the TOML and
    JSON libraries read is [ProjectToml] and [StateJson], whose documents keep an
    absent field apart from a present one, as the derived decoders do. *)

From S2P Require Import Prelude Utf8 Sandbox ProviderInstances Materialize HostProviders.

(** ** The aggregate *)

Inductive ProjectKind := KindRust | KindNodeJs | KindPython | KindGo | KindGeneric.
#[export] Instance ProjectKind_eq_dec : EqDecision ProjectKind.
Proof. solve_decision. Defined.

Definition ProjectKind_default : ProjectKind := KindGeneric.

(** The names of [#[serde(rename_all = "snake_case")]]. *)
Definition kind_name (k : ProjectKind) : str :=
  match k with
  | KindRust => lit "rust" | KindNodeJs => lit "node_js" | KindPython => lit "python"
  | KindGo => lit "go" | KindGeneric => lit "generic"
  end.

Definition kind_of_name (s : str) : option ProjectKind :=
  List.find (fun k => str_eqb (kind_name k) s) [KindRust; KindNodeJs; KindPython; KindGo; KindGeneric].

Section Aggregate.
Context `{CH : Chrono}.

Record Project := mkProject {
  pj_id : str; pj_name : str; pj_path : str; pj_kind : ProjectKind;
  pj_created_at : DateTime; pj_updated_at : DateTime; sandbox_ids : list str
}.

Definition Project_new (id name path : str) (kind : ProjectKind) (now : DateTime) : Project :=
  mkProject id name path kind now now [].

Definition with_ids (ids : list str) (now : DateTime) (p : Project) : Project :=
  mkProject (pj_id p) (pj_name p) (pj_path p) (pj_kind p) (pj_created_at p) now ids.

Definition add_sandbox (id : str) (now : DateTime) (p : Project) : Project :=
  if existsb (str_eqb id) (sandbox_ids p) then p else with_ids (sandbox_ids p ++ [id]) now p.

Definition remove_sandbox (id : str) (now : DateTime) (p : Project) : Project :=
  with_ids (List.filter (fun i => negb (str_eqb i id)) (sandbox_ids p)) now p.

Definition update (now : DateTime) (p : Project) : Project := with_ids (sandbox_ids p) now p.

Record DomainSummary := mkDomainSummary {
  ds_id : str; ds_name : str; ds_kind : ProjectKind; ds_sandbox_count : nat; ds_updated_at : DateTime
}.

Definition summary_from (p : Project) : DomainSummary :=
  mkDomainSummary (pj_id p) (pj_name p) (pj_kind p) (length (sandbox_ids p)) (pj_updated_at p).

(** A history of calls. *)
Inductive project_call := CallAdd (id : str) | CallRemove (id : str) | CallUpdate.

Definition project_step (c : project_call * DateTime) (p : Project) : Project :=
  let '(c, now) := c in
  match c with
  | CallAdd id => add_sandbox id now p
  | CallRemove id => remove_sandbox id now p
  | CallUpdate => update now p
  end.

Definition project_run (cs : list (project_call * DateTime)) (p : Project) : Project :=
  fold_left (fun p c => project_step c p) cs p.
End Aggregate.

(** ** Configuration files *)

Inductive ProjectError :=
| ProjectNotFound (m : str)
| InvalidProjectPath (m : str)
| ProjectInitFailed (m : str)
| ConfigParseError (m : str)
| IoError (m : str).

Definition show_project_error (e : ProjectError) : str :=
  match e with
  | ProjectNotFound m => lit "Project not found: " ++ m
  | InvalidProjectPath m => lit "Invalid project path: " ++ m
  | ProjectInitFailed m => lit "Failed to initialize project: " ++ m
  | ConfigParseError m => lit "Failed to parse project configuration: " ++ m
  | IoError m => lit "IO error: " ++ m
  end.

(** What the decoders find in a file. *)
Record ProjectDoc := mkProjectDoc { pd_name : str; pd_kind : option str }.
Record StageDoc := mkStageDoc { sd_name : str; sd_image : str; sd_command : str; sd_timeout_ms : option Z }.
Record PipelineDoc := mkPipelineDoc { ppd_name : str; ppd_description : option str; ppd_stages : list StageDoc }.
Record StateDoc := mkStateDoc {
  std_selected : option (option str); std_collapsed : option (list str);
  std_columns : option (list str); std_theme : option str
}.

Class ProjectToml := {
  toml_project : str -> result str ProjectDoc;
  toml_pipeline : str -> result str PipelineDoc;
  (** The error of a text that is none of the names of an enumeration. *)
  unknown_variant : str -> str
}.

Record ProjectConfig := mkProjectConfig { pc_name : str; pc_kind : option ProjectKind }.

Record PipelineStage := mkStage { pst_name : str; pst_image : str; pst_command : str; pst_timeout_ms : Z }.
Record PipelineDef := mkPipeline { pl_name : str; pl_description : str; pl_stages : list PipelineStage }.

Record DashboardState := mkDashboardState {
  selected_project : option str; collapsed_sections : list str; column_order : list str; theme : str
}.

Class StateJson := {
  state_print : DashboardState -> result str str;
  state_read : str -> result str StateDoc
}.

(** The derived [Default]. *)
Definition DashboardState_default : DashboardState := mkDashboardState None [] [] [].
Definition default_theme : str := lit "system".

Definition state_of_doc (d : StateDoc) : DashboardState :=
  mkDashboardState (default None (std_selected d)) (default [] (std_collapsed d))
    (default [] (std_columns d)) (default default_theme (std_theme d)).

Definition doc_of_state (s : DashboardState) : StateDoc :=
  mkStateDoc (Some (selected_project s)) (Some (collapsed_sections s)) (Some (column_order s)) (Some (theme s)).

(** What the JSON library promises: a state that can be written reads back. *)
Class StateJsonLaws `{SJ : StateJson} :=
  law_state : forall s text, state_print s = Ok text ->
    state_read text = Ok (doc_of_state s) /\ Forall scalar_value text.

Definition default_timeout : Z := 300000.

Definition to_pipeline_stage (s : StageDoc) : PipelineStage :=
  mkStage (sd_name s) (sd_image s) (sd_command s) (default default_timeout (sd_timeout_ms s)).

Definition to_pipeline_def (d : PipelineDoc) : PipelineDef :=
  mkPipeline (ppd_name d) (default [] (ppd_description d)) (map to_pipeline_stage (ppd_stages d)).

Definition config_kind (c : ProjectConfig) : ProjectKind := default ProjectKind_default (pc_kind c).

Record ProjectMetadata := mkMetadata { md_id : str; md_name : str; md_kind : ProjectKind }.

Record ProjectSummary := mkSummary {
  ps_id : str; ps_name : str; ps_path : str; ps_kind : ProjectKind; ps_sandbox_count : nat
}.

(** ** Files *)

Class ProjectFs (W : Type) := {
  pf_canonicalize : str -> W -> result str str;
  pf_is_dir : str -> W -> bool;
  (** The entries of a directory with their full paths, or what reading them gives. *)
  pf_read_dir : str -> W -> result str (list (result str str))
}.

(** What exists goes on existing while directories and files are created. *)
Class ProjectFsLaws (W : Type) `{HOST : HostFs W} := {
  law_mkdirs_exists : forall p w, fst (host_mkdirs p w) = Ok tt -> path_exists p (snd (host_mkdirs p w)) = true;
  law_mkdirs_keeps : forall p q w, path_exists p w = true -> path_exists p (snd (host_mkdirs q w)) = true;
  law_write_keeps : forall p q c w, path_exists p w = true -> path_exists p (snd (host_write q c w)) = true
}.

(** [Path::file_name]. *)
Definition path_file_name (p : str) : option str :=
  match drop_ignored (rev (split_on slash p)) with
  | [] => None
  | x :: _ => if ignored_segment x || str_eqb x (lit "..") then None else Some x
  end.

(** [Iterator::flatten] over results. *)
Definition oks {E A} (l : list (result E A)) : list A :=
  omap (fun r => match r with Ok a => Some a | Err _ => None end) l.

Definition BASTION_DIRS : list str :=
  [lit "pipelines"; lit "db"; lit "templates"; lit "providers"; lit "capabilities"; lit "catalog"; lit "runtime"].

Definition bastion_dir (path : str) : str := path_join path (lit ".bastion").
Definition project_toml_path (path : str) : str := path_join (bastion_dir path) (lit "project.toml").
Definition pipelines_dir (path : str) : str := path_join (path_join path (lit ".bastion")) (lit "pipelines").
Definition dashboard_state_path (path : str) : str :=
  path_join (path_join path (lit ".bastion")) (lit "dashboard.json").

(** The names of [write_project_toml], which are not those of [kind_name]. *)
Definition written_kind (k : ProjectKind) : str :=
  match k with
  | KindRust => lit "rust" | KindNodeJs => lit "nodejs" | KindPython => lit "python"
  | KindGo => lit "go" | KindGeneric => lit "generic"
  end.

Definition dquote : char := 34%N.
Definition newline : char := 10%N.

Definition toml_head : str :=
  lit "# Bastion project configuration" ++ [newline] ++
  lit "# This file is managed by the bastion-dashboard crate" ++ [newline; newline] ++
  lit "[project]" ++ [newline] ++ lit "name = " ++ [dquote].
Definition toml_middle : str := newline :: lit "kind = " ++ [dquote].

(** The text of [project.toml]: neither field is escaped. *)
Definition project_toml_text (name kind : str) : str :=
  toml_head ++ name ++ dquote :: toml_middle ++ kind ++ [dquote; newline].

(** The characters that stand for themselves in a basic string of TOML. *)
Definition plain_char (c : char) : bool :=
  negb (c =? dquote)%N && negb (c =? chr "\")%N && (32 <=? c)%N && negb (c =? 127)%N.

Class ProjectTomlLaws `{PT : ProjectToml} :=
  law_toml : forall name kind,
    Forall (fun c => plain_char c = true) name -> Forall (fun c => plain_char c = true) kind ->
    toml_project (project_toml_text name kind) = Ok (mkProjectDoc name (Some kind)).

Section Manager.
Context `{CH : Chrono} {W : Type} `{HOST : !HostFs W} `{PFS : !ProjectFs W} `{PT : ProjectToml} `{SJ : StateJson}.

Definition read_to_string (path : str) (w : W) : result str str :=
  match host_read path w with
  | Err e => Err e
  | Ok bs => ok_or (from_utf8 bs) (lit "stream did not contain valid UTF-8")
  end.

Definition read_config (path : str) (w : W) : result ProjectError str :=
  map_err (fun e => ConfigParseError (lit "Failed to read " ++ path ++ lit ": " ++ e)) (read_to_string path w).

Definition invalid_toml (e : str) : ProjectError := ConfigParseError (lit "Invalid TOML: " ++ e).

Definition parse_config (content : str) : result ProjectError ProjectConfig :=
  match toml_project content with
  | Err e => Err (invalid_toml e)
  | Ok d =>
      match pd_kind d with
      | None => Ok (mkProjectConfig (pd_name d) None)
      | Some k =>
          match kind_of_name k with
          | Some kind => Ok (mkProjectConfig (pd_name d) (Some kind))
          | None => Err (invalid_toml (unknown_variant k))
          end
      end
  end.

Definition load_config (path : str) (w : W) : result ProjectError ProjectConfig :=
  text ← read_config path w; parse_config text.

Definition parse_pipeline (content : str) : result ProjectError PipelineDoc :=
  map_err invalid_toml (toml_pipeline content).

Definition load_pipeline (path : str) (w : W) : result ProjectError PipelineDoc :=
  text ← read_config path w; parse_pipeline text.

Definition has_toml_extension (path : str) : bool :=
  match path_file_name path with Some f => is_toml f | None => false end.

Definition list_pipeline_files (project : str) (w : W) : result ProjectError (list str) :=
  let dir := pipelines_dir project in
  if path_exists dir w then
    match pf_read_dir dir w with
    | Err e => Err (ConfigParseError (lit "Failed to read pipelines dir: " ++ e))
    | Ok entries => Ok (List.filter has_toml_extension (oks entries))
    end
  else Ok [].

(** A pipeline that cannot be loaded is skipped. *)
Definition load_pipelines (project : str) (w : W) : result ProjectError (list PipelineDef) :=
  files ← list_pipeline_files project w;
  Ok (map to_pipeline_def (oks (map (fun f => load_pipeline f w) files))).

Definition load_dashboard_state (project : str) (w : W) : result ProjectError DashboardState :=
  let path := dashboard_state_path project in
  if path_exists path w then
    text ← read_config path w;
    match state_read text with
    | Ok d => Ok (state_of_doc d)
    | Err e => Err (ConfigParseError (lit "Invalid JSON: " ++ e))
    end
  else Ok DashboardState_default.

(** [None] is the panic of [unwrap]. *)
Definition save_dashboard_state (project : str) (s : DashboardState) (w : W) :
    option (result ProjectError unit * W) :=
  let path := dashboard_state_path project in
  match path_parent path with
  | None => None
  | Some dir =>
      Some (
        let? (_, w) := (if path_exists dir w then (Ok tt, w)
                        else let '(r, w) := host_mkdirs dir w in
                             (map_err (fun e => ConfigParseError (lit "Failed to create dir: " ++ e)) r, w)) in
        match state_print s with
        | Err e => (Err (ConfigParseError (lit "Failed to serialize: " ++ e)), w)
        | Ok content =>
            let '(r, w) := host_write path (utf8 content) w in
            (map_err (fun e => ConfigParseError (lit "Failed to write " ++ path ++ lit ": " ++ e)) r, w)
        end)
  end.

(** ** The manager *)

Definition ensure_dir (what path : str) (w : W) : result ProjectError unit * W :=
  if path_exists path w then (Ok tt, w)
  else let '(r, w) := host_mkdirs path w in
       (map_err (fun e => ProjectInitFailed (lit "Failed to create " ++ what ++ lit " dir: " ++ e)) r, w).

Fixpoint ensure_dirs (base : str) (dirs : list str) (w : W) : result ProjectError unit * W :=
  match dirs with
  | [] => (Ok tt, w)
  | d :: rest =>
      let? (_, w) := ensure_dir d (path_join base d) w in
      ensure_dirs base rest w
  end.

Definition ensure_bastion_dirs (path : str) (w : W) : result ProjectError str * W :=
  let dir := bastion_dir path in
  let? (_, w) := ensure_dir (lit ".bastion") dir w in
  let? (_, w) := ensure_dirs dir BASTION_DIRS w in
  (Ok dir, w).

Definition write_project_toml (path name : str) (kind : ProjectKind) (w : W) : result ProjectError unit * W :=
  let '(r, w) := host_write (project_toml_path path) (utf8 (project_toml_text name (written_kind kind))) w in
  (map_err (fun e => ProjectInitFailed (lit "Failed to write project.toml: " ++ e)) r, w).

Definition extract_metadata (path : str) (w : W) : result ProjectError ProjectMetadata :=
  config ← load_config (project_toml_path path) w;
  Ok (mkMetadata path (pc_name config) (config_kind config)).

Definition open_project (path : str) (now : DateTime) (w : W) : result ProjectError Project :=
  match pf_canonicalize path w with
  | Err e => Err (InvalidProjectPath (lit "Invalid path " ++ path ++ lit ": " ++ e))
  | Ok canonical =>
      if path_exists (bastion_dir canonical) w then
        m ← extract_metadata canonical w;
        Ok (Project_new (md_id m) (md_name m) canonical (md_kind m) now)
      else Err (ProjectNotFound (lit "No .bastion directory found at: " ++ canonical))
  end.

Definition init_project (path : str) (kind : ProjectKind) (now : DateTime) (w : W) :
    result ProjectError Project * W :=
  let? (_, w) := ensure_bastion_dirs path w in
  let name := default (lit "unnamed") (path_file_name path) in
  let? (_, w) := write_project_toml path name kind w in
  (Ok (Project_new path name path kind now), w).

(** The project in a directory, if there is one that can be read. *)
Definition project_at (path : str) (w : W) : option ProjectSummary :=
  if path_exists (bastion_dir path) w then
    match extract_metadata path w with
    | Ok m => Some (mkSummary (md_id m) (md_name m) path (md_kind m) 0)
    | Err _ => None
    end
  else None.

(** The projects in a directory and, one level deeper, in its directories. *)
Definition scan_entry (path : str) (w : W) : list ProjectSummary :=
  if pf_is_dir path w then
    match project_at path w with Some s => [s] | None => [] end ++
    match pf_read_dir path w with
    | Ok subs => omap (fun p => if pf_is_dir p w then project_at p w else None) (oks subs)
    | Err _ => []
    end
  else [].

Definition list_projects (root : str) (w : W) : result ProjectError (list ProjectSummary) :=
  match pf_read_dir root w with
  | Err e => Err (InvalidProjectPath (lit "Cannot read root " ++ root ++ lit ": " ++ e))
  | Ok entries => Ok (concat (map (fun p => scan_entry p w) (oks entries)))
  end.

(** ** Facts *)

Lemma elem_of_oks {E A} (l : list (result E A)) (a : A) : a ∈ oks l <-> Ok a ∈ l.
Proof.
  unfold oks. rewrite list_elem_of_omap. split.
  - intros ([b|e] & Hin & Hb); [by injection Hb as ->|done].
  - intros Hin. by exists (Ok a).
Qed.

Lemma project_at_spec p w s :
  project_at p w = Some s <->
  path_exists (bastion_dir p) w = true /\
  exists m, extract_metadata p w = Ok m /\ s = mkSummary (md_id m) (md_name m) p (md_kind m) 0.
Proof.
  unfold project_at. destruct (path_exists (bastion_dir p) w); [|naive_solver].
  destruct (extract_metadata p w) as [m|e]; naive_solver.
Qed.

Lemma scan_entry_spec p w s :
  s ∈ scan_entry p w <->
  pf_is_dir p w = true /\
  (project_at p w = Some s \/
   exists subs q, pf_read_dir p w = Ok subs /\ Ok q ∈ subs /\ pf_is_dir q w = true /\ project_at q w = Some s).
Proof.
  unfold scan_entry. destruct (pf_is_dir p w); [|by split; [intros ?%elem_of_nil|intros [? _]]].
  rewrite elem_of_app. split.
  - intros [H|H]; split; try done.
    + left. destruct (project_at p w); [|by apply elem_of_nil in H].
      by apply list_elem_of_singleton in H as ->.
    + right. destruct (pf_read_dir p w) as [subs|e]; [|by apply elem_of_nil in H].
      apply list_elem_of_omap in H as (q & Hq & Hs). apply elem_of_oks in Hq.
      destruct (pf_is_dir q w) eqn:Ed; [|done]. by exists subs, q.
  - intros [_ [H|(subs & q & Hr & Hq & Hd & Hs)]].
    + left. rewrite H. by apply list_elem_of_singleton.
    + right. rewrite Hr. apply list_elem_of_omap. exists q. split; [by apply elem_of_oks|by rewrite Hd].
Qed.

Lemma extract_metadata_path p w m : extract_metadata p w = Ok m -> md_id m = p.
Proof.
  unfold extract_metadata. destruct (load_config (project_toml_path p) w) as [c|e]; [|done].
  simpl. by intros [= <-].
Qed.
End Manager.

(** ** The aggregate is a set of sandboxes *)

Module ProjectFacts.
Section Aggregate.
Context `{CH : Chrono}.

(** What a call does to the set of sandboxes. *)
Definition set_step (X : gset (list N)) (c : project_call * DateTime) : gset (list N) :=
  match fst c with
  | CallAdd id => {[ id ]} ∪ X
  | CallRemove id => X ∖ {[ id ]}
  | CallUpdate => X
  end.

Definition ids_set (p : Project) : gset (list N) := list_to_set (sandbox_ids p).

Lemma project_step_set c p : ids_set (project_step c p) = set_step (ids_set p) c.
Proof.
  destruct c as [c now]. unfold ids_set, set_step. destruct c as [id|id|]; simpl; [| |done].
  - unfold add_sandbox. destruct (existsb (str_eqb id) (sandbox_ids p)) eqn:E; simpl.
    + apply existsb_exists in E as (x & Hx & ->%str_eqb_eq). apply list_elem_of_In in Hx. set_solver.
    + rewrite list_to_set_app_L. set_solver.
  - apply set_eq. intros x. rewrite elem_of_difference, !elem_of_list_to_set, list_elem_of_In, filter_In,
      <- list_elem_of_In, not_elem_of_singleton.
    destruct (decide (x = id)) as [->|Hn]; [rewrite str_eqb_refl; naive_solver|].
    rewrite (str_eqb_neq x id Hn). naive_solver.
Qed.

Lemma project_step_nodup c p : NoDup (sandbox_ids p) -> NoDup (sandbox_ids (project_step c p)).
Proof.
  destruct c as [c now]. intros H. destruct c as [id|id|]; simpl; [| |done].
  - unfold add_sandbox. destruct (existsb (str_eqb id) (sandbox_ids p)) eqn:E; [done|]. simpl.
    apply NoDup_app. split; [done|]. split; [|apply NoDup_singleton].
    intros x Hx ->%list_elem_of_singleton.
    rewrite (proj2 (existsb_exists _ _)) in E; [done|]. exists id.
    split; [by apply list_elem_of_In|apply str_eqb_refl].
  - apply (sublist_NoDup _ _ H), filter_sublist.
Qed.

Definition identity (p : Project) := (pj_id p, pj_name p, pj_path p, pj_kind p, pj_created_at p).

Lemma project_step_identity c p : identity (project_step c p) = identity p.
Proof. destruct c as [[id|id|] now]; simpl; unfold add_sandbox; repeat case_match; done. Qed.

Lemma project_run_facts cs p :
  NoDup (sandbox_ids p) ->
  NoDup (sandbox_ids (project_run cs p)) /\
  ids_set (project_run cs p) = fold_left set_step cs (ids_set p) /\
  identity (project_run cs p) = identity p.
Proof.
  unfold project_run. revert p. induction cs as [|c cs IH]; intros p Hp; [done|]. simpl.
  rewrite <- project_step_set, <- (project_step_identity c p). by apply IH, project_step_nodup.
Qed.

(** Over any history of calls a project holds each of its sandboxes once, and
    they are those of the set on which the calls are insertion and deletion; the
    count of the summary is the size of that set; the identity is kept. *)
Theorem project_is_a_set id name path kind now cs :
  let p := project_run cs (Project_new id name path kind now) in
  let X := fold_left set_step cs ∅ in
  NoDup (sandbox_ids p) /\ (forall s, s ∈ sandbox_ids p <-> s ∈ X) /\
  ds_sandbox_count (summary_from p) = size X /\
  identity p = (id, name, path, kind, now).
Proof.
  intros p X. destruct (project_run_facts cs (Project_new id name path kind now) NoDup_nil_2) as (Hn & Hs & Hi).
  fold p in Hn, Hs, Hi. change (ids_set p = X) in Hs. unfold ids_set in Hs. split; [done|].
  split; [|split; [|done]].
  - intros s. rewrite <- Hs. by rewrite elem_of_list_to_set.
  - simpl. rewrite <- Hs. by rewrite size_list_to_set.
Qed.
End Aggregate.

(** ** Directories *)

Lemma Forall_scalar_ascii (s : str) : forallb (fun c => (c <? 128)%N) s = true -> Forall scalar_value s.
Proof.
  intros H. apply Forall_forall. intros c Hc. rewrite forallb_forall in H.
  left. specialize (H c (proj1 (list_elem_of_In _ _) Hc)). apply N.ltb_lt in H. lia.
Qed.

Section Manager.
Context `{CH : Chrono} {W : Type} `{HOST : !HostFs W} `{PFS : !ProjectFs W} `{PT : ProjectToml} `{SJ : StateJson}.

Lemma list_projects_elem root w l :
  list_projects root w = Ok l ->
  exists entries, pf_read_dir root w = Ok entries /\
  forall s, s ∈ l <->
    exists d p m, Ok d ∈ entries /\ pf_is_dir d w = true /\
      (p = d \/ exists subs, pf_read_dir d w = Ok subs /\ Ok p ∈ subs /\ pf_is_dir p w = true) /\
      path_exists (bastion_dir p) w = true /\ extract_metadata p w = Ok m /\
      s = mkSummary p (md_name m) p (md_kind m) 0.
Proof.
  unfold list_projects. destruct (pf_read_dir root w) as [entries|e]; [|done]. intros [= <-].
  exists entries. split; [done|]. intros s. rewrite list_elem_of_In, in_concat. split.
  - intros (x & (d & <- & Hd)%in_map_iff & Hs). apply list_elem_of_In, elem_of_oks in Hd.
    apply list_elem_of_In, scan_entry_spec in Hs as [Hdir [Hs|(subs & q & Hr & Hq & Hqd & Hs)]];
      apply project_at_spec in Hs as (Hex & m & Hm & ->); rewrite (extract_metadata_path _ _ _ Hm).
    + exists d, d, m. naive_solver.
    + exists d, q, m. naive_solver.
  - intros (d & p & m & Hd & Hdir & Hp & Hex & Hm & ->).
    exists (scan_entry d w). split; [apply in_map_iff; exists d; split; [done|]; by apply list_elem_of_In, elem_of_oks|].
    apply list_elem_of_In, scan_entry_spec. split; [done|].
    assert (Hat : project_at p w = Some (mkSummary p (md_name m) p (md_kind m) 0)).
    { apply project_at_spec. split; [done|]. exists m. split; [done|]. by rewrite (extract_metadata_path _ _ _ Hm). }
    destruct Hp as [->|(subs & Hr & Hq & Hqd)]; [by left|]. right. by exists subs, p.
Qed.

(** The listing of a directory contains exactly the projects in its
    directories and in the directories of these: every one that can be read, with
    its path as its identifier; a root that cannot be read is the only error. *)
Theorem list_projects_spec root w :
  match list_projects root w with
  | Ok l => exists entries, pf_read_dir root w = Ok entries /\
      forall s, s ∈ l <->
        exists d p m, Ok d ∈ entries /\ pf_is_dir d w = true /\
          (p = d \/ exists subs, pf_read_dir d w = Ok subs /\ Ok p ∈ subs /\ pf_is_dir p w = true) /\
          path_exists (bastion_dir p) w = true /\ extract_metadata p w = Ok m /\
          s = mkSummary p (md_name m) p (md_kind m) 0
  | Err e => exists t, pf_read_dir root w = Err t /\
      e = InvalidProjectPath (lit "Cannot read root " ++ root ++ lit ": " ++ t)
  end.
Proof.
  destruct (list_projects root w) as [l|e] eqn:E; [by apply list_projects_elem|].
  unfold list_projects in E. destruct (pf_read_dir root w) as [entries|t]; [done|].
  exists t. by injection E as <-.
Qed.

Section Laws.
Context `{HL : !HostLaws W} `{PL : !ProjectFsLaws W}.

Lemma ensure_dir_facts what p w :
  fst (ensure_dir what p w) = Ok tt -> path_exists p (snd (ensure_dir what p w)) = true.
Proof.
  unfold ensure_dir. destruct (path_exists p w) eqn:E; [done|].
  pose proof (law_mkdirs_exists p w) as H. destruct (host_mkdirs p w) as [[[]|e] w']; simpl in *; [|done].
  intros _. by apply H.
Qed.

Lemma ensure_dir_keeps what p q w :
  path_exists q w = true -> path_exists q (snd (ensure_dir what p w)) = true.
Proof.
  intros H. unfold ensure_dir. destruct (path_exists p w); [done|].
  pose proof (law_mkdirs_keeps q p w H) as Hk. destruct (host_mkdirs p w) as [[[]|e] w']; done.
Qed.

Lemma ensure_dirs_keeps base dirs q w :
  path_exists q w = true -> path_exists q (snd (ensure_dirs base dirs w)) = true.
Proof.
  revert w. induction dirs as [|d rest IH]; intros w H; [done|]. simpl.
  pose proof (ensure_dir_keeps d (path_join base d) q w H) as Hk.
  destruct (ensure_dir d (path_join base d) w) as [[[]|e] w']; simpl in *; [by apply IH|done].
Qed.

Lemma ensure_bastion_dirs_exists path w dir :
  fst (ensure_bastion_dirs path w) = Ok dir ->
  path_exists (bastion_dir path) (snd (ensure_bastion_dirs path w)) = true.
Proof.
  unfold ensure_bastion_dirs. pose proof (ensure_dir_facts (lit ".bastion") (bastion_dir path) w) as Hd.
  destruct (ensure_dir (lit ".bastion") (bastion_dir path) w) as [[[]|e] w1]; cbn [and_then fst snd] in *; [|done].
  pose proof (ensure_dirs_keeps (bastion_dir path) BASTION_DIRS (bastion_dir path) w1 (Hd eq_refl)) as Hk.
  destruct (ensure_dirs (bastion_dir path) BASTION_DIRS w1) as [[[]|e] w2]; cbn [and_then fst snd] in *; done.
Qed.

(** What an initialisation that succeeds leaves behind. *)
Lemma init_project_leaves path kind now w p w' :
  init_project path kind now w = (Ok p, w') ->
  p = Project_new path (default (lit "unnamed") (path_file_name path)) path kind now /\
  path_exists (bastion_dir path) w' = true /\
  host_read (project_toml_path path) w' =
    Ok (utf8 (project_toml_text (pj_name p) (written_kind kind))).
Proof.
  unfold init_project. pose proof (ensure_bastion_dirs_exists path w) as He.
  destruct (ensure_bastion_dirs path w) as [[dir|e] w1]; [|done]. simpl in He. specialize (He _ eq_refl).
  set (name := default (lit "unnamed") (path_file_name path)).
  cbn [and_then]. unfold write_project_toml.
  pose proof (law_write_read (project_toml_path path) (utf8 (project_toml_text name (written_kind kind))) w1) as Hr.
  pose proof (law_write_keeps (bastion_dir path) (project_toml_path path)
    (utf8 (project_toml_text name (written_kind kind))) w1 He) as Hk.
  destruct (host_write (project_toml_path path) _ w1) as [[[]|e] w2]; simpl in *; [|done].
  intros [= <- <-]. split; [done|]. split; [done|]. by apply Hr.
Qed.

Lemma project_toml_text_scalar name k :
  Forall scalar_value name -> Forall scalar_value (project_toml_text name (written_kind k)).
Proof.
  intros H. unfold project_toml_text. apply Forall_app_2; [apply Forall_scalar_ascii; by destruct k|].
  apply Forall_app_2; [done|]. apply Forall_scalar_ascii. by destruct k.
Qed.

(** What is read of a project that was just initialised. *)
Lemma init_project_reads `{TL : !ProjectTomlLaws} path kind now w p w' :
  init_project path kind now w = (Ok p, w') ->
  Forall (fun c => plain_char c = true) (pj_name p) -> Forall scalar_value (pj_name p) ->
  extract_metadata path w' =
    match kind with
    | KindNodeJs => Err (invalid_toml (unknown_variant (lit "nodejs")))
    | _ => Ok (mkMetadata path (pj_name p) kind)
    end.
Proof.
  intros Hinit Hp Hs. destruct (init_project_leaves _ _ _ _ _ _ Hinit) as (_ & _ & Hr).
  assert (Hcfg : read_config (project_toml_path path) w' = Ok (project_toml_text (pj_name p) (written_kind kind))).
  { unfold read_config, read_to_string. rewrite Hr, from_utf8_utf8; [done|]. by apply project_toml_text_scalar. }
  unfold extract_metadata, load_config. rewrite Hcfg. cbn [mbind result_bind]. unfold parse_config.
  rewrite law_toml; [by destruct kind|done|by destruct kind; vm_compute; repeat constructor].
Qed.

(** A project that was initialised opens with the name and kind it was given,
    but for NodeJs: that kind is written under a name which is not read back, so
    the project does not open and is missing from every listing. *)
Theorem init_then_open `{TL : !ProjectTomlLaws} path kind now now' w p w' :
  init_project path kind now w = (Ok p, w') ->
  Forall (fun c => plain_char c = true) (pj_name p) -> Forall scalar_value (pj_name p) ->
  pf_canonicalize path w' = Ok path ->
  match kind with
  | KindNodeJs =>
      open_project path now' w' = Err (invalid_toml (unknown_variant (lit "nodejs"))) /\
      (forall root l s, list_projects root w' = Ok l -> s ∈ l -> ps_path s <> path)
  | _ => open_project path now' w' = Ok (Project_new path (pj_name p) path kind now')
  end.
Proof.
  intros Hinit Hp Hs Hc. pose proof (init_project_reads _ _ _ _ _ _ Hinit Hp Hs) as Hm.
  destruct (init_project_leaves _ _ _ _ _ _ Hinit) as (_ & He & _).
  unfold open_project. rewrite Hc, He, Hm.
  destruct kind; try done. split; [done|]. intros root l s Hl Hin Heq.
  destruct (list_projects_elem _ _ _ Hl) as (entries & _ & Hall).
  apply Hall in Hin as (d & q & m & _ & _ & _ & _ & Hq & ->). simpl in Heq. subst q. congruence.
Qed.

(** ** The state of the dashboard *)

(** A relative name put under a path that does not end in a separator. *)
Lemma path_join_under a c f : c <> chr "/" -> starts_with [chr "/"] f = false ->
  path_join (a ++ [c]) f = (a ++ [c]) ++ slash :: f.
Proof.
  intros Hc Hf. unfold path_join. rewrite Hf, rev_app_distr. cbn [rev app].
  by rewrite (proj2 (N.eqb_neq c (chr "/")) Hc).
Qed.

Lemma bastion_dir_ends project : exists a, bastion_dir project = a ++ [chr "n"].
Proof.
  unfold bastion_dir, path_join. change (starts_with [chr "/"] (lit ".bastion")) with false.
  change (lit ".bastion") with (lit ".bastio" ++ [chr "n"]). cbv iota.
  destruct (rev project) as [|c r]; [by exists (lit ".bastio")|].
  destruct (c =? chr "/")%N; rewrite ?app_comm_cons, app_assoc; by eexists.
Qed.

Lemma dashboard_parent project : exists dir, path_parent (dashboard_state_path project) = Some dir.
Proof.
  destruct (bastion_dir_ends project) as [a Ha]. unfold dashboard_state_path.
  change (path_join project (lit ".bastion")) with (bastion_dir project).
  rewrite Ha, path_join_under by done. unfold path_parent.
  rewrite HostProviders.LocalPaths.split_on_sep, rev_app_distr. change (rev (split_on slash (lit "dashboard.json"))) with [lit "dashboard.json"].
  cbn [app drop_ignored]. change (ignored_segment (lit "dashboard.json")) with false. cbv iota.
  pose proof (split_on_nonempty slash (a ++ [chr "n"])) as Hne.
  destruct (rev (split_on slash (a ++ [chr "n"]))) as [|x r] eqn:E; [|by eexists].
  by apply (f_equal (@rev _)) in E; rewrite rev_involutive in E.
Qed.

(** Saving the state of the dashboard never panics, and a state that was
    saved is loaded as it was; before anything is saved the theme is empty, while
    a file without a theme gives the theme of the system. *)
Theorem dashboard_state_roundtrip `{JL : !StateJsonLaws} project s w :
  exists r w', save_dashboard_state project s w = Some (r, w') /\
    (r = Ok tt -> load_dashboard_state project w' = Ok s) /\
    (path_exists (dashboard_state_path project) w = false ->
       exists s0, load_dashboard_state project w = Ok s0 /\ theme s0 = []) /\
    theme (state_of_doc (mkStateDoc None None None None)) = lit "system".
Proof.
  destruct (dashboard_parent project) as [dir Hdir]. unfold save_dashboard_state. rewrite Hdir.
  match goal with |- context [Some ?x] => destruct x as [r w'] eqn:E end.
  exists r, w'. split; [done|]. split; [|split; [|done]].
  - intros ->.
    match type of E with and_then ?x _ = _ => destruct x as [[[]|e] w1] end; [|done]. cbn [and_then] in E.
    destruct (state_print s) as [text|e] eqn:Ep; [|done]. destruct (law_state s text Ep) as [Hread Hsc].
    pose proof (law_write_read (dashboard_state_path project) (utf8 text) w1) as Hr.
    destruct (host_write _ (utf8 text) w1) as [[[]|e] w2]; simpl in E, Hr; [|done].
    injection E as ->. destruct (Hr eq_refl) as [Hr1 Hr2].
    unfold load_dashboard_state. rewrite Hr2. unfold read_config, read_to_string.
    rewrite Hr1, from_utf8_utf8 by done. simpl. rewrite Hread. by destruct s.
  - intros He. unfold load_dashboard_state. rewrite He. by eexists.
Qed.
End Laws.
End Manager.
End ProjectFacts.

(** ** Concrete projects *)

Module Demo.
#[local] Existing Instance Z_chrono.

Record disk := mkDisk { dk_dirs : list str; dk_files : gmap (list N) bytes }.

#[export] Instance disk_host : HostFs disk := {|
  path_exists := fun p d => existsb (str_eqb p) (dk_dirs d) || match dk_files d !! p with Some _ => true | None => false end;
  host_read := fun p d => ok_or (dk_files d !! p) (lit "no such file");
  host_write := fun p c d => (Ok tt, mkDisk (dk_dirs d) (<[p := c]> (dk_files d)));
  host_mkdirs := fun p d => (Ok tt, mkDisk (p :: dk_dirs d) (dk_files d));
  host_remove := fun p d => mkDisk (dk_dirs d) (delete p (dk_files d));
  host_link := fun _ _ d => (Err (lit "cannot link"), d);
  host_tar := fun _ d => (Ok (true, []), d)
|}.

#[export] Instance disk_laws : HostLaws disk.
Proof.
  split; simpl.
  - intros p c d _. rewrite lookup_insert_eq. by rewrite orb_true_r.
  - intros p q c d Hpq. by rewrite lookup_insert_ne.
  - done.
Qed.

#[export] Instance disk_project_laws : ProjectFsLaws disk.
Proof.
  split; simpl.
  - intros p d _. by rewrite str_eqb_refl.
  - intros p q d H. by destruct (str_eqb p q).
  - intros p q c d [H|H]%orb_prop; [by rewrite H|]. destruct (decide (p = q)) as [->|Hn].
    + by rewrite lookup_insert_eq, orb_true_r.
    + rewrite lookup_insert_ne by done. by rewrite H, orb_true_r.
Qed.

(** A directory lists what was created under its path. *)
Definition entry_of (p q : str) : option (result str str) :=
  match path_file_name q with
  | Some n => if bool_decide (n <> [] /\ slash ∉ n) && str_eqb (path_join p n) q then Some (Ok q) else None
  | None => None
  end.

#[export] Instance disk_project : ProjectFs disk := {|
  pf_canonicalize := fun p _ => Ok p;
  pf_is_dir := fun p d => existsb (str_eqb p) (dk_dirs d);
  pf_read_dir := fun p d => Ok (omap (entry_of p) (dk_dirs d))
|}.

(** A reader of exactly the texts the manager writes. *)
#[export] Instance own_toml : ProjectToml := {|
  toml_project := fun t =>
    match strip_prefix toml_head t with
    | Some rest =>
        match split_once dquote rest with
        | Some (name, rest) =>
            match strip_prefix toml_middle rest with
            | Some rest =>
                match split_once dquote rest with
                | Some (kind, _) => Ok (mkProjectDoc name (Some kind))
                | None => Err (lit "expected a value")
                end
            | None => Err (lit "expected a key")
            end
        | None => Err (lit "expected a value")
        end
    | None => Err (lit "expected a table")
    end;
  toml_pipeline := fun t => Ok (mkPipelineDoc t None [mkStageDoc (lit "build") (lit "rust") (lit "cargo build") None]);
  unknown_variant := fun k => lit "unknown variant " ++ k
|}.

Lemma split_once_app sep a b : sep ∉ a -> split_once sep (a ++ sep :: b) = Some (a, b).
Proof.
  induction a as [|c a IH]; cbn; intros H; [by rewrite N.eqb_refl|].
  apply not_elem_of_cons in H as [Hc Ha]. rewrite (proj2 (N.eqb_neq c sep)) by congruence. by rewrite IH.
Qed.

Lemma strip_marker_app pre s : strip_prefix pre (pre ++ s) = Some s.
Proof. unfold strip_prefix. by rewrite starts_with_app, drop_app_length. Qed.

Lemma plain_no_quote s : Forall (fun c => plain_char c = true) s -> dquote ∉ s.
Proof. intros H Hin. rewrite Forall_forall in H. by specialize (H _ Hin). Qed.

#[export] Instance own_toml_laws : ProjectTomlLaws.
Proof.
  intros name kind Hn Hk. cbv beta iota delta [toml_project own_toml project_toml_text]. rewrite strip_marker_app.
  rewrite split_once_app by (by apply plain_no_quote). rewrite strip_marker_app.
  change [dquote; newline] with (dquote :: [newline]).
  by rewrite split_once_app by (by apply plain_no_quote).
Qed.

#[local] Instance scalar_value_dec c : Decision (scalar_value c).
Proof. unfold scalar_value. apply _. Defined.

(** States are written with their theme alone, when that is all there is to them. *)
#[export] Instance theme_json : StateJson := {|
  state_print := fun s =>
    if bool_decide (selected_project s = None /\ collapsed_sections s = [] /\ column_order s = [] /\
                    Forall scalar_value (theme s)) then Ok (theme s) else Err (lit "unsupported");
  state_read := fun t => Ok (mkStateDoc (Some None) (Some []) (Some []) (Some t))
|}.

#[export] Instance theme_json_laws : StateJsonLaws.
Proof.
  intros s text. simpl. case_bool_decide as H; [|done]. intros [= <-].
  destruct H as (H1 & H2 & H3 & H4). unfold doc_of_state. by rewrite H1, H2, H3.
Qed.

Definition empty_disk : disk := mkDisk [lit "/srv"] ∅.
Definition shop : str := lit "/srv/shop".

Lemma plain_shop : Forall (fun c => plain_char c = true) (lit "shop").
Proof. by vm_compute; repeat constructor. Qed.

(** A Rust project opens again; a NodeJs project is lost. *)
Lemma init_then_open_witness :
  let rust := init_project shop KindRust 1%Z empty_disk in
  let node := init_project shop KindNodeJs 1%Z empty_disk in
  open_project shop 2%Z (snd rust) = Ok (Project_new shop (lit "shop") shop KindRust 2%Z) /\
  open_project shop 2%Z (snd node) = Err (invalid_toml (lit "unknown variant nodejs")).
Proof.
  split.
  - exact (ProjectFacts.init_then_open shop KindRust 1%Z 2%Z empty_disk (Project_new shop (lit "shop") shop KindRust 1%Z) _
             eq_refl plain_shop (ProjectFacts.Forall_scalar_ascii (lit "shop") eq_refl) eq_refl).
  - exact (proj1 (ProjectFacts.init_then_open shop KindNodeJs 1%Z 2%Z empty_disk
             (Project_new shop (lit "shop") shop KindNodeJs 1%Z) _
             eq_refl plain_shop (ProjectFacts.Forall_scalar_ascii (lit "shop") eq_refl) eq_refl)).
Defined.

Lemma dashboard_state_witness :
  exists r w', save_dashboard_state shop (mkDashboardState None [] [] (lit "dark")) empty_disk = Some (r, w') /\
    r = Ok tt /\ load_dashboard_state shop w' = Ok (mkDashboardState None [] [] (lit "dark")).
Proof.
  destruct (ProjectFacts.dashboard_state_roundtrip shop (mkDashboardState None [] [] (lit "dark")) empty_disk)
    as (r & w' & H & Hl & _).
  assert (Hr : r = Ok tt).
  { pose proof (f_equal (option_map fst) H) as Hf. vm_compute in Hf. by injection Hf as <-. }
  exists r, w'. auto.
Defined.

(** Both projects are found, the second one level below the first. *)
Example list_projects_ex :
  let w := snd (init_project (lit "/srv/shop/api") KindGo 1%Z (snd (init_project shop KindRust 1%Z empty_disk))) in
  let w := mkDisk (shop :: dk_dirs w) (dk_files w) in
  let w := mkDisk ((lit "/srv/shop/api") :: dk_dirs w) (dk_files w) in
  list_projects (lit "/srv") w =
    Ok [mkSummary shop (lit "shop") shop KindRust 0;
        mkSummary (lit "/srv/shop/api") (lit "api") (lit "/srv/shop/api") KindGo 0].
Proof. vm_compute. reflexivity. Qed.

Example pipelines_ex :
  let w := snd (host_write (lit "/srv/shop/.bastion/pipelines/ci.toml") (lit "ci")
             (snd (init_project shop KindRust 1%Z empty_disk))) in
  load_pipelines shop (mkDisk (lit "/srv/shop/.bastion/pipelines/ci.toml" :: dk_dirs w) (dk_files w)) =
    Ok [mkPipeline (lit "ci") [] [mkStage (lit "build") (lit "rust") (lit "cargo build") 300000]].
Proof. vm_compute. reflexivity. Qed.

Example names_ex :
  map path_file_name [lit "/a/b"; lit "a/b/"; lit "b/."; lit "/"; lit "."; lit "a/.."; lit ""] =
    [Some (lit "b"); Some (lit "b"); Some (lit "b"); None; None; None; None].
Proof. reflexivity. Qed.
End Demo.
