(* ===== verification/Events.v ===== *)
(** * Events of the dashboard

    Models [bastion-dashboard/src/api/events.rs]: the reading of a stream of
    server-sent events, and what [bastion-dashboard/src/server/handlers/events.rs]
    writes into one.  The decoders of the data of an event and the text of an event
    as JSON are [EventJson]; doubles are those of the decoder. *)

From Stdlib Require Import SpecFloat.
From S2P Require Import Prelude Utf8 SandboxFs.

Inductive SseEvent :=
| SandboxCreated (sandbox_id project_id purpose : str)
| SandboxTerminated (sandbox_id : str) (reason : option str)
| SandboxStatusChanged (sandbox_id old_status new_status : str)
| MetricsUpdate (sandbox_id : str) (cpu_percent : spec_float) (memory_mb : Z)
| PoolEvent (pool_id action : str) (details : option str)
| Unknown (event_type raw_data : str).

Inductive SseError :=
| SseParseError (m : str)
| ConnectionError (m : str)
| InvalidEventType (m : str)
| SseIoError (m : str).

Definition show_sse_error (e : SseError) : str :=
  match e with
  | SseParseError m => lit "Parse error: " ++ m
  | ConnectionError m => lit "Connection error: " ++ m
  | InvalidEventType m => lit "Invalid event type: " ++ m
  | SseIoError m => lit "IO error: " ++ m
  end.

Class EventJson := {
  ej_created : str -> result str (str * str * str);
  ej_terminated : str -> result str (str * option str);
  ej_status : str -> result str (str * str * str);
  ej_metrics : str -> result str (str * spec_float * Z);
  ej_pool : str -> result str (str * str * option str);
  (** [serde_json::to_string] of an event. *)
  ej_text : SseEvent -> result str str
}.

Section Events.
Context `{EJ : EventJson}.

Definition decoded {A} (r : result str A) (f : A -> SseEvent) : result SseError SseEvent :=
  match r with Ok a => Ok (f a) | Err e => Err (SseParseError (lit "Invalid JSON: " ++ e)) end.

Definition parse_event (event_type : option str) (data : str) : result SseError SseEvent :=
  let event_type := default (lit "unknown") event_type in
  if str_eqb event_type (lit "sandbox_created") then
    decoded (ej_created data) (fun '(s, p, u) => SandboxCreated s p u)
  else if str_eqb event_type (lit "sandbox_terminated") then
    decoded (ej_terminated data) (fun '(s, r) => SandboxTerminated s r)
  else if str_eqb event_type (lit "sandbox_status_changed") then
    decoded (ej_status data) (fun '(s, o, n) => SandboxStatusChanged s o n)
  else if str_eqb event_type (lit "metrics_update") then
    decoded (ej_metrics data) (fun '(s, c, m) => MetricsUpdate s c m)
  else if str_eqb event_type (lit "pool_event") then
    decoded (ej_pool data) (fun '(p, a, d) => PoolEvent p a d)
  else Ok (Unknown event_type data).

(** The loop of [SseEvent::parse], with the type and the data read so far. *)
Fixpoint parse_lines (lines : list str) (event_type : option str) (data : list str) :
    result SseError (option SseEvent) :=
  match lines with
  | [] => Ok None
  | line :: rest =>
      let line := trim line in
      match line with
      | [] =>
          match event_type, data with
          | Some _, _ :: _ =>
              match parse_event event_type (join [10%N] data) with
              | Ok e => Ok (Some e)
              | Err e => Err e
              end
          | _, _ => parse_lines rest None []
          end
      | _ =>
          match strip_prefix (lit "event:") line with
          | Some p => parse_lines rest (Some (trim p)) data
          | None =>
              match strip_prefix (lit "data:") line with
              | Some p => parse_lines rest event_type (data ++ [trim p])
              | None => parse_lines rest event_type data
              end
          end
      end
  end.

Definition parse (lines : list str) : result SseError (option SseEvent) := parse_lines lines None [].

(** [text.split] at two line feeds. *)
Fixpoint split_blank (s : str) : list str :=
  match s with
  | [] => [[]]
  | c :: s' =>
      let single := match split_blank s' with p :: ps => (c :: p) :: ps | [] => [[c]] end in
      match s' with
      | d :: s'' => if (c =? 10)%N && (d =? 10)%N then [] :: split_blank s'' else single
      | [] => single
      end
  end.

Fixpoint parse_blocks (blocks : list str) : result SseError (list SseEvent) :=
  match blocks with
  | [] => Ok []
  | block :: rest =>
      match trim block with
      | [] => parse_blocks rest
      | block =>
          match parse (SandboxFs.lines block ++ [[]]) with
          | Err e => Err e
          | Ok (Some event) => events ← parse_blocks rest; Ok (event :: events)
          | Ok None => parse_blocks rest
          end
      end
  end.

Definition parse_sse_stream (stream_data : bytes) : result SseError (list SseEvent) :=
  parse_blocks (split_blank (from_utf8_lossy stream_data)).

(** ** What is sent *)

(** The text of an event with its type and its lines of data. *)
Definition event_text (event_type : str) (data : list str) : str :=
  lit "event: " ++ event_type ++ [10%N] ++ concat (map (fun d => lit "data: " ++ d ++ [10%N]) data) ++ [10%N].

(** What the channel of an event stream yields: an event, or a reader that fell behind. *)
Inductive broadcast_item := Received (e : SseEvent) | Lagged (n : Z).

(** The item the server makes of it. *)
Definition sse_item (i : broadcast_item) : str :=
  match i with
  | Received e => event_text (lit "message") [match ej_text e with Ok t => t | Err _ => [] end]
  | Lagged _ => lit ": reconnecting" ++ [10; 10]%N
  end.

(** The stream of a connection: its channel is made for it, and the only sender is
    dropped when the handler returns, so that nothing can ever arrive. *)
Definition sse_events : list broadcast_item := [].

Definition broadcast_event (receivers : nat) (e : SseEvent) : result str unit :=
  if Nat.eqb receivers 0 then Err (lit "Failed to broadcast event") else Ok tt.
End Events.

(** ** Reading inverts writing *)

Module EventFacts.

(** A text of one line without space around it, as JSON in one line is. *)
Definition clean (s : str) : Prop := s <> [] /\ trim s = s /\ 10%N ∉ s.

Lemma trim_start_space s : trim_start (32%N :: s) = trim_start s.
Proof. unfold trim_start. cbn. by destruct (span is_whitespace s). Qed.

Lemma trim_start_length s : length (trim_start s) <= length s.
Proof. apply span_le. Qed.

Lemma trim_start_shorter c s : is_whitespace c = true -> length (trim_start (c :: s)) < length (c :: s).
Proof.
  intros H. unfold trim_start. cbn. rewrite H. pose proof (span_le is_whitespace s).
  destruct (span is_whitespace s). simpl in *. lia.
Qed.

Lemma trim_fix s : trim s = s -> trim_start s = s /\ trim_start (rev s) = rev s.
Proof.
  unfold trim, trim_end. intros H.
  assert (Hl : trim_start s = s).
  { destruct s as [|c s]; [done|]. destruct (is_whitespace c) eqn:E; [|by apply trim_start_id].
    exfalso. pose proof (trim_start_shorter c s E) as H1.
    pose proof (trim_start_length (rev (trim_start (c :: s)))) as H2.
    apply (f_equal length) in H. rewrite !length_rev in *. lia. }
  split; [done|]. rewrite Hl in H. apply (f_equal (@rev _)) in H. by rewrite rev_involutive in H.
Qed.

Lemma trim_start_head c s : trim_start (c :: s) = c :: s -> is_whitespace c = false.
Proof.
  intros H. destruct (is_whitespace c) eqn:E; [|done]. pose proof (trim_start_shorter c s E). rewrite H in *. lia.
Qed.

(** The ends of a clean text. *)
Lemma clean_ends s : clean s ->
  exists a c, s = a ++ [c] /\ is_whitespace c = false /\ trim_start s = s.
Proof.
  intros (Hne & Ht & _). destruct (trim_fix s Ht) as [H1 H2].
  destruct (rev s) as [|c r] eqn:E.
  - by apply (f_equal (@rev _)) in E; rewrite rev_involutive in E.
  - exists (rev r), c. split; [|split; [by eapply trim_start_head|done]].
    rewrite <- (rev_involutive s), E. done.
Qed.

(** A text that starts with a character of [pre] and ends in a clean one. *)
Lemma trim_labelled (c : N) (pre s : str) : is_whitespace c = false -> clean s -> trim (c :: pre ++ s) = c :: pre ++ s.
Proof.
  intros Hc Hs. destruct (clean_ends s Hs) as (a & e & -> & He & _). apply trim_id; [done|].
  change (c :: pre ++ a ++ [e]) with ((c :: pre) ++ (a ++ [e])). by rewrite app_assoc, rev_app_distr.
Qed.

Lemma trim_after_space s : clean s -> trim (32%N :: s) = s.
Proof. intros (_ & Ht & _). unfold trim. rewrite trim_start_space. done. Qed.

(** *** Splitting *)

Definition onto (l : str) (ps : list str) : list str :=
  match ps with p :: ps => (l ++ p) :: ps | [] => [l] end.

Lemma split_blank_nonempty s : split_blank s <> [].
Proof. destruct s as [|c [|d s]]; simpl; [done| |]; repeat case_match; done. Qed.

Lemma onto_app a b ps : ps <> [] -> onto (a ++ b) ps = onto a (onto b ps).
Proof. destruct ps; [done|]. simpl. by rewrite app_assoc. Qed.

Lemma split_blank_char c s : c <> 10%N -> split_blank (c :: s) = onto [c] (split_blank s).
Proof.
  intros H. cbn [split_blank]. destruct s as [|d s]; [done|].
  rewrite (proj2 (N.eqb_neq c 10) H). simpl andb. cbv iota. by destruct (split_blank (d :: s)).
Qed.

Lemma split_blank_line l s : 10%N ∉ l -> split_blank (l ++ s) = onto l (split_blank s).
Proof.
  induction l as [|c l IH]; intros H.
  - cbn [app]. destruct (split_blank s) eqn:E; [by apply split_blank_nonempty in E|done].
  - apply not_elem_of_cons in H as [Hc Hl]. cbn [app]. rewrite split_blank_char by congruence.
    rewrite IH by done. by rewrite <- (onto_app [c] l) by apply split_blank_nonempty.
Qed.

Lemma split_blank_lf c s : c <> 10%N -> split_blank (10%N :: c :: s) = onto [10%N] (split_blank (c :: s)).
Proof.
  intros H. cbn [split_blank]. rewrite (proj2 (N.eqb_neq c 10) H). rewrite andb_false_r. done.
Qed.

Definition ended (ls : list str) : str := concat (map (fun l => l ++ [10%N]) ls).
Definition line_ok (l : str) : Prop := l <> [] /\ 10%N ∉ l.

Lemma split_blank_block ls s :
  ls <> [] -> Forall line_ok ls -> split_blank (ended ls ++ 10%N :: s) = join [10%N] ls :: split_blank s.
Proof.
  induction ls as [|l ls IH]; [done|]. intros _ [[Hne Hl] Hls]%Forall_cons.
  unfold ended. cbn [map concat]. rewrite <- !app_assoc. rewrite split_blank_line by done.
  destruct ls as [|l' ls].
  - cbn [map concat app join]. cbn [split_blank]. cbn. by rewrite app_nil_r.
  - cbn [app]. specialize (IH ltac:(done) Hls). unfold ended in IH.
    pose proof (proj1 (Forall_cons _ _ _) Hls) as [[Hne' Hl'] _].
    destruct l' as [|c l']; [done|]. apply not_elem_of_cons in Hl' as [Hc _].
    cbn [map concat app] in IH |- *. rewrite split_blank_lf by congruence. rewrite IH. done.
Qed.

(** *** Lines *)

Lemma lines_from_line l s cur : 10%N ∉ l -> lines_from (l ++ s) cur = lines_from s (cur ++ l).
Proof.
  revert cur. induction l as [|c l IH]; intros cur H; [by rewrite app_nil_r|].
  apply not_elem_of_cons in H as [Hc Hl]. cbn. rewrite (proj2 (N.eqb_neq c 10)) by congruence.
  rewrite IH by done. by rewrite <- app_assoc.
Qed.

Lemma lines_join ls :
  ls <> [] -> Forall (fun l => line_ok l /\ strip_cr l = l) ls -> lines (join [10%N] ls) = ls.
Proof.
  unfold lines. induction ls as [|l ls IH]; [done|]. intros _ [[[Hne Hl] Hcr] Hls]%Forall_cons.
  destruct ls as [|l' ls].
  - cbn [join]. rewrite <- (app_nil_r l) at 1. rewrite lines_from_line by done. cbn. by destruct l.
  - change (join [10%N] (l :: l' :: ls)) with (l ++ [10%N] ++ join [10%N] (l' :: ls)).
    rewrite lines_from_line by done. cbn [app]. cbn [lines_from]. rewrite N.eqb_refl.
    cbn [app]. rewrite Hcr. f_equal. by apply IH.
Qed.

Lemma join_last (ls : list str) l : exists a, join [10%N] (ls ++ [l]) = a ++ l.
Proof.
  induction ls as [|x ls [a IH]]; [by exists []|]. cbn [app].
  destruct (ls ++ [l]) as [|y r] eqn:E; [by destruct ls|].
  exists (x ++ [10%N] ++ a). change (join [10%N] (x :: y :: r)) with (x ++ [10%N] ++ join [10%N] (y :: r)).
  rewrite IH. by rewrite <- !app_assoc.
Qed.

(** *** Events *)

Section Reading.
Context `{EJ : EventJson}.

Definition wire_ok (e : str * list str) : Prop := clean (fst e) /\ snd e <> [] /\ Forall clean (snd e).

Definition label (l d : str) : str := l ++ d.
Definition lines_of (e : str * list str) : list str :=
  label (lit "event: ") (fst e) :: map (label (lit "data: ")) (snd e).

Lemma label_ok (c : N) pre d :
  is_whitespace c = false -> 10%N ∉ c :: pre -> clean d ->
  let l := c :: pre ++ d in line_ok l /\ strip_cr l = l /\ trim l = l.
Proof.
  intros Hc Hpre Hd l. split; [|split].
  - split; [done|]. change l with ((c :: pre) ++ d). rewrite elem_of_app. by intros [H|H]; [|apply Hd].
  - destruct (clean_ends d Hd) as (a & e & -> & He & _). unfold l, strip_cr.
    change (c :: pre ++ a ++ [e]) with ((c :: pre) ++ (a ++ [e])). rewrite app_assoc, rev_app_distr. cbn [rev app].
    destruct (e =? 13)%N eqn:E; [|done]. apply N.eqb_eq in E as ->. done.
  - by apply trim_labelled.
Qed.

Lemma lines_of_ok e : wire_ok e -> Forall (fun l => (line_ok l /\ strip_cr l = l) /\ trim l = l) (lines_of e).
Proof.
  intros (Ht & _ & Hd). constructor.
  - assert (H : 10%N ∉ lit "event: ") by (apply (bool_decide_unpack (10%N ∉ lit "event: ")); by vm_compute).
    destruct (label_ok (chr "e") (lit "vent: ") (fst e) eq_refl H Ht) as (H1 & H2 & H3). done.
  - apply Forall_map. eapply Forall_impl; [exact Hd|]. intros d Hc.
    assert (H : 10%N ∉ lit "data: ") by (apply (bool_decide_unpack (10%N ∉ lit "data: ")); by vm_compute).
    destruct (label_ok (chr "d") (lit "ata: ") d eq_refl H Hc) as (H1 & H2 & H3). done.
Qed.

Lemma event_text_lines e : event_text (fst e) (snd e) = ended (lines_of e) ++ [10%N].
Proof.
  unfold event_text, lines_of, ended, label. cbn [map concat]. rewrite map_map.
  rewrite (map_ext (fun d => lit "data: " ++ d ++ [10%N]) (fun d => (lit "data: " ++ d) ++ [10%N]));
    [by rewrite <- !app_assoc|]. intros d. by rewrite <- app_assoc.
Qed.

Definition read_event (e : str * list str) : result SseError SseEvent :=
  parse_event (Some (fst e)) (join [10%N] (snd e)).

(** The data lines are collected up to the empty line. *)
Lemma parse_data t ds acc :
  Forall clean ds ->
  parse_lines (map (label (lit "data: ")) ds ++ [[]]) (Some t) acc =
  parse_lines [[]] (Some t) (acc ++ ds).
Proof.
  revert acc. induction ds as [|d ds IH]; intros acc H; [by rewrite app_nil_r|].
  apply Forall_cons in H as [Hd Hds]. cbn [map app parse_lines].
  assert (Ht : trim (label (lit "data: ") d) = label (lit "data: ") d) by by apply (trim_labelled (chr "d") (lit "ata: ")).
  rewrite Ht. change (label (lit "data: ") d) with (chr "d" :: lit "ata: " ++ d). cbv iota.
  change (strip_prefix (lit "event:") (chr "d" :: lit "ata: " ++ d)) with (@None str).
  change (strip_prefix (lit "data:") (chr "d" :: lit "ata: " ++ d)) with (Some (32%N :: d)). cbv iota.
  rewrite trim_after_space by done. rewrite IH by done. by rewrite <- app_assoc.
Qed.

Lemma parse_lines_of e : wire_ok e ->
  parse (lines_of e ++ [[]]) = match read_event e with Ok x => Ok (Some x) | Err x => Err x end.
Proof.
  intros (Ht & Hne & Hd). unfold parse, lines_of. cbn [app parse_lines].
  assert (Htr : trim (label (lit "event: ") (fst e)) = label (lit "event: ") (fst e))
    by by apply (trim_labelled (chr "e") (lit "vent: ")).
  rewrite Htr. change (label (lit "event: ") (fst e)) with (chr "e" :: lit "vent: " ++ fst e). cbv iota.
  change (strip_prefix (lit "event:") (chr "e" :: lit "vent: " ++ fst e)) with (Some (32%N :: fst e)). cbv iota.
  rewrite trim_after_space by done. rewrite parse_data by done. cbn.
  unfold read_event. by destruct (snd e).
Qed.

Lemma block_trim e : wire_ok e ->
  exists c r, join [10%N] (lines_of e) = c :: r /\ trim (c :: r) = c :: r.
Proof.
  intros (Ht & Hne & Hd).
  assert (Hlast : exists ds d, snd e = ds ++ [d]).
  { destruct (snd e) as [|d0 ds0 _] using rev_ind; [done|by eexists _, _]. }
  destruct Hlast as (ds & d & E). unfold lines_of. rewrite E in Hd |- *.
  rewrite Forall_app, Forall_singleton in Hd. destruct Hd as [_ Hd].
  rewrite map_app. cbn [map]. rewrite app_comm_cons.
  assert (Hl : exists ls, label (lit "event: ") (fst e) :: map (label (lit "data: ")) ds = ls /\
                          exists a, join [10%N] (ls ++ [label (lit "data: ") d]) = chr "e" :: a ++ d).
  { eexists. split; [done|]. destruct ds as [|d' ds].
    - exists (lit "vent: " ++ fst e ++ [10%N] ++ lit "data: "). cbn [map app join]. unfold label.
      by rewrite <- !app_assoc.
    - destruct (join_last (map (label (lit "data: ")) (d' :: ds)) (label (lit "data: ") d)) as [a Ha].
      exists (lit "vent: " ++ fst e ++ [10%N] ++ a ++ lit "data: "). cbn [map app] in Ha |- *.
      match goal with |- join _ (?x :: ?y :: ?r) = _ =>
        change (join [10%N] (x :: y :: r)) with (x ++ [10%N] ++ join [10%N] (y :: r)) end.
      rewrite Ha. unfold label. rewrite <- !app_assoc. cbn [app]. by rewrite <- app_assoc. }
  destruct Hl as (ls & -> & a & Ha). exists (chr "e"), (a ++ d). split; [done|].
  by apply trim_labelled.
Qed.

Lemma parse_blocks_event e rest : wire_ok e ->
  parse_blocks (join [10%N] (lines_of e) :: rest) =
  (x ← read_event e; xs ← parse_blocks rest; Ok (x :: xs)).
Proof.
  intros He. cbn [parse_blocks]. destruct (block_trim e He) as (c & r & Hj & Htr).
  rewrite Hj, Htr, <- Hj, lines_join, parse_lines_of; [|done|done|].
  - by destruct (read_event e).
  - eapply Forall_impl; [by apply lines_of_ok|]. by intros l [? _].
Qed.

(** The text of a sequence of events. *)
Definition stream_text (es : list (str * list str)) : str :=
  concat (map (fun e => event_text (fst e) (snd e)) es).

Fixpoint read_all (es : list (str * list str)) : result SseError (list SseEvent) :=
  match es with
  | [] => Ok []
  | e :: rest => x ← read_event e; xs ← read_all rest; Ok (x :: xs)
  end.

Lemma parse_stream_text es : Forall wire_ok es -> parse_blocks (split_blank (stream_text es)) = read_all es.
Proof.
  induction es as [|e es IH]; [done|]. intros [He Hes]%Forall_cons.
  unfold stream_text. cbn [map concat]. rewrite event_text_lines, <- app_assoc. cbn [app].
  rewrite split_blank_block; [|done|].
  - rewrite parse_blocks_event by done. cbn [read_all]. by rewrite <- IH.
  - eapply Forall_impl; [by apply lines_of_ok|]. by intros l [[? _] _].
Qed.

(** A stream of well-formed events is read event by event, the data lines of each
    joined; the first event whose data does not decode makes the whole stream an
    error. *)
Theorem sse_stream_reads es :
  Forall wire_ok es -> Forall scalar_value (stream_text es) ->
  parse_sse_stream (utf8 (stream_text es)) = read_all es.
Proof.
  intros H Hs. unfold parse_sse_stream. rewrite from_utf8_lossy_utf8 by done. by apply parse_stream_text.
Qed.

Lemma message_scalar texts :
  Forall (fun t => clean t /\ Forall scalar_value t) texts ->
  Forall scalar_value (stream_text (map (fun t => (lit "message", [t])) texts)).
Proof.
  induction texts as [|t texts IH]; intros H; [constructor|]. apply Forall_cons in H as [[_ Ht] H].
  unfold stream_text in *. cbn [map concat fst snd]. apply Forall_app_2; [|by apply IH].
  unfold event_text. cbn [map concat]. repeat first [apply Forall_app_2|done]; repeat constructor; left; by vm_compute.
Qed.

(** What the dashboard's own server sends is not what its client understands: the
    type of every event is [message], so each is read as unknown, with the JSON of
    the event as its data. *)
Theorem own_events_unknown (es : list SseEvent) (texts : list str) :
  Forall2 (fun e t => ej_text e = Ok t /\ clean t /\ Forall scalar_value t) es texts ->
  parse_sse_stream (utf8 (concat (map (fun e => sse_item (Received e)) es))) =
    Ok (map (Unknown (lit "message")) texts).
Proof.
  intros H.
  assert (Ht : concat (map (fun e => sse_item (Received e)) es) =
               stream_text (map (fun t => (lit "message", [t])) texts)).
  { unfold stream_text. induction H as [|e t es texts (He & _) _ IH]; [done|]. cbn [map concat].
    rewrite IH. cbn. by rewrite He. }
  assert (Hok : Forall (fun t => clean t /\ Forall scalar_value t) texts).
  { clear Ht. induction H as [|e t es texts (_ & Hc) _ IH]; by constructor. }
  rewrite Ht. unfold parse_sse_stream. rewrite from_utf8_lossy_utf8 by (by apply message_scalar).
  rewrite parse_stream_text.
  - clear. induction texts as [|t texts IH]; [done|]. cbn [map read_all]. by rewrite IH.
  - apply Forall_map. eapply Forall_impl; [exact Hok|]. intros t [Hc _].
    split; [|split; [done|by apply Forall_singleton]]. split; [done|].
    split; [reflexivity|]. apply (bool_decide_unpack (10%N ∉ lit "message")). by vm_compute.
Qed.
End Reading.
End EventFacts.

(** ** Concrete streams *)

Module Demo.
Import EventFacts.

(** Decoders that take the whole text for the identifier. *)
#[export] Instance text_json : EventJson := {|
  ej_created := fun t => Ok (t, [], []);
  ej_terminated := fun t => if starts_with (lit "{") t then Ok (t, None) else Err (lit "expected value");
  ej_status := fun t => Ok (t, [], []);
  ej_metrics := fun t => Ok (t, S754_zero false, 0%Z);
  ej_pool := fun t => Ok (t, [], None);
  ej_text := fun e => match e with SandboxTerminated id _ => Ok (lit "{" ++ id) | _ => Err [] end
|}.

Lemma clean_text (s : str) : bool_decide (s <> [] /\ trim s = s /\ 10%N ∉ s) = true -> clean s.
Proof. by intros H%bool_decide_eq_true. Qed.

Lemma ascii_scalar (s : str) : forallb (fun c => (c <? 128)%N) s = true -> Forall scalar_value s.
Proof.
  intros H. apply Forall_forall. intros c Hc. rewrite forallb_forall in H.
  left. specialize (H c (proj1 (list_elem_of_In _ _) Hc)). apply N.ltb_lt in H. lia.
Qed.

Definition two_events : list (str * list str) :=
  [(lit "sandbox_created", [lit "one"]); (lit "pool_event", [lit "two"; lit "lines"])].

Lemma sse_stream_reads_witness :
  parse_sse_stream (utf8 (stream_text two_events)) =
    Ok [SandboxCreated (lit "one") [] []; PoolEvent (lit "two" ++ [10%N] ++ lit "lines") [] None].
Proof.
  refine (sse_stream_reads two_events _ (ascii_scalar (stream_text two_events) _)); [|reflexivity].
  repeat constructor; first [by apply clean_text|done].
Defined.

Lemma own_events_unknown_witness :
  parse_sse_stream (utf8 (concat (map (fun e => sse_item (Received e)) [SandboxTerminated (lit "sb}") None]))) =
    Ok [Unknown (lit "message") (lit "{sb}")].
Proof.
  refine (own_events_unknown [SandboxTerminated (lit "sb}") None] [lit "{sb}"] _).
  repeat constructor; first [by apply clean_text|by apply ascii_scalar|left; by vm_compute|done].
Defined.

(** With the line ends of the specification's other form only the first event of
    a stream is seen. *)
Example crlf_ex :
  let crlf t d := lit "event: " ++ t ++ [13; 10]%N ++ lit "data: " ++ d ++ [13; 10; 13; 10]%N in
  parse_sse_stream (utf8 (crlf (lit "sandbox_created") (lit "one") ++ crlf (lit "sandbox_created") (lit "two"))) =
    Ok [SandboxCreated (lit "one") [] []].
Proof. vm_compute. reflexivity. Qed.

Example bad_data_ex :
  parse_sse_stream (utf8 (stream_text (two_events ++ [(lit "sandbox_terminated", [lit "?"])]))) =
    Err (SseParseError (lit "Invalid JSON: expected value")).
Proof. vm_compute. reflexivity. Qed.

(** Comments are skipped, data without a type is dropped. *)
Example comment_ex :
  parse_sse_stream (utf8 (sse_item (Lagged 3%Z) ++ lit "data: x" ++ [10; 10]%N)) = Ok [].
Proof. vm_compute. reflexivity. Qed.
End Demo.
