(* ===== verification/Dashboard.v ===== *)
(** * The dashboard

    Models the client of the gateway's API in [bastion-dashboard/src/api] ([client.rs],
    [types.rs]), the operations of the project manager that call it
    ([project/manager.rs]) and the handlers of the dashboard's own server
    ([server/handlers/*.rs]) with the statuses of their errors ([error.rs]).

    The handlers are written against the class [DashboardApi], which the client
    implements over [Http].  Decoding and encoding of JSON are [ApiJson].  The time
    stamps that the handlers make up are left out. *)

From Stdlib Require Import SpecFloat.
From S2P Require Import Prelude Utf8 Sandbox Orientation Materialize HostProviders Projects Events.

(** ** Types *)

Inductive ApiError :=
| ApiBadRequest (m : str)
| ApiNotFound (m : str)
| ApiInternalError (m : str)
| NetworkError (m : str)
| SerializationError (m : str)
| InvalidResponse (m : str).

Definition show_api_error (e : ApiError) : str :=
  match e with
  | ApiBadRequest m => lit "Bad request: " ++ m
  | ApiNotFound m => lit "Resource not found: " ++ m
  | ApiInternalError m => lit "Internal server error: " ++ m
  | NetworkError m => lit "Network error: " ++ m
  | SerializationError m => lit "Serialization error: " ++ m
  | InvalidResponse m => lit "Invalid response: " ++ m
  end.

(** The status of an error, and its name in the answer. *)
Definition api_error_response (e : ApiError) : Z * str :=
  match e with
  | ApiBadRequest _ => (400%Z, lit "BadRequest")
  | ApiNotFound _ => (404%Z, lit "NotFound")
  | ApiInternalError _ => (500%Z, lit "InternalError")
  | NetworkError _ => (502%Z, lit "NetworkError")
  | SerializationError _ => (400%Z, lit "SerializationError")
  | InvalidResponse _ => (502%Z, lit "InvalidResponse")
  end.

Inductive DashboardError :=
| DashBadRequest (m : str)
| DashNotFound (m : str)
| DashInternalError (m : str).

Definition dashboard_error_response (e : DashboardError) : Z * str :=
  match e with
  | DashBadRequest _ => (400%Z, lit "BadRequest")
  | DashNotFound _ => (404%Z, lit "NotFound")
  | DashInternalError _ => (500%Z, lit "InternalError")
  end.

Record SandboxInfo := mkInfo {
  si_id : str; si_template_id : str; si_provider_id : str; si_status : SandboxStatus;
  si_created_at : str; si_expires_at : option str; si_purpose : option SandboxPurpose;
  si_project_id : option str
}.

Record SandboxDetailResponse := mkDetail {
  sdr_id : str; sdr_template_id : str; sdr_provider_id : str; sdr_status : SandboxStatus;
  sdr_resources : ResourcesSpec; sdr_created_at : str; sdr_expires_at : option str;
  sdr_purpose : option SandboxPurpose; sdr_project_id : option str
}.

Record MetricsResponse := mkMetricsResponse {
  mr_sandbox_id : str; mr_cpu_usage_percent : spec_float; mr_memory_usage_mb : Z; mr_disk_usage_mb : Z;
  mr_network_rx_bytes : Z; mr_network_tx_bytes : Z; mr_timestamp : str
}.

Record SandboxResourcesResponse := mkResourcesResponse {
  srr_sandbox_id : str; srr_resources : ResourcesSpec; srr_cpu_percent : spec_float;
  srr_memory_mb : Z; srr_disk_mb : Z
}.

Record ProjectSandbox := mkProjectSandbox {
  psb_id : str; psb_purpose : SandboxPurpose; psb_status : str; psb_created_at : str
}.

Record CreateSandboxRequest := mkCreateRequest {
  csr_project_id : str; csr_purpose : SandboxPurpose; csr_template_id : option str
}.

Definition CreateSandboxRequest_new (project : str) (p : SandboxPurpose) : CreateSandboxRequest :=
  mkCreateRequest project p None.

(** ** The port *)

Class DashboardApi (W : Type) := {
  list_sandboxes : W -> result ApiError (list SandboxInfo) * W;
  list_sandboxes_for_project : str -> W -> result ApiError (list ProjectSandbox) * W;
  api_get_sandbox : str -> W -> result ApiError SandboxDetailResponse * W;
  get_metrics : str -> W -> result ApiError MetricsResponse * W;
  get_sandbox_resources : str -> W -> result ApiError SandboxResourcesResponse * W;
  subscribe_events : W -> result ApiError (list SseEvent) * W;
  api_create_sandbox : CreateSandboxRequest -> W -> result ApiError ProjectSandbox * W;
  api_terminate_sandbox : str -> W -> result ApiError unit * W
}.

(** ** The client *)

Inductive http_method := GET | POST | DELETE.
Record http_response := mkHttp { hr_status : Z; hr_body : bytes }.

Class Http (W : Type) := {
  (** A request with its body and its [Accept] header; a body that arrives whole. *)
  http_send : http_method -> str -> option str -> option str -> W -> result str http_response * W;
  (** [StatusCode] as text. *)
  status_text : Z -> str
}.

Class ApiJson := {
  aj_list : bytes -> result str (list SandboxInfo);
  aj_detail : bytes -> result str SandboxDetailResponse;
  aj_metrics : bytes -> result str MetricsResponse;
  aj_resources : bytes -> result str SandboxResourcesResponse;
  aj_created : bytes -> result str ProjectSandbox;
  aj_request : CreateSandboxRequest -> str
}.

Definition DEFAULT_BASE_URL : str := lit "http://localhost:8080/api/v1".

Definition is_success (status : Z) : bool := (200 <=? status)%Z && (status <? 300)%Z.

Section Client.
Context {W : Type} `{HTTP : !Http W} `{AJ : ApiJson} `{EJ : EventJson}.

Record DashboardApiClient := mkClient { base_url : str }.
Definition DashboardApiClient_default : DashboardApiClient := mkClient DEFAULT_BASE_URL.

Definition refused (path : str) (status : Z) : ApiError :=
  if (status =? 404)%Z then ApiNotFound (lit "Resource not found: " ++ path)
  else ApiInternalError (lit "Request failed with status: " ++ status_text status).

Definition decode_body {A} (decode : bytes -> result str A) (body : bytes) : result ApiError A :=
  map_err (fun e => InvalidResponse (lit "JSON parse error: " ++ e)) (decode body).

Definition client_get {A} (c : DashboardApiClient) (decode : bytes -> result str A) (path : str) (w : W) :
    result ApiError A * W :=
  match http_send GET (base_url c ++ path) None None w with
  | (Err e, w) => (Err (NetworkError e), w)
  | (Ok r, w) =>
      if is_success (hr_status r) then (decode_body decode (hr_body r), w)
      else (Err (refused path (hr_status r)), w)
  end.

Definition client_post {A} (c : DashboardApiClient) (decode : bytes -> result str A) (path body : str) (w : W) :
    result ApiError A * W :=
  match http_send POST (base_url c ++ path) (Some body) None w with
  | (Err e, w) => (Err (NetworkError e), w)
  | (Ok r, w) =>
      if is_success (hr_status r) then (decode_body decode (hr_body r), w)
      else if (hr_status r =? 400)%Z then (Err (ApiBadRequest (lit "Bad request: " ++ path)), w)
      else (Err (refused path (hr_status r)), w)
  end.

Definition client_delete (c : DashboardApiClient) (path : str) (w : W) : result ApiError unit * W :=
  match http_send DELETE (base_url c ++ path) None None w with
  | (Err e, w) => (Err (NetworkError e), w)
  | (Ok r, w) => (if is_success (hr_status r) then Ok tt else Err (refused path (hr_status r)), w)
  end.

Definition subscribe_sse (c : DashboardApiClient) (path : str) (w : W) : result ApiError (list SseEvent) * W :=
  match http_send GET (base_url c ++ path) None (Some (lit "text/event-stream")) w with
  | (Err e, w) => (Err (NetworkError e), w)
  | (Ok r, w) =>
      (if is_success (hr_status r) then
         map_err (fun e => InvalidResponse (lit "SSE parse error: " ++ show_sse_error e))
           (parse_sse_stream (hr_body r))
       else Err (ApiInternalError (lit "SSE request failed with status: " ++ status_text (hr_status r))), w)
  end.

Definition sandbox_path (id : str) : str := lit "/sandboxes/" ++ id.

Definition project_sandbox_of (i : SandboxInfo) : ProjectSandbox :=
  mkProjectSandbox (si_id i) (default AdHocTest (si_purpose i)) (status_display (si_status i)) (si_created_at i).

Definition client_api (c : DashboardApiClient) : DashboardApi W := {|
  list_sandboxes := client_get c aj_list (lit "/sandboxes");
  list_sandboxes_for_project := fun project w =>
    let '(r, w) := client_get c aj_list (lit "/projects/" ++ project ++ lit "/sandboxes") w in
    (map project_sandbox_of <$> r, w);
  api_get_sandbox := fun id => client_get c aj_detail (sandbox_path id);
  get_metrics := fun id => client_get c aj_metrics (sandbox_path id ++ lit "/metrics");
  get_sandbox_resources := fun id => client_get c aj_resources (sandbox_path id ++ lit "/resources");
  subscribe_events := subscribe_sse c (lit "/events");
  api_create_sandbox := fun request => client_post c aj_created (lit "/sandboxes") (aj_request request);
  api_terminate_sandbox := fun id => client_delete c (sandbox_path id)
|}.
End Client.

(** ** The manager's calls *)

Section Handlers.
Context {W : Type} `{API : DashboardApi W} `{HOST : !HostFs W} `{PFS : !ProjectFs W} `{PT : ProjectToml}
  `{SJ : StateJson} `{CH : Chrono} `{LOWER : Lowercase}.

Definition api_error_text (e : ApiError) : str := lit "API error: " ++ show_api_error e.

Definition get_project_sandboxes (project : str) (w : W) : result ProjectError (list ProjectSandbox) * W :=
  let '(r, w) := list_sandboxes_for_project project w in
  (map_err (fun e => ProjectNotFound (api_error_text e)) r, w).

Definition manager_create_sandbox (project : str) (purpose : SandboxPurpose) (w : W) :
    result ProjectError ProjectSandbox * W :=
  let '(r, w) := api_create_sandbox (CreateSandboxRequest_new project purpose) w in
  (map_err (fun e => ProjectInitFailed (api_error_text e)) r, w).

Definition manager_terminate_sandbox (id : str) (w : W) : result ProjectError unit * W :=
  let '(r, w) := api_terminate_sandbox id w in
  (map_err (fun e => IoError (api_error_text e)) r, w).

(** ** Handlers: projects *)

(** The fields of a project's answer that do not change from call to call. *)
Record ProjectDetail := mkProjectDetail { pdr_id : str; pdr_name : str; pdr_kind : str }.

Definition kind_to_string (k : ProjectKind) : str := written_kind k.

Definition detail_of_summary (p : ProjectSummary) : ProjectDetail :=
  mkProjectDetail (ps_id p) (ps_name p) (kind_to_string (ps_kind p)).

Definition root : str := lit ".".

Definition handle_list_projects (w : W) : result ApiError (list ProjectDetail) :=
  match list_projects root w with
  | Ok ps => Ok (map detail_of_summary ps)
  | Err e => Err (ApiInternalError (lit "Failed to list projects: " ++ show_project_error e))
  end.

Definition handle_get_project (project_id : str) (w : W) : result ApiError ProjectDetail :=
  match list_projects root w with
  | Err e => Err (ApiInternalError (lit "Failed to list projects: " ++ show_project_error e))
  | Ok ps =>
      match List.find (fun p => str_eqb (ps_id p) project_id) ps with
      | Some p => Ok (detail_of_summary p)
      | None => Err (ApiNotFound (lit "Project not found: " ++ project_id))
      end
  end.

Definition requested_kind (s : str) : ProjectKind :=
  let s := to_lowercase s in
  let named n := str_eqb s n in
  if named (lit "rust") then KindRust
  else if named (lit "nodejs") || named (lit "node") then KindNodeJs
  else if named (lit "python") || named (lit "py") then KindPython
  else if named (lit "go") then KindGo
  else KindGeneric.

(** The path and the kind of the request; the status 201 and the answer. *)
Definition handle_create_project (path kind : str) (now : DateTime) (w : W) :
    result ApiError (Z * ProjectDetail) * W :=
  match init_project path (requested_kind kind) now w with
  | (Ok p, w) => (Ok (201%Z, mkProjectDetail (pj_id p) (pj_name p) (kind_to_string (pj_kind p))), w)
  | (Err e, w) => (Err (ApiInternalError (lit "Failed to create project: " ++ show_project_error e)), w)
  end.

(** ** Handlers: sandboxes *)

(** The status shown is always that of a running sandbox. *)
Definition shown_sandbox (project : str) (s : ProjectSandbox) : SandboxInfo :=
  mkInfo (psb_id s) [] [] Running (psb_created_at s) None (Some (psb_purpose s)) (Some project).

(** The sandboxes and their number. *)
Definition handle_list_project_sandboxes (project : str) (w : W) :
    result ApiError (list SandboxInfo * nat) * W :=
  match get_project_sandboxes project w with
  | (Err e, w) =>
      (Err (ApiInternalError (lit "Failed to list project sandboxes: " ++ show_project_error e)), w)
  | (Ok ss, w) => let infos := map (shown_sandbox project) ss in (Ok (infos, length infos), w)
  end.

Record CreateSandboxBody := mkBody { csb_purpose : str; csb_template_id : option str }.

Definition requested_purpose (s : str) : SandboxPurpose :=
  let s := to_lowercase s in
  let named names := existsb (str_eqb s) names in
  if named [lit "ad_hoc_test"; lit "adhoc"; lit "adhoc_test"] then AdHocTest
  else if named [lit "e2e_test"; lit "e2e"] then E2eTest
  else if named [lit "proof_of_concept"; lit "poc"] then ProofOfConcept
  else if named [lit "real_test"; lit "realtest"] then RealTest
  else if named [lit "pipeline_stage"; lit "pipeline"] then Sandbox.PipelineStage
  else if named [lit "job"] then Job
  else AdHocTest.

Definition handle_create_project_sandbox (project : str) (body : CreateSandboxBody) (w : W) :
    result ApiError (Z * SandboxInfo) * W :=
  match manager_create_sandbox project (requested_purpose (csb_purpose body)) w with
  | (Err e, w) => (Err (ApiInternalError (lit "Failed to create sandbox: " ++ show_project_error e)), w)
  | (Ok s, w) =>
      (Ok (201%Z, mkInfo (psb_id s) (default [] (csb_template_id body)) [] Pending (psb_created_at s) None
                    (Some (psb_purpose s)) (Some project)), w)
  end.

Definition handle_list_all_sandboxes (w : W) : result ApiError (list SandboxInfo * nat) * W :=
  match list_sandboxes w with
  | (Err e, w) => (Err (ApiInternalError (lit "Failed to list sandboxes: " ++ show_api_error e)), w)
  | (Ok ss, w) => (Ok (ss, length ss), w)
  end.

Definition handle_get_sandbox (id : str) (w : W) : result ApiError SandboxDetailResponse * W :=
  match api_get_sandbox id w with
  | (Err (ApiNotFound _), w) => (Err (ApiNotFound (lit "Sandbox not found: " ++ id)), w)
  | (Err e, w) => (Err (ApiInternalError (lit "Failed to get sandbox: " ++ show_api_error e)), w)
  | (Ok s, w) => (Ok s, w)
  end.

(** The status 204. *)
Definition handle_terminate_sandbox (id : str) (w : W) : result ApiError Z * W :=
  match api_terminate_sandbox id w with
  | (Err e, w) => (Err (ApiInternalError (lit "Failed to terminate sandbox: " ++ show_api_error e)), w)
  | (Ok _, w) => (Ok 204%Z, w)
  end.

(** ** Handlers: metrics, pipelines and the state of the dashboard *)

(** The metrics of those sandboxes for which there are any. *)
Fixpoint collect_metrics (ids : list str) (w : W) : list MetricsResponse * W :=
  match ids with
  | [] => ([], w)
  | id :: rest =>
      let '(r, w) := get_metrics id w in
      let '(ms, w) := collect_metrics rest w in
      (match r with Ok m => m :: ms | Err _ => ms end, w)
  end.

Definition handle_global_metrics (w : W) : result ApiError (list MetricsResponse * nat) * W :=
  match list_sandboxes w with
  | (Err e, w) => (Err (ApiInternalError (lit "Failed to list sandboxes: " ++ show_api_error e)), w)
  | (Ok ss, w) => let '(ms, w) := collect_metrics (map si_id ss) w in (Ok (ms, length ms), w)
  end.

Definition handle_project_metrics (project : str) (w : W) : result ApiError (list MetricsResponse * nat) * W :=
  match get_project_sandboxes project w with
  | (Err e, w) =>
      (Err (ApiInternalError (lit "Failed to get project sandboxes: " ++ show_project_error e)), w)
  | (Ok ss, w) => let '(ms, w) := collect_metrics (map psb_id ss) w in (Ok (ms, length ms), w)
  end.

(** The identifier of a project is taken for its path. *)
Definition handle_list_pipelines (project : str) (w : W) : result DashboardError (list PipelineDef * nat) :=
  match load_pipelines project w with
  | Ok ps => Ok (ps, length ps)
  | Err e => Err (DashInternalError (lit "Failed to list pipelines: " ++ show_project_error e))
  end.

Definition handle_get_dashboard_state (w : W) : DashboardState :=
  match load_dashboard_state root w with Ok s => s | Err _ => DashboardState_default end.

(** [None] is the panic of [save_dashboard_state]. *)
Definition handle_put_dashboard_state (s : DashboardState) (w : W) :
    option (result DashboardError DashboardState * W) :=
  match save_dashboard_state root s w with
  | None => None
  | Some (Ok _, w) => Some (Ok s, w)
  | Some (Err e, w) =>
      Some (Err (DashInternalError (lit "Failed to save dashboard state: " ++ show_project_error e)), w)
  end.

(** The status a handler answers with, where the handler names none it is 200. *)
Definition status_of {A} (ok : Z) (r : result ApiError A) : Z :=
  match r with Ok _ => ok | Err e => fst (api_error_response e) end.
End Handlers.

(** ** What the dashboard promises *)

(** The names of [#[serde(rename_all = "snake_case")]]. *)
Definition purpose_name (p : SandboxPurpose) : str :=
  match p with
  | AdHocTest => lit "ad_hoc_test" | ProofOfConcept => lit "proof_of_concept" | E2eTest => lit "e2e_test"
  | RealTest => lit "real_test" | Sandbox.PipelineStage => lit "pipeline_stage" | Job => lit "job"
  end.

(** Entries are listed with the directory before their name. *)
Class ReadDirLaws (W : Type) `{PFS : ProjectFs W} :=
  law_read_dir : forall p w l q, pf_read_dir p w = Ok l -> Ok q ∈ l ->
    exists name, q = path_join p name /\ name <> [] /\ slash ∉ name.

Module DashboardFacts.

Section Names.
Context `{LOWER : Lowercase}.

Definition lower_ascii (c : char) : bool := (c <? 128)%N && negb (is_ascii_uppercase c).

(** Every name a purpose or a kind has elsewhere is understood in a request, but
    for the serialized name of the NodeJs kind, which makes a generic project; a
    name that is not understood is no error. *)
Theorem requested_names
    (HL : forall s, Forall (fun c => lower_ascii c = true) s -> to_lowercase s = s) :
  (forall p, requested_purpose (purpose_name p) = p /\ requested_purpose (billing_tag p) = p) /\
  (forall k, requested_kind (written_kind k) = k) /\
  (forall k, requested_kind (kind_name k) = if decide (k = KindNodeJs) then KindGeneric else k) /\
  (forall s, Forall (fun c => lower_ascii c = true) s -> (forall p, s <> purpose_name p) ->
     (forall p, s <> billing_tag p) -> requested_purpose s = AdHocTest).
Proof.
  assert (Hl : forall s, forallb lower_ascii s = true -> to_lowercase s = s).
  { intros s H. apply HL, Forall_forall. intros c Hc. rewrite forallb_forall in H.
    by apply H, list_elem_of_In. }
  split; [|split; [|split]].
  - intros p. unfold requested_purpose. split; rewrite Hl; by destruct p.
  - intros k. unfold requested_kind. rewrite Hl; by destruct k.
  - intros k. unfold requested_kind. rewrite Hl; by destruct k.
  - intros s Hs Hn Ht. unfold requested_purpose. rewrite (HL s Hs).
    assert (Hneq : forall p, str_eqb s (purpose_name p) = false /\ str_eqb s (billing_tag p) = false).
    { intros p. split; apply str_eqb_neq; [apply Hn|apply Ht]. }
    cbn [existsb].
    repeat match goal with |- context [str_eqb s ?x] =>
      first [ rewrite (proj1 (Hneq AdHocTest) : str_eqb s x = false)
            | rewrite (proj2 (Hneq AdHocTest) : str_eqb s x = false)
            | rewrite (proj1 (Hneq E2eTest) : str_eqb s x = false)
            | rewrite (proj2 (Hneq E2eTest) : str_eqb s x = false)
            | rewrite (proj1 (Hneq ProofOfConcept) : str_eqb s x = false)
            | rewrite (proj2 (Hneq ProofOfConcept) : str_eqb s x = false)
            | rewrite (proj1 (Hneq RealTest) : str_eqb s x = false)
            | rewrite (proj2 (Hneq RealTest) : str_eqb s x = false)
            | rewrite (proj1 (Hneq Sandbox.PipelineStage) : str_eqb s x = false)
            | rewrite (proj2 (Hneq Sandbox.PipelineStage) : str_eqb s x = false)
            | rewrite (proj1 (Hneq Job) : str_eqb s x = false)
            | destruct (str_eqb s x) ] end; done.
Qed.
End Names.

(** *** Through the client *)

Section Client.
Context {W : Type} `{HTTP : !Http W} `{AJ : ApiJson} `{EJ : EventJson} (c : DashboardApiClient).
#[local] Instance client_port : DashboardApi W := client_api c.

Definition answer_to (m : http_method) (path : str) (w : W) : result str http_response :=
  fst (http_send m (base_url c ++ path) None None w).

(** The status of a request for a sandbox follows from the gateway's: a sandbox
    that does not exist is 404 when it is looked up, but 500 when it is to be
    terminated, and so is every failure of the gateway. *)
Theorem sandbox_statuses id w :
  status_of 200 (fst (handle_get_sandbox id w)) =
    match answer_to GET (sandbox_path id) w with
    | Ok r => if is_success (hr_status r) then (if is_ok (aj_detail (hr_body r)) then 200 else 500)
              else if (hr_status r =? 404)%Z then 404 else 500
    | Err _ => 500
    end%Z /\
  status_of 204 (fst (handle_terminate_sandbox id w)) =
    match answer_to DELETE (sandbox_path id) w with
    | Ok r => if is_success (hr_status r) then 204 else 500
    | Err _ => 500
    end%Z.
Proof.
  split; unfold handle_get_sandbox, handle_terminate_sandbox, answer_to; simpl;
    unfold client_get, client_delete.
  - destruct (http_send GET _ None None w) as [[r|e] w']; [|done]. cbn [fst].
    destruct (is_success (hr_status r)).
    + unfold decode_body. by destruct (aj_detail (hr_body r)).
    + unfold refused. by destruct (hr_status r =? 404)%Z.
  - destruct (http_send DELETE _ None None w) as [[r|e] w']; [|done]. cbn [fst].
    by destruct (is_success (hr_status r)).
Qed.

(** The listing of a project's sandboxes has those of the gateway in its order, but
    shows each as running, without its template, its provider and its expiry. *)
Theorem project_sandboxes_shown project w :
  fst (handle_list_project_sandboxes project w) =
    match answer_to GET (lit "/projects/" ++ project ++ lit "/sandboxes") w with
    | Err e => Err (ApiInternalError (lit "Failed to list project sandboxes: Project not found: API error: Network error: " ++ e))
    | Ok r =>
        if is_success (hr_status r) then
          match aj_list (hr_body r) with
          | Ok infos =>
              Ok (map (fun i => mkInfo (si_id i) [] [] Running (si_created_at i) None
                                  (Some (default AdHocTest (si_purpose i))) (Some project)) infos, length infos)
          | Err e => Err (ApiInternalError
              (lit "Failed to list project sandboxes: Project not found: API error: Invalid response: JSON parse error: " ++ e))
          end
        else Err (ApiInternalError (lit "Failed to list project sandboxes: Project not found: API error: " ++
               show_api_error (refused (lit "/projects/" ++ project ++ lit "/sandboxes") (hr_status r))))
    end.
Proof.
  unfold handle_list_project_sandboxes, get_project_sandboxes, answer_to.
  cbn [list_sandboxes_for_project client_port client_api]. unfold client_get.
  set (path := lit "/projects/" ++ project ++ lit "/sandboxes").
  destruct (http_send GET (base_url c ++ path) None None w) as [[r|e] w']; [|reflexivity]. cbn [fst].
  destruct (is_success (hr_status r)); [|reflexivity].
  unfold decode_body. destruct (aj_list (hr_body r)) as [infos|e]; [|reflexivity].
  simpl. rewrite map_map, !length_map. reflexivity.
Qed.

End Client.

(** *** Over any port *)

Section Port.
Context {W : Type} `{API : DashboardApi W} `{HOST : !HostFs W} `{PFS : !ProjectFs W} `{PT : ProjectToml}
  `{SJ : StateJson} `{CH : Chrono} `{LOWER : Lowercase}.

Definition with_template (t : str) (x : Z * SandboxInfo) : Z * SandboxInfo :=
  let '(st, i) := x in
  (st, mkInfo (si_id i) t (si_provider_id i) (si_status i) (si_created_at i) (si_expires_at i)
         (si_purpose i) (si_project_id i)).

(** The template of a request to create a sandbox is repeated in the answer, but
    never reaches the gateway: with and without it the same is asked. *)
Theorem template_not_sent project p t w :
  handle_create_project_sandbox project (mkBody p (Some t)) w =
    (with_template t <$> fst (handle_create_project_sandbox project (mkBody p None) w),
     snd (handle_create_project_sandbox project (mkBody p None) w)).
Proof.
  unfold handle_create_project_sandbox. cbn [csb_purpose csb_template_id].
  by destruct (manager_create_sandbox project (requested_purpose p) w) as [[s|e] w'].
Qed.

(** A sandbox whose metrics cannot be read is left out; none of them fails the
    request. *)
Lemma collect_metrics_length ids w : length (fst (collect_metrics ids w)) <= length ids.
Proof.
  revert w. induction ids as [|id ids IH]; intros w; [done|]. cbn.
  destruct (get_metrics id w) as [r w1]. specialize (IH w1).
  destruct (collect_metrics ids w1) as [ms w2]. cbn in *. destruct r; cbn; lia.
Qed.

(** *** Projects by their identifier *)

Section Listing.
Context `{RD : !ReadDirLaws W}.

Definition dot_slash : str := lit "./".

Lemma join_slash name : name <> [] -> slash ∉ name -> starts_with [chr "/"] name = false.
Proof.
  destruct name as [|c name]; [done|]. intros _ H. apply not_elem_of_cons in H as [H _].
  cbn. rewrite andb_true_r. by apply N.eqb_neq.
Qed.

Lemma listed_in_root l q w : pf_read_dir root w = Ok l -> Ok q ∈ l -> starts_with dot_slash q = true.
Proof.
  intros Hl Hq. destruct (law_read_dir _ _ _ _ Hl Hq) as (name & -> & Hne & Hs).
  unfold path_join. rewrite (join_slash name Hne Hs). done.
Qed.

Lemma listed_below l p q w : starts_with dot_slash p = true ->
  pf_read_dir p w = Ok l -> Ok q ∈ l -> starts_with dot_slash q = true.
Proof.
  intros Hp Hl Hq. destruct (law_read_dir _ _ _ _ Hl Hq) as (name & -> & Hne & Hs).
  unfold path_join. rewrite (join_slash name Hne Hs). apply starts_with_spec in Hp as [r ->].
  destruct (rev (dot_slash ++ r)) as [|c rr] eqn:E.
  { by apply (f_equal length) in E; rewrite length_rev in E. }
  destruct (c =? chr "/")%N; [rewrite <- app_assoc|rewrite <- app_assoc]; apply starts_with_app.
Qed.

Lemma found_project project_id w d :
  handle_get_project project_id w = Ok d ->
  starts_with dot_slash project_id = true /\
  exists m, extract_metadata project_id w = Ok m /\
    d = mkProjectDetail project_id (md_name m) (kind_to_string (md_kind m)).
Proof.
  unfold handle_get_project. destruct (list_projects root w) as [ps|e] eqn:El; [|done].
  destruct (List.find _ ps) as [p|] eqn:Ef; [|done]. intros [= <-].
  apply find_some in Ef as [Hin Heq%str_eqb_eq]. apply list_elem_of_In in Hin.
  destruct (ProjectFacts.list_projects_elem _ _ _ El) as (entries & Hr & Hall).
  apply Hall in Hin as (dir & q & m & Hd & _ & Hq & _ & Hm & ->). cbn in Heq. subst q.
  split; [|by exists m]. destruct Hq as [->|(subs & Hs & Hq & _)]; [by eapply listed_in_root|].
  eapply listed_below; [|exact Hs|exact Hq]. by eapply listed_in_root.
Qed.

(** A project in an entry of the current directory is found. *)
Lemma listed_found path entries w m :
  pf_read_dir root w = Ok entries -> Ok path ∈ entries -> pf_is_dir path w = true ->
  path_exists (bastion_dir path) w = true -> extract_metadata path w = Ok m ->
  handle_get_project path w = Ok (mkProjectDetail path (md_name m) (kind_to_string (md_kind m))).
Proof.
  intros Hr Hin Hdir He Hm.
  assert (Hl : exists l, list_projects root w = Ok l) by (unfold list_projects; rewrite Hr; by eexists).
  destruct Hl as [l Hl]. destruct (ProjectFacts.list_projects_elem _ _ _ Hl) as (es & Hr2 & Hall).
  rewrite Hr in Hr2. injection Hr2 as <-.
  assert (Hs : mkSummary path (md_name m) path (md_kind m) 0 ∈ l).
  { apply Hall. exists path, path, m. repeat split; auto. }
  destruct (handle_get_project path w) as [d|e] eqn:Ed.
  - apply found_project in Ed as (_ & m2 & Hm2 & ->). rewrite Hm in Hm2. by injection Hm2 as <-.
  - unfold handle_get_project in Ed. rewrite Hl in Ed.
    destruct (List.find _ l) as [x|] eqn:Ef; [done|].
    pose proof (find_none _ _ Ef _ (proj1 (list_elem_of_In _ _) Hs)) as Hf. cbn in Hf.
    by rewrite str_eqb_refl in Hf.
Qed.

Section Create.
Context `{HL : !HostLaws W} `{PL : !ProjectFsLaws W} `{TL : !ProjectTomlLaws}.

Lemma create_project_leaves path kind now w st d w' :
  handle_create_project path kind now w = (Ok (st, d), w') ->
  exists p, init_project path (requested_kind kind) now w = (Ok p, w') /\ st = 201%Z /\
    d = mkProjectDetail path (pj_name p) (kind_to_string (requested_kind kind)).
Proof.
  unfold handle_create_project. destruct (init_project path (requested_kind kind) now w) as [[p|e] w1] eqn:E; [|done].
  intros [= <- <- <-]. exists p. split; [done|]. split; [done|].
  destruct (ProjectFacts.init_project_leaves _ _ _ _ _ _ E) as (Hp & _ & _). by rewrite Hp.
Qed.

(** The identifier of a project that was created is its path, but projects are
    looked up by the paths of a listing of the current directory: unless the path
    starts with ./ the project is never found under its own identifier.  Where it
    does, and is listed, it is found as it was created, but for NodeJs. *)
Theorem create_then_get path kind now w st d w' :
  handle_create_project path kind now w = (Ok (st, d), w') ->
  Forall (fun c => plain_char c = true) (pdr_name d) -> Forall scalar_value (pdr_name d) ->
  pdr_id d = path /\
  (starts_with dot_slash path = false -> forall w2, is_ok (handle_get_project (pdr_id d) w2) = false) /\
  (forall entries, pf_read_dir root w' = Ok entries -> Ok path ∈ entries -> pf_is_dir path w' = true ->
     if decide (requested_kind kind = KindNodeJs) then is_ok (handle_get_project path w') = false
     else handle_get_project path w' = Ok d).
Proof.
  intros Hc Hp Hs. destruct (create_project_leaves _ _ _ _ _ _ _ Hc) as (p & Hi & -> & ->).
  cbn [pdr_id pdr_name] in *. split; [done|]. split.
  - intros Hd w2. destruct (handle_get_project path w2) as [d2|e] eqn:E; [|done].
    apply found_project in E as [Hd2 _]. congruence.
  - intros entries Hr Hin Hdir.
    pose proof (ProjectFacts.init_project_reads _ _ _ _ _ _ Hi Hp Hs) as Hm.
    destruct (ProjectFacts.init_project_leaves _ _ _ _ _ _ Hi) as (_ & He & _).
    case_decide as Hk.
    + destruct (handle_get_project path w') as [d2|e] eqn:E; [|done].
      apply found_project in E as (_ & m & Hm2 & _). rewrite Hk in Hm. congruence.
    + apply (listed_found path entries w' (mkMetadata path (pj_name p) (requested_kind kind))); auto.
      by destruct (requested_kind kind).
Qed.
End Create.
End Listing.
End Port.
End DashboardFacts.

(** ** A concrete dashboard *)

Module Demo.
Import Projects.Demo.
#[local] Existing Instance Z_chrono.
#[local] Existing Instance ascii_lowercase.

#[export] Instance disk_read_dir : ReadDirLaws disk.
Proof.
  intros p d l q [= <-] H. apply list_elem_of_omap in H as (x & _ & Hx). unfold entry_of in Hx.
  destruct (path_file_name x) as [n|]; [|done]. case_bool_decide as Hn; [|done].
  destruct (str_eqb (path_join p n) x) eqn:E; [|done]. injection Hx as <-.
  apply str_eqb_eq in E as <-. exists n. tauto.
Qed.

(** A gateway with one sandbox, that is reached from any world. *)
#[export] Instance one_sandbox : Http disk := {|
  http_send := fun m url _ _ d =>
    (Ok (mkHttp (if str_eqb url (DEFAULT_BASE_URL ++ lit "/sandboxes/sb") then 200
                 else if str_contains url (lit "/projects/") then 200 else 404)%Z (lit "sb")), d);
  status_text := show_Z
|}.

Definition info (id : str) : SandboxInfo :=
  mkInfo id (lit "rust") (lit "podman") Paused (lit "now") None None None.

#[export] Instance id_json : ApiJson := {|
  aj_list := fun b => Ok [info b];
  aj_detail := fun b => Ok (mkDetail b (lit "rust") (lit "podman") Paused ResourcesSpec_default (lit "now") None None None);
  aj_metrics := fun b => Ok (mkMetricsResponse b (S754_zero false) 1 2 3 4 (lit "now"));
  aj_resources := fun b => Ok (mkResourcesResponse b ResourcesSpec_default (S754_zero false) 1 2);
  aj_created := fun b => Ok (mkProjectSandbox b Job (lit "pending") (lit "now"));
  aj_request := fun r => csr_project_id r
|}.

#[local] Existing Instance Events.Demo.text_json.
#[local] Instance demo_api : DashboardApi disk := client_api DashboardApiClient_default.

Lemma lower_ascii_id s : Forall (fun c => DashboardFacts.lower_ascii c = true) s -> to_lowercase s = s.
Proof.
  unfold to_lowercase, ascii_lowercase. induction 1 as [|c s Hc _ IH]; [done|]. cbn. rewrite IH.
  unfold DashboardFacts.lower_ascii in Hc. destruct (is_ascii_uppercase c); [|done].
  by rewrite andb_false_r in Hc.
Qed.

Lemma requested_names_witness :
  requested_purpose (lit "e2e") = E2eTest /\ requested_kind (lit "nodejs") = KindNodeJs /\
  requested_kind (lit "node_js") = KindGeneric.
Proof.
  destruct (DashboardFacts.requested_names lower_ascii_id) as (H1 & H2 & H3 & _).
  split; [exact (proj2 (H1 E2eTest))|]. split; [exact (H2 KindNodeJs)|exact (H3 KindNodeJs)].
Defined.

Definition here : disk := mkDisk [lit "./api"] ∅.

(** A project under [./api] is found, one under [api] is not. *)
Lemma create_then_get_witness :
  let made := handle_create_project (lit "./api") (lit "GO") 1%Z here in
  let lost := handle_create_project (lit "api") (lit "GO") 1%Z here in
  handle_get_project (lit "./api") (snd made) = Ok (mkProjectDetail (lit "./api") (lit "api") (lit "go")) /\
  is_ok (handle_get_project (lit "api") (snd lost)) = false.
Proof.
  assert (Hp : Forall (fun c => plain_char c = true) (lit "api")) by (vm_compute; repeat constructor).
  assert (Hs : Forall scalar_value (lit "api")) by by apply ProjectFacts.Forall_scalar_ascii.
  split.
  - refine (proj2 (proj2 (DashboardFacts.create_then_get (lit "./api") (lit "GO") 1%Z here 201%Z
             (mkProjectDetail (lit "./api") (lit "api") (lit "go")) (snd (handle_create_project (lit "./api") (lit "GO") 1%Z here))
             _ Hp Hs)) [Ok (lit "./api")] _ _ _).
    + vm_compute. reflexivity.
    + vm_compute. reflexivity.
    + apply list_elem_of_here.
    + vm_compute. reflexivity.
  - exact (proj1 (proj2 (DashboardFacts.create_then_get (lit "api") (lit "GO") 1%Z here 201%Z
             (mkProjectDetail (lit "api") (lit "api") (lit "go")) _ eq_refl Hp Hs)) eq_refl _).
Defined.

(** A paused sandbox is shown as running; terminating one that is gone is a
    failure of the server. *)
Example shown_ex :
  fst (handle_list_project_sandboxes (lit "p") here) =
    Ok ([mkInfo (lit "sb") [] [] Running (lit "now") None (Some AdHocTest) (Some (lit "p"))], 1) /\
  status_of 204 (fst (handle_terminate_sandbox (lit "gone") here)) = 500%Z /\
  status_of 200 (fst (handle_get_sandbox (lit "gone") here)) = 404%Z /\
  status_of 204 (fst (handle_terminate_sandbox (lit "sb") here)) = 204%Z.
Proof. repeat split. Qed.
End Demo.
