(* ===== verification/Credentials.v ===== *)
(** * Keys and certificates of the gateway

    Models [bastion-gateway/src/auth.rs], the key and the tokens of worker
    sessions, and [bastion-gateway/src/auto_tls.rs], the certificate authority the
    gateway keeps in a directory with its own certificate.  Files are [HostFs] and
    [ImageFs]; the JWT and the certificate libraries are [Jwt] and [Rcgen], chance
    and the clock [Entropy].  An error is the outermost context it carries. *)

From S2P Require Import Prelude Utf8 Fmt UseCases Materialize Images Projects.

(** ** What the libraries do *)

Record SessionClaims := mkClaims {
  sc_sub : str; sc_iat : Z; sc_exp : Z; sc_cap_hash : option str; sc_jti : str
}.

Class Entropy (W : Type) := {
  (** Nanoseconds and seconds since the epoch. *)
  en_nanos : W -> N;
  en_seconds : W -> Z;
  en_random : nat -> W -> bytes * W;
  en_uuid : W -> str * W;
  en_sha256 : bytes -> bytes
}.

Class Jwt := {
  jwt_encode : SessionClaims -> bytes -> result str str;
  (** The default validation, at a number of seconds since the epoch. *)
  jwt_decode : str -> bytes -> Z -> result str SessionClaims
}.

(** The default validation allows for clocks that differ by a minute. *)
Definition leeway : Z := 60.

Class JwtLaws `{JWT : Jwt} := {
  law_valid : forall c k t now, jwt_encode c k = Ok t -> (now <= sc_exp c + leeway)%Z -> jwt_decode t k now = Ok c;
  law_expired : forall c k t now, jwt_encode c k = Ok t -> (sc_exp c + leeway < now)%Z ->
    is_ok (jwt_decode t k now) = false
}.

Inductive SanType := DnsName (n : str) | IpAddress (a b c d : Z).
Inductive KeyUsage := ServerAuth | ClientAuth.

Record CertificateParams := mkParams {
  cp_is_ca : bool; cp_common_name : str; cp_organization : option str;
  cp_not_before : Z; cp_not_after : Z; cp_subject_alt_names : list SanType;
  cp_extended_key_usages : list KeyUsage
}.

Class Rcgen (W : Type) := {
  Certificate : Type;
  KeyPair : Type;
  kp_generate : W -> result str KeyPair * W;
  kp_from_pem : str -> result str KeyPair;
  kp_pem : KeyPair -> str;
  params_from_pem : str -> result str CertificateParams;
  self_signed : CertificateParams -> KeyPair -> result str Certificate;
  (** The subject's parameters and key, the issuer and its key. *)
  signed_by : CertificateParams -> KeyPair -> Certificate -> KeyPair -> result str Certificate;
  cert_pem : Certificate -> str
}.

Definition context {E A} (what : string) (r : result E A) : result str A := map_err (fun _ => lit what) r.

(** ** Sessions *)

Section Sessions.
Context {W : Type} `{HOST : !HostFs W} `{IMG : !ImageFs W} `{ENT : !Entropy W} `{JWT : Jwt}.

Record JwtManager := mkJwtManager { jm_secret : bytes }.

Definition le_bytes (n : nat) (x : N) : bytes :=
  map (fun i => (x / 2 ^ (8 * N.of_nat i)) mod 256)%N (seq 0 n).

Definition hex_encode (bs : bytes) : str := flat_map hex2 bs.

Definition rand_bytes (w : W) : bytes * W := en_random 32 w.

Definition generate_hmac_key (w : W) : str * W :=
  let ts := en_nanos w in
  let '(r, w) := rand_bytes w in
  (hex_encode (en_sha256 (le_bytes 16 ts ++ r)), w).

Definition read_text (path : str) (w : W) : result str str :=
  match host_read path w with
  | Err e => Err e
  | Ok bs => ok_or (from_utf8 bs) (lit "stream did not contain valid UTF-8")
  end.

Definition jwt_key_path (base_dir : str) : str := path_join base_dir (lit "jwt-secret.key").

(** Mode 0600. *)
Definition owner_only : Z := 384.

Definition create_secret (base_dir : str) (w : W) : result str str * W :=
  let '(secret, w) := generate_hmac_key w in
  let '(r, w) := host_mkdirs base_dir w in
  let? (_, w) := (context "Failed to create JWT directory" r, w) in
  let '(r, w) := host_write (jwt_key_path base_dir) (utf8 secret) w in
  let? (_, w) := (context "Failed to write JWT secret" r, w) in
  let? (_, w) := im_set_mode (jwt_key_path base_dir) owner_only w in
  (Ok secret, w).

Definition jwt_init_or_load (base_dir : str) (w : W) : result str JwtManager * W :=
  let? (secret, w) :=
    (if path_exists (jwt_key_path base_dir) w
     then (context "Failed to read JWT secret" (read_text (jwt_key_path base_dir) w), w)
     else create_secret base_dir w) in
  (Ok (mkJwtManager (utf8 secret)), w).

Definition issue (m : JwtManager) (sandbox_id : str) (cap_hash : option str) (w : W) : result str str * W :=
  let now := en_seconds w in
  let '(jti, w) := en_uuid w in
  (context "Failed to encode JWT" (jwt_encode (mkClaims sandbox_id now (now + 3600) cap_hash jti) (jm_secret m)), w).

Definition verify (m : JwtManager) (token : str) (now : Z) : result str SessionClaims :=
  context "Failed to verify JWT" (jwt_decode token (jm_secret m) now).
End Sessions.

(** ** Certificates *)

Section AutoTls.
Context {W : Type} `{HOST : !HostFs W} `{IMG : !ImageFs W} `{ENT : !Entropy W} `{RC : !Rcgen W}.

Record AutoTls := mkAutoTls { tls_base_dir : str; ca_cert_pem : str; ca_key_pem : str; ca_cert : Certificate }.

Definition set_file_permissions (path : str) (mode : Z) (w : W) : result str unit * W :=
  let '(r, w) := im_set_mode path mode w in (context "Failed to set file permissions" r, w).

Definition load_ca_certificate (cert key : str) : result str Certificate :=
  kp ← context "Failed to parse CA key" (kp_from_pem key);
  params ← context "Failed to parse CA certificate" (params_from_pem cert);
  context "Failed to create CA certificate object" (self_signed params kp).

Definition days (n : Z) : Z := n * 86400.

Definition generate_ca (w : W) : result str (str * str * Certificate) * W :=
  let now := en_seconds w in
  let params := mkParams true (lit "Bastion CA") (Some (lit "Bastion")) now (now + days 3650) [] [] in
  let '(r, w) := kp_generate w in
  let? (kp, w) := (context "Failed to generate CA key pair" r, w) in
  (cert ← context "Failed to self-sign CA certificate" (self_signed params kp);
   Ok (cert_pem cert, kp_pem kp, cert), w).

(** A certificate for [params], signed by the authority. *)
Definition issue_cert (params : CertificateParams) (what_key what_cert : string) (ca : Certificate) (ca_key : str)
    (w : W) : result str (str * str) * W :=
  match context "Failed to parse CA key" (kp_from_pem ca_key) with
  | Err e => (Err e, w)
  | Ok issuer =>
      let '(r, w) := kp_generate w in
      let? (kp, w) := (context what_key r, w) in
      (cert ← context what_cert (signed_by params kp ca issuer); Ok (cert_pem cert, kp_pem kp), w)
  end.

Definition gateway_params (now : Z) : CertificateParams :=
  mkParams false (lit "bastion-gateway") (Some (lit "Bastion")) now (now + days 365)
    [DnsName (lit "localhost"); IpAddress 127 0 0 1] [ServerAuth].

Definition generate_gateway_cert (ca : Certificate) (ca_key : str) (w : W) : result str (str * str) * W :=
  issue_cert (gateway_params (en_seconds w)) "Failed to generate gateway key pair"
    "Failed to sign gateway certificate with CA" ca ca_key w.

Definition worker_params (sandbox_id : str) (now : Z) : CertificateParams :=
  mkParams false sandbox_id None now (now + 86400) [] [ClientAuth].

Definition generate_worker_cert (sandbox_id : str) (ca : Certificate) (ca_key : str) (w : W) :
    result str (str * str) * W :=
  issue_cert (worker_params sandbox_id (en_seconds w)) "Failed to generate worker key pair"
    "Failed to sign worker certificate with CA" ca ca_key w.

Definition issue_worker_cert (t : AutoTls) (sandbox_id : str) (w : W) : result str (str * str) * W :=
  generate_worker_cert sandbox_id (ca_cert t) (ca_key_pem t) w.

Definition CA_CERT : str := lit "ca-cert.pem".
Definition CA_KEY : str := lit "ca-key.pem".
Definition GATEWAY_CERT : str := lit "gateway-cert.pem".
Definition GATEWAY_KEY : str := lit "gateway-key.pem".

(** A certificate and its key are written, then their modes set: 0644 and 0600. *)
Definition write_pair (dir cert_file key_file : str) (what_cert what_key : string) (cert key : str) (w : W) :
    result str unit * W :=
  let '(r, w) := host_write (path_join dir cert_file) (utf8 cert) w in
  let? (_, w) := (context what_cert r, w) in
  let '(r, w) := host_write (path_join dir key_file) (utf8 key) w in
  let? (_, w) := (context what_key r, w) in
  let? (_, w) := set_file_permissions (path_join dir cert_file) 420 w in
  set_file_permissions (path_join dir key_file) owner_only w.

Definition both_exist (dir a b : str) (w : W) : bool :=
  path_exists (path_join dir a) w && path_exists (path_join dir b) w.

Definition load_ca (dir : str) (w : W) : result str (str * str * Certificate) :=
  cert ← context "Failed to read CA cert" (read_text (path_join dir CA_CERT) w);
  key ← context "Failed to read CA key" (read_text (path_join dir CA_KEY) w);
  ca ← load_ca_certificate cert key;
  Ok (cert, key, ca).

Definition create_ca (dir : str) (w : W) : result str (str * str * Certificate) * W :=
  let? (ca, w) := generate_ca w in
  let '(cert, key, _) := ca in
  let? (_, w) := write_pair dir CA_CERT CA_KEY "Failed to write CA cert" "Failed to write CA key" cert key w in
  (Ok ca, w).

Definition ensure_gateway_cert (dir : str) (ca : Certificate) (ca_key : str) (w : W) : result str unit * W :=
  if both_exist dir GATEWAY_CERT GATEWAY_KEY w then (Ok tt, w)
  else
    let? (pair, w) := generate_gateway_cert ca ca_key w in
    write_pair dir GATEWAY_CERT GATEWAY_KEY "Failed to write gateway cert" "Failed to write gateway key"
      (fst pair) (snd pair) w.

Definition tls_init_or_load (base_dir : str) (w : W) : result str AutoTls * W :=
  let dir := path_join base_dir (lit "tls") in
  let '(r, w) := host_mkdirs dir w in
  let? (_, w) := (context "Failed to create TLS directory" r, w) in
  let? (ca, w) := (if both_exist dir CA_CERT CA_KEY w then (load_ca dir w, w) else create_ca dir w) in
  let '(cert, key, c) := ca in
  let? (_, w) := ensure_gateway_cert dir c key w in
  (Ok (mkAutoTls dir cert key c), w).

(** The cell that holds the one instance: filled once, not by a failure. *)
Definition init_global (cell : option AutoTls) (base_dir : str) (w : W) : result str AutoTls * option AutoTls * W :=
  match cell with
  | Some t => (Ok t, cell, w)
  | None =>
      match tls_init_or_load base_dir w with
      | (Ok t, w) => (Ok t, Some t, w)
      | (Err e, w) => (Err e, None, w)
      end
  end.

Definition worker_ca_cert_path (t : AutoTls) : str := path_join (tls_base_dir t) CA_CERT.

(** What the server presents, and the authority its clients must be signed by. *)
Record ServerTlsConfig := mkServerTls { st_cert : str; st_key : str; st_client_ca : str }.
(** The authority a worker accepts, and the name it expects. *)
Record ClientTlsConfig := mkClientTls { ct_ca : str; ct_domain_name : str }.

Definition server_config (t : AutoTls) (w : W) : result str ServerTlsConfig :=
  cert ← context "Failed to read gateway cert" (read_text (path_join (tls_base_dir t) GATEWAY_CERT) w);
  key ← context "Failed to read gateway key" (read_text (path_join (tls_base_dir t) GATEWAY_KEY) w);
  Ok (mkServerTls cert key (ca_cert_pem t)).

Definition client_config (t : AutoTls) : ClientTlsConfig := mkClientTls (ca_cert_pem t) (lit "bastion-gateway").
End AutoTls.

(** ** Laws *)

Definition same_files {W} `{HOST : HostFs W} (w w' : W) : Prop :=
  (forall q, host_read q w' = host_read q w) /\ (forall q, path_exists q w' = path_exists q w).

(** Writing a file concerns no other; a new directory holds nothing new; modes,
    chance and the generation of keys leave the files alone. *)
Class KeyLaws (W : Type) `{HOST : HostFs W, IMG : !ImageFs W, ENT : !Entropy W} := {
  law_write_exists : forall p q c w, p <> q -> path_exists q (snd (host_write p c w)) = path_exists q w;
  law_mkdirs_below : forall d name w, name <> [] -> starts_with [chr "/"] name = false ->
    path_exists (path_join d name) (snd (host_mkdirs d w)) = path_exists (path_join d name) w;
  law_mode_same : forall p m w, same_files w (snd (im_set_mode p m w));
  law_random_same : forall n w, same_files w (snd (en_random n w));
  law_sha256_bytes : forall bs, Forall (fun b => (b < 256)%N) (en_sha256 bs)
}.

Class RcgenLaws (W : Type) `{HOST : HostFs W, RC : !Rcgen W} := {
  law_generate_same : forall w, same_files w (snd (kp_generate w));
  law_cert_text : forall c, Forall scalar_value (cert_pem c);
  law_key_text : forall k, Forall scalar_value (kp_pem k)
}.

Module CredentialFacts.

(** What [path_join] puts before a relative name. *)
Definition join_prefix (d : str) : str :=
  match rev d with [] => [] | c :: _ => if (c =? chr "/")%N then d else d ++ [chr "/"] end.

Lemma path_join_prefix d f : starts_with [chr "/"] f = false -> path_join d f = join_prefix d ++ f.
Proof.
  intros H. unfold path_join, join_prefix. rewrite H. destruct (rev d) as [|c r]; [done|].
  destruct (c =? chr "/")%N; [done|]. by rewrite <- app_assoc.
Qed.

Lemma path_join_neq d a b :
  starts_with [chr "/"] a = false -> starts_with [chr "/"] b = false -> a <> b -> path_join d a <> path_join d b.
Proof. intros Ha Hb Hn H. rewrite !path_join_prefix in H by done. by apply app_inv_head in H. Qed.

Lemma context_ok {E A} what (r : result E A) a : context what r = Ok a -> r = Ok a.
Proof. by destruct r; intros [= ->]. Qed.

(** *** Tokens *)

Section Sessions.
Context {W : Type} `{HOST : !HostFs W} `{IMG : !ImageFs W} `{ENT : !Entropy W} `{JWT : Jwt}
  `{HL : !HostLaws W} `{KL : !KeyLaws W} `{JL : !JwtLaws}.

Lemma hex_encode_ascii bs : Forall (fun b => (b < 256)%N) bs -> Forall scalar_value (hex_encode bs).
Proof.
  induction 1 as [|b bs Hb _ IH]; [constructor|]. unfold hex_encode. cbn [flat_map].
  apply Forall_app_2; [|exact IH]. unfold hex2.
  assert (Hd : forall n, (n < 16)%N -> scalar_value (hex_digit n)).
  { intros n Hn. left. unfold hex_digit. destruct (N.ltb_spec n 10); lia. }
  apply Forall_cons. split; [apply Hd, N.Div0.div_lt_upper_bound; lia|].
  apply Forall_singleton, Hd. by apply N.mod_lt.
Qed.

(** A key that was created is in its file. *)
Lemma create_secret_stored base w s w1 :
  create_secret base w = (Ok s, w1) ->
  path_exists (jwt_key_path base) w1 = true /\ read_text (jwt_key_path base) w1 = Ok s.
Proof.
  unfold create_secret. destruct (generate_hmac_key w) as [secret w0] eqn:Eg.
  destruct (host_mkdirs base w0) as [[[]|e] w2]; [|done]. cbn [context map_err and_then].
  pose proof (law_write_read (jwt_key_path base) (utf8 secret) w2) as Hw.
  destruct (host_write (jwt_key_path base) (utf8 secret) w2) as [[[]|e] w3]; [|done]. cbn [context map_err and_then].
  destruct (Hw eq_refl) as [Hr He]. destruct (law_mode_same (jwt_key_path base) owner_only w3) as [Hm1 Hm2].
  destruct (im_set_mode (jwt_key_path base) owner_only w3) as [[[]|e] w4]; [|done]. cbn [and_then].
  intros [= <- <-]. cbn [snd] in *. split; [by rewrite Hm2|]. unfold read_text. rewrite Hm1, Hr.
  rewrite from_utf8_utf8; [done|]. unfold generate_hmac_key in Eg.
  destruct (rand_bytes w) as [r wr]. injection Eg as <- _. apply hex_encode_ascii, law_sha256_bytes.
Qed.

Lemma jwt_init_loads base w m w1 :
  jwt_init_or_load base w = (Ok m, w1) ->
  path_exists (jwt_key_path base) w1 = true /\
  exists s, read_text (jwt_key_path base) w1 = Ok s /\ m = mkJwtManager (utf8 s).
Proof.
  unfold jwt_init_or_load. destruct (path_exists (jwt_key_path base) w) eqn:Ex.
  - destruct (read_text (jwt_key_path base) w) as [s|e] eqn:Er; cbn; [|done].
    intros [= <- <-]. split; [done|]. by exists s.
  - destruct (create_secret base w) as [[s|e] w2] eqn:Ec; cbn; [|done].
    intros [= <- <-]. destruct (create_secret_stored _ _ _ _ Ec) as [He Hr]. split; [done|]. by exists s.
Qed.

(** The key survives a restart: as long as its file is as the first run left it,
    every later run loads the same key.  A token issued under it, before or after,
    is accepted for an hour and the minute that clocks may differ by, and then no
    more; it names its sandbox. *)
Theorem jwt_sessions base w m w1 :
  jwt_init_or_load base w = (Ok m, w1) ->
  (forall w2, host_read (jwt_key_path base) w2 = host_read (jwt_key_path base) w1 ->
     path_exists (jwt_key_path base) w2 = true -> jwt_init_or_load base w2 = (Ok m, w2)) /\
  (forall id cap w3 t w4, issue m id cap w3 = (Ok t, w4) ->
     forall now, if (now <=? en_seconds w3 + 3660)%Z
                 then exists c, verify m t now = Ok c /\ sc_sub c = id /\ sc_cap_hash c = cap
                 else is_ok (verify m t now) = false).
Proof.
  intros H. destruct (jwt_init_loads _ _ _ _ H) as (He & s & Hr & ->). split.
  - intros w2 Hw2 Hex. unfold jwt_init_or_load. rewrite Hex.
    unfold read_text in Hr |- *. rewrite Hw2, Hr. done.
  - intros id cap w3 t w4 Hi now. unfold issue in Hi. destruct (en_uuid w3) as [jti w5].
    injection Hi as Hi _. apply context_ok in Hi. unfold verify. cbn [jm_secret] in *.
    destruct (Z.leb_spec now (en_seconds w3 + 3660)) as [Hn|Hn].
    + rewrite (law_valid _ _ _ now Hi); [|unfold leeway; cbn; lia]. by eexists.
    + pose proof (law_expired _ _ _ now Hi) as Hx. unfold leeway in Hx. cbn in Hx.
      specialize (Hx ltac:(lia)). by destruct (jwt_decode t (utf8 s) now).
Qed.
End Sessions.

(** *** Certificates *)

Section AutoTls.
Context {W : Type} `{HOST : !HostFs W} `{IMG : !ImageFs W} `{ENT : !Entropy W} `{RC : !Rcgen W}
  `{HL : !HostLaws W} `{KL : !KeyLaws W} `{RL : !RcgenLaws W}.

Lemma same_files_trans (a b c : W) : same_files a b -> same_files b c -> same_files a c.
Proof. intros [H1 H2] [H3 H4]. split; intros q; [by rewrite H3, H1|by rewrite H4, H2]. Qed.

Lemma same_read (a b : W) q : same_files a b -> read_text q b = read_text q a.
Proof. intros [H _]. unfold read_text. by rewrite H. Qed.

(** All files but two are the same. *)
Definition same_but (p q : str) (a b : W) : Prop :=
  forall f, f <> p -> f <> q -> host_read f b = host_read f a /\ path_exists f b = path_exists f a.

Lemma write_pair_spec dir a b wc wk cert key w w' :
  starts_with [chr "/"] a = false -> starts_with [chr "/"] b = false -> a <> b ->
  Forall scalar_value cert -> Forall scalar_value key ->
  write_pair dir a b wc wk cert key w = (Ok tt, w') ->
  read_text (path_join dir a) w' = Ok cert /\ read_text (path_join dir b) w' = Ok key /\
  both_exist dir a b w' = true /\ same_but (path_join dir a) (path_join dir b) w w'.
Proof.
  intros Ha Hb Hab Hc Hk. unfold write_pair. set (pa := path_join dir a). set (pb := path_join dir b).
  assert (Hn : pa <> pb) by by apply path_join_neq.
  pose proof (law_write_read pa (utf8 cert) w) as Hwa.
  assert (Hoa : forall f, pa <> f -> host_read f (snd (host_write pa (utf8 cert) w)) = host_read f w /\
                path_exists f (snd (host_write pa (utf8 cert) w)) = path_exists f w)
    by (intros f Hf; split; [by apply law_write_other|by apply law_write_exists]).
  destruct (host_write pa (utf8 cert) w) as [[[]|e] w1]; [|done]. cbn [context map_err and_then fst snd] in *.
  destruct (Hwa eq_refl) as [Hra Hea].
  pose proof (law_write_read pb (utf8 key) w1) as Hwb.
  assert (Hob : forall f, pb <> f -> host_read f (snd (host_write pb (utf8 key) w1)) = host_read f w1 /\
                path_exists f (snd (host_write pb (utf8 key) w1)) = path_exists f w1)
    by (intros f Hf; split; [by apply law_write_other|by apply law_write_exists]).
  destruct (host_write pb (utf8 key) w1) as [[[]|e] w2]; [|done]. cbn [context map_err and_then fst snd] in *.
  destruct (Hwb eq_refl) as [Hrb Heb]. unfold set_file_permissions.
  pose proof (law_mode_same pa 420 w2) as Hm1.
  destruct (im_set_mode pa 420 w2) as [[[]|e] w3]; [|done]. cbn [context map_err and_then fst snd] in *.
  pose proof (law_mode_same pb owner_only w3) as Hm2.
  destruct (im_set_mode pb owner_only w3) as [[[]|e] w4]; [|done]. cbn [context map_err fst snd] in *.
  intros [= <-]. destruct (same_files_trans _ _ _ Hm1 Hm2) as [Sr Se].
  destruct (Hob pa (not_eq_sym Hn)) as [Hra2 Hea2].
  split; [|split; [|split]].
  - unfold read_text. rewrite Sr, Hra2, Hra. by rewrite from_utf8_utf8.
  - unfold read_text. rewrite Sr, Hrb. by rewrite from_utf8_utf8.
  - unfold both_exist. fold pa pb. by rewrite !Se, Hea2, Hea, Heb.
  - intros f Hfa Hfb. rewrite Sr, Se. destruct (Hob f (not_eq_sym Hfb)) as [-> ->]. by apply Hoa.
Qed.

(** The authority was made in a run: self-signed with a key of its own. *)
Definition fresh_ca (cert key : str) (ca : Certificate) : Prop :=
  exists now kp, self_signed (mkParams true (lit "Bastion CA") (Some (lit "Bastion")) now (now + days 3650) [] []) kp
                   = Ok ca /\ cert = cert_pem ca /\ key = kp_pem kp.

(** The pair was signed by the authority. *)
Definition signed_for_gateway (cert key : str) (ca : Certificate) (ca_key : str) : Prop :=
  exists now kp issuer c, kp_from_pem ca_key = Ok issuer /\
    signed_by (gateway_params now) kp ca issuer = Ok c /\ cert = cert_pem c /\ key = kp_pem kp.

Lemma create_ca_spec dir w cert key ca w' :
  create_ca dir w = (Ok (cert, key, ca), w') ->
  fresh_ca cert key ca /\
  read_text (path_join dir CA_CERT) w' = Ok cert /\ read_text (path_join dir CA_KEY) w' = Ok key /\
  both_exist dir CA_CERT CA_KEY w' = true /\ same_but (path_join dir CA_CERT) (path_join dir CA_KEY) w w'.
Proof.
  unfold create_ca, generate_ca. set (params := mkParams true _ _ _ _ _ _).
  pose proof (law_generate_same w) as Hg.
  destruct (kp_generate w) as [[kp|e] w1]; [|done]. cbn [context map_err and_then fst snd] in *.
  destruct (self_signed params kp) as [c|e] eqn:Es; [|done]. cbn.
  destruct (write_pair _ _ _ _ _ (cert_pem c) (kp_pem kp) w1) as [[[]|e] w2] eqn:Ew; [|done]. cbn.
  intros [= <- <- <- <-]. split; [by eexists _, kp|].
  destruct (write_pair_spec dir CA_CERT CA_KEY _ _ _ _ _ _ eq_refl eq_refl ltac:(done)
    (law_cert_text c) (law_key_text kp) Ew) as (H1 & H2 & H3 & H4).
  split; [done|]. split; [done|]. split; [done|]. intros f Hf1 Hf2.
  destruct (H4 f Hf1 Hf2) as [-> ->]. destruct Hg as [Hg1 Hg2]. by rewrite Hg1, Hg2.
Qed.

Lemma ensure_gateway_spec dir ca ca_key w w' :
  ensure_gateway_cert dir ca ca_key w = (Ok tt, w') ->
  (if both_exist dir GATEWAY_CERT GATEWAY_KEY w then w' = w
   else exists cert key, signed_for_gateway cert key ca ca_key /\
     read_text (path_join dir GATEWAY_CERT) w' = Ok cert /\ read_text (path_join dir GATEWAY_KEY) w' = Ok key) /\
  same_but (path_join dir GATEWAY_CERT) (path_join dir GATEWAY_KEY) w w'.
Proof.
  unfold ensure_gateway_cert. destruct (both_exist dir GATEWAY_CERT GATEWAY_KEY w); [by intros [= <-]|].
  unfold generate_gateway_cert, issue_cert.
  destruct (kp_from_pem ca_key) as [issuer|e] eqn:Ei; [|done]. cbn [context map_err].
  pose proof (law_generate_same w) as Hg.
  destruct (kp_generate w) as [[kp|e] w1]; [|done]. cbn [context map_err and_then fst snd] in *.
  destruct (signed_by (gateway_params (en_seconds w)) kp ca issuer) as [c|e] eqn:Es; [|done]. cbn [mbind result_bind context map_err and_then fst snd].
  intros Ew.
  destruct (write_pair_spec dir GATEWAY_CERT GATEWAY_KEY _ _ _ _ _ _ eq_refl eq_refl ltac:(done)
    (law_cert_text c) (law_key_text kp) Ew) as (H1 & H2 & H3 & H4).
  split; [exists (cert_pem c), (kp_pem kp); split; [by exists (en_seconds w), kp, issuer, c|done]|].
  intros f Hf1 Hf2. destruct (H4 f Hf1 Hf2) as [-> ->]. destruct Hg as [Hg1 Hg2]. by rewrite Hg1, Hg2.
Qed.

Lemma load_ca_spec dir w cert key ca :
  load_ca dir w = Ok (cert, key, ca) ->
  read_text (path_join dir CA_CERT) w = Ok cert /\ read_text (path_join dir CA_KEY) w = Ok key.
Proof.
  unfold load_ca. destruct (read_text (path_join dir CA_CERT) w) as [c|e]; [|done].
  destruct (read_text (path_join dir CA_KEY) w) as [k|e]; [|done]. simpl.
  destruct (load_ca_certificate c k) as [x|e]; [|done]. simpl. by intros [= -> -> _].
Qed.

Lemma ca_gateway_apart dir a b :
  a ∈ [CA_CERT; CA_KEY] -> b ∈ [GATEWAY_CERT; GATEWAY_KEY] -> path_join dir a <> path_join dir b.
Proof.
  intros Ha Hb. rewrite !elem_of_cons, elem_of_nil in Ha, Hb.
  apply path_join_neq; destruct Ha as [->|[->|[]]], Hb as [->|[->|[]]]; done.
Qed.

Lemma same_but_ca_gateway dir w w1 :
  same_but (path_join dir CA_CERT) (path_join dir CA_KEY) w w1 ->
  both_exist dir GATEWAY_CERT GATEWAY_KEY w1 = both_exist dir GATEWAY_CERT GATEWAY_KEY w /\
  host_read (path_join dir GATEWAY_CERT) w1 = host_read (path_join dir GATEWAY_CERT) w /\
  host_read (path_join dir GATEWAY_KEY) w1 = host_read (path_join dir GATEWAY_KEY) w.
Proof.
  intros H.
  assert (Ha : forall a b, a ∈ [CA_CERT; CA_KEY] -> b ∈ [GATEWAY_CERT; GATEWAY_KEY] -> path_join dir b <> path_join dir a)
    by (intros a b Hx Hy; apply not_eq_sym; by apply ca_gateway_apart).
  assert (M1 : CA_CERT ∈ [CA_CERT; CA_KEY]) by apply list_elem_of_here.
  assert (M2 : CA_KEY ∈ [CA_CERT; CA_KEY]) by apply list_elem_of_further, list_elem_of_here.
  assert (G1 : GATEWAY_CERT ∈ [GATEWAY_CERT; GATEWAY_KEY]) by apply list_elem_of_here.
  assert (G2 : GATEWAY_KEY ∈ [GATEWAY_CERT; GATEWAY_KEY]) by apply list_elem_of_further, list_elem_of_here.
  destruct (H _ (Ha _ _ M1 G1) (Ha _ _ M2 G1)) as [R1 E1].
  destruct (H _ (Ha _ _ M1 G2) (Ha _ _ M2 G2)) as [R2 E2].
  unfold both_exist. by rewrite E1, E2.
Qed.

(** The first half of a run: the authority is loaded or made, and nothing is done
    to the gateway's own files. *)
Lemma ca_step dir w ca w1 :
  (if both_exist dir CA_CERT CA_KEY w then (load_ca dir w, w) else create_ca dir w) = (Ok ca, w1) ->
  let '(cert, key, c) := ca in
  read_text (path_join dir CA_CERT) w1 = Ok cert /\ read_text (path_join dir CA_KEY) w1 = Ok key /\
  (if both_exist dir CA_CERT CA_KEY w then w1 = w else fresh_ca cert key c) /\
  same_but (path_join dir CA_CERT) (path_join dir CA_KEY) w w1.
Proof.
  destruct (both_exist dir CA_CERT CA_KEY w); intros H; destruct ca as [[cert key] c].
  - injection H as H <-. by destruct (load_ca_spec _ _ _ _ _ H).
  - by destruct (create_ca_spec _ _ _ _ _ _ H) as (H1 & H2 & H3 & _ & H4).
Qed.

(** After a run the files of the authority hold what the gateway holds: the ones
    that were there, or a fresh authority.  The gateway's own pair is signed by it
    if it had to be made; a pair that was there is kept as it is, also when the
    authority is new and did not sign it.  The name the workers expect is none of
    the names of the gateway's certificate. *)
Theorem tls_init_spec base w t w' :
  tls_init_or_load base w = (Ok t, w') ->
  let dir := path_join base (lit "tls") in
  tls_base_dir t = dir /\
  read_text (path_join dir CA_CERT) w' = Ok (ca_cert_pem t) /\
  read_text (path_join dir CA_KEY) w' = Ok (ca_key_pem t) /\
  (if both_exist dir CA_CERT CA_KEY w
   then host_read (path_join dir CA_CERT) w' = host_read (path_join dir CA_CERT) w /\
        host_read (path_join dir CA_KEY) w' = host_read (path_join dir CA_KEY) w
   else fresh_ca (ca_cert_pem t) (ca_key_pem t) (ca_cert t)) /\
  (if both_exist dir GATEWAY_CERT GATEWAY_KEY w
   then host_read (path_join dir GATEWAY_CERT) w' = host_read (path_join dir GATEWAY_CERT) w /\
        host_read (path_join dir GATEWAY_KEY) w' = host_read (path_join dir GATEWAY_KEY) w
   else exists sc, server_config t w' = Ok sc /\ st_client_ca sc = ca_cert_pem t /\
        signed_for_gateway (st_cert sc) (st_key sc) (ca_cert t) (ca_key_pem t)) /\
  (forall now, DnsName (ct_domain_name (client_config t)) ∉ cp_subject_alt_names (gateway_params now)).
Proof.
  intros H dir. unfold tls_init_or_load in H. fold dir in H.
  assert (Hx : forall name, name <> [] -> starts_with [chr "/"] name = false ->
    path_exists (path_join dir name) (snd (host_mkdirs dir w)) = path_exists (path_join dir name) w)
    by (intros name; apply law_mkdirs_below).
  pose proof (fun q => law_mkdirs dir q w) as Hd.
  destruct (host_mkdirs dir w) as [[[]|e] w0]; [|done]. cbn [context map_err and_then snd] in *.
  assert (Hb : both_exist dir CA_CERT CA_KEY w0 = both_exist dir CA_CERT CA_KEY w)
    by (unfold both_exist; by rewrite !Hx).
  assert (Hg : both_exist dir GATEWAY_CERT GATEWAY_KEY w0 = both_exist dir GATEWAY_CERT GATEWAY_KEY w)
    by (unfold both_exist; by rewrite !Hx).
  destruct (if both_exist dir CA_CERT CA_KEY w0 then (load_ca dir w0, w0) else create_ca dir w0)
    as [[ca|e] w1] eqn:Ec; [|done]. cbn [and_then] in H.
  apply ca_step in Ec. destruct ca as [[cert key] c]. destruct Ec as (Rc & Rk & Hca & Hsame).
  destruct (same_but_ca_gateway _ _ _ Hsame) as (Eg & Rg1 & Rg2).
  destruct (ensure_gateway_cert dir c key w1) as [[[]|e] w2] eqn:Ee; [|done]. cbn [and_then] in H.
  injection H as <- <-. apply ensure_gateway_spec in Ee as [Hgw Hgs]. cbn [tls_base_dir ca_cert_pem ca_key_pem ca_cert].
  rewrite Eg, Hg in Hgw. rewrite Hb in Hca.
  assert (Hk : forall a, a ∈ [CA_CERT; CA_KEY] -> host_read (path_join dir a) w2 = host_read (path_join dir a) w1).
  { intros a Ha. apply Hgs; apply ca_gateway_apart; try done;
      [apply list_elem_of_here|apply list_elem_of_further, list_elem_of_here]. }
  assert (M1 : CA_CERT ∈ [CA_CERT; CA_KEY]) by apply list_elem_of_here.
  assert (M2 : CA_KEY ∈ [CA_CERT; CA_KEY]) by apply list_elem_of_further, list_elem_of_here.
  split; [done|]. split; [unfold read_text in *; by rewrite Hk|]. split; [unfold read_text in *; by rewrite Hk|].
  split; [|split].
  - destruct (both_exist dir CA_CERT CA_KEY w); [|done]. by rewrite !Hk, Hca, !Hd.
  - destruct (both_exist dir GATEWAY_CERT GATEWAY_KEY w); [by rewrite Hgw, Rg1, Rg2, !Hd|].
    destruct Hgw as (gc & gk & Hs & R1 & R2). exists (mkServerTls gc gk cert). split; [|done].
    unfold server_config. cbn [tls_base_dir ca_cert_pem]. by rewrite R1, R2.
  - intros now Hin. cbn in Hin. rewrite !elem_of_cons, elem_of_nil in Hin. by destruct Hin as [Hin|[Hin|[]]].
Qed.
End AutoTls.
End CredentialFacts.

(** ** Concrete keys *)

Module Demo.

(** A disk and a counter from which chance and keys are drawn. *)
Record box := mkBox { bx_files : gmap (list N) bytes; bx_next : N }.

#[export] Instance box_host : HostFs box := {|
  path_exists := fun p b => match bx_files b !! p with Some _ => true | None => false end;
  host_read := fun p b => ok_or (bx_files b !! p) (lit "no such file");
  host_write := fun p c b => (Ok tt, mkBox (<[p := c]> (bx_files b)) (bx_next b));
  host_mkdirs := fun _ b => (Ok tt, b);
  host_remove := fun p b => mkBox (delete p (bx_files b)) (bx_next b);
  host_link := fun _ _ b => (Err (lit "cannot link"), b);
  host_tar := fun _ b => (Ok (true, []), b)
|}.

#[export] Instance box_images : ImageFs box := {|
  im_metadata := fun _ _ => Ok KindFile;
  im_open := fun p b => ok_or (bx_files b !! p) (lit "no such file");
  im_read_dir := fun _ _ => Ok [];
  im_read_link := fun _ _ => Err (lit "not a link");
  im_copy := fun _ _ b => (Ok tt, b);
  im_mode := fun _ _ => Ok 420%Z;
  im_set_mode := fun _ _ b => (Ok tt, b)
|}.

#[export] Instance box_entropy : Entropy box := {|
  en_nanos := fun _ => 1%N;
  en_seconds := fun b => Z.of_N (bx_next b);
  en_random := fun n b => (repeat (bx_next b mod 256)%N n, mkBox (bx_files b) (bx_next b + 1));
  en_uuid := fun b => (show_N (bx_next b), mkBox (bx_files b) (bx_next b + 1));
  en_sha256 := fun bs => map (fun b => b mod 256)%N (take 32 bs)
|}.

#[export] Instance box_laws : HostLaws box.
Proof.
  split; simpl.
  - intros p c b _. by rewrite lookup_insert_eq.
  - intros p q c b Hpq. by rewrite lookup_insert_ne.
  - done.
Qed.

#[export] Instance box_key_laws : KeyLaws box.
Proof.
  split; try done.
  - intros p q c b Hpq. simpl. by rewrite lookup_insert_ne.
  - intros bs. simpl. apply Forall_forall. intros x (y & -> & _)%list_elem_of_fmap. by apply N.mod_lt.
Qed.

(** A token that carries its sandbox, its expiry and its number. *)
#[export] Instance plain_jwt : Jwt := {|
  jwt_encode := fun c k =>
    if bool_decide (0 <= sc_exp c /\ sc_iat c = sc_exp c - 3600)%Z && bool_decide (sc_cap_hash c = None)
       && bool_decide (chr "." ∉ sc_sub c)
    then Ok (sc_sub c ++ chr "." :: show_N (Z.to_N (sc_exp c)) ++ chr "." :: sc_jti c)
    else Err (lit "cannot encode");
  jwt_decode := fun t _ now =>
    match split_once (chr ".") t with
    | Some (sub, rest) =>
        match split_once (chr ".") rest with
        | Some (exp, jti) =>
            match read_digits 0 exp with
            | Some e => if (now <=? e + leeway)%Z then Ok (mkClaims sub (e - 3600) e None jti)
                        else Err (lit "ExpiredSignature")
            | None => Err (lit "InvalidToken")
            end
        | None => Err (lit "InvalidToken")
        end
    | None => Err (lit "InvalidToken")
    end
|}.

Lemma plain_jwt_reads c k t now : jwt_encode c k = Ok t ->
  jwt_decode t k now = if (now <=? sc_exp c + leeway)%Z then Ok c else Err (lit "ExpiredSignature").
Proof.
  cbv beta iota delta [jwt_encode jwt_decode plain_jwt].
  case_bool_decide as He; [|done]. case_bool_decide as Hc; [|done]. case_bool_decide as Hs; [|done].
  cbv beta iota delta [andb]. intros [= <-]. destruct He as [He Hi].
  rewrite Projects.Demo.split_once_app by done. cbv beta iota.
  rewrite Projects.Demo.split_once_app.
  - cbv beta iota. rewrite show_N_read, Z2N.id by done. destruct c as [sub iat exp cap jti]. cbn in *. by subst.
  - intros Hin. pose proof (show_N_digits (Z.to_N (sc_exp c))) as Hd. rewrite Forall_forall in Hd.
    by specialize (Hd _ Hin).
Qed.

#[export] Instance plain_jwt_laws : JwtLaws.
Proof.
  split; intros c k t now Ht Hn; rewrite (plain_jwt_reads c k t now Ht).
  - by rewrite (proj2 (Z.leb_le _ _) Hn).
  - by rewrite (proj2 (Z.leb_gt _ _) Hn).
Qed.

(** A certificate is the text of its owner and its issuer. *)
#[export] Instance named_certs : Rcgen box := {|
  Certificate := str;
  KeyPair := N;
  kp_generate := fun b => (Ok (bx_next b), mkBox (bx_files b) (bx_next b + 1));
  kp_from_pem := fun t => match read_digits 0 t with Some z => Ok (Z.to_N z) | None => Err (lit "bad key") end;
  kp_pem := show_N;
  params_from_pem := fun t => Ok (mkParams true [] None 0 0 [] []);
  self_signed := fun _ k => Ok (lit "CA " ++ show_N k);
  signed_by := fun _ k _ issuer => Ok (show_N k ++ lit " by " ++ show_N issuer);
  cert_pem := fun c => flat_map (fun x => if (x <? 128)%N then [x] else []) c
|}.

#[export] Instance named_laws : RcgenLaws box.
Proof.
  split; [done| |].
  - intros c. simpl. apply Forall_forall. intros x Hx. apply list_elem_of_In, in_flat_map in Hx as (y & _ & Hy).
    destruct (N.ltb_spec y 128); [|done]. destruct Hy as [<-|[]]. left. lia.
  - intros k. eapply Forall_impl; [apply show_N_digits|]. intros c Hc. left.
    unfold is_ascii_digit in Hc. apply andb_prop in Hc as [_ Hc%N.leb_le]. lia.
Qed.

Definition empty_box : box := mkBox ∅ 7.
Definition home : str := lit "/home/bastion".
Definition first_run : box := snd (jwt_init_or_load home empty_box).

(** The key of the first run is loaded by the second, and a token is good for 3660
    seconds. *)
Lemma jwt_sessions_witness :
  exists m t c, jwt_init_or_load home first_run = (Ok m, first_run) /\
    fst (issue m (lit "sb") None first_run) = Ok t /\
    verify m t 3668 = Ok c /\ sc_sub c = lit "sb" /\ is_ok (verify m t 3669) = false.
Proof.
  destruct (jwt_init_or_load home empty_box) as [[m|e] w1] eqn:E; [|by vm_compute in E].
  assert (Hw : w1 = first_run) by (unfold first_run; by rewrite E).
  destruct (CredentialFacts.jwt_sessions home empty_box m w1 E) as [H Hv]. rewrite Hw in H.
  destruct (issue m (lit "sb") None first_run) as [[t|e] w4] eqn:Ei; [|by vm_compute in Ei].
  pose proof (Hv (lit "sb") None first_run t w4 Ei 3668%Z) as H1.
  pose proof (Hv (lit "sb") None first_run t w4 Ei 3669%Z) as H2.
  destruct H1 as (c & Hc & Hs & _). exists m, t, c.
  split; [apply H; [done|vm_compute; reflexivity]|].
  rewrite Ei. split; [done|]. split; [done|]. split; [done|exact H2].
Defined.

Definition tls_home : box := snd (tls_init_or_load home empty_box).
(** The key of the authority is lost. *)
Definition lost_key : box := host_remove (path_join home (lit "tls/ca-key.pem")) tls_home.

(** After the key was lost the gateway presents a certificate of the old authority. *)
Lemma tls_init_witness :
  exists t, tls_init_or_load home lost_key = (Ok t, snd (tls_init_or_load home lost_key)) /\
    host_read (path_join (tls_base_dir t) GATEWAY_CERT) (snd (tls_init_or_load home lost_key)) = Ok (lit "8 by 7") /\
    ca_cert_pem t = lit "CA 9" /\ ca_key_pem t = lit "9".
Proof.
  assert (Hok : match fst (tls_init_or_load home lost_key) with
                | Ok t => str_eqb (ca_cert_pem t) (lit "CA 9") && str_eqb (ca_key_pem t) (lit "9")
                | Err _ => false
                end = true) by (vm_compute; reflexivity).
  destruct (tls_init_or_load home lost_key) as [[t|e] w'] eqn:E; [|discriminate].
  cbn [fst] in Hok. apply andb_prop in Hok as [Hc%str_eqb_eq Hk%str_eqb_eq].
  exists t. cbn [snd]. split; [done|].
  destruct (CredentialFacts.tls_init_spec home lost_key t w' E) as (Hd & _ & _ & _ & Hg & _).
  rewrite Hd. replace (both_exist _ GATEWAY_CERT GATEWAY_KEY lost_key) with true in Hg by (vm_compute; reflexivity).
  destruct Hg as [-> _]. split; [vm_compute; reflexivity|]. split; [exact Hc|exact Hk].
Defined.
End Demo.
