(* ===== verification/Backends.v ===== *)
(** * Backends of the synchronisation

    Models [bastion-infrastructure/src/template/sync]: the interface of a backend
    ([mod.rs]), the one that runs [rsync] ([rsync.rs]) and the one that copies file by
    file ([tar_stream.rs]).  Directories are [ProjectFs] of [Projects]; running
    [rsync] and copying a file are the class [SyncHost].  The walk over a directory
    runs on fuel: links may lead back. *)

From S2P Require Import Prelude Utf8 Sandbox SandboxFs HostProviders Materialize Projects Credentials.

Class SyncHost (W : Type) := {
  (** Whether [rsync] succeeded, its output and its error output; an error when it
      cannot be started. *)
  sh_rsync : list str -> W -> result str (bool * bytes * bytes) * W;
  sh_mkdirs : str -> W -> result str unit * W;
  sh_copy : str -> str -> W -> result str unit * W;
  sh_is_file : str -> W -> bool;
  sh_len : str -> W -> result str Z
}.

(** ** The interface *)

Inductive SyncDirection := Push | Pull.

Record SyncProgress := mkProgress {
  bytes_transferred : Z; total_bytes : Z; current_file : option str; files_transferred : Z; total_files : Z
}.

(** A backend: synchronisation from a source to a target with patterns to leave
    out, a name, and whether it can be used. *)
Record DeltaSyncBackend (W : Type) := mkBackend {
  db_sync : str -> str -> list str -> W -> option (result DomainError Z * W);
  db_name : str;
  db_is_available : W -> bool * W
}.
Arguments mkBackend {W}. Arguments db_sync {W}. Arguments db_name {W}. Arguments db_is_available {W}.

Section Backends.
Context {W : Type} `{PFS : !ProjectFs W} `{SH : !SyncHost W}.

(** ** rsync *)

(** [str::find]: what is before the first occurrence. *)
Fixpoint before_first (pat s : str) : option str :=
  if starts_with pat s then Some []
  else match s with [] => None | c :: s' => option_map (cons c) (before_first pat s') end.

(** All digits before the pattern are read as one number. *)
Definition extract_number (line pat : str) : option Z :=
  match before_first pat line with
  | None => None
  | Some before =>
      match List.filter is_ascii_digit before with
      | [] => None
      | ds => match read_digits 0 ds with
              | Some z => if (z <=? u64_max)%Z then Some z else None
              | None => None
              end
      end
  end.

Fixpoint parse_lines_of_rsync (lines : list str) : Z :=
  match lines with
  | [] => 0
  | line :: rest =>
      match (if str_contains line (lit "bytes received") then extract_number line (lit "bytes received") else None) with
      | Some n => n
      | None =>
          match (if str_contains line (lit "bytes sent") then extract_number line (lit "bytes sent") else None) with
          | Some n => n
          | None => parse_lines_of_rsync rest
          end
      end
  end%Z.

Definition parse_rsync_output (output : str) : Z := parse_lines_of_rsync (lines output).

Definition rsync_args (source target : str) (exclude : list str) : list str :=
  lit "-avz" :: map (fun p => lit "--exclude=" ++ p) exclude ++ [source; target].

Definition rsync_sync (source target : str) (exclude : list str) (w : W) : result DomainError Z * W :=
  match sh_rsync (rsync_args source target exclude) w with
  | (Err e, w) => (Err (Internal (lit "Failed to execute rsync: " ++ e)), w)
  | (Ok (false, _, stderr), w) => (Err (Internal (lit "rsync failed: " ++ from_utf8_lossy stderr)), w)
  | (Ok (true, stdout, _), w) => (Ok (parse_rsync_output (from_utf8_lossy stdout)), w)
  end.

Definition rsync_is_available (w : W) : bool * W :=
  match sh_rsync [lit "--version"] w with
  | (Ok (success, _, _), w) => (success, w)
  | (Err _, w) => (false, w)
  end.

Definition RsyncBackend : DeltaSyncBackend W :=
  mkBackend (fun s t x w => Some (rsync_sync s t x w)) (lit "rsync") rsync_is_available.

(** ** Copying file by file *)

Definition strip_suffix_star (p : str) : option str :=
  match rev p with c :: r => if (c =? chr "*")%N then Some (rev r) else None | [] => None end.

Definition glob_match (pattern name : str) : bool :=
  str_eqb pattern name ||
  match strip_suffix_star pattern with Some prefix => starts_with prefix name | None => false end.

Definition excluded (exclude : list str) (path : str) : bool :=
  let name := default [] (path_file_name path) in
  existsb (fun p => glob_match p name) exclude.

(** The entries of one directory, given the walk of those below. *)
Fixpoint walk_entries (walk : str -> option (result DomainError (list str))) (exclude : list str)
    (entries : list (result str str)) (w : W) : option (result DomainError (list str)) :=
  match entries with
  | [] => Some (Ok [])
  | Err e :: _ => Some (Err (Internal (lit "Read dir error: " ++ e)))
  | Ok path :: rest =>
      if excluded exclude path then walk_entries walk exclude rest w
      else
        match (if pf_is_dir path w then walk path else Some (Ok [path])) with
        | None => None
        | Some (Err e) => Some (Err e)
        | Some (Ok found) =>
            match walk_entries walk exclude rest w with
            | None => None
            | Some (Err e) => Some (Err e)
            | Some (Ok more) => Some (Ok (found ++ more))
            end
        end
  end.

Fixpoint walkdir (fuel : nat) (current : str) (exclude : list str) (w : W) :
    option (result DomainError (list str)) :=
  match fuel with
  | O => None
  | S fuel =>
      match pf_read_dir current w with
      | Err e => Some (Err (Internal (lit "Failed to read dir: " ++ e)))
      | Ok entries => walk_entries (fun p => walkdir fuel p exclude w) exclude entries w
      end
  end.

(** [Path::strip_prefix], for a path that was found below [source]. *)
Definition relative_to (source entry : str) : option str :=
  strip_prefix (CredentialFacts.join_prefix source) entry.

Definition ignore_world {A} (r : result str A) (what : string) : result DomainError A :=
  map_err (fun e => Internal (lit what ++ e)) r.

Definition copy_entry (source target entry : str) (w : W) : result DomainError Z * W :=
  match relative_to source entry with
  | None => (Err (Internal (lit "Path error: prefix not found")), w)
  | Some rel =>
      let path := path_join target rel in
      let? (_, w) := (match path_parent path with
                      | Some parent => let '(r, w) := sh_mkdirs parent w in (ignore_world r "Failed to create dir: ", w)
                      | None => (Ok tt, w)
                      end) in
      if sh_is_file entry w then
        let '(r, w) := sh_copy entry path w in
        let? (_, w) := (ignore_world r "Failed to copy: ", w) in
        (ignore_world (sh_len entry w) "Metadata error: ", w)
      else (Ok 0%Z, w)
  end.

Fixpoint copy_entries (source target : str) (entries : list str) (total : Z) (w : W) : result DomainError Z * W :=
  match entries with
  | [] => (Ok total, w)
  | entry :: rest =>
      let? (n, w) := copy_entry source target entry w in
      copy_entries source target rest (as_u64 (total + n)) w
  end.

Definition tar_sync (fuel : nat) (source target : str) (exclude : list str) (w : W) :
    option (result DomainError Z * W) :=
  match walkdir fuel source exclude w with
  | None => None
  | Some (Err e) => Some (Err e, w)
  | Some (Ok entries) => Some (copy_entries source target entries 0 w)
  end.

Definition TarStreamBackend (fuel : nat) : DeltaSyncBackend W :=
  mkBackend (tar_sync fuel) (lit "tar_stream") (fun w => (true, w)).
End Backends.

(** ** What the walk finds *)

Module BackendFacts.
Section Walk.
Context {W : Type} `{PFS : !ProjectFs W} `{SH : !SyncHost W}.
Variables (exclude : list str) (w : W).

(** An entry of a directory that is not left out. *)
Definition entry_in (dir p : str) : Prop :=
  exists entries, pf_read_dir dir w = Ok entries /\ Ok p ∈ entries /\ excluded exclude p = false.

(** The files below a directory, through directories that are not left out. *)
Inductive below : str -> str -> Prop :=
| below_file dir p : entry_in dir p -> pf_is_dir p w = false -> below dir p
| below_dir dir d p : entry_in dir d -> pf_is_dir d w = true -> below d p -> below dir p.

Lemma walk_entries_spec walk entries l :
  walk_entries walk exclude entries w = Some (Ok l) ->
  forall p, p ∈ l <->
    exists q, Ok q ∈ entries /\ excluded exclude q = false /\
      (if pf_is_dir q w then exists found, walk q = Some (Ok found) /\ p ∈ found else p = q).
Proof.
  revert l. induction entries as [|[q|e] rest IH]; intros l; cbn [walk_entries]; [|destruct (excluded exclude q) eqn:Ex|done].
  - intros [= <-] p. split; [by intros ?%elem_of_nil|]. by intros (q & ?%elem_of_nil & _).
  - intros H p. rewrite (IH l H p). split; intros (x & Hx & He & Hp); exists x; split; auto.
    + by apply list_elem_of_further.
    + apply elem_of_cons in Hx as [[= ->]|Hx]; [congruence|done].
  - destruct (if pf_is_dir q w then walk q else Some (Ok [q])) as [[found|e]|] eqn:Ew; [|done|done].
    destruct (walk_entries walk exclude rest w) as [[more|e]|] eqn:Er; [|done|done]. intros [= <-] p.
    rewrite elem_of_app, (IH more eq_refl p). split.
    + intros [Hp|(x & Hx & He & Hp)]; [|by exists x; split; [apply list_elem_of_further|]].
      exists q. split; [apply list_elem_of_here|]. split; [done|].
      destruct (pf_is_dir q w); [by exists found|]. injection Ew as <-. by apply list_elem_of_singleton in Hp.
    + intros (x & Hx & He & Hp). apply elem_of_cons in Hx as [[= ->]|Hx]; [left|right; by exists x].
      destruct (pf_is_dir q w).
      * destruct Hp as (f2 & Hf & Hp). rewrite Ew in Hf. by injection Hf as <-.
      * injection Ew as <-. subst p. by apply list_elem_of_singleton.
Qed.

Lemma walk_entries_found walk entries l q :
  walk_entries walk exclude entries w = Some (Ok l) -> Ok q ∈ entries -> excluded exclude q = false ->
  pf_is_dir q w = true -> exists found, walk q = Some (Ok found).
Proof.
  revert l. induction entries as [|[x|e] rest IH]; intros l; cbn [walk_entries]; [|destruct (excluded exclude x) eqn:Ex|done].
  - by intros _ ?%elem_of_nil.
  - intros H [[= ->]|Hq]%elem_of_cons He Hd; [congruence|by eapply IH].
  - destruct (if pf_is_dir x w then walk x else Some (Ok [x])) as [[f|e]|] eqn:Ew; [|done|done].
    destruct (walk_entries walk exclude rest w) as [[more|e]|] eqn:Er; [|done|done].
    intros _ [[= ->]|Hq]%elem_of_cons He Hd; [|by eapply IH]. rewrite Hd in Ew. by exists f.
Qed.

Lemma walkdir_sound fuel dir l p :
  walkdir fuel dir exclude w = Some (Ok l) -> (p ∈ l <-> below dir p).
Proof.
  revert dir l p. induction fuel as [|fuel IH]; intros dir l p; [done|]. cbn [walkdir].
  destruct (pf_read_dir dir w) as [entries|e] eqn:Er; [|done]. intros H.
  rewrite (walk_entries_spec _ _ _ H p). split.
  - intros (q & Hq & He & Hp). assert (Hin : entry_in dir q) by (by exists entries).
    destruct (pf_is_dir q w) eqn:Ed; [|subst p; by apply below_file].
    destruct Hp as (found & Hf & Hp). apply (below_dir _ q); [done|done|]. by apply (IH _ _ _ Hf).
  - intros Hb. inversion Hb as [? ? (es & Hr & Hq & He) Hd|? d ? (es & Hr & Hq & He) Hd Hbd]; subst;
      rewrite Er in Hr; injection Hr as <-.
    + exists p. by rewrite Hd.
    + exists d. rewrite Hd. split; [done|]. split; [done|].
      destruct (walk_entries_found _ _ _ d H Hq He Hd) as [found Hf].
      exists found. split; [done|]. by apply (IH _ _ _ Hf).
Qed.

(** No directory leads back to itself: each has a depth greater than its own. *)
Variable depth : str -> nat.
Hypothesis depth_falls : forall dir d, entry_in dir d -> pf_is_dir d w = true -> depth d < depth dir.

Lemma walk_entries_ends walk entries :
  (forall q, Ok q ∈ entries -> excluded exclude q = false -> pf_is_dir q w = true -> walk q <> None) ->
  walk_entries walk exclude entries w <> None.
Proof.
  induction entries as [|[x|e] rest IH]; cbn [walk_entries]; intros H; [done| |done].
  assert (Hrest : walk_entries walk exclude rest w <> None).
  { apply IH. intros q Hq. apply H. by apply list_elem_of_further. }
  destruct (excluded exclude x) eqn:Ex; [done|].
  destruct (pf_is_dir x w) eqn:Ed.
  - specialize (H x (list_elem_of_here _ _) Ex Ed). destruct (walk x) as [[f|e]|]; [|done|done].
    by destruct (walk_entries walk exclude rest w) as [[more|e]|].
  - by destruct (walk_entries walk exclude rest w) as [[more|e]|].
Qed.

Lemma walkdir_total fuel dir : depth dir < fuel -> walkdir fuel dir exclude w <> None.
Proof.
  revert dir. induction fuel as [|fuel IH]; intros dir Hf; [lia|]. cbn [walkdir].
  destruct (pf_read_dir dir w) as [entries|e] eqn:Er; [|done]. apply walk_entries_ends.
  intros q Hq He Hd. apply IH.
  assert (Hlt : depth q < depth dir) by (apply depth_falls; [by exists entries|done]). lia.
Qed.

(** In a tree of directories the walk ends, with fuel for its depth, and finds
    exactly the files that are reached through entries whose names are not left
    out, unless a directory on the way cannot be read. *)
Theorem walkdir_spec dir :
  exists r, walkdir (S (depth dir)) dir exclude w = Some r /\
    match r with
    | Ok l => forall p, p ∈ l <-> below dir p
    | Err e => exists t, e = Internal (lit "Failed to read dir: " ++ t) \/ e = Internal (lit "Read dir error: " ++ t)
    end.
Proof.
  destruct (walkdir (S (depth dir)) dir exclude w) as [r|] eqn:E; [|by apply walkdir_total in E; [|lia]].
  exists r. split; [done|]. destruct r as [l|e]; [intros p; by eapply walkdir_sound|].
  revert E. generalize (S (depth dir)). intros fuel. revert dir. induction fuel as [|fuel IH]; intros dir; [done|].
  cbn [walkdir]. destruct (pf_read_dir dir w) as [entries|t]; [|intros [= <-]; by exists t; left].
  induction entries as [|[x|t] rest IHr]; cbn [walk_entries]; [done| |intros [= <-]; by exists t; right].
  destruct (excluded exclude x); [done|]. destruct (pf_is_dir x w).
  - destruct (walkdir fuel x exclude w) as [[f|e2]|] eqn:Ew; [|intros [= <-]; by eapply IH|done].
    by destruct (walk_entries _ exclude rest w) as [[more|e2]|].
  - by destruct (walk_entries _ exclude rest w) as [[more|e2]|].
Qed.
End Walk.

(** A pattern matches its own text, and with a star at its end everything that
    starts with what is before the star; a star elsewhere is a plain character. *)
Lemma glob_match_spec pattern name :
  glob_match pattern name = true <->
  pattern = name \/ exists prefix rest, pattern = prefix ++ [chr "*"] /\ name = prefix ++ rest.
Proof.
  unfold glob_match. rewrite orb_true_iff, str_eqb_eq. apply or_iff_compat_l. unfold strip_suffix_star. split.
  - destruct (rev pattern) as [|c r] eqn:E; [done|]. destruct (N.eqb_spec c (chr "*")) as [->|]; [|done].
    intros [rest ->]%starts_with_spec. exists (rev r), rest. split; [|done].
    by rewrite <- (rev_involutive pattern), E.
  - intros (prefix & rest & -> & ->). rewrite rev_app_distr. cbn. rewrite rev_involutive. apply starts_with_app.
Qed.
End BackendFacts.

(** ** Concrete directories *)

Module Demo.

Definition files : Type := list (str * option (list str)).

Definition dir_of (f : files) (p : str) : option (list str) :=
  match List.find (fun '(q, _) => str_eqb p q) f with Some (_, d) => d | None => None end.

#[export] Instance files_fs : ProjectFs files := {|
  pf_canonicalize := fun p _ => Ok p;
  pf_is_dir := fun p f => match dir_of f p with Some _ => true | None => false end;
  pf_read_dir := fun p f => ok_or (map (fun n => Ok (path_join p n)) <$> dir_of f p) (lit "not a directory")
|}.

#[export] Instance files_sync : SyncHost files := {|
  sh_rsync := fun _ f => (Ok (true, utf8 (lit "sent 1,234 bytes  received 35 bytes  2,538.00 bytes/sec"), []), f);
  sh_mkdirs := fun _ f => (Ok tt, f);
  sh_copy := fun _ b f => (Ok tt, f ++ [(b, None)]);
  sh_is_file := fun p f => match dir_of f p with Some _ => false | None => true end;
  sh_len := fun _ _ => Ok 10%Z
|}.

Definition tree : files :=
  [(lit "/src", Some [lit "main.rs"; lit "node_modules"; lit "lib"]);
   (lit "/src/lib", Some [lit "a.rs"; lit "b.o"]);
   (lit "/src/node_modules", Some [lit "x.js"])].

Definition tree_depth (p : str) : nat := if str_eqb p (lit "/src") then 1 else 0.

Lemma tree_depth_falls dir d :
  BackendFacts.entry_in [lit "node_*"; lit "b.o"] tree dir d -> pf_is_dir d tree = true -> tree_depth d < tree_depth dir.
Proof.
  intros (entries & Hr & Hin & He) Hd. cbn [pf_read_dir files_fs] in Hr. unfold dir_of, tree in Hr. cbn [List.find] in Hr.
  destruct (str_eqb dir (lit "/src")) eqn:E1; [|destruct (str_eqb dir (lit "/src/lib")) eqn:E2;
    [|destruct (str_eqb dir (lit "/src/node_modules")) eqn:E3; [|done]]].
  - unfold tree_depth at 2. rewrite E1. apply str_eqb_eq in E1 as ->. unfold tree_depth.
    destruct (str_eqb d (lit "/src")) eqn:E; [|lia]. apply str_eqb_eq in E as ->.
    injection Hr as <-. by apply (bool_decide_pack _) in Hin; vm_compute in Hin.
  - apply str_eqb_eq in E2 as ->. injection Hr as <-. exfalso.
    cbn in Hin. rewrite !elem_of_cons, elem_of_nil in Hin.
    destruct Hin as [[= ->]|[[= ->]|[]]]; by vm_compute in Hd.
  - apply str_eqb_eq in E3 as ->. injection Hr as <-. exfalso.
    cbn in Hin. rewrite !elem_of_cons, elem_of_nil in Hin. destruct Hin as [[= ->]|[]]; by vm_compute in Hd.
Qed.

Lemma walkdir_spec_witness :
  exists l, walkdir 2 (lit "/src") [lit "node_*"; lit "b.o"] tree = Some (Ok l) /\
    l = [lit "/src/main.rs"; lit "/src/lib/a.rs"] /\
    (forall p, p ∈ l <-> BackendFacts.below [lit "node_*"; lit "b.o"] tree (lit "/src") p).
Proof.
  destruct (BackendFacts.walkdir_spec [lit "node_*"; lit "b.o"] tree tree_depth tree_depth_falls (lit "/src"))
    as ([l|e] & Hw & Hl).
  - exists l. split; [exact Hw|]. split; [|exact Hl]. vm_compute in Hw. by injection Hw as <-.
  - exfalso. by vm_compute in Hw.
Defined.

(** A copy keeps the tree. *)
Example tar_sync_ex :
  option_map fst (tar_sync 2 (lit "/src") (lit "/dst") [lit "node_*"] tree) = Some (Ok 30%Z) /\
  option_map (fun '(_, f) => map fst (drop 3 f)) (tar_sync 2 (lit "/src") (lit "/dst") [lit "node_*"] tree) =
    Some [lit "/dst/main.rs"; lit "/dst/lib/a.rs"; lit "/dst/lib/b.o"].
Proof. split; vm_compute; reflexivity. Qed.

(** What rsync prints is not what is looked for: nothing counts as transferred. *)
Example rsync_bytes_ex : fst (rsync_sync (lit "/src") (lit "/dst") [] tree) = Ok 0%Z.
Proof. vm_compute. reflexivity. Qed.

(** Numbers before the pattern run together. *)
Example digits_ex : parse_rsync_output (lit "2 files, 34 bytes sent") = 234%Z.
Proof. vm_compute. reflexivity. Qed.
End Demo.
