(* ===== verification/ExperienceDb.v ===== *)
(** * The store of experience records

    Models [bastion-infrastructure/src/catalog/sqlite_experience_store.rs], the
    records of [Experience] in one SQLite table.  The table is a finite map from
    the primary key; a statement may fail ([ExperienceSql]); rows with equal start
    come out of an [ORDER BY] in any order ([ExperienceOrder]); the texts of JSON,
    of times and of statuses are those of third-party code ([ExperienceText]). *)

From stdpp Require Import sorting.
From S2P Require Import Prelude Sandbox RunStore Experience.

(** ** Texts *)

Class ExperienceText `{JV : JsonValue} := {
  et_json : json -> result str str;
  et_from_json : str -> result str json;
  et_rfc3339 : Z -> str;
  et_from_rfc3339 : str -> result str Z;
  et_four_digit_year : Z -> bool;
  (** Decoding a quoted name. *)
  et_status : str -> result str ExperienceStatus
}.

(** What the derived [Debug] prints, in lower case; the derived decoder reads the
    same names. *)
Definition status_text (s : ExperienceStatus) : str :=
  match s with
  | ESuccess => lit "success" | EFailure => lit "failure"
  | ETimeout => lit "timeout" | ECancelled => lit "cancelled"
  end.

Definition quoted (s : str) : str := 34%N :: s ++ [34%N].

Class ExperienceTextLaws `{TXT : ExperienceText} := {
  et_json_roundtrip : forall v s, et_json v = Ok s -> et_from_json s = Ok v;
  (** RFC 3339 has years of four digits. *)
  et_rfc3339_roundtrip : forall t, et_four_digit_year t = true -> et_from_rfc3339 (et_rfc3339 t) = Ok t;
  et_status_roundtrip : forall s, et_status (quoted (status_text s)) = Ok s
}.

(** ** The table *)

Record ExperienceRow := mkERow {
  er_id : str; er_trace_id : option str; er_tool : str; er_sandbox_id : option str; er_started_at : str;
  er_ended_at : option str; er_exit_code : option Z; er_stdout : str; er_stderr : str; er_status : str;
  er_metadata : str
}.

Abbreviation ExperienceTable := (gmap str ExperienceRow).

Inductive experience_sql := SqlInsert | SqlSelectId | SqlSelectTrace | SqlSelectAll.

(** The error of a statement that fails. *)
Definition ExperienceSql : Type := experience_sql -> option str.

Definition newer_first (a b : ExperienceRow) : Prop := str_ltb (er_started_at a) (er_started_at b) = false.

Class ExperienceOrder := {
  by_start : list ExperienceRow -> list ExperienceRow;
  by_start_perm : forall l, by_start l ≡ₚ l;
  by_start_sorted : forall l, StronglySorted newer_first (by_start l)
}.

Section Store.
Context `{TXT : ExperienceText} `{ORD : ExperienceOrder}.

Definition row_of_experience (r : ExperienceRecord) : ExperienceRow :=
  mkERow (ex_id r) (ex_trace_id r) (ex_tool_name r) (ex_sandbox_id r) (et_rfc3339 (ex_started_at r))
    (et_rfc3339 <$> ex_finished_at r) (ex_exit_code r) (ex_stdout_summary r) (ex_stderr_summary r)
    (status_text (ex_status r))
    (match et_json (ex_metadata r) with Ok s => s | Err _ => lit "{}" end).

(** The primary key is unique: a second record of the same id is refused. *)
Definition experience_save (sql : ExperienceSql) (r : ExperienceRecord) (t : ExperienceTable) :
    result DomainError unit * ExperienceTable :=
  match sql SqlInsert with
  | Some e => (Err (Internal (lit "Failed to insert experience: " ++ e)), t)
  | None =>
      match t !! ex_id r with
      | Some _ => (Err (Internal (lit "Failed to insert experience: UNIQUE constraint failed: experiences.id")), t)
      | None => (Ok tt, <[ex_id r := row_of_experience r]> t)
      end
  end.

Definition parsed (what : str) {A} (r : result str A) : result DomainError A :=
  map_err (fun e => Internal (what ++ e)) r.

Definition row_to_experience (row : ExperienceRow) : result DomainError ExperienceRecord :=
  status ← parsed (lit "Failed to parse status '" ++ er_status row ++ lit "': ") (et_status (quoted (er_status row)));
  let metadata := match et_from_json (er_metadata row) with Ok v => v | Err _ => json_empty_object end in
  started ← parsed (lit "Failed to parse started_at: ") (et_from_rfc3339 (er_started_at row));
  ended ← (match er_ended_at row with
           | None => Ok None
           | Some s => e ← parsed (lit "Failed to parse ended_at: ") (et_from_rfc3339 s); Ok (Some e)
           end);
  Ok (mkExperience (er_id row) (er_trace_id row) (er_tool row) (er_sandbox_id row) started ended
        (er_exit_code row) (er_stdout row) (er_stderr row) status metadata).

Fixpoint rows_to_experiences (rows : list ExperienceRow) : result DomainError (list ExperienceRecord) :=
  match rows with
  | [] => Ok []
  | row :: rest => r ← row_to_experience row; rs ← rows_to_experiences rest; Ok (r :: rs)
  end.

Definition experience_find (sql : ExperienceSql) (id : str) (t : ExperienceTable) :
    result DomainError (option ExperienceRecord) :=
  match sql SqlSelectId with
  | Some e => Err (Internal (lit "Query failed: " ++ e))
  | None => match t !! id with None => Ok None | Some row => r ← row_to_experience row; Ok (Some r) end
  end.

Definition rows_of (t : ExperienceTable) : list ExperienceRow := map snd (map_to_list t).

Definition has_trace (trace : str) (row : ExperienceRow) : bool :=
  match er_trace_id row with Some t => str_eqb t trace | None => false end.

Definition experience_find_trace (sql : ExperienceSql) (trace : str) (t : ExperienceTable) :
    result DomainError (list ExperienceRecord) :=
  match sql SqlSelectTrace with
  | Some e => Err (Internal (lit "Failed to query: " ++ e))
  | None => rows_to_experiences (by_start (List.filter (has_trace trace) (rows_of t)))
  end.

(** [LIMIT]: a negative number is no limit. *)
Definition sql_limit {A} (n : Z) (l : list A) : list A :=
  if (n <? 0)%Z then l else take (Z.to_nat (Z.min n (Z.of_nat (length l)))) l.

Definition experience_list (sql : ExperienceSql) (limit : Z) (t : ExperienceTable) :
    result DomainError (list ExperienceRecord) :=
  match sql SqlSelectAll with
  | Some e => Err (Internal (lit "Failed to query: " ++ e))
  | None => rows_to_experiences (sql_limit (as_i64 limit) (by_start (rows_of t)))
  end.
End Store.

(** ** The table implements a map of records *)

Module ExperienceFacts.
Section Facts.
Context `{TXT : ExperienceText} `{ORD : ExperienceOrder} `{LAWS : !@ExperienceTextLaws JV TXT}.

(** A record whose metadata can be written, and whose times have years of four
    digits. *)
Definition storable (r : ExperienceRecord) : bool :=
  is_ok (et_json (ex_metadata r)) && et_four_digit_year (ex_started_at r) &&
  match ex_finished_at r with Some e => et_four_digit_year e | None => true end.

Definition holds (t : ExperienceTable) (m : gmap (list N) ExperienceRecord) : Prop :=
  t = row_of_experience <$> m /\
  forall id r, m !! id = Some r -> ex_id r = id /\ storable r = true.

Definition records (m : gmap (list N) ExperienceRecord) : list ExperienceRecord := map snd (map_to_list m).

Definition newer (a b : ExperienceRecord) : Prop :=
  str_ltb (et_rfc3339 (ex_started_at a)) (et_rfc3339 (ex_started_at b)) = false.

Lemma row_reads r : storable r = true -> row_to_experience (row_of_experience r) = Ok r.
Proof.
  unfold storable. intros [[H Hs]%andb_true_iff He]%andb_true_iff.
  unfold row_to_experience, row_of_experience. cbn.
  rewrite et_status_roundtrip. cbn. rewrite et_rfc3339_roundtrip by done. cbn.
  destruct (et_json (ex_metadata r)) as [s|e] eqn:Ej; [|done]. rewrite (et_json_roundtrip _ _ Ej).
  destruct r as [id tr tool sb st en code out err status md]. cbn in *. destruct en as [e|]; [|done].
  cbn. by rewrite et_rfc3339_roundtrip.
Qed.

Lemma rows_read rs :
  Forall (fun r => storable r = true) rs -> rows_to_experiences (map row_of_experience rs) = Ok rs.
Proof.
  induction 1 as [|r rs Hr _ IH]; [done|]. cbn [map rows_to_experiences]. by rewrite row_reads, IH.
Qed.

Lemma rows_of_map m : rows_of (row_of_experience <$> m) = map row_of_experience (records m).
Proof.
  unfold rows_of, records. rewrite map_to_list_fmap.
  change (prod_map id row_of_experience <$> map_to_list m) with
    (map (prod_map id row_of_experience) (map_to_list m)).
  rewrite !map_map. by apply map_ext.
Qed.

Lemma records_storable t m : holds t m -> Forall (fun r => storable r = true) (records m).
Proof.
  intros [_ H]. apply Forall_forall. intros r Hr. unfold records in Hr.
  change (map snd ?l) with (snd <$> l) in Hr. apply list_elem_of_fmap in Hr as ([id r'] & -> & Hin).
  apply elem_of_map_to_list in Hin. by apply (H id r').
Qed.

(** The rows of some records, in the order of a [SELECT], are those of a
    permutation of the records, the newest first. *)
Lemma ordered_rows rs :
  exists l, by_start (map row_of_experience rs) = map row_of_experience l /\ l ≡ₚ rs /\ StronglySorted newer l.
Proof.
  destruct (Permutation_map_inv _ _ (by_start_perm (map row_of_experience rs))) as (l & Hl & Hp).
  exists l. split; [done|]. split; [by symmetry|].
  pose proof (by_start_sorted (map row_of_experience rs)) as Hs. rewrite Hl in Hs. by apply sorted_map in Hs.
Qed.

Lemma sorted_split l k a b :
  StronglySorted newer l -> a ∈ take k l -> b ∈ drop k l -> newer a b.
Proof.
  revert k. induction l as [|x l IH]; intros k Hs Ha Hb; [by rewrite take_nil in Ha; apply elem_of_nil in Ha|].
  destruct k as [|k]; [by apply elem_of_nil in Ha|]. apply StronglySorted_inv in Hs as [Hs Hx].
  cbn in Ha, Hb. apply elem_of_cons in Ha as [->|Ha]; [|by eapply IH].
  rewrite Forall_forall in Hx. apply Hx. apply (subseteq_drop k l). exact Hb.
Qed.

Lemma sorted_take k l : StronglySorted newer l -> StronglySorted newer (take k l).
Proof.
  revert k. induction l as [|x l IH]; intros k Hs; [by rewrite take_nil|]. destruct k as [|k]; [constructor|].
  apply StronglySorted_inv in Hs as [Hs Hx]. cbn. constructor; [by apply IH|]. by apply Forall_take.
Qed.

Lemma filter_map_rows (P : ExperienceRow -> bool) rs :
  List.filter P (map row_of_experience rs) = map row_of_experience (List.filter (fun r => P (row_of_experience r)) rs).
Proof. induction rs as [|r rs IH]; [done|]. cbn. rewrite IH. by destruct (P (row_of_experience r)). Qed.

(** The store is a map from identifiers to records.  Saving adds a record whose
    identifier is new and refuses any other, leaving the table as it was; what is
    found by its identifier is the record that was saved; the records of a trace,
    and the newest up to a limit, come newest first, and none that is left out of a
    listing is newer than one that is in it. *)
Theorem experience_store_refines t m :
  holds t m ->
  (forall sql r, storable r = true ->
     match fst (experience_save sql r t) with
     | Ok _ => sql SqlInsert = None /\ m !! ex_id r = None /\
               holds (snd (experience_save sql r t)) (<[ex_id r := r]> m)
     | Err _ => (sql SqlInsert <> None \/ m !! ex_id r <> None) /\ snd (experience_save sql r t) = t
     end) /\
  (forall sql id, sql SqlSelectId = None -> experience_find sql id t = Ok (m !! id)) /\
  (forall sql trace, sql SqlSelectTrace = None ->
     exists l, experience_find_trace sql trace t = Ok l /\ StronglySorted newer l /\
       l ≡ₚ List.filter (fun r => has_trace trace (row_of_experience r)) (records m)) /\
  (forall sql limit, sql SqlSelectAll = None -> (0 <= limit <= i64_max)%Z ->
     exists l rest, experience_list sql limit t = Ok l /\ StronglySorted newer l /\ l ++ rest ≡ₚ records m /\
       Z.of_nat (length l) = Z.min limit (Z.of_nat (size m)) /\
       (forall a b, a ∈ l -> b ∈ rest -> newer a b)).
Proof.
  intros Hh. pose proof (records_storable _ _ Hh) as Hst. destruct Hh as [-> Hm]. split; [|split; [|split]].
  - intros sql r Hr. unfold experience_save. destruct (sql SqlInsert); [by split; [left|]|].
    rewrite lookup_fmap. destruct (m !! ex_id r) eqn:El; cbn; [by split; [right|]|].
    split; [done|]. split; [done|]. split; [by rewrite fmap_insert|].
    intros id x. rewrite lookup_insert. case_decide as Hid; [|apply Hm]. intros [= <-]. by subst id.
  - intros sql id Hs. unfold experience_find. rewrite Hs, lookup_fmap.
    destruct (m !! id) as [r|] eqn:El; [|done]. cbn. rewrite row_reads; [done|]. by apply (Hm id).
  - intros sql trace Hs. unfold experience_find_trace. rewrite Hs, rows_of_map, filter_map_rows.
    destruct (ordered_rows (List.filter (fun r => has_trace trace (row_of_experience r)) (records m)))
      as (l & -> & Hp & Hsorted).
    exists l. split; [|done]. apply rows_read. rewrite Hp. by apply Forall_filter_list.
  - intros sql limit Hs Hlim. unfold experience_list. rewrite Hs, rows_of_map.
    destruct (ordered_rows (records m)) as (l & -> & Hp & Hsorted).
    set (k := Z.to_nat (Z.min limit (Z.of_nat (length l)))).
    assert (Hlimit : sql_limit (as_i64 limit) (map row_of_experience l) = map row_of_experience (take k l)).
    { unfold sql_limit. replace (as_i64 limit) with limit.
      - rewrite (proj2 (Z.ltb_ge _ _)) by lia. by rewrite length_map, firstn_map.
      - unfold as_i64, i64_max in *. rewrite Z.mod_small; lia. }
    exists (take k l), (drop k l). rewrite Hlimit. split; [|split; [|split; [|split]]].
    + apply rows_read. apply Forall_take. by rewrite Hp.
    + by apply sorted_take.
    + by rewrite take_drop.
    + assert (Hlen : length l = size m) by (rewrite Hp; unfold records; by rewrite length_map, length_map_to_list).
      rewrite length_take. unfold k. lia.
    + intros a b. by apply sorted_split.
Qed.
End Facts.
End ExperienceFacts.

(** ** A concrete store *)

Module Demo.

#[export] Instance unit_json : JsonValue := {| json := str; json_null := lit "null"; json_empty_object := lit "{}" |}.

Definition statuses : list ExperienceStatus := [ESuccess; EFailure; ETimeout; ECancelled].

Definition read_Z (s : str) : option Z :=
  match s with
  | c :: s' => if (c =? chr "-")%N then option_map Z.opp (read_digits 0 s') else read_digits 0 s
  | [] => None
  end.

Lemma read_show_Z z : read_Z (show_Z z) = Some z.
Proof.
  assert (Hn : forall n, read_Z (show_N n) = Some (Z.of_N n)).
  { intros n. pose proof (show_N_read n) as Hr. destruct (show_N_cons n) as (c & r & E & Hd). rewrite E in *.
    unfold read_Z. destruct (N.eqb_spec c (chr "-")) as [->|]; [by vm_compute in Hd|done]. }
  destruct z as [|p|p]; [done|exact (Hn (Npos p))|]. cbn [show_Z read_Z]. rewrite N.eqb_refl.
  by rewrite (show_N_read (Npos p)).
Qed.

#[export] Instance demo_text : ExperienceText := {|
  et_json := fun v => Ok v;
  et_from_json := fun s => Ok s;
  et_rfc3339 := show_Z;
  et_from_rfc3339 := fun s => ok_or (read_Z s) (lit "bad time");
  et_four_digit_year := fun _ => true;
  et_status := fun s =>
    ok_or (List.find (fun x => str_eqb (quoted (status_text x)) s) statuses) (lit "unknown variant")
|}.

#[export] Instance demo_laws : ExperienceTextLaws.
Proof.
  split.
  - intros v s H. simpl in *. congruence.
  - intros t _. cbv beta iota delta [et_from_rfc3339 et_rfc3339 demo_text]. by rewrite read_show_Z.
  - by intros [].
Qed.

#[export] Instance newer_first_dec a b : Decision (newer_first a b).
Proof. unfold newer_first. apply _. Defined.
#[local] Instance newer_first_trans : Transitive newer_first.
Proof. intros a b c. unfold newer_first. intros H1 H2. by apply (RunStore.str_ltb_neg_trans _ (er_started_at b)). Qed.
#[local] Instance newer_first_total : Total newer_first.
Proof.
  intros a b. unfold newer_first. destruct (str_ltb (er_started_at a) (er_started_at b)) eqn:E; [|by left].
  right. by apply RunStore.str_ltb_asym.
Qed.

#[export] Instance merge_by_start : ExperienceOrder :=
  {| by_start := merge_sort newer_first;
     by_start_perm := merge_sort_Permutation newer_first;
     by_start_sorted := fun l => StronglySorted_merge_sort newer_first l |}.

Definition run_of (id : string) (t : Z) : ExperienceRecord :=
  with_trace_id (lit "t") (ExperienceRecord_new (lit id) t (lit "sandbox_run")).

Definition no_errors : ExperienceSql := fun _ => None.

Definition two_saved : ExperienceTable :=
  snd (experience_save no_errors (run_of "b" 20) (snd (experience_save no_errors (run_of "a" 10) ∅))).

Lemma experience_store_refines_witness :
  fst (experience_save no_errors (run_of "a" 10) ∅) = Ok tt /\
  experience_find no_errors (lit "a") ∅ = Ok None.
Proof.
  assert (H : ExperienceFacts.holds ∅ ∅) by (split; [by rewrite fmap_empty|by intros id r; rewrite lookup_empty]).
  destruct (ExperienceFacts.experience_store_refines ∅ ∅ H) as (Hs & Hf & _).
  specialize (Hs no_errors (run_of "a" 10) eq_refl). split; [|by rewrite (Hf no_errors (lit "a") eq_refl)].
  by destruct (experience_save no_errors (run_of "a" 10) ∅) as [[[]|e] t] eqn:E.
Defined.

Example listed_ex :
  experience_list no_errors 1 two_saved = Ok [run_of "b" 20] /\
  experience_find_trace no_errors (lit "t") two_saved = Ok [run_of "b" 20; run_of "a" 10] /\
  is_ok (fst (experience_save no_errors (run_of "a" 30) two_saved)) = false.
Proof. repeat split; vm_compute; reflexivity. Qed.

(** A limit beyond the signed range is a negative number to the database: none. *)
Example no_limit_ex : experience_list no_errors u64_max two_saved = Ok [run_of "b" 20; run_of "a" 10].
Proof. vm_compute. reflexivity. Qed.
End Demo.
