(* ===== verification/MetricsHistory.v ===== *)
(** * The history of metrics

    Models the table of metrics of [bastion-infrastructure/src/metrics/hub.rs]:
    recording a measurement, reading the history and deleting what is old.  The
    table is the list of its rows, in the order of insertion; every statement may
    fail ([MetricsSql]); instants are nanoseconds, and their text is a parameter
    ([InstantText]) whose order is that of time within the years of four digits;
    rows of one instant come in the order of the database ([MetricOrder]). *)

From Stdlib Require Import SpecFloat.
From stdpp Require Import sorting.
From S2P Require Import Prelude RunStore Hub.

(** [to_rfc3339] and [DateTime::from_str]. *)
Class InstantText := {
  it_text : Z -> str;
  it_parse : str -> result str Z
}.

(** The first instants of the years 0 and 10000, in nanoseconds. *)
Definition year_0 : Z := -62167219200000000000.
Definition year_10000 : Z := 253402300800000000000.
Definition four_digit_year (t : Z) : Prop := (year_0 <= t < year_10000)%Z.

Class InstantLaws `{TXT : InstantText} := {
  it_roundtrip t : four_digit_year t -> it_parse (it_text t) = Ok t;
  it_order a b : four_digit_year a -> four_digit_year b -> str_ltb (it_text a) (it_text b) = (a <? b)%Z
}.

Record MetricRecord := mkMetric {
  mr_timestamp : Z; mr_sandbox_id : option str; mr_cpu_percent : option float;
  mr_mem_used_mb : option float; mr_mem_limit_mb : option float; mr_disk_used_mb : option float;
  mr_commands_executed : option Z; mr_errors_total : option Z
}.

(** A row; the integers are signed in the database. *)
Record MetricRow := mkMetricRow {
  mw_timestamp : str; mw_sandbox_id : option str; mw_cpu : option float; mw_mem_used : option float;
  mw_mem_limit : option float; mw_disk : option float; mw_commands : option Z; mw_errors : option Z
}.

Abbreviation MetricsTable := (list MetricRow) (only parsing).

Inductive metrics_sql := SqlInsertMetric | SqlPrepareHistory | SqlQueryHistory | SqlDeleteMetrics.
Definition MetricsSql : Type := metrics_sql -> option str.

Definition earlier_first (a b : MetricRow) : Prop := str_ltb (mw_timestamp b) (mw_timestamp a) = false.

Class MetricOrder := {
  by_time : list MetricRow -> list MetricRow;
  by_time_perm : forall l, by_time l ≡ₚ l;
  by_time_sorted : forall l, StronglySorted earlier_first (by_time l)
}.

Section Table.
Context `{TXT : InstantText} `{ORD : MetricOrder}.

(** An unsigned counter does not bind beyond the signed range. *)
Definition binds (n : option Z) : bool :=
  match n with Some n => (n <=? i64_max)%Z | None => true end.

Definition row_of_metric (r : MetricRecord) : MetricRow :=
  mkMetricRow (it_text (mr_timestamp r)) (mr_sandbox_id r) (mr_cpu_percent r ≫= bind_f64)
    (mr_mem_used_mb r ≫= bind_f64) (mr_mem_limit_mb r ≫= bind_f64) (mr_disk_used_mb r ≫= bind_f64)
    (mr_commands_executed r) (mr_errors_total r).

Definition record_metric (sql : MetricsSql) (r : MetricRecord) (t : MetricsTable) :
    result MetricsHubError unit * MetricsTable :=
  if negb (binds (mr_commands_executed r) && binds (mr_errors_total r)) then
    (Err (HubSqlite (lit "out of range integral type conversion attempted")), t)
  else match sql SqlInsertMetric with
       | Some e => (Err (HubSqlite e), t)
       | None => (Ok tt, t ++ [row_of_metric r])
       end.

(** A row that is read; a counter below zero does not convert and drops the row,
    and a time that does not parse becomes the present. *)
Definition row_to_metric (now : Z) (w : MetricRow) : option MetricRecord :=
  let negative n := match n with Some n => (n <? 0)%Z | None => false end in
  if negative (mw_commands w) || negative (mw_errors w) then None
  else Some (mkMetric (match it_parse (mw_timestamp w) with Ok t => t | Err _ => now end)
               (mw_sandbox_id w) (mw_cpu w) (mw_mem_used w) (mw_mem_limit w) (mw_disk w)
               (mw_commands w) (mw_errors w)).

Definition get_metrics_history (sql : MetricsSql) (now since : Z) (t : MetricsTable) :
    result MetricsHubError (list MetricRecord) :=
  match sql SqlPrepareHistory with
  | Some e => Err (HubSqlite e)
  | None =>
      match sql SqlQueryHistory with
      | Some e => Err (HubSqlite e)
      | None => Ok (omap (row_to_metric now)
                  (by_time (List.filter (fun w => negb (str_ltb (mw_timestamp w) (it_text since))) t)))
      end
  end.

Definition THIRTY_DAYS : Z := 30 * 24 * 3600 * 1000000000.

Definition cleanup_old_metrics (sql : MetricsSql) (now : Z) (t : MetricsTable) :
    result MetricsHubError Z * MetricsTable :=
  match sql SqlDeleteMetrics with
  | Some e => (Err (HubSqlite e), t)
  | None =>
      let kept := List.filter (fun w => negb (str_ltb (mw_timestamp w) (it_text (now - THIRTY_DAYS)))) t in
      (Ok (Z.of_nat (length t - length kept)), kept)
  end.
End Table.

(** ** The table implements a list of measurements *)

Module HistoryFacts.
Section Facts.
Context `{TXT : InstantText} `{ORD : MetricOrder} `{LAWS : !@InstantLaws TXT}.

(** A measurement as it comes back: a NaN is stored as no value. *)
Definition stored (r : MetricRecord) : MetricRecord :=
  mkMetric (mr_timestamp r) (mr_sandbox_id r) (mr_cpu_percent r ≫= bind_f64)
    (mr_mem_used_mb r ≫= bind_f64) (mr_mem_limit_mb r ≫= bind_f64) (mr_disk_used_mb r ≫= bind_f64)
    (mr_commands_executed r) (mr_errors_total r).

Definition counted (n : option Z) : Prop := match n with Some n => (0 <= n <= i64_max)%Z | None => True end.

Definition recordable (r : MetricRecord) : Prop :=
  four_digit_year (mr_timestamp r) /\ counted (mr_commands_executed r) /\ counted (mr_errors_total r).

Definition holds (t : MetricsTable) (rs : list MetricRecord) : Prop :=
  t = map row_of_metric rs /\ Forall recordable rs.

Definition in_time (a b : MetricRecord) : Prop := (mr_timestamp a <= mr_timestamp b)%Z.

Lemma binds_counted n : counted n -> binds n = true.
Proof. destruct n; [|done]. cbn. lia. Qed.

Lemma metric_reads now r : recordable r -> row_to_metric now (row_of_metric r) = Some (stored r).
Proof.
  intros (Ht & Hc & He). unfold row_to_metric, row_of_metric. cbn [mw_commands mw_errors mw_timestamp].
  rewrite (it_roundtrip _ Ht). destruct (mr_commands_executed r) as [c|] eqn:E1, (mr_errors_total r) as [e|] eqn:E2;
    cbn in Hc, He; rewrite ?(proj2 (Z.ltb_ge _ _)) by lia; cbn; unfold stored; by rewrite E1, E2.
Qed.

Lemma metrics_read now rs :
  Forall recordable rs -> omap (row_to_metric now) (map row_of_metric rs) = map stored rs.
Proof. induction 1 as [|r rs Hr _ IH]; [done|]. cbn. rewrite metric_reads by done. f_equal. exact IH. Qed.

(** Filtering the rows by the text of an instant filters the measurements by time. *)
Lemma filter_rows since rs :
  four_digit_year since -> Forall recordable rs ->
  List.filter (fun w => negb (str_ltb (mw_timestamp w) (it_text since))) (map row_of_metric rs) =
  map row_of_metric (List.filter (fun r => (since <=? mr_timestamp r)%Z) rs).
Proof.
  intros Hs. induction 1 as [|r rs Hr _ IH]; [done|]. cbn [map List.filter row_of_metric mw_timestamp].
  rewrite (it_order _ _ (proj1 Hr) Hs), IH, Z.leb_antisym. by destruct (_ <? _)%Z.
Qed.

Lemma rows_in_time rs :
  Forall recordable rs -> StronglySorted earlier_first (map row_of_metric rs) ->
  StronglySorted in_time (map stored rs).
Proof.
  intros Hr Hs. apply sorted_map in Hs. revert Hr.
  induction Hs as [|r rs Hs IH Hall]; [constructor|]. intros [Hr Hrs]%Forall_cons_1.
  cbn. constructor; [by apply IH|]. apply Forall_map, Forall_forall. intros x Hx.
  rewrite Forall_forall in Hall, Hrs. specialize (Hall x Hx). unfold earlier_first in Hall.
  cbn in Hall. rewrite (it_order _ _ (proj1 (Hrs x Hx)) (proj1 Hr)) in Hall.
  unfold in_time. cbn. lia.
Qed.

(** Counting the deleted: what is filtered out is what the negation keeps. *)
Lemma filter_out {A} (f : A -> bool) (l : list A) :
  length l - length (List.filter f l) = length (List.filter (fun x => negb (f x)) l).
Proof.
  pose proof (filter_length f l). lia.
Qed.

(** The table of metrics is a list of measurements.  Recording one adds it, unless
    the database fails or a counter is beyond the signed range, and then nothing
    changes.  The history since an instant has every measurement taken then or
    later, and no other, in the order of time, with a NaN read back as no value.
    The cleanup deletes, and counts, exactly the measurements older than thirty
    days. *)
Theorem metrics_history_refines t rs :
  holds t rs ->
  (forall sql r, recordable r ->
     match record_metric sql r t with
     | (Ok _, t') => sql SqlInsertMetric = None /\ holds t' (rs ++ [r])
     | (Err _, t') => sql SqlInsertMetric <> None /\ t' = t
     end) /\
  (forall sql r n, mr_commands_executed r = Some n \/ mr_errors_total r = Some n -> (i64_max < n)%Z ->
     is_ok (fst (record_metric sql r t)) = false /\ snd (record_metric sql r t) = t) /\
  (forall sql now since, four_digit_year since -> sql SqlPrepareHistory = None -> sql SqlQueryHistory = None ->
     exists l, get_metrics_history sql now since t = Ok l /\ StronglySorted in_time l /\
       l ≡ₚ map stored (List.filter (fun r => (since <=? mr_timestamp r)%Z) rs)) /\
  (forall sql now, four_digit_year (now - THIRTY_DAYS) -> sql SqlDeleteMetrics = None ->
     exists t', cleanup_old_metrics sql now t =
         (Ok (Z.of_nat (length (List.filter (fun r => (mr_timestamp r <? now - THIRTY_DAYS)%Z) rs))), t') /\
       holds t' (List.filter (fun r => (now - THIRTY_DAYS <=? mr_timestamp r)%Z) rs)).
Proof.
  intros [-> Hrs]. split; [|split; [|split]].
  - intros sql r Hr. unfold record_metric. rewrite !binds_counted by apply Hr. cbn.
    destruct (sql SqlInsertMetric); [done|]. split; [done|]. split; [by rewrite map_app|].
    apply Forall_app. by split; [|constructor].
  - intros sql r n Hn Hbig. unfold record_metric.
    replace (binds _ && binds _) with false; [done|]. symmetry. apply andb_false_iff.
    destruct Hn as [-> | ->]; [left|right]; cbn; lia.
  - intros sql now since Hs H1 H2. unfold get_metrics_history. rewrite H1, H2, filter_rows by done.
    set (kept := List.filter _ rs). assert (Hk : Forall recordable kept) by by apply Forall_filter_list.
    destruct (Permutation_map_inv _ _ (by_time_perm (map row_of_metric kept))) as (l & Hl & Hp).
    assert (Hlr : Forall recordable l) by by rewrite <- Hp.
    exists (map stored l). rewrite Hl, metrics_read by done. split; [done|]. split.
    + apply rows_in_time; [done|]. rewrite <- Hl. apply by_time_sorted.
    + by rewrite <- Hp.
  - intros sql now Hn Hd. unfold cleanup_old_metrics. rewrite Hd, filter_rows by done. eexists. split.
    + rewrite !length_map, filter_out. do 4 f_equal.
      rewrite (filter_ext _ (fun r => mr_timestamp r <? now - THIRTY_DAYS)%Z); [done|].
      intros r. by rewrite Z.ltb_antisym.
    + split; [done|]. by apply Forall_filter_list.
Qed.
End Facts.
End HistoryFacts.

(** ** A concrete table *)

Module Demo.
(** Twenty-one digits, counted from the first instant of the year 0. *)
Fixpoint fixed_digits (w : nat) (n : Z) : str :=
  match w with
  | O => []
  | S w => fixed_digits w (n / 10) ++ [Z.to_N (48 + n mod 10)]
  end.

Definition demo_digits (t : Z) : str := fixed_digits 21 (t - year_0).

Lemma fixed_digits_length w n : length (fixed_digits w n) = w.
Proof. revert n. induction w as [|w IH]; intros n; [done|]. cbn. rewrite length_app, IH. cbn. lia. Qed.

Lemma str_ltb_snoc a b x y :
  length a = length b -> str_ltb (a ++ [x]) (b ++ [y]) = str_ltb a b || (str_eqb a b && (x <? y)%N).
Proof.
  revert b. induction a as [|c a IH]; intros [|d b] H; try done.
  - cbn. destruct (N.ltb_spec x y), (N.ltb_spec y x); done || lia.
  - change (str_ltb ((c :: a) ++ [x]) ((d :: b) ++ [y])) with
      ((c <? d)%N || ((c =? d)%N && str_ltb (a ++ [x]) (b ++ [y]))).
    change (str_ltb (c :: a) (d :: b)) with ((c <? d)%N || ((c =? d)%N && str_ltb a b)).
    rewrite IH by (cbn in H; lia). replace (str_eqb (c :: a) (d :: b)) with ((c =? d)%N && str_eqb a b).
    + by destruct (c <? d)%N, (c =? d)%N.
    + unfold str_eqb. destruct (N.eqb_spec c d) as [->|]; repeat case_bool_decide; simpl; congruence.
Qed.

Lemma fixed_digits_order w a b :
  (0 <= a < 10 ^ Z.of_nat w)%Z -> (0 <= b < 10 ^ Z.of_nat w)%Z ->
  str_ltb (fixed_digits w a) (fixed_digits w b) = (a <? b)%Z /\
  str_eqb (fixed_digits w a) (fixed_digits w b) = (a =? b)%Z.
Proof.
  revert a b. induction w as [|w IH]; intros a b Ha Hb.
  - cbn in *. replace a with 0%Z by lia. by replace b with 0%Z by lia.
  - assert (Hp : (10 ^ Z.of_nat (S w) = 10 * 10 ^ Z.of_nat w)%Z)
      by (rewrite Nat2Z.inj_succ, Z.pow_succ_r; lia).
    pose proof (Z.div_mod a 10 ltac:(done)) as Da. pose proof (Z.div_mod b 10 ltac:(done)) as Db.
    pose proof (Z.mod_pos_bound a 10 ltac:(done)) as Ma. pose proof (Z.mod_pos_bound b 10 ltac:(done)) as Mb.
    destruct (IH (a / 10)%Z (b / 10)%Z) as [Hl He]; [nia|nia|]. cbn [fixed_digits].
    rewrite str_ltb_snoc by by rewrite !fixed_digits_length. rewrite Hl, He. split.
    + replace (Z.to_N (48 + a mod 10) <? Z.to_N (48 + b mod 10))%N with (a mod 10 <? b mod 10)%Z
        by (destruct (Z.ltb_spec (a mod 10) (b mod 10)),
              (N.ltb_spec (Z.to_N (48 + a mod 10)) (Z.to_N (48 + b mod 10))); done || lia).
      destruct (Z.ltb_spec (a / 10) (b / 10)), (Z.eqb_spec (a / 10) (b / 10)),
        (Z.ltb_spec (a mod 10) (b mod 10)), (Z.ltb_spec a b); done || lia.
    + destruct (Z.eqb_spec a b) as [->|Hne]; [by rewrite str_eqb_refl|]. apply not_true_iff_false.
      intros E%str_eqb_eq. apply app_inj_tail in E as [E1 [= E2]].
      rewrite (proj2 (str_eqb_eq _ _) E1) in He. lia.
Qed.

Lemma read_snoc a c n :
  read_digits 0 a = Some n -> is_ascii_digit c = true ->
  read_digits 0 (a ++ [c]) = Some (n * 10 + Z.of_N (c - 48))%Z.
Proof.
  intros Ha Hc. revert Ha. generalize 0%Z. induction a as [|x a IH]; intros acc Ha; cbn in Ha |- *.
  - injection Ha as ->. by rewrite Hc.
  - destruct (is_ascii_digit x); [by apply IH|done].
Qed.

Lemma fixed_digits_read w n : (0 <= n < 10 ^ Z.of_nat w)%Z -> read_digits 0 (fixed_digits w n) = Some n.
Proof.
  revert n. induction w as [|w IH]; intros n Hn.
  - cbn in *. f_equal. lia.
  - assert (Hp : (10 ^ Z.of_nat (S w) = 10 * 10 ^ Z.of_nat w)%Z)
      by (rewrite Nat2Z.inj_succ, Z.pow_succ_r; lia).
    pose proof (Z.div_mod n 10 ltac:(done)) as Dn. pose proof (Z.mod_pos_bound n 10 ltac:(done)) as Mn.
    cbn [fixed_digits]. rewrite (read_snoc _ _ (n / 10)).
    + f_equal. lia.
    + apply IH. nia.
    + unfold is_ascii_digit, in_range. apply andb_true_intro. split; apply N.leb_le; lia.
Qed.

#[export] Instance demo_instants : InstantText := {|
  it_text := demo_digits;
  it_parse := fun s => ok_or (option_map (fun n => n + year_0)%Z (read_digits 0 s)) (lit "bad time")
|}.

#[export] Instance demo_instant_laws : InstantLaws.
Proof.
  assert (H : forall t, four_digit_year t -> (0 <= t - year_0 < 10 ^ Z.of_nat 21)%Z).
  { intros t Ht. unfold four_digit_year, year_0, year_10000 in *. cbn. lia. }
  split.
  - intros t Ht. cbn [it_parse it_text demo_instants]. unfold demo_digits.
    rewrite fixed_digits_read by by apply H. cbn. f_equal. lia.
  - intros a b Ha Hb. cbn [it_text demo_instants]. unfold demo_digits.
    rewrite (proj1 (fixed_digits_order 21 _ _ (H a Ha) (H b Hb))).
    destruct (Z.ltb_spec a b), (Z.ltb_spec (a - year_0) (b - year_0)); done || lia.
Qed.

#[export] Instance earlier_first_dec a b : Decision (earlier_first a b).
Proof. unfold earlier_first. apply _. Defined.
#[local] Instance earlier_first_trans : Transitive earlier_first.
Proof.
  intros a b c. unfold earlier_first. intros H1 H2. by apply (str_ltb_neg_trans _ (mw_timestamp b)).
Qed.
#[local] Instance earlier_first_total : Total earlier_first.
Proof.
  intros a b. unfold earlier_first. destruct (str_ltb (mw_timestamp b) (mw_timestamp a)) eqn:E; [|by left].
  right. by apply str_ltb_asym.
Qed.

#[export] Instance merge_by_time : MetricOrder :=
  {| by_time := merge_sort earlier_first;
     by_time_perm := merge_sort_Permutation earlier_first;
     by_time_sorted := fun l => StronglySorted_merge_sort earlier_first l |}.

Definition measured (day : Z) : MetricRecord :=
  mkMetric (day * 24 * 3600 * 1000000000) (Some (lit "sb")) (Some S754_nan) None None None (Some 3%Z) None.

Definition no_failure : MetricsSql := fun _ => None.

Definition two_rows : list MetricRow := map row_of_metric [measured 40; measured 2].

Lemma metrics_history_witness :
  exists l, get_metrics_history no_failure 0 0 two_rows = Ok l /\ l ≡ₚ map HistoryFacts.stored [measured 40; measured 2].
Proof.
  assert (H : HistoryFacts.holds two_rows [measured 40; measured 2]).
  { split; [done|]. repeat constructor; cbn; done. }
  destruct (HistoryFacts.metrics_history_refines two_rows [measured 40; measured 2] H) as (_ & _ & Hh & _).
  destruct (Hh no_failure 0%Z 0%Z ltac:(by split) eq_refl eq_refl) as (l & Hl & _ & Hp).
  exists l. split; [exact Hl|exact Hp].
Defined.

Example history_ex :
  get_metrics_history no_failure 0 0 two_rows = Ok (map HistoryFacts.stored [measured 2; measured 40]) /\
  fst (cleanup_old_metrics no_failure (mr_timestamp (measured 50)) two_rows) = Ok 1%Z.
Proof. split; vm_compute; reflexivity. Qed.
End Demo.
