(* ===== verification/QueryTools.v ===== *)
(** * The gateway's tools over what was recorded

    Models the tools of [bastion-gateway/src] that read, and clean up, what the
    gateway keeps: [catalog_tools.rs] (experiences and assertions),
    [enrichment_tools.rs] (the optimizer's report, the retention of runs, health)
    and [metrics_tools.rs] (the history of metrics, the resources of a sandbox).
    An answer is the value that is written as JSON, or the text of its field
    [error]. *)

From Stdlib Require Import SpecFloat.
From S2P Require Import Prelude Fmt Extractors Normalizer Sandbox Experience Catalog.
From S2P Require Import Metrics RunStore Optimizer Adapter Hub ExperienceDb MetricsHistory.

Abbreviation Answer := (result str) (only parsing).

(** ** Experiences and assertions *)

Definition no_experience_store : str := lit "experience store not configured".
Definition no_assertion_registry : str := lit "assertion registry not configured".
Definition missing (what id : str) : str := what ++ lit " '" ++ id ++ lit "' not found".

Section CatalogTools.
Context `{DebugTables} `{JsonValue} `{HashOrder}.

(** [catalog_config]: a store and a registry, each of which may be absent. *)
Variable experience_store : option ExperienceStore.
Variable assertion_registry : option (gmap str AssertionDescriptor).

Definition experience_list (trace_id : str) : Answer (str * nat * list ExperienceRecord) :=
  match experience_store with
  | None => Err no_experience_store
  | Some store =>
      match es_find_by_trace_id store trace_id with
      | Ok records => Ok (trace_id, length records, records)
      | Err e => Err (show_error e)
      end
  end.

Definition experience_get (experience_id : str) : Answer ExperienceRecord :=
  match experience_store with
  | None => Err no_experience_store
  | Some store =>
      match es_find_by_id store experience_id with
      | Ok (Some record) => Ok record
      | Ok None => Err (missing (lit "experience") experience_id)
      | Err e => Err (show_error e)
      end
  end.

Definition assertion_list : Answer (nat * list AssertionDescriptor) :=
  match assertion_registry with
  | None => Err no_assertion_registry
  | Some registry => let assertions := map snd (hash_iter _ registry) in Ok (length assertions, assertions)
  end.

(** The evaluation is written out in the tool. *)
Definition assertion_run (assertion_id experience_id : str) : Answer AssertionResult :=
  match experience_store with
  | None => Err no_experience_store
  | Some store =>
      match assertion_registry with
      | None => Err no_assertion_registry
      | Some registry =>
          match registry !! assertion_id with
          | None => Err (missing (lit "assertion") assertion_id)
          | Some assertion =>
              match es_find_by_id store experience_id with
              | Ok None => Err (missing (lit "experience") experience_id)
              | Err e => Err (show_error e)
              | Ok (Some experience) =>
                  let check_results := map (fun check =>
                    let '(passed, reason) := evaluate_check check experience in
                    mkCheck (debug_check check) passed reason) (as_checks assertion) in
                  Ok (mkAssertionResult (forallb ck_passed check_results) (as_id assertion) check_results)
              end
          end
      end
  end.

Definition assertion_dry_run (assertion_id : str) : Answer AssertionDescriptor :=
  match assertion_registry with
  | None => Err no_assertion_registry
  | Some registry =>
      match registry !! assertion_id with
      | Some assertion => Ok assertion
      | None => Err (missing (lit "assertion") assertion_id)
      end
  end.
End CatalogTools.

(** ** Enrichment *)

Definition show_enrichment_error (e : EnrichmentError) : str :=
  match e with
  | ErrFileSystem s => lit "File system error: " ++ s
  | ErrCatalog s => lit "Catalog error: " ++ s
  | ErrExtraction s => lit "Extraction error: " ++ s
  | ErrConfig s => lit "Config error: " ++ s
  | ErrRecorder s => lit "Recorder error: " ++ s
  | ErrIo s => lit "IO error: " ++ s
  end.

Definition no_adapter : str := lit "enrichment adapter not configured".
Definition no_recorder : str := lit "enrichment recorder not configured".

Section EnrichmentTools.
Context `{RegexCaptures} `{HashOrder} `{SqlOrder}.

(** The recorder sends a command to the worker; [None] is a worker whose reply
    channel closed. *)
Definition recorder_stats (db : Db) (w : option Table) : result EnrichmentError RunRecorderStats :=
  match w with
  | Some t => do_stats db t
  | None => Err (recorder_error (lit "Worker response error: ") (lit "channel closed"))
  end.

Definition recorder_cleanup (db : Db) (cutoff : str) (w : option Table) (retention : RetentionConfig) :
    result EnrichmentError Z * option Table :=
  match w with
  | Some t => let '(r, t') := do_cleanup db cutoff t retention in (r, Some t')
  | None => (Err (recorder_error (lit "Worker response error: ") (lit "channel closed")), None)
  end.

Definition enrichment_optimizer_report (adapter : option Adapter) (db : Db) (w : option Table)
    (after : option str) : Answer OptimizerReport :=
  match adapter with
  | None => Err no_recorder
  | Some a =>
      if ad_optimizer_repo a then
        match read_records db w after with
        | Ok records => Ok (generate_report records)
        | Err e => Err (lit "Failed to generate optimizer report: " ++ show_enrichment_error e)
        end
      else Err (lit "enrichment optimizer repository not configured")
  end.

Definition enrichment_retention_info (adapter : option Adapter) (db : Db) (w : option Table) :
    Answer RetentionStats :=
  match adapter with
  | None => Err no_recorder
  | Some a => ok_or (retention_info (recorder_stats db w) a) no_recorder
  end.

Record CleanupAnswer := mkCleanup { deleted_rows : Z; remaining_rows : option Z }.

Definition enrichment_retention_cleanup (adapter : option Adapter) (db : Db) (cutoff : str)
    (w : option Table) : Answer CleanupAnswer * option Table :=
  match adapter with
  | None => (Err no_recorder, w)
  | Some a =>
      match ad_recorder a with
      | None => (Err no_recorder, w)
      | Some retention =>
          match recorder_cleanup db cutoff w retention with
          | (Ok deleted, w') =>
              (Ok (mkCleanup deleted
                     (match recorder_stats db w' with Ok s => Some (current_row_count s) | Err _ => None end)),
               w')
          | (Err e, w') => (Err (lit "Retention cleanup failed: " ++ show_enrichment_error e), w')
          end
      end
  end.

Definition enrichment_health (adapter : option Adapter) (now : Z) (db : Db) (w : option Table) :
    Answer EnrichmentHealth * option Adapter :=
  match adapter with
  | None => (Err no_adapter, None)
  | Some a =>
      let rows := match recorder_stats db w with Ok s => Some (current_row_count s) | Err _ => None end in
      let '(h, a') := health now rows a in (Ok h, Some a')
  end.
End EnrichmentTools.

(** ** Metrics *)

Section MetricsTools.
Context `{TXT : InstantText} `{ORD : MetricOrder}.

(** [MetricsHubError]'s [Display]. *)
Definition show_hub_error (e : MetricsHubError) : str :=
  match e with
  | HubSqlite e => lit "SQLite error: " ++ e
  | HubConfig e => lit "Config error: " ++ e
  end.

Record MetricsHistoryParams := mkHistoryParams { mp_since : str; mp_sandbox_id : option str }.

(** A record of the answer has the text of its instant. *)
Record MetricRecordResponse := mkMetricResponse {
  mo_timestamp : str; mo_sandbox_id : option str; mo_cpu_percent : option float;
  mo_mem_used_mb : option float; mo_mem_limit_mb : option float; mo_disk_used_mb : option float;
  mo_commands_executed : option Z; mo_errors_total : option Z
}.

Record MetricsHistoryResponse := mkHistoryResponse {
  mh_records : list MetricRecordResponse; mh_count : nat; mh_since : str
}.

Definition metric_response (r : MetricRecord) : MetricRecordResponse :=
  mkMetricResponse (it_text (mr_timestamp r)) (mr_sandbox_id r) (mr_cpu_percent r) (mr_mem_used_mb r)
    (mr_mem_limit_mb r) (mr_disk_used_mb r) (mr_commands_executed r) (mr_errors_total r).

(** [hub] is the table of the hub, if there is one. *)
Definition sandbox_metrics_history (sql : MetricsSql) (now : Z) (hub : option (list MetricRow))
    (params : MetricsHistoryParams) : Answer MetricsHistoryResponse :=
  match it_parse (mp_since params) with
  | Err e => Err (lit "invalid timestamp format '" ++ mp_since params ++ lit "': " ++ e)
  | Ok since =>
      match hub with
      | None => Ok (mkHistoryResponse [] 0 (mp_since params))
      | Some t =>
          match get_metrics_history sql now since t with
          | Err e => Err (lit "failed to get metrics history: " ++ show_hub_error e)
          | Ok history =>
              let records := map metric_response history in
              Ok (mkHistoryResponse records (length records) (mp_since params))
          end
      end
  end.

Record ResourceUsageResponse := mkUsage {
  ru_sandbox_id : str; ru_cpu_percent : float; ru_mem_used_mb : float; ru_mem_limit_mb : float;
  ru_disk_used_mb : float; ru_loadavg_1m : float; ru_uptime_seconds : Z; ru_last_heartbeat : str;
  ru_active : bool
}.

Definition no_usage (id : str) : ResourceUsageResponse :=
  mkUsage id f_zero f_zero f_zero f_zero f_zero 0 [] false.

Definition sandbox_resource_usage (from_timestamp : Z -> option Z) (now : Z) (hub : option MetricsHub)
    (id : str) : ResourceUsageResponse :=
  match hub with
  | None => no_usage id
  | Some h =>
      match get_sandbox_resources from_timestamp now h id with
      | None => no_usage id
      | Some x => mkUsage id (xr_cpu_percent x) (xr_mem_used_mb x) (xr_mem_limit_mb x) (xr_disk_used_mb x)
                    (xr_loadavg_1m x) (xr_uptime_seconds x) (it_text (xr_last_heartbeat x)) true
      end
  end.
End MetricsTools.

(** ** The tools over their stores *)

Section OverStores.
Context `{DebugTables} `{TXT : ExperienceText} `{EORD : ExperienceOrder}.
Context `{LAWS : !@ExperienceTextLaws JV TXT}.

(** The SQLite store as the tools see it, at one moment. *)
Definition sqlite_store (sql : ExperienceSql) (t : ExperienceTable) : ExperienceStore :=
  mkStore (fun r => fst (experience_save sql r t)) (fun id => experience_find sql id t)
    (fun trace => experience_find_trace sql trace t)
    (fun limit => ExperienceDb.experience_list sql (Z.of_nat limit) t).

Lemma sqlite_store_find sql t m id :
  ExperienceFacts.holds t m -> sql SqlSelectId = None ->
  es_find_by_id (sqlite_store sql t) id = Ok (m !! id).
Proof.
  intros [-> Hm] Hs. cbn [sqlite_store es_find_by_id]. unfold experience_find. rewrite Hs, lookup_fmap.
  destruct (m !! id) as [r|] eqn:El; [|done]. cbn. rewrite ExperienceFacts.row_reads; [done|]. by apply (Hm id).
Qed.

(** Running an assertion against an experience: over the assertions loaded from a
    directory and the experiences saved in the database, the tool answers what the
    use case computes from the last file that describes the assertion and the
    record saved under the identifier, and says which of the two is missing
    otherwise; looking at the assertion shows the one that would be run. *)
Theorem assertion_run_stored {E} (files : list (result E TomlAssertion)) sql t m aid eid :
  ExperienceFacts.holds t m -> sql SqlSelectId = None ->
  let store := Some (sqlite_store sql t) in
  let registry := Some (fst (load_assertions files ∅ 0)) in
  assertion_run store registry aid eid =
    match last_with_id files aid with
    | None => Err (missing (lit "assertion") aid)
    | Some a =>
        match m !! eid with
        | None => Err (missing (lit "experience") eid)
        | Some r => Ok (evaluate_against (assertion_of_toml a) r)
        end
    end /\
  assertion_dry_run registry aid =
    ok_or (option_map assertion_of_toml (last_with_id files aid)) (missing (lit "assertion") aid) /\
  experience_get store eid = ok_or (m !! eid) (missing (lit "experience") eid).
Proof.
  intros Hh Hs. cbv zeta. pose proof (sqlite_store_find sql t m eid Hh Hs) as Hf.
  unfold assertion_run, assertion_dry_run, experience_get. rewrite load_assertions_lookup, Hf, lookup_empty.
  by destruct (last_with_id files aid), (m !! eid).
Qed.
End OverStores.

Section Retention.
Context `{RegexCaptures} `{HashOrder} `{SqlOrder}.

Lemma stats_count t : do_stats db_ok t = Ok (mkStats (Z.of_nat (size t)) (min_timestamp t) (max_timestamp t)) \/
  (size t = 0 /\ do_stats db_ok t = Ok RunRecorderStats_empty).
Proof.
  unfold do_stats. cbn. destruct (Nat.eqb_spec (size t) 0); [by right|by left].
Qed.

Lemma remaining_count t :
  match recorder_stats db_ok (Some t) with Ok s => Some (current_row_count s) | Err _ => None end =
  Some (Z.of_nat (size t)).
Proof. cbn [recorder_stats]. by destruct (stats_count t) as [-> | [Ht ->]]; [|rewrite Ht]. Qed.

(** A table that satisfies the policy is left as it is. *)
Lemma cleanup_settled cutoff t ret :
  retention_enabled ret = true -> (0 <= max_rows ret <= i64_max)%Z -> (Z.of_nat (size t) <= max_rows ret)%Z ->
  map_Forall (fun _ row => str_ltb (c_timestamp row) cutoff = false) t ->
  do_cleanup db_ok cutoff t ret = (Ok 0%Z, t).
Proof.
  intros He Hm Hs Hrows. pose proof (cleanup_spec cutoff t ret He Hm ltac:(lia)) as Hc.
  destruct (do_cleanup db_ok cutoff t ret) as [r t'] eqn:E. destruct Hc as (-> & Hsub & Hle & Hk & Hdel).
  assert (Heq : t' = t).
  { apply map_subseteq_po; [done|]. apply map_subseteq_spec. intros id row Hid.
    destruct (t' !! id) as [row'|] eqn:E'; [by rewrite <- Hid, (lookup_weaken _ _ _ _ E' Hsub)|].
    exfalso. destruct (Hdel id row Hid E') as [Hold|[Hsz _]]; [by rewrite (Hrows id row Hid) in Hold|].
    assert (Hlt : t' ⊂ t) by (split; [done|]; intros Hts; by rewrite (lookup_weaken _ _ _ _ Hid Hts) in E').
    apply map_subset_size in Hlt. lia. }
  rewrite Heq. f_equal. f_equal. lia.
Qed.

(** The cleanup tool, with a recorder whose policy is enabled and whose limit is a
    signed 64-bit number: the counts it answers are those of the rows that went and
    of the rows that stay; no row stays that is older than the cutoff, at most
    [max_rows] stay, a row that is not older goes only to meet that limit, and then
    every row that stays is at least as recent.  A second call with the same cutoff
    deletes nothing. *)
Theorem retention_cleanup_spec (a : Adapter) (ret : RetentionConfig) (cutoff : str) (t : Table) :
  ad_recorder a = Some ret -> retention_enabled ret = true -> (0 <= max_rows ret <= i64_max)%Z ->
  (Z.of_nat (size t) <= i64_max)%Z ->
  exists t', t' ⊆ t /\
    enrichment_retention_cleanup (Some a) db_ok cutoff (Some t) =
      (Ok (mkCleanup (Z.of_nat (size t) - Z.of_nat (size t')) (Some (Z.of_nat (size t')))), Some t') /\
    (Z.of_nat (size t') <= max_rows ret)%Z /\
    map_Forall (fun _ row => str_ltb (c_timestamp row) cutoff = false) t' /\
    (forall id row, t !! id = Some row -> t' !! id = None ->
      str_ltb (c_timestamp row) cutoff = true \/
      (Z.of_nat (size t') = max_rows ret /\
       map_Forall (fun _ row' => str_ltb (c_timestamp row') (c_timestamp row) = false) t')) /\
    enrichment_retention_cleanup (Some a) db_ok cutoff (Some t') =
      (Ok (mkCleanup 0 (Some (Z.of_nat (size t')))), Some t').
Proof.
  intros Ha He Hm Hs. pose proof (cleanup_spec cutoff t ret He Hm Hs) as Hc.
  destruct (do_cleanup db_ok cutoff t ret) as [r t'] eqn:E. destruct Hc as (-> & Hsub & Hle & Hk & Hdel).
  exists t'. unfold enrichment_retention_cleanup, recorder_cleanup. rewrite Ha, E, remaining_count.
  rewrite (cleanup_settled cutoff t' ret) by done. by rewrite remaining_count.
Qed.

(** The report since an instant written with a final [Z] leaves out every run of
    that second: the instants of the runs are written with an offset or a fraction,
    and the comparison is one of texts. *)
Theorem report_skips_second (t : Table) (p : str) (c : char) (s : str) (rs : list EnrichmentRunRecord) :
  (c < chr "Z")%N -> read_records db_ok (Some t) (Some (p ++ lit "Z")) = Ok rs ->
  Forall (fun r => run_timestamp r <> p ++ c :: s) rs.
Proof.
  intros Hc E. apply Forall_forall. intros r Hr Ht. cbn [read_records] in E.
  destruct (proj1 (elem_of_records t (Some (p ++ lit "Z")) r)) as (id & row & _ & Hk & Hrow); [by exists rs|].
  assert (Hrt : c_timestamp row = run_timestamp r).
  { unfold row_to_record in Hrow. repeat case_match; try done. by injection Hrow as <-. }
  unfold not_before in Hk. rewrite Hrt, Ht in Hk. clear -Hc Hk. induction p as [|x p IH].
  - change (negb ((c <? chr "Z")%N || ((c =? chr "Z")%N && str_ltb s [])) = true) in Hk.
    by rewrite (proj2 (N.ltb_lt _ _) Hc) in Hk.
  - apply IH. revert Hk. cbn [app str_ltb]. by rewrite N.ltb_irrefl, N.eqb_refl.
Qed.
End Retention.

(** ** Concrete stores *)

Module Demo.
#[local] Existing Instances ExperienceDb.Demo.unit_json ExperienceDb.Demo.demo_text ExperienceDb.Demo.demo_laws
  ExperienceDb.Demo.merge_by_start.
#[local] Existing Instances RuleParser.substring_engine Extractors.substring_captures some_order merge_order.
#[local] Existing Instances MetricsHistory.Demo.demo_instants MetricsHistory.Demo.merge_by_time no_printable.

Definition exit_zero : TomlAssertion :=
  mkTomlAssertion (lit "ok") (lit "ok") [] [] (Some (TExitCode 0)) [].

Definition one_saved : ExperienceTable :=
  {[lit "a" := row_of_experience (ExperienceDb.Demo.run_of "a" 10)]}.

Lemma assertion_run_stored_witness :
  let files : list (result unit TomlAssertion) := [Ok exit_zero] in
  let store := Some (sqlite_store ExperienceDb.Demo.no_errors one_saved) in
  let registry := Some (fst (load_assertions files ∅ 0)) in
  assertion_run store registry (lit "ok") (lit "a") =
    Ok (evaluate_against (assertion_of_toml exit_zero) (ExperienceDb.Demo.run_of "a" 10)) /\
  assertion_run store registry (lit "ok") (lit "b") = Err (missing (lit "experience") (lit "b")).
Proof.
  assert (H : ExperienceFacts.holds one_saved {[lit "a" := ExperienceDb.Demo.run_of "a" 10]}).
  { split; [unfold one_saved; by rewrite map_fmap_singleton|].
    intros id r Hl. apply lookup_singleton_Some in Hl as [<- <-]. by split; vm_compute. }
  split.
  - destruct (assertion_run_stored [Ok exit_zero : result unit TomlAssertion] ExperienceDb.Demo.no_errors _ _
      (lit "ok") (lit "a") H eq_refl) as (Hr & _). etransitivity; [exact Hr|]. vm_compute. reflexivity.
  - destruct (assertion_run_stored [Ok exit_zero : result unit TomlAssertion] ExperienceDb.Demo.no_errors _ _
      (lit "ok") (lit "b") H eq_refl) as (Hr & _). etransitivity; [exact Hr|]. vm_compute. reflexivity.
Defined.

Lemma retention_cleanup_witness :
  exists t', t' ⊆ sample_table /\
    snd (enrichment_retention_cleanup (Some sample_adapter) db_ok (lit "2025") (Some t')) = Some t'.
Proof.
  destruct (retention_cleanup_spec sample_adapter RetentionConfig_default (lit "2025") sample_table eq_refl eq_refl
    ltac:(split; vm_compute; discriminate) ltac:(vm_compute; discriminate)) as (t' & Hs & _ & _ & _ & _ & E).
  exists t'. split; [exact Hs|]. rewrite E. reflexivity.
Defined.

(** A run half a second into the minute the report is asked from. *)
Definition half_past : Table :=
  {[lit "r" := row_of (mkRun (lit "r") (lit "2025-02-01T00:00:00.500+00:00") (lit "ls") (lit "e") 0 5 None None
                        0 0 0 0 0 f_zero None 0 None) (lit "ls")]}.

Lemma report_skips_second_witness :
  exists rs, read_records db_ok (Some half_past) (Some (lit "2025-02-01T00:00:00" ++ lit "Z")) = Ok rs /\
    Forall (fun r => run_timestamp r <> lit "2025-02-01T00:00:00" ++ chr "." :: lit "500+00:00") rs.
Proof.
  destruct (read_records db_ok (Some half_past) (Some (lit "2025-02-01T00:00:00" ++ lit "Z"))) as [rs|e] eqn:E.
  - exists rs. split; [reflexivity|].
    apply (report_skips_second half_past (lit "2025-02-01T00:00:00") (chr ".") (lit "500+00:00") rs eq_refl E).
  - exfalso. vm_compute in E. discriminate.
Defined.

Example report_ex :
  option_map rp_total_runs_analyzed (match enrichment_optimizer_report
    (Some (with_optimizer_repo sample_adapter)) db_ok (Some half_past) (Some (lit "2025-02-01T00:00:00Z"))
    with Ok r => Some r | Err _ => None end) = Some 0%Z.
Proof. vm_compute. reflexivity. Qed.

(** The filter by sandbox is not applied. *)
Example filter_ignored_ex :
  match sandbox_metrics_history MetricsHistory.Demo.no_failure 0 (Some MetricsHistory.Demo.two_rows)
    (mkHistoryParams (MetricsHistory.Demo.demo_digits 0) (Some (lit "other"))) with
  | Ok r => map mo_sandbox_id (mh_records r) = [Some (lit "sb"); Some (lit "sb")]
  | Err _ => False
  end.
Proof. vm_compute. reflexivity. Qed.
End Demo.
