(* ===== verification/PipelineEvents.v ===== *)
(** * The stream of pipeline events

    Models what the gateway does with the events of a pipeline besides storing them
    ([bastion-gateway/src/pipeline_events.rs], and the server of events in
    [bastion-gateway/src/main.rs]): the broadcast to the clients that are connected,
    the text of an event on the wire, and the answer to a request.  The store by
    run is that of [Session].  A broadcast channel is the list of what was ever
    sent, and a receiver a position in it; a receiver that is further behind than
    the capacity is told so once and moved forward, as the documentation of the
    channel says.  The text of an event as JSON is a parameter ([PipelineJson]). *)

From S2P Require Import Prelude Utf8 SandboxFs Session Events.

(** ** The broadcast channel *)

(** The store of events and what was sent to the clients, oldest first. *)
Record EventStore := mkEventStore { ps_events : gmap str (list PipelineEvent); ps_sent : list PipelineEvent }.

Definition EventStore_new : EventStore := mkEventStore ∅ [].

Definition CHANNEL_CAPACITY : nat := 1024.

Definition push (e : PipelineEvent) (s : EventStore) : EventStore :=
  mkEventStore (events_push e (ps_events s)) (ps_sent s ++ [e]).

(** A new receiver gets what is sent from now on. *)
Definition subscribe (s : EventStore) : nat := length (ps_sent s).

Inductive received := NextEvent (e : PipelineEvent) | FellBehind (missed : nat) | NothingYet.

Definition recv (s : EventStore) (pos : nat) : received * nat :=
  let len := length (ps_sent s) in
  if pos + CHANNEL_CAPACITY <? len then
    (FellBehind (len - CHANNEL_CAPACITY - pos), len - CHANNEL_CAPACITY)
  else
    match ps_sent s !! pos with
    | Some e => (NextEvent e, S pos)
    | None => (NothingYet, pos)
    end.

(** ** An event on the wire *)

Record PipelineEventSse := mkEventSse {
  se_event_type : str; se_pipeline_run_id : str; se_stage_name : str; se_step_name : str;
  se_step_index : Z; se_payload : str; se_timestamp_ms : Z; se_labels : gmap str str
}.

Class PipelineJson := pipeline_json : PipelineEventSse -> result str str.

(** JSON is a text of one line, without space around it. *)
Class PipelineJsonLaws `{PipelineJson} :=
  pipeline_json_line e s : pipeline_json e = Ok s -> EventFacts.clean s /\ Forall scalar_value s.

Section Wire.
Context `{PJ : PipelineJson}.

Definition event_to_sse (event : PipelineEvent) : str :=
  let payload_str := from_utf8_lossy (pe_payload event) in
  let sse_event := mkEventSse (pe_event_type event) (pe_run_id event) (pe_stage_name event)
    (pe_step_name event) (pe_step_index event) payload_str (pe_timestamp_ms event) (pe_labels event) in
  match pipeline_json sse_event with
  | Ok json => lit "data: " ++ json ++ [10; 10]%N
  | Err _ => []
  end.

(** ** The server *)

Record Response := mkResponse { rsp_status : Z; rsp_content_type : str; rsp_streams : bool }.

Definition is_valid_path (method path : str) : bool :=
  str_eqb method (lit "GET") && str_eqb path (lit "/api/v1/pipeline-events").

(** The answer to a request; only a valid one has a body. *)
Definition sse_response (method path : str) : Response :=
  let ok := is_valid_path method path in
  mkResponse (if ok then 200 else 404) (lit (if ok then "text/event-stream" else "text/plain")) ok.

(** One item of the receiver, as the stream of the body passes it on. *)
Definition frame (r : received) : option str :=
  match r with
  | NextEvent e => match event_to_sse e with [] => None | sse => Some sse end
  | FellBehind _ => None
  | NothingYet => None
  end.

(** What happens while a client is connected: an event is pushed, or the
    connection takes the next item. *)
Inductive client_step := Pushed (e : PipelineEvent) | Polled.

Fixpoint client_run (steps : list client_step) (s : EventStore) (pos : nat) : list received * EventStore * nat :=
  match steps with
  | [] => ([], s, pos)
  | Pushed e :: steps => client_run steps (push e s) pos
  | Polled :: steps =>
      let '(item, pos) := recv s pos in
      let '(items, s, pos) := client_run steps s pos in (item :: items, s, pos)
  end.

(** The bytes of the body. *)
Definition body (items : list received) : str := concat (omap frame items).
End Wire.

(** ** What a client is sent *)

Definition event_of (r : received) : option PipelineEvent :=
  match r with NextEvent e => Some e | _ => None end.
Definition missed_of (r : received) : nat := match r with FellBehind n => n | _ => 0 end.
Definition pushed_of (st : client_step) : option PipelineEvent :=
  match st with Pushed e => Some e | Polled => None end.

(** All that a client missed. *)
Definition missed (items : list received) : nat := list_sum (map missed_of items).

Section Broadcast.

Lemma sublist_full {A} (l k : list A) : l `sublist_of` k -> length k <= length l -> l = k.
Proof.
  induction 1 as [|x l k H IH|x l k H IH]; intros Hl; [done| |].
  - cbn in Hl. rewrite IH; [done|lia].
  - pose proof (sublist_length _ _ H). cbn in Hl. lia.
Qed.

Lemma recv_spec s pos : pos <= length (ps_sent s) ->
  let '(item, pos') := recv s pos in
  pos' <= length (ps_sent s) /\
  (option_list (event_of item) ++ drop pos' (ps_sent s)) `sublist_of` drop pos (ps_sent s) /\
  missed_of item + length (option_list (event_of item)) + pos = pos'.
Proof.
  intros Hp. unfold recv. destruct (Nat.ltb_spec (pos + CHANNEL_CAPACITY) (length (ps_sent s))) as [Hl|Hl].
  - cbn. split; [lia|]. split; [|lia].
    replace (length (ps_sent s) - CHANNEL_CAPACITY) with
      (pos + (length (ps_sent s) - CHANNEL_CAPACITY - pos)) by lia.
    rewrite <- drop_drop. apply sublist_drop.
  - destruct (ps_sent s !! pos) as [e|] eqn:E; cbn.
    + pose proof (lookup_lt_Some _ _ _ E). split; [lia|]. split; [|lia]. by rewrite (drop_S _ _ _ E).
    + split; [done|]. split; [done|lia].
Qed.

Lemma client_run_spec steps s pos : pos <= length (ps_sent s) ->
  let '(items, s', pos') := client_run steps s pos in
  ps_sent s' = ps_sent s ++ omap pushed_of steps /\ pos' <= length (ps_sent s') /\
  (omap event_of items ++ drop pos' (ps_sent s')) `sublist_of` (drop pos (ps_sent s) ++ omap pushed_of steps) /\
  missed items + length (omap event_of items) + pos = pos'.
Proof.
  revert s pos. induction steps as [|[e|] steps IH]; intros s pos Hp; cbn [client_run].
  - cbn. rewrite !app_nil_r. by repeat split.
  - specialize (IH (push e s) pos). cbn [ps_sent push] in IH. rewrite length_app in IH. specialize (IH ltac:(lia)).
    destruct (client_run steps (push e s) pos) as [[items s'] pos'].
    destruct IH as (H1 & H2 & H3 & H4).
    change (omap pushed_of (Pushed e :: steps)) with ([e] ++ omap pushed_of steps).
    rewrite drop_app_le, <- app_assoc in H3 by lia. split; [by rewrite app_assoc|]. by split.
  - pose proof (recv_spec s pos Hp) as Hr. destruct (recv s pos) as [item pos1]. destruct Hr as (R1 & R2 & R3).
    specialize (IH s pos1 R1). destruct (client_run steps s pos1) as [[items s'] pos'].
    destruct IH as (H1 & H2 & H3 & H4).
    change (omap pushed_of (Polled :: steps)) with (omap pushed_of steps). split; [done|]. split; [done|].
    assert (Ho : omap event_of (item :: items) = option_list (event_of item) ++ omap event_of items)
      by by destruct item.
    rewrite Ho. split.
    + rewrite <- app_assoc. etransitivity; [apply sublist_app; [reflexivity|exact H3]|].
      rewrite app_assoc. by apply sublist_app.
    + unfold missed in *. cbn [map list_sum fold_right]. rewrite length_app. unfold list_sum in H4. lia.
Qed.

(** A client that connects is sent, in order and once each, events that were pushed
    while it is connected, and none from before.  What it read, what it was told it
    missed and what still waits for it add up to all that was pushed; one that
    never falls behind by more than 1024 events misses nothing. *)
Theorem client_gets (steps : list client_step) (s : EventStore) :
  let '(items, s', pos) := client_run steps s (subscribe s) in
  let pushed := omap pushed_of steps in
  omap event_of items `sublist_of` pushed /\
  missed items + length (omap event_of items) + length (drop pos (ps_sent s')) = length pushed /\
  (missed items = 0 -> omap event_of items ++ drop pos (ps_sent s') = pushed).
Proof.
  pose proof (client_run_spec steps s (subscribe s) ltac:(done)) as H.
  destruct (client_run steps s (subscribe s)) as [[items s'] pos]. destruct H as (H1 & H2 & H3 & H4).
  cbv zeta. unfold subscribe in *. rewrite drop_all in H3. cbn [app] in H3.
  assert (Hc : missed items + length (omap event_of items) + length (drop pos (ps_sent s')) =
               length (omap pushed_of steps)).
  { rewrite length_drop, H1, length_app in *. lia. }
  split; [|split; [exact Hc|]].
  - etransitivity; [|exact H3]. apply sublist_inserts_r. reflexivity.
  - intros H0. rewrite H0 in Hc. apply sublist_full; [exact H3|]. rewrite length_app. lia.
Qed.
End Broadcast.

(** ** What the dashboard reads of it *)

Section Reading.
Context `{LAWS : PipelineJsonLaws} `{EJ : EventJson}.

(** A frame is one block: a line of data and nothing else. *)
Lemma sse_block e : event_to_sse e = [] \/
  exists json, EventFacts.clean json /\ Forall scalar_value json /\
    event_to_sse e = EventFacts.ended [lit "data: " ++ json] ++ [10%N].
Proof.
  unfold event_to_sse. destruct (pipeline_json _) as [json|] eqn:E; [right|by left].
  exists json. destruct (pipeline_json_line _ _ E). split; [done|]. split; [done|].
  unfold EventFacts.ended. cbn [map concat]. by rewrite app_nil_r, <- !app_assoc.
Qed.

Lemma data_line json : EventFacts.clean json ->
  let l := lit "data: " ++ json in EventFacts.line_ok l /\ strip_cr l = l /\ trim l = l.
Proof.
  intros Hc. apply (EventFacts.label_ok (chr "d") (lit "ata: ") json eq_refl); [|done].
  apply (bool_decide_unpack (10%N ∉ lit "data: ")). by vm_compute.
Qed.

(** A block of data without a type is no event. *)
Lemma untyped_block json rest : EventFacts.clean json ->
  parse_blocks ((lit "data: " ++ json) :: rest) = parse_blocks rest.
Proof.
  intros Hc. destruct (data_line json Hc) as (Hl & Hcr & Ht). cbn [parse_blocks]. rewrite Ht.
  change (lit "data: " ++ json) with (chr "d" :: lit "ata: " ++ json) in *. cbv iota.
  assert (Hlines : lines (chr "d" :: lit "ata: " ++ json) = [chr "d" :: lit "ata: " ++ json]).
  { change (chr "d" :: lit "ata: " ++ json) with (join [10%N] [chr "d" :: lit "ata: " ++ json]) at 1.
    apply EventFacts.lines_join; [done|]. by apply Forall_singleton. }
  rewrite Hlines. unfold parse. cbn [app parse_lines]. rewrite Ht. cbv iota.
  change (strip_prefix (lit "event:") (chr "d" :: lit "ata: " ++ json)) with (@None str).
  change (strip_prefix (lit "data:") (chr "d" :: lit "ata: " ++ json)) with (Some (32%N :: json)). reflexivity.
Qed.

Lemma body_blocks items :
  parse_blocks (split_blank (body items)) = Ok [] /\ Forall scalar_value (body items).
Proof.
  unfold body. induction items as [|item items [IH1 IH2]]; [by split|].
  assert (Hc : omap frame (item :: items) = option_list (frame item) ++ omap frame items)
    by by unfold omap; cbn; destruct (frame item).
  rewrite Hc, concat_app. destruct (frame item) as [sse|] eqn:Ef; [|done].
  change (concat (option_list (Some sse))) with (sse ++ []).
  destruct item as [e|n|]; [|done|done]. cbn [frame] in Ef.
  destruct (sse_block e) as [He|(json & Hj & Hs & He)]; rewrite He in Ef; [done|].
  assert (Hsse : sse = EventFacts.ended [lit "data: " ++ json] ++ [10%N]) by (destruct (EventFacts.ended [lit "data: " ++ json] ++ [10%N]); congruence).
  rewrite app_nil_r, Hsse, <- app_assoc. cbn [app]. split.
  - rewrite EventFacts.split_blank_block; [|done|]; [by etransitivity; [apply (untyped_block json)|]|].
    constructor; [|done]. by apply data_line.
  - unfold EventFacts.ended. cbn [map concat]. rewrite app_nil_r.
    repeat first [apply Forall_app_2|done]; repeat constructor; first [done|left; by vm_compute].
Qed.

(** The gateway's events carry no type, and the dashboard's reader drops every
    block without one: whatever is pushed, however the client polls, it reads no
    event of it. *)
Theorem pipeline_stream_unread (items : list received) :
  parse_sse_stream (utf8 (body items)) = Ok [].
Proof.
  destruct (body_blocks items) as [Hb Hs]. unfold parse_sse_stream. by rewrite from_utf8_lossy_utf8.
Qed.
End Reading.

(** ** A concrete stream *)

Module Demo.
#[local] Existing Instance Events.Demo.text_json.

(** A text in one line, for a run named by a clean text. *)
#[export] Instance demo_json : PipelineJson := fun e => Ok (lit "{" ++ show_Z (se_step_index e) ++ lit "}").

Lemma show_N_tame n : 10%N ∉ show_N n /\ Forall scalar_value (show_N n).
Proof.
  pose proof (show_N_digits n) as H. split.
  - intros Hin. rewrite Forall_forall in H. specialize (H _ Hin). by vm_compute in H.
  - eapply Forall_impl; [exact H|]. intros c Hc. apply andb_true_iff in Hc as [H1 H2].
    apply N.leb_le in H1, H2. left. lia.
Qed.

Lemma show_Z_tame z : 10%N ∉ show_Z z /\ Forall scalar_value (show_Z z).
Proof.
  destruct z as [|p|p]; [exact (show_N_tame 0)|exact (show_N_tame (Npos p))|]. destruct (show_N_tame (Npos p)) as [H1 H2].
  cbn [show_Z]. split; [by apply not_elem_of_cons|constructor; [left; by vm_compute|done]].
Qed.

#[export] Instance demo_json_laws : PipelineJsonLaws.
Proof.
  intros e s. unfold pipeline_json, demo_json. intros [= <-].
  destruct (show_Z_tame (se_step_index e)) as [H1 H2]. split.
  - split; [done|]. split.
    + change (lit "{" ++ show_Z (se_step_index e) ++ lit "}") with (chr "{" :: show_Z (se_step_index e) ++ [chr "}"]).
      apply trim_id; [done|]. by rewrite app_comm_cons, rev_app_distr.
    + intros [Hin|[Hin|Hin]%elem_of_app]%elem_of_cons; [discriminate|done|].
      apply list_elem_of_singleton in Hin. discriminate.
  - constructor; [left; by vm_compute|]. apply Forall_app_2; [done|]. apply Forall_singleton. left. by vm_compute.
Qed.

Definition step_event (i : Z) : PipelineEvent := mkPipelineEvent (lit "run") (lit "step") [] [] i [] 0 ∅.

(** Two events before the client connects, one after. *)
Definition connected : EventStore := push (step_event 2) (push (step_event 1) EventStore_new).

Lemma pipeline_stream_unread_witness :
  body [NextEvent (step_event 3)] <> [] /\
  parse_sse_stream (utf8 (body [NextEvent (step_event 3)])) = Ok [].
Proof.
  split; [by vm_compute|]. apply (pipeline_stream_unread [NextEvent (step_event 3)]).
Defined.

Example client_ex :
  fst (fst (client_run [Polled; Pushed (step_event 3); Polled; Polled] connected (subscribe connected))) =
    [NothingYet; NextEvent (step_event 3); NothingYet].
Proof. vm_compute. reflexivity. Qed.

(** A client that does not read while 1025 events are pushed misses the first. *)
Example behind_ex :
  let steps := map (fun i => Pushed (step_event (Z.of_nat i))) (seq 0 1025) ++ [Polled; Polled] in
  match client_run steps EventStore_new 0 with
  | ([FellBehind 1; NextEvent e], _, _) => pe_step_index e = 1%Z
  | _ => False
  end.
Proof. vm_compute. reflexivity. Qed.

Example answers_ex :
  rsp_status (sse_response (lit "GET") (lit "/api/v1/pipeline-events")) = 200%Z /\
  rsp_status (sse_response (lit "GET") (lit "/events")) = 404%Z.
Proof. split; vm_compute; reflexivity. Qed.
End Demo.
