(* ===== verification/Expiry.v ===== *)
(** * The enforcer of expirations

    Models the task that [bastion-gateway/src/main.rs] starts to end the sandboxes
    whose time is over: once a minute it asks the repository for them, terminates
    each at the provider of the gateway, and stores it as stopped.  A tick is one
    run without interleaving.  It is proved over the repository on the database
    ([SandboxDb]); the world of the provider is apart from the table. *)

From S2P Require Import Prelude Sandbox SandboxRepo Normalizer RunStore Pool UseCases SandboxDb.

Section Enforcer.
Context `{CH : Chrono} {T V : Type} (repo : @SandboxRepository CH T) (p : @Provider CH V).

(** The record that was read is written back, whatever happened to it since. *)
Definition stop_expired (sandbox : Sandbox) (tv : T * V) : T * V :=
  let '(t, v) := tv in
  match pv_terminate p (sb_id sandbox) v with
  | (Ok _, v) => (snd (repo_update (set_status Stopped sandbox) t), v)
  | (Err _, v) => (t, v)
  end.

Definition expiry_tick (tv : T * V) : T * V :=
  let '(t, v) := tv in
  match repo_find_expired t with
  | (Ok expired, t) => fold_left (fun tv sandbox => stop_expired sandbox tv) expired (t, v)
  | (Err _, t) => (t, v)
  end.

(** ** What a tick asks of the provider *)

(** The terminations in order, and the ids of those that succeed. *)
Fixpoint terminations (ids : list str) (v : V) : list str * V :=
  match ids with
  | [] => ([], v)
  | id :: ids =>
      match pv_terminate p id v with
      | (Ok _, v) => let '(ended, v) := terminations ids v in (id :: ended, v)
      | (Err _, v) => terminations ids v
      end
  end.

Lemma terminations_subset ids v id : id ∈ fst (terminations ids v) -> id ∈ ids.
Proof.
  revert v. induction ids as [|i ids IH]; intros v; [done|]. cbn [terminations].
  destruct (pv_terminate p i v) as [[[]|e] v1].
  - specialize (IH v1). destruct (terminations ids v1) as [ended v2]. cbn.
    intros [->|H]%elem_of_cons; [by left|right; by apply IH].
  - intros H. right. by apply (IH v1).
Qed.
End Enforcer.

(** ** A tick over the database *)

Section Tick.
Context `{CH : Chrono} `{TXT : !@SandboxText CH} `{ORDER : HashOrder} `{LAWS : !@SandboxTextLaws CH TXT}.
Context {V : Type} (p : @Provider CH V).

Lemma view_id (t : SandboxTable) id sb : wf t -> view t !! id = Some sb -> sb_id sb = id /\ legacy sb = sb /\ writable sb = true /\ readable sb = true.
Proof.
  intros Hwf Hv. rewrite view_lookup in Hv. destruct (t !! id) as [r|] eqn:E; [|done]. cbn in Hv.
  destruct (Hwf id r E) as (sb0 & Hr & <-). rewrite (decode_written _ _ Hr) in Hv. injection Hv as <-.
  destruct Hr as [Hr Hy]. split; [done|]. split; [done|]. split; [|exact Hy].
  unfold writable. change (row_of_sandbox (legacy sb0)) with (row_of_sandbox sb0). by rewrite Hr.
Qed.

(** The ids that the rows of an iteration decode to are their keys. *)
Lemma decoded_keys (keep : SandboxRow -> bool) (l : list (str * SandboxRow)) :
  (forall k r, (k, r) ∈ l -> exists sb, written sb r /\ sb_id sb = k) ->
  map sb_id (omap decode_row (List.filter keep (map snd l))) `sublist_of` map fst l.
Proof.
  induction l as [|[k r] l IH]; intros Hl; [constructor|].
  destruct (Hl k r) as (sb & Hr & Hk); [by left|]. cbn [map fst snd List.filter].
  assert (IH' := IH (fun k' r' H => Hl k' r' (list_elem_of_further _ _ _ H))).
  destruct (keep r); [|by constructor]. cbn. rewrite (decode_written _ _ Hr). cbn. rewrite <- Hk. by constructor.
Qed.

(** What [find_expired] answers: the sandboxes asked for, each once. *)
Lemma expired_found (t : SandboxTable) (now : DateTime) : wf t -> four_digit_year now = true ->
  exists l, db_find_expired sql_ok now t = (Ok l, t) /\ NoDup (map sb_id l) /\
    forall sb, sb ∈ l <-> is_active sb && is_expired now sb = true /\ view t !! sb_id sb = Some sb.
Proof.
  intros Hwf Hnow. set (keep := fun r => row_active r && row_expired (to_rfc3339 now) r).
  assert (Hrows : Forall (fun r => exists sb, written sb r)
                    (List.filter keep (map snd (hash_iter _ t)))).
  { apply Forall_filter_list, Forall_map, Forall_forall. intros [k r] Hin.
    apply elem_of_hash_iter in Hin. destruct (Hwf k r Hin) as (sb & Hr & _). by exists sb. }
  exists (omap decode_row (List.filter keep (map snd (hash_iter _ t)))). split; [|split].
  - unfold db_find_expired, statement. cbn [sql_error sql_ok]. f_equal. by apply rows_decoded.
  - eapply sublist_NoDup; [|apply decoded_keys].
    + apply hash_iter_nodup.
    + intros k r Hin. apply elem_of_hash_iter in Hin. by apply Hwf.
  - destruct (selected_view t keep (fun sb => is_active sb && is_expired now sb) Hwf) as (l & E & Hl).
    { intros k sb r Ht Hr. unfold keep.
      by rewrite (row_active_written _ _ Hr), (row_expired_written _ _ now Hr). }
    rewrite rows_decoded in E by done. injection E as <-. intros sb. rewrite Hl. split; intros [Ha Hv]; (split; [done|]).
    + destruct Hv as [k Hv]. destruct (view_id t k sb Hwf Hv) as [<- _]. done.
    + by exists (sb_id sb).
Qed.

Lemma stop_stored (t : SandboxTable) (now : DateTime) (sb : Sandbox) : wf t -> view t !! sb_id sb = Some sb ->
  let t' := snd (db_update sql_ok (set_status Stopped sb) t) in
  wf t' /\ view t' = <[sb_id sb := set_status Stopped sb]> (view t).
Proof.
  intros Hwf Hv. destruct (view_id t _ sb Hwf Hv) as (_ & Hl & Hw & Hy).
  destruct (db_step_ok (InMemory.OpUpdate (set_status Stopped sb)) t Hwf Hy) as [H1 H2]. cbn [db_step] in H1, H2.
  split; [done|]. rewrite H2. cbn [spec_step].
  assert (Hw' : writable (set_status Stopped sb) = true).
  { revert Hw. unfold writable, row_of_sandbox. cbn [resources network metadata set_status].
    destruct (or_internal _ (resources_to_json _)); [|done]. destruct (or_internal _ (network_to_json _)); [|done].
    by destruct (or_internal _ (metadata_to_json _)). }
  change (sb_id (set_status Stopped sb)) with (sb_id sb).
  rewrite Hw', bool_decide_eq_false_2 by congruence. cbn [andb negb]. f_equal.
  unfold legacy, set_status in *. cbn in *. by inversion Hl.
Qed.

Lemma stop_all (now : DateTime) (l : list Sandbox) (t : SandboxTable) (v : V) : wf t -> NoDup (map sb_id l) ->
  (forall sb, sb ∈ l -> view t !! sb_id sb = Some sb) ->
  let '(t', v') := fold_left (fun tv sb => stop_expired (db_repository sql_ok now) p sb tv) l (t, v) in
  let '(ended, w) := terminations p (map sb_id l) v in
  wf t' /\ v' = w /\
  forall id, view t' !! id =
    if bool_decide (id ∈ ended) then set_status Stopped <$> view t !! id else view t !! id.
Proof.
  revert t v. induction l as [|sb l IH]; intros t v Hwf Hnd Hl.
  - cbn. split; [done|]. split; [done|]. done.
  - cbn [map] in Hnd. apply NoDup_cons in Hnd as [Hnotin Hnd].
    assert (Hsb : view t !! sb_id sb = Some sb) by (apply Hl; by left).
    cbn [fold_left map terminations stop_expired].
    destruct (pv_terminate p (sb_id sb) v) as [[[]|e] v1].
    + cbn [repo_update db_repository]. destruct (stop_stored t now sb Hwf Hsb) as [Hwf' Hv'].
      set (t1 := snd (db_update sql_ok (set_status Stopped sb) t)) in *.
      specialize (IH t1 v1 Hwf' Hnd).
      destruct (fold_left _ l (t1, v1)) as [t' v'].
      pose proof (terminations_subset p (map sb_id l) v1) as Hsub.
      destruct (terminations p (map sb_id l) v1) as [ended w]. cbn [fst] in Hsub.
      destruct IH as (H1 & H2 & H3).
      { intros sb' Hin. rewrite Hv', lookup_insert_ne; [apply Hl; by right|]. intros Heq. apply Hnotin. rewrite Heq.
        apply list_elem_of_fmap. by exists sb'. }
      split; [done|]. split; [done|]. intros id. rewrite H3, Hv'.
      destruct (decide (id = sb_id sb)) as [->|Hne].
      * rewrite (bool_decide_eq_false_2 (sb_id sb ∈ ended)) by (intros Hin; by apply Hnotin, Hsub).
        rewrite bool_decide_eq_true_2 by by left. by rewrite lookup_insert_eq, Hsb.
      * rewrite lookup_insert_ne by congruence.
        rewrite (bool_decide_ext (id ∈ sb_id sb :: ended) (id ∈ ended)); [done|].
        rewrite elem_of_cons. intuition congruence.
    + apply IH; [done|done|]. intros sb' Hin. apply Hl. by right.
Qed.

(** A pending or running sandbox whose expiry is in a year of five digits: its
    text comes before the present, so its row is asked for, and cannot be read. *)
Lemma far_expiry_unreadable (t : SandboxTable) (now : DateTime) (id : str) (row : SandboxRow) (sb : Sandbox)
    (e : DateTime) :
  t !! id = Some row -> row_of_sandbox sb = Ok row -> is_active sb = true -> expires_at sb = Some e ->
  four_digit_year e = false -> four_digit_year now = true ->
  is_ok (fst (db_find_expired sql_ok now t)) = false.
Proof.
  intros Ht Hr Ha He Hfar Hnow. apply (listing_fails t _ id sb row); [done|done| |].
  - unfold readable. by rewrite He, Hfar, andb_false_r.
  - rewrite (active_row sb row Hr), Ha. cbn [andb].
    destruct (row_of_sandbox_inv _ _ Hr) as (r & n & m & _ & _ & _ & ->).
    unfold row_expired. cbn. rewrite He. cbn. by apply rfc3339_sign.
Qed.

(** C27. A tick of the enforcer, when the statements of the database do not fail
    and the present year has four digits.  When so have the years of all stored
    sandboxes, the provider is asked to terminate exactly the stored sandboxes
    that are pending or running and whose expiry is past, each once, and nothing
    else happens to it; one refusal does not keep the others from their turn.
    Those it terminates are stored as stopped, and so are not asked for again;
    every other sandbox, one whose termination failed included, stays as it was.
    But as soon as the table has a pending or running sandbox whose expiry is in
    a year of five digits, the tick does nothing at all: its row is selected and
    cannot be read, and no expired sandbox is terminated. *)
Theorem expiry_tick_spec (t : SandboxTable) (now : DateTime) (v : V) :
  four_digit_year now = true ->
  (wf t -> exists ids, NoDup ids /\
    (forall id, id ∈ ids <-> exists sb, view t !! id = Some sb /\ is_active sb && is_expired now sb = true) /\
    let '(t', v') := expiry_tick (db_repository sql_ok now) p (t, v) in
    let '(ended, w) := terminations p ids v in
    wf t' /\ v' = w /\
    (forall id, view t' !! id =
       if bool_decide (id ∈ ended) then set_status Stopped <$> view t !! id else view t !! id) /\
    (forall id sb, id ∈ ended -> view t' !! id = Some sb -> is_active sb = false)) /\
  (forall id row sb e, t !! id = Some row -> row_of_sandbox sb = Ok row -> is_active sb = true ->
     expires_at sb = Some e -> four_digit_year e = false ->
     expiry_tick (db_repository sql_ok now) p (t, v) = (t, v)).
Proof.
  intros Hnow. split.
  - intros Hwf. destruct (expired_found t now Hwf Hnow) as (l & E & Hnd & Hl).
    exists (map sb_id l). split; [done|]. split.
    + intros id. rewrite list_elem_of_fmap. split.
      * intros (sb & -> & [Ha Hv]%Hl). by exists sb.
      * intros (sb & Hv & Ha). destruct (view_id t id sb Hwf Hv) as [<- _]. exists sb. split; [done|]. by apply Hl.
    + unfold expiry_tick. cbn [repo_find_expired db_repository]. rewrite E.
      pose proof (stop_all now l t v Hwf Hnd (fun sb H => proj2 (proj1 (Hl sb) H))) as H.
      destruct (fold_left _ l (t, v)) as [t' v']. destruct (terminations p (map sb_id l) v) as [ended w].
      destruct H as (H1 & H2 & H3). split; [done|]. split; [done|]. split; [done|].
      intros id sb Hin Hv. rewrite H3, bool_decide_eq_true_2 in Hv by done.
      destruct (view t !! id); [|done]. by injection Hv as <-.
  - intros id row sb e Ht Hr Ha He Hfar. unfold expiry_tick. cbn [repo_find_expired db_repository].
    pose proof (far_expiry_unreadable t now id row sb e Ht Hr Ha He Hfar Hnow) as Hx.
    unfold db_find_expired in *. cbn [fst] in Hx. by destruct (statement _ _ _ _).
Qed.
End Tick.

(** ** A demonstration *)

Module Demo.
#[local] Existing Instances Z_chrono some_order SandboxDb.Demo.demo_text SandboxDb.Demo.demo_text_laws.
Import Pool.Sim.

(** [s1] runs and expires at time 5; [s2] has no expiry. *)
Lemma table_wf : wf SandboxDb.Demo.table.
Proof. apply (db_run_ok SandboxDb.Demo.history ∅ SandboxDb.Demo.wf_empty SandboxDb.Demo.history_readable). Qed.

Lemma table_view :
  view SandboxDb.Demo.table =
    {[lit "s1" := legacy SandboxDb.Demo.running; lit "s2" := legacy SandboxDb.Demo.pending]}.
Proof. vm_compute. reflexivity. Qed.

Definition podman : @Provider Z_chrono SimWorld := UseCases.Demo.demo (lit "podman").

(** The same table once [endless] is saved. *)
Definition blocked : SandboxTable := snd (db_save sql_ok SandboxDb.Demo.endless SandboxDb.Demo.table).

Definition endless_row : SandboxRow :=
  Eval vm_compute in
    match row_of_sandbox SandboxDb.Demo.endless with
    | Ok row => row
    | Err _ => mkSandboxRow [] [] [] [] [] None [] [] []
    end.

Lemma blocked_row :
  blocked !! lit "s9" = Some endless_row /\ row_of_sandbox SandboxDb.Demo.endless = Ok endless_row.
Proof. split; vm_compute; reflexivity. Qed.

Lemma seven_ok : @four_digit_year Z_chrono SandboxDb.Demo.demo_text 7%Z = true.
Proof. reflexivity. Qed.

Lemma expiry_tick_witness :
  (exists ids, NoDup ids /\ lit "s1" ∈ ids /\
    let '(t', v') := expiry_tick (db_repository sql_ok 7%Z) podman (SandboxDb.Demo.table, world0) in
    let '(ended, w) := terminations podman ids world0 in
    wf t' /\ v' = w) /\
  expiry_tick (db_repository sql_ok 7%Z) podman (blocked, world0) = (blocked, world0).
Proof.
  split.
  - destruct (proj1 (expiry_tick_spec podman SandboxDb.Demo.table 7%Z world0 seven_ok) table_wf) as (ids & Hnd & Hids & H).
    exists ids. split; [exact Hnd|]. split.
    + apply Hids. exists (legacy SandboxDb.Demo.running). split; [by rewrite table_view|by vm_compute].
    + destruct (expiry_tick _ podman _) as [t' v'], (terminations podman ids world0) as [ended w].
      destruct H as (H1 & H2 & _). split; assumption.
  - destruct blocked_row as [Ht Hr].
    by apply (proj2 (expiry_tick_spec podman blocked 7%Z world0 seven_ok) (lit "s9") endless_row
      SandboxDb.Demo.endless (-9)%Z).
Defined.

Example tick_ex :
  (status <$> view (fst (expiry_tick (db_repository sql_ok 7%Z) podman (SandboxDb.Demo.table, world0))) !! lit "s1") =
    Some Stopped.
Proof. vm_compute. reflexivity. Qed.
End Demo.
