(* ===== verification/Startup.v ===== *)
(** * The start of the gateway

    Models how [bastion-gateway/src/main.rs] puts the gateway together from its
    command line, its home directory and what it finds on the disk: where the files
    are, which provider serves when there is no container runtime
    ([NullProvider]), what becomes of the configured providers, the pool and its
    task ([SandboxPoolManager::start] and [refill_loop]), the loading of the
    catalogs, and the enrichment adapter.  Binding ports, logging and the spawning
    of tasks are left out; the parts themselves are those of the other files.
    Parsing the command line is that of the library: a switch that is given is
    true, and one that is not has its default. *)

From S2P Require Import Prelude Sandbox Command SandboxRepo Pool UseCases ProviderTypes Normalizer Extractors.
From S2P Require Import RuleParser RuleEval Pipeline RunStore Adapter Schema SandboxDb Experience Catalog Advice Toolchain Materialize.
From S2P Require Import ProviderInstances Projects CatalogStore Metrics QueryTools Expiry.

(** ** The command line *)

Inductive CliProjectKind := CliRust | CliNodejs | CliPython | CliGo | CliGeneric.

Definition project_kind (k : CliProjectKind) : ProjectKind :=
  match k with
  | CliRust => KindRust | CliNodejs => KindNodeJs | CliPython => KindPython | CliGo => KindGo
  | CliGeneric => KindGeneric
  end.

Inductive Commands := Init (kind : CliProjectKind) (name : option str).

Record Args := mkArgs {
  a_socket : str; a_image : str; a_worker_binary : str; a_config : str;
  a_pool_enabled : bool; a_pool_min_idle : nat; a_pool_max_idle : nat; a_pool_max_total : nat;
  a_pool_idle_timeout_ms : Z; a_pool_refill_interval_ms : Z;
  a_registry_addr : str; a_registry_no_tls : bool; a_http_port : Z;
  a_config_dir : option str; a_watch_config : bool; a_db_path : option str;
  a_dangerous_allow_local : bool; a_enrichment_retention_cleanup : bool; a_test_mode : bool;
  a_command : option Commands
}.

(** A switch, by its default and whether it is given. *)
Definition switch (default_value given : bool) : bool := if given then true else default_value.

(** The switches of a command line whose other options have their defaults. *)
Record Switches := mkSwitches {
  g_pool_enabled : bool; g_registry_no_tls : bool; g_watch_config : bool; g_dangerous_allow_local : bool;
  g_enrichment_retention_cleanup : bool; g_test_mode : bool
}.

Definition args_of (g : Switches) (command : option Commands) : Args :=
  mkArgs (lit "/run/user/1000/podman/podman.sock") (lit "debian:bookworm-slim")
    (lit "target/debug/bastion-worker") (lit "config/sandbox-gateway.toml")
    (switch true (g_pool_enabled g)) 2 5 50 600000 5000 (lit "127.0.0.1:50052")
    (switch false (g_registry_no_tls g)) 8080 None (switch false (g_watch_config g)) None
    (switch false (g_dangerous_allow_local g)) (switch false (g_enrichment_retention_cleanup g))
    (switch false (g_test_mode g)) command.

(** ** Where the files are *)

(** [home] is the home directory, if there is one. *)
Definition bastion_home (home : option str) : str :=
  match home with Some h => path_join h (lit ".bastion") | None => lit ".bastion" end.

Definition sandbox_db_path (a : Args) (home : option str) : str :=
  match a_db_path a with
  | Some p => p
  | None =>
      match home with
      | Some h => path_join (path_join h (lit ".bastion")) (lit "sandboxes.db")
      | None => lit ".bastion/sandboxes.db"
      end
  end.

(** The directory of the working directory goes before that of the home. *)
Definition config_dir (a : Args) (home : option str) (exists_ : str -> bool) : str :=
  match a_config_dir a with
  | Some d => d
  | None => if exists_ (lit ".bastion") then lit ".bastion" else bastion_home home
  end.

(** ** The provider *)

Section Null.
Context `{CH : Chrono} {W : Type}.

Definition refuse {A} (reason : str) (w : W) : result DomainError A * W := (Err (ProviderUnavailable reason), w).
Definition by_default {A} (op : string) (w : W) : result DomainError A * W :=
  (Err (UnsupportedOperation (lit op)), w).

(** It refuses everything, and no sandbox of it is alive. *)
Definition NullProvider (reason : str) : @Provider CH W := {|
  pv_name := lit "null";
  pv_capabilities := ProviderCapabilities_default;
  pv_create := fun _ _ _ _ _ _ => refuse (lit "No provider available: " ++ reason);
  pv_terminate := fun _ => refuse reason;
  pv_is_alive := fun _ w => (Ok false, w);
  pv_run_command := fun _ _ => refuse reason;
  pv_run_command_stream := fun _ _ => refuse reason;
  pv_cancel_command := fun _ _ => by_default "cancel_command";
  pv_write_file := fun _ _ _ => refuse reason;
  pv_read_file := fun _ _ => refuse reason;
  pv_list_files := fun _ _ => refuse reason;
  pv_copy_to := fun _ _ _ => by_default "copy_to";
  pv_create_snapshot := fun _ _ => refuse reason;
  pv_restore_snapshot := fun _ => refuse reason;
  pv_delete_snapshot := fun _ => by_default "delete_snapshot";
  pv_list_snapshots := by_default "list_snapshots";
  pv_list_sandboxes := fun _ => refuse reason
|}.

(** [podman] is what its constructor answers: the provider, or the text of an error. *)
Definition choose_provider (a : Args) (podman : result str (@Provider CH W)) : @Provider CH W :=
  if a_test_mode a then NullProvider (lit "test mode")
  else match podman with
       | Ok p => p
       | Err e => NullProvider e
       end.
End Null.

(** The registry: the configured providers, and then the one above as [podman], the
    name of the default. *)
Definition provider_registry `{Host} `{HashOrder} (dir : listing) (podman : provider) :
    ProviderInstances.ProviderRegistry :=
  let registry := snd (load_from_dir dir (ProviderRegistry_new (ProviderFactory_new (lit "podman")))) in
  mkProviderRegistry (factory_register (lit "podman") podman (pr_factory registry)) (pr_configs registry).

(** ** The pool *)

Section PoolTask.
Context `{CH : Chrono} {W : Type} `{REPO : !@SandboxRepository CH W} `{PROV : !@SandboxProvider CH W}
  `{ENV : !Environment W}.

Definition pool_config (a : Args) : PoolConfig :=
  mkConfig (a_pool_min_idle a) (a_pool_max_idle a) (a_pool_max_total a) (a_pool_idle_timeout_ms a)
    (a_pool_refill_interval_ms a).

Definition pool_manager (a : Args) : option (@PoolManager CH) :=
  if a_test_mode a then None
  else if a_pool_enabled a then Some (register_template (a_image a) (pool_new (pool_config a)))
  else None.

(** What wakes the refill task: its timer, the first time at once, or the signal
    to shut down. *)
Inductive wake := Tick | ShutdownSignal.

Fixpoint refill_loop (wakes : list wake) (st : PoolManager) (w : W) : option (PoolManager * W) :=
  match wakes with
  | [] => Some (st, w)
  | ShutdownSignal :: _ => Some (st, w)
  | Tick :: wakes =>
      match refill_and_evict st w with
      | Some (st, w) => refill_loop wakes st w
      | None => None
      end
  end.

(** [start], with the task it leaves running. *)
Definition start (wakes : list wake) (st : PoolManager) (w : W) : option (result DomainError unit * PoolManager * W) :=
  let '(r, st, w) := recover_active_sandboxes st w in
  match r with
  | Err e => Some (Err e, st, w)
  | Ok _ => match refill_loop wakes st w with Some (st, w) => Some (Ok tt, st, w) | None => None end
  end.
End PoolTask.

(** ** Catalogs *)

(** A directory of descriptors: absent, not listed, or its files in order. *)
Definition Dir (A : Type) : Type := option (result str (list (result str A))).

Definition files_of {A} (d : Dir A) : list (result str A) :=
  match d with Some (Ok files) => files | _ => [] end.

Definition assertions_at_start (d : Dir TomlAssertion) : gmap str AssertionDescriptor :=
  fst (load_assertions (files_of d) ∅ 0%N).
Definition doctors_at_start (d : Dir (TomlDoctor * str)) : DoctorRegistry :=
  fst (load_doctors (files_of d) (mkDoctorRegistry ∅ ∅) 0%N).
Definition advice_at_start (d : Dir (TomlAdvice * str)) : AdviceRegistry :=
  fst (load_advice (files_of d) (mkAdviceRegistry ∅ ∅) 0%N).
Definition capabilities_at_start (d : Dir CapabilityConfig) : gmap str CapabilityConfig :=
  fst (load_files (files_of d) ∅ 0).

(** ** Enrichment *)

(** The databases of the enrichment: their schemas and their rows. *)
Record Disk := mkDisk {
  dk_catalog_db : Database; dk_catalog : Tables; dk_runs_db : Database; dk_runs : Table
}.

(** What a start finds besides: the errors of statements, the built-in catalog, the
    directory of enrichers, and the text of the cutoff of the retention. *)
Record Found := mkFound {
  fd_catalog_schema : SchemaSql; fd_catalog_sql : CatalogSql; fd_maven_path : str; fd_maven : result str str;
  fd_enrichers_dir : str; fd_enrichers : option (result str (list DirEntry));
  fd_runs_schema : SchemaSql; fd_runs_sql : Db; fd_cutoff : str
}.

Section Enrichment.
Context `{RegexCaptures} `{HashOrder} `{SqlOrder} `{CatalogText} `{SqlRows} `{UnicodeTables}.

(** [None] is a panic. *)
Definition enrichment_start (cleanup : bool) (f : Found) (d : Disk) :
    option (option Adapter * EnrichmentConfig * Disk) :=
  match SqliteCatalogRepository_new (fd_catalog_schema f) (dk_catalog_db d) with
  | None => None
  | Some (Err _, cdb) =>
      Some (None, EnrichmentConfig_default, mkDisk cdb (dk_catalog d) (dk_runs_db d) (dk_runs d))
  | Some (Ok _, cdb) =>
      match import_file (fd_catalog_sql f) (fd_maven_path f) (fd_maven f) (dk_catalog d) with
      | None => None
      | Some (_, t) =>
          match import_dir (fd_catalog_sql f) (fd_enrichers f) t with
          | None => None
          | Some (_, t) =>
              let enrichment_cfg := mkEnrichmentConfig true (fd_enrichers_dir f) RetentionConfig_default
                SemaphoreConfig_default in
              let adapter := Adapter_new (store_catalog (fd_catalog_sql f) t) enrichment_cfg in
              match SqliteRunRecorder_new (fd_runs_schema f) (dk_runs_db d) with
              | (Ok _, rdb) =>
                  let runs := if cleanup
                    then snd (do_cleanup (fd_runs_sql f) (fd_cutoff f) (dk_runs d) RetentionConfig_default)
                    else dk_runs d in
                  Some (Some (with_optimizer_repo (with_recorder adapter RetentionConfig_default)),
                        enrichment_cfg, mkDisk cdb t rdb runs)
              | (Err _, rdb) => Some (Some adapter, enrichment_cfg, mkDisk cdb t rdb (dk_runs d))
              end
          end
      end
  end.

(** The calls of the tools to the adapter. *)
Inductive adapter_call :=
| Finished (i : CallInputs) (fs : FileSystem) (spec : CommandSpec) (cresult : CommandResult)
| Streamed (i : CallInputs) (fs : FileSystem) (spec : CommandSpec) (out err : str) (code duration : Z)
    (timed : bool).

Definition adapter_step (c : adapter_call) (a : Adapter) :
    option AgentContext * option EnrichmentRunRecord * Adapter :=
  match c with
  | Finished i fs spec cresult => enrich i a fs spec cresult
  | Streamed i fs spec out err code duration timed => enrich_stream i a fs spec out err code duration timed
  end.

Fixpoint adapter_run (cs : list adapter_call) (a : Adapter) :
    list (option AgentContext * option EnrichmentRunRecord) * Adapter :=
  match cs with
  | [] => ([], a)
  | c :: cs =>
      let '(ctx, r, a) := adapter_step c a in
      let '(out, a) := adapter_run cs a in ((ctx, r) :: out, a)
  end.

(** *** What the adapter of a start does *)

Definition ruleless (c : AgentContext) : Prop := ac_verdict c = None /\ ac_recommendations c = None.

Lemma run_ruleless now p inv res fs : rule_evaluator p = None ->
  rule_evaluator (snd (run now p inv res fs)) = None /\
  match fst (run now p inv res fs) with Ok c => ruleless c | Err _ => True end.
Proof.
  intros Hp. unfold run. destruct (select_enricher p inv) as [e|]; [|done].
  assert (Hb : rule_evaluator (build_cached_extractors p) = None).
  { unfold build_cached_extractors. by destruct (cached_extractors p). }
  unfold execute_extractors, evaluate_and_normalize. cbv zeta. by rewrite Hb.
Qed.

(** Recording keeps the pipeline and the recorder; without one nothing is handed over. *)
Lemma record_run_keeps i inv res ctx error a :
  let '(r, a') := record_run i inv res ctx error a in
  ad_pipeline a' = ad_pipeline a /\ ad_recorder a' = ad_recorder a /\ (ad_recorder a = None -> r = None).
Proof.
  unfold record_run. destruct (ad_recorder a) as [ret|] eqn:E; [|done].
  match goal with |- context [if ?b then _ else _] => destruct b end; cbn; by rewrite E.
Qed.

Lemma step_ruleless c a :
  rule_evaluator (ad_pipeline a) = None ->
  let '(ctx, r, a') := adapter_step c a in
  rule_evaluator (ad_pipeline a') = None /\ ad_recorder a' = ad_recorder a /\
  (ad_recorder a = None -> r = None) /\ match ctx with Some c => ruleless c | None => True end.
Proof.
  intros Ha.
  assert (Hrec : forall i inv res ctx error b answer, rule_evaluator (ad_pipeline b) = None ->
    ad_recorder b = ad_recorder a -> match answer with Some c => ruleless c | None => True end ->
    let '(c, r, a') := let '(spawned, b) := record_run i inv res ctx error b in (answer, spawned, b) in
    rule_evaluator (ad_pipeline a') = None /\ ad_recorder a' = ad_recorder a /\
    (ad_recorder a = None -> r = None) /\ match c with Some c => ruleless c | None => True end).
  { intros i inv res ctx error b answer Hb Hr Hans. pose proof (record_run_keeps i inv res ctx error b) as Hk.
    destruct (record_run i inv res ctx error b) as [r b']. destruct Hk as (K1 & K2 & K3).
    rewrite K1, K2, Hr. rewrite Hr in K3. by repeat split. }
  destruct c as [i fs spec cresult|i fs spec out err code duration timed]; cbn [adapter_step];
    [unfold enrich|unfold enrich_stream]; (destruct (negb (cfg_enabled (ad_config a))); [done|]).
  - pose proof (run_ruleless (in_context_ts i) (ad_pipeline a) (map_command_spec spec)
      (map_command_result cresult) fs Ha) as [Hr Hc].
    destruct (run _ (ad_pipeline a) _ _ fs) as [[ctx|e] p]; cbn [fst snd] in *;
      [destruct (ac_facts ctx)|]; by apply Hrec.
  - pose proof (run_ruleless (in_context_ts i) (ad_pipeline a) (map_command_spec spec)
      (mkResult code out err duration timed) fs Ha) as [Hr Hc].
    destruct (run _ (ad_pipeline a) _ _ fs) as [[ctx|e] p]; cbn [fst snd] in *;
      [destruct (ac_facts ctx)|]; by apply Hrec.
Qed.

Lemma calls_ruleless cs a : rule_evaluator (ad_pipeline a) = None ->
  Forall (fun '(ctx, r) => (ad_recorder a = None -> r = None) /\
            match ctx with Some c => ruleless c | None => True end) (fst (adapter_run cs a)).
Proof.
  revert a. induction cs as [|c cs IH]; intros a Ha; [constructor|]. cbn [adapter_run].
  pose proof (step_ruleless c a Ha) as Hs. destruct (adapter_step c a) as [[ctx r] a'].
  destruct Hs as (K1 & K2 & K3 & K4). specialize (IH a' K1). rewrite K2 in IH.
  destruct (adapter_run cs a') as [out a'']. cbn. by constructor.
Qed.
End Enrichment.

(** The database of runs of a machine on which none was ever opened. *)
Definition new_machine (d : Disk) : Prop := dk_runs_db d = fresh \/ dk_runs_db d = attempted.

Section FirstStart.
Context `{RegexCaptures} `{HashOrder} `{SqlOrder} `{CatalogText} `{SqlRows} `{UnicodeTables}.

Lemma start_adapter cleanup f d oa cfg d' : enrichment_start cleanup f d = Some (oa, cfg, d') ->
  match oa with
  | None => dk_runs_db d' = dk_runs_db d /\ dk_runs d' = dk_runs d
  | Some a =>
      rule_evaluator (ad_pipeline a) = None /\
      dk_runs_db d' = snd (SqliteRunRecorder_new (fd_runs_schema f) (dk_runs_db d)) /\
      match fst (SqliteRunRecorder_new (fd_runs_schema f) (dk_runs_db d)) with
      | Ok _ => is_Some (ad_recorder a) /\ ad_optimizer_repo a = true
      | Err _ => ad_recorder a = None /\ ad_optimizer_repo a = false /\ dk_runs d' = dk_runs d
      end
  end.
Proof.
  unfold enrichment_start. destruct (SqliteCatalogRepository_new _ _) as [[[|e] cdb]|]; [|by intros [= <- <- <-]|done].
  destruct (import_file _ _ _ _) as [[r t]|]; [|done]. destruct (import_dir _ _ t) as [[r' t']|]; [|done].
  destruct (SqliteRunRecorder_new _ _) as [[|e] rdb]; intros [= <- <- <-]; cbn; [|done].
  split; [done|]. split; [done|]. by split; [eexists|].
Qed.

(** C31. The enrichment of the gateway.  However it is started and whatever catalog it
    finds, no context has a verdict or a recommendation: the rules that were
    imported are never evaluated.  On a machine whose runs were never recorded
    before, no run is recorded at this start nor at any later one: no call hands
    over a record, the recorded rows stay as they are, and the tools answer that
    nothing is configured. *)
Theorem enrichment_of_gateway cleanup f d a cfg d' (cs : list adapter_call) :
  enrichment_start cleanup f d = Some (Some a, cfg, d') ->
  Forall (fun '(ctx, r) => match ctx with Some c => ruleless c | None => True end) (fst (adapter_run cs a)) /\
  (sound_sql (fd_runs_schema f) -> new_machine d ->
   new_machine d' /\ dk_runs d' = dk_runs d /\
   Forall (fun '(ctx, r) => r = None) (fst (adapter_run cs a)) /\
   forall db w after, enrichment_retention_info (Some a) db w = Err no_recorder /\
     enrichment_optimizer_report (Some a) db w after = Err (lit "enrichment optimizer repository not configured")).
Proof.
  intros E. apply start_adapter in E as (Hrules & Hdb & Hopen).
  pose proof (calls_ruleless cs a Hrules) as Hcs. split.
  - eapply Forall_impl; [exact Hcs|]. by intros [ctx r] [_ Hc].
  - intros Hs Hnew. rewrite (fresh_rejected _ Hs _ Hnew) in Hdb, Hopen. cbn in Hdb, Hopen.
    destruct Hopen as (Hr & Ho & Hruns). split; [by right|]. split; [done|]. split.
    + eapply Forall_impl; [exact Hcs|]. intros [ctx r] [Hn _]. by apply Hn.
    + intros db w after. unfold enrichment_retention_info, retention_info, enrichment_optimizer_report.
      by rewrite Hr, Ho.
Qed.
End FirstStart.

(** ** The pool and its task *)

Section PoolFacts.
Context `{CH : Chrono} {W : Type} `{REPO : !@SandboxRepository CH W} `{PROV : !@SandboxProvider CH W}
  `{ENV : !Environment W}.

Lemma loop_keeps wakes st w :
  exists st' w', refill_loop wakes st w = Some (st', w') /\ keeps st st'.
Proof.
  revert st w. induction wakes as [|[|] wakes IH]; intros st w; cbn [refill_loop].
  - exists st, w. split; [done|apply keeps_refl].
  - destruct (refill_keeps st w) as (st1 & w1 & -> & K1 & _). destruct (IH st1 w1) as (st2 & w2 & -> & K2).
    exists st2, w2. split; [done|]. by eapply keeps_trans.
  - exists st, w. split; [done|apply keeps_refl].
Qed.

(** There is a pool exactly outside the test mode: no switch turns it off.  Its start
    always succeeds, whatever the provider and the repository answer, and however
    often its task wakes, no queue holds more sandboxes than [pool_max_idle], the
    idle counter is that of the queues, and between two of its turns, when no
    creation is in progress, the permits are all there. *)
Theorem pool_starts (g : Switches) (command : option Commands) (wakes : list wake) (w : W) :
  let a := args_of g command in
  (pool_manager (CH := CH) a = None <-> g_test_mode g = true) /\
  forall st, pool_manager a = Some st ->
    exists st' w', start wakes st w = Some (Ok tt, st', w') /\ within_capacity st' /\ counted st' /\
      permits st' = a_pool_max_total a.
Proof.
  cbv zeta. split.
  - unfold pool_manager, args_of. cbn. destruct (g_test_mode g), (g_pool_enabled g); done.
  - intros st Hst.
    assert (H0 : within_capacity st /\ counted st /\ permits st = 50).
    { revert Hst. unfold pool_manager, args_of. cbn. destruct (g_test_mode g); [done|].
      replace (switch true (g_pool_enabled g)) with true by (by destruct (g_pool_enabled g)). intros [= <-].
      split; [|split; [|done]].
      - apply register_capacity. intros t q. unfold pool_new. cbn. by rewrite lookup_empty.
      - apply register_counted; [|done]. intros q. cbn. by rewrite lookup_empty. }
    unfold start. destruct (recover_active_sandboxes st w) as [[r st1] w1] eqn:Er.
    assert (Hr : exists res, r = Ok res).
    { revert Er. unfold recover_active_sandboxes. destruct (prov_list_sandboxes _ w) as [[l|e] w2];
        [|intros [= <- _ _]; by eexists]. destruct (recover_loop l st _ w2) as [[st2 res] w3].
      destruct (repo_find_active w3) as [[act|e] w4]; [|intros [= <- _ _]; by eexists].
      destruct (orphan_loop _ act res w4). intros [= <- _ _]. by eexists. }
    destruct Hr as [res ->]. apply recover_keeps in Er.
    destruct (loop_keeps wakes st1 w1) as (st2 & w2 & -> & K2). pose proof (keeps_trans _ _ _ Er K2) as K.
    destruct K as (K1 & K2' & K3 & K4). destruct H0 as (Hc & Hn & Hp). exists st2, w2.
    split; [done|]. split; [by apply K3|]. split; [by apply K4|]. by rewrite K1, Hp.
Qed.
End PoolFacts.

(** ** Without a container runtime *)

Section NullFacts.
Context `{CH : Chrono} `{TXT : !@SandboxText CH} `{ORDER : HashOrder} {V : Type}.

(** A gateway whose provider is the one that refuses, in test mode or because
    Podman could not be reached.  The reconciliation at the start, the enforcer of
    expirations and the recovery of the pool leave the stored sandboxes, the
    provider's world and the pool as they are - nothing is taken for stopped because
    nobody answers - and a creation answers why there is no provider and stores
    nothing. *)
Theorem null_provider_harmless (a : Args) (reason : str) (podman : result str (@Provider CH V)) :
  (if a_test_mode a then reason = lit "test mode" else podman = Err reason) ->
  let p := choose_provider a podman in
  (forall db t v, sync_from_provider db (fst (pv_list_sandboxes p SandboxFilter_default v)) t =
     (SandboxDb.internal "Provider list_sandboxes failed: " (show_error (ProviderUnavailable reason)), t)) /\
  (forall db now t v, expiry_tick (db_repository db now) p (t, v) = (t, v)) /\
  (forall (R : @SandboxRepository CH V) (N : Environment V) input v,
     create_execute input p v = (Err (ProviderUnavailable (lit "No provider available: " ++ reason)),
                                 snd (generate_id v))) /\
  (forall (R : @SandboxRepository CH V) (N : Environment V) st v,
     recover_active_sandboxes (PROV := pool_port p) st v = (Ok RecoveryResult_default, st, v)).
Proof.
  intros Hp. cbv zeta. assert (Hc : choose_provider a podman = NullProvider reason).
  { unfold choose_provider. destruct (a_test_mode a); [by rewrite Hp|by rewrite Hp]. }
  rewrite Hc. split; [done|]. split; [|split; [|done]].
  - intros db now t v. unfold expiry_tick. cbn [repo_find_expired db_repository db_find_expired].
    assert (Hfold : forall l, fold_left (fun tv sandbox => stop_expired (db_repository db now) (NullProvider reason) sandbox tv) l (t, v) = (t, v))
      by (induction l as [|sb l IH]; [done|apply IH]).
    unfold db_find_expired. destruct (statement _ _ _); [apply Hfold|done].
  - intros R E input v. unfold create_execute. by destruct (generate_id v).
Qed.
End NullFacts.

(** ** The registered providers *)

(** Whatever is configured, the default provider is the one the gateway made from
    its command line: a configuration named [podman] is kept and never served, and
    every other name serves what its configuration constructs. *)
Theorem default_is_podman `{Host} `{HashOrder} (dir : listing) (podman : provider) :
  let r := provider_registry dir podman in
  factory_default (pr_factory r) = Some podman /\
  factory_get (pr_factory r) (lit "podman") = Some podman /\
  forall name, name <> lit "podman" ->
    factory_get (pr_factory r) name =
      factory_get (pr_factory (snd (load_from_dir dir (ProviderRegistry_new (ProviderFactory_new (lit "podman")))))) name.
Proof.
  cbv zeta. unfold provider_registry, factory_default, factory_get, factory_register. cbn.
  set (r := snd (load_from_dir _ _)).
  assert (Hd : pf_default (pr_factory r) = lit "podman").
  { unfold r, load_from_dir. destruct dir as [|e|es]; [done|done|].
    destruct (load_entries es _ _) as [[n|e] configs]; [|done]. cbn.
    assert (Hf : forall l f, pf_default (fold_left register_config l f) = pf_default f).
    { induction l as [|c l IH]; intros f; [done|]. cbn [fold_left]. rewrite IH. unfold register_config.
      by destruct (instantiate_provider c.2). }
    by rewrite Hf. }
  rewrite Hd. split; [apply lookup_insert_eq|]. split; [apply lookup_insert_eq|].
  intros name Hne. by apply lookup_insert_ne.
Qed.

(** ** A concrete start *)

Module Demo.
#[local] Existing Instances Z_chrono some_order substring_engine substring_captures merge_order.
#[local] Existing Instances SandboxDb.Demo.demo_text CatalogStore.Demo.demo_catalog_text CatalogStore.Demo.merge_rows.
#[local] Existing Instance CatalogStore.Demo.ascii.
Import Pool.Sim.

Definition bare : Args := args_of (mkSwitches false false false false false false) None.
Definition testing : Args := args_of (mkSwitches false false false false false true) None.

(** A machine on which nothing was ever opened, with the built-in catalog. *)
Definition new_disk : Disk := mkDisk fresh empty_tables fresh ∅.
Definition found : Found :=
  mkFound Schema.Demo.sql CatalogStore.Demo.sql (lit "maven.yaml") (Ok (lit "a")) (lit "enrichers") None
    Schema.Demo.sql db_ok (lit "2025").

Definition starts (o : option (option Adapter * EnrichmentConfig * Disk)) : bool :=
  match o with Some (Some _, _, _) => true | _ => false end.

Lemma enrichment_of_gateway_witness :
  exists a cfg d', enrichment_start true found new_disk = Some (Some a, cfg, d') /\ dk_runs d' = ∅ /\
    forall cs, Forall (fun '(ctx, r) => match ctx with Some c => ruleless c | None => True end)
                 (fst (adapter_run cs a)) /\
               Forall (fun '(ctx, r) => r = None) (fst (adapter_run cs a)).
Proof.
  assert (Hs : starts (enrichment_start true found new_disk) = true) by (vm_compute; reflexivity).
  destruct (enrichment_start true found new_disk) as [[[[a|] cfg] d']|] eqn:E; [|discriminate|discriminate].
  exists a, cfg, d'. split; [reflexivity|].
  assert (H : forall cs, _) by exact (fun cs => enrichment_of_gateway true found new_disk a cfg d' cs E).
  split; [apply (proj2 (H []) Schema.Demo.sql_sound (or_introl eq_refl))|].
  intros cs. split; [apply (H cs)|]. apply (proj2 (H cs) Schema.Demo.sql_sound (or_introl eq_refl)).
Defined.

Lemma pool_starts_witness :
  exists st st' w', pool_manager bare = Some st /\ start [Tick; Tick; ShutdownSignal] st world0 = Some (Ok tt, st', w') /\
    within_capacity st' /\ permits st' = 50.
Proof.
  destruct (pool_starts (mkSwitches false false false false false false) None [Tick; Tick; ShutdownSignal] world0)
    as [_ H].
  destruct (H _ eq_refl) as (st' & w' & E & Hc & _ & Hp).
  eexists _, st', w'. split; [reflexivity|]. split; [exact E|]. split; [exact Hc|]. exact Hp.
Defined.

Lemma null_provider_harmless_witness :
  expiry_tick (db_repository sql_ok 7%Z)
    (choose_provider (CH := Z_chrono) bare (Err (lit "Podman socket not found"))) (SandboxDb.Demo.table, world0) =
    (SandboxDb.Demo.table, world0).
Proof.
  destruct (null_provider_harmless (V := SimWorld) bare (lit "Podman socket not found")
    (Err (lit "Podman socket not found")) eq_refl) as (_ & H & _).
  apply H.
Defined.

(** The refill task fills the queue of the default image up to its minimum. *)
Example filled_ex :
  match pool_manager bare with
  | Some st =>
      match start [Tick] st world0 with
      | Some (Ok _, st, _) => total_idle st = 2%Z
      | _ => False
      end
  | None => False
  end.
Proof. vm_compute. reflexivity. Qed.

Example test_mode_ex : pool_manager (CH := Z_chrono) testing = None.
Proof. reflexivity. Qed.

Example paths_ex :
  sandbox_db_path bare (Some (lit "/home/u")) = lit "/home/u/.bastion/sandboxes.db" /\
  config_dir bare (Some (lit "/home/u")) (fun _ => false) = lit "/home/u/.bastion" /\
  config_dir bare (Some (lit "/home/u")) (fun _ => true) = lit ".bastion".
Proof. by repeat split. Qed.
End Demo.
