(* ===== verification/WorkerCerts.v ===== *)
(** * The transport between the gateway and its workers

    Models which connection a worker opens and which one the registry takes: the
    TLS of the registry as [bastion-gateway/src/main.rs] sets it up, the
    certificate a gateway can issue for a worker
    ([bastion-gateway/src/server.rs]), and what a worker finds in its sandbox
    ([bastion-worker/src/main.rs]).  The authority is that of [Credentials].  The
    handshake itself belongs to a library: [Handshake], with what its documentation
    says of it. *)

From S2P Require Import Prelude Utf8 Materialize Images Credentials.
Import CredentialFacts.

(** ** The certificate of a worker *)

Record WorkerCerts := mkWorkerCerts { wc_cert_path : str; wc_key_path : str; wc_ca_path : str }.

Definition WORKER_CERT : str := lit "worker-cert.pem".
Definition WORKER_KEY : str := lit "worker-key.pem".

Section Issue.
Context {W : Type} `{HOST : !HostFs W} `{IMG : !ImageFs W} `{ENT : !Entropy W} `{RC : !Rcgen W}.

(** [home] is the home directory, if there is one. *)
Definition certs_dir (home : option str) (sandbox_id : str) : str :=
  match home with
  | Some h => path_join (path_join (path_join (path_join h (lit ".bastion")) (lit "tls")) (lit "workers")) sandbox_id
  | None => path_join (lit ".bastion/tls/workers") sandbox_id
  end.

Definition generate_worker_certs (t : AutoTls) (home : option str) (sandbox_id : str) (w : W) :
    result str WorkerCerts * W :=
  let? (pair, w) :=
    (let '(r, w) := issue_worker_cert t sandbox_id w in
     (map_err (fun e => lit "Failed to issue worker cert: " ++ e) r, w)) in
  let dir := certs_dir home sandbox_id in
  let? (_, w) :=
    (let '(r, w) := host_mkdirs dir w in
     (map_err (fun e => lit "Failed to create cert dir: " ++ e) r, w)) in
  let? (_, w) :=
    (let '(r, w) := host_write (path_join dir WORKER_CERT) (utf8 (fst pair)) w in
     (map_err (fun e => lit "Failed to write cert: " ++ e) r, w)) in
  let? (_, w) :=
    (let '(r, w) := host_write (path_join dir WORKER_KEY) (utf8 (snd pair)) w in
     (map_err (fun e => lit "Failed to write key: " ++ e) r, w)) in
  (Ok (mkWorkerCerts (path_join dir WORKER_CERT) (path_join dir WORKER_KEY) (worker_ca_cert_path t)), w).

(** The transport of the registry; [None] is the panic of a configuration that
    cannot be read. *)
Definition registry_transport (no_tls : bool) (t : AutoTls) (w : W) : option (option ServerTlsConfig) :=
  if no_tls then Some None
  else match server_config t w with
       | Ok sc => Some (Some sc)
       | Err _ => None
       end.
End Issue.

(** ** What a worker connects with *)

(** What the worker presents, the authority it trusts and the name it expects. *)
Record WorkerTls := mkWorkerTls {
  wt_identity : option (str * str); wt_ca : option str; wt_domain_name : option str
}.

Definition plain_tls : WorkerTls := mkWorkerTls None None None.

(** [str::replace]: the occurrences from the left; [skip] characters belong to the
    one that was found last. *)
Fixpoint replace_from (skip : nat) (pat rep s : str) : str :=
  match s with
  | [] => []
  | c :: s' =>
      match skip with
      | S k => replace_from k pat rep s'
      | O => if starts_with pat s then rep ++ replace_from (pred (length pat)) pat rep s'
             else c :: replace_from 0 pat rep s'
      end
  end.

Definition https_url (addr : str) : str := replace_from 0 (lit "http://") (lit "https://") addr.

Definition IN_CERT : str := lit "/sandbox/worker-cert.pem".
Definition IN_KEY : str := lit "/sandbox/worker-key.pem".
Definition IN_CA : str := lit "/sandbox/ca-cert.pem".

Section Session.
Context {V : Type} `{HOST : !HostFs V}.

Definition has_certs (v : V) : bool := path_exists IN_CERT v && path_exists IN_KEY v && path_exists IN_CA v.

Definition load_tls_config (gateway_addr : str) (v : V) : result str (WorkerTls * str) :=
  if has_certs v then
    cert ← read_text IN_CERT v;
    key ← read_text IN_KEY v;
    ca ← read_text IN_CA v;
    Ok (mkWorkerTls (Some (cert, key)) (Some ca) (Some (lit "bastion-gateway")), https_url gateway_addr)
  else Ok (plain_tls, gateway_addr).
End Session.

Definition is_http (url : str) : bool := starts_with (lit "http://") url.
Definition is_https (url : str) : bool := starts_with (lit "https://") url.

(** A name that is not an address: it starts with a letter and has no colon. *)
Definition is_host_name (d : str) : bool :=
  match d with c :: _ => is_ascii_alphabetic c && negb (existsb (N.eqb (chr ":")) d) | [] => false end.

Definition ascii_lower (s : str) : str := map (fun c => if is_ascii_uppercase c then (c + 32)%N else c) s.

(** Whether a name of a certificate may stand for a host: it is that name, whatever
    the case, or a pattern with a wildcard. *)
Definition may_name (n d : str) : bool := str_eqb (ascii_lower n) (ascii_lower d) || starts_with (lit "*") n.

(** Whether a connection is made at an address where the registry listens. *)
Class Handshake := connects : option ServerTlsConfig -> WorkerTls -> str -> bool.

(** TLS is spoken exactly on an https address.  A server with an authority for its
    clients refuses one without a certificate; a client that expects the name of a
    host refuses a certificate none of whose names may stand for it. *)
Class HandshakeLaws (W : Type) `{RC : !Rcgen W} `{HS : Handshake} := {
  law_plain : forall tls url, is_http url = true -> connects None tls url = true;
  law_tls_at_plain : forall tls url, is_https url = true -> connects None tls url = false;
  law_plain_at_tls : forall sc tls url, is_https url = false -> connects (Some sc) tls url = false;
  law_no_identity : forall sc tls url, wt_identity tls = None -> connects (Some sc) tls url = false;
  law_wrong_name : forall sc tls url params kp ca issuer c d,
    st_cert sc = cert_pem c -> signed_by params kp ca issuer = Ok c -> wt_domain_name tls = Some d ->
    is_host_name d = true -> (forall n, DnsName n ∈ cp_subject_alt_names params -> may_name n d = false) ->
    connects (Some sc) tls url = false
}.

(** The first step of a session. *)
Definition connect_gateway `{Handshake} {V} `{!HostFs V} (server : option ServerTlsConfig) (gateway_addr : str)
    (v : V) : bool :=
  match load_tls_config gateway_addr v with
  | Ok (tls, url) => connects server tls url
  | Err _ => false
  end.

(** ** Addresses *)

(** An address for TLS stays one, and a plain one becomes one. *)
Lemma https_url_secure addr : is_http addr || is_https addr = true -> is_https (https_url addr) = true.
Proof. by intros [H|H]%orb_prop; apply starts_with_spec in H as [r ->]. Qed.

Lemma http_or_https addr : is_http addr = true -> is_https addr = false.
Proof. intros H. by apply starts_with_spec in H as [r ->]. Qed.

(** The certificate that a gateway makes for itself does not stand for the name
    that a worker expects. *)
Lemma gateway_not_named now n : DnsName n ∈ cp_subject_alt_names (gateway_params now) ->
  may_name n (lit "bastion-gateway") = false.
Proof. intros H. cbn in H. apply list_elem_of_In in H as [[= <-]|[H|[]]]; [by vm_compute|done]. Qed.

(** ** Who connects *)

Section Transport.
Context {W : Type} `{HOST : !HostFs W} `{IMG : !ImageFs W} `{ENT : !Entropy W} `{RC : !Rcgen W}
  `{HL : !HostLaws W} `{KL : !KeyLaws W} `{RL : !RcgenLaws W} `{HS : Handshake} `{LAWS : !HandshakeLaws W}.
Context {V : Type} `{SANDBOX : !HostFs V}.

(** Without its certificates a worker has no identity. *)
Lemma loaded_tls addr (v : V) tls url : load_tls_config addr v = Ok (tls, url) ->
  if has_certs v
  then wt_domain_name tls = Some (lit "bastion-gateway") /\ url = https_url addr
  else tls = plain_tls /\ url = addr.
Proof.
  unfold load_tls_config. destruct (has_certs v); [|by intros [= <- <-]].
  destruct (read_text IN_CERT v) as [cert|e]; [|done]. destruct (read_text IN_KEY v) as [key|e]; [|done].
  destruct (read_text IN_CA v) as [ca|e]; [|done]. by intros [= <- <-].
Qed.

(** C39. A gateway that made its own certificate accepts a worker exactly when its
    registry runs without TLS, the worker found no certificates and was given a
    plain address.  With TLS, as by default, no worker ever connects, whatever is
    in its sandbox - the certificates that the gateway issues included: a worker
    without them has no identity, and one with them expects a name that the
    gateway's certificate does not carry. *)
Theorem only_plain_workers_connect base (w : W) t w' no_tls addr (v : V) :
  tls_init_or_load base w = (Ok t, w') ->
  both_exist (path_join base (lit "tls")) GATEWAY_CERT GATEWAY_KEY w = false ->
  is_http addr || is_https addr = true ->
  exists server, registry_transport no_tls t w' = Some server /\
    (connect_gateway server addr v = true <-> no_tls = true /\ has_certs v = false /\ is_http addr = true).
Proof.
  intros Hinit Hnew Haddr. destruct (tls_init_spec base w t w' Hinit) as (_ & _ & _ & _ & Hgw & _).
  rewrite Hnew in Hgw. destruct Hgw as (sc & Hsc & _ & now & kp & issuer & c & _ & Hsig & Hcert & _).
  unfold registry_transport. rewrite Hsc.
  exists (if no_tls then None else Some sc). split; [by destruct no_tls|].
  unfold connect_gateway. destruct (load_tls_config addr v) as [[tls url]|e] eqn:E.
  - apply loaded_tls in E. destruct (has_certs v); destruct E as [E1 E2].
    + split; [|by intros (_ & ? & _)]. rewrite E2. destruct no_tls.
      * by rewrite law_tls_at_plain by by apply https_url_secure.
      * by rewrite (law_wrong_name _ _ _ _ _ _ _ _ _ Hcert Hsig E1 eq_refl (gateway_not_named now)).
    + subst tls url. destruct no_tls.
      * destruct (is_http addr) eqn:Eh; [by rewrite law_plain|]. rewrite orb_false_l in Haddr.
        rewrite law_tls_at_plain by done. by split; [|intros (_ & _ & ?)].
      * rewrite law_no_identity by done. by split; [|intros [? _]].
  - split; [done|]. intros (_ & Hc & _). unfold load_tls_config in E. by rewrite Hc in E.
Qed.

(** ** The certificate that is issued *)

(** Signed by the authority, for one day, in the name of the sandbox. *)
Definition signed_for_worker (cert key : str) (t : AutoTls) (sandbox_id : str) : Prop :=
  exists now kp issuer c, kp_from_pem (ca_key_pem t) = Ok issuer /\
    signed_by (worker_params sandbox_id now) kp (ca_cert t) issuer = Ok c /\ cert = cert_pem c /\ key = kp_pem kp.

Lemma issued t id (w : W) cert key w' : issue_worker_cert t id w = (Ok (cert, key), w') ->
  signed_for_worker cert key t id /\ same_files w w' /\ Forall scalar_value cert /\ Forall scalar_value key.
Proof.
  unfold issue_worker_cert, generate_worker_cert, issue_cert.
  destruct (kp_from_pem (ca_key_pem t)) as [issuer|e] eqn:Ei; [|done]. cbn [context map_err].
  pose proof (law_generate_same w) as Hg. destruct (kp_generate w) as [[kp|e] w1]; [|done].
  cbn [context map_err and_then snd] in *.
  destruct (signed_by _ kp (ca_cert t) issuer) as [c|e] eqn:Es; [|done].
  cbn [mbind result_bind context map_err]. intros [= <- <- <-].
  split; [by exists (en_seconds w), kp, issuer, c|]. split; [done|]. split; [apply law_cert_text|apply law_key_text].
Qed.

Lemma path_join_tail n d e a b : starts_with [chr "/"] a = false -> starts_with [chr "/"] b = false ->
  drop (length a - n) a <> drop (length b - n) b -> (n <=? length a) && (n <=? length b) = true -> path_join d a <> path_join e b.
Proof.
  intros Ha Hb Hn [La%Nat.leb_le Lb%Nat.leb_le]%andb_prop H. rewrite !path_join_prefix in H by done.
  rewrite <- (take_drop (length a - n) a), <- (take_drop (length b - n) b), !app_assoc in H.
  apply app_inj_2 in H as [_ H]; [done|]. rewrite !length_drop. lia.
Qed.

(** The files of a worker's certificate are signed by the gateway's authority in the
    name of the sandbox, and nothing else on the disk changes.  A worker in whose
    sandbox they are put, with the authority's, presents that identity, trusts that
    authority and speaks TLS. *)
Theorem issued_identity t home id (w : W) certs w' addr (v : V) :
  generate_worker_certs t home id w = (Ok certs, w') ->
  read_text (worker_ca_cert_path t) w = Ok (ca_cert_pem t) ->
  exists cert key, signed_for_worker cert key t id /\
    read_text (wc_cert_path certs) w' = Ok cert /\ read_text (wc_key_path certs) w' = Ok key /\
    read_text (wc_ca_path certs) w' = Ok (ca_cert_pem t) /\
    (forall q, q <> wc_cert_path certs -> q <> wc_key_path certs -> host_read q w' = host_read q w) /\
    (has_certs v = true ->
     host_read IN_CERT v = host_read (wc_cert_path certs) w' -> host_read IN_KEY v = host_read (wc_key_path certs) w' ->
     host_read IN_CA v = host_read (wc_ca_path certs) w' ->
     load_tls_config addr v =
       Ok (mkWorkerTls (Some (cert, key)) (Some (ca_cert_pem t)) (Some (lit "bastion-gateway")), https_url addr)).
Proof.
  intros H Hca. unfold generate_worker_certs in H.
  destruct (issue_worker_cert t id w) as [[[cert key]|e] w1] eqn:Ei; [|done]. cbn [map_err and_then fst snd] in H.
  apply issued in Ei as (Hs & [Hr1 _] & Hc & Hk). set (dir := certs_dir home id) in *.
  pose proof (fun q => law_mkdirs dir q w1) as Hd.
  destruct (host_mkdirs dir w1) as [[[]|e] w2]; [|done]. cbn [map_err and_then snd] in *.
  set (pc := path_join dir WORKER_CERT) in *. set (pk := path_join dir WORKER_KEY) in *.
  pose proof (law_write_read pc (utf8 cert) w2) as Hwc.
  pose proof (fun q => law_write_other pc q (utf8 cert) w2) as Hoc.
  destruct (host_write pc (utf8 cert) w2) as [[[]|e] w3]; [|done]. cbn [map_err and_then fst snd] in *.
  destruct (Hwc eq_refl) as [Hrc _].
  pose proof (law_write_read pk (utf8 key) w3) as Hwk.
  pose proof (fun q => law_write_other pk q (utf8 key) w3) as Hok.
  destruct (host_write pk (utf8 key) w3) as [[[]|e] w4]; [|done]. cbn [map_err and_then fst snd] in *.
  destruct (Hwk eq_refl) as [Hrk _]. injection H as <- <-. cbn [wc_cert_path wc_key_path wc_ca_path].
  assert (Hkc : pk <> pc) by (apply (path_join_tail 5); by vm_compute).
  assert (Hothers : forall q, q <> pc -> q <> pk -> host_read q w4 = host_read q w)
    by (intros q Hq1 Hq2; by rewrite Hok, Hoc, Hd, Hr1 by congruence).
  assert (K1 : read_text pc w4 = Ok cert) by (unfold read_text; rewrite Hok by congruence; by rewrite Hrc, from_utf8_utf8).
  assert (K2 : read_text pk w4 = Ok key) by (unfold read_text; by rewrite Hrk, from_utf8_utf8).
  assert (K3 : read_text (worker_ca_cert_path t) w4 = Ok (ca_cert_pem t)).
  { rewrite <- Hca. unfold read_text. rewrite Hothers; [done|apply (path_join_tail 10 _ _ CA_CERT WORKER_CERT); by vm_compute|apply (path_join_tail 10 _ _ CA_CERT WORKER_KEY); by vm_compute]. }
  exists cert, key. do 5 (split; [done|]). intros Hv E1 E2 E3. unfold load_tls_config. rewrite Hv.
  unfold read_text in *. by rewrite E1, E2, E3, K1, K2, K3.
Qed.
End Transport.

(** ** Concrete certificates *)

Module Demo.
Import Credentials.Demo.

Definition dns_names (l : list SanType) : list str :=
  omap (fun s => match s with DnsName n => Some n | IpAddress _ _ _ _ => None end) l.

(** A certificate is the names it carries, and its text their code. *)
#[local] Instance coded_certs : Rcgen box := {|
  Certificate := list str;
  KeyPair := N;
  kp_generate := fun b => (Ok (bx_next b), mkBox (bx_files b) (bx_next b + 1));
  kp_from_pem := fun t => match read_digits 0 t with Some z => Ok (Z.to_N z) | None => Err (lit "bad key") end;
  kp_pem := show_N;
  params_from_pem := fun t => Ok (mkParams true [] None 0 0 [] []);
  self_signed := fun p _ => Ok (dns_names (cp_subject_alt_names p));
  signed_by := fun p _ _ _ => Ok (dns_names (cp_subject_alt_names p));
  cert_pem := fun c => show_N (Npos (countable.encode c))
|}.

Definition names_in (cert : str) : list str :=
  match read_digits 0 cert with
  | Some z => default [] (countable.decode (Z.to_pos z))
  | None => []
  end.

Lemma names_in_pem (c : list str) : names_in (cert_pem c) = c.
Proof. unfold names_in, cert_pem, coded_certs. rewrite show_N_read. cbn [Z.of_N Z.to_pos]. by rewrite decode_encode. Qed.

Lemma digits_text n : Forall scalar_value (show_N n).
Proof.
  eapply Forall_impl; [apply show_N_digits|]. intros c Hc. left.
  unfold is_ascii_digit in Hc. apply andb_prop in Hc as [_ Hc%N.leb_le]. lia.
Qed.

#[local] Instance coded_laws : RcgenLaws box.
Proof. split; [done| |]; intros c; apply digits_text. Qed.

#[local] Instance demo_handshake : Handshake := fun server tls url =>
  match server with
  | None => is_http url
  | Some sc =>
      is_https url && match wt_identity tls with Some _ => true | None => false end &&
      match wt_domain_name tls with Some d => existsb (fun n => may_name n d) (names_in (st_cert sc)) | None => true end
  end.

#[local] Instance demo_handshake_laws : HandshakeLaws box.
Proof.
  split; unfold connects, demo_handshake.
  - done.
  - intros _ url H. by apply starts_with_spec in H as [r ->].
  - by intros sc tls url ->.
  - intros sc tls url ->. by rewrite andb_false_r.
  - intros sc tls url params kp ca issuer c d -> [= <-] -> _ Hd. rewrite names_in_pem.
    replace (existsb _ _) with false; [by rewrite andb_false_r|]. symmetry. apply not_true_iff_false.
    intros (n & Hn%list_elem_of_In & Hm)%existsb_exists. apply list_elem_of_omap in Hn as ([n'|] & Hn & E); [|done].
    injection E as ->. by rewrite (Hd n Hn) in Hm.
Qed.

Definition addr : str := lit "http://127.0.0.1:50052".

(** The gateway's default: no sandbox, with certificates or without, gets through. *)
Lemma only_plain_workers_connect_witness :
  exists t server, fst (tls_init_or_load home empty_box) = Ok t /\
    registry_transport false t (snd (tls_init_or_load home empty_box)) = Some server /\
    forall v : box, connect_gateway server addr v <> true.
Proof.
  assert (Hok : is_ok (fst (tls_init_or_load home empty_box)) = true) by (vm_compute; reflexivity).
  destruct (tls_init_or_load home empty_box) as [[t|e] w'] eqn:E; [|discriminate].
  assert (H : forall v : box, _) by
    exact (fun v => only_plain_workers_connect home empty_box t w' false addr v E eq_refl eq_refl).
  destruct (registry_transport false t w') as [server|] eqn:Er; [|by destruct (H empty_box) as (? & ? & _)].
  exists t, server. split; [done|]. split; [done|]. intros v Hc. destruct (H v) as (s & Hs & Hiff).
  injection Hs as <-. by apply Hiff in Hc as [? _].
Defined.

(** A gateway that issues a certificate for [sb1]. *)
Definition issued_for_sb1 : result str WorkerCerts * box :=
  let? (t, w) := tls_init_or_load home empty_box in generate_worker_certs t (Some home) (lit "sb1") w.

Lemma issued_identity_witness :
  exists t w certs w' cert key, tls_init_or_load home empty_box = (Ok t, w) /\
    generate_worker_certs t (Some home) (lit "sb1") w = (Ok certs, w') /\
    signed_for_worker cert key t (lit "sb1") /\ read_text (wc_key_path certs) w' = Ok key.
Proof.
  assert (Hok : is_ok (fst issued_for_sb1) = true) by (vm_compute; reflexivity). unfold issued_for_sb1 in Hok.
  destruct (tls_init_or_load home empty_box) as [[t|e] w] eqn:E; [|discriminate]. cbn [and_then] in Hok.
  destruct (generate_worker_certs t (Some home) (lit "sb1") w) as [[certs|e] w'] eqn:Eg; [|discriminate].
  destruct (tls_init_spec home empty_box t w E) as (Hd & Hca & _).
  destruct (issued_identity t (Some home) (lit "sb1") w certs w' addr empty_box Eg) as (cert & key & Hs & _ & Hk & _).
  - unfold worker_ca_cert_path. rewrite Hd. exact Hca.
  - exists t, w, certs, w', cert, key. split; [done|]. split; [exact Eg|]. split; [exact Hs|exact Hk].
Defined.

Example tls_address_ex : https_url addr = lit "https://127.0.0.1:50052".
Proof. reflexivity. Qed.
End Demo.
