(* ===== verification/Toolbox.v ===== *)
(** * The tools as an agent sees them

    Models which tools the gateway serves - the routers of the tool files of
    [bastion-gateway/src] and their combination in [server.rs] - and the tools that
    describe the gateway to an agent: the briefing, the suggestion of a template and
    the configuration ([orientation_tools.rs]) and the doctors ([doctor_tools.rs]).
    A router is the list of the names under which its tools are called, which are
    those of the functions; an answer is the value that is written as JSON, or the
    text of its field [error]. *)

From S2P Require Import Prelude Fmt Normalizer Orientation Experience Catalog.

(** ** The routers *)

Definition catalog_tools : list string :=
  ["experience_list"; "experience_get"; "assertion_list"; "assertion_run"; "assertion_dry_run"]%string.
Definition doctor_tools : list string := ["doctor_list"; "doctor_run"; "doctor_explain"]%string.
Definition advice_tools : list string := ["advice_list"; "advice_get"; "advice_suggest"; "advice_configure"]%string.
Definition enrichment_tools : list string :=
  ["enrichment_optimizer_report"; "enrichment_retention_info"; "enrichment_retention_cleanup";
   "enrichment_health"]%string.
Definition orientation_tools : list string :=
  ["sandbox_orient_me"; "sandbox_suggest_template"; "sandbox_capacity_check"; "sandbox_optimal_config";
   "sandbox_get_config"; "sandbox_set_config"; "sandbox_config_history"]%string.
Definition metrics_tools : list string := ["sandbox_metrics_history"; "sandbox_resource_usage"]%string.
Definition sandbox_tools : list string :=
  ["sandbox_create"; "sandbox_run"; "sandbox_run_stream"; "sandbox_write"; "sandbox_read"; "sandbox_list_files";
   "sandbox_list_templates"; "sandbox_terminate"; "sandbox_cancel"; "sandbox_info"; "sandbox_list";
   "sandbox_pool_stats"; "sandbox_health"; "sandbox_metrics"; "sandbox_register_artifact"; "sandbox_prepare";
   "sandbox_snapshot"; "sandbox_sync"; "sandbox_list_capabilities"; "sandbox_list_artifacts"]%string.

(** The router of the gateway: of two tools of one name the later would be called. *)
Definition served_tools : list string :=
  catalog_tools ++ doctor_tools ++ advice_tools ++ enrichment_tools ++ orientation_tools ++ metrics_tools ++
  sandbox_tools.

(** ** The briefing *)

(** The counts of the pool, or that there is none. *)
Record PoolShown := mkPoolShown { psh_active : Z; psh_idle : Z; psh_total : Z }.

Record OrientMeResponse := mkOrientMe {
  om_gateway_version : str; om_provider : str; om_pool_status : option PoolShown;
  om_available_templates : list str; om_capabilities : list str; om_known_limitations : list str;
  om_worker_heartbeat_available : bool
}.

Definition available_templates : list str := map lit
  ["debian:bookworm-slim"; "ubuntu:22.04"; "ubuntu:24.04"; "fedora:39"; "alpine:3.19";
   "eclipse-temurin:21-jdk-maven"; "eclipse-temurin:21-jdk-gradle"; "node:20-slim"; "python:3.12-slim";
   "rust:1.77-slim"; "golang:1.22-alpine"; "ruby:3.3-slim"; "mcr.microsoft.com/dotnet/sdk:8.0";
   "php:8.3-cli"]%string.

Definition capabilities : list string :=
  ["sandbox_create"; "sandbox_run"; "sandbox_run_stream"; "sandbox_prepare"; "sandbox_terminate"; "sandbox_cancel";
   "sandbox_info"; "sandbox_list"; "sandbox_write"; "sandbox_read"; "sandbox_list_files"; "sandbox_sync";
   "sandbox_snapshot"; "sandbox_pool_stats"; "sandbox_health"; "sandbox_metrics"; "sandbox_register_artifact";
   "sandbox_list_capabilities"; "sandbox_list_artifacts"; "sandbox_orient_me"; "sandbox_suggest_template";
   "sandbox_capacity_check"; "sandbox_optimal_config"; "sandbox_get_config"; "sandbox_set_config";
   "sandbox_config_history"]%string.

Definition known_limitations : list str := map lit
  ["Pool mode only supports podman provider"; "Secrets must be pre-configured in the gateway";
   "Worker heartbeat requires workers to send periodic heartbeats";
   "Config changes requiring restart are not auto-restarted"]%string.

(** [version] is that of the package the gateway was built from. *)
Definition sandbox_orient_me (version provider_name : str) (pool : option PoolShown) (hub_connected : bool) :
    OrientMeResponse :=
  mkOrientMe version provider_name pool available_templates (map lit capabilities) known_limitations hub_connected.

Definition sandbox_suggest_template `{UnicodeTables} `{Lowercase} (task_description : str) : TemplateRecommendation :=
  recommend task_description.

Record GetConfigResponse := mkGetConfig {
  gc_pool : option PoolShown; gc_version : str; gc_pre_shared_key_enabled : bool; gc_psk_count : nat;
  gc_notes : list str
}.

Definition sandbox_get_config (version : str) (pool : option PoolShown) (pre_shared_key_enabled : bool)
    (pre_shared_keys : list str) : GetConfigResponse :=
  mkGetConfig pool version pre_shared_key_enabled
    (match pre_shared_keys with [] => 0 | keys => length keys end)
    (map lit ["Auth keys (pre_shared_keys) are redacted for security";
       "Pool configuration is read-only at runtime (use sandbox_set_config to persist changes)";
       "Gateway version cannot be changed at runtime"]%string).

(** ** The doctors *)

Definition no_doctor_registry : str := lit "doctor registry not configured".

Definition doctor_list `{HashOrder} (registry : option DoctorRegistry) :
    result str (nat * list DoctorDescriptor) :=
  match registry with
  | None => Err no_doctor_registry
  | Some r => let doctors := map snd (hash_iter _ (drg_doctors r)) in Ok (length doctors, doctors)
  end.

(** The descriptor with the text it was read from. *)
Definition doctor_explain (registry : option DoctorRegistry) (doctor_id : str) :
    result str (DoctorDescriptor * option str) :=
  match registry with
  | None => Err no_doctor_registry
  | Some r =>
      match drg_doctors r !! doctor_id with
      | None => Err (lit "doctor '" ++ doctor_id ++ lit "' not found")
      | Some descriptor => Ok (descriptor, drg_sources r !! doctor_id)
      end
  end.

(** ** What the briefing promises *)

(** A closed check of membership. *)
Definition all_in (l k : list str) : bool := forallb (fun x => existsb (str_eqb x) k) l.

Lemma all_in_subset l k : all_in l k = true -> l ⊆ k.
Proof.
  intros H x Hx. unfold all_in in H. rewrite forallb_forall in H. rewrite list_elem_of_In in Hx.
  specialize (H x Hx). apply existsb_exists in H as (y & Hy & E). apply str_eqb_eq in E as ->.
  by apply list_elem_of_In.
Qed.

Lemma matching_in_rules `{UnicodeTables} `{Lowercase} tokens rs r n : (r, n) ∈ matching_rules tokens rs -> r ∈ rs.
Proof.
  unfold matching_rules. rewrite list_elem_of_In, filter_In, in_map_iff. intros [(r' & [= -> _] & Hr) _].
  by apply list_elem_of_In.
Qed.

(** The tools of the seven routers have different names, so that none hides another;
    every capability of the briefing is one of them, and those of a sandbox that it
    keeps from the agent are the three below.  Whatever the task, the template that
    is suggested and its alternative are among those the briefing calls available,
    and so is the template of every use case. *)
Theorem briefing_holds `{UnicodeTables} `{Lowercase} (version provider_name task use_case : str) (pool : option PoolShown) (hub : bool) :
  let b := sandbox_orient_me version provider_name pool hub in
  NoDup served_tools /\
  om_capabilities b ⊆ map lit served_tools /\
  List.filter (fun t => negb (existsb (String.eqb t) capabilities)) (orientation_tools ++ metrics_tools ++ sandbox_tools) =
    ["sandbox_metrics_history"; "sandbox_resource_usage"; "sandbox_list_templates"]%string /\
  rec_template (sandbox_suggest_template task) ∈ om_available_templates b /\
  rec_alternative (sandbox_suggest_template task) ∈ om_available_templates b /\
  (forall t, oc_template (optimal_config use_case) = Some t -> t ∈ om_available_templates b).
Proof.
  cbv zeta. cbn [om_capabilities om_available_templates sandbox_orient_me].
  split; [apply (bool_decide_unpack (NoDup served_tools)); by vm_compute|].
  split; [apply all_in_subset; by vm_compute|]. split; [reflexivity|].
  assert (Hrec : rec_template (recommend task) ∈ available_templates /\
                 rec_alternative (recommend task) ∈ available_templates).
  { pose proof (recommend_spec task) as Hs. cbv zeta in Hs.
    assert (Hrules : forall r, r ∈ rules -> lit (ru_template r) ∈ available_templates /\
                                         lit (ru_alternative r) ∈ available_templates).
    { assert (H1 : map (fun r => lit (ru_template r)) rules ⊆ available_templates) by (apply all_in_subset; by vm_compute).
      assert (H2 : map (fun r => lit (ru_alternative r)) rules ⊆ available_templates) by (apply all_in_subset; by vm_compute).
      intros r Hr. split; [apply H1|apply H2]; apply list_elem_of_fmap; by exists r. }
    destruct (matching_rules (tokenize task) rules) as [|m ms] eqn:Em.
    - rewrite Hs. assert (Hf : [rec_template fallback; rec_alternative fallback] ⊆ available_templates)
        by (apply all_in_subset; by vm_compute).
      split; apply Hf; [by left|by right; left].
    - destruct Hs as (r & n & (pre & post & Heq & _) & ->). apply Hrules. eapply (matching_in_rules (tokenize task) _ _ n). rewrite Em, Heq. apply elem_of_app. right. by left. }
  split; [apply Hrec|]. split; [apply Hrec|].
  assert (Hu : map lit ["debian:bookworm-slim"; "ubuntu:24.04"; "python:3.12-slim"]%string ⊆ available_templates)
    by (apply all_in_subset; by vm_compute).
  intros t. unfold optimal_config.
  repeat match goal with |- context [if ?b then _ else _] => destruct b end; intros [= <-]; apply Hu;
    [left|right; left|right; right; left].
Qed.

(** Of the keys of the gateway the configuration shows their number and nothing
    else. *)
Theorem keys_redacted (version : str) (pool : option PoolShown) (enabled : bool) (keys other : list str) :
  sandbox_get_config version pool enabled keys = sandbox_get_config version pool enabled other <->
  length keys = length other.
Proof.
  assert (Hn : forall ks : list str, match ks with [] => 0 | _ => length ks end = length ks) by (by intros []).
  unfold sandbox_get_config. rewrite !Hn. split; [by intros [= ->]|by intros ->].
Qed.

(** ** What the doctors answer *)

(** The last file that describes a doctor. *)
Fixpoint last_described {E} (files : list (result E (TomlDoctor * str))) (id : str) : option (TomlDoctor * str) :=
  match files with
  | [] => None
  | Err _ :: fs => last_described fs id
  | Ok (d, source) :: fs =>
      match last_described fs id with
      | Some x => Some x
      | None => if str_eqb (td_id d) id then Some (d, source) else None
      end
  end.

Lemma loaded_doctors {E} (files : list (result E (TomlDoctor * str))) reg n id :
  let r := fst (load_doctors files reg n) in
  drg_doctors r !! id = match last_described files id with
                        | Some (d, _) => Some (doctor_of_toml d)
                        | None => drg_doctors reg !! id
                        end /\
  drg_sources r !! id = match last_described files id with
                        | Some (_, source) => Some source
                        | None => drg_sources reg !! id
                        end.
Proof.
  revert reg n. induction files as [|[[d source]|e] files IH]; intros reg n; [done| |apply IH].
  cbn [load_doctors last_described]. destruct (IH (mkDoctorRegistry (<[td_id d := doctor_of_toml d]> (drg_doctors reg))
    (<[td_id d := source]> (drg_sources reg))) (n + 1)%N) as [H1 H2]. cbv zeta. rewrite H1, H2.
  destruct (last_described files id) as [[d' source']|]; [done|]. cbn [drg_doctors drg_sources].
  destruct (str_eqb (td_id d) id) eqn:Ei.
  - apply str_eqb_eq in Ei as <-. by rewrite !lookup_insert_eq.
  - assert (td_id d <> id) by (intros Heq; by rewrite Heq, str_eqb_refl in Ei). by rewrite !lookup_insert_ne.
Qed.

(** Over the doctors of a directory: explaining one answers the last file that
    describes it, with its very text, and fails exactly when none does; running one
    fails on the same names with the same error, and the list has as many entries as
    there are names. *)
Theorem doctors_explained `{DebugTables} `{JsonValue} `{HashOrder} {E}
    (files : list (result E (TomlDoctor * str))) (ports : DoctorPorts) (id sandbox trace : str) :
  let r := fst (load_doctors files (mkDoctorRegistry ∅ ∅) 0) in
  doctor_explain (Some r) id =
    match last_described files id with
    | Some (d, source) => Ok (doctor_of_toml d, Some source)
    | None => Err (lit "doctor '" ++ id ++ lit "' not found")
    end /\
  (forall e, doctor_run ports (Some (fun i => drg_doctors r !! i)) id sandbox trace = DoctorFailed e <->
             doctor_explain (Some r) id = Err e) /\
  exists doctors, doctor_list (Some r) = Ok (size (drg_doctors r), doctors) /\
    forall d, d ∈ doctors <-> exists i s, doctor_explain (Some r) i = Ok (d, s).
Proof.
  cbv zeta. set (r := fst (load_doctors files (mkDoctorRegistry ∅ ∅) 0)).
  split; [|split].
  - unfold doctor_explain. destruct (loaded_doctors files (mkDoctorRegistry ∅ ∅) 0 id) as [K1 K2]. fold r in K1, K2.
    rewrite K1, K2. cbn [drg_doctors drg_sources]. by destruct (last_described files id) as [[d s]|]; rewrite ?lookup_empty.
  - intros e. unfold doctor_run, doctor_explain. destruct (drg_doctors r !! id) as [d|].
    + destruct (gw_run_checks _ _ _ _ _ _) as [[? ?] ?]. done.
    + by split; intros [= <-].
  - eexists. split.
    + cbn [doctor_list]. f_equal. f_equal. rewrite length_map, (Permutation_length (hash_iter_perm _ (drg_doctors r))).
      by rewrite length_map_to_list.
    + intros d. rewrite list_elem_of_fmap. split.
      * intros ([i d'] & -> & Hin). apply elem_of_hash_iter in Hin. exists i, (drg_sources r !! i).
        unfold doctor_explain. by rewrite Hin.
      * intros (i & s & Hd). unfold doctor_explain in Hd. destruct (drg_doctors r !! i) as [d'|] eqn:Ed; [|done].
        injection Hd as <- _. exists (i, d'). split; [done|]. by apply elem_of_hash_iter.
Qed.
