(* ===== verification/Bootstrap.v ===== *)
(** * The bootstrap of a worker

    Models [bastion-bootstrap/src/main.rs]: the program that fetches the worker,
    checks its digest and runs it.  Files are [HostFs] and [ImageFs]; the download,
    the digest and the running of a program are the class [BootHost].  The
    environment is a finite map of texts; the outcome is the exit status, a panic,
    or the text of an error. *)

From S2P Require Import Prelude Utf8 Materialize Images Credentials.

Class BootHost (W : Type) := {
  bh_get : str -> W -> result str bytes * W;
  bh_sha256 : bytes -> bytes;
  bh_remove : str -> W -> result str unit * W;
  (** A program with its arguments and its environment: its exit code, if it has one. *)
  bh_run : str -> list str -> gmap str str -> W -> result str (option Z) * W
}.

Class BootLaws (W : Type) `{HOST : !HostFs W, IMG : !ImageFs W, BH : !BootHost W} := {
  law_boot_mode : forall p m w q, host_read q (snd (im_set_mode p m w)) = host_read q w
}.

Inductive outcome := Exited (code : Z) | Panicked | Failed (error : str).

Section Bootstrap.
Context {W : Type} `{HOST : !HostFs W} `{IMG : !ImageFs W} `{BH : !BootHost W}.

Definition WORKER_URL : str := lit "BASTION_WORKER_URL".
Definition WORKER_SHA256 : str := lit "BASTION_WORKER_SHA256".
Definition worker_path : str := lit "/tmp/bastion-worker".

Definition download_file (url path : str) (w : W) : result str unit * W :=
  let? (content, w) := bh_get url w in
  host_write path content w.

Definition sha256_file (path : str) (w : W) : result str str :=
  match host_read path w with
  | Ok content => Ok (hex_encode (bh_sha256 content))
  | Err e => Err e
  end.

Definition verify_sha256 (expected : option str) (w : W) : result str unit * W :=
  match expected with
  | None => (Ok tt, w)
  | Some expected =>
      let? (actual, w) := (sha256_file worker_path w, w) in
      if str_eqb actual expected then (Ok tt, w)
      else
        let? (_, w) := bh_remove worker_path w in
        (Err (lit "SHA256 mismatch: expected " ++ expected ++ lit ", got " ++ actual), w)
  end.

(** Mode 0755. *)
Definition make_executable (w : W) : result str unit * W :=
  let? (_, w) := (im_mode worker_path w, w) in
  im_set_mode worker_path 493 w.

Definition fetch_worker (url : str) (expected : option str) (w : W) : result str unit * W :=
  let? (_, w) := download_file url worker_path w in
  let? (_, w) := verify_sha256 expected w in
  make_executable w.

(** What is set for the worker, on top of what it inherits. *)
Definition worker_env (env : gmap str str) : gmap str str :=
  filter (fun kv => starts_with (lit "BASTION_") (fst kv) && negb (str_eqb (fst kv) WORKER_URL) &&
                    negb (str_eqb (fst kv) WORKER_SHA256) = true) env.

(** A command inherits the environment; what is set replaces what it inherits. *)
Definition child_env (set env : gmap str str) : gmap str str := set ∪ env.

Definition option_arg (env : gmap str str) (name flag : string) : list str :=
  match env !! lit name with Some v => [lit flag; v] | None => [] end.

Definition worker_args (env : gmap str str) : list str :=
  option_arg env "BASTION_GATEWAY_ADDR" "--gateway-addr" ++ option_arg env "BASTION_SANDBOX_ID" "--sandbox-id" ++
  option_arg env "BASTION_AUTH_TOKEN" "--secret".

Definition bootstrap (env : gmap str str) (w : W) : outcome * W :=
  match env !! WORKER_URL with
  | None => (Panicked, w)
  | Some url =>
      match fetch_worker url (env !! WORKER_SHA256) w with
      | (Err e, w) => (Failed e, w)
      | (Ok _, w) =>
          match bh_run worker_path (worker_args env) (child_env (worker_env env) env) w with
          | (Err e, w) => (Failed e, w)
          | (Ok code, w) => (Exited (default 1%Z code), w)
          end
      end
  end.
End Bootstrap.

(** ** What is run *)

Section Facts.
Context {W : Type} `{HOST : !HostFs W} `{IMG : !ImageFs W} `{BH : !BootHost W} `{HL : !HostLaws W} `{BL : !BootLaws W}.

(** The environment of the worker is that of the bootstrap: what is set is what it
    inherits anyway, and what was to be kept from it is inherited. *)
Lemma child_env_same (env : gmap str str) : child_env (worker_env env) env = env.
Proof.
  apply map_eq. intros k. unfold child_env, worker_env. rewrite lookup_union.
  destruct (filter _ env !! k) as [v|] eqn:E.
  - apply map_lookup_filter_Some in E as [-> _]. done.
  - by destruct (env !! k).
Qed.

(** A fetched worker is the download, and has the digest that was asked for. *)
Lemma fetched (url : str) (expected : option str) (w w' : W) :
  fetch_worker url expected w = (Ok tt, w') ->
  exists content w1, bh_get url w = (Ok content, w1) /\ host_read worker_path w' = Ok content /\
    forall h, expected = Some h -> hex_encode (bh_sha256 content) = h.
Proof.
  unfold fetch_worker, download_file. destruct (bh_get url w) as [[content|e] w1]; [|done]. cbn [and_then].
  pose proof (law_write_read worker_path content w1) as Hw.
  destruct (host_write worker_path content w1) as [[[]|e] w2]; [|done]. cbn [and_then fst snd] in *.
  destruct (Hw eq_refl) as [Hr _].
  assert (Hv : forall w3, verify_sha256 expected w2 = (Ok tt, w3) ->
    w3 = w2 /\ forall h, expected = Some h -> hex_encode (bh_sha256 content) = h).
  { intros w3. unfold verify_sha256, sha256_file. destruct expected as [h|]; [|by intros [= <-]]. rewrite Hr.
    cbn [and_then]. destruct (str_eqb _ h) eqn:Eh.
    - intros [= <-]. split; [done|]. intros h' [= <-]. by apply str_eqb_eq.
    - by destruct (bh_remove worker_path w2) as [[[]|e] w4]. }
  destruct (verify_sha256 expected w2) as [[[]|e] w3]; [|done]. destruct (Hv w3 eq_refl) as [-> Hh].
  cbn [and_then]. unfold make_executable. destruct (im_mode worker_path w2) as [m|e]; [|done]. cbn [and_then].
  pose proof (law_boot_mode worker_path 493 w2 worker_path) as Hm.
  intros E. rewrite E in Hm. cbn [snd] in Hm. exists content, w1. split; [done|]. by rewrite Hm.
Qed.

(** The bootstrap runs a program exactly when the download, the check of its digest
    and the change of its mode succeed; the program is then byte for byte the
    download, with the digest that the environment demands, if it demands one.  It
    gets the whole environment of the bootstrap, and the three options that are set.
    In every other case nothing is run, and without an address it panics. *)
Theorem bootstrap_runs_download (env : gmap str str) (w : W) :
  match env !! WORKER_URL with
  | None => bootstrap env w = (Panicked, w)
  | Some url =>
      match fetch_worker url (env !! WORKER_SHA256) w with
      | (Err e, w') => bootstrap env w = (Failed e, w')
      | (Ok _, w') =>
          (exists content w1, bh_get url w = (Ok content, w1) /\ host_read worker_path w' = Ok content /\
             forall h, env !! WORKER_SHA256 = Some h -> hex_encode (bh_sha256 content) = h) /\
          bootstrap env w =
            match bh_run worker_path (worker_args env) env w' with
            | (Ok code, w2) => (Exited (default 1%Z code), w2)
            | (Err e, w2) => (Failed e, w2)
            end
      end
  end.
Proof.
  unfold bootstrap. destruct (env !! WORKER_URL) as [url|]; [|done].
  destruct (fetch_worker url (env !! WORKER_SHA256) w) as [[[]|e] w'] eqn:E; [|done].
  split; [by apply fetched|]. rewrite child_env_same.
  by destruct (bh_run _ _ _ w') as [[code|e] w2].
Qed.
End Facts.

(** ** A concrete machine *)

Module Demo.
Import Credentials.Demo.

(** Downloads are the bytes 1 and 2; a digest is the first byte; a program exits with
    the number of its arguments. *)
#[local] Instance box_boot : BootHost box := {|
  bh_get := fun _ b => (Ok [1; 2]%N, b);
  bh_sha256 := fun c => take 1 c;
  bh_remove := fun p b => (Ok tt, host_remove p b);
  bh_run := fun _ args _ b => (Ok (Some (Z.of_nat (length args))), b)
|}.

#[local] Instance box_boot_laws : BootLaws box.
Proof. by split. Qed.

Definition env (digest : string) : gmap str str :=
  {[WORKER_URL := lit "https://host/worker"; WORKER_SHA256 := lit digest;
    lit "BASTION_SANDBOX_ID" := lit "sb"]}.

Lemma bootstrap_runs_download_witness :
  exists content w1, bh_get (lit "https://host/worker") empty_box = (Ok content, w1) /\
    hex_encode (bh_sha256 content) = lit "01" /\ fst (bootstrap (env "01") empty_box) = Exited 2.
Proof.
  pose proof (bootstrap_runs_download (env "01") empty_box) as H.
  replace (env "01" !! WORKER_URL) with (Some (lit "https://host/worker")) in H by (vm_compute; reflexivity).
  replace (env "01" !! WORKER_SHA256) with (Some (lit "01")) in H by (vm_compute; reflexivity).
  cbv beta iota in H.
  destruct (fetch_worker (lit "https://host/worker") (Some (lit "01")) empty_box) as [[[]|e] w'] eqn:E.
  - destruct H as [(content & w1 & Hg & _ & Hd) Hr]. exists content, w1. split; [exact Hg|].
    split; [apply Hd; reflexivity|]. rewrite Hr. vm_compute. reflexivity.
  - exfalso. by vm_compute in E.
Defined.

Example mismatch_ex :
  fst (bootstrap (env "02") empty_box) = Failed (lit "SHA256 mismatch: expected 02, got 01") /\
  path_exists worker_path (snd (bootstrap (env "02") empty_box)) = false.
Proof. split; vm_compute; reflexivity. Qed.
End Demo.
