(* ===== verification/TestHarness.v ===== *)
(** * The test harness

    Models [bastion-test-harness/src]: the table of test runs ([schema.rs]), the
    collector's statistics over it ([metrics.rs], [types.rs]) and the command lines
    with which the terminal starts the gateway and the worker ([terminal.rs]).  The
    table is the list of its rows in the order of insertion, with the unique index;
    a statement may fail ([HarnessSql]); rows without an order come in any
    ([SqlRows]).  Creating the table, and talking to the processes, are left out. *)

From Stdlib Require Import SpecFloat Sorted.
From stdpp Require Import sorting.
From S2P Require Import Prelude RunStore Optimizer CatalogStore Materialize.

(** ** The table *)

Record TestRun := mkTestRun {
  tr_test_name : str; tr_crate_name : str; tr_file_path : str; tr_timestamp : str; tr_duration_ms : Z;
  tr_status : str; tr_build_hash : str
}.

Inductive harness_sql := SqlInsertRun | SqlPrepareDurations | SqlQueryDurations | SqlCountRuns | SqlTestNames.

(** The error of a statement that fails, and that of a violated index. *)
Record HarnessSql := mkHarnessSql { hs_error : harness_sql -> option str; hs_unique : str }.

(** The columns of the unique index. *)
Definition run_key (r : TestRun) : str * str * str * str * str :=
  (tr_test_name r, tr_crate_name r, tr_file_path r, tr_build_hash r, tr_timestamp r).

Definition record_run (sql : HarnessSql) (r : TestRun) (t : list TestRun) : result str unit * list TestRun :=
  match hs_error sql SqlInsertRun with
  | Some e => (Err e, t)
  | None =>
      if bool_decide (run_key r ∈ map run_key t) then (Err (hs_unique sql), t)
      else (Ok tt, t ++ [mkTestRun (tr_test_name r) (tr_crate_name r) (tr_file_path r) (tr_timestamp r)
                           (as_i64 (tr_duration_ms r)) (tr_status r) (tr_build_hash r)])
  end.

(** ** The collector *)

Inductive MetricsError :=
| InsufficientSamples (have need : nat)
| DatabaseError (s : str)
| RegressionDetect (s : str).

Definition show_metrics_error (e : MetricsError) : str :=
  match e with
  | InsufficientSamples have need =>
      lit "Insufficient samples: have " ++ show_N (N.of_nat have) ++ lit ", need at least " ++ show_N (N.of_nat need)
  | DatabaseError s => lit "Database error: " ++ s
  | RegressionDetect s => lit "Regression detection error: " ++ s
  end.

Record LatencyStats := mkLatencyStats { lt_p50_ms : Z; lt_p95_ms : Z; lt_p99_ms : Z; lt_sample_count : nat }.

Record RegressionResult := mkRegression {
  rg_test_name : str; rg_baseline_p95 : Z; rg_current_p95 : Z; rg_delta_pct : float
}.

(** The error of the insertion is dropped. *)
Definition record_test (sql : HarnessSql) (r : TestRun) (t : list TestRun) : list TestRun :=
  snd (record_run sql r t).

Definition try_record_test (sql : HarnessSql) (r : TestRun) (t : list TestRun) :
    result MetricsError unit * list TestRun :=
  let '(res, t) := record_run sql r t in (map_err DatabaseError res, t).

(** The position of a percentile among [n] values. *)
Definition percentile_index (n : nat) (p : Z) : nat :=
  let idx := f64_as_u64 (f64_round (f64_mul (f64_div (f64_of_Z p) (f64_of_Z 100))
                                      (f64_sub (f64_of_Z (Z.of_nat n)) (f64_of_Z 1)))) in
  Z.to_nat (Z.min idx (Z.of_nat n - 1)).

Definition percentile (sorted_values : list Z) (p : Z) : Z :=
  match sorted_values with
  | [] => 0%Z
  | _ => default 0%Z (sorted_values !! percentile_index (length sorted_values) p)
  end.

(** [ORDER BY duration_ms ASC]: by the signed column, read as unsigned. *)
Definition durations_of (test_name : str) (t : list TestRun) : list Z :=
  map as_u64 (merge_sort Z.le
    (map tr_duration_ms (List.filter (fun r => str_eqb (tr_test_name r) test_name) t))).

Definition durations (sql : HarnessSql) (test_name : str) (t : list TestRun) : result str (list Z) :=
  match hs_error sql SqlPrepareDurations with
  | Some e => Err e
  | None => match hs_error sql SqlQueryDurations with Some e => Err e | None => Ok (durations_of test_name t) end
  end.

Definition latency_stats (sql : HarnessSql) (test_name : str) (t : list TestRun) : result MetricsError LatencyStats :=
  ds ← map_err DatabaseError (durations sql test_name t);
  if length ds <? 3 then Err (InsufficientSamples (length ds) 3)
  else Ok (mkLatencyStats (percentile ds 50) (percentile ds 95) (percentile ds 99) (length ds)).

Definition f32_of_Z (n : Z) : float := binary_normalize 24 128 n 0 false.

Definition flakiness_score (sql : HarnessSql) (test_name : str) (t : list TestRun) : result MetricsError float :=
  match hs_error sql SqlCountRuns with
  | Some e => Err (DatabaseError e)
  | None =>
      let runs := List.filter (fun r => str_eqb (tr_test_name r) test_name) t in
      let failed := List.filter (fun r => str_eqb (tr_status r) (lit "fail")) runs in
      match runs with
      | [] => Ok f_zero
      | _ => Ok (SFdiv 24 128 (f32_of_Z (Z.of_nat (length failed))) (f32_of_Z (Z.of_nat (length runs))))
      end
  end.

Definition p95_for_test (sql : HarnessSql) (test_name : str) (t : list TestRun) : option Z :=
  match durations sql test_name t with
  | Err _ => None
  | Ok ds => if length ds <? 3 then None else Some (percentile ds 95)
  end.

Definition delta_pct (baseline current : Z) : float :=
  f64_mul (f64_div (f64_sub (f64_of_Z current) (f64_of_Z baseline)) (f64_of_Z baseline)) (f64_of_Z 100).

(** A test, as the loop judges it. *)
Definition judge (bsql csql : HarnessSql) (baseline current : list TestRun) (test_name : str) : option RegressionResult :=
  match p95_for_test bsql test_name baseline, p95_for_test csql test_name current with
  | Some bp95, Some cp95 =>
      if (0 <? bp95)%Z && f64_lt (f64_of_Z 20) (delta_pct bp95 cp95)
      then Some (mkRegression test_name bp95 cp95 (delta_pct bp95 cp95)) else None
  | _, _ => None
  end.

(** Over two databases that were opened. *)
Definition regression_detect `{SqlRows} (bsql csql : HarnessSql) (baseline current : list TestRun) :
    result MetricsError (list RegressionResult) :=
  match hs_error bsql SqlTestNames with
  | Some e => Err (RegressionDetect e)
  | None =>
      let test_names := any_order _ (remove_dups (map tr_test_name baseline)) in
      Ok (omap (judge bsql csql baseline current) test_names)
  end.

(** ** The terminal *)

Record GatewayConfig := mkGatewayConfig {
  gf_binary_path : str; gf_port : Z; gf_log_level : str; gf_metrics_db : option str
}.

(** The command line of [spawn_gateway]; [free_port] is what the picker answers. *)
Definition gateway_args (config : GatewayConfig) (free_port : option Z) (exists_ : str -> bool) : list str :=
  let port := if (gf_port config =? 0)%Z then default 0%Z free_port else gf_port config in
  let worker_binary := path_join (parent_of (gf_binary_path config)) (lit "bastion-worker") in
  [lit "--image"; lit "debian:bookworm-slim"] ++
  (if exists_ worker_binary then [lit "--worker-binary"; worker_binary] else []) ++
  [lit "--port"; show_Z port] ++
  (match gf_log_level config with [] => [] | l => [lit "--log-level"; l] end) ++
  (match gf_metrics_db config with Some db => [lit "--metrics-db"; db] | None => [] end).

(** The command line of [spawn_worker]. *)
Definition worker_spawn_args (port : Z) : list str := [lit "--port"; show_Z port].

(** The long options of the gateway and of the worker. *)
Definition gateway_options : list string :=
  ["--socket"; "--image"; "--worker-binary"; "--config"; "--pool-enabled"; "--pool-min-idle"; "--pool-max-idle";
   "--pool-max-total"; "--pool-idle-timeout-ms"; "--pool-refill-interval-ms"; "--registry-addr";
   "--registry-no-tls"; "--http-port"; "--config-dir"; "--watch-config"; "--db-path"; "--dangerous-allow-local";
   "--enrichment-retention-cleanup"; "--test-mode"]%string.
Definition worker_options : list string := ["--gateway-addr"; "--sandbox-id"; "--secret"; "--workdir"]%string.

(** ** The statistics *)

(** A percentile is one of the values. *)
Lemma percentile_in ds p : ds <> [] -> percentile ds p ∈ ds.
Proof.
  intros Hne. unfold percentile. destruct ds as [|d ds]; [done|].
  set (l := d :: ds). assert (Hl : (0 < length l)%nat) by (cbn; lia).
  destruct (l !! percentile_index (length l) p) as [x|] eqn:E; [by eapply list_elem_of_lookup_2|].
  apply lookup_ge_None in E. unfold percentile_index in E. lia.
Qed.

Lemma durations_perm test_name t :
  Permutation (durations_of test_name t)
    (map (fun r => as_u64 (tr_duration_ms r)) (List.filter (fun r => str_eqb (tr_test_name r) test_name) t)).
Proof. unfold durations_of. rewrite merge_sort_Permutation. by rewrite map_map. Qed.

(** A run as the table holds it. *)
Definition stored_run (r : TestRun) : TestRun :=
  mkTestRun (tr_test_name r) (tr_crate_name r) (tr_file_path r) (tr_timestamp r) (as_i64 (tr_duration_ms r))
    (tr_status r) (tr_build_hash r).

Definition recorded (sql : HarnessSql) (rs t : list TestRun) : list TestRun :=
  fold_left (fun t r => record_test sql r t) rs t.

(** A run is added at the end unless its key is there already. *)
Lemma record_adds unique r t :
  record_test (mkHarnessSql (fun _ => None) unique) r t =
    if bool_decide (run_key r ∈ map run_key t) then t else t ++ [stored_run r].
Proof. unfold record_test, record_run. cbn [hs_error]. by case_bool_decide. Qed.

(** The table has every recorded key once, each with a run that was recorded. *)
Lemma recorded_table unique rs t : NoDup (map run_key t) ->
  let t' := recorded (mkHarnessSql (fun _ => None) unique) rs t in
  NoDup (map run_key t') /\ (forall k, k ∈ map run_key t' <-> k ∈ map run_key t \/ k ∈ map run_key rs) /\
  forall r, r ∈ t' -> r ∈ t \/ exists r0, r0 ∈ rs /\ r = stored_run r0.
Proof.
  cbv zeta. revert t. induction rs as [|r rs IH]; intros t Ht.
  - split; [done|]. split; [intros k; cbn; rewrite elem_of_nil; tauto|]. intros r Hr. by left.
  - unfold recorded in *. cbn [fold_left]. rewrite record_adds. case_bool_decide as Hin.
    + destruct (IH t Ht) as (H1 & H2 & H3). split; [done|]. split.
      * intros k. rewrite H2. cbn [map]. rewrite elem_of_cons. intuition congruence.
      * intros r' Hr'. destruct (H3 r' Hr') as [|(r0 & Hr0 & ->)]; [by left|]. right. exists r0. split; [by right|done].
    + assert (Hn : NoDup (map run_key (t ++ [stored_run r]))).
      { rewrite map_app. apply NoDup_app. split; [done|]. split; [|apply NoDup_singleton].
        intros k Hk Hk2%list_elem_of_singleton. subst k. by apply Hin. }
      destruct (IH _ Hn) as (H1 & H2 & H3). split; [done|]. split.
      * intros k. rewrite H2, map_app, elem_of_app. cbn [map]. rewrite list_elem_of_singleton, elem_of_cons.
        change (run_key (stored_run r)) with (run_key r). tauto.
      * intros r' Hr'. destruct (H3 r' Hr') as [[|Hs%list_elem_of_singleton]%elem_of_app|(r0 & Hr0 & ->)];
          [by left|right; exists r; by split; [left|]|right; exists r0; by split; [right|]].
Qed.

(** A duration that the statistics read is that of a recorded run. *)
Lemma duration_recorded unique rs test_name d :
  Forall (fun r => 0 <= tr_duration_ms r <= u64_max)%Z rs ->
  d ∈ durations_of test_name (recorded (mkHarnessSql (fun _ => None) unique) rs []) ->
  exists r, r ∈ rs /\ tr_test_name r = test_name /\ tr_duration_ms r = d.
Proof.
  intros Hrs Hd. set (t := recorded _ rs []) in *.
  assert (Hd' : d ∈ map (fun r => as_u64 (tr_duration_ms r))
                      (List.filter (fun r => str_eqb (tr_test_name r) test_name) t)) by by rewrite <- durations_perm.
  apply list_elem_of_fmap in Hd' as (r & -> & Hr). apply list_elem_of_In, filter_In in Hr as [Hr Hname].
  apply list_elem_of_In in Hr.
  destruct (proj2 (proj2 (recorded_table unique rs [] (NoDup_nil_2 : NoDup (map run_key [])))) r Hr)
    as [Hnil|(r0 & Hr0 & ->)]; [by apply elem_of_nil in Hnil|].
  exists r0. split; [done|]. split; [by apply str_eqb_eq|]. cbn [tr_duration_ms stored_run].
  rewrite Forall_forall in Hrs. by rewrite as_u64_as_i64 by apply (Hrs r0 Hr0).
Qed.

(** Over the runs [rs] recorded in a database that does not fail: of the runs of one
    key - in particular of one test within one time stamp - the table keeps the
    first alone.  Fewer than three runs of a test are refused with their number;
    otherwise every percentile is the duration of one of its runs, as it was
    recorded, and the count is theirs. *)
Theorem latency_spec (unique : str) (rs : list TestRun) (test_name : str) :
  Forall (fun r => 0 <= tr_duration_ms r <= u64_max)%Z rs ->
  let sql := mkHarnessSql (fun _ => None) unique in
  let t := recorded sql rs [] in
  let mine := List.filter (fun r => str_eqb (tr_test_name r) test_name) t in
  NoDup (map run_key t) /\ (forall k, k ∈ map run_key t <-> k ∈ map run_key rs) /\
  match latency_stats sql test_name t with
  | Err e => e = InsufficientSamples (length mine) 3 /\ length mine < 3
  | Ok s =>
      lt_sample_count s = length mine /\ 3 <= length mine /\
      Forall (fun p => exists r, r ∈ rs /\ tr_test_name r = test_name /\ tr_duration_ms r = p)
        [lt_p50_ms s; lt_p95_ms s; lt_p99_ms s]
  end.
Proof.
  intros Hrs. cbv zeta. set (sql := mkHarnessSql (fun _ => None) unique).
  destruct (recorded_table unique rs [] (NoDup_nil_2 : NoDup (map run_key []))) as (K1 & K2 & _).
  fold sql in K1, K2. split; [done|]. split; [intros k; rewrite K2; cbn; rewrite elem_of_nil; tauto|].
  unfold latency_stats, durations. cbn [hs_error sql map_err mbind result_bind].
  pose proof (fun d => duration_recorded unique rs test_name d Hrs) as Hd. fold sql in Hd.
  set (t := recorded sql rs []) in *. set (ds := durations_of test_name t) in *.
  assert (Hlen : length ds = length (List.filter (fun r => str_eqb (tr_test_name r) test_name) t)).
  { unfold ds. by rewrite (Permutation_length (durations_perm test_name t)), length_map. }
  destruct (Nat.ltb_spec (length ds) 3) as [Hl|Hl]; [by rewrite <- Hlen|].
  cbn [lt_sample_count lt_p50_ms lt_p95_ms lt_p99_ms]. split; [done|]. split; [lia|].
  assert (Hne : ds <> []) by (intros E; rewrite E in Hl; cbn in Hl; lia).
  repeat constructor; apply Hd, percentile_in, Hne.
Qed.

(** The regressions between two databases whose statements do not fail: each test of
    the baseline at most once, and reported exactly when both databases have three
    runs of it, the baseline's percentile is not zero, and the current one exceeds it
    by more than twenty per cent, computed in double precision.  A test that only the
    current database knows is never reported. *)
Theorem regressions_spec `{SqlRows} (unique : str) (baseline current : list TestRun) :
  let sql := mkHarnessSql (fun _ => None) unique in
  exists rs, regression_detect sql sql baseline current = Ok rs /\ NoDup (map rg_test_name rs) /\
    forall r, r ∈ rs <->
      let name := rg_test_name r in
      let b := durations_of name baseline in
      let c := durations_of name current in
      name ∈ map tr_test_name baseline /\ 3 <= length b /\ 3 <= length c /\
      r = mkRegression name (percentile b 95) (percentile c 95) (delta_pct (percentile b 95) (percentile c 95)) /\
      (0 < percentile b 95)%Z /\ f64_lt (f64_of_Z 20) (delta_pct (percentile b 95) (percentile c 95)) = true.
Proof.
  cbv zeta. set (sql := mkHarnessSql (fun _ => None) unique). unfold regression_detect. cbn [hs_error sql].
  set (names := any_order _ (remove_dups (map tr_test_name baseline))).
  exists (omap (judge sql sql baseline current) names). split; [done|].
  assert (Hj : forall name r, judge sql sql baseline current name = Some r <->
    let b := durations_of name baseline in
    let c := durations_of name current in
    3 <= length b /\ 3 <= length c /\
    r = mkRegression name (percentile b 95) (percentile c 95) (delta_pct (percentile b 95) (percentile c 95)) /\
    (0 < percentile b 95)%Z /\ f64_lt (f64_of_Z 20) (delta_pct (percentile b 95) (percentile c 95)) = true).
  { intros name r. unfold judge, p95_for_test, durations. cbn [hs_error sql]. cbv zeta.
    destruct (Nat.ltb_spec (length (durations_of name baseline)) 3) as [Hb|Hb]; [split; [done|lia]|].
    destruct (Nat.ltb_spec (length (durations_of name current)) 3) as [Hc|Hc]; [split; [done|lia]|].
    destruct (Z.ltb_spec 0 (percentile (durations_of name baseline) 95)) as [Hp|Hp]; cbn [andb]; [|split; [done|lia]].
    destruct (f64_lt _ _); [|by split; [|intros (_ & _ & _ & _ & ?)]].
    split; [by intros [= <-]|by intros (_ & _ & -> & _)]. }
  assert (Hname : forall name r, judge sql sql baseline current name = Some r -> rg_test_name r = name)
    by by (intros name r (_ & _ & -> & _)%Hj).
  assert (Hnames : NoDup names) by (unfold names; rewrite any_order_perm; apply NoDup_remove_dups).
  split.
  - clear -Hname Hnames. induction Hnames as [|n names Hn _ IH]; [constructor|].
    change (omap (judge sql sql baseline current) (n :: names)) with
      (match judge sql sql baseline current n with
       | Some r => r :: omap (judge sql sql baseline current) names
       | None => omap (judge sql sql baseline current) names
       end).
    destruct (judge sql sql baseline current n) as [r|] eqn:E; [|done]. cbn [map]. constructor; [|done].
    rewrite (Hname n r E). intros (r' & Hr' & (n' & Hn' & E')%list_elem_of_omap)%list_elem_of_fmap.
    apply Hname in E'. congruence.
  - intros r. rewrite list_elem_of_omap. unfold names. split.
    + intros (n & Hn & E). rewrite (Hname n r E). apply Hj in E. split; [|exact E].
      rewrite any_order_perm in Hn. by apply elem_of_remove_dups.
    + intros [Hn E]. exists (rg_test_name r). split; [|by apply Hj].
      rewrite any_order_perm. by apply elem_of_remove_dups.
Qed.

(** Whatever it is configured with, the terminal gives the gateway and the worker an
    option that they do not have. *)
Theorem terminal_options_unknown (config : GatewayConfig) (free_port : option Z) (exists_ : str -> bool) (port : Z) :
  lit "--port" ∈ gateway_args config free_port exists_ /\ lit "--port" ∉ map lit gateway_options /\
  lit "--port" ∈ worker_spawn_args port /\ lit "--port" ∉ map lit worker_options.
Proof.
  split; [|split; [|split]].
  - unfold gateway_args. cbv zeta. rewrite !elem_of_app. right. right. left. by left.
  - apply (bool_decide_unpack (lit "--port" ∉ map lit gateway_options)). by vm_compute.
  - by left.
  - apply (bool_decide_unpack (lit "--port" ∉ map lit worker_options)). by vm_compute.
Qed.

(** ** Concrete runs *)

Module Demo.

Definition run_at (second : string) (duration : Z) (status : string) : TestRun :=
  mkTestRun (lit "pool") (lit "infra") (lit "pool_test.rs") (lit second) duration (lit status) (lit "1").

Definition three : list TestRun := [run_at "1" 10 "pass"; run_at "2" 30 "fail"; run_at "3" 20 "pass"].

Definition ok_sql : HarnessSql := mkHarnessSql (fun _ => None) (lit "UNIQUE constraint failed").

(** The second run of one time stamp is lost. *)
Lemma latency_spec_witness :
  length (recorded ok_sql (three ++ [run_at "1" 99 "pass"]) []) = 3 /\
  match latency_stats ok_sql (lit "pool") (recorded ok_sql (three ++ [run_at "1" 99 "pass"]) []) with
  | Ok s => lt_sample_count s = 3
  | Err _ => False
  end.
Proof.
  split; [vm_compute; reflexivity|].
  destruct (latency_spec (lit "UNIQUE constraint failed") (three ++ [run_at "1" 99 "pass"]) (lit "pool")) as (_ & _ & H).
  { apply (bool_decide_unpack (Forall (fun r => 0 <= tr_duration_ms r <= u64_max)%Z (three ++ [run_at "1" 99 "pass"]))).
    by vm_compute. }
  fold ok_sql in H.
  destruct (latency_stats ok_sql (lit "pool") (recorded ok_sql (three ++ [run_at "1" 99 "pass"]) [])) as [s|e].
  - destruct H as [-> _]. vm_compute. reflexivity.
  - destruct H as [_ H]. vm_compute in H. lia.
Defined.

Example stats_ex :
  latency_stats ok_sql (lit "pool") three = Ok (mkLatencyStats 20 30 30 3).
Proof. vm_compute. reflexivity. Qed.

(** From 30 to 37 is a regression, from 30 to 36 is not. *)
Example regression_ex :
  map (fun c => match judge ok_sql ok_sql three [run_at "1" 10 "pass"; run_at "2" c "pass"; run_at "3" 20 "pass"] (lit "pool") with
                | Some _ => true | None => false end) [36; 37]%Z = [false; true].
Proof. vm_compute. reflexivity. Qed.

Example flaky_ex : flakiness_score ok_sql (lit "pool") three = Ok (SFdiv 24 128 (f32_of_Z 1) (f32_of_Z 3)).
Proof. vm_compute. reflexivity. Qed.
End Demo.
